(* ===== verification/_CoqProject ===== *)
-Q . S2P
Prelude.v
State.v
Spinlock.v
CString.v
Kalloc.v
Vm.v
PageTable.v
VmSpec.v
VmAlloc.v
VmFrame.v
Sched.v
SleepWake.v
Printf.v
Ring.v
Pipe.v
Console.v
Bytes.v
Virtio.v
VirtioSpec.v
VirtioInv.v
VirtioInv2.v
VirtioRefine.v
VirtioRun.v
Bio.v
BioSpec.v
Log.v
LogSpec.v
LogTxn.v
LogGroup.v
Fs.v
FsData.v
FsOp.v
FsAlloc.v
FsMap.v
FsRw.v
FsInode.v
FsDir.v
FsName.v
FsBoot.v
FsFile.v
Mkfs.v
MkfsSpec.v
MkfsRun.v
MkfsImage.v
FsImage.v
File.v
Proc.v
ShmSpec.v
ShmSys.v
SysArg.v
Exec.v
Sysproc.v
Sync.v
Sysfile.v
Syscall.v
Trap.v
Riscv.v
RiscvSpec.v
Mmu.v
Asm.v
Trampoline.v
Start.v
Boot.v
Umalloc.v
Uprog.v
Grep.v
Utils.v
Sh.v
ShGrammar.v
ShRun.v
Grind.v
Tests.v
