(* ===== verification/Prelude.v ===== *)
(** * A verification development for a customised xv6-riscv

    The program is a small Unix for RISC-V: the kernel of xv6-riscv (src/kernel)
    with shared memory segments, priorities, kernel threads, mutexes and
    semaphores added to it, the user library and programs (src/user) and the
    builder of the file system image (src/mkfs).

    ** How the code is represented

    Kernel code is written in a state monad [M S A] (below): a piece of code run
    by one kernel thread returns a value and a state, panics, gives up the CPU
    ([Yield], with what it does when it is resumed in whatever state the others
    left), or runs out of the fuel that bounds a loop.  The state [kernel]
    (State.v) has one field per global variable, with one record per C structure;
    physical memory is a byte map, and page tables, trapframes and the free list
    of pages are read and written in it through their layout.  Machine integers
    are [Z] with their wrap-around written out ([wrap64], [uint32], [int32], ...).
    A kernel function with a panic returns [Panic] with its message.

    User programs (Uprog.v) are trees of system calls: a program asks for a call
    and goes on with any answer of the kernel, so it can be run against a handler
    of calls, or followed through every answer and every fork.

    ** Files, code and theorems

    Prelude   the monad, loops, machine integers, byte memory (this file).
    State     constants, structures and the global state: param.h, riscv.h,
              memlayout.h, proc.h, buf.h, file.h, fs.h and the globals.
    Spinlock  spinlock.c on a multiprocessor state.  At most one CPU is past the
              swap in every interleaving; the lock operations refine the list of
              held locks that the rest of the kernel model uses.
    CString   string.c.  memmove is correct for overlapping areas.
    Kalloc    kalloc.c.  The list threaded through free pages refines a pool of
              pages; after kinit the pool is every page.
    Vm        vm.c.  PageTable, VmSpec, VmAlloc and VmFrame are its theory: a
              three-level tree in memory refines a map from virtual pages to
              entries; mapping, looking up and unmapping are inverse; growing a
              process succeeds completely or leaves its map and the pool as they
              were, but for pages that became part of the tree.
    Sched     the scheduler, sleep, wakeup, kill and priorities of proc.c.  The
              scheduler runs a runnable process of the highest priority.
    SleepWake the interleavings of sleep and wakeup.  No wakeup is lost.
    Printf    printf.c and the output of the console.  Numbers read back.
    Ring, Pipe     pipe.c.  A pipe is a FIFO queue of at most PIPESIZE bytes, from
              the memory of the writers to the memory of the readers.
    Console   console.c and uart.c.  Input bytes refine a line discipline; readers
              are woken when a line is committed and only then.
    Bytes     little-endian fields in blocks.
    Virtio    virtio_disk.c in segments between the points where it sleeps;
              VirtioSpec, VirtioInv, VirtioInv2, VirtioRefine and VirtioRun prove
              that any number of threads, the interrupt handler and the device
              together refine a disk that transfers a block at one moment, that
              nothing panics but the handler on a request the device failed, and
              that with no further kill or spurious interrupt every pending call
              can return.  The device sees notifications and raises interrupts.
    Bio       sleeplock.c and bio.c, over that disk; BioSpec is the theory of the
              cache for a thread alone with it.
    Log       log.c.  LogSpec has what a disk means after a crash, LogTxn the
              operation of a caller alone: wherever the machine stops, a boot finds
              the blocks before it or after it.  LogGroup has operations that
              overlap: they survive together or not at all, and the reservation of
              begin_op is enough.
    Fs        fs.c; FsData has inodes on disk, directory entries and path names.
              FsOp, FsAlloc, FsMap, FsRw, FsInode, FsDir, FsName, FsBoot and
              FsFile follow fs.c from the blocks of one operation through bmap,
              readi and writei, the inode table, directories and paths to
              mounting, for a thread alone with the file system.
    Mkfs      mkfs.c; MkfsSpec, MkfsRun and MkfsImage prove what the image holds.
    FsImage   the kernel mounts the image of mkfs and reads its files; writes from
              kernel memory are atomic; namex walks a path.
    File      file.c and the end of pipe.c.
    Proc      process creation, exit, wait, threads and shared memory of proc.c.
    ShmSpec, ShmSys  the theory of the shared memory calls: after any sequence of
              shmget and shmdt by any processes every segment counts its users,
              all of them see one page, and a page is freed exactly when the last
              one detaches.
    SysArg, Syscall  syscall.c.
    Exec      exec.c.
    Sysproc   sysproc.c; Sync has the theory of its mutexes and semaphores in
              every interleaving.
    Sysfile   sysfile.c.
    Trap      trap.c and the boot sequence of main.c on the first hart.
    Riscv     the hart: registers, control registers with the accessors of
              riscv.h, Sv39 translation, traps and the instructions used by the
              assembly; RiscvSpec is the theory of straight-line code.
    Mmu       the hardware's walk of a page table agrees with walkaddr.
    Asm       entry.S, swtch.S, kernelvec.S and trampoline.S.  swtch resumes the
              context it saved; an interrupt in the kernel is transparent.
    Trampoline  a trap from user space, what the trapframe then holds, and the
              return.
    Start     start.c: every hart enters main in supervisor mode.
    Boot      plic.c, uartinit and main on all harts.
    Umalloc   user/umalloc.c on the memory of a process.  For requests of at most
              2^31 - 32 bytes, blocks handed out do not overlap and are not
              written and no memory is lost; near 2^32 bytes the size overflows.
    Uprog     user programs, ulib.c and printf.c.
    Grep      grep.c.  The matcher decides the language of its pattern; grep
              prints the matching lines that end in a newline, however read
              splits the file.
    Utils     cat, echo, wc, kill, ln, ls, mkdir, rm, zombie and init.
    Sh        the parser of sh.c, which ends on every line; ShGrammar proves it
              equivalent to a grammar; ShRun has runcmd and the main loop and
              proves which descriptors the commands of a line get.
    Grind     grind.c.  Its generator has the full period.
    Tests     the small test programs.

    ** Fuel

    Loops of C that are not counted take a fuel argument.  Loops over the
    process table, the buffer list, the descriptors of a process and the levels
    of a page table have constant bounds taken from the code.  The theorems about
    other loops state how much fuel is enough: the number of calls a process has
    made for malloc and free, the length of the input for grep, wc and cat, four
    times the length of the line for the parser of the shell.  The main loops of
    init, grind and the programs that wait to be killed never end;
    their fuel is how many turns are looked at.  Loops that sleep
    until another thread acts have no bound; the theorems about them are about
    one turn or about interleavings of turns.

    ** Not modelled

    Kernel code in the monad runs under the locks it holds; [swtch] is there the
    point where a thread gives up the CPU, and the trap code is entered with the
    cause and the registers the assembly saves.  That swtch.S and the trap
    assembly do this is proved on the hart of Riscv, which is a second model of
    the same kernel: compiled C code is not modelled, and what the assembly calls
    is characterised by the state it returns in.  Interrupts that arrive in kernel
    code are modelled where the code yields.  The interrupt flag belongs to the
    model of spin locks and to the hart of Riscv, not to the state of the monad, so
    the check of it in sched and the saving of intena there are left out, and one
    round of the scheduler is taken in a state that nobody else changes.

    The hart has no accessed and dirty bits, no MPRV, no caches and no
    translation buffer, so the fences of the code have no effect.

    The theorems about the cache and the file system are about a thread alone with
    them, and those of LogGroup about operations whose steps overlap, each step (a
    call of begin_op, the change of a block, a call of end_op) being run to its end.
    Concurrency inside the functions is the subject of the theorems about spin
    locks, sleep and wakeup, pipes, mutexes and semaphores and the disk driver.

    usertests.c is a list of tests of the kernel, with no behaviour of its own.
    shmtest.c and test_thread.c communicate through memory shared by processes and
    threads, which the trees of system calls do not have.  What mkfs prints and a
    malloc that fails in the shell are left out. *)
From stdpp Require Export base list gmap strings.
From Stdlib Require Export ZArith Lia.

Open Scope Z_scope.

(** ** The kernel-thread monad

    A piece of kernel code run by one kernel thread either returns, panics,
    switches to the scheduler (and is resumed later, in whatever state the
    other threads left), or runs out of the fuel that bounds a C loop. *)
Inductive run (S A : Type) : Type :=
| Ret (a : A) (s : S)
| Panic (msg : string)
| Yield (s : S) (k : S -> run S A)
| Fuel.
Arguments Ret {S A} a s.
Arguments Panic {S A} msg.
Arguments Yield {S A} s k.
Arguments Fuel {S A}.

Definition M (S A : Type) : Type := S -> run S A.

Section Monad.
Context {S : Type}.

Fixpoint run_bind {A B} (r : run S A) (f : A -> M S B) : run S B :=
  match r with
  | Ret a s => f a s
  | Panic msg => Panic msg
  | Yield s k => Yield s (fun s' => run_bind (k s') f)
  | Fuel => Fuel
  end.

Definition ret {A} (a : A) : M S A := fun s => Ret a s.
Definition bind {A B} (m : M S A) (f : A -> M S B) : M S B :=
  fun s => run_bind (m s) f.
Definition panic {A} (msg : string) : M S A := fun _ => Panic msg.
Definition out_of_fuel {A} : M S A := fun _ => Fuel.
Definition get : M S S := fun s => Ret s s.
Definition gets {A} (f : S -> A) : M S A := fun s => Ret (f s) s.
Definition modify (f : S -> S) : M S unit := fun s => Ret tt (f s).
Definition yield_cpu : M S unit := fun s => Yield s (fun s' => Ret tt s').
Definition skip : M S unit := ret tt.

End Monad.

Declare Scope kernel_scope.
Delimit Scope kernel_scope with K.
Notation "'let*' x ':=' c1 'in' c2" := (bind c1 (fun x => c2))
  (at level 10, x pattern, c1 at level 100, c2 at level 200) : kernel_scope.
Notation "c1 ;;; c2" := (bind c1 (fun _ => c2))
  (at level 100, c2 at level 200, right associativity) : kernel_scope.
Open Scope kernel_scope.

(** The state a run ends in, for examples. *)
Definition end_state {S A} (r : run S A) (d : S) : S :=
  match r with
  | Ret _ s => s
  | _ => d
  end.

(** C loops. The body says whether the function returns early. *)
Section Loops.
Context {S : Type}.

(** [for(i = lo; ...)] over a list of indices, with early return. *)
Fixpoint for_each {I R} (l : list I) (body : I -> M S (option R)) : M S (option R) :=
  match l with
  | [] => ret None
  | i :: l' =>
      let* r := body i in
      match r with
      | Some v => ret (Some v)
      | None => for_each l' body
      end
  end.

(** The same without early return. *)
Fixpoint for_all {I} (l : list I) (body : I -> M S unit) : M S unit :=
  match l with
  | [] => skip
  | i :: l' => body i ;;; for_all l' body
  end.

(** The same with a variable carried through the loop. *)
Fixpoint fold_each {I A} (l : list I) (a : A) (body : I -> A -> M S A) : M S A :=
  match l with
  | [] => ret a
  | i :: l' => let* a' := body i a in fold_each l' a' body
  end.

(** [for(i = i0; cond(i); i = step(i)) body] with a bound on the iterations. *)
Fixpoint for_loop {R} (fuel : nat) (i : Z) (cond : Z -> bool) (step : Z -> Z)
    (body : Z -> M S (option R)) : M S (option R) :=
  if cond i then
    match fuel with
    | O => out_of_fuel
    | Datatypes.S fuel' =>
        let* r := body i in
        match r with
        | Some v => ret (Some v)
        | None => for_loop fuel' (step i) cond step body
        end
    end
  else ret None.

(** A [while(1)] whose body either leaves the loop with a value or goes on
    with a new loop state. *)
Fixpoint while_loop {L R} (fuel : nat) (l : L) (body : L -> M S (L + R)) : M S R :=
  match fuel with
  | O => out_of_fuel
  | Datatypes.S fuel' =>
      let* r := body l in
      match r with
      | inl l' => while_loop fuel' l' body
      | inr v => ret v
      end
  end.

End Loops.

(** ** Equations of the monad *)
Section Equations.
Context {S : Type}.

Lemma bind_ret_eq {A B} (m : M S A) (f : A -> M S B) s a s' :
  m s = Ret a s' -> bind m f s = f a s'.
Proof. unfold bind. by intros ->. Qed.

(** A result of the first two steps of a longer sequence. *)
Lemma bind_inv {A B} (m : M S A) (f : A -> M S B) s b s2 : bind m f s = Ret b s2 -> exists a s1, m s = Ret a s1 /\ f a s1 = Ret b s2.
Proof. unfold bind. destruct (m s) as [a s1| | |]; cbn; try done. intros H. by exists a, s1. Qed.

Lemma bind_bind_eq {A B C} (m : M S A) (f : A -> M S B) (k : B -> M S C) s b s' :
  bind m f s = Ret b s' -> bind m (fun a => bind (f a) k) s = k b s'.
Proof. unfold bind. destruct (m s) as [a s1| | |]; simpl; [|done..]. by intros ->. Qed.

Lemma bind_panic_eq {A B} (m : M S A) (f : A -> M S B) s msg :
  m s = Panic msg -> bind m f s = Panic msg.
Proof. unfold bind. by intros ->. Qed.

Lemma bind_yield_eq {A B} (m : M S A) (f : A -> M S B) s s' k :
  m s = Yield s' k -> bind m f s = Yield s' (fun s1 => run_bind (k s1) f).
Proof. unfold bind. by intros ->. Qed.

Lemma run_bind_ret_r {A} (r : run S A) :
  (forall s k, r <> Yield s k) -> run_bind r ret = r.
Proof. destruct r; simpl; try done. intros H. by destruct (H s k). Qed.

Lemma for_all_app {I} (l1 l2 : list I) (body : I -> M S unit) s s' :
  for_all l1 body s = Ret tt s' ->
  for_all (l1 ++ l2) body s = for_all l2 body s'.
Proof.
  revert s. induction l1 as [|i l1 IH]; intros s; simpl.
  - intros H. by inversion H.
  - unfold bind. destruct (body i s) as [[] s1| | |] eqn:E; simpl; try done.
    apply IH.
Qed.

(** A loop whose body acts on the state like [f i] acts like the fold. *)
Lemma for_all_fold {I} (l : list I) (body : I -> M S unit) (f : I -> S -> S)
    (P : S -> Prop) s :
  (forall i s, i ∈ l -> P s -> body i s = Ret tt (f i s) /\ P (f i s)) ->
  P s ->
  for_all l body s = Ret tt (fold_left (fun s i => f i s) l s)
  /\ P (fold_left (fun s i => f i s) l s).
Proof.
  revert s. induction l as [|i l IH]; intros s Hb HP; simpl; [done|].
  destruct (Hb i s) as [E HP']; [set_solver|done|].
  erewrite bind_ret_eq by exact E.
  apply IH; [|done]. intros j s0 Hj. apply Hb. set_solver.
Qed.

(** A counted loop by an invariant on the counter and the state. *)
Lemma for_all_inv (n : Z) (body : Z -> M S unit) (J : Z -> S -> Prop) s :
  0 <= n -> J 0 s ->
  (forall i s, 0 <= i < n -> J i s -> exists s', body i s = Ret tt s' /\ J (i + 1) s') ->
  exists s', for_all (seqZ 0 n) body s = Ret tt s' /\ J n s'.
Proof.
  intros Hn H0 Hb.
  enough (forall k i s, i + Z.of_nat k = n -> 0 <= i -> J i s -> exists s', for_all (seqZ i (Z.of_nat k)) body s = Ret tt s' /\ J n s') as H.
  { destruct (H (Z.to_nat n) 0 s ltac:(lia) ltac:(lia) H0) as (s' & E & HJ). rewrite Z2Nat.id in E by lia. eauto. }
  clear s H0. induction k as [|k IH]; intros i s Hi Hi0 HJ.
  - exists s. replace n with i by lia. done.
  - rewrite seqZ_cons by lia. cbn [for_all]. destruct (Hb i s ltac:(lia) HJ) as (s1 & E1 & HJ1).
    erewrite bind_ret_eq by exact E1. replace (Z.pred (Z.of_nat (Datatypes.S k))) with (Z.of_nat k) by lia.
    apply IH; [lia|lia|]. by replace (Z.succ i) with (i + 1) by lia.
Qed.

(** A search loop: the body returns at the first element that passes a test. *)
Lemma for_each_find {I R} (l : list I) (body : I -> M S (option R)) (test : I -> bool)
    (v : I -> R) (f : I -> S -> S) s :
  (forall i, i ∈ l -> body i s = if test i then Ret (Some (v i)) (f i s) else Ret None s) ->
  for_each l body s =
  match List.find test l with
  | Some i => Ret (Some (v i)) (f i s)
  | None => Ret None s
  end.
Proof.
  induction l as [|i l IH]; intros H; simpl; [done|].
  unfold bind. rewrite (H i) by set_solver. destruct (test i); simpl; [done|].
  apply IH. intros j Hj. apply H. set_solver.
Qed.

End Equations.

Lemma while_done {S L R} fuel (l : L) (body : L -> M S (L + R)) s v s' :
  body l s = Ret (inr v) s' -> while_loop (Datatypes.S fuel) l body s = Ret v s'.
Proof. intros H. cbn [while_loop]. by erewrite bind_ret_eq by exact H. Qed.

Lemma while_next {S L R} fuel (l : L) (body : L -> M S (L + R)) s l' s' :
  body l s = Ret (inl l') s' -> while_loop (Datatypes.S fuel) l body s = while_loop fuel l' body s'.
Proof. intros H. cbn [while_loop]. by erewrite bind_ret_eq by exact H. Qed.

Create HintDb kernel.

(** Arithmetic on the lengths of appended lists. *)
Ltac len_lia :=
  repeat (match goal with
          | H : context [length (_ ++ _)] |- _ => rewrite length_app in H
          | |- context [length (_ ++ _)] => rewrite length_app
          end; simpl in *); simpl in *; lia.

(** Linear arithmetic with division and remainder by constants. *)
Ltac dlia := Z.div_mod_to_equations; lia.

(** [kstep] runs one primitive of the monad in the goal. *)
Ltac kunfold := unfold bind, ret, get, gets, modify, skip, panic, out_of_fuel, yield_cpu.
Ltac ksimpl := kunfold; simpl; repeat (progress (kunfold; simpl)).

(** ** Machine integers *)
Definition wrap64 (z : Z) : Z := z mod 2 ^ 64.
Definition uint32 (z : Z) : Z := z mod 2 ^ 32.
Definition int64 (z : Z) : Z := (z + 2 ^ 63) mod 2 ^ 64 - 2 ^ 63.
Definition int32 (z : Z) : Z := (z + 2 ^ 31) mod 2 ^ 32 - 2 ^ 31.
Definition uint8 (z : Z) : Z := z mod 2 ^ 8.
Definition int16 (z : Z) : Z := (z + 2 ^ 15) mod 2 ^ 16 - 2 ^ 15.
Definition uint16 (z : Z) : Z := z mod 2 ^ 16.

(** The 64-bit register value of a returned [int]. *)
Definition ret64 (z : Z) : Z := wrap64 z.

Lemma wrap64_small z : 0 <= z < 2 ^ 64 -> wrap64 z = z.
Proof. apply Z.mod_small. Qed.
Lemma wrap64_range z : 0 <= wrap64 z < 2 ^ 64.
Proof. unfold wrap64. apply Z.mod_pos_bound. lia. Qed.
Lemma uint32_small z : 0 <= z < 2 ^ 32 -> uint32 z = z.
Proof. apply Z.mod_small. Qed.
Lemma uint32_range z : 0 <= uint32 z < 2 ^ 32.
Proof. unfold uint32. apply Z.mod_pos_bound. lia. Qed.
Lemma int64_small z : - 2 ^ 63 <= z < 2 ^ 63 -> int64 z = z.
Proof. intros H. unfold int64. rewrite Z.mod_small; lia. Qed.
Lemma int32_small z : - 2 ^ 31 <= z < 2 ^ 31 -> int32 z = z.
Proof. intros H. unfold int32. rewrite Z.mod_small; lia. Qed.
Lemma int32_range z : - 2 ^ 31 <= int32 z < 2 ^ 31.
Proof. unfold int32. pose proof (Z.mod_pos_bound (z + 2 ^ 31) (2 ^ 32)). lia. Qed.
Lemma int32_wrap64 z : int32 (wrap64 z) = int32 z.
Proof.
  unfold int32, wrap64. f_equal.
  rewrite <- (Zplus_mod_idemp_l (z mod 2 ^ 64)), <- (Zplus_mod_idemp_l z).
  f_equal. f_equal.
  rewrite Z.mod_mod_divide; [done|]. exists (2 ^ 32). lia.
Qed.

(** ** Byte memory *)
Definition mem := gmap Z Z.

Definition load8 (m : gmap Z Z) (a : Z) : Z := uint8 (default 0 (m !! a)).
Definition store8 (m : gmap Z Z) (a v : Z) : gmap Z Z := <[a := uint8 v]> m.

(** Little-endian access to [n] bytes. *)
Fixpoint load_le (m : gmap Z Z) (a : Z) (n : nat) : Z :=
  match n with
  | O => 0
  | S n' => load8 m a + 256 * load_le m (a + 1) n'
  end.
Fixpoint store_le (m : gmap Z Z) (a : Z) (n : nat) (v : Z) : gmap Z Z :=
  match n with
  | O => m
  | S n' => store_le (store8 m a v) (a + 1) n' (v / 256)
  end.
Definition load64 (m : gmap Z Z) (a : Z) : Z := load_le m a 8.
Definition store64 (m : gmap Z Z) (a v : Z) : gmap Z Z := store_le m a 8 v.
Definition load32 (m : gmap Z Z) (a : Z) : Z := load_le m a 4.
Definition store32 (m : gmap Z Z) (a v : Z) : gmap Z Z := store_le m a 4 v.

(** [agree lo hi m m']: the memories hold the same bytes in [lo, hi). *)
Definition agree (lo hi : Z) (m m' : gmap Z Z) : Prop :=
  forall a, lo <= a < hi -> load8 m' a = load8 m a.

Lemma load8_range m a : 0 <= load8 m a < 256.
Proof. unfold load8, uint8. apply Z.mod_pos_bound. lia. Qed.

Lemma load8_store8 m a b v :
  load8 (store8 m a v) b = if decide (a = b) then uint8 v else load8 m b.
Proof.
  unfold load8, store8. rewrite lookup_insert. case_decide; [|done].
  simpl. unfold uint8. by rewrite Z.mod_mod by lia.
Qed.

Lemma load_le_range m a n : 0 <= load_le m a n < 256 ^ Z.of_nat n.
Proof.
  revert a. induction n as [|n IH]; intros a; [simpl; lia|].
  rewrite Nat2Z.inj_succ, Z.pow_succ_r by lia. cbn [load_le].
  pose proof (load8_range m a). specialize (IH (a + 1)). lia.
Qed.

Lemma load_le_agree m m' a n :
  agree a (a + Z.of_nat n) m m' -> load_le m' a n = load_le m a n.
Proof.
  revert a. induction n as [|n IH]; intros a H; [done|]. cbn [load_le].
  rewrite (H a) by lia. f_equal. f_equal. apply IH. intros b Hb. apply H. lia.
Qed.

Lemma load8_store_le m a n v b :
  ~ (a <= b < a + Z.of_nat n) -> load8 (store_le m a n v) b = load8 m b.
Proof.
  revert m a v. induction n as [|n IH]; intros m a v H; [done|]. cbn [store_le].
  rewrite IH by lia. rewrite load8_store8. case_decide; [lia|done].
Qed.

Lemma load_store_le_same m a n v :
  load_le (store_le m a n v) a n = v mod 256 ^ Z.of_nat n.
Proof.
  revert m a v. induction n as [|n IH]; intros m a v.
  { simpl. by rewrite Z.mod_1_r. }
  cbn [load_le store_le]. rewrite IH.
  rewrite load8_store_le by lia. rewrite load8_store8, decide_True by done.
  rewrite Nat2Z.inj_succ, Z.pow_succ_r by lia.
  unfold uint8. change (2 ^ 8) with 256.
  rewrite Z.rem_mul_r by lia. lia.
Qed.

Lemma load_store_le_ne m a n v b k :
  b + Z.of_nat k <= a \/ a + Z.of_nat n <= b ->
  load_le (store_le m a n v) b k = load_le m b k.
Proof.
  intros H. apply load_le_agree. intros c Hc. apply load8_store_le. lia.
Qed.

#[global] Arguments load8 : simpl never.
#[global] Arguments store8 : simpl never.
#[global] Arguments load64 : simpl never.
#[global] Arguments store64 : simpl never.
#[global] Arguments load32 : simpl never.
#[global] Arguments store32 : simpl never.
#[global] Arguments wrap64 : simpl never.
#[global] Arguments uint32 : simpl never.
#[global] Arguments int32 : simpl never.
#[global] Arguments int64 : simpl never.

Lemma load64_range m a : 0 <= load64 m a < 2 ^ 64.
Proof. apply (load_le_range m a 8). Qed.
Lemma load64_store64_eq m a v : 0 <= v < 2 ^ 64 -> load64 (store64 m a v) a = v.
Proof.
  intros H. unfold load64, store64. rewrite load_store_le_same.
  apply Z.mod_small. apply H.
Qed.
Lemma load64_store64_ne m a b v :
  b + 8 <= a \/ a + 8 <= b -> load64 (store64 m a v) b = load64 m b.
Proof. intros H. apply load_store_le_ne. lia. Qed.
Lemma load64_agree m m' a :
  agree a (a + 8) m m' -> load64 m' a = load64 m a.
Proof. intros H. apply load_le_agree. apply H. Qed.
Lemma load8_store64_ne m a b v :
  ~ (a <= b < a + 8) -> load8 (store64 m a v) b = load8 m b.
Proof. intros H. apply load8_store_le. lia. Qed.

Lemma load64_zero m a : (forall b, a <= b < a + 8 -> load8 m b = 0) -> load64 m a = 0.
Proof. intros H. unfold load64. cbn [load_le]. by rewrite !H by lia. Qed.

Lemma load32_range m a : 0 <= load32 m a < 2 ^ 32.
Proof. apply (load_le_range m a 4). Qed.
Lemma load32_agree m m' a :
  agree a (a + 4) m m' -> load32 m' a = load32 m a.
Proof. intros H. apply load_le_agree. apply H. Qed.
Lemma load32_store32_eq m a v : load32 (store32 m a v) a = uint32 v.
Proof. unfold load32, store32. rewrite load_store_le_same. done. Qed.
Lemma load32_store32_ne m a b v :
  b + 4 <= a \/ a + 4 <= b -> load32 (store32 m a v) b = load32 m b.
Proof. intros H. apply load_store_le_ne. lia. Qed.
Lemma load32_store64_ne m a b v :
  b + 4 <= a \/ a + 8 <= b -> load32 (store64 m a v) b = load32 m b.
Proof. intros H. apply load_store_le_ne. lia. Qed.
Lemma load64_store32_ne m a b v :
  b + 8 <= a \/ a + 4 <= b -> load64 (store32 m a v) b = load64 m b.
Proof. intros H. apply load_store_le_ne. lia. Qed.
Lemma load8_store32_ne m a b v :
  ~ (a <= b < a + 4) -> load8 (store32 m a v) b = load8 m b.
Proof. intros H. apply load8_store_le. lia. Qed.

(** From here on memory accesses are only seen through their lemmas. *)
#[global] Opaque load8 store8 load64 store64 load32 store32.
