(* ===== verification/State.v ===== *)
(** * The kernel's data: constants, structures and the global state

    One Rocq record per C structure of the kernel headers, and one record
    [kernel] holding the kernel's global variables.  The physical memory is a
    byte map; structures that live in pages returned by [kalloc] and are
    accessed through their layout (page tables, trapframes, the free list)
    live in that memory, a pipe is kept in [k_pipes] under its page's address. *)
From S2P Require Import Prelude.

Open Scope Z_scope.

(** ** param.h *)
Definition NPROC : Z := 64.
Definition NCPU : Z := 8.
Definition NOFILE : Z := 16.
Definition NFILE : Z := 100.
Definition NINODE : Z := 50.
Definition NDEV : Z := 10.
Definition ROOTDEV : Z := 1.
Definition MAXARG : Z := 32.
Definition MAXOPBLOCKS : Z := 10.
Definition LOGBLOCKS : Z := MAXOPBLOCKS * 3.
Definition NBUF : Z := MAXOPBLOCKS * 3.
Definition FSSIZE : Z := 2000.
Definition MAXPATH : Z := 128.
Definition USERSTACK : Z := 1.

(** ** riscv.h *)
Definition PGSIZE : Z := 4096.
Definition PGSHIFT : Z := 12.
Definition PGROUNDUP (sz : Z) : Z := Z.land (wrap64 (sz + PGSIZE - 1)) (wrap64 (Z.lnot (PGSIZE - 1))).
Definition PGROUNDDOWN (a : Z) : Z := Z.land a (wrap64 (Z.lnot (PGSIZE - 1))).
Definition PTE_V : Z := Z.shiftl 1 0.
Definition PTE_R : Z := Z.shiftl 1 1.
Definition PTE_W : Z := Z.shiftl 1 2.
Definition PTE_X : Z := Z.shiftl 1 3.
Definition PTE_U : Z := Z.shiftl 1 4.
Definition PA2PTE (pa : Z) : Z := wrap64 (Z.shiftl (Z.shiftr pa 12) 10).
Definition PTE2PA (pte : Z) : Z := wrap64 (Z.shiftl (Z.shiftr pte 10) 12).
Definition PTE_FLAGS (pte : Z) : Z := Z.land pte 1023.
Definition PXMASK : Z := 511.
Definition PXSHIFT (level : Z) : Z := PGSHIFT + 9 * level.
Definition PX (level va : Z) : Z := Z.land (Z.shiftr va (PXSHIFT level)) PXMASK.
Definition MAXVA : Z := Z.shiftl 1 (9 + 9 + 9 + 12 - 1).
Definition MAKE_SATP (pagetable : Z) : Z := Z.lor (Z.shiftl 8 60) (Z.shiftr pagetable 12).

(** ** memlayout.h *)
Definition UART0 : Z := 268435456.
Definition VIRTIO0 : Z := 268439552.
Definition PLIC : Z := 201326592.
Definition KERNBASE : Z := 2147483648.
Definition PHYSTOP : Z := KERNBASE + 128 * 1024 * 1024.
Definition TRAMPOLINE : Z := MAXVA - PGSIZE.
Definition KSTACK (p : Z) : Z := TRAMPOLINE - (p + 1) * 2 * PGSIZE.
Definition TRAPFRAME : Z := TRAMPOLINE - PGSIZE.
Definition SHM_PAGES : Z := 8.
Definition SHMBASE : Z := TRAPFRAME - SHM_PAGES * PGSIZE.

(** ** fs.h *)
Definition ROOTINO : Z := 1.
Definition BSIZE : Z := 1024.
Definition FSMAGIC : Z := 270544960.
Definition NDIRECT : Z := 12.
Definition NINDIRECT : Z := BSIZE / 4.
Definition MAXFILE : Z := NDIRECT + NINDIRECT.
Definition IPB : Z := BSIZE / 64.
Definition BPB : Z := BSIZE * 8.
Definition DIRSIZ : Z := 14.

(** ** Locks and wait channels

    A spinlock and a wait channel are identified by the object whose address
    the code passes. *)
Inductive lockid :=
| LKmem | LPid | LWait | LProc (i : nat) | LShm (key : nat) | LFtable | LItable
| LLog | LBcache | LPipe (a : Z) | LBuf (i : nat) | LInode (i : nat) | LTicks
| LMutex (i : nat) | LSem (i : nat) | LCons | LPr | LUart | LDisk.
#[global] Instance lockid_eq_dec : EqDecision lockid.
Proof. solve_decision. Defined.

Inductive chanid :=
| CNull | CProc (i : nat) | CTicks | CMutex (i : nat) | CSem (i : nat)
| CPipeR (a : Z) | CPipeW (a : Z) | CLog | CBuf (i : nat) | CInode (i : nat)
| CCons | CUart | CDisk.
#[global] Instance chanid_eq_dec : EqDecision chanid.
Proof. solve_decision. Defined.

(** ** proc.h *)
Inductive procstate := UNUSED | USED | SLEEPING | RUNNABLE | RUNNING | ZOMBIE.
#[global] Instance procstate_eq_dec : EqDecision procstate.
Proof. solve_decision. Defined.

(** [struct context] *)
Record context := mkContext {
  ctx_ra : Z;
  ctx_sp : Z;
  ctx_s : list Z; (* s0 .. s11 *)
}.

(** [struct proc]; its spinlock is [LProc i] *)
Record proc := mkProc {
  p_state : procstate;
  p_chan : chanid;
  p_killed : Z;
  p_xstate : Z;
  p_pid : Z;
  p_priority : Z;
  p_is_thread : Z;
  p_tgid : Z;
  p_parent : option nat;
  p_kstack : Z;
  p_sz : Z;
  p_pagetable : Z;
  p_trapframe : Z;
  p_context : context;
  p_ofile : list (option nat);
  p_cwd : option nat;
  p_name : list Z;
  p_shm_mask : Z;
}.

(** Field updates of [struct proc]. *)
Definition set_p_state (v : procstate) (x : proc) : proc :=
  mkProc v (p_chan x) (p_killed x) (p_xstate x) (p_pid x) (p_priority x) (p_is_thread x) (p_tgid x) (p_parent x) (p_kstack x) (p_sz x) (p_pagetable x) (p_trapframe x) (p_context x) (p_ofile x) (p_cwd x) (p_name x) (p_shm_mask x).
Definition set_p_chan (v : chanid) (x : proc) : proc :=
  mkProc (p_state x) v (p_killed x) (p_xstate x) (p_pid x) (p_priority x) (p_is_thread x) (p_tgid x) (p_parent x) (p_kstack x) (p_sz x) (p_pagetable x) (p_trapframe x) (p_context x) (p_ofile x) (p_cwd x) (p_name x) (p_shm_mask x).
Definition set_p_killed (v : Z) (x : proc) : proc :=
  mkProc (p_state x) (p_chan x) v (p_xstate x) (p_pid x) (p_priority x) (p_is_thread x) (p_tgid x) (p_parent x) (p_kstack x) (p_sz x) (p_pagetable x) (p_trapframe x) (p_context x) (p_ofile x) (p_cwd x) (p_name x) (p_shm_mask x).
Definition set_p_xstate (v : Z) (x : proc) : proc :=
  mkProc (p_state x) (p_chan x) (p_killed x) v (p_pid x) (p_priority x) (p_is_thread x) (p_tgid x) (p_parent x) (p_kstack x) (p_sz x) (p_pagetable x) (p_trapframe x) (p_context x) (p_ofile x) (p_cwd x) (p_name x) (p_shm_mask x).
Definition set_p_pid (v : Z) (x : proc) : proc :=
  mkProc (p_state x) (p_chan x) (p_killed x) (p_xstate x) v (p_priority x) (p_is_thread x) (p_tgid x) (p_parent x) (p_kstack x) (p_sz x) (p_pagetable x) (p_trapframe x) (p_context x) (p_ofile x) (p_cwd x) (p_name x) (p_shm_mask x).
Definition set_p_priority (v : Z) (x : proc) : proc :=
  mkProc (p_state x) (p_chan x) (p_killed x) (p_xstate x) (p_pid x) v (p_is_thread x) (p_tgid x) (p_parent x) (p_kstack x) (p_sz x) (p_pagetable x) (p_trapframe x) (p_context x) (p_ofile x) (p_cwd x) (p_name x) (p_shm_mask x).
Definition set_p_is_thread (v : Z) (x : proc) : proc :=
  mkProc (p_state x) (p_chan x) (p_killed x) (p_xstate x) (p_pid x) (p_priority x) v (p_tgid x) (p_parent x) (p_kstack x) (p_sz x) (p_pagetable x) (p_trapframe x) (p_context x) (p_ofile x) (p_cwd x) (p_name x) (p_shm_mask x).
Definition set_p_tgid (v : Z) (x : proc) : proc :=
  mkProc (p_state x) (p_chan x) (p_killed x) (p_xstate x) (p_pid x) (p_priority x) (p_is_thread x) v (p_parent x) (p_kstack x) (p_sz x) (p_pagetable x) (p_trapframe x) (p_context x) (p_ofile x) (p_cwd x) (p_name x) (p_shm_mask x).
Definition set_p_parent (v : option nat) (x : proc) : proc :=
  mkProc (p_state x) (p_chan x) (p_killed x) (p_xstate x) (p_pid x) (p_priority x) (p_is_thread x) (p_tgid x) v (p_kstack x) (p_sz x) (p_pagetable x) (p_trapframe x) (p_context x) (p_ofile x) (p_cwd x) (p_name x) (p_shm_mask x).
Definition set_p_kstack (v : Z) (x : proc) : proc :=
  mkProc (p_state x) (p_chan x) (p_killed x) (p_xstate x) (p_pid x) (p_priority x) (p_is_thread x) (p_tgid x) (p_parent x) v (p_sz x) (p_pagetable x) (p_trapframe x) (p_context x) (p_ofile x) (p_cwd x) (p_name x) (p_shm_mask x).
Definition set_p_sz (v : Z) (x : proc) : proc :=
  mkProc (p_state x) (p_chan x) (p_killed x) (p_xstate x) (p_pid x) (p_priority x) (p_is_thread x) (p_tgid x) (p_parent x) (p_kstack x) v (p_pagetable x) (p_trapframe x) (p_context x) (p_ofile x) (p_cwd x) (p_name x) (p_shm_mask x).
Definition set_p_pagetable (v : Z) (x : proc) : proc :=
  mkProc (p_state x) (p_chan x) (p_killed x) (p_xstate x) (p_pid x) (p_priority x) (p_is_thread x) (p_tgid x) (p_parent x) (p_kstack x) (p_sz x) v (p_trapframe x) (p_context x) (p_ofile x) (p_cwd x) (p_name x) (p_shm_mask x).
Definition set_p_trapframe (v : Z) (x : proc) : proc :=
  mkProc (p_state x) (p_chan x) (p_killed x) (p_xstate x) (p_pid x) (p_priority x) (p_is_thread x) (p_tgid x) (p_parent x) (p_kstack x) (p_sz x) (p_pagetable x) v (p_context x) (p_ofile x) (p_cwd x) (p_name x) (p_shm_mask x).
Definition set_p_context (v : context) (x : proc) : proc :=
  mkProc (p_state x) (p_chan x) (p_killed x) (p_xstate x) (p_pid x) (p_priority x) (p_is_thread x) (p_tgid x) (p_parent x) (p_kstack x) (p_sz x) (p_pagetable x) (p_trapframe x) v (p_ofile x) (p_cwd x) (p_name x) (p_shm_mask x).
Definition set_p_ofile (v : list (option nat)) (x : proc) : proc :=
  mkProc (p_state x) (p_chan x) (p_killed x) (p_xstate x) (p_pid x) (p_priority x) (p_is_thread x) (p_tgid x) (p_parent x) (p_kstack x) (p_sz x) (p_pagetable x) (p_trapframe x) (p_context x) v (p_cwd x) (p_name x) (p_shm_mask x).
Definition set_p_cwd (v : option nat) (x : proc) : proc :=
  mkProc (p_state x) (p_chan x) (p_killed x) (p_xstate x) (p_pid x) (p_priority x) (p_is_thread x) (p_tgid x) (p_parent x) (p_kstack x) (p_sz x) (p_pagetable x) (p_trapframe x) (p_context x) (p_ofile x) v (p_name x) (p_shm_mask x).
Definition set_p_name (v : list Z) (x : proc) : proc :=
  mkProc (p_state x) (p_chan x) (p_killed x) (p_xstate x) (p_pid x) (p_priority x) (p_is_thread x) (p_tgid x) (p_parent x) (p_kstack x) (p_sz x) (p_pagetable x) (p_trapframe x) (p_context x) (p_ofile x) (p_cwd x) v (p_shm_mask x).
Definition set_p_shm_mask (v : Z) (x : proc) : proc :=
  mkProc (p_state x) (p_chan x) (p_killed x) (p_xstate x) (p_pid x) (p_priority x) (p_is_thread x) (p_tgid x) (p_parent x) (p_kstack x) (p_sz x) (p_pagetable x) (p_trapframe x) (p_context x) (p_ofile x) (p_cwd x) (p_name x) v.

(** ** proc.c, sysproc.c *)
(** [struct shmseg]; its spinlock is [LShm key] *)
Record shmseg := mkShmseg {
  shm_pa : Z;
  shm_refcnt : Z;
}.

(** [struct kmutex]; its spinlock is [LMutex id] *)
Record kmutex := mkKmutex {
  km_used : Z;
  km_locked : Z;
}.

(** [struct ksem]; its spinlock is [LSem id] *)
Record ksem := mkKsem {
  ks_used : Z;
  ks_count : Z;
}.

(** ** sleeplock.h, pipe.c, file.h, buf.h, log.c, console.c *)
(** [struct sleeplock] *)
Record sleeplock := mkSleeplock {
  sl_locked : Z;
  sl_pid : Z;
}.

(** [struct pipe]; its spinlock is [LPipe a] *)
Record pipe := mkPipe {
  pi_data : list Z;
  pi_nread : Z;
  pi_nwrite : Z;
  pi_readopen : Z;
  pi_writeopen : Z;
}.

(** Field updates of [struct pipe]. *)
Definition set_pi_data (v : list Z) (x : pipe) : pipe :=
  mkPipe v (pi_nread x) (pi_nwrite x) (pi_readopen x) (pi_writeopen x).
Definition set_pi_nread (v : Z) (x : pipe) : pipe :=
  mkPipe (pi_data x) v (pi_nwrite x) (pi_readopen x) (pi_writeopen x).
Definition set_pi_nwrite (v : Z) (x : pipe) : pipe :=
  mkPipe (pi_data x) (pi_nread x) v (pi_readopen x) (pi_writeopen x).
Definition set_pi_readopen (v : Z) (x : pipe) : pipe :=
  mkPipe (pi_data x) (pi_nread x) (pi_nwrite x) v (pi_writeopen x).
Definition set_pi_writeopen (v : Z) (x : pipe) : pipe :=
  mkPipe (pi_data x) (pi_nread x) (pi_nwrite x) (pi_readopen x) v.

Inductive fdtype := FD_NONE | FD_PIPE | FD_INODE | FD_DEVICE.
#[global] Instance fdtype_eq_dec : EqDecision fdtype.
Proof. solve_decision. Defined.

(** [struct file] *)
Record file := mkFile {
  f_type : fdtype;
  f_ref : Z;
  f_readable : Z;
  f_writable : Z;
  f_pipe : Z;
  f_ip : option nat;
  f_off : Z;
  f_major : Z;
}.

(** Field updates of [struct file]. *)
Definition set_f_type (v : fdtype) (x : file) : file :=
  mkFile v (f_ref x) (f_readable x) (f_writable x) (f_pipe x) (f_ip x) (f_off x) (f_major x).
Definition set_f_ref (v : Z) (x : file) : file :=
  mkFile (f_type x) v (f_readable x) (f_writable x) (f_pipe x) (f_ip x) (f_off x) (f_major x).
Definition set_f_readable (v : Z) (x : file) : file :=
  mkFile (f_type x) (f_ref x) v (f_writable x) (f_pipe x) (f_ip x) (f_off x) (f_major x).
Definition set_f_writable (v : Z) (x : file) : file :=
  mkFile (f_type x) (f_ref x) (f_readable x) v (f_pipe x) (f_ip x) (f_off x) (f_major x).
Definition set_f_pipe (v : Z) (x : file) : file :=
  mkFile (f_type x) (f_ref x) (f_readable x) (f_writable x) v (f_ip x) (f_off x) (f_major x).
Definition set_f_ip (v : option nat) (x : file) : file :=
  mkFile (f_type x) (f_ref x) (f_readable x) (f_writable x) (f_pipe x) v (f_off x) (f_major x).
Definition set_f_off (v : Z) (x : file) : file :=
  mkFile (f_type x) (f_ref x) (f_readable x) (f_writable x) (f_pipe x) (f_ip x) v (f_major x).
Definition set_f_major (v : Z) (x : file) : file :=
  mkFile (f_type x) (f_ref x) (f_readable x) (f_writable x) (f_pipe x) (f_ip x) (f_off x) v.

(** [struct inode] *)
Record inode := mkInode {
  i_dev : Z;
  i_inum : Z;
  i_ref : Z;
  i_lock : sleeplock;
  i_valid : Z;
  i_type : Z;
  i_major : Z;
  i_minor : Z;
  i_nlink : Z;
  i_size : Z;
  i_addrs : list Z;
}.

(** Field updates of [struct inode]. *)
Definition set_i_dev (v : Z) (x : inode) : inode :=
  mkInode v (i_inum x) (i_ref x) (i_lock x) (i_valid x) (i_type x) (i_major x) (i_minor x) (i_nlink x) (i_size x) (i_addrs x).
Definition set_i_inum (v : Z) (x : inode) : inode :=
  mkInode (i_dev x) v (i_ref x) (i_lock x) (i_valid x) (i_type x) (i_major x) (i_minor x) (i_nlink x) (i_size x) (i_addrs x).
Definition set_i_ref (v : Z) (x : inode) : inode :=
  mkInode (i_dev x) (i_inum x) v (i_lock x) (i_valid x) (i_type x) (i_major x) (i_minor x) (i_nlink x) (i_size x) (i_addrs x).
Definition set_i_lock (v : sleeplock) (x : inode) : inode :=
  mkInode (i_dev x) (i_inum x) (i_ref x) v (i_valid x) (i_type x) (i_major x) (i_minor x) (i_nlink x) (i_size x) (i_addrs x).
Definition set_i_valid (v : Z) (x : inode) : inode :=
  mkInode (i_dev x) (i_inum x) (i_ref x) (i_lock x) v (i_type x) (i_major x) (i_minor x) (i_nlink x) (i_size x) (i_addrs x).
Definition set_i_type (v : Z) (x : inode) : inode :=
  mkInode (i_dev x) (i_inum x) (i_ref x) (i_lock x) (i_valid x) v (i_major x) (i_minor x) (i_nlink x) (i_size x) (i_addrs x).
Definition set_i_major (v : Z) (x : inode) : inode :=
  mkInode (i_dev x) (i_inum x) (i_ref x) (i_lock x) (i_valid x) (i_type x) v (i_minor x) (i_nlink x) (i_size x) (i_addrs x).
Definition set_i_minor (v : Z) (x : inode) : inode :=
  mkInode (i_dev x) (i_inum x) (i_ref x) (i_lock x) (i_valid x) (i_type x) (i_major x) v (i_nlink x) (i_size x) (i_addrs x).
Definition set_i_nlink (v : Z) (x : inode) : inode :=
  mkInode (i_dev x) (i_inum x) (i_ref x) (i_lock x) (i_valid x) (i_type x) (i_major x) (i_minor x) v (i_size x) (i_addrs x).
Definition set_i_size (v : Z) (x : inode) : inode :=
  mkInode (i_dev x) (i_inum x) (i_ref x) (i_lock x) (i_valid x) (i_type x) (i_major x) (i_minor x) (i_nlink x) v (i_addrs x).
Definition set_i_addrs (v : list Z) (x : inode) : inode :=
  mkInode (i_dev x) (i_inum x) (i_ref x) (i_lock x) (i_valid x) (i_type x) (i_major x) (i_minor x) (i_nlink x) (i_size x) v.

(** [struct buf]; buffers are named by their index in [bcache.buf], the list head by NBUF *)
Record buf := mkBuf {
  b_valid : Z;
  b_dev : Z;
  b_blockno : Z;
  b_lock : sleeplock;
  b_refcnt : Z;
  b_prev : nat;
  b_next : nat;
  b_data : list Z;
}.

(** Field updates of [struct buf]. *)
Definition set_b_valid (v : Z) (x : buf) : buf :=
  mkBuf v (b_dev x) (b_blockno x) (b_lock x) (b_refcnt x) (b_prev x) (b_next x) (b_data x).
Definition set_b_dev (v : Z) (x : buf) : buf :=
  mkBuf (b_valid x) v (b_blockno x) (b_lock x) (b_refcnt x) (b_prev x) (b_next x) (b_data x).
Definition set_b_blockno (v : Z) (x : buf) : buf :=
  mkBuf (b_valid x) (b_dev x) v (b_lock x) (b_refcnt x) (b_prev x) (b_next x) (b_data x).
Definition set_b_lock (v : sleeplock) (x : buf) : buf :=
  mkBuf (b_valid x) (b_dev x) (b_blockno x) v (b_refcnt x) (b_prev x) (b_next x) (b_data x).
Definition set_b_refcnt (v : Z) (x : buf) : buf :=
  mkBuf (b_valid x) (b_dev x) (b_blockno x) (b_lock x) v (b_prev x) (b_next x) (b_data x).
Definition set_b_prev (v : nat) (x : buf) : buf :=
  mkBuf (b_valid x) (b_dev x) (b_blockno x) (b_lock x) (b_refcnt x) v (b_next x) (b_data x).
Definition set_b_next (v : nat) (x : buf) : buf :=
  mkBuf (b_valid x) (b_dev x) (b_blockno x) (b_lock x) (b_refcnt x) (b_prev x) v (b_data x).
Definition set_b_data (v : list Z) (x : buf) : buf :=
  mkBuf (b_valid x) (b_dev x) (b_blockno x) (b_lock x) (b_refcnt x) (b_prev x) (b_next x) v.

(** [struct log] with its [struct logheader] *)
Record log := mkLog {
  l_start : Z;
  l_outstanding : Z;
  l_committing : Z;
  l_dev : Z;
  l_n : Z; (* lh.n *)
  l_block : list Z; (* lh.block *)
}.

(** Field updates of [struct log]. *)
Definition set_l_start (v : Z) (x : log) : log :=
  mkLog v (l_outstanding x) (l_committing x) (l_dev x) (l_n x) (l_block x).
Definition set_l_outstanding (v : Z) (x : log) : log :=
  mkLog (l_start x) v (l_committing x) (l_dev x) (l_n x) (l_block x).
Definition set_l_committing (v : Z) (x : log) : log :=
  mkLog (l_start x) (l_outstanding x) v (l_dev x) (l_n x) (l_block x).
Definition set_l_dev (v : Z) (x : log) : log :=
  mkLog (l_start x) (l_outstanding x) (l_committing x) v (l_n x) (l_block x).
Definition set_l_n (v : Z) (x : log) : log :=
  mkLog (l_start x) (l_outstanding x) (l_committing x) (l_dev x) v (l_block x).
Definition set_l_block (v : list Z) (x : log) : log :=
  mkLog (l_start x) (l_outstanding x) (l_committing x) (l_dev x) (l_n x) v.

(** [struct superblock] *)
Record superblock := mkSuperblock {
  sb_magic : Z;
  sb_size : Z;
  sb_nblocks : Z;
  sb_ninodes : Z;
  sb_nlog : Z;
  sb_logstart : Z;
  sb_inodestart : Z;
  sb_bmapstart : Z;
}.

(** [cons] of console.c *)
Record cons := mkCons {
  c_buf : list Z;
  c_r : Z;
  c_w : Z;
  c_e : Z;
}.

(** Field updates of [cons]. *)
Definition set_c_buf (v : list Z) (x : cons) : cons :=
  mkCons v (c_r x) (c_w x) (c_e x).
Definition set_c_r (v : Z) (x : cons) : cons :=
  mkCons (c_buf x) v (c_w x) (c_e x).
Definition set_c_w (v : Z) (x : cons) : cons :=
  mkCons (c_buf x) (c_r x) v (c_e x).
Definition set_c_e (v : Z) (x : cons) : cons :=
  mkCons (c_buf x) (c_r x) (c_w x) v.

(** ** The global state *)
(** Addresses the linker fixes (kernel.ld). *)
Record symbols := mkSymbols {
  sym_end : Z; (* first address after the kernel *)
  sym_etext : Z; (* end of kernel text *)
  sym_trampoline : Z;
  sym_forkret : Z;
  sym_uservec : Z;
  sym_usertrap : Z;
}.

(** The kernel's global variables, as seen by one kernel thread. *)
Record kernel := mkKernel {
  k_sym : symbols; (* linker symbols *)
  k_mem : gmap Z Z; (* physical memory *)
  k_freelist : Z; (* kmem.freelist *)
  k_held : list lockid; (* spinlocks held by this CPU *)
  k_cur : option nat; (* mycpu()->proc *)
  k_procs : list proc;
  k_nextpid : Z;
  k_initproc : option nat;
  k_first : Z; (* forkret: first *)
  k_kpagetable : Z; (* kernel_pagetable *)
  k_shm : list shmseg; (* shmtable *)
  k_mutexes : list kmutex;
  k_sems : list ksem;
  k_ticks : Z;
  k_pipes : gmap Z pipe;
  k_files : list file; (* ftable.file *)
  k_inodes : list inode; (* itable.inode *)
  k_sb : superblock;
  k_log : log;
  k_bufs : list buf; (* bcache.buf, then bcache.head *)
  k_disk : list (Z * list Z); (* the writes the disk has done, the latest first *)
  k_cons : cons;
  k_out : list Z; (* bytes sent to the uart *)
  k_tx_busy : Z; (* tx_busy of uart.c *)
  k_rx : list Z; (* bytes waiting in the uart *)
}.

(** Field updates of the global state. *)
Definition set_k_sym (v : symbols) (x : kernel) : kernel :=
  mkKernel v (k_mem x) (k_freelist x) (k_held x) (k_cur x) (k_procs x) (k_nextpid x) (k_initproc x) (k_first x) (k_kpagetable x) (k_shm x) (k_mutexes x) (k_sems x) (k_ticks x) (k_pipes x) (k_files x) (k_inodes x) (k_sb x) (k_log x) (k_bufs x) (k_disk x) (k_cons x) (k_out x) (k_tx_busy x) (k_rx x).
Definition set_k_mem (v : gmap Z Z) (x : kernel) : kernel :=
  mkKernel (k_sym x) v (k_freelist x) (k_held x) (k_cur x) (k_procs x) (k_nextpid x) (k_initproc x) (k_first x) (k_kpagetable x) (k_shm x) (k_mutexes x) (k_sems x) (k_ticks x) (k_pipes x) (k_files x) (k_inodes x) (k_sb x) (k_log x) (k_bufs x) (k_disk x) (k_cons x) (k_out x) (k_tx_busy x) (k_rx x).
Definition set_k_freelist (v : Z) (x : kernel) : kernel :=
  mkKernel (k_sym x) (k_mem x) v (k_held x) (k_cur x) (k_procs x) (k_nextpid x) (k_initproc x) (k_first x) (k_kpagetable x) (k_shm x) (k_mutexes x) (k_sems x) (k_ticks x) (k_pipes x) (k_files x) (k_inodes x) (k_sb x) (k_log x) (k_bufs x) (k_disk x) (k_cons x) (k_out x) (k_tx_busy x) (k_rx x).
Definition set_k_held (v : list lockid) (x : kernel) : kernel :=
  mkKernel (k_sym x) (k_mem x) (k_freelist x) v (k_cur x) (k_procs x) (k_nextpid x) (k_initproc x) (k_first x) (k_kpagetable x) (k_shm x) (k_mutexes x) (k_sems x) (k_ticks x) (k_pipes x) (k_files x) (k_inodes x) (k_sb x) (k_log x) (k_bufs x) (k_disk x) (k_cons x) (k_out x) (k_tx_busy x) (k_rx x).
Definition set_k_cur (v : option nat) (x : kernel) : kernel :=
  mkKernel (k_sym x) (k_mem x) (k_freelist x) (k_held x) v (k_procs x) (k_nextpid x) (k_initproc x) (k_first x) (k_kpagetable x) (k_shm x) (k_mutexes x) (k_sems x) (k_ticks x) (k_pipes x) (k_files x) (k_inodes x) (k_sb x) (k_log x) (k_bufs x) (k_disk x) (k_cons x) (k_out x) (k_tx_busy x) (k_rx x).
Definition set_k_procs (v : list proc) (x : kernel) : kernel :=
  mkKernel (k_sym x) (k_mem x) (k_freelist x) (k_held x) (k_cur x) v (k_nextpid x) (k_initproc x) (k_first x) (k_kpagetable x) (k_shm x) (k_mutexes x) (k_sems x) (k_ticks x) (k_pipes x) (k_files x) (k_inodes x) (k_sb x) (k_log x) (k_bufs x) (k_disk x) (k_cons x) (k_out x) (k_tx_busy x) (k_rx x).
Definition set_k_nextpid (v : Z) (x : kernel) : kernel :=
  mkKernel (k_sym x) (k_mem x) (k_freelist x) (k_held x) (k_cur x) (k_procs x) v (k_initproc x) (k_first x) (k_kpagetable x) (k_shm x) (k_mutexes x) (k_sems x) (k_ticks x) (k_pipes x) (k_files x) (k_inodes x) (k_sb x) (k_log x) (k_bufs x) (k_disk x) (k_cons x) (k_out x) (k_tx_busy x) (k_rx x).
Definition set_k_initproc (v : option nat) (x : kernel) : kernel :=
  mkKernel (k_sym x) (k_mem x) (k_freelist x) (k_held x) (k_cur x) (k_procs x) (k_nextpid x) v (k_first x) (k_kpagetable x) (k_shm x) (k_mutexes x) (k_sems x) (k_ticks x) (k_pipes x) (k_files x) (k_inodes x) (k_sb x) (k_log x) (k_bufs x) (k_disk x) (k_cons x) (k_out x) (k_tx_busy x) (k_rx x).
Definition set_k_first (v : Z) (x : kernel) : kernel :=
  mkKernel (k_sym x) (k_mem x) (k_freelist x) (k_held x) (k_cur x) (k_procs x) (k_nextpid x) (k_initproc x) v (k_kpagetable x) (k_shm x) (k_mutexes x) (k_sems x) (k_ticks x) (k_pipes x) (k_files x) (k_inodes x) (k_sb x) (k_log x) (k_bufs x) (k_disk x) (k_cons x) (k_out x) (k_tx_busy x) (k_rx x).
Definition set_k_kpagetable (v : Z) (x : kernel) : kernel :=
  mkKernel (k_sym x) (k_mem x) (k_freelist x) (k_held x) (k_cur x) (k_procs x) (k_nextpid x) (k_initproc x) (k_first x) v (k_shm x) (k_mutexes x) (k_sems x) (k_ticks x) (k_pipes x) (k_files x) (k_inodes x) (k_sb x) (k_log x) (k_bufs x) (k_disk x) (k_cons x) (k_out x) (k_tx_busy x) (k_rx x).
Definition set_k_shm (v : list shmseg) (x : kernel) : kernel :=
  mkKernel (k_sym x) (k_mem x) (k_freelist x) (k_held x) (k_cur x) (k_procs x) (k_nextpid x) (k_initproc x) (k_first x) (k_kpagetable x) v (k_mutexes x) (k_sems x) (k_ticks x) (k_pipes x) (k_files x) (k_inodes x) (k_sb x) (k_log x) (k_bufs x) (k_disk x) (k_cons x) (k_out x) (k_tx_busy x) (k_rx x).
Definition set_k_mutexes (v : list kmutex) (x : kernel) : kernel :=
  mkKernel (k_sym x) (k_mem x) (k_freelist x) (k_held x) (k_cur x) (k_procs x) (k_nextpid x) (k_initproc x) (k_first x) (k_kpagetable x) (k_shm x) v (k_sems x) (k_ticks x) (k_pipes x) (k_files x) (k_inodes x) (k_sb x) (k_log x) (k_bufs x) (k_disk x) (k_cons x) (k_out x) (k_tx_busy x) (k_rx x).
Definition set_k_sems (v : list ksem) (x : kernel) : kernel :=
  mkKernel (k_sym x) (k_mem x) (k_freelist x) (k_held x) (k_cur x) (k_procs x) (k_nextpid x) (k_initproc x) (k_first x) (k_kpagetable x) (k_shm x) (k_mutexes x) v (k_ticks x) (k_pipes x) (k_files x) (k_inodes x) (k_sb x) (k_log x) (k_bufs x) (k_disk x) (k_cons x) (k_out x) (k_tx_busy x) (k_rx x).
Definition set_k_ticks (v : Z) (x : kernel) : kernel :=
  mkKernel (k_sym x) (k_mem x) (k_freelist x) (k_held x) (k_cur x) (k_procs x) (k_nextpid x) (k_initproc x) (k_first x) (k_kpagetable x) (k_shm x) (k_mutexes x) (k_sems x) v (k_pipes x) (k_files x) (k_inodes x) (k_sb x) (k_log x) (k_bufs x) (k_disk x) (k_cons x) (k_out x) (k_tx_busy x) (k_rx x).
Definition set_k_pipes (v : gmap Z pipe) (x : kernel) : kernel :=
  mkKernel (k_sym x) (k_mem x) (k_freelist x) (k_held x) (k_cur x) (k_procs x) (k_nextpid x) (k_initproc x) (k_first x) (k_kpagetable x) (k_shm x) (k_mutexes x) (k_sems x) (k_ticks x) v (k_files x) (k_inodes x) (k_sb x) (k_log x) (k_bufs x) (k_disk x) (k_cons x) (k_out x) (k_tx_busy x) (k_rx x).
Definition set_k_files (v : list file) (x : kernel) : kernel :=
  mkKernel (k_sym x) (k_mem x) (k_freelist x) (k_held x) (k_cur x) (k_procs x) (k_nextpid x) (k_initproc x) (k_first x) (k_kpagetable x) (k_shm x) (k_mutexes x) (k_sems x) (k_ticks x) (k_pipes x) v (k_inodes x) (k_sb x) (k_log x) (k_bufs x) (k_disk x) (k_cons x) (k_out x) (k_tx_busy x) (k_rx x).
Definition set_k_inodes (v : list inode) (x : kernel) : kernel :=
  mkKernel (k_sym x) (k_mem x) (k_freelist x) (k_held x) (k_cur x) (k_procs x) (k_nextpid x) (k_initproc x) (k_first x) (k_kpagetable x) (k_shm x) (k_mutexes x) (k_sems x) (k_ticks x) (k_pipes x) (k_files x) v (k_sb x) (k_log x) (k_bufs x) (k_disk x) (k_cons x) (k_out x) (k_tx_busy x) (k_rx x).
Definition set_k_sb (v : superblock) (x : kernel) : kernel :=
  mkKernel (k_sym x) (k_mem x) (k_freelist x) (k_held x) (k_cur x) (k_procs x) (k_nextpid x) (k_initproc x) (k_first x) (k_kpagetable x) (k_shm x) (k_mutexes x) (k_sems x) (k_ticks x) (k_pipes x) (k_files x) (k_inodes x) v (k_log x) (k_bufs x) (k_disk x) (k_cons x) (k_out x) (k_tx_busy x) (k_rx x).
Definition set_k_log (v : log) (x : kernel) : kernel :=
  mkKernel (k_sym x) (k_mem x) (k_freelist x) (k_held x) (k_cur x) (k_procs x) (k_nextpid x) (k_initproc x) (k_first x) (k_kpagetable x) (k_shm x) (k_mutexes x) (k_sems x) (k_ticks x) (k_pipes x) (k_files x) (k_inodes x) (k_sb x) v (k_bufs x) (k_disk x) (k_cons x) (k_out x) (k_tx_busy x) (k_rx x).
Definition set_k_bufs (v : list buf) (x : kernel) : kernel :=
  mkKernel (k_sym x) (k_mem x) (k_freelist x) (k_held x) (k_cur x) (k_procs x) (k_nextpid x) (k_initproc x) (k_first x) (k_kpagetable x) (k_shm x) (k_mutexes x) (k_sems x) (k_ticks x) (k_pipes x) (k_files x) (k_inodes x) (k_sb x) (k_log x) v (k_disk x) (k_cons x) (k_out x) (k_tx_busy x) (k_rx x).
Definition set_k_disk (v : list (Z * list Z)) (x : kernel) : kernel :=
  mkKernel (k_sym x) (k_mem x) (k_freelist x) (k_held x) (k_cur x) (k_procs x) (k_nextpid x) (k_initproc x) (k_first x) (k_kpagetable x) (k_shm x) (k_mutexes x) (k_sems x) (k_ticks x) (k_pipes x) (k_files x) (k_inodes x) (k_sb x) (k_log x) (k_bufs x) v (k_cons x) (k_out x) (k_tx_busy x) (k_rx x).
Definition set_k_cons (v : cons) (x : kernel) : kernel :=
  mkKernel (k_sym x) (k_mem x) (k_freelist x) (k_held x) (k_cur x) (k_procs x) (k_nextpid x) (k_initproc x) (k_first x) (k_kpagetable x) (k_shm x) (k_mutexes x) (k_sems x) (k_ticks x) (k_pipes x) (k_files x) (k_inodes x) (k_sb x) (k_log x) (k_bufs x) (k_disk x) v (k_out x) (k_tx_busy x) (k_rx x).
Definition set_k_out (v : list Z) (x : kernel) : kernel :=
  mkKernel (k_sym x) (k_mem x) (k_freelist x) (k_held x) (k_cur x) (k_procs x) (k_nextpid x) (k_initproc x) (k_first x) (k_kpagetable x) (k_shm x) (k_mutexes x) (k_sems x) (k_ticks x) (k_pipes x) (k_files x) (k_inodes x) (k_sb x) (k_log x) (k_bufs x) (k_disk x) (k_cons x) v (k_tx_busy x) (k_rx x).
Definition set_k_tx_busy (v : Z) (x : kernel) : kernel :=
  mkKernel (k_sym x) (k_mem x) (k_freelist x) (k_held x) (k_cur x) (k_procs x) (k_nextpid x) (k_initproc x) (k_first x) (k_kpagetable x) (k_shm x) (k_mutexes x) (k_sems x) (k_ticks x) (k_pipes x) (k_files x) (k_inodes x) (k_sb x) (k_log x) (k_bufs x) (k_disk x) (k_cons x) (k_out x) v (k_rx x).
Definition set_k_rx (v : list Z) (x : kernel) : kernel :=
  mkKernel (k_sym x) (k_mem x) (k_freelist x) (k_held x) (k_cur x) (k_procs x) (k_nextpid x) (k_initproc x) (k_first x) (k_kpagetable x) (k_shm x) (k_mutexes x) (k_sems x) (k_ticks x) (k_pipes x) (k_files x) (k_inodes x) (k_sb x) (k_log x) (k_bufs x) (k_disk x) (k_cons x) (k_out x) (k_tx_busy x) v.

Definition K (A : Type) : Type := M kernel A.

(** ** Spinlocks as the kernel code sees them

    [Spinlock] shows that the code of spinlock.c behaves like these two
    operations on the list of locks the CPU holds. *)
Definition acquire (lk : lockid) : K unit := fun s =>
  if decide (lk ∈ k_held s) then Panic "acquire"
  else Ret tt (set_k_held (lk :: k_held s) s).

(** The first occurrence of [lk] taken out of a list of held locks. *)
Fixpoint drop_lock (lk : lockid) (l : list lockid) : list lockid :=
  match l with
  | [] => []
  | x :: l' => if decide (x = lk) then l' else x :: drop_lock lk l'
  end.

Definition release (lk : lockid) : K unit := fun s =>
  if decide (lk ∈ k_held s) then Ret tt (set_k_held (drop_lock lk (k_held s)) s)
  else Panic "release".

Definition holding (lk : lockid) (s : kernel) : bool := bool_decide (lk ∈ k_held s).

(** ** The process table *)
Definition proc0 : proc :=
  mkProc UNUSED CNull 0 0 0 0 0 0 None 0 0 0 0 (mkContext 0 0 (replicate 12 0))
    (replicate (Z.to_nat NOFILE) None) None (replicate 16 0) 0.

(** The zero-initialised globals at boot, for given linker symbols. *)
Definition kernel0 (sym : symbols) : kernel :=
  mkKernel sym ∅ 0 [] None (replicate (Z.to_nat NPROC) proc0) 1 None 1 0
    (replicate (Z.to_nat SHM_PAGES) (mkShmseg 0 0))
    (replicate 16 (mkKmutex 0 0)) (replicate 16 (mkKsem 0 0)) 0 ∅
    (replicate (Z.to_nat NFILE) (mkFile FD_NONE 0 0 0 0 None 0 0))
    (replicate (Z.to_nat NINODE) (mkInode 0 0 0 (mkSleeplock 0 0) 0 0 0 0 0 0 (replicate (Z.to_nat NDIRECT + 1) 0)))
    (mkSuperblock 0 0 0 0 0 0 0 0) (mkLog 0 0 0 0 0 (replicate (Z.to_nat LOGBLOCKS) 0))
    (replicate (Z.to_nat NBUF + 1) (mkBuf 0 0 0 (mkSleeplock 0 0) 0 0 0 (replicate (Z.to_nat BSIZE) 0)))
    [] (mkCons (replicate 128 0) 0 0 0) [] 0 [].

Definition getproc (s : kernel) (i : nat) : proc := default proc0 (k_procs s !! i).
Definition upd_proc (i : nat) (f : proc -> proc) (s : kernel) : kernel :=
  set_k_procs (alter f i (k_procs s)) s.

Definition get_proc (i : nat) : K proc := gets (fun s => getproc s i).
Definition mod_proc (i : nat) (f : proc -> proc) : K unit := modify (upd_proc i f).

(** [for(p = proc; p < &proc[NPROC]; p++)] *)
Definition proc_table : list nat := seq 0 (Z.to_nat NPROC).

Definition load64K (a : Z) : K Z := gets (fun s => load64 (k_mem s) a).
Definition store64K (a v : Z) : K unit := modify (fun s => set_k_mem (store64 (k_mem s) a v) s).

(** [myproc()]; a null result that is dereferenced is a fault in the kernel. *)
Definition myproc : K (option nat) := gets k_cur.
Definition this_proc : K nat :=
  let* p := myproc in
  match p with
  | Some i => ret i
  | None => panic "kerneltrap"
  end.

(** Test of a flag in a word. *)
Definition has (v f : Z) : bool := negb (Z.land v f =? 0).

(** A null pointer in C tests. *)
Definition is_null (p : Z) : bool := p =? 0.

(** [kconst] puts the numeric constants of the layout in the goal and context,
    for [lia]. *)
Ltac kconst :=
  change MAXVA with 274877906944 in *; change PHYSTOP with 2281701376 in *;
  change TRAMPOLINE with 274877902848 in *; change TRAPFRAME with 274877898752 in *;
  change SHMBASE with 274877865984 in *; change SHM_PAGES with 8 in *;
  change KERNBASE with 2147483648 in *; change PGSIZE with 4096 in *;
  change NPROC with 64 in *; change NOFILE with 16 in *.

#[global] Arguments acquire : simpl never.
#[global] Arguments release : simpl never.
#[global] Arguments getproc : simpl never.

(** ** Lemmas on locks and on the process table *)
Lemma set_k_held_id s : set_k_held (k_held s) s = s.
Proof. by destruct s. Qed.

Lemma acquire_ok lk s :
  lk ∉ k_held s -> acquire lk s = Ret tt (set_k_held (lk :: k_held s) s).
Proof. intros H. unfold acquire. by rewrite decide_False. Qed.

Lemma release_top lk s l :
  k_held s = lk :: l -> release lk s = Ret tt (set_k_held l s).
Proof.
  intros H. unfold release. rewrite H, decide_True by set_solver.
  simpl. by rewrite decide_True.
Qed.

Lemma release_acquired lk s : release lk (set_k_held (lk :: k_held s) s) = Ret tt s.
Proof. erewrite release_top by reflexivity. by destruct s. Qed.

Lemma getproc_held h s p : getproc (set_k_held h s) p = getproc s p.
Proof. done. Qed.

Lemma acquire_held lk s : lk ∈ k_held s -> acquire lk s = Panic "acquire".
Proof. intros H. unfold acquire. by rewrite decide_True. Qed.

Lemma release_in lk s :
  lk ∈ k_held s -> release lk s = Ret tt (set_k_held (drop_lock lk (k_held s)) s).
Proof. intros H. unfold release. by rewrite decide_True. Qed.

Lemma release_free lk s : lk ∉ k_held s -> release lk s = Panic "release".
Proof. intros H. unfold release. by rewrite decide_False. Qed.

(** A critical section whose body leaves the lock list alone is balanced. *)
Lemma critical_ret {A} lk (m : K A) s a s' :
  lk ∉ k_held s ->
  m (set_k_held (lk :: k_held s) s) = Ret a s' ->
  k_held s' = lk :: k_held s ->
  (acquire lk ;;; (let* r := m in (release lk ;;; ret r))) s
  = Ret a (set_k_held (k_held s) s').
Proof.
  intros H1 H2 H3. erewrite bind_ret_eq by (by apply acquire_ok).
  erewrite bind_ret_eq by exact H2.
  by erewrite bind_ret_eq by (by apply release_top).
Qed.

Lemma getproc_upd i j f s :
  (i < length (k_procs s))%nat ->
  getproc (upd_proc i f s) j = if decide (i = j) then f (getproc s j) else getproc s j.
Proof.
  intros Hi. unfold getproc, upd_proc. simpl. case_decide as E.
  - subst j. rewrite list_lookup_alter_eq.
    destruct (lookup_lt_is_Some_2 (k_procs s) i Hi) as [p Hp]. by rewrite Hp.
  - by rewrite list_lookup_alter_ne.
Qed.

Lemma getproc_lookup s i x : k_procs s !! i = Some x -> getproc s i = x.
Proof. unfold getproc. by intros ->. Qed.

Lemma upd_proc_id i f s : f (getproc s i) = getproc s i -> upd_proc i f s = s.
Proof.
  intros H. unfold upd_proc. destruct s as [? ? ? ? ? ps]. unfold set_k_procs. simpl in *. f_equal.
  apply list_eq. intros j. destruct (decide (i = j)) as [->|]; [|by rewrite list_lookup_alter_ne].
  rewrite list_lookup_alter_eq. unfold getproc in H. simpl in H.
  destruct (ps !! j); simpl in *; [by rewrite H|done].
Qed.

Lemma upd_proc_ext i f g s :
  (forall x, k_procs s !! i = Some x -> f x = g x) -> upd_proc i f s = upd_proc i g s.
Proof.
  intros H. unfold upd_proc. f_equal. apply list_eq. intros j.
  destruct (decide (i = j)) as [->|]; [|by rewrite !list_lookup_alter_ne].
  rewrite !list_lookup_alter_eq. destruct (k_procs s !! j); simpl; [|done]. f_equal. by apply H.
Qed.

Lemma upd_proc_twice i f g s : upd_proc i f (upd_proc i g s) = upd_proc i (fun x => f (g x)) s.
Proof.
  unfold upd_proc. destruct s as [? ? ? ? ? ps]. unfold set_k_procs. simpl. f_equal.
  apply list_eq. intros j. destruct (decide (i = j)) as [->|]; [|by rewrite !list_lookup_alter_ne].
  rewrite !list_lookup_alter_eq. by destruct (ps !! j).
Qed.

Lemma length_upd_proc i f s : length (k_procs (upd_proc i f s)) = length (k_procs s).
Proof. apply length_alter. Qed.

(** From here on a lock operation is only seen through its lemmas. *)
#[global] Opaque acquire release.
