(* ===== verification/Spinlock.v ===== *)
(** * spinlock.c: spin locks and nested interrupt disabling

    The code of spinlock.c on the state of all CPUs and locks.  The first part
    gives each function as an operation of CPU [c]; spinning on a lock that
    another CPU holds lets the other CPUs run.  The second part is the
    instruction-level interleaving of [acquire] and [release] on one lock. *)
From S2P Require Import Prelude State.

Open Scope Z_scope.

(** ** Data: [struct spinlock] and the interrupt part of [struct cpu] *)
Record spinlock := mkSpinlock { lk_locked : Z; lk_cpu : option nat }.
Record cpu := mkCpu { noff : Z; intena : bool; sie : bool }.

Record smp := mkSmp { sm_lock : lockid -> spinlock; sm_cpu : nat -> cpu }.

Definition set_lock (lk : lockid) (v : spinlock) (s : smp) : smp :=
  mkSmp (fun l => if decide (l = lk) then v else sm_lock s l) (sm_cpu s).
Definition set_cpu (c : nat) (v : cpu) (s : smp) : smp :=
  mkSmp (sm_lock s) (fun d => if decide (d = c) then v else sm_cpu s d).

(** ** Operations of CPU [c] *)
Section Operations.
Variable c : nat.

Definition initlock (lk : lockid) : M smp unit := modify (set_lock lk (mkSpinlock 0 None)).

Definition intr_get : M smp bool := gets (fun s => sie (sm_cpu s c)).
Definition intr_off : M smp unit :=
  modify (fun s => set_cpu c (mkCpu (noff (sm_cpu s c)) (intena (sm_cpu s c)) false) s).
Definition intr_on : M smp unit :=
  modify (fun s => set_cpu c (mkCpu (noff (sm_cpu s c)) (intena (sm_cpu s c)) true) s).

Definition push_off : M smp unit :=
  let* old := intr_get in
  intr_off ;;;
  let* s := get in
  let me := sm_cpu s c in
  (if noff me =? 0 then modify (set_cpu c (mkCpu (noff me) old (sie me))) else skip) ;;;
  modify (fun s => let me := sm_cpu s c in
                   set_cpu c (mkCpu (noff me + 1) (intena me) (sie me)) s).

Definition pop_off : M smp unit :=
  let* on := intr_get in
  if on then panic "pop_off - interruptible" else
  let* s := get in
  if noff (sm_cpu s c) <? 1 then panic "pop_off" else
  modify (fun s => let me := sm_cpu s c in
                   set_cpu c (mkCpu (noff me - 1) (intena me) (sie me)) s) ;;;
  let* s := get in
  if (noff (sm_cpu s c) =? 0) && intena (sm_cpu s c) then intr_on else skip.

Definition spin_holding (lk : lockid) : M smp bool :=
  gets (fun s => negb (lk_locked (sm_lock s lk) =? 0)
                 && bool_decide (lk_cpu (sm_lock s lk) = Some c)).

(** [__sync_lock_test_and_set(&lk->locked, 1)]: atomic swap. *)
Definition test_and_set (lk : lockid) : M smp Z :=
  let* s := get in
  modify (set_lock lk (mkSpinlock 1 (lk_cpu (sm_lock s lk)))) ;;;
  ret (lk_locked (sm_lock s lk)).

(** One failed swap lets the other CPUs take a step. *)
Definition spin_acquire (fuel : nat) (lk : lockid) : M smp unit :=
  push_off ;;;
  let* h := spin_holding lk in
  if (h : bool) then panic "acquire" else
  while_loop fuel tt (fun _ =>
    let* old := test_and_set lk in
    if old =? 0 then ret (inr tt) else yield_cpu ;;; ret (inl tt)) ;;;
  modify (fun s => set_lock lk (mkSpinlock (lk_locked (sm_lock s lk)) (Some c)) s).

Definition spin_release (lk : lockid) : M smp unit :=
  let* h := spin_holding lk in
  if negb h then panic "release" else
  modify (fun s => set_lock lk (mkSpinlock (lk_locked (sm_lock s lk)) None) s) ;;;
  modify (fun s => set_lock lk (mkSpinlock 0 (lk_cpu (sm_lock s lk))) s) ;;;
  pop_off.

End Operations.

(** ** Instruction-level interleaving on one lock

    Where a CPU is in [acquire]/[release] of the lock. *)
Inductive pc := Out | Spinning | Swapped | Inside | Clearing.
#[global] Instance pc_eq_dec : EqDecision pc.
Proof. solve_decision. Defined.

Record onelock := mkOnelock { ol_lock : spinlock; ol_pc : nat -> pc; ol_panic : bool }.

Definition at_pc (s : onelock) (c : nat) (p : pc) (l : spinlock) : onelock :=
  mkOnelock l (fun d => if decide (d = c) then p else ol_pc s d) (ol_panic s).
Definition panicked (s : onelock) : onelock := mkOnelock (ol_lock s) (ol_pc s) true.

Definition holds (l : spinlock) (c : nat) : Prop :=
  lk_locked l <> 0 /\ lk_cpu l = Some c.

Inductive lock_step : onelock -> onelock -> Prop :=
| step_enter s c : ol_pc s c = Out -> ~ holds (ol_lock s) c ->
    lock_step s (at_pc s c Spinning (ol_lock s))
| step_enter_panic s c : ol_pc s c = Out -> holds (ol_lock s) c ->
    lock_step s (panicked s)
| step_swap_busy s c : ol_pc s c = Spinning -> lk_locked (ol_lock s) <> 0 ->
    lock_step s (at_pc s c Spinning (mkSpinlock 1 (lk_cpu (ol_lock s))))
| step_swap_free s c : ol_pc s c = Spinning -> lk_locked (ol_lock s) = 0 ->
    lock_step s (at_pc s c Swapped (mkSpinlock 1 (lk_cpu (ol_lock s))))
| step_record s c : ol_pc s c = Swapped ->
    lock_step s (at_pc s c Inside (mkSpinlock (lk_locked (ol_lock s)) (Some c)))
| step_clear s c : ol_pc s c = Inside -> holds (ol_lock s) c ->
    lock_step s (at_pc s c Clearing (mkSpinlock (lk_locked (ol_lock s)) None))
| step_clear_panic s c : ol_pc s c = Inside -> ~ holds (ol_lock s) c ->
    lock_step s (panicked s)
| step_unlock s c : ol_pc s c = Clearing ->
    lock_step s (at_pc s c Out (mkSpinlock 0 (lk_cpu (ol_lock s)))).

Inductive lock_reach : onelock -> Prop :=
| reach_init : lock_reach (mkOnelock (mkSpinlock 0 None) (fun _ => Out) false)
| reach_step s s' : lock_reach s -> lock_step s s' -> lock_reach s'.

(** ** Mutual exclusion *)

(** Past the swap and before the unlock. *)
Definition owns (p : pc) : bool :=
  match p with Swapped | Inside | Clearing => true | _ => false end.

(** The recorded owner is the CPU inside, and one CPU owns a taken lock. *)
Record lock_inv (s : onelock) : Prop := {
  inv_unique : forall c d, owns (ol_pc s c) = true -> owns (ol_pc s d) = true -> c = d;
  inv_locked : forall c, owns (ol_pc s c) = true -> lk_locked (ol_lock s) = 1;
  inv_free : (forall c, owns (ol_pc s c) = false) -> lk_locked (ol_lock s) = 0;
  inv_owner : forall c, lk_cpu (ol_lock s) = Some c <-> ol_pc s c = Inside;
  inv_nopanic : ol_panic s = false
}.

Lemma lock_inv_free_none s c :
  lock_inv s -> lk_locked (ol_lock s) = 0 -> owns (ol_pc s c) = false.
Proof.
  intros I H. destruct (owns (ol_pc s c)) eqn:E; [|done].
  apply (inv_locked _ I) in E. lia.
Qed.


(** A step of CPU [c] from [p] to [p'], both owning or both not owning. *)
Lemma lock_inv_step s c p l :
  lock_inv s ->
  (owns p = true -> forall d, owns (ol_pc s d) = true -> d = c) ->
  (owns p = true -> lk_locked l = 1) ->
  (forall d, d <> c -> owns (ol_pc s d) = true -> lk_locked l = 1) ->
  (owns p = false -> (forall d, d <> c -> owns (ol_pc s d) = false) -> lk_locked l = 0) ->
  (forall d, lk_cpu l = Some d <-> (d = c /\ p = Inside) \/ (d <> c /\ ol_pc s d = Inside)) ->
  lock_inv (at_pc s c p l).
Proof.
  intros I H1 H2 H3 H4 H5. constructor; simpl.
  - intros d e. repeat case_decide; subst; intros; auto.
    + symmetry. auto.
    + eapply (inv_unique s I); eauto.
  - intros d. case_decide; subst; intros; eauto.
  - intros Hn. apply H4; [specialize (Hn c); by rewrite decide_True in Hn|].
    intros d Hd. specialize (Hn d). by rewrite decide_False in Hn.
  - intros d. rewrite H5. case_decide; naive_solver.
  - apply (inv_nopanic s I).
Qed.

Lemma lock_inv_preserved s s' : lock_inv s -> lock_step s s' -> lock_inv s'.
Proof.
  intros I Hs.
  assert (Hown : forall c d, ol_pc s c = Inside \/ ol_pc s c = Swapped \/ ol_pc s c = Clearing ->
                 owns (ol_pc s d) = true -> d = c).
  { intros c d Hc Hd. apply (inv_unique s I); [done|]. by destruct Hc as [->|[->| ->]]. }
  assert (Hnone : forall c, lk_cpu (ol_lock s) = Some c -> ol_pc s c = Inside)
    by (intros c; apply (inv_owner s I)).
  destruct Hs as [s c Hp Hh|s c Hp Hh|s c Hp Hl|s c Hp Hl|s c Hp|s c Hp Hh|s c Hp Hh|s c Hp].
  - apply lock_inv_step; try done; simpl.
    + intros d _. apply (inv_locked s I).
    + intros _ Hd. apply (inv_free s I). intros d.
      destruct (decide (d = c)) as [->|]; [by rewrite Hp|auto].
    + intros d. rewrite (inv_owner s I). destruct (decide (d = c)) as [->|]; naive_solver congruence.
  - exfalso. destruct Hh as [_ Hh]. apply Hnone in Hh. congruence.
  - assert (E1 : lk_locked (ol_lock s) = 0 -> False) by done.
    apply lock_inv_step; try done; simpl.
    + intros _ Hd. exfalso. apply E1, (inv_free s I). intros d.
      destruct (decide (d = c)) as [->|]; [by rewrite Hp|auto].
    + intros d. rewrite (inv_owner s I). destruct (decide (d = c)) as [->|]; naive_solver congruence.
  - assert (Hf : forall d, owns (ol_pc s d) = false) by (intros; by apply lock_inv_free_none).
    apply lock_inv_step; try done; simpl.
    + intros _ d. by rewrite Hf.
    + intros d. rewrite (inv_owner s I). destruct (decide (d = c)) as [->|]; naive_solver congruence.
  - apply lock_inv_step; try done; simpl.
    + intros _. eauto.
    + intros _. apply (inv_locked s I c). by rewrite Hp.
    + intros d _. apply (inv_locked s I).
    + intros d. split; [naive_solver|]. intros [[-> _]|[Hd Hi]]; [done|].
      destruct Hd. eapply Hown; [eauto|]. by rewrite Hi.
  - apply lock_inv_step; try done; simpl.
    + intros _. eauto.
    + intros _. apply (inv_locked s I c). by rewrite Hp.
    + intros d _. apply (inv_locked s I).
    + intros d. split; [done|]. intros [[-> ?]|[Hd Hi]]; [done|].
      destruct Hd. eapply Hown; [eauto|]. by rewrite Hi.
  - exfalso. apply Hh. split; [rewrite (inv_locked s I c); [lia|by rewrite Hp]|].
    by apply (inv_owner s I).
  - apply lock_inv_step; try done; simpl.
    + intros d Hd Ho. destruct Hd. eauto.
    + intros d. rewrite (inv_owner s I). destruct (decide (d = c)) as [->|]; naive_solver congruence.
Qed.

Lemma lock_reach_inv s : lock_reach s -> lock_inv s.
Proof.
  induction 1 as [|s s' _ IH Hs]; [|by eapply lock_inv_preserved].
  constructor; simpl; done.
Qed.

(** C26: mutual exclusion of the spin lock.  In every interleaving of the
    instructions of [acquire] and [release] by any number of CPUs, at most one
    CPU is past the atomic swap, [holding] is true exactly for the CPU inside
    its critical section, and neither [acquire] nor [release] panics. *)
Theorem spinlock_mutual_exclusion s c d :
  lock_reach s ->
  (owns (ol_pc s c) = true -> owns (ol_pc s d) = true -> c = d)
  /\ (holds (ol_lock s) c <-> ol_pc s c = Inside)
  /\ ol_panic s = false.
Proof.
  intros H. apply lock_reach_inv in H as I. split_and!.
  - apply (inv_unique s I).
  - split.
    + intros [_ Hc]. by apply (inv_owner s I).
    + intros Hc. split; [|by apply (inv_owner s I)].
      rewrite (inv_locked s I c); [lia|by rewrite Hc].
  - apply (inv_nopanic s I).
Qed.

(** ** The code implements the lock list of [State] *)

(** CPU [c] holds exactly the locks of [held], one [push_off] each. *)
Record Rheld (c : nat) (s : smp) (held : list lockid) : Prop := {
  rh_nodup : NoDup held;
  rh_holds : forall lk, lk ∈ held <-> holds (sm_lock s lk) c;
  rh_noff : noff (sm_cpu s c) = Z.of_nat (length held);
  rh_intr : held <> [] -> sie (sm_cpu s c) = false
}.

Definition lk_free_for (c : nat) (s : smp) (lk : lockid) : Prop :=
  lk_locked (sm_lock s lk) = 0 \/ holds (sm_lock s lk) c.

Lemma spin_holding_eq c lk s :
  spin_holding c lk s = Ret (bool_decide (holds (sm_lock s lk) c)) s.
Proof.
  unfold spin_holding, gets. f_equal. unfold holds.
  destruct (Z.eqb_spec (lk_locked (sm_lock s lk)) 0) as [E|E]; simpl.
  - rewrite bool_decide_false; [done|]. by intros [? _].
  - apply bool_decide_ext. tauto.
Qed.

(** What [push_off] and [pop_off] do to the CPU. *)
Definition pushed (k : cpu) : cpu :=
  mkCpu (noff k + 1) (if noff k =? 0 then sie k else intena k) false.
Definition popped (k : cpu) : cpu :=
  mkCpu (noff k - 1) (intena k) ((noff k - 1 =? 0) && intena k || sie k).

Lemma set_cpu_eq c v s : sm_cpu (set_cpu c v s) c = v.
Proof. simpl. by rewrite decide_True. Qed.

Lemma push_off_eq c s : exists s',
  push_off c s = Ret tt s' /\ sm_lock s' = sm_lock s
  /\ sm_cpu s' c = pushed (sm_cpu s c) /\ forall d, d <> c -> sm_cpu s' d = sm_cpu s d.
Proof.
  unfold push_off, intr_get, intr_off, pushed. ksimpl.
  rewrite !decide_True by done. simpl.
  destruct (noff (sm_cpu s c) =? 0) eqn:E; eexists; (split; [reflexivity|]); simpl;
    (split; [done|]); rewrite !decide_True by done; simpl;
    (split; [done|]); intros d Hd; by rewrite !decide_False by done.
Qed.

Lemma pop_off_eq c s :
  sie (sm_cpu s c) = false -> 1 <= noff (sm_cpu s c) -> exists s',
  pop_off c s = Ret tt s' /\ sm_lock s' = sm_lock s
  /\ sm_cpu s' c = popped (sm_cpu s c) /\ forall d, d <> c -> sm_cpu s' d = sm_cpu s d.
Proof.
  intros Hs Hn. unfold pop_off, intr_get, intr_on, popped. ksimpl. rewrite Hs.
  assert (noff (sm_cpu s c) <? 1 = false) as -> by lia. simpl.
  rewrite !decide_True by done. simpl. rewrite orb_false_r.
  destruct ((noff (sm_cpu s c) - 1 =? 0) && intena (sm_cpu s c)) eqn:E; eexists;
    (split; [reflexivity|]); simpl; (split; [done|]); rewrite !decide_True by done; simpl;
    (split; [by rewrite ?Hs|]); intros d Hd; by rewrite !decide_False by done.
Qed.

Lemma spin_acquire_free c fuel lk s :
  (0 < fuel)%nat -> lk_locked (sm_lock s lk) = 0 -> exists s',
  spin_acquire c fuel lk s = Ret tt s'
  /\ (forall l, sm_lock s' l = if decide (l = lk) then mkSpinlock 1 (Some c) else sm_lock s l)
  /\ sm_cpu s' c = pushed (sm_cpu s c) /\ forall d, d <> c -> sm_cpu s' d = sm_cpu s d.
Proof.
  intros Hf Hl. destruct (push_off_eq c s) as (s1 & E1 & L1 & C1 & D1).
  unfold spin_acquire. erewrite bind_ret_eq by exact E1.
  erewrite bind_ret_eq by apply spin_holding_eq.
  rewrite bool_decide_false by (unfold holds; rewrite L1, Hl; tauto).
  destruct fuel as [|fuel]; [lia|]. unfold test_and_set. ksimpl. rewrite L1, Hl. simpl.
  eexists. split; [reflexivity|]. simpl. split_and!; try done.
  - intros l. rewrite ?L1. destruct (decide (l = lk)); [|done].
    by rewrite decide_True.
Qed.

Lemma Rheld_acquire c s s' lk held :
  Rheld c s held -> lk ∉ held ->
  (forall l, sm_lock s' l = if decide (l = lk) then mkSpinlock 1 (Some c) else sm_lock s l) ->
  sm_cpu s' c = pushed (sm_cpu s c) -> Rheld c s' (lk :: held).
Proof.
  intros [Hn Hh Ho Hi] Hlk Hl Hc. constructor.
  - by constructor.
  - intros l. rewrite Hl, elem_of_cons, Hh. case_decide; subst; unfold holds; simpl; naive_solver lia.
  - rewrite Hc. simpl. lia.
  - rewrite Hc. done.
Qed.

Lemma drop_lock_elem lk l x :
  NoDup l -> x ∈ drop_lock lk l <-> x ∈ l /\ x <> lk.
Proof.
  induction l as [|y l IH]; [set_solver|]. intros [Hy Hl]%NoDup_cons. simpl.
  case_decide; subst; [set_solver|]. rewrite elem_of_cons, IH by done. set_solver.
Qed.

Lemma drop_lock_nodup lk l : NoDup l -> NoDup (drop_lock lk l).
Proof.
  induction l as [|y l IH]; [done|]. intros [Hy Hl]%NoDup_cons. simpl.
  case_decide; [done|]. constructor; [|auto]. rewrite drop_lock_elem by done. tauto.
Qed.

Lemma drop_lock_length lk l :
  lk ∈ l -> Z.of_nat (length (drop_lock lk l)) = Z.of_nat (length l) - 1.
Proof.
  induction l as [|y l IH]; [set_solver|]. intros H. simpl.
  case_decide; [lia|]. simpl. apply elem_of_cons in H as [?|?]; [congruence|]. specialize (IH H). lia.
Qed.

Lemma spin_release_held c lk s :
  holds (sm_lock s lk) c -> sie (sm_cpu s c) = false -> 1 <= noff (sm_cpu s c) -> exists s',
  spin_release c lk s = Ret tt s'
  /\ (forall l, sm_lock s' l = if decide (l = lk) then mkSpinlock 0 None else sm_lock s l)
  /\ sm_cpu s' c = popped (sm_cpu s c) /\ forall d, d <> c -> sm_cpu s' d = sm_cpu s d.
Proof.
  intros Hh Hs Hn. unfold spin_release.
  erewrite bind_ret_eq by apply spin_holding_eq. rewrite bool_decide_true by done. simpl.
  match goal with |- context [bind (modify ?f) (fun _ => bind (modify ?g) _)] =>
    destruct (pop_off_eq c (g (f s))) as (s1 & E1 & L1 & C1 & D1) end; [done|done|].
  exists s1. split; [exact E1|]. split_and!; try done.
  intros l. rewrite L1. simpl. repeat case_decide; simplify_eq; done.
Qed.

Lemma Rheld_release c s s' lk held :
  Rheld c s held -> lk ∈ held ->
  (forall l, sm_lock s' l = if decide (l = lk) then mkSpinlock 0 None else sm_lock s l) ->
  sm_cpu s' c = popped (sm_cpu s c) -> Rheld c s' (drop_lock lk held).
Proof.
  intros [Hn Hh Ho Hi] Hlk Hl Hc.
  pose proof (drop_lock_length _ _ Hlk) as Hd. constructor.
  - by apply drop_lock_nodup.
  - intros l. rewrite Hl, drop_lock_elem, Hh by done.
    case_decide; subst; unfold holds; simpl; naive_solver.
  - rewrite Hc. simpl. lia.
  - intros Hne. rewrite Hc. simpl. rewrite Hi by (intros ->; set_solver).
    destruct (drop_lock lk held); [done|]. simpl in Hd.
    destruct (Z.eqb_spec (noff (sm_cpu s c) - 1) 0); [lia|done].
Qed.

(** C27: the lock list used by the rest of the kernel is what spinlock.c
    implements.  If CPU [c] holds exactly the locks [k_held k] and [lk] is not
    held by another CPU, [acquire] and [release] of spinlock.c return (or panic,
    with the same message) exactly when the lock-list operations do, and end in
    states that still correspond. *)
Theorem spinlock_refines c fuel lk s k :
  (0 < fuel)%nat -> Rheld c s (k_held k) -> lk_free_for c s lk ->
  match acquire lk k with
  | Ret _ k' => exists s', spin_acquire c fuel lk s = Ret tt s' /\ Rheld c s' (k_held k')
  | Panic msg => spin_acquire c fuel lk s = Panic msg
  | _ => False
  end /\
  match release lk k with
  | Ret _ k' => exists s', spin_release c lk s = Ret tt s' /\ Rheld c s' (k_held k')
  | Panic msg => spin_release c lk s = Panic msg
  | _ => False
  end.
Proof.
  intros Hf HR Hfree.
  destruct (decide (lk ∈ k_held k)) as [Hin|Hin].
  - rewrite acquire_held, release_in by done. pose proof (proj1 (rh_holds _ _ _ HR lk) Hin) as Hh. split.
    + destruct (push_off_eq c s) as (s1 & E1 & L1 & C1 & D1).
      unfold spin_acquire. erewrite bind_ret_eq by exact E1.
      erewrite bind_ret_eq by apply spin_holding_eq.
      by rewrite L1, bool_decide_true.
    + destruct (spin_release_held c lk s Hh) as (s' & E & L & C & D).
      * apply (rh_intr _ _ _ HR). intros Hn. rewrite Hn in Hin. set_solver.
      * rewrite (rh_noff _ _ _ HR). destruct (k_held k); [set_solver|simpl; lia].
      * exists s'. split; [done|]. by eapply Rheld_release.
  - rewrite acquire_ok, release_free by done. assert (Hl : lk_locked (sm_lock s lk) = 0).
    { destruct Hfree as [?|H]; [done|]. by apply (rh_holds _ _ _ HR) in H. }
    split.
    + destruct (spin_acquire_free c fuel lk s Hf Hl) as (s' & E & L & C & D).
      exists s'. split; [done|]. by eapply Rheld_acquire.
    + unfold spin_release. erewrite bind_ret_eq by apply spin_holding_eq.
      rewrite bool_decide_false; [done|]. intros H. apply Hin. by apply (rh_holds _ _ _ HR).
Qed.

(** ** Nested interrupt disabling *)
Fixpoint iter_m {S} (n : nat) (m : M S unit) : M S unit :=
  match n with
  | O => skip
  | Datatypes.S n' => m ;;; iter_m n' m
  end.

Lemma push_off_iter c n s : exists s',
  iter_m n (push_off c) s = Ret tt s'
  /\ noff (sm_cpu s' c) = noff (sm_cpu s c) + Z.of_nat n
  /\ (0 < noff (sm_cpu s c) -> intena (sm_cpu s' c) = intena (sm_cpu s c))
  /\ (noff (sm_cpu s c) = 0 -> (0 < n)%nat -> intena (sm_cpu s' c) = sie (sm_cpu s c))
  /\ sie (sm_cpu s' c) = (if decide (n = O) then sie (sm_cpu s c) else false).
Proof.
  revert s. induction n as [|n IH]; intros s.
  { exists s. split; [done|]. simpl. split_and!; try lia; done. }
  destruct (push_off_eq c s) as (s1 & E1 & _ & C1 & _).
  destruct (IH s1) as (s2 & E2 & N2 & I2 & J2 & S2).
  exists s2. simpl iter_m. erewrite bind_ret_eq by exact E1. split; [done|].
  rewrite C1 in *. simpl in *. split_and!.
  - lia.
  - intros H. rewrite I2 by lia. destruct (Z.eqb_spec (noff (sm_cpu s c)) 0); [lia|done].
  - intros H _. rewrite I2 by lia. by rewrite H.
  - rewrite S2. by destruct (decide (n = 0%nat)).
Qed.

Lemma pop_off_iter c n s :
  sie (sm_cpu s c) = false -> Z.of_nat n <= noff (sm_cpu s c) -> exists s',
  iter_m n (pop_off c) s = Ret tt s'
  /\ noff (sm_cpu s' c) = noff (sm_cpu s c) - Z.of_nat n
  /\ intena (sm_cpu s' c) = intena (sm_cpu s c)
  /\ sie (sm_cpu s' c) = bool_decide (n <> O /\ noff (sm_cpu s c) = Z.of_nat n) && intena (sm_cpu s c).
Proof.
  revert s. induction n as [|n IH]; intros s Hs Hn.
  { exists s. split; [done|]. rewrite bool_decide_false by tauto. rewrite Hs.
    split_and!; done || lia. }
  destruct (pop_off_eq c s Hs) as (s1 & E1 & _ & C1 & _); [lia|].
  simpl iter_m. erewrite bind_ret_eq by exact E1.
  destruct (decide (n = O)) as [->|Hn0].
  - exists s1. split; [done|]. rewrite C1. simpl. rewrite Hs, orb_false_r. split_and!; try lia; try done.
    f_equal. destruct (Z.eqb_spec (noff (sm_cpu s c) - 1) 0);
      [rewrite bool_decide_true by lia|rewrite bool_decide_false by lia]; done.
  - destruct (IH s1) as (s2 & E2 & N2 & I2 & S2); rewrite C1 in *; simpl in *.
    + destruct (Z.eqb_spec (noff (sm_cpu s c) - 1) 0); [lia|done].
    + lia.
    + exists s2. split; [done|]. split_and!; [lia|done|].
      rewrite S2. f_equal. apply bool_decide_ext. lia.
Qed.

(** [push_off] and [pop_off] are matched.  Any number of [push_off]s
    followed by as many [pop_off]s does not panic and restores the nesting depth
    and the interrupt enable bit; interrupts stay off in between. *)
Theorem push_pop_off_matched c n s :
  0 <= noff (sm_cpu s c) -> (0 < noff (sm_cpu s c) -> sie (sm_cpu s c) = false) ->
  exists s1 s2,
    iter_m n (push_off c) s = Ret tt s1 /\ iter_m n (pop_off c) s1 = Ret tt s2
    /\ (n <> O -> sie (sm_cpu s1 c) = false)
    /\ noff (sm_cpu s2 c) = noff (sm_cpu s c) /\ sie (sm_cpu s2 c) = sie (sm_cpu s c).
Proof.
  intros H0 Hs. destruct (push_off_iter c n s) as (s1 & E1 & N1 & I1 & J1 & S1).
  exists s1. destruct (decide (n = O)) as [->|Hn].
  { exists s. by inversion E1; subst. }
  destruct (pop_off_iter c n s1) as (s2 & E2 & N2 & I2 & S2); [done|lia|].
  exists s2. split_and!; try done; [lia|]. rewrite S2.
  destruct (decide (noff (sm_cpu s c) = 0)) as [E|E].
  - rewrite bool_decide_true by lia. rewrite J1 by lia. done.
  - rewrite bool_decide_false by lia. by rewrite Hs by lia.
Qed.

Lemma spinlock_mutual_exclusion_witness : exists s,
  lock_reach s /\ ol_pc s 0%nat = Inside /\ ol_pc s 1%nat = Spinning
  /\ holds (ol_lock s) 0%nat /\ ol_panic s = false.
Proof.
  pose (s0 := mkOnelock (mkSpinlock 0 None) (fun _ => Out) false).
  pose (s1 := at_pc s0 0 Spinning (ol_lock s0)).
  pose (s2 := at_pc s1 0 Swapped (mkSpinlock 1 (lk_cpu (ol_lock s1)))).
  pose (s3 := at_pc s2 0 Inside (mkSpinlock (lk_locked (ol_lock s2)) (Some 0%nat))).
  pose (s4 := at_pc s3 1 Spinning (ol_lock s3)).
  assert (R : lock_reach s4).
  { apply (reach_step s3); [apply (reach_step s2); [apply (reach_step s1); [apply (reach_step s0); [constructor|]|]|]|].
    - apply step_enter; [reflexivity|]. intros [H _]. apply H. reflexivity.
    - apply step_swap_free; reflexivity.
    - apply step_record; reflexivity.
    - apply step_enter; [reflexivity|]. intros [_ H]. discriminate H. }
  destruct (spinlock_mutual_exclusion s4 0 1 R) as (_ & H & P).
  exists s4. split; [exact R|]. split; [reflexivity|]. split; [reflexivity|].
  split; [apply H; reflexivity|exact P].
Defined.

(** A machine with every lock free and interrupts on. *)
Definition idle : smp := mkSmp (fun _ => mkSpinlock 0 None) (fun _ => mkCpu 0 false true).

Lemma idle_held c : Rheld c idle [].
Proof.
  constructor; [constructor| |done|done].
  intros lk. split; [by intros ?%not_elem_of_nil|]. intros [H _]. by destruct H.
Qed.

Lemma spinlock_refines_witness : exists s',
  spin_acquire 0 1 LKmem idle = Ret tt s' /\ Rheld 0 s' [LKmem]
  /\ spin_release 0 LKmem idle = Panic "release".
Proof.
  pose (k := kernel0 (mkSymbols PHYSTOP 0 0 0 0 0)).
  destruct (spinlock_refines 0 1 LKmem idle k) as [Ha Hr].
  - lia.
  - exact (idle_held 0).
  - left. reflexivity.
  - rewrite acquire_ok in Ha by apply not_elem_of_nil. destruct Ha as (s' & E & H).
    rewrite release_free in Hr by apply not_elem_of_nil.
    exists s'. split; [exact E|]. split; [exact H|exact Hr].
Defined.

Lemma push_pop_off_matched_witness : exists s1 s2,
  iter_m 3 (push_off 0) idle = Ret tt s1 /\ iter_m 3 (pop_off 0) s1 = Ret tt s2
  /\ sie (sm_cpu s2 0%nat) = true.
Proof.
  destruct (push_pop_off_matched 0 3 idle) as (s1 & s2 & E1 & E2 & _ & _ & Hs).
  - vm_compute. discriminate.
  - intros H. vm_compute in H. discriminate H.
  - exists s1, s2. split; [exact E1|]. split; [exact E2|exact Hs].
Defined.
