(* ===== verification/CString.v ===== *)
(** * string.c: memory and string routines of the kernel

    [memset], [memmove] and [memcmp] work on the byte memory by address.  The
    string routines work on the contents of char arrays: a [char *] is the list
    of the bytes from the pointer to the end of its object, and [None] is an
    access outside the object. *)
From S2P Require Import Prelude.

Open Scope Z_scope.

(** ** Memory routines *)

(** [for(i = 0; i < n; i++) cdst[i] = c;] *)
Fixpoint memset_loop (m : gmap Z Z) (cdst c i : Z) (k : nat) : gmap Z Z :=
  match k with
  | O => m
  | S k' => memset_loop (store8 m (cdst + i) c) cdst c (i + 1) k'
  end.
Definition memset (m : gmap Z Z) (dst c n : Z) : gmap Z Z :=
  memset_loop m dst c 0 (Z.to_nat n).

Fixpoint memcmp_loop (m : gmap Z Z) (s1 s2 : Z) (n : nat) : Z :=
  match n with
  | O => 0
  | S n' => if negb (load8 m s1 =? load8 m s2) then load8 m s1 - load8 m s2
            else memcmp_loop m (s1 + 1) (s2 + 1) n'
  end.
Definition memcmp (m : gmap Z Z) (v1 v2 n : Z) : Z := memcmp_loop m v1 v2 (Z.to_nat n).

(** [while(n-- > 0) *--d = *--s;] *)
Fixpoint copy_down (m : gmap Z Z) (d s : Z) (n : nat) : gmap Z Z :=
  match n with
  | O => m
  | S n' => copy_down (store8 m (d - 1) (load8 m (s - 1))) (d - 1) (s - 1) n'
  end.
(** [while(n-- > 0) *d++ = *s++;] *)
Fixpoint copy_up (m : gmap Z Z) (d s : Z) (n : nat) : gmap Z Z :=
  match n with
  | O => m
  | S n' => copy_up (store8 m d (load8 m s)) (d + 1) (s + 1) n'
  end.
Definition memmove (m : gmap Z Z) (dst src n : Z) : gmap Z Z :=
  if n =? 0 then m
  else if (src <? dst) && (src + n >? dst)
  then copy_down m (dst + n) (src + n) (Z.to_nat n)
  else copy_up m dst src (Z.to_nat n).
Definition memcpy (m : gmap Z Z) (dst src n : Z) : gmap Z Z := memmove m dst src n.

(** ** String routines *)
Fixpoint strncmp (p q : list Z) (n : nat) {struct n} : option Z :=
  match n with
  | O => Some 0
  | S n' =>
      match p, q with
      | c :: p', d :: q' =>
          if negb (c =? 0) && (c =? d) then strncmp p' q' n'
          else Some (uint8 c - uint8 d)
      | _, _ => None
      end
  end.

(** [while(n-- > 0) *s++ = 0;] *)
Fixpoint zero_fill (s : list Z) (n : nat) {struct n} : option (list Z) :=
  match n with
  | O => Some s
  | S n' =>
      match s with
      | _ :: s' => cons 0 <$> zero_fill s' n'
      | [] => None
      end
  end.
Fixpoint strncpy (s t : list Z) (n : nat) {struct n} : option (list Z) :=
  match n with
  | O => Some s
  | S n' =>
      match s, t with
      | _ :: s', c :: t' =>
          if c =? 0 then cons c <$> zero_fill s' n'
          else cons c <$> strncpy s' t' n'
      | _, _ => None
      end
  end.

(** [*s = 0;] *)
Definition put_nul (s : list Z) : option (list Z) :=
  match s with
  | _ :: s' => Some (0 :: s')
  | [] => None
  end.
(** The loop of [safestrcpy] after [n] has been decremented once. *)
Fixpoint safestrcpy_loop (s t : list Z) (n : nat) {struct n} : option (list Z) :=
  match n with
  | O => put_nul s
  | S n' =>
      match s, t with
      | _ :: s', c :: t' =>
          if c =? 0 then cons c <$> put_nul s'
          else cons c <$> safestrcpy_loop s' t' n'
      | _, _ => None
      end
  end.
Definition safestrcpy (s t : list Z) (n : Z) : option (list Z) :=
  if n <=? 0 then Some s else safestrcpy_loop s t (Z.to_nat (n - 1)).

Fixpoint strlen (s : list Z) : option Z :=
  match s with
  | [] => None
  | c :: s' => if c =? 0 then Some 0 else Z.succ <$> strlen s'
  end.

(** ** The C string in an array: the bytes before the first NUL *)
Fixpoint cstr (s : list Z) : list Z :=
  match s with
  | [] => []
  | c :: s' => if c =? 0 then [] else c :: cstr s'
  end.

#[global] Arguments memset : simpl never.
#[global] Arguments memmove : simpl never.
#[global] Arguments memcmp : simpl never.

(** ** Facts about the memory routines *)
Lemma memset_loop_load m cdst c i k a :
  load8 (memset_loop m cdst c i k) a =
  if decide (cdst + i <= a < cdst + i + Z.of_nat k) then uint8 c else load8 m a.
Proof.
  revert m i. induction k as [|k IH]; intros m i; simpl memset_loop.
  { rewrite decide_False; [done|lia]. }
  rewrite IH, load8_store8. repeat case_decide; done || lia.
Qed.

Lemma load8_memset m dst c n a :
  0 <= n ->
  load8 (memset m dst c n) a = if decide (dst <= a < dst + n) then uint8 c else load8 m a.
Proof.
  intros Hn. unfold memset. rewrite memset_loop_load.
  repeat case_decide; done || lia.
Qed.

Lemma copy_up_load m d s n a :
  s >= d \/ s + Z.of_nat n <= d ->
  load8 (copy_up m d s n) a =
  if decide (d <= a < d + Z.of_nat n) then load8 m (s + (a - d)) else load8 m a.
Proof.
  revert m d s. induction n as [|n IH]; intros m d s H; simpl copy_up.
  { rewrite decide_False; [done|lia]. }
  rewrite IH by lia. rewrite !load8_store8.
  repeat case_decide; subst; try lia; try done.
  - by replace (s + 1 + (a - (d + 1))) with (s + (a - d)) by lia.
  - unfold uint8. rewrite Z.mod_small by apply load8_range. f_equal. lia.
Qed.

Lemma copy_down_load m d s n a :
  s <= d \/ d <= s - Z.of_nat n ->
  load8 (copy_down m d s n) a =
  if decide (d - Z.of_nat n <= a < d) then load8 m (s + (a - d)) else load8 m a.
Proof.
  revert m d s. induction n as [|n IH]; intros m d s H; simpl copy_down.
  { rewrite decide_False; [done|lia]. }
  rewrite IH by lia. rewrite !load8_store8.
  repeat case_decide; subst; try lia; try done.
  - by replace (s - 1 + (a - (d - 1))) with (s + (a - d)) by lia.
  - unfold uint8. rewrite Z.mod_small by apply load8_range. f_equal. lia.
Qed.

Lemma load8_memmove m dst src n a :
  0 <= n ->
  load8 (memmove m dst src n) a =
  if decide (dst <= a < dst + n) then load8 m (src + (a - dst)) else load8 m a.
Proof.
  intros Hn. unfold memmove. destruct (Z.eqb_spec n 0) as [->|Hn0].
  { rewrite decide_False; [done|lia]. }
  destruct ((src <? dst) && (src + n >? dst)) eqn:E.
  - rewrite copy_down_load by lia.
    replace (src + n + (a - (dst + n))) with (src + (a - dst)) by lia.
    repeat case_decide; done || lia.
  - rewrite copy_up_load by lia. repeat case_decide; done || lia.
Qed.

Lemma memcmp_loop_zero m s1 s2 n :
  memcmp_loop m s1 s2 n = 0 <->
  forall i, 0 <= i < Z.of_nat n -> load8 m (s1 + i) = load8 m (s2 + i).
Proof.
  revert s1 s2. induction n as [|n IH]; intros s1 s2; simpl memcmp_loop.
  { split; [lia|done]. }
  destruct (Z.eqb_spec (load8 m s1) (load8 m s2)) as [E|E]; simpl.
  - rewrite IH. split; intros H i Hi.
    + destruct (decide (i = 0)) as [->|]; [by rewrite !Z.add_0_r|].
      replace (s1 + i) with (s1 + 1 + (i - 1)) by lia.
      replace (s2 + i) with (s2 + 1 + (i - 1)) by lia. apply H. lia.
    + replace (s1 + 1 + i) with (s1 + (i + 1)) by lia.
      replace (s2 + 1 + i) with (s2 + (i + 1)) by lia. apply H. lia.
  - split; [lia|]. intros H. specialize (H 0). rewrite !Z.add_0_r in H. destruct E. apply H. lia.
Qed.

(** [memmove] copies correctly whether or not the areas overlap: every
    destination byte is the byte the source held before the call, nothing
    outside the destination changes, and when the areas do not overlap [memcmp]
    finds the copy equal to the source. *)
Theorem memmove_correct m dst src n :
  0 <= n ->
  (forall a, load8 (memmove m dst src n) a =
    if decide (dst <= a < dst + n) then load8 m (src + (a - dst)) else load8 m a)
  /\ (dst + n <= src \/ src + n <= dst -> memcmp (memmove m dst src n) dst src n = 0).
Proof.
  intros Hn. split; [intros a; by apply load8_memmove|].
  intros Hd. apply memcmp_loop_zero. intros i Hi.
  rewrite !load8_memmove by done. repeat case_decide; try lia.
  f_equal. lia.
Qed.

Lemma memmove_correct_witness :
  0 <= 3 /\ memcmp (memmove (memset ∅ 8 7 3) 20 8 3) 20 8 3 = 0.
Proof.
  split; [lia|]. apply (proj2 (memmove_correct (memset ∅ 8 7 3) 20 8 3 ltac:(lia))). lia.
Defined.

(** ** Facts about the string routines *)
Definition is_byte (c : Z) : Prop := 0 <= c < 256.

Lemma uint8_byte c : is_byte c -> uint8 c = c.
Proof. apply Z.mod_small. Qed.

Lemma strncmp_zero p q n r :
  Forall is_byte p -> Forall is_byte q -> strncmp p q n = Some r ->
  r = 0 <-> take n (cstr p) = take n (cstr q).
Proof.
  revert p q. induction n as [|n IH]; intros p q Hp Hq; [by intros [= <-]|].
  destruct p as [|c p], q as [|d q]; try done.
  inversion_clear Hp as [|? ? Hc Hp']. inversion_clear Hq as [|? ? Hd Hq'].
  cbn [strncmp cstr]. destruct (Z.eqb_spec c 0) as [->|Hc0]; simpl.
  - intros [= <-]. rewrite !uint8_byte by done.
    destruct (Z.eqb_spec d 0) as [->|]; [done|]. split; [lia|done].
  - destruct (Z.eqb_spec c d) as [->|Hcd]; simpl.
    + intros H. destruct (Z.eqb_spec d 0); [done|]. simpl.
      rewrite (IH p q Hp' Hq' H). split; [by intros ->|by intros [= ?]].
    + intros [= <-]. rewrite !uint8_byte by done. split; [lia|].
      destruct (Z.eqb_spec d 0); simpl; congruence.
Qed.

Lemma zero_fill_spec s n :
  (n <= length s)%nat -> zero_fill s n = Some (replicate n 0 ++ drop n s).
Proof.
  revert s. induction n as [|n IH]; intros s H; [done|].
  destruct s as [|x s]; simpl in *; [lia|]. by rewrite IH by lia.
Qed.

(** [t] can be read for [n] bytes, or up to its NUL if that comes first. *)
Definition readable (t : list Z) (n : nat) : Prop :=
  (n <= length t)%nat \/ (length (cstr t) < length t)%nat.

Lemma readable_cons c t n :
  c <> 0 -> readable (c :: t) (S n) -> readable t n.
Proof.
  unfold readable. simpl. destruct (Z.eqb_spec c 0); [done|]. simpl. lia.
Qed.

Lemma strncpy_spec s t n :
  (n <= length s)%nat -> readable t n -> exists s',
  strncpy s t n = Some s' /\ length s' = length s
  /\ take n s' = take n (cstr t) ++ replicate (n - length (cstr t)) 0
  /\ drop n s' = drop n s.
Proof.
  revert s t. induction n as [|n IH]; intros s t Hs Ht; [by exists s|].
  destruct s as [|x s]; simpl in Hs; [lia|].
  destruct t as [|c t]; [unfold readable in Ht; simpl in Ht; lia|]. simpl.
  destruct (Z.eqb_spec c 0) as [->|Hc].
  - rewrite zero_fill_spec by lia. eexists. split; [done|]. simpl.
    rewrite length_app, length_replicate, length_drop, take_app_length', drop_app_length'
      by by rewrite length_replicate.
    split_and!; [lia|done|done].
  - destruct (IH s t) as (s' & -> & Hl & Htk & Hdr); [lia|by eapply readable_cons|].
    eexists. split; [done|]. simpl. rewrite Htk. split_and!; [lia|done|done].
Qed.

Lemma strlen_spec s :
  (length (cstr s) < length s)%nat -> strlen s = Some (Z.of_nat (length (cstr s))).
Proof.
  induction s as [|c s IH]; simpl; [lia|].
  destruct (Z.eqb_spec c 0); [done|]. simpl. intros H. rewrite IH by lia. simpl. f_equal. lia.
Qed.

Lemma safestrcpy_loop_spec s t n :
  (n < length s)%nat -> readable t n -> exists s',
  safestrcpy_loop s t n = Some s' /\ length s' = length s /\ cstr s' = take n (cstr t).
Proof.
  revert s t. induction n as [|n IH]; intros s t Hs Ht.
  { destruct s as [|x s]; [simpl in Hs; lia|]. by exists (0 :: s). }
  destruct s as [|x s]; simpl in Hs; [lia|].
  destruct t as [|c t]; [unfold readable in Ht; simpl in Ht; lia|]. simpl.
  destruct (Z.eqb_spec c 0) as [->|Hc].
  - destruct s as [|y s]; simpl in *; [lia|]. by exists (0 :: 0 :: s).
  - destruct (IH s t) as (s' & -> & Hl & Hcs); [lia|by eapply readable_cons|].
    exists (c :: s'). simpl. rewrite Hcs, Hl. by destruct (Z.eqb_spec c 0).
Qed.

(** [safestrcpy] into an array of at least [n] bytes never runs outside it
    and always leaves a NUL-terminated copy, cut to [n - 1] bytes. *)
Theorem safestrcpy_terminates s t n :
  0 < n <= Z.of_nat (length s) -> readable t (Z.to_nat (n - 1)) -> exists s',
  safestrcpy s t n = Some s' /\ length s' = length s
  /\ cstr s' = take (Z.to_nat (n - 1)) (cstr t)
  /\ strlen s' = Some (Z.of_nat (length (cstr s'))).
Proof.
  intros Hn Ht. unfold safestrcpy. destruct (Z.leb_spec n 0); [lia|].
  destruct (safestrcpy_loop_spec s t (Z.to_nat (n - 1))) as (s' & E & L & C); [lia|done|].
  exists s'. split_and!; try done. apply strlen_spec. rewrite C, length_take. lia.
Qed.

Lemma safestrcpy_terminates_witness : exists s',
  safestrcpy [9; 9; 9; 9] [97; 98; 99; 100; 101; 0] 4 = Some s' /\ cstr s' = [97; 98; 99].
Proof.
  destruct (safestrcpy_terminates [9; 9; 9; 9] [97; 98; 99; 100; 101; 0] 4)
    as (s' & H1 & _ & H2 & _).
  - simpl. lia.
  - left. simpl. lia.
  - exists s'. split; [exact H1|exact H2].
Defined.

(** From here on the memory routines are only seen through their lemmas. *)
#[global] Opaque memset memmove memcmp.
