(* ===== verification/Kalloc.v ===== *)
(** * kalloc.c: the physical page allocator

    The free pages form a linked list threaded through the pages themselves:
    the first word of a free page is the address of the next one. *)
From S2P Require Import Prelude State CString.

Open Scope Z_scope.

(** ** Operations *)
Definition memsetK (dst c n : Z) : K unit :=
  modify (fun s => set_k_mem (memset (k_mem s) dst c n) s).
Definition memmoveK (dst src n : Z) : K unit :=
  modify (fun s => set_k_mem (memmove (k_mem s) dst src n) s).

Definition kfree (pa : Z) : K unit :=
  let* sym := gets k_sym in
  if negb (pa mod PGSIZE =? 0) || (pa <? sym_end sym) || (PHYSTOP <=? pa)
  then panic "kfree" else
  memsetK pa 1 PGSIZE ;;;
  acquire LKmem ;;;
  let* head := gets k_freelist in
  store64K pa head ;;;
  modify (set_k_freelist pa) ;;;
  release LKmem.

Definition kalloc : K Z :=
  acquire LKmem ;;;
  let* r := gets k_freelist in
  (if negb (is_null r) then
     let* next := load64K r in modify (set_k_freelist next)
   else skip) ;;;
  release LKmem ;;;
  (if negb (is_null r) then memsetK r 5 PGSIZE else skip) ;;;
  ret r.

Definition freerange (pa_start pa_end : Z) : K unit :=
  let p := PGROUNDUP pa_start in
  for_loop (R := unit) (Z.to_nat ((pa_end - p) / PGSIZE)) p
    (fun p => p + PGSIZE <=? pa_end) (fun p => p + PGSIZE)
    (fun p => kfree p ;;; ret None) ;;;
  skip.

Definition kinit : K unit :=
  let* sym := gets k_sym in
  freerange (sym_end sym) PHYSTOP.

(** ** The abstract view: a list of free pages *)

(** A page the allocator may hand out. *)
Definition valid_page (sym : symbols) (a : Z) : Prop :=
  a mod PGSIZE = 0 /\ sym_end sym <= a < PHYSTOP /\ 0 < a.

(** [l] is the list threaded through memory from [h]. *)
Fixpoint is_list (m : gmap Z Z) (h : Z) (l : list Z) : Prop :=
  match l with
  | [] => h = 0
  | a :: l' => h = a /\ is_list m (load64 m a) l'
  end.

Record free_inv (s : kernel) (l : list Z) : Prop := {
  fi_list : is_list (k_mem s) (k_freelist s) l;
  fi_nodup : NoDup l;
  fi_valid : Forall (valid_page (k_sym s)) l
}.

(** A state with the memory and the free list replaced. *)
Definition with_mem (m : gmap Z Z) (fl : Z) (s : kernel) : kernel :=
  set_k_mem m (set_k_freelist fl s).

(** The memories agree outside the page at [a]. *)
Definition same_but (a : Z) (m m' : gmap Z Z) : Prop :=
  forall b, ~ (a <= b < a + PGSIZE) -> load8 m' b = load8 m b.

(** ** Pages *)
Lemma valid_page_disjoint sym a b :
  valid_page sym a -> valid_page sym b -> a <> b -> a + PGSIZE <= b \/ b + PGSIZE <= a.
Proof.
  unfold valid_page, PGSIZE. intros (Ha & _ & _) (Hb & _ & _) Hne.
  apply Z.mod_divide in Ha as [p ->]; [|lia]. apply Z.mod_divide in Hb as [q ->]; lia.
Qed.

Lemma same_but_load64 a m m' b :
  same_but a m m' -> b + 8 <= a \/ a + PGSIZE <= b -> load64 m' b = load64 m b.
Proof. intros H Hb. apply load64_agree. intros c Hc. apply H. lia. Qed.

Lemma same_but_trans a m1 m2 m3 : same_but a m1 m2 -> same_but a m2 m3 -> same_but a m1 m3.
Proof. intros H1 H2 b Hb. by rewrite H2, H1. Qed.

Lemma same_but_memset a m c : same_but a m (memset m a c PGSIZE).
Proof.
  intros b Hb. rewrite load8_memset by (unfold PGSIZE; lia). by rewrite decide_False.
Qed.

Lemma same_but_store64 a b m v :
  a <= b -> b + 8 <= a + PGSIZE -> same_but a m (store64 m b v).
Proof. intros H1 H2 c Hc. apply load8_store64_ne. lia. Qed.

Lemma is_list_frame sym m m' h l a :
  valid_page sym a -> Forall (valid_page sym) l -> a ∉ l ->
  same_but a m m' -> is_list m h l -> is_list m' h l.
Proof.
  intros Ha Hl Hnin Hm. revert h. induction l as [|b l IH]; intros h; simpl; [done|].
  apply Forall_cons in Hl as [Hb Hl]. apply not_elem_of_cons in Hnin as [Hab Hnin].
  intros [-> H]. split; [done|].
  erewrite same_but_load64; [by apply IH|done|].
  destruct (valid_page_disjoint _ _ _ Ha Hb Hab); unfold PGSIZE in *; lia.
Qed.

Lemma is_list_unique m h l l' :
  Forall (fun a => 0 < a) l -> Forall (fun a => 0 < a) l' ->
  is_list m h l -> is_list m h l' -> l = l'.
Proof.
  revert h l'. induction l as [|a l IH]; intros h l' Hl Hl' H H'; destruct l' as [|b l']; simpl in *; try done.
  - destruct H' as [-> _]. subst. inversion Hl'; lia.
  - destruct H as [-> _]. subst. inversion Hl; lia.
  - destruct H as [-> H], H' as [-> H']. f_equal. inversion Hl; inversion Hl'; eauto.
Qed.

(** ** Functional behaviour *)
Lemma kalloc_nil s :
  free_inv s [] -> LKmem ∉ k_held s -> kalloc s = Ret 0 s.
Proof.
  intros [Hl _ _] Hh. simpl in Hl. unfold kalloc.
  erewrite bind_ret_eq by (by apply acquire_ok). ksimpl. rewrite Hl. simpl.
  erewrite release_top by done. simpl. by destruct s.
Qed.

Lemma kalloc_cons s a l :
  free_inv s (a :: l) -> LKmem ∉ k_held s ->
  kalloc s = Ret a (with_mem (memset (k_mem s) a 5 PGSIZE) (load64 (k_mem s) a) s)
  /\ free_inv (with_mem (memset (k_mem s) a 5 PGSIZE) (load64 (k_mem s) a) s) l.
Proof.
  intros [Hl Hn Hv] Hh. destruct Hl as [Hl Hl'].
  apply Forall_cons in Hv as [Ha Hv]. apply NoDup_cons in Hn as [Hna Hn].
  split.
  - unfold kalloc. erewrite bind_ret_eq by (by apply acquire_ok). ksimpl. rewrite Hl.
    unfold is_null. destruct (Z.eqb_spec a 0) as [->|]; [destruct Ha; lia|]. simpl.
    unfold load64K. ksimpl. erewrite release_top by done. simpl. by destruct s.
  - constructor; simpl; try done.
    eapply is_list_frame; eauto using same_but_memset.
Qed.

Lemma kfree_ok s a l :
  free_inv s l -> LKmem ∉ k_held s -> valid_page (k_sym s) a -> a ∉ l ->
  let m' := store64 (memset (k_mem s) a 1 PGSIZE) a (k_freelist s) in
  kfree a s = Ret tt (with_mem m' a s)
  /\ free_inv (with_mem m' a s) (a :: l).
Proof.
  intros [Hl Hn Hv] Hh Ha Hal m'. split.
  - unfold kfree. ksimpl. destruct Ha as (H1 & H2 & H3).
    rewrite H1. simpl. destruct (Z.ltb_spec a (sym_end (k_sym s))); [lia|].
    destruct (Z.leb_spec PHYSTOP a); [lia|]. simpl. unfold memsetK. ksimpl.
    erewrite acquire_ok by done. unfold store64K. ksimpl.
    erewrite release_top by done. by destruct s.
  - assert (Hsb : same_but a (k_mem s) m').
    { eapply same_but_trans; [apply same_but_memset|].
      apply same_but_store64; unfold PGSIZE; lia. }
    constructor; simpl; [|by constructor|by constructor]. split; [done|].
    assert (load64 m' a = k_freelist s) as ->; [|by eapply is_list_frame].
    apply load64_store64_eq. destruct l as [|b l]; simpl in Hl; [lia|].
    destruct Hl as [-> _]. inversion_clear Hv as [|? ? Hb]. destruct Hb as (_ & Hb & Hb0).
    unfold PHYSTOP, KERNBASE in Hb. lia.
Qed.

Lemma kfree_invalid s a :
  a mod PGSIZE <> 0 \/ a < sym_end (k_sym s) \/ PHYSTOP <= a -> kfree a s = Panic "kfree".
Proof.
  intros H. unfold kfree. ksimpl.
  destruct (Z.eqb_spec (a mod PGSIZE) 0), (Z.ltb_spec a (sym_end (k_sym s))),
    (Z.leb_spec PHYSTOP a); simpl; done || lia.
Qed.

(** ** The specification: a pool of pages *)
Definition pool_alloc (l : list Z) : Z * list Z :=
  match l with
  | [] => (0, [])
  | a :: l' => (a, l')
  end.
Definition pool_free (a : Z) (l : list Z) : list Z := a :: l.

(** Everything but the memory and the free list is unchanged. *)
Definition mem_only (s s' : kernel) : Prop := s' = with_mem (k_mem s') (k_freelist s') s.

Lemma with_mem_twice m1 f1 m2 f2 s : with_mem m1 f1 (with_mem m2 f2 s) = with_mem m1 f1 s.
Proof. by destruct s. Qed.

Lemma memsetK_with a c n m fl s :
  memsetK a c n (with_mem m fl s) = Ret tt (with_mem (memset m a c n) fl s).
Proof. by destruct s. Qed.
Lemma memmoveK_with a b n m fl s :
  memmoveK a b n (with_mem m fl s) = Ret tt (with_mem (memmove m a b n) fl s).
Proof. by destruct s. Qed.
Lemma store64K_with a v m fl s :
  store64K a v (with_mem m fl s) = Ret tt (with_mem (store64 m a v) fl s).
Proof. by destruct s. Qed.
Lemma with_mem_id s : with_mem (k_mem s) (k_freelist s) s = s.
Proof. by destruct s. Qed.

Lemma mem_only_with m fl s : mem_only s (with_mem m fl s).
Proof. by destruct s. Qed.

(** C28: [kalloc] implements the page pool.  From a state whose free list is
    [l] it returns the page the pool returns (0 when the pool is empty), leaves
    the rest of the pool, changes no byte outside the returned page (which is
    filled with 5s) and no other kernel variable. *)
Theorem kalloc_refines s l :
  free_inv s l -> LKmem ∉ k_held s -> exists s',
  kalloc s = Ret (fst (pool_alloc l)) s' /\ free_inv s' (snd (pool_alloc l))
  /\ mem_only s s'
  /\ (forall b, load8 (k_mem s') b =
        if decide (l <> [] /\ fst (pool_alloc l) <= b < fst (pool_alloc l) + PGSIZE)
        then 5 else load8 (k_mem s) b).
Proof.
  intros Hi Hh. destruct l as [|a l]; simpl.
  - exists s. split_and!; [by apply kalloc_nil|done|by destruct s|].
    intros b. repeat case_decide; done || tauto.
  - destruct (kalloc_cons s a l Hi Hh) as [E Hi'].
    eexists. split_and!; [exact E|done|apply mem_only_with|].
    intros b. simpl. rewrite load8_memset by (unfold PGSIZE; lia).
    repeat case_decide; done || naive_solver.
Qed.

(** [kfree] returns a page to the pool.  A page of the allocatable range
    that is not free already goes to the front of the free list, only its bytes
    change, and any other address panics. *)
Theorem kfree_refines s l a :
  free_inv s l -> LKmem ∉ k_held s -> a ∉ l -> 0 < a ->
  (valid_page (k_sym s) a -> exists s',
    kfree a s = Ret tt s' /\ free_inv s' (pool_free a l) /\ mem_only s s'
    /\ same_but a (k_mem s) (k_mem s'))
  /\ (~ valid_page (k_sym s) a -> kfree a s = Panic "kfree").
Proof.
  intros Hi Hh Ha H0. split.
  - intros Hv. destruct (kfree_ok s a l Hi Hh Hv Ha) as [E Hi'].
    eexists. split_and!; [exact E|exact Hi'|apply mem_only_with|].
    simpl. eapply same_but_trans; [apply same_but_memset|].
    apply same_but_store64; unfold PGSIZE; lia.
  - intros Hv. apply kfree_invalid. unfold valid_page in Hv. lia.
Qed.

(** ** Boot: [kinit] puts every whole page of RAM above the kernel in the pool *)
Fixpoint page_run (p : Z) (n : nat) : list Z :=
  match n with
  | O => []
  | S n' => p :: page_run (p + PGSIZE) n'
  end.

Lemma page_run_elem p n a : a ∈ page_run p n -> p <= a < p + Z.of_nat n * PGSIZE.
Proof.
  revert p. induction n as [|n IH]; intros p; simpl; [by intros ?%not_elem_of_nil|].
  unfold PGSIZE in *. rewrite elem_of_cons. intros [->|H]; [lia|]. apply IH in H. lia.
Qed.

Lemma freerange_loop n p pa_end s l :
  free_inv s l -> LKmem ∉ k_held s ->
  p mod PGSIZE = 0 -> sym_end (k_sym s) <= p -> 0 < p -> pa_end <= PHYSTOP ->
  (pa_end - p) / PGSIZE = Z.of_nat n -> (forall a, a ∈ l -> a < p) ->
  exists s', for_loop (R := unit) n p (fun p => p + PGSIZE <=? pa_end) (fun p => p + PGSIZE)
    (fun p => kfree p ;;; ret None) s = Ret None s'
  /\ free_inv s' (rev (page_run p n) ++ l) /\ mem_only s s'.
Proof.
  revert p s l. induction n as [|n IH]; intros p s l Hi Hh Hp He H0 Hend Hn Hl; simpl.
  - exists s. destruct (Z.leb_spec (p + PGSIZE) pa_end) as [H|H].
    + exfalso. unfold PGSIZE in *. dlia.
    + split_and!; [done|done|by destruct s].
  - assert (Hlt : p + PGSIZE <= pa_end).
    { unfold PGSIZE in *. dlia. }
    destruct (Z.leb_spec (p + PGSIZE) pa_end); [|lia].
    destruct (kfree_ok s p l Hi Hh) as [E Hi'].
    { unfold valid_page. unfold PGSIZE in *. lia. }
    { intros Hin. apply Hl in Hin. lia. }
    unfold bind. rewrite E. ksimpl.
    edestruct (IH (p + PGSIZE)) as (s' & Es & Hi2 & Hm); [exact Hi'|..]; simpl; try done.
    + unfold PGSIZE in *. rewrite <- Z.add_mod_idemp_r by lia. rewrite Z.mod_same by lia.
      by rewrite Z.add_0_r.
    + unfold PGSIZE in *. lia.
    + unfold PGSIZE in *. lia.
    + unfold PGSIZE in *. dlia.
    + intros a. rewrite elem_of_cons. unfold PGSIZE. intros [->|Ha]; [lia|]. apply Hl in Ha. lia.
    + exists s'. split_and!; [exact Es|by rewrite <- app_assoc|].
      unfold mem_only in *. rewrite Hm, with_mem_twice. by destruct s.
Qed.

(** Clearing the low 12 bits of a 64-bit word. *)
Lemma page_mask x :
  0 <= x < 2 ^ 64 -> Z.land x (wrap64 (Z.lnot (PGSIZE - 1))) = x / 4096 * 4096.
Proof.
  intros Hx. change 4096 with (2 ^ 12).
  replace (wrap64 (Z.lnot (PGSIZE - 1))) with (Z.shiftl (Z.ones 52) 12) by done.
  rewrite <- Z.shiftr_div_pow2, <- Z.shiftl_mul_pow2 by lia.
  apply Z.bits_inj'. intros i Hi.
  rewrite !Z.land_spec, !Z.shiftl_spec by lia.
  destruct (Z.ltb_spec i 12) as [Hlt|Hge].
  { rewrite !(Z.testbit_neg_r _ (i - 12)) by lia. by rewrite !andb_false_r. }
  rewrite Z.shiftr_spec by lia. replace (i - 12 + 12) with i by lia.
  destruct (Z.ltb_spec i 64).
  - rewrite Z.ones_spec_low by lia. by rewrite andb_true_r.
  - replace x with (x mod 2 ^ 64) by (apply Z.mod_small; lia).
    rewrite Z.mod_pow2_bits_high by lia. done.
Qed.

Lemma PGROUNDUP_spec a :
  0 <= a <= 2 ^ 63 ->
  PGROUNDUP a mod PGSIZE = 0 /\ a <= PGROUNDUP a < a + PGSIZE.
Proof.
  intros Ha. unfold PGROUNDUP. rewrite wrap64_small by (unfold PGSIZE; lia).
  rewrite page_mask by (unfold PGSIZE; lia). unfold PGSIZE. dlia.
Qed.

Lemma PGROUNDDOWN_spec a :
  0 <= a < 2 ^ 64 ->
  PGROUNDDOWN a mod PGSIZE = 0 /\ PGROUNDDOWN a <= a < PGROUNDDOWN a + PGSIZE.
Proof.
  intros Ha. unfold PGROUNDDOWN. rewrite page_mask by lia. unfold PGSIZE. dlia.
Qed.

(** [PHYSTOP] is page aligned, so rounding up does not pass it. *)
Lemma PGROUNDUP_PHYSTOP e : 0 < e <= PHYSTOP -> PGROUNDUP e <= PHYSTOP.
Proof.
  intros He. destruct (PGROUNDUP_spec e) as [Ha Hr]; unfold PHYSTOP, KERNBASE, PGSIZE in *; dlia.
Qed.

Lemma page_run_iff p n a :
  p mod PGSIZE = 0 ->
  a ∈ page_run p n <-> a mod PGSIZE = 0 /\ p <= a < p + Z.of_nat n * PGSIZE.
Proof.
  unfold PGSIZE. revert p. induction n as [|n IH]; intros p Hp; simpl page_run.
  { rewrite elem_of_nil. lia. }
  unfold PGSIZE. rewrite elem_of_cons, IH by dlia. dlia.
Qed.

Lemma page_run_length p n : length (page_run p n) = n.
Proof. revert p. induction n as [|n IH]; intros p; simpl; [done|]. by rewrite IH. Qed.

(** [kinit] on a machine with room for at least one page. *)
Lemma kinit_spec s :
  k_freelist s = 0 -> LKmem ∉ k_held s -> 0 < sym_end (k_sym s) <= PHYSTOP -> exists s',
  kinit s = Ret tt s' /\ mem_only s s'
  /\ free_inv s' (rev (page_run (PGROUNDUP (sym_end (k_sym s)))
       (Z.to_nat ((PHYSTOP - PGROUNDUP (sym_end (k_sym s))) / PGSIZE)))).
Proof.
  intros Hf Hh He. set (e := sym_end (k_sym s)) in *.
  destruct (PGROUNDUP_spec e) as [Ha Hr]; [unfold PHYSTOP, KERNBASE in He; lia|].
  assert (Hn : 0 <= (PHYSTOP - PGROUNDUP e) / PGSIZE).
  { apply Z.div_pos; [|done]. pose proof (PGROUNDUP_PHYSTOP e). lia. }
  destruct (freerange_loop (Z.to_nat ((PHYSTOP - PGROUNDUP e) / PGSIZE)) (PGROUNDUP e) PHYSTOP s [])
    as (s' & E & Hi & Hm); try done; try lia.
  - constructor; [done|constructor|constructor].
  - by intros a ?%not_elem_of_nil.
  - exists s'. rewrite app_nil_r in Hi. split_and!; try done.
    unfold kinit. erewrite bind_ret_eq by reflexivity. unfold freerange.
    by erewrite bind_ret_eq by exact E.
Qed.

(** after boot the pool holds every whole page between the end of the
    kernel and [PHYSTOP], each once: [kinit] does not panic and the free list is
    exactly those pages. *)
Theorem kinit_all_pages s :
  k_freelist s = 0 -> LKmem ∉ k_held s -> 0 < sym_end (k_sym s) <= PHYSTOP -> exists s' l,
  kinit s = Ret tt s' /\ free_inv s' l
  /\ (forall a, a ∈ l <-> valid_page (k_sym s) a)
  /\ Z.of_nat (length l) = (PHYSTOP - PGROUNDUP (sym_end (k_sym s))) / PGSIZE.
Proof.
  intros Hf Hh He. destruct (kinit_spec s Hf Hh He) as (s' & E & Hm & Hi).
  destruct (PGROUNDUP_spec (sym_end (k_sym s))) as [Ha Hr]; [unfold PHYSTOP, KERNBASE in He; lia|].
  pose proof (PGROUNDUP_PHYSTOP (sym_end (k_sym s))) as Htop.
  exists s', (rev (page_run (PGROUNDUP (sym_end (k_sym s)))
       (Z.to_nat ((PHYSTOP - PGROUNDUP (sym_end (k_sym s))) / PGSIZE)))).
  split_and!; [done|done| |].
  - intros a. rewrite list_elem_of_In, <- in_rev, <- list_elem_of_In.
    rewrite page_run_iff by done. unfold valid_page, PGSIZE, PHYSTOP, KERNBASE in *.
    split; dlia.
  - rewrite length_rev, page_run_length.
    assert (0 <= (PHYSTOP - PGROUNDUP (sym_end (k_sym s))) / PGSIZE).
    { apply Z.div_pos; [lia|done]. }
    lia.
Qed.

(** The boot state of a machine whose kernel ends two pages below [PHYSTOP]. *)
Definition tiny : kernel := kernel0 (mkSymbols (PHYSTOP - 2 * PGSIZE) 0 0 0 0 0).

Lemma kinit_all_pages_witness : exists s' l,
  kinit tiny = Ret tt s' /\ free_inv s' l /\ Z.of_nat (length l) = 2.
Proof.
  destruct (kinit_all_pages tiny) as (s' & l & E & Hi & _ & Hl).
  - reflexivity.
  - apply not_elem_of_nil.
  - vm_compute. split; [reflexivity|discriminate].
  - exists s', l. split; [exact E|]. split; [exact Hi|exact Hl].
Defined.

(** A state with one free page. *)
Definition tiny1 : kernel := set_k_freelist (PHYSTOP - PGSIZE) tiny.

Lemma tiny1_free : free_inv tiny1 [PHYSTOP - PGSIZE].
Proof.
  constructor; [done|apply NoDup_singleton|]. constructor; [|constructor].
  unfold valid_page. vm_compute. split; [reflexivity|]. split; [split; [discriminate|reflexivity]|reflexivity].
Qed.

Lemma kalloc_refines_witness : exists s',
  kalloc tiny1 = Ret (PHYSTOP - PGSIZE) s' /\ free_inv s' [].
Proof.
  destruct (kalloc_refines tiny1 [PHYSTOP - PGSIZE]) as (s' & E & Hi & _).
  - exact tiny1_free.
  - apply not_elem_of_nil.
  - exists s'. split; [exact E|exact Hi].
Defined.

Lemma kfree_refines_witness : exists s',
  kfree (PHYSTOP - 2 * PGSIZE) tiny1 = Ret tt s'
  /\ free_inv s' [PHYSTOP - 2 * PGSIZE; PHYSTOP - PGSIZE].
Proof.
  destruct (kfree_refines tiny1 [PHYSTOP - PGSIZE] (PHYSTOP - 2 * PGSIZE)) as [H _].
  - exact tiny1_free.
  - apply not_elem_of_nil.
  - rewrite list_elem_of_singleton. discriminate.
  - reflexivity.
  - destruct H as (s' & E & Hi & _).
    + unfold valid_page. vm_compute. split; [reflexivity|]. split; [split; [discriminate|reflexivity]|reflexivity].
    + exists s'. split; [exact E|exact Hi].
Defined.
