(* ===== verification/Vm.v ===== *)
(** * vm.c: page tables and user memory

    A page table is a page of 512 words in the physical memory, as the Sv39
    hardware reads it; every function walks and changes that memory.  The
    kernel buffers [copyout] and [copyin] copy from and to are byte lists. *)
From S2P Require Import Prelude State CString Kalloc.

Open Scope Z_scope.

(** ** Byte buffers *)
Fixpoint write_bytes (m : gmap Z Z) (a : Z) (l : list Z) : gmap Z Z :=
  match l with
  | [] => m
  | b :: l' => write_bytes (store8 m a b) (a + 1) l'
  end.
Fixpoint read_bytes (m : gmap Z Z) (a : Z) (n : nat) : list Z :=
  match n with
  | O => []
  | S n' => load8 m a :: read_bytes m (a + 1) n'
  end.

(** ** Walking the tree *)
Fixpoint walk_levels (levels : list Z) (pagetable va : Z) (alloc : bool) : K Z :=
  match levels with
  | [] => ret (pagetable + 8 * PX 0 va)
  | level :: levels' =>
      let pte := pagetable + 8 * PX level va in
      let* v := load64K pte in
      if has v PTE_V then walk_levels levels' (PTE2PA v) va alloc
      else if negb alloc then ret 0
      else
        let* page := kalloc in
        if is_null page then ret 0
        else
          memsetK page 0 PGSIZE ;;;
          store64K pte (Z.lor (PA2PTE page) PTE_V) ;;;
          walk_levels levels' page va alloc
  end.

Definition walk (pagetable va : Z) (alloc : bool) : K Z :=
  if MAXVA <=? va then panic "walk"
  else walk_levels [2; 1] pagetable va alloc.

Definition walkaddr (pagetable va : Z) : K Z :=
  if MAXVA <=? va then ret 0 else
  let* pte := walk pagetable va false in
  if is_null pte then ret 0 else
  let* v := load64K pte in
  if negb (has v PTE_V) then ret 0 else
  if negb (has v PTE_U) then ret 0 else
  ret (PTE2PA v).

(** The [for(;;)] of [mappages]; it runs once per page of the range. *)
Fixpoint mappages_loop (fuel : nat) (pagetable a last pa perm : Z) : K Z :=
  match fuel with
  | O => out_of_fuel
  | S fuel' =>
      let* pte := walk pagetable a true in
      if is_null pte then ret (-1) else
      let* v := load64K pte in
      if has v PTE_V then panic "mappages: remap" else
      store64K pte (Z.lor (Z.lor (PA2PTE pa) perm) PTE_V) ;;;
      if a =? last then ret 0
      else mappages_loop fuel' pagetable (wrap64 (a + PGSIZE)) last (wrap64 (pa + PGSIZE)) perm
  end.

Definition mappages (pagetable va size pa perm : Z) : K Z :=
  if negb (va mod PGSIZE =? 0) then panic "mappages: va not aligned" else
  if negb (size mod PGSIZE =? 0) then panic "mappages: size not aligned" else
  if size =? 0 then panic "mappages: size" else
  mappages_loop (Z.to_nat (size / PGSIZE)) pagetable va (wrap64 (va + size - PGSIZE)) pa perm.

Definition kvmmap (kpgtbl va pa sz perm : Z) : K unit :=
  let* r := mappages kpgtbl va sz pa perm in
  if negb (r =? 0) then panic "kvmmap" else skip.

Definition uvmcreate : K Z :=
  let* pagetable := kalloc in
  if is_null pagetable then ret 0 else
  memsetK pagetable 0 PGSIZE ;;;
  ret pagetable.

Definition uvmunmap (pagetable va npages : Z) (do_free : bool) : K unit :=
  if negb (va mod PGSIZE =? 0) then panic "uvmunmap: not aligned" else
  for_loop (R := unit) (Z.to_nat npages) va
    (fun a => a <? wrap64 (va + npages * PGSIZE)) (fun a => wrap64 (a + PGSIZE))
    (fun a =>
      let* pte := walk pagetable a false in
      if is_null pte then ret None else
      let* v := load64K pte in
      if negb (has v PTE_V) then ret None else
      (if do_free then kfree (PTE2PA v) else skip) ;;;
      store64K pte 0 ;;;
      ret None) ;;;
  skip.

Definition uvmdealloc (pagetable oldsz newsz : Z) : K Z :=
  if oldsz <=? newsz then ret oldsz else
  (if PGROUNDUP newsz <? PGROUNDUP oldsz then
     let npages := int32 ((PGROUNDUP oldsz - PGROUNDUP newsz) / PGSIZE) in
     uvmunmap pagetable (PGROUNDUP newsz) npages true
   else skip) ;;;
  ret newsz.

Definition uvmalloc (pagetable oldsz newsz xperm : Z) : K Z :=
  if newsz <? oldsz then ret oldsz else
  let oldsz := PGROUNDUP oldsz in
  let* r := for_loop (Z.to_nat ((newsz - oldsz + PGSIZE - 1) / PGSIZE)) oldsz
    (fun a => a <? newsz) (fun a => wrap64 (a + PGSIZE))
    (fun a =>
      let* mem := kalloc in
      if is_null mem then
        let* _ := uvmdealloc pagetable a oldsz in ret (Some 0)
      else
        memsetK mem 0 PGSIZE ;;;
        let* e := mappages pagetable a PGSIZE mem (Z.lor (Z.lor PTE_R PTE_U) xperm) in
        if negb (e =? 0) then
          kfree mem ;;;
          let* _ := uvmdealloc pagetable a oldsz in ret (Some 0)
        else ret None) in
  match r with
  | Some v => ret v
  | None => ret newsz
  end.

(** Page-table pages have no more than three levels: [freewalk 3]. *)
Fixpoint freewalk (levels : nat) (pagetable : Z) : K unit :=
  match levels with
  | O => out_of_fuel
  | S levels' =>
      for_all (seqZ 0 512) (fun i =>
        let* pte := load64K (pagetable + 8 * i) in
        if has pte PTE_V && negb (has pte (Z.lor (Z.lor PTE_R PTE_W) PTE_X)) then
          freewalk levels' (PTE2PA pte) ;;;
          store64K (pagetable + 8 * i) 0
        else if has pte PTE_V then panic "freewalk: leaf"
        else skip) ;;;
      kfree pagetable
  end.

Definition uvmfree (pagetable sz : Z) : K unit :=
  (if 0 <? sz then uvmunmap pagetable 0 (PGROUNDUP sz / PGSIZE) true else skip) ;;;
  freewalk 3 pagetable.

Definition uvmcopy (old new sz : Z) : K Z :=
  let* err := for_loop (Z.to_nat ((sz + PGSIZE - 1) / PGSIZE)) 0
    (fun i => i <? sz) (fun i => wrap64 (i + PGSIZE))
    (fun i =>
      let* pte := walk old i false in
      if is_null pte then ret None else
      let* v := load64K pte in
      if negb (has v PTE_V) then ret None else
      let pa := PTE2PA v in
      let flags := PTE_FLAGS v in
      let* mem := kalloc in
      if is_null mem then ret (Some i) else
      memmoveK mem pa PGSIZE ;;;
      let* e := mappages new i PGSIZE mem flags in
      if negb (e =? 0) then kfree mem ;;; ret (Some i)
      else ret None) in
  match err with
  | None => ret 0
  | Some i => uvmunmap new 0 (i / PGSIZE) true ;;; ret (-1)
  end.

Definition uvmshare (old new sz : Z) : K Z :=
  let* err := for_loop (Z.to_nat ((sz + PGSIZE - 1) / PGSIZE)) 0
    (fun i => i <? sz) (fun i => wrap64 (i + PGSIZE))
    (fun i =>
      let* pte := walk old i false in
      if is_null pte then ret None else
      let* v := load64K pte in
      if negb (has v PTE_V) then ret None else
      let pa := PTE2PA v in
      let flags := PTE_FLAGS v in
      let* e := mappages new i PGSIZE pa flags in
      if negb (e =? 0) then ret (Some i) else ret None) in
  match err with
  | None => ret 0
  | Some i =>
      (if 0 <? i then uvmunmap new 0 (i / PGSIZE) false else skip) ;;;
      ret (-1)
  end.

Definition thread_freepagetable (pagetable sz : Z) : K unit :=
  uvmunmap pagetable TRAMPOLINE 1 false ;;;
  uvmunmap pagetable TRAPFRAME 1 false ;;;
  (if 0 <? sz then uvmunmap pagetable 0 (PGROUNDUP sz / PGSIZE) false else skip) ;;;
  freewalk 3 pagetable.

Definition uvmclear (pagetable va : Z) : K unit :=
  let* pte := walk pagetable va false in
  if is_null pte then panic "uvmclear" else
  let* v := load64K pte in
  store64K pte (Z.land v (wrap64 (Z.lnot PTE_U))).

Definition ismapped (pagetable va : Z) : K bool :=
  let* pte := walk pagetable va false in
  if is_null pte then ret false else
  let* v := load64K pte in
  ret (has v PTE_V).

Definition vmfault (pagetable va : Z) (read : bool) : K Z :=
  let* i := this_proc in
  let* p := get_proc i in
  if p_sz p <=? va then ret 0 else
  let va := PGROUNDDOWN va in
  let* b := ismapped pagetable va in
  if (b : bool) then ret 0 else
  let* mem := kalloc in
  if is_null mem then ret 0 else
  memsetK mem 0 PGSIZE ;;;
  let* e := mappages (p_pagetable p) va PGSIZE mem (Z.lor (Z.lor PTE_W PTE_U) PTE_R) in
  if negb (e =? 0) then kfree mem ;;; ret 0
  else ret mem.

(** ** Copying between kernel buffers and user memory

    Each turn of the loop handles one page, so [len] bytes take at most
    [len / PGSIZE + 2] turns. *)
Definition copyout (pagetable dstva : Z) (src : list Z) : K Z :=
  while_loop (Z.to_nat (Z.of_nat (length src) / PGSIZE + 2)) (dstva, src) (fun '(dstva, src) =>
    if (length src =? 0)%nat then ret (inr 0) else
    let va0 := PGROUNDDOWN dstva in
    if MAXVA <=? va0 then ret (inr (-1)) else
    let* pa0 := walkaddr pagetable va0 in
    let* pa0 := (if is_null pa0 then vmfault pagetable va0 false else ret pa0) in
    if is_null pa0 then ret (inr (-1)) else
    let* pte := walk pagetable va0 false in
    let* v := load64K pte in
    if negb (has v PTE_W) then ret (inr (-1)) else
    let n := Z.to_nat (PGSIZE - (dstva - va0)) in
    modify (fun s => set_k_mem (write_bytes (k_mem s) (pa0 + (dstva - va0)) (take n src)) s) ;;;
    ret (inl (va0 + PGSIZE, drop n src))).

(** The result code and the bytes that reached the destination. *)
Definition copyin (pagetable srcva len : Z) : K (Z * list Z) :=
  while_loop (Z.to_nat (len / PGSIZE + 2)) (srcva, len, []) (fun '(srcva, len, dst) =>
    if len =? 0 then ret (inr (0, dst)) else
    let va0 := PGROUNDDOWN srcva in
    let* pa0 := walkaddr pagetable va0 in
    let* pa0 := (if is_null pa0 then vmfault pagetable va0 false else ret pa0) in
    if is_null pa0 then ret (inr (-1, dst)) else
    let n := Z.min (PGSIZE - (srcva - va0)) len in
    let* s := get in
    let bytes := read_bytes (k_mem s) (pa0 + (srcva - va0)) (Z.to_nat n) in
    ret (inl (wrap64 (va0 + PGSIZE), len - n, dst ++ bytes))).

(** The inner loop of [copyinstr] over one page: the bytes stored, whether the
    NUL was found. *)
Fixpoint copyinstr_page (m : gmap Z Z) (p : Z) (n : nat) : list Z * bool :=
  match n with
  | O => ([], false)
  | S n' =>
      if load8 m p =? 0 then ([0], true)
      else let '(l, got) := copyinstr_page m (p + 1) n' in (load8 m p :: l, got)
  end.

Definition copyinstr (pagetable srcva max : Z) : K (Z * list Z) :=
  while_loop (Z.to_nat (max / PGSIZE + 2)) (srcva, max, [], false) (fun '(srcva, max, dst, got) =>
    if got || (max =? 0) then ret (inr ((if (got : bool) then 0 else -1), dst)) else
    let va0 := PGROUNDDOWN srcva in
    let* pa0 := walkaddr pagetable va0 in
    if is_null pa0 then ret (inr (-1, dst)) else
    let n := Z.min (PGSIZE - (srcva - va0)) max in
    let* s := get in
    let '(bytes, got') := copyinstr_page (k_mem s) (pa0 + (srcva - va0)) (Z.to_nat n) in
    ret (inl (wrap64 (va0 + PGSIZE), max - Z.of_nat (length bytes), dst ++ bytes, got'))).

(** ** The kernel's page table *)
Definition proc_mapstacks (kpgtbl : Z) : K unit :=
  for_all proc_table (fun p =>
    let* pa := kalloc in
    if is_null pa then panic "kalloc" else
    let va := KSTACK (Z.of_nat p) in
    kvmmap kpgtbl va pa PGSIZE (Z.lor PTE_R PTE_W)).

Definition kvmmake : K Z :=
  let* sym := gets k_sym in
  let* kpgtbl := kalloc in
  memsetK kpgtbl 0 PGSIZE ;;;
  kvmmap kpgtbl UART0 UART0 PGSIZE (Z.lor PTE_R PTE_W) ;;;
  kvmmap kpgtbl VIRTIO0 VIRTIO0 PGSIZE (Z.lor PTE_R PTE_W) ;;;
  kvmmap kpgtbl PLIC PLIC 67108864 (Z.lor PTE_R PTE_W) ;;;
  kvmmap kpgtbl KERNBASE KERNBASE (sym_etext sym - KERNBASE) (Z.lor PTE_R PTE_X) ;;;
  kvmmap kpgtbl (sym_etext sym) (sym_etext sym) (PHYSTOP - sym_etext sym) (Z.lor PTE_R PTE_W) ;;;
  kvmmap kpgtbl TRAMPOLINE (sym_trampoline sym) PGSIZE (Z.lor PTE_R PTE_X) ;;;
  proc_mapstacks kpgtbl ;;;
  ret kpgtbl.

Definition kvminit : K unit :=
  let* k := kvmmake in
  modify (set_k_kpagetable k).
