(* ===== verification/PageTable.v ===== *)
(** * The three-level page table as a finite map

    The theory behind vm.c: which page a path of indices reaches, when a table
    is well formed, and how storing an entry or adding a page-table page changes
    the map from virtual addresses to page-table entries. *)
From S2P Require Import Prelude State CString Kalloc Vm.

Open Scope Z_scope.

(** ** Bit fields of entries and addresses *)
Lemma lor_low a b n : 0 <= n -> 0 <= b < 2 ^ n -> Z.lor (a * 2 ^ n) b = a * 2 ^ n + b.
Proof.
  intros Hn Hb.
  rewrite <- Z.lxor_lor, Z.add_nocarry_lxor; [done| |].
  all: apply Z.bits_inj'; intros i Hi; rewrite Z.land_spec, Z.bits_0;
    destruct (Z.ltb_spec i n);
    [rewrite Z.mul_pow2_bits_low by lia; done|
     replace b with (b mod 2 ^ n) by (apply Z.mod_small; lia);
     rewrite Z.mod_pow2_bits_high by lia; apply andb_false_r].
Qed.

Lemma has_V v : has v PTE_V = Z.odd v.
Proof.
  unfold has, PTE_V. change (Z.shiftl 1 0) with (Z.ones 1). rewrite Z.land_ones by lia.
  change (2 ^ 1) with 2. rewrite Zmod_odd. by destruct (Z.odd v).
Qed.

Lemma PX_eq level va : 0 <= level -> PX level va = (va / 2 ^ (12 + 9 * level)) mod 512.
Proof.
  intros Hl. unfold PX, PXSHIFT, PGSHIFT, PXMASK. change 511 with (Z.ones 9).
  rewrite Z.land_ones by lia. by rewrite Z.shiftr_div_pow2 by lia.
Qed.

Lemma PX_range level va : 0 <= level -> 0 <= PX level va < 512.
Proof. intros Hl. rewrite PX_eq by done. apply Z.mod_pos_bound. lia. Qed.

(** A page-aligned address below [MAXVA] is its three indices. *)
Lemma PX_decompose va :
  0 <= va < MAXVA -> va mod PGSIZE = 0 ->
  va = PX 2 va * 2 ^ 30 + PX 1 va * 2 ^ 21 + PX 0 va * 2 ^ 12.
Proof.
  intros Hva Ha. rewrite !PX_eq by lia.
  apply Z.mod_divide in Ha as [q ->]; [|done].
  assert (Hq : 0 <= q < 67108864).
  { unfold MAXVA, PGSIZE in Hva. change (Z.shiftl 1 (9 + 9 + 9 + 12 - 1)) with 274877906944 in Hva. lia. }
  unfold PGSIZE. change (2 ^ (12 + 9 * 2)) with (4096 * (512 * 512)).
  change (2 ^ (12 + 9 * 1)) with (4096 * 512). change (2 ^ (12 + 9 * 0)) with 4096.
  rewrite <- !Z.div_div, !Z.div_mul by lia.
  change (2 ^ 30) with 1073741824. change (2 ^ 21) with 2097152. change (2 ^ 12) with 4096.
  dlia.
Qed.

Lemma PX_inj va va' :
  0 <= va < MAXVA -> 0 <= va' < MAXVA -> va mod PGSIZE = 0 -> va' mod PGSIZE = 0 ->
  PX 2 va = PX 2 va' -> PX 1 va = PX 1 va' -> PX 0 va = PX 0 va' -> va = va'.
Proof.
  intros H1 H2 A1 A2 E2 E1 E0.
  rewrite (PX_decompose va), (PX_decompose va') by done. by rewrite E2, E1, E0.
Qed.

Lemma PA2PTE_eq pa : 0 <= pa < 2 ^ 56 -> pa mod PGSIZE = 0 -> PA2PTE pa = pa / 4.
Proof.
  unfold PGSIZE. intros H1 H2. unfold PA2PTE.
  rewrite Z.shiftr_div_pow2, Z.shiftl_mul_pow2 by lia.
  change (2 ^ 12) with 4096. change (2 ^ 10) with 1024.
  rewrite wrap64_small; dlia.
Qed.

(** A leaf or pointer entry built by [mappages] or [walk]. *)
Lemma mk_pte_eq pa perm :
  0 <= pa < 2 ^ 56 -> pa mod PGSIZE = 0 -> 0 <= perm < 1024 ->
  Z.lor (PA2PTE pa) perm = pa / 4 + perm.
Proof.
  intros H1 H2 H3. rewrite PA2PTE_eq by done.
  assert (E : pa / 4 = pa / 4096 * 2 ^ 10).
  { unfold PGSIZE in H2. change (2 ^ 10) with 1024. dlia. }
  rewrite E. apply lor_low; [lia|]. simpl. lia.
Qed.

Lemma lor_bound a b n : 0 <= n -> 0 <= a < 2 ^ n -> 0 <= b < 2 ^ n -> 0 <= Z.lor a b < 2 ^ n.
Proof.
  intros Hn Ha Hb. assert (0 <= Z.lor a b) by (apply Z.lor_nonneg; lia). split; [done|].
  destruct (decide (Z.lor a b = 0)) as [->|Hne]; [lia|].
  apply Z.log2_lt_pow2; [lia|]. rewrite Z.log2_lor by lia.
  apply Z.max_lub_lt.
  - destruct (decide (a = 0)) as [->|]; [simpl|apply Z.log2_lt_pow2; lia].
    destruct (decide (n = 0)) as [->|]; [|lia].
    change (2 ^ 0) with 1 in *. assert (b = 0) by lia. subst. done.
  - destruct (decide (b = 0)) as [->|]; [simpl|apply Z.log2_lt_pow2; lia].
    destruct (decide (n = 0)) as [->|]; [|lia].
    change (2 ^ 0) with 1 in *. assert (a = 0) by lia. subst. done.
Qed.

Lemma PTE2PA_eq v : 0 <= v < 2 ^ 54 -> PTE2PA v = v / 1024 * 4096.
Proof.
  intros H. unfold PTE2PA. rewrite Z.shiftr_div_pow2, Z.shiftl_mul_pow2 by lia.
  change (2 ^ 12) with 4096. change (2 ^ 10) with 1024. apply wrap64_small.
  change (2 ^ 54) with 18014398509481984 in H. dlia.
Qed.

Lemma PTE_FLAGS_eq v : PTE_FLAGS v = v mod 1024.
Proof. unfold PTE_FLAGS. change 1023 with (Z.ones 10). by rewrite Z.land_ones by lia. Qed.

Section Entry.
Variables pa perm : Z.
Hypothesis Hpa : 0 <= pa < PHYSTOP.
Hypothesis Hal : pa mod PGSIZE = 0.
Hypothesis Hperm : 0 <= perm < 1024.

Let pte := Z.lor (Z.lor (PA2PTE pa) perm) PTE_V.

Lemma entry_eq : pte = pa / 4 + Z.lor perm 1.
Proof.
  unfold pte. rewrite <- Z.lor_assoc. change PTE_V with 1.
  apply mk_pte_eq; [unfold PHYSTOP, KERNBASE in Hpa; lia|done|].
  apply (lor_bound _ _ 10); simpl; lia.
Qed.

Lemma entry_perm_bound : 0 <= Z.lor perm 1 < 1024.
Proof. apply (lor_bound _ _ 10); simpl; lia. Qed.

Lemma entry_bound : 0 <= pte < 2 ^ 54.
Proof.
  rewrite entry_eq. pose proof entry_perm_bound. unfold PHYSTOP, KERNBASE in Hpa. dlia.
Qed.

Lemma entry_valid : has pte PTE_V = true.
Proof. rewrite has_V. rewrite <- Z.bit0_odd. unfold pte. rewrite Z.lor_spec. apply orb_true_r. Qed.

Lemma entry_pa : PTE2PA pte = pa.
Proof.
  rewrite PTE2PA_eq by apply entry_bound. rewrite entry_eq. pose proof entry_perm_bound.
  unfold PGSIZE in Hal. dlia.
Qed.

Lemma entry_flags : PTE_FLAGS pte = Z.lor perm PTE_V.
Proof.
  rewrite PTE_FLAGS_eq, entry_eq. pose proof entry_perm_bound. change PTE_V with 1.
  unfold PGSIZE in Hal. dlia.
Qed.

(** The permission bits other than [PTE_V] are those of [perm]. *)
Lemma entry_has f : Z.land 1023 f = f -> Z.land PTE_V f = 0 -> has pte f = has perm f.
Proof.
  intros Hf HV. unfold has. rewrite <- Hf at 1. rewrite Z.land_assoc.
  change (Z.land pte 1023) with (PTE_FLAGS pte). rewrite entry_flags, Z.land_lor_distr_l, HV.
  by rewrite Z.lor_0_r.
Qed.

End Entry.

(** ** Paths through the tree *)

(** Entry [i] of the page-table page [pt], and the page it points to. *)
Definition ent (m : gmap Z Z) (pt i : Z) : Z := load64 m (pt + 8 * i).
Definition sub (m : gmap Z Z) (pt i : Z) : option Z :=
  if has (ent m pt i) PTE_V then Some (PTE2PA (ent m pt i)) else None.

Fixpoint page (m : gmap Z Z) (pt : Z) (path : list Z) : option Z :=
  match path with
  | [] => Some pt
  | i :: path' => sub m pt i ≫= fun p => page m p path'
  end.

(** Paths to page-table pages: at most two indices. *)
Definition dpath (path : list Z) : Prop :=
  (length path <= 2)%nat /\ Forall (fun i => 0 <= i < 512) path.

(** The page-table page holding the entry of [va], and that entry. *)
Definition leaf_page (m : gmap Z Z) (root va : Z) : option Z := page m root [PX 2 va; PX 1 va].
Definition pt_lookup (m : gmap Z Z) (root va : Z) : Z :=
  match leaf_page m root va with
  | Some p => ent m p (PX 0 va)
  | None => 0
  end.

(** A well-formed table: its pages are distinct allocatable pages, none of them
    free, and inner entries are pure pointers. *)
Record pt_wf (sym : symbols) (m : gmap Z Z) (l : list Z) (root : Z) : Prop := {
  pw_inj : forall π π' a, dpath π -> dpath π' ->
    page m root π = Some a -> page m root π' = Some a -> π = π';
  pw_valid : forall π a, dpath π -> page m root π = Some a -> valid_page sym a /\ a ∉ l;
  pw_inner : forall π p i, dpath (π ++ [i]) -> page m root π = Some p ->
    has (ent m p i) PTE_V = true ->
    has (ent m p i) (Z.lor (Z.lor PTE_R PTE_W) PTE_X) = false
}.

Definition pt_page (m : gmap Z Z) (root a : Z) : Prop :=
  exists π, dpath π /\ page m root π = Some a.

(** Bytes outside the given pages are unchanged. *)
Definition same_outside (P : Z -> Prop) (m m' : gmap Z Z) : Prop :=
  forall b, (forall a, P a -> ~ (a <= b < a + PGSIZE)) -> load8 m' b = load8 m b.

Lemma page_snoc m root π i : page m root (π ++ [i]) = page m root π ≫= fun p => sub m p i.
Proof.
  revert root. induction π as [|j π IH]; intros root; simpl.
  - by destruct (sub m root i).
  - destruct (sub m root j); simpl; [apply IH|done].
Qed.

Lemma dpath_snoc π i : dpath (π ++ [i]) -> dpath π /\ 0 <= i < 512 /\ (length π <= 1)%nat.
Proof.
  intros [Hl Hf]. rewrite length_app in Hl. simpl in Hl. apply Forall_app in Hf as [Hf Hi].
  inversion_clear Hi. split_and!; try lia. split; [lia|done].
Qed.

Lemma dpath_snoc_intro π i : dpath π -> (length π <= 1)%nat -> 0 <= i < 512 -> dpath (π ++ [i]).
Proof.
  intros [Hl Hf] H Hi. split; [rewrite length_app; simpl; lia|].
  apply Forall_app. split; [done|]. by constructor.
Qed.

Lemma dpath_nil : dpath [].
Proof. split; [simpl; lia|constructor]. Qed.

Lemma dpath_va va : dpath [PX 2 va; PX 1 va].
Proof. split; [simpl; lia|]. repeat constructor; apply PX_range; lia. Qed.
#[export] Hint Resolve dpath_nil dpath_va : kernel.

(** The page of a path depends only on the entries along the path. *)
Lemma page_frame m m' root π :
  dpath π ->
  (forall π' i p, dpath (π' ++ [i]) -> page m root π' = Some p -> ent m' p i = ent m p i) ->
  page m' root π = page m root π.
Proof.
  intros Hd H. induction π as [|i π IH] using rev_ind; [done|].
  pose proof (dpath_snoc _ _ Hd) as (Hd' & _ & _).
  rewrite !page_snoc, IH by done. destruct (page m root π) as [p|] eqn:E; [|done]. simpl.
  unfold sub. by rewrite (H π i p).
Qed.

(** Two entries of well-formed pages are the same word or disjoint. *)
Lemma entry_disjoint sym p q i j :
  valid_page sym p -> valid_page sym q -> 0 <= i < 512 -> 0 <= j < 512 ->
  (p, i) <> (q, j) ->
  p + 8 * i + 8 <= q + 8 * j \/ q + 8 * j + 8 <= p + 8 * i.
Proof.
  intros Hp Hq Hi Hj Hne. destruct (decide (p = q)) as [->|Hpq].
  - assert (i <> j) by congruence. lia.
  - destruct (valid_page_disjoint _ _ _ Hp Hq Hpq); unfold PGSIZE in *; lia.
Qed.

Lemma ent_store_ne sym m p q i j v :
  valid_page sym p -> valid_page sym q -> 0 <= i < 512 -> 0 <= j < 512 ->
  (p, i) <> (q, j) -> ent (store64 m (p + 8 * i) v) q j = ent m q j.
Proof.
  intros Hp Hq Hi Hj Hne. apply load64_store64_ne.
  destruct (entry_disjoint _ _ _ _ _ Hp Hq Hi Hj Hne); lia.
Qed.

Lemma ent_same_but sym m m' a q j :
  valid_page sym a -> valid_page sym q -> 0 <= j < 512 -> a <> q ->
  same_but a m m' -> ent m' q j = ent m q j.
Proof.
  intros Ha Hq Hj Hne H. eapply same_but_load64; [done|].
  destruct (valid_page_disjoint _ _ _ Ha Hq Hne); unfold PGSIZE in *; lia.
Qed.

(** ** Storing a leaf entry *)
Section Leaf.
Context {sym : symbols} {m : gmap Z Z} {l : list Z} {root : Z}.
Hypothesis Hwf : pt_wf sym m l root.

Lemma leaf_page_valid va p : leaf_page m root va = Some p -> valid_page sym p /\ p ∉ l.
Proof. intros H. eapply pw_valid; eauto using dpath_va. Qed.

(** Inner entries do not live in the leaf-level pages. *)
Lemma inner_ne_leaf va p π i q k :
  leaf_page m root va = Some p -> dpath (π ++ [i]) -> page m root π = Some q -> (p, k) <> (q, i).
Proof.
  intros Hp Hd Hq [= -> ->]. pose proof (dpath_snoc _ _ Hd) as (Hd' & _ & Hl).
  pose proof (pw_inj _ _ _ _ Hwf _ _ _ Hd' (dpath_va va) Hq Hp) as ->. simpl in Hl. lia.
Qed.

Variables (va p v : Z).
Hypothesis Hp : leaf_page m root va = Some p.
Hypothesis Hv : 0 <= v < 2 ^ 64.
Let m' := store64 m (p + 8 * PX 0 va) v.

Lemma leaf_store_page π : dpath π -> page m' root π = page m root π.
Proof.
  intros Hd. apply page_frame; [done|]. intros π' i q Hd' Hq.
  pose proof (dpath_snoc _ _ Hd') as (Hd'' & Hi & _).
  destruct (leaf_page_valid va p Hp) as [Hvp _].
  destruct (pw_valid _ _ _ _ Hwf π' q Hd'' Hq) as [Hvq _].
  apply (ent_store_ne sym); try done; [apply PX_range; lia|].
  by apply (inner_ne_leaf va p π' i q).
Qed.

Lemma leaf_store_wf : pt_wf sym m' l root.
Proof.
  constructor.
  - intros π π' a Hd Hd'. rewrite !leaf_store_page by done. by apply (pw_inj _ _ _ _ Hwf).
  - intros π a Hd. rewrite leaf_store_page by done. by apply (pw_valid _ _ _ _ Hwf).
  - intros π q i Hd'. pose proof (dpath_snoc _ _ Hd') as (Hd'' & Hi & _).
    rewrite leaf_store_page by done. intros Hq.
    destruct (leaf_page_valid va p Hp) as [Hvp _].
    destruct (pw_valid _ _ _ _ Hwf π q Hd'' Hq) as [Hvq _].
    unfold m'. rewrite (ent_store_ne sym); try done; [by apply (pw_inner _ _ _ _ Hwf π)|apply PX_range; lia|].
    by apply (inner_ne_leaf va p π i q).
Qed.

(** The entry of [va] is replaced, every other entry stays. *)
Lemma leaf_store_lookup va' :
  0 <= va < MAXVA -> 0 <= va' < MAXVA -> va mod PGSIZE = 0 -> va' mod PGSIZE = 0 ->
  pt_lookup m' root va' = if decide (va' = va) then v else pt_lookup m root va'.
Proof.
  intros H1 H2 A1 A2. unfold pt_lookup, leaf_page.
  rewrite leaf_store_page by apply dpath_va.
  case_decide as E.
  - subst va'. unfold leaf_page in Hp. rewrite Hp. unfold ent, m'. by apply load64_store64_eq.
  - destruct (page m root [PX 2 va'; PX 1 va']) as [q|] eqn:Hq; [|done].
    destruct (leaf_page_valid va p Hp) as [Hvp _].
    destruct (leaf_page_valid va' q Hq) as [Hvq _].
    apply (ent_store_ne sym); try done; try (apply PX_range; lia).
    intros [= -> E0]. apply E.
    pose proof (pw_inj _ _ _ _ Hwf _ _ _ (dpath_va va) (dpath_va va') Hp Hq) as [= E2 E1].
    by apply PX_inj.
Qed.

Lemma leaf_store_outside : same_outside (pt_page m root) m m'.
Proof.
  intros b Hb. apply load8_store64_ne. specialize (Hb p).
  pose proof (PX_range 0 va). unfold PGSIZE in Hb.
  intros Hin. apply Hb; [|lia]. exists [PX 2 va; PX 1 va]. split; [apply dpath_va|done].
Qed.

End Leaf.

(** ** Adding a page-table page

    [r] is a fresh page, zeroed in [m1]; the entry [k] of the page at path [π]
    is made to point to it. *)
Section Grow.
Context {sym : symbols} {m : gmap Z Z} {l : list Z} {root : Z}.
Hypothesis Hwf : pt_wf sym m l root.
Variables (π : list Z) (pt k r : Z) (m1 : gmap Z Z).
Hypothesis Hd : dpath (π ++ [k]).
Hypothesis Hpt : page m root π = Some pt.
Hypothesis Hnone : has (ent m pt k) PTE_V = false.
Hypothesis Hr : valid_page sym r.
Hypothesis Hfresh : forall π' a, dpath π' -> page m root π' = Some a -> a <> r.
Hypothesis Hm1 : same_but r m m1.
Hypothesis Hzero : forall i, 0 <= i < 512 -> ent m1 r i = 0.
Let m2 := store64 m1 (pt + 8 * k) (Z.lor (PA2PTE r) PTE_V).

Local Lemma grow_pt : valid_page sym pt /\ pt ∉ l /\ pt <> r /\ 0 <= k < 512 /\ dpath π.
Proof.
  pose proof (dpath_snoc _ _ Hd) as (Hd' & Hk & _).
  destruct (pw_valid _ _ _ _ Hwf π pt Hd' Hpt). split_and!; eauto; lia.
Qed.

Local Lemma grow_entry :
  0 <= Z.lor (PA2PTE r) PTE_V < 2 ^ 54 /\ has (Z.lor (PA2PTE r) PTE_V) PTE_V = true
  /\ PTE2PA (Z.lor (PA2PTE r) PTE_V) = r
  /\ has (Z.lor (PA2PTE r) PTE_V) (Z.lor (Z.lor PTE_R PTE_W) PTE_X) = false.
Proof.
  destruct Hr as (Ha & Hb & H0).
  assert (E : Z.lor (PA2PTE r) PTE_V = Z.lor (Z.lor (PA2PTE r) 0) PTE_V) by by rewrite Z.lor_0_r.
  rewrite E. split_and!.
  1-2: apply entry_bound; try done; lia.
  - apply entry_valid; try done; lia.
  - apply entry_pa; try done; lia.
  - rewrite entry_eq by (done || lia). unfold has. apply negb_false_iff, Z.eqb_eq.
    change (Z.lor (Z.lor PTE_R PTE_W) PTE_X) with (Z.ones 3 * 2). change (Z.lor 0 1) with 1.
    unfold PGSIZE in Ha. apply Z.mod_divide in Ha as [q ->]; [|lia].
    replace (q * 4096 / 4) with (q * 1024) by dlia.
    replace (Z.ones 3 * 2) with (Z.land 1023 14) by done.
    rewrite Z.land_assoc. change 1023 with (Z.ones 10). rewrite Z.land_ones by lia.
    replace ((q * 1024 + 1) mod 2 ^ 10) with 1; [done|]. change (2 ^ 10) with 1024. dlia.
Qed.

Local Lemma grow_ent_old q i :
  valid_page sym q -> 0 <= i < 512 -> q <> r -> (q, i) <> (pt, k) -> ent m2 q i = ent m q i.
Proof.
  intros Hq Hi Hqr Hne. destruct grow_pt as (Hvpt & _ & _ & Hk & _).
  unfold m2. rewrite (ent_store_ne sym) by (done || congruence).
  by apply (ent_same_but sym m m1 r).
Qed.

Local Lemma grow_ent_new i : 0 <= i < 512 -> ent m2 r i = 0.
Proof.
  intros Hi. destruct grow_pt as (Hvpt & _ & Hne & Hk & _).
  unfold m2. rewrite (ent_store_ne sym) by (done || congruence). by apply Hzero.
Qed.

Local Lemma grow_ent_k : ent m2 pt k = Z.lor (PA2PTE r) PTE_V.
Proof. destruct grow_entry as (Hb & _). unfold ent, m2. apply load64_store64_eq. lia. Qed.

Local Lemma grow_page_none : page m root (π ++ [k]) = None.
Proof. rewrite page_snoc, Hpt. simpl. unfold sub. by rewrite Hnone. Qed.

Lemma grow_page π' :
  dpath π' -> page m2 root π' = if decide (π' = π ++ [k]) then Some r else page m root π'.
Proof.
  destruct grow_pt as (Hvpt & _ & Hne & Hk & Hdπ).
  destruct grow_entry as (_ & Hval & Hpa & _).
  induction π' as [|i π' IH] using rev_ind; intros Hd'.
  { rewrite decide_False; [done|]. intros E. by destruct π. }
  pose proof (dpath_snoc _ _ Hd') as (Hd'' & Hi & Hl).
  rewrite !page_snoc, IH by done.
  destruct (decide (π' = π ++ [k])) as [->|Hπ'].
  - rewrite grow_page_none. simpl.
    rewrite decide_False.
    + unfold sub. by rewrite grow_ent_new.
    + intros E. apply (f_equal length) in E. rewrite !length_app in E. simpl in E. lia.
  - destruct (page m root π') as [q|] eqn:Hq.
    + simpl. case_decide as E.
      * apply app_inj_tail in E as [-> ->]. rewrite Hpt in Hq. injection Hq as <-.
        unfold sub. by rewrite grow_ent_k, Hval, Hpa.
      * unfold sub. destruct (pw_valid _ _ _ _ Hwf π' q Hd'' Hq) as [Hvq _].
        rewrite grow_ent_old; [done|done|done|by eapply Hfresh|].
        intros [= -> ->]. apply E. f_equal. by apply (pw_inj _ _ _ _ Hwf π' π pt).
    + simpl. case_decide as E; [|done].
      apply app_inj_tail in E as [-> _]. congruence.
Qed.

Lemma grow_wf l' : (forall a, a ∈ l' -> a ∈ l) -> r ∉ l' -> pt_wf sym m2 l' root.
Proof.
  intros Hl' Hrl'. destruct grow_pt as (Hvpt & _ & Hne & Hk & Hdπ). constructor.
  - intros π1 π2 a H1 H2. rewrite !grow_page by done.
    repeat case_decide; subst; intros E1 E2; simplify_eq; try done.
    + exfalso. by eapply (Hfresh π2).
    + exfalso. by eapply (Hfresh π1).
    + by eapply (pw_inj _ _ _ _ Hwf).
  - intros π1 a H1. rewrite grow_page by done. case_decide; intros E; simplify_eq; [done|].
    destruct (pw_valid _ _ _ _ Hwf π1 a H1 E). split; [done|]. intros Hin. auto.
  - intros π1 q i H1. pose proof (dpath_snoc _ _ H1) as (H1' & Hi & Hl).
    rewrite grow_page by done. case_decide; intros E.
    + injection E as <-. by rewrite grow_ent_new.
    + destruct (decide ((q, i) = (pt, k))) as [[= -> ->]|Hqi].
      * intros _. rewrite grow_ent_k. apply grow_entry.
      * destruct (pw_valid _ _ _ _ Hwf π1 q H1' E) as [Hvq _].
        rewrite grow_ent_old by eauto. by apply (pw_inner _ _ _ _ Hwf π1).
Qed.

(** No mapping appears or disappears. *)
Lemma grow_lookup va : pt_lookup m2 root va = pt_lookup m root va.
Proof.
  unfold pt_lookup, leaf_page. rewrite grow_page by apply dpath_va.
  destruct grow_pt as (Hvpt & _ & Hne & Hk & Hdπ).
  pose proof (PX_range 0 va) as H0.
  case_decide as E.
  - rewrite grow_ent_new by lia. rewrite E, grow_page_none. done.
  - destruct (page m root [PX 2 va; PX 1 va]) as [q|] eqn:Hq; [|done].
    destruct (pw_valid _ _ _ _ Hwf _ q (dpath_va va) Hq) as [Hvq _].
    apply grow_ent_old; [done|lia|by eapply Hfresh, Hq; apply dpath_va|].
    intros [= -> _]. pose proof (pw_inj _ _ _ _ Hwf _ _ _ (dpath_va va) Hdπ Hq Hpt) as Eπ.
    pose proof (dpath_snoc _ _ Hd) as (_ & _ & Hl). rewrite <- Eπ in Hl. simpl in Hl. lia.
Qed.

Lemma grow_outside : same_outside (fun a => pt_page m root a \/ a = r) m m2.
Proof.
  intros b Hb. destruct grow_pt as (Hvpt & _ & Hne & Hk & Hdπ).
  unfold m2. rewrite load8_store64_ne.
  - apply Hm1. apply Hb. by right.
  - pose proof (Hb pt) as Hb'. unfold PGSIZE in Hb'.
    intros Hin. apply Hb'; [|lia]. left. by exists π.
Qed.

End Grow.
