(* ===== verification/VmSpec.v ===== *)
(** * What the page-table functions of vm.c do to the map they represent *)
From S2P Require Import Prelude State CString Kalloc Vm PageTable.

Open Scope Z_scope.

(** A kernel state with free list [l] and a well-formed page table at [root]. *)
Record pt_state (s : kernel) (l : list Z) (root : Z) : Prop := {
  ps_free : free_inv s l;
  ps_wf : pt_wf (k_sym s) (k_mem s) l root;
  ps_lock : LKmem ∉ k_held s
}.

(** How an operation on the table at [root] may change the state: it takes
    pages [used] from the free list for the tree, writes only to pages of the
    tree, and removes no page of the tree. *)
Record pt_frame (s : kernel) (l : list Z) (s' : kernel) (l' : list Z) (root : Z) : Prop := {
  pf_state : pt_state s' l' root;
  pf_mem : mem_only s s';
  pf_used : exists used, l = used ++ l'
    /\ same_outside (fun a => pt_page (k_mem s) root a \/ a ∈ used) (k_mem s) (k_mem s')
    /\ (forall a, pt_page (k_mem s') root a -> pt_page (k_mem s) root a \/ a ∈ used)
    /\ (forall a, a ∈ used -> pt_page (k_mem s') root a);
  pf_pages : forall π a, dpath π -> page (k_mem s) root π = Some a -> page (k_mem s') root π = Some a
}.

Lemma mem_only_refl s : mem_only s s.
Proof. unfold mem_only. by destruct s. Qed.

Lemma mem_only_trans s1 s2 s3 : mem_only s1 s2 -> mem_only s2 s3 -> mem_only s1 s3.
Proof. unfold mem_only. intros H1 H2. rewrite H2, H1. by rewrite with_mem_twice. Qed.

Lemma mem_only_fields s s' :
  mem_only s s' -> k_sym s' = k_sym s /\ k_held s' = k_held s /\ k_cur s' = k_cur s
  /\ k_procs s' = k_procs s /\ k_shm s' = k_shm s.
Proof. unfold mem_only. intros ->. by destruct s. Qed.

Lemma pt_frame_refl s l root : pt_state s l root -> pt_frame s l s l root.
Proof.
  intros H. constructor; [done|apply mem_only_refl| |done].
  exists []. split_and!; [done| |by left|by intros a ?%not_elem_of_nil]. intros b _. done.
Qed.

Lemma pt_frame_trans s1 l1 s2 l2 s3 l3 root :
  pt_frame s1 l1 s2 l2 root -> pt_frame s2 l2 s3 l3 root -> pt_frame s1 l1 s3 l3 root.
Proof.
  intros [S1 M1 (u1 & -> & O1 & P1 & Q1) G1] [S2 M2 (u2 & -> & O2 & P2 & Q2) G2].
  constructor; [done|by eapply mem_only_trans| |by eauto].
  exists (u1 ++ u2). split_and!.
  - by rewrite app_assoc.
  - intros b Hb. rewrite O2, O1; [done| |].
    + intros a Ha. apply Hb. rewrite elem_of_app. tauto.
    + intros a [Ha|Ha]; apply Hb; rewrite elem_of_app; [apply P1 in Ha|]; tauto.
  - intros a Ha. apply P2 in Ha as [Ha|Ha]; [apply P1 in Ha|]; rewrite elem_of_app; tauto.
  - intros a [Ha|Ha]%elem_of_app; [|by apply Q2].
    destruct (Q1 a Ha) as (π & Hd & Hp). exists π. eauto.
Qed.

(** ** walk *)
Lemma walk_noalloc s root va :
  va < MAXVA ->
  walk root va false s =
  Ret (match leaf_page (k_mem s) root va with Some p => p + 8 * PX 0 va | None => 0 end) s.
Proof.
  intros Hva. unfold walk. destruct (Z.leb_spec MAXVA va); [lia|].
  unfold leaf_page. cbn [walk_levels page]. unfold load64K. ksimpl.
  unfold sub, ent. destruct (has (load64 (k_mem s) (root + 8 * PX 2 va)) PTE_V); simpl; [|done].
  by destruct (has _ PTE_V).
Qed.

(** Fresh pages are not pages of the tree. *)
Lemma fresh_not_page s r l root π a :
  pt_state s (r :: l) root -> dpath π -> page (k_mem s) root π = Some a -> a <> r.
Proof.
  intros H Hd Hp ->. destruct (pw_valid _ _ _ _ (ps_wf _ _ _ H) π r Hd Hp) as [_ Hn]. set_solver.
Qed.

Lemma zeroed_ent m r i : 0 <= i < 512 -> ent (memset m r 0 PGSIZE) r i = 0.
Proof.
  intros Hi. apply load64_zero. intros b Hb.
  rewrite load8_memset by done. rewrite decide_True; [done|]. unfold PGSIZE. lia.
Qed.

Lemma page_memset_zero m r : same_but r m (memset (memset m r 5 PGSIZE) r 0 PGSIZE).
Proof. eapply same_but_trans; apply same_but_memset. Qed.

(** One level of [walk] with [alloc]: either the next page is found or made, or
    memory has run out. *)
Lemma walk_level s l root π pt level levels va :
  pt_state s l root -> page (k_mem s) root π = Some pt -> 0 <= level ->
  dpath (π ++ [PX level va]) ->
  (exists s' l' c, (pt_frame s l s' l' root /\ (length l <= S (length l'))%nat)
    /\ (forall va', pt_lookup (k_mem s') root va' = pt_lookup (k_mem s) root va')
    /\ page (k_mem s') root (π ++ [PX level va]) = Some c
    /\ walk_levels (level :: levels) pt va true s = walk_levels levels c va true s')
  \/ (l = [] /\ walk_levels (level :: levels) pt va true s = Ret 0 s).
Proof.
  intros Hs Hpt Hlv Hd. cbn [walk_levels]. unfold load64K. erewrite bind_ret_eq by reflexivity.
  change (load64 (k_mem s) (pt + 8 * PX level va)) with (ent (k_mem s) pt (PX level va)).
  destruct (has (ent (k_mem s) pt (PX level va)) PTE_V) eqn:Hv.
  { left. exists s, l, (PTE2PA (ent (k_mem s) pt (PX level va))).
    split_and!; [by apply pt_frame_refl|lia|done| |done].
    rewrite page_snoc, Hpt. simpl. unfold sub. by rewrite Hv. }
  cbn [negb]. destruct l as [|r l].
  { right. split; [done|]. erewrite bind_ret_eq by (apply kalloc_nil; apply Hs). done. }
  destruct (kalloc_cons s r l) as [E Hfi]; [apply Hs..|].
  erewrite bind_ret_eq by exact E.
  assert (Hr : valid_page (k_sym s) r) by (pose proof (fi_valid _ _ (ps_free _ _ _ Hs)) as Hf; by inversion Hf).
  unfold is_null. destruct (Z.eqb_spec r 0) as [->|_]; [destruct Hr; lia|].
  set (m1 := memset (memset (k_mem s) r 5 PGSIZE) r 0 PGSIZE).
  set (m2 := store64 m1 (pt + 8 * PX level va) (Z.lor (PA2PTE r) PTE_V)).
  left. exists (with_mem m2 (load64 (k_mem s) r) s), l, r.
  pose proof (fi_nodup _ _ (ps_free _ _ _ Hs)) as [Hrl Hnd]%NoDup_cons.
  assert (Hfr : forall π' a, dpath π' -> page (k_mem s) root π' = Some a -> a <> r)
    by (intros; by eapply fresh_not_page).
  assert (Hz : forall i, 0 <= i < 512 -> ent m1 r i = 0) by (intros; by apply zeroed_ent).
  pose proof (grow_page (ps_wf _ _ _ Hs) π pt (PX level va) r m1 Hd Hpt Hv Hr Hfr
                (page_memset_zero _ _) Hz) as Hgp. fold m2 in Hgp.
  pose proof (pw_valid _ _ _ _ (ps_wf _ _ _ Hs) π pt (proj1 (dpath_snoc _ _ Hd)) Hpt) as [Hvpt Hnpt].
  split_and!.
  - constructor.
    + constructor; simpl.
      * constructor; simpl; [|done|apply Hfi].
        pose proof (fi_list _ _ Hfi) as Hil. simpl in Hil.
        pose proof (fi_valid _ _ Hfi) as Hfv. simpl in Hfv.
        eapply (is_list_frame (k_sym s) _ _ _ _ pt); [done|done|set_solver| |].
        { apply same_but_store64; pose proof (PX_range level va Hlv); unfold PGSIZE; lia. }
        eapply (is_list_frame (k_sym s) _ _ _ _ r); [done|done|done|apply same_but_memset|done].
      * eapply (grow_wf (ps_wf _ _ _ Hs) π pt); eauto using page_memset_zero. set_solver.
      * apply Hs.
    + apply mem_only_with.
    + exists [r]. split; [done|]. simpl. split; [|split].
      * intros b Hb. eapply (grow_outside (ps_wf _ _ _ Hs) π pt); eauto using page_memset_zero.
        intros a Ha. apply Hb. set_solver.
      * intros a (π' & Hd' & Hp'). rewrite Hgp in Hp' by done. case_decide.
        { right. set_solver. } left. by exists π'.
      * intros a ->%list_elem_of_singleton. exists (π ++ [PX level va]). split; [done|].
        rewrite Hgp by done. by rewrite decide_True.
    + simpl. intros π' a Hd' Hp'. rewrite Hgp by done. case_decide; [|done]. subst.
      rewrite page_snoc, Hpt in Hp'. simpl in Hp'. unfold sub in Hp'. by rewrite Hv in Hp'.
  - simpl. lia.
  - intros va'. simpl. eapply (grow_lookup (ps_wf _ _ _ Hs) π pt); eauto using page_memset_zero.
  - simpl. rewrite Hgp by done. by rewrite decide_True.
  - erewrite bind_ret_eq by apply memsetK_with.
    by erewrite bind_ret_eq by apply store64K_with.
Qed.

Lemma walk_alloc s l root va :
  pt_state s l root -> va < MAXVA -> exists r s' l',
  walk root va true s = Ret r s' /\ pt_frame s l s' l' root
  /\ (forall va', pt_lookup (k_mem s') root va' = pt_lookup (k_mem s) root va')
  /\ ((r = 0 /\ l' = [] /\ (length l <= 1)%nat)
      \/ exists p, r = p + 8 * PX 0 va /\ leaf_page (k_mem s') root va = Some p /\ (length l <= length l' + 2)%nat).
Proof.
  intros Hs Hva. unfold walk. destruct (Z.leb_spec MAXVA va); [lia|].
  pose proof (PX_range 2 va) as H2. pose proof (PX_range 1 va) as H1.
  destruct (walk_level s l root [] root 2 [1] va) as [(s1 & l1 & c1 & [F1 N1] & L1 & P1 & ->)|[-> ->]];
    [done|done|lia|apply dpath_snoc_intro; auto with kernel; simpl; lia| |].
  2: { exists 0, s, []. split_and!; [done|by apply pt_frame_refl|done|left; split_and!; simpl; done || lia]. }
  destruct (walk_level s1 l1 root [PX 2 va] c1 1 [] va) as [(s2 & l2 & c2 & [F2 N2] & L2 & P2 & ->)|[-> ->]];
    [apply F1|done|lia|apply (dpath_va va)| |].
  - exists (c2 + 8 * PX 0 va), s2, l2. split_and!; [done|by eapply pt_frame_trans| |].
    + intros va'. by rewrite L2, L1.
    + right. exists c2. split_and!; [done|done|lia].
  - exists 0, s1, []. split_and!; [done|done|done|left; split_and!; done || (simpl in N1; lia)].
Qed.

(** ** mappages *)

(** The entry [mappages] writes. *)
Definition mk_pte (pa perm : Z) : Z := Z.lor (Z.lor (PA2PTE pa) perm) PTE_V.

(** Addresses of whole pages of the user address space. *)
Definition va_ok (va : Z) : Prop := 0 <= va < MAXVA /\ va mod PGSIZE = 0.

Lemma store_leaf_frame s l root va p v :
  pt_state s l root -> leaf_page (k_mem s) root va = Some p -> 0 <= v < 2 ^ 64 ->
  store64K (p + 8 * PX 0 va) v s
    = Ret tt (with_mem (store64 (k_mem s) (p + 8 * PX 0 va) v) (k_freelist s) s)
  /\ pt_frame s l (with_mem (store64 (k_mem s) (p + 8 * PX 0 va) v) (k_freelist s) s) l root.
Proof.
  intros Hs Hp Hv. split; [by destruct s|].
  pose proof (ps_wf _ _ _ Hs) as Hwf.
  destruct (leaf_page_valid Hwf va p Hp) as [Hvp Hnp].
  pose proof (PX_range 0 va) as H0.
  constructor.
  - constructor; simpl; [|by apply leaf_store_wf|apply Hs].
    destruct (ps_free _ _ _ Hs) as [Hi Hn Hf]. constructor; simpl; try done.
    eapply (is_list_frame (k_sym s) (k_mem s) _ _ _ p); try done.
    apply same_but_store64; unfold PGSIZE; lia.
  - apply mem_only_with.
  - exists []. simpl. split_and!; [done| | |].
    + intros b Hb. eapply (leaf_store_outside va p v Hp). intros a Ha. apply Hb. by left.
    + intros a (π & Hd & Hπ). left. exists π. split; [done|].
      by rewrite (leaf_store_page Hwf va p v Hp) in Hπ.
    + by intros a ?%not_elem_of_nil.
  - intros π a Hd Hπ. simpl. by rewrite (leaf_store_page Hwf va p v Hp).
Qed.

(** The map after [n] pages from [va] have been mapped to [pa], [pa + PGSIZE], ... *)
Definition mapped (m m' : gmap Z Z) (root va pa perm : Z) (n : Z) : Prop :=
  forall a, va_ok a ->
  pt_lookup m' root a =
  if decide (va <= a < va + n * PGSIZE) then mk_pte (pa + (a - va)) perm
  else pt_lookup m root a.

Lemma mk_pte_bound pa perm :
  0 <= pa < PHYSTOP -> pa mod PGSIZE = 0 -> 0 <= perm < 1024 -> 0 <= mk_pte pa perm < 2 ^ 64.
Proof. intros H1 H2 H3. pose proof (entry_bound pa perm H1 H2 H3). unfold mk_pte. lia. Qed.

Lemma leaf_lookup m root va p :
  leaf_page m root va = Some p -> load64 m (p + 8 * PX 0 va) = pt_lookup m root va.
Proof. intros H. unfold pt_lookup. by rewrite H. Qed.

(** Mapping one page: the new entry, or nothing mapped and no memory left. *)
Lemma map_one s l root va pa perm :
  pt_state s l root -> va_ok va -> 0 <= pa < PHYSTOP -> pa mod PGSIZE = 0 -> 0 <= perm < 1024 ->
  has (pt_lookup (k_mem s) root va) PTE_V = false ->
  exists s' l', pt_frame s l s' l' root /\
  ((walk root va true s = Ret 0 s' /\ (l' = [] /\ (length l <= 1)%nat) /\ mapped (k_mem s) (k_mem s') root va pa perm 0)
   \/ exists s1 p, walk root va true s = Ret (p + 8 * PX 0 va) s1 /\ (0 < p /\ (length l <= length l' + 2)%nat)
      /\ load64 (k_mem s1) (p + 8 * PX 0 va) = pt_lookup (k_mem s) root va
      /\ store64K (p + 8 * PX 0 va) (mk_pte pa perm) s1 = Ret tt s'
      /\ mapped (k_mem s) (k_mem s') root va pa perm 1).
Proof.
  intros Hs [Hva Hal] Hpa Hpal Hperm Hno.
  destruct (walk_alloc s l root va Hs) as (r & s1 & l1 & E & F & L & [(-> & -> & N)|(p & -> & Hp & N)]); [lia| |].
  - exists s1, []. split; [done|]. left. split_and!; [done|done|done|].
    intros a Ha. rewrite decide_False by lia. apply L.
  - destruct (store_leaf_frame s1 l1 root va p (mk_pte pa perm)) as [E2 F2];
      [apply F|done|by apply mk_pte_bound|].
    eexists _, l1. split; [by eapply pt_frame_trans|]. right. exists s1, p.
    pose proof (ps_wf _ _ _ (pf_state _ _ _ _ _ F)) as Hwf.
    destruct (leaf_page_valid Hwf va p Hp) as [(_ & _ & H0) _].
    split_and!; [done|done|done| |exact E2|].
    + by rewrite (leaf_lookup _ root va p Hp), L.
    + intros a [Ha Haal]. simpl.
      rewrite (leaf_store_lookup Hwf va p _ Hp) by (done || by apply mk_pte_bound).
      unfold PGSIZE in *. repeat case_decide; subst.
      * f_equal. lia.
      * lia.
      * exfalso. dlia.
      * apply L.
Qed.

(** [mappages] maps the whole range, or runs out of memory having mapped a
    prefix of it and used up the free list. *)
Lemma mappages_loop_spec n s l root va pa perm :
  pt_state s l root -> (0 < n)%nat ->
  0 <= va -> va mod PGSIZE = 0 -> va + Z.of_nat n * PGSIZE <= MAXVA ->
  0 <= pa -> pa mod PGSIZE = 0 -> pa + Z.of_nat n * PGSIZE <= PHYSTOP ->
  0 <= perm < 1024 ->
  (forall a, va_ok a -> va <= a < va + Z.of_nat n * PGSIZE ->
     has (pt_lookup (k_mem s) root a) PTE_V = false) ->
  exists rc j s' l',
    mappages_loop n root va (va + Z.of_nat n * PGSIZE - PGSIZE) pa perm s = Ret rc s'
    /\ pt_frame s l s' l' root
    /\ mapped (k_mem s) (k_mem s') root va pa perm j
    /\ ((rc = 0 /\ j = Z.of_nat n) \/ (rc = -1 /\ (0 <= j < Z.of_nat n /\ (length l < 2 * n)%nat) /\ l' = [])).
Proof.
  revert s l va pa. induction n as [|n IH];
    intros s l va pa Hs Hn Hva Hal Hmax Hpa Hpal Hpmax Hperm Hno; [lia|].
  unfold PGSIZE in *.
  assert (Hok : va_ok va) by (unfold va_ok, PGSIZE; lia).
  destruct (map_one s l root va pa perm) as (s1 & l1 & F1 & [(E & [-> N] & M)|(s0 & p & E & [Hp N] & Hld & Est & M)]);
    try done; try (unfold PGSIZE; lia).
  { apply Hno; [done|lia]. }
  { exists (-1), 0, s1, []. cbn [mappages_loop]. erewrite bind_ret_eq by exact E.
    split_and!; [done|done|done|]. right. split_and!; [done|lia|lia|lia|done]. }
  cbn [mappages_loop]. erewrite bind_ret_eq by exact E.
  pose proof (PX_range 0 va) as H0. unfold is_null.
  destruct (Z.eqb_spec (p + 8 * PX 0 va) 0); [lia|].
  unfold load64K at 1. erewrite bind_ret_eq by reflexivity.
  rewrite Hld, Hno by (done || lia).
  erewrite bind_ret_eq by exact Est.
  destruct (Z.eqb_spec va (va + Z.of_nat (S n) * 4096 - 4096)) as [Elast|Elast].
  { exists 0, 1, s1, l1. split_and!; [done|done|done|]. left. lia. }
  unfold PGSIZE. rewrite !wrap64_small by (kconst; lia).
  destruct (IH s1 l1 (va + 4096) (pa + 4096)) as (rc & j & s2 & l2 & E2 & F2 & M2 & Hrc);
    try lia; try done; try dlia.
  { apply F1. }
  { intros a Ha Hr. rewrite (M a Ha). rewrite decide_False by (unfold PGSIZE; lia). apply Hno; [done|lia]. }
  exists rc, (j + 1), s2, l2. split_and!.
  - by replace (va + Z.of_nat (S n) * 4096 - 4096) with (va + 4096 + Z.of_nat n * 4096 - 4096) by lia.
  - by eapply pt_frame_trans.
  - intros a Ha. rewrite (M2 a Ha), (M a Ha). destruct Ha as [Ha Haa]. unfold PGSIZE in *.
    assert (0 <= j) by lia.
    repeat case_decide; try done; try (f_equal; lia); exfalso; dlia.
  - destruct Hrc as [[-> ->]|(-> & ? & ->)]; [left; lia|right; split_and!; done || lia].
Qed.

Lemma mappages_spec s l root va size pa perm :
  pt_state s l root ->
  0 < size -> size mod PGSIZE = 0 -> 0 <= va -> va mod PGSIZE = 0 -> va + size <= MAXVA ->
  0 <= pa -> pa mod PGSIZE = 0 -> pa + size <= PHYSTOP -> 0 <= perm < 1024 ->
  (forall a, va_ok a -> va <= a < va + size -> has (pt_lookup (k_mem s) root a) PTE_V = false) ->
  exists rc j s' l',
    mappages root va size pa perm s = Ret rc s' /\ pt_frame s l s' l' root
    /\ mapped (k_mem s) (k_mem s') root va pa perm j
    /\ ((rc = 0 /\ j = size / PGSIZE)
        \/ (rc = -1 /\ (0 <= j < size / PGSIZE /\ Z.of_nat (length l) < 2 * (size / PGSIZE)) /\ l' = [])).
Proof.
  intros Hs Hsz Hszal Hva Hal Hmax Hpa Hpal Hpmax Hperm Hno. unfold mappages.
  rewrite Hal, Hszal. simpl. destruct (Z.eqb_spec size 0); [lia|].
  assert (En : Z.of_nat (Z.to_nat (size / PGSIZE)) * PGSIZE = size) by (unfold PGSIZE in *; dlia).
  destruct (mappages_loop_spec (Z.to_nat (size / PGSIZE)) s l root va pa perm)
    as (rc & j & s' & l' & E & F & Mp & Hrc); rewrite ?En; try done.
  - unfold PGSIZE in *. dlia.
  - rewrite En in E. exists rc, j, s', l'.
    rewrite wrap64_small by (kconst; dlia). split_and!; try done.
    destruct Hrc as [[-> ->]|(-> & Hj & ->)]; [left|right]; split_and!; try done; unfold PGSIZE in *; dlia.
Qed.

Lemma is_null_leaf s l root va p :
  pt_state s l root -> leaf_page (k_mem s) root va = Some p -> is_null (p + 8 * PX 0 va) = false.
Proof.
  intros Hs Hp. destruct (leaf_page_valid (ps_wf _ _ _ Hs) va p Hp) as [(_ & _ & H0) _].
  pose proof (PX_range 0 va). unfold is_null. destruct (Z.eqb_spec (p + 8 * PX 0 va) 0); [lia|done].
Qed.

(** [walkaddr] reads the map. *)
Lemma walkaddr_spec s l root va :
  pt_state s l root -> va < MAXVA ->
  let v := pt_lookup (k_mem s) root va in
  walkaddr root va s = Ret (if has v PTE_V && has v PTE_U then PTE2PA v else 0) s.
Proof.
  intros Hs Hva v. unfold walkaddr. destruct (Z.leb_spec MAXVA va); [lia|].
  erewrite bind_ret_eq by (by apply walk_noalloc). unfold v, pt_lookup.
  destruct (leaf_page (k_mem s) root va) as [p|] eqn:Hp; [|done].
  rewrite (is_null_leaf s l root va p) by done.
  unfold load64K. erewrite bind_ret_eq by reflexivity. fold (ent (k_mem s) p (PX 0 va)).
  destruct (has (ent (k_mem s) p (PX 0 va)) PTE_V); simpl; [|done].
  by destruct (has (ent (k_mem s) p (PX 0 va)) PTE_U).
Qed.

(** ** uvmunmap *)

(** Entries of the range that are valid are cleared, the others stay. *)
Definition unmapped (m m' : gmap Z Z) (root va n : Z) : Prop :=
  forall a, va_ok a ->
  pt_lookup m' root a =
  if decide (va <= a < va + n * PGSIZE /\ has (pt_lookup m root a) PTE_V = true) then 0
  else pt_lookup m root a.

Definition unmap_body (root : Z) (do_free : bool) (a : Z) : K (option unit) :=
  let* pte := walk root a false in
  if is_null pte then ret None else
  let* v := load64K pte in
  if negb (has v PTE_V) then ret None else
  (if do_free then kfree (PTE2PA v) else skip) ;;;
  store64K pte 0 ;;;
  ret None.

Lemma unmapped_none m root a :
  va_ok a -> has (pt_lookup m root a) PTE_V = false -> unmapped m m root a 1.
Proof.
  intros [Ha Haal] Hv b [Hb Hbal]. case_decide as E; [|done]. exfalso.
  assert (b = a) by (unfold PGSIZE in *; dlia). subst. destruct E. congruence.
Qed.

Lemma unmapped_store sym m l root a p :
  pt_wf sym m l root -> va_ok a -> leaf_page m root a = Some p ->
  has (pt_lookup m root a) PTE_V = true -> unmapped m (store64 m (p + 8 * PX 0 a) 0) root a 1.
Proof.
  intros Hwf [Ha Haal] Hp Hv b [Hb Hbal].
  rewrite (leaf_store_lookup Hwf a p 0 Hp) by (done || lia).
  repeat case_decide; subst; try done.
  - exfalso. naive_solver (unfold PGSIZE in *; lia).
  - exfalso. assert (b = a) by (unfold PGSIZE in *; dlia). done.
Qed.

(** The entry the loop body looks at. *)
Lemma unmap_body_eq s l root do_free a :
  pt_state s l root -> va_ok a ->
  unmap_body root do_free a s =
  match leaf_page (k_mem s) root a with
  | Some p =>
      if has (pt_lookup (k_mem s) root a) PTE_V then
        ((if do_free then kfree (PTE2PA (pt_lookup (k_mem s) root a)) else skip) ;;;
         store64K (p + 8 * PX 0 a) 0 ;;; ret None) s
      else Ret None s
  | None => Ret None s
  end.
Proof.
  intros Hs [Ha Haal]. unfold unmap_body. erewrite bind_ret_eq by (apply walk_noalloc; lia).
  destruct (leaf_page (k_mem s) root a) as [p|] eqn:Hp; [|done].
  rewrite (is_null_leaf s l root a p) by done.
  unfold load64K. erewrite bind_ret_eq by reflexivity. rewrite (leaf_lookup _ root a p Hp).
  by destruct (has (pt_lookup (k_mem s) root a) PTE_V).
Qed.

Lemma lookup_no_leaf m root a : leaf_page m root a = None -> has (pt_lookup m root a) PTE_V = false.
Proof. intros H. unfold pt_lookup. by rewrite H. Qed.

Lemma unmap_one_keep s l root a :
  pt_state s l root -> va_ok a -> exists s',
  unmap_body root false a s = Ret None s' /\ pt_frame s l s' l root
  /\ unmapped (k_mem s) (k_mem s') root a 1.
Proof.
  intros Hs Ha. rewrite (unmap_body_eq s l) by done.
  destruct (leaf_page (k_mem s) root a) as [p|] eqn:Hp;
    [destruct (has (pt_lookup (k_mem s) root a) PTE_V) eqn:Hv|].
  - destruct (store_leaf_frame s l root a p 0) as [E F]; [done|done|lia|].
    eexists. split_and!; [|exact F|by eapply unmapped_store; [apply Hs|..]].
    unfold skip. erewrite bind_ret_eq by reflexivity. by erewrite bind_ret_eq by exact E.
  - exists s. split_and!; [done|by apply pt_frame_refl|by apply unmapped_none].
  - exists s. split_and!; [done|by apply pt_frame_refl|].
    apply unmapped_none; [done|by apply lookup_no_leaf].
Qed.

Lemma unmapped_trans m1 m2 m3 root va n :
  0 <= n -> va mod PGSIZE = 0 ->
  unmapped m1 m2 root va 1 -> unmapped m2 m3 root (va + PGSIZE) n -> unmapped m1 m3 root va (1 + n).
Proof.
  intros Hn Hal H1 H2 a Ha. rewrite (H2 a Ha), (H1 a Ha). destruct Ha as [Ha Haal]. unfold PGSIZE in *.
  destruct (decide (va <= a < va + 1 * 4096 /\ has (pt_lookup m1 root a) PTE_V = true)) as [E|E].
  - rewrite decide_False by (intros [? _]; dlia). rewrite decide_True; [done|]. destruct E. split; [lia|done].
  - repeat case_decide; try done; exfalso; [naive_solver lia|].
    destruct H0 as [Hr Hv].
    destruct (decide (a < va + 4096)); [apply E; split; [lia|done]|apply H; split; [lia|done]].
Qed.

Lemma uvmunmap_keep_loop n s l root va e :
  pt_state s l root -> 0 <= va -> va mod PGSIZE = 0 -> va + Z.of_nat n * PGSIZE <= MAXVA ->
  e = va + Z.of_nat n * PGSIZE -> exists s',
  for_loop n va (fun a => a <? e) (fun a => wrap64 (a + PGSIZE)) (unmap_body root false) s = Ret None s'
  /\ pt_frame s l s' l root /\ unmapped (k_mem s) (k_mem s') root va (Z.of_nat n).
Proof.
  revert s va. induction n as [|n IH]; intros s va Hs Hva Hal Hmax ->.
  { exists s. simpl. destruct (Z.ltb_spec va (va + Z.of_nat 0 * PGSIZE)); [lia|].
    split_and!; [done|by apply pt_frame_refl|]. intros a Ha. rewrite decide_False by lia. done. }
  simpl. unfold PGSIZE in *.
  destruct (Z.ltb_spec va (va + Z.of_nat (S n) * 4096)); [|lia].
  destruct (unmap_one_keep s l root va) as (s1 & E & F & U); [done|unfold va_ok, PGSIZE; lia|].
  erewrite bind_ret_eq by exact E. rewrite wrap64_small by (kconst; lia).
  destruct (IH s1 (va + 4096)) as (s2 & E2 & F2 & U2); [apply F|lia|dlia|lia|lia|].
  exists s2. split_and!; [exact E2|by eapply pt_frame_trans|].
  replace (Z.of_nat (S n)) with (1 + Z.of_nat n) by lia.
  eapply unmapped_trans; [lia|done|exact U|exact U2].
Qed.

Lemma uvmunmap_keep s l root va npages :
  pt_state s l root -> 0 <= npages -> 0 <= va -> va mod PGSIZE = 0 -> va + npages * PGSIZE <= MAXVA ->
  exists s', uvmunmap root va npages false s = Ret tt s'
  /\ pt_frame s l s' l root /\ unmapped (k_mem s) (k_mem s') root va npages.
Proof.
  intros Hs Hn Hva Hal Hmax. unfold uvmunmap. rewrite Hal. simpl.
  destruct (uvmunmap_keep_loop (Z.to_nat npages) s l root va (va + npages * PGSIZE)) as (s' & E & F & U);
    rewrite ?Z2Nat.id by lia; try done.
  exists s'. rewrite Z2Nat.id in U by lia. split_and!; try done.
  rewrite wrap64_small by (kconst; lia). by erewrite bind_ret_eq by exact E.
Qed.

(** ** uvmcreate *)
Lemma zero_page_sub m r i : 0 <= i < 512 -> (forall j, 0 <= j < 512 -> ent m r j = 0) -> sub m r i = None.
Proof. intros Hi Hz. unfold sub. by rewrite Hz. Qed.

Lemma zero_page_path m r π a :
  (forall j, 0 <= j < 512 -> ent m r j = 0) -> dpath π -> page m r π = Some a -> π = [] /\ a = r.
Proof.
  intros Hz [_ Hf] Hp. destruct π as [|i π]; simpl in Hp; [by simplify_eq|].
  apply Forall_cons in Hf as [Hi _]. by rewrite zero_page_sub in Hp.
Qed.

Lemma zero_page_wf sym m l r :
  (forall j, 0 <= j < 512 -> ent m r j = 0) -> valid_page sym r -> r ∉ l -> pt_wf sym m l r.
Proof.
  intros Hz Hr Hl. constructor.
  - intros π π' a H1 H2 P1 P2.
    destruct (zero_page_path m r π a) as [-> _]; try done.
    by destruct (zero_page_path m r π' a) as [-> _].
  - intros π a H1 P1. by destruct (zero_page_path m r π a) as [_ ->].
  - intros π p i H1 P1 Hv. apply dpath_snoc in H1 as (H1 & Hi & _).
    destruct (zero_page_path m r π p) as [_ ->]; try done. by rewrite Hz in Hv.
Qed.

Lemma zero_page_lookup m r va : (forall j, 0 <= j < 512 -> ent m r j = 0) -> pt_lookup m r va = 0.
Proof.
  intros Hz. unfold pt_lookup, leaf_page. simpl. rewrite zero_page_sub; [done|by apply PX_range|done].
Qed.

Lemma uvmcreate_spec s r l :
  free_inv s (r :: l) -> LKmem ∉ k_held s -> exists s',
  uvmcreate s = Ret r s' /\ pt_state s' l r /\ mem_only s s'
  /\ same_but r (k_mem s) (k_mem s')
  /\ (forall va, pt_lookup (k_mem s') r va = 0)
  /\ (forall π a, dpath π -> page (k_mem s') r π = Some a -> a = r).
Proof.
  intros Hi Hh. unfold uvmcreate. destruct (kalloc_cons s r l Hi Hh) as [E Hfi].
  erewrite bind_ret_eq by exact E.
  destruct Hi as [_ Hnd Hv]. apply Forall_cons in Hv as [Hr Hv]. apply NoDup_cons in Hnd as [Hrl Hnd].
  unfold is_null. destruct (Z.eqb_spec r 0) as [->|_]; [destruct Hr; lia|].
  eexists. split; [by erewrite bind_ret_eq by apply memsetK_with|]. simpl.
  assert (Hz : forall j, 0 <= j < 512 ->
    ent (memset (memset (k_mem s) r 5 PGSIZE) r 0 PGSIZE) r j = 0) by (intros; by apply zeroed_ent).
  split_and!.
  - constructor; simpl; [|by apply zero_page_wf|done].
    constructor; simpl; [|done|done]. pose proof (fi_list _ _ Hfi) as Hil. simpl in Hil.
    eapply (is_list_frame (k_sym s) _ _ _ _ r); [done|done|done|apply same_but_memset|done].
  - apply mem_only_with.
  - apply page_memset_zero.
  - intros. by apply zero_page_lookup.
  - intros π a Hd Hp. by destruct (zero_page_path _ _ _ _ Hz Hd Hp).
Qed.

(** ** The claims *)

(** What [walkaddr] returns for an entry. *)
Definition user_pa (v : Z) : Z := if has v PTE_V && has v PTE_U then PTE2PA v else 0.

(** C8: mapping a range of unmapped pages and looking it up again.
    [mappages] returns 0, or -1 with the page pool empty, and never touches
    memory outside the page-table pages and the pages it took from the pool.
    When it returns 0, [walkaddr] finds every page of the range at its physical
    address and answers as before elsewhere, and [uvmunmap] without freeing
    takes the table back to the map it had. *)
Theorem mappages_walkaddr_uvmunmap s l root va size pa perm :
  pt_state s l root ->
  0 < size -> size mod PGSIZE = 0 -> 0 <= va -> va mod PGSIZE = 0 -> va + size <= MAXVA ->
  0 <= pa -> pa mod PGSIZE = 0 -> pa + size <= PHYSTOP -> 0 <= perm < 1024 ->
  has perm PTE_U = true ->
  (forall a, va_ok a -> va <= a < va + size -> pt_lookup (k_mem s) root a = 0) ->
  exists rc s1 l1,
    mappages root va size pa perm s = Ret rc s1 /\ pt_frame s l s1 l1 root
    /\ ((rc = -1 /\ l1 = []) \/
        (rc = 0
         /\ (forall a, va_ok a -> walkaddr root a s1 =
               Ret (if decide (va <= a < va + size) then pa + (a - va)
                    else user_pa (pt_lookup (k_mem s) root a)) s1)
         /\ exists s2, uvmunmap root va (size / PGSIZE) false s1 = Ret tt s2
            /\ forall a, va_ok a -> pt_lookup (k_mem s2) root a = pt_lookup (k_mem s) root a)).
Proof.
  intros Hs Hsz Hszal Hva Hal Hmax Hpa Hpal Hpmax Hperm HU Hno.
  assert (En : size / PGSIZE * PGSIZE = size) by (unfold PGSIZE in *; dlia).
  destruct (mappages_spec s l root va size pa perm) as (rc & j & s1 & l1 & E & F & Mp & Hrc);
    try done; [intros; by rewrite Hno|].
  exists rc, s1, l1. split_and!; [done|done|].
  destruct Hrc as [[-> ->]|(-> & _ & ->)]; [right|by left]. split_and!; [done| |].
  - intros a Ha. destruct Ha as [Ha Haal]. rewrite (walkaddr_spec s1 l1) by (apply F || lia).
    f_equal. rewrite (Mp a) by done. rewrite En. case_decide; [|done].
    assert (Hpb : 0 <= pa + (a - va) < PHYSTOP) by lia.
    assert (Hpm : (pa + (a - va)) mod PGSIZE = 0) by (unfold PGSIZE in *; dlia).
    unfold mk_pte. rewrite entry_valid, entry_has, HU, entry_pa by done. done.
  - destruct (uvmunmap_keep s1 l1 root va (size / PGSIZE)) as (s2 & E2 & F2 & U2);
      try done; [apply F|unfold PGSIZE; dlia|lia|].
    exists s2. split; [done|]. intros a Ha. rewrite (U2 a Ha), (Mp a Ha), En. case_decide as D1.
    + destruct D1 as [D1 D2]. by rewrite Hno.
    + case_decide as D2; [|done]. exfalso. apply D1. split; [done|]. unfold mk_pte. by rewrite entry_valid.
Qed.

(** A machine with eight free pages and one empty page table. *)
Definition small : kernel := kernel0 (mkSymbols (PHYSTOP - 8 * PGSIZE) 0 0 0 0 0).

Lemma small_boot : exists s l,
  kinit small = Ret tt s /\ free_inv s l /\ mem_only small s
  /\ l = rev (page_run (PHYSTOP - 8 * PGSIZE) 8).
Proof.
  destruct (kinit_spec small) as (s & E & Hm & Hi); [done|apply not_elem_of_nil|done|].
  eexists s, _. split_and!; try done.
Qed.

Lemma small_table : exists s l root,
  pt_state s l root /\ (forall va, pt_lookup (k_mem s) root va = 0).
Proof.
  destruct small_boot as (s & l & _ & Hi & Hm & ->).
  rewrite Hm in Hi. destruct (uvmcreate_spec _ _ _ Hi) as (s' & _ & Hs & _ & _ & Hz & _).
  - apply not_elem_of_nil.
  - eauto.
Qed.

Lemma mappages_walkaddr_uvmunmap_witness : exists s l root rc s1 l1,
  pt_state s l root
  /\ mappages root 0 (2 * PGSIZE) KERNBASE (Z.lor PTE_R PTE_U) s = Ret rc s1
  /\ pt_frame s l s1 l1 root.
Proof.
  destruct small_table as (s & l & root & Hs & Hz).
  destruct (mappages_walkaddr_uvmunmap s l root 0 (2 * PGSIZE) KERNBASE (Z.lor PTE_R PTE_U))
    as (rc & s1 & l1 & E & F & _).
  - exact Hs.
  - reflexivity.
  - reflexivity.
  - lia.
  - reflexivity.
  - vm_compute. discriminate.
  - vm_compute. discriminate.
  - reflexivity.
  - vm_compute. discriminate.
  - vm_compute. split; [discriminate|reflexivity].
  - reflexivity.
  - intros a _ _. apply Hz.
  - exists s, l, root, rc, s1, l1. split; [exact Hs|]. split; [exact E|exact F].
Defined.
