(* ===== verification/VmAlloc.v ===== *)
(** * Growing and shrinking a user address space

    [uvmunmap] with freeing, [uvmdealloc], [uvmalloc]: which pages move between
    the pool of kalloc.c and an address space, and what the address space maps
    afterwards. *)
From S2P Require Import Prelude State CString Kalloc Vm PageTable VmSpec.

Open Scope Z_scope.

(** ** Writing to a page that is not part of the tree *)
Section Other.
Context {sym : symbols} {m m' : gmap Z Z} {l : list Z} {root a : Z}.
Hypothesis wf : pt_wf sym m l root.
Hypothesis Ha : valid_page sym a.
Hypothesis Hna : ~ pt_page m root a.
Hypothesis Hsame : same_but a m m'.

Lemma other_ent π p i : dpath π -> page m root π = Some p -> 0 <= i < 512 -> ent m' p i = ent m p i.
Proof.
  intros Hd Hp Hi. eapply ent_same_but; [done|by eapply pw_valid|done| |done].
  intros ->. apply Hna. by exists π.
Qed.

Lemma other_page π : dpath π -> page m' root π = page m root π.
Proof.
  intros Hd. apply page_frame; [done|]. intros π' i p Hd' Hp.
  apply dpath_snoc in Hd' as (? & ? & _). by eapply other_ent.
Qed.

Lemma other_lookup va : pt_lookup m' root va = pt_lookup m root va.
Proof.
  unfold pt_lookup, leaf_page. rewrite other_page by auto with kernel.
  destruct (page m root [PX 2 va; PX 1 va]) as [p|] eqn:E; [|done].
  eapply (other_ent [PX 2 va; PX 1 va]); [auto with kernel|done|by apply PX_range].
Qed.

Lemma other_pt_page x : pt_page m' root x <-> pt_page m root x.
Proof.
  split; intros (π & Hd & Hp); exists π; split; try done.
  - by rewrite other_page in Hp.
  - by rewrite other_page.
Qed.

Lemma other_wf l' : (forall x, x ∈ l' -> ~ pt_page m root x) -> pt_wf sym m' l' root.
Proof.
  intros Hl. destruct wf as [W1 W2 W3]. constructor.
  - intros π π' x Hd Hd'. rewrite !other_page by done. by apply W1.
  - intros π x Hd. rewrite other_page by done. intros Hp. split; [by eapply W2|].
    intros Hx. apply (Hl x Hx). by exists π.
  - intros π p i Hd Hp Hv. destruct (dpath_snoc _ _ Hd) as (Hd' & Hi & _).
    rewrite other_page in Hp by done. erewrite other_ent in Hv |- * by done. by eapply W3.
Qed.
End Other.

Lemma pt_page_free s l root x : pt_state s l root -> x ∈ l -> ~ pt_page (k_mem s) root x.
Proof.
  intros Hs Hx (π & Hd & Hp). by destruct (pw_valid _ _ _ _ (ps_wf _ _ _ Hs) π x Hd Hp) as [_ []].
Qed.

(** ** Address spaces that own their pages *)

(** Every page mapped below [lim] is an allocatable page, neither free nor a
    page of the tree, and mapped once. *)
Record uvm (s : kernel) (l : list Z) (root lim : Z) : Prop := {
  uv_pt : pt_state s l root;
  uv_leaf : forall a, va_ok a -> a < lim -> has (pt_lookup (k_mem s) root a) PTE_V = true ->
    let pa := PTE2PA (pt_lookup (k_mem s) root a) in
    valid_page (k_sym s) pa /\ pa ∉ l /\ ~ pt_page (k_mem s) root pa;
  uv_inj : forall a b, va_ok a -> va_ok b -> a < lim -> b < lim ->
    has (pt_lookup (k_mem s) root a) PTE_V = true -> has (pt_lookup (k_mem s) root b) PTE_V = true ->
    PTE2PA (pt_lookup (k_mem s) root a) = PTE2PA (pt_lookup (k_mem s) root b) -> a = b
}.

(** The pages mapped at [va], [va + PGSIZE], ..., in order. *)
Definition pa_at (m : gmap Z Z) (root va : Z) : list Z :=
  if has (pt_lookup m root va) PTE_V then [PTE2PA (pt_lookup m root va)] else [].
Fixpoint pas (m : gmap Z Z) (root va : Z) (n : nat) : list Z :=
  match n with
  | O => []
  | S n' => pa_at m root va ++ pas m root (va + PGSIZE) n'
  end.

Lemma pas_ext m m' root va n :
  0 <= va -> va mod PGSIZE = 0 -> va + Z.of_nat n * PGSIZE <= MAXVA ->
  (forall a, va_ok a -> va <= a < va + Z.of_nat n * PGSIZE -> pt_lookup m' root a = pt_lookup m root a) ->
  pas m' root va n = pas m root va n.
Proof.
  revert va. induction n as [|n IH]; intros va H0 Hal Hmax H; simpl; [done|]. unfold PGSIZE in *.
  unfold pa_at. rewrite H by (unfold va_ok, PGSIZE; lia). f_equal.
  apply IH; [lia|dlia|lia|]. intros a Ha Hr. apply H; [done|lia].
Qed.

Lemma pas_app m root va n d :
  pas m root va (n + d) = pas m root va n ++ pas m root (va + Z.of_nat n * PGSIZE) d.
Proof.
  revert va. induction n as [|n IH]; intros va; simpl.
  - by rewrite Z.add_0_r.
  - rewrite IH, <- app_assoc. do 3 f_equal. unfold PGSIZE. lia.
Qed.

Lemma pas_elem m root va n x :
  0 <= va -> va mod PGSIZE = 0 -> va + Z.of_nat n * PGSIZE <= MAXVA ->
  x ∈ pas m root va n -> exists a, va_ok a /\ va <= a < va + Z.of_nat n * PGSIZE
    /\ has (pt_lookup m root a) PTE_V = true /\ x = PTE2PA (pt_lookup m root a).
Proof.
  revert va. induction n as [|n IH]; intros va H0 Hal Hmax; simpl; [by intros ?%not_elem_of_nil|].
  unfold PGSIZE in *. rewrite elem_of_app. intros [Hx|Hx].
  - exists va. unfold pa_at in Hx. destruct (has (pt_lookup m root va) PTE_V) eqn:E.
    + apply list_elem_of_singleton in Hx. split_and!; try done; unfold va_ok, PGSIZE; lia.
    + by apply not_elem_of_nil in Hx.
  - destruct (IH (va + 4096)) as (a & Ha & Hr & Hv & ->); [lia|dlia|lia|done|].
    exists a. split_and!; try done; lia.
Qed.

(** ** Unmapping with freeing *)

(** What unmapping keeps: the tree itself, and all memory outside the tree and
    the freed pages. *)
Record shrinks (s s' : kernel) (root : Z) (freed : list Z) : Prop := {
  sh_mem : mem_only s s';
  sh_tree : forall π, dpath π -> page (k_mem s') root π = page (k_mem s) root π;
  sh_outside : same_outside (fun a => pt_page (k_mem s) root a \/ a ∈ freed) (k_mem s) (k_mem s')
}.

Lemma shrinks_refl s root : shrinks s s root [].
Proof. constructor; [apply mem_only_refl|done|]. intros b _. done. Qed.

Lemma shrinks_pt_page s s' root f x :
  shrinks s s' root f -> pt_page (k_mem s') root x <-> pt_page (k_mem s) root x.
Proof.
  intros H. split; intros (π & Hd & Hp); exists π; split; try done.
  - by rewrite (sh_tree _ _ _ _ H) in Hp.
  - by rewrite (sh_tree _ _ _ _ H).
Qed.

Lemma shrinks_trans s1 s2 s3 root f g :
  shrinks s1 s2 root f -> shrinks s2 s3 root g -> shrinks s1 s3 root (g ++ f).
Proof.
  intros H1 H2. constructor.
  - eapply mem_only_trans; [apply H1|apply H2].
  - intros π Hd. by rewrite (sh_tree _ _ _ _ H2), (sh_tree _ _ _ _ H1).
  - intros b Hb. rewrite (sh_outside _ _ _ _ H2), (sh_outside _ _ _ _ H1); [done| |].
    + intros a Ha. apply Hb. rewrite elem_of_app. tauto.
    + intros a Ha. apply Hb. rewrite elem_of_app. rewrite (shrinks_pt_page _ _ _ _ _ H1) in Ha. tauto.
Qed.

Lemma same_but_freed m pa h : same_but pa m (store64 (memset m pa 1 PGSIZE) pa h).
Proof. eapply same_but_trans; [apply same_but_memset|apply same_but_store64; unfold PGSIZE; lia]. Qed.

Lemma unmapped_valid m m' root va n b :
  unmapped m m' root va n -> va_ok b -> has (pt_lookup m' root b) PTE_V = true ->
  pt_lookup m' root b = pt_lookup m root b /\ has (pt_lookup m root b) PTE_V = true
  /\ ~ (va <= b < va + n * PGSIZE).
Proof.
  intros Hu Hb. rewrite (Hu b Hb). case_decide as E; [done|]. intros Hv.
  split_and!; [done|done|]. intros Hr. by apply E.
Qed.

Lemma uvm_unmap s s' l root lim a :
  uvm s l root lim -> va_ok a -> a < lim -> has (pt_lookup (k_mem s) root a) PTE_V = true ->
  pt_state s' (PTE2PA (pt_lookup (k_mem s) root a) :: l) root -> k_sym s' = k_sym s ->
  (forall x, pt_page (k_mem s') root x -> pt_page (k_mem s) root x) ->
  unmapped (k_mem s) (k_mem s') root a 1 ->
  uvm s' (PTE2PA (pt_lookup (k_mem s) root a) :: l) root lim.
Proof.
  intros Hu Ha Hlim Hv Hs' Hsym Hpt Hum. constructor; [done| |].
  - intros b Hb Hbl Hbv.
    destruct (unmapped_valid _ _ _ _ _ b Hum Hb Hbv) as (-> & Hbv' & Hne).
    destruct (uv_leaf _ _ _ _ Hu b Hb Hbl Hbv') as (H1 & H2 & H3). rewrite Hsym.
    split_and!; [done| |by intros ?%Hpt]. intros [E|?]%elem_of_cons; [|done].
    apply (uv_inj _ _ _ _ Hu) in E; try done. subst. apply Hne. unfold PGSIZE. lia.
  - intros b c Hb Hc Hbl Hcl Hbv Hcv.
    destruct (unmapped_valid _ _ _ _ _ b Hum Hb Hbv) as (-> & Hbv' & _).
    destruct (unmapped_valid _ _ _ _ _ c Hum Hc Hcv) as (-> & Hcv' & _).
    by apply (uv_inj _ _ _ _ Hu).
Qed.

Lemma unmap_one_free s l root lim a :
  uvm s l root lim -> va_ok a -> a < lim -> exists s',
  unmap_body root true a s = Ret None s'
  /\ uvm s' (pa_at (k_mem s) root a ++ l) root lim
  /\ shrinks s s' root (pa_at (k_mem s) root a)
  /\ unmapped (k_mem s) (k_mem s') root a 1.
Proof.
  intros Hu Ha Hlim. pose proof (uv_pt _ _ _ _ Hu) as Hs. rewrite (unmap_body_eq s l) by done.
  destruct (leaf_page (k_mem s) root a) as [p|] eqn:Hp;
    [destruct (has (pt_lookup (k_mem s) root a) PTE_V) eqn:Hv|].
  2: { exists s. unfold pa_at. rewrite Hv. split_and!; [done..|apply shrinks_refl|by apply unmapped_none]. }
  2: { exists s. unfold pa_at. rewrite lookup_no_leaf by done.
       split_and!; [done..|apply shrinks_refl|]. apply unmapped_none; [done|by apply lookup_no_leaf]. }
  unfold pa_at. rewrite Hv. set (pa := PTE2PA (pt_lookup (k_mem s) root a)).
  destruct (uv_leaf _ _ _ _ Hu a Ha Hlim Hv) as (Hvp & Hnl & Hnpt). fold pa in Hvp, Hnl, Hnpt.
  destruct (kfree_ok s pa l) as [E Hfi]; [apply Hs..|done|done|].
  set (m1 := store64 (memset (k_mem s) pa 1 PGSIZE) pa (k_freelist s)) in *.
  assert (Hsb : same_but pa (k_mem s) m1) by apply same_but_freed.
  assert (Hs1 : pt_state (with_mem m1 pa s) (pa :: l) root).
  { constructor; [done| |apply Hs]. simpl. eapply (other_wf (ps_wf _ _ _ Hs)); try done.
    intros x [->|Hx]%elem_of_cons; [done|by eapply pt_page_free]. }
  assert (Hp1 : leaf_page m1 root a = Some p).
  { unfold leaf_page. rewrite (other_page (ps_wf _ _ _ Hs) Hvp Hnpt Hsb) by auto with kernel. done. }
  pose proof (other_lookup (ps_wf _ _ _ Hs) Hvp Hnpt Hsb) as Hlk1.
  destruct (store_leaf_frame (with_mem m1 pa s) (pa :: l) root a p 0) as [E2 F]; [done|done|lia|].
  eexists. split; [erewrite bind_ret_eq by exact E; by erewrite bind_ret_eq by exact E2|].
  assert (Hum : unmapped (k_mem s) (store64 m1 (p + 8 * PX 0 a) 0) root a 1).
  { assert (Hv1 : has (pt_lookup m1 root a) PTE_V = true) by (rewrite Hlk1; exact Hv).
    intros b Hb. rewrite (unmapped_store _ m1 _ root a p (ps_wf _ _ _ Hs1) Ha Hp1 Hv1 b Hb).
    rewrite Hlk1. reflexivity. }
  assert (Htree : forall π, dpath π ->
    page (store64 m1 (p + 8 * PX 0 a) 0) root π = page (k_mem s) root π).
  { intros π Hd. rewrite (leaf_store_page (ps_wf _ _ _ Hs1) a p 0 Hp1) by done.
    by apply (other_page (ps_wf _ _ _ Hs) Hvp Hnpt Hsb). }
  split_and!; [| |exact Hum].
  - apply (uvm_unmap s); [exact Hu|exact Ha|exact Hlim|exact Hv|apply F|reflexivity| |exact Hum].
    intros x (π & Hd & Hx). exists π. split; [done|]. by rewrite <- Htree.
  - constructor; [|done|].
    + eapply mem_only_trans; apply mem_only_with.
    + intros b Hb. simpl. rewrite (leaf_store_outside a p 0 Hp1), Hsb; [done| |].
      * intros Hr. apply (Hb pa); [right; by left|done].
      * intros x Hx. apply Hb. left. by apply (other_pt_page (ps_wf _ _ _ Hs) Hvp Hnpt Hsb).
Qed.

Lemma rev_pa_at m root va : rev (pa_at m root va) = pa_at m root va.
Proof. unfold pa_at. by destruct (has _ _). Qed.

Lemma uvmunmap_free_loop n s l root lim va e :
  uvm s l root lim -> lim <= MAXVA -> 0 <= va -> va mod PGSIZE = 0 ->
  va + Z.of_nat n * PGSIZE <= lim -> e = va + Z.of_nat n * PGSIZE -> exists s',
  for_loop n va (fun a => a <? e) (fun a => wrap64 (a + PGSIZE)) (unmap_body root true) s = Ret None s'
  /\ uvm s' (rev (pas (k_mem s) root va n) ++ l) root lim
  /\ shrinks s s' root (rev (pas (k_mem s) root va n))
  /\ unmapped (k_mem s) (k_mem s') root va (Z.of_nat n).
Proof.
  revert s l va. induction n as [|n IH]; intros s l va Hu HlM Hva Hal Hmax ->.
  { exists s. simpl. destruct (Z.ltb_spec va (va + Z.of_nat 0 * PGSIZE)); [lia|].
    split_and!; [done|done|apply shrinks_refl|]. intros a Ha. rewrite decide_False by lia. done. }
  cbn [for_loop pas]. unfold PGSIZE in *.
  destruct (Z.ltb_spec va (va + Z.of_nat (S n) * 4096)); [|lia].
  destruct (unmap_one_free s l root lim va) as (s1 & E & U & F & D); [done|unfold va_ok, PGSIZE; lia|lia|].
  erewrite bind_ret_eq by exact E. rewrite wrap64_small by (kconst; lia).
  destruct (IH s1 _ (va + 4096) U) as (s2 & E2 & U2 & F2 & D2); [done|lia|dlia|lia|lia|].
  assert (Ep : pas (k_mem s1) root (va + 4096) n = pas (k_mem s) root (va + 4096) n).
  { apply pas_ext; unfold PGSIZE; [lia|dlia|lia|]. intros b Hb Hr. rewrite (D b Hb).
    rewrite decide_False; [done|]. unfold PGSIZE. lia. }
  rewrite Ep in *. exists s2.
  rewrite rev_app_distr, rev_pa_at, <- app_assoc.
  split_and!; [exact E2|exact U2|by eapply shrinks_trans|].
  replace (Z.of_nat (S n)) with (1 + Z.of_nat n) by lia.
  eapply unmapped_trans; [lia|done|exact D|exact D2].
Qed.

Lemma uvmunmap_free s l root lim va n :
  uvm s l root lim -> lim <= MAXVA -> 0 <= va -> va mod PGSIZE = 0 -> va + Z.of_nat n * PGSIZE <= lim ->
  exists s', uvmunmap root va (Z.of_nat n) true s = Ret tt s'
  /\ uvm s' (rev (pas (k_mem s) root va n) ++ l) root lim
  /\ shrinks s s' root (rev (pas (k_mem s) root va n))
  /\ unmapped (k_mem s) (k_mem s') root va (Z.of_nat n).
Proof.
  intros Hu HlM Hva Hal Hmax. unfold uvmunmap. rewrite Hal. cbn [negb Z.eqb].
  destruct (uvmunmap_free_loop n s l root lim va _ Hu HlM Hva Hal Hmax eq_refl) as (s' & E & R).
  exists s'. split; [|exact R]. rewrite wrap64_small by (kconst; lia). rewrite Nat2Z.id.
  by erewrite bind_ret_eq by exact E.
Qed.

(** The number of pages between two sizes. *)
Definition npages (oldsz newsz : Z) : nat := Z.to_nat ((PGROUNDUP oldsz - PGROUNDUP newsz) / PGSIZE).

Lemma PGROUNDUP_mono a b : 0 <= a <= b -> b <= 2 ^ 63 -> PGROUNDUP a <= PGROUNDUP b.
Proof.
  intros Ha Hb. pose proof (PGROUNDUP_spec a). pose proof (PGROUNDUP_spec b).
  unfold PGSIZE in *. dlia.
Qed.

Lemma PGROUNDUP_aligned a : 0 <= a < 2 ^ 63 -> a mod PGSIZE = 0 -> PGROUNDUP a = a.
Proof. intros Ha Hal. pose proof (PGROUNDUP_spec a). unfold PGSIZE in *. dlia. Qed.

Lemma npages_spec oldsz newsz :
  0 <= newsz <= oldsz -> oldsz <= MAXVA ->
  PGROUNDUP newsz + Z.of_nat (npages oldsz newsz) * PGSIZE = PGROUNDUP oldsz
  /\ int32 ((PGROUNDUP oldsz - PGROUNDUP newsz) / PGSIZE) = Z.of_nat (npages oldsz newsz).
Proof.
  intros Hn Ho. kconst. pose proof (PGROUNDUP_mono newsz oldsz).
  pose proof (PGROUNDUP_spec newsz). pose proof (PGROUNDUP_spec oldsz).
  unfold npages, PGSIZE in *. split; [dlia|].
  rewrite int32_small by dlia. dlia.
Qed.

Lemma uvmdealloc_spec s l root lim oldsz newsz :
  uvm s l root lim -> lim <= MAXVA -> 0 <= newsz <= oldsz -> PGROUNDUP oldsz <= lim -> oldsz <= MAXVA ->
  let freed := rev (pas (k_mem s) root (PGROUNDUP newsz) (npages oldsz newsz)) in
  exists s', uvmdealloc root oldsz newsz s = Ret newsz s'
  /\ uvm s' (freed ++ l) root lim /\ shrinks s s' root freed
  /\ unmapped (k_mem s) (k_mem s') root (PGROUNDUP newsz) (Z.of_nat (npages oldsz newsz)).
Proof.
  intros Hu HlM Hn Hlim Ho freed. unfold uvmdealloc.
  destruct (npages_spec oldsz newsz) as [En Ei]; [done..|].
  assert (Hz : npages oldsz newsz = O -> exists s', Ret newsz s = Ret newsz s'
    /\ uvm s' (freed ++ l) root lim /\ shrinks s s' root freed
    /\ unmapped (k_mem s) (k_mem s') root (PGROUNDUP newsz) (Z.of_nat (npages oldsz newsz))).
  { intros E0. exists s. unfold freed. rewrite E0. split_and!; [done|done|apply shrinks_refl|].
    intros a Ha. rewrite decide_False by lia. done. }
  pose proof (PGROUNDUP_spec newsz) as Hpn. kconst.
  destruct (Z.leb_spec oldsz newsz).
  { assert (oldsz = newsz) as -> by lia. apply Hz. unfold PGSIZE in *. lia. }
  destruct (Z.ltb_spec (PGROUNDUP newsz) (PGROUNDUP oldsz)).
  - rewrite Ei. destruct (uvmunmap_free s l root lim (PGROUNDUP newsz) (npages oldsz newsz))
      as (s' & E & R); [done|kconst; lia..|].
    exists s'. split; [|exact R]. by erewrite bind_ret_eq by exact E.
  - unfold skip. erewrite bind_ret_eq by reflexivity. apply Hz. unfold PGSIZE in *. lia.
Qed.

(** ** Adding one page *)

(** Taking the first free page and writing to it. *)
Lemma take_page s r l root lim m1 :
  uvm s (r :: l) root lim -> same_but r (k_mem s) m1 ->
  let s1 := with_mem m1 (load64 (k_mem s) r) s in
  uvm s1 l root lim /\ (forall va, pt_lookup m1 root va = pt_lookup (k_mem s) root va)
  /\ (forall x, pt_page m1 root x <-> pt_page (k_mem s) root x).
Proof.
  intros Hu Hsb s1. pose proof (uv_pt _ _ _ _ Hu) as Hs.
  pose proof (ps_free _ _ _ Hs) as [Hil Hnd Hv].
  apply Forall_cons in Hv as [Hr Hv]. apply NoDup_cons in Hnd as [Hrl Hnd].
  assert (Hnp : ~ pt_page (k_mem s) root r) by (eapply pt_page_free; [done|set_solver]).
  pose proof (other_lookup (ps_wf _ _ _ Hs) Hr Hnp Hsb) as Hlk.
  pose proof (fun x => other_pt_page (ps_wf _ _ _ Hs) Hr Hnp Hsb x) as Hpp.
  split_and!; [|done|done]. constructor; simpl.
  - constructor; simpl; [|eapply (other_wf (ps_wf _ _ _ Hs)); try done|apply Hs].
    + constructor; simpl; [|done|done]. destruct Hil as [_ Hil].
      eapply (is_list_frame (k_sym s) (k_mem s)); [exact Hr|done|done|done|done].
    + intros x Hx. eapply pt_page_free; [done|set_solver].
  - intros a Ha Hl. rewrite Hlk. intros Hva. destruct (uv_leaf _ _ _ _ Hu a Ha Hl Hva) as (H1 & H2 & H3).
    split_and!; [done|set_solver|by rewrite Hpp].
  - intros a b Ha Hb Hal Hbl. rewrite !Hlk. by apply (uv_inj _ _ _ _ Hu).
Qed.

(** Pages that may be given to an address space: taken from the pool, not part
    of the tree and mapped nowhere. *)
Record fresh_page (s : kernel) (l : list Z) (root lim r : Z) : Prop := {
  fp_valid : valid_page (k_sym s) r;
  fp_notfree : r ∉ l;
  fp_nottree : ~ pt_page (k_mem s) root r;
  fp_unmapped : forall a, va_ok a -> a < lim -> has (pt_lookup (k_mem s) root a) PTE_V = true ->
    PTE2PA (pt_lookup (k_mem s) root a) <> r
}.

Lemma take_page_fresh s r l root lim m1 :
  uvm s (r :: l) root lim -> same_but r (k_mem s) m1 ->
  fresh_page (with_mem m1 (load64 (k_mem s) r) s) l root lim r.
Proof.
  intros Hu Hsb. destruct (take_page s r l root lim m1 Hu Hsb) as (_ & Hlk & Hpp).
  pose proof (uv_pt _ _ _ _ Hu) as Hs. destruct (ps_free _ _ _ Hs) as [_ Hnd Hv].
  apply Forall_cons in Hv as [Hr _]. apply NoDup_cons in Hnd as [Hrl _].
  constructor; simpl; [done|done| |].
  - rewrite Hpp. eapply pt_page_free; [done|set_solver].
  - intros a Ha Hl. rewrite Hlk. intros Hva E.
    destruct (uv_leaf _ _ _ _ Hu a Ha Hl Hva) as (_ & Hn & _). rewrite E in Hn. set_solver.
Qed.

(** The tree may grow without changing what is mapped. *)
Lemma uvm_frame s l s' l' root lim :
  uvm s l root lim -> pt_frame s l s' l' root ->
  (forall a, va_ok a -> pt_lookup (k_mem s') root a = pt_lookup (k_mem s) root a) ->
  uvm s' l' root lim.
Proof.
  intros Hu F Hlk. destruct F as [Hs' Hm (used & -> & _ & Hpp & _) _].
  destruct (mem_only_fields _ _ Hm) as (Hsym & _). constructor; [done| |].
  - intros a Ha Hl. rewrite Hlk by done. intros Hva.
    destruct (uv_leaf _ _ _ _ Hu a Ha Hl Hva) as (H1 & H2 & H3). rewrite Hsym.
    rewrite not_elem_of_app in H2. split_and!; [done|tauto|]. intros [?|?]%Hpp; tauto.
  - intros a b Ha Hb Hal Hbl. rewrite !Hlk by done. by apply (uv_inj _ _ _ _ Hu).
Qed.

Lemma fresh_page_frame s l s' l' root lim r :
  fresh_page s l root lim r -> pt_frame s l s' l' root ->
  (forall a, va_ok a -> pt_lookup (k_mem s') root a = pt_lookup (k_mem s) root a) ->
  fresh_page s' l' root lim r.
Proof.
  intros [H1 H2 H3 H4] [Hs' Hm (used & -> & _ & Hpp & _) _] Hlk.
  destruct (mem_only_fields _ _ Hm) as (Hsym & _). rewrite not_elem_of_app in H2.
  constructor; [by rewrite Hsym|tauto| |].
  - intros [?|?]%Hpp; tauto.
  - intros a Ha Hl. rewrite Hlk by done. by apply H4.
Qed.

(** An address space with one more page. *)
Lemma uvm_map s l s' l' root lim a r perm :
  uvm s l root lim -> fresh_page s l root lim r -> pt_frame s l s' l' root ->
  0 <= perm < 1024 -> mapped (k_mem s) (k_mem s') root a r perm 1 -> va_ok a ->
  uvm s' l' root lim.
Proof.
  intros Hu [Hr Hrl Hrt Hru] F Hperm Hmp Ha. destruct F as [Hs' Hm (used & -> & _ & Hpp & _) _].
  destruct (mem_only_fields _ _ Hm) as (Hsym & _). rewrite not_elem_of_app in Hrl.
  assert (Hlk : forall b, va_ok b -> pt_lookup (k_mem s') root b =
    if decide (b = a) then mk_pte r perm else pt_lookup (k_mem s) root b).
  { intros b Hb. rewrite (Hmp b Hb). unfold va_ok, PGSIZE in *.
    repeat case_decide; subst; try done; [f_equal; lia|exfalso; dlia|lia]. }
  assert (Hpa : PTE2PA (mk_pte r perm) = r).
  { destruct Hr as (? & ? & ?). unfold mk_pte. apply entry_pa; [lia|done|done]. }
  constructor; [done| |].
  - intros b Hb Hl. rewrite Hlk by done. case_decide; [intros _|intros Hva].
    + rewrite Hpa, Hsym. split_and!; [done|tauto|]. intros [?|?]%Hpp; tauto.
    + destruct (uv_leaf _ _ _ _ Hu b Hb Hl Hva) as (H1 & H2 & H3). rewrite Hsym.
      rewrite not_elem_of_app in H2. split_and!; [done|tauto|]. intros [?|?]%Hpp; tauto.
  - intros b c Hb Hc Hbl Hcl. rewrite !Hlk by done.
    repeat case_decide; subst; try done; rewrite ?Hpa; intros Hvb Hvc E.
    + by destruct (Hru c Hc Hcl Hvc).
    + by destruct (Hru b Hb Hbl Hvb).
    + by apply (uv_inj _ _ _ _ Hu).
Qed.

(** [mappages] of one fresh page. *)
Lemma map_page s l root lim a r perm :
  uvm s l root lim -> fresh_page s l root lim r -> 0 <= perm < 1024 -> va_ok a ->
  has (pt_lookup (k_mem s) root a) PTE_V = false -> exists rc s' l',
  mappages root a PGSIZE r perm s = Ret rc s' /\ pt_frame s l s' l' root /\ uvm s' l' root lim
  /\ ((rc = 0 /\ mapped (k_mem s) (k_mem s') root a r perm 1)
      \/ (rc = -1 /\ l' = [] /\ fresh_page s' [] root lim r
          /\ forall b, va_ok b -> pt_lookup (k_mem s') root b = pt_lookup (k_mem s) root b)).
Proof.
  intros Hu Hf Hperm Ha Hno. destruct (fp_valid _ _ _ _ _ Hf) as (Hral & Hrr & Hr0).
  destruct (mappages_spec s l root a PGSIZE r perm) as (rc & j & s' & l' & E & F & Mp & Hrc);
    try (unfold va_ok in Ha; done || (kconst; unfold PGSIZE in *; dlia)); [apply Hu| |].
  { intros b Hb Hr. assert (b = a) as ->; [unfold va_ok, PGSIZE in *; dlia|done]. }
  exists rc, s', l'. change (PGSIZE / PGSIZE) with 1 in Hrc.
  destruct Hrc as [[-> ->]|(-> & Hj & ->)].
  - split_and!; [done|done| |by left]. by eapply uvm_map.
  - assert (j = 0) as -> by lia.
    assert (Hlk : forall b, va_ok b -> pt_lookup (k_mem s') root b = pt_lookup (k_mem s) root b).
    { intros b Hb. rewrite (Mp b Hb). rewrite decide_False by lia. done. }
    split_and!; [done|done|by eapply uvm_frame|]. right.
    split_and!; [done|done|by eapply fresh_page_frame|done].
Qed.

(** Giving a fresh page back. *)
Lemma kfree_fresh s l root lim r :
  uvm s l root lim -> fresh_page s l root lim r -> exists s',
  kfree r s = Ret tt s' /\ uvm s' (r :: l) root lim /\ shrinks s s' root [r]
  /\ (forall va, pt_lookup (k_mem s') root va = pt_lookup (k_mem s) root va).
Proof.
  intros Hu [Hr Hrl Hrt Hru]. pose proof (uv_pt _ _ _ _ Hu) as Hs.
  destruct (kfree_ok s r l) as [E Hfi]; [apply Hs..|done|done|].
  pose proof (same_but_freed (k_mem s) r (k_freelist s)) as Hsb.
  pose proof (other_lookup (ps_wf _ _ _ Hs) Hr Hrt Hsb) as Hlk.
  pose proof (fun x => other_pt_page (ps_wf _ _ _ Hs) Hr Hrt Hsb x) as Hpp.
  eexists. split; [exact E|]. split_and!; [|constructor|exact Hlk]; simpl.
  - constructor; simpl.
    + constructor; [done|simpl|apply Hs]. eapply (other_wf (ps_wf _ _ _ Hs)); try done.
      intros x [->|Hx]%elem_of_cons; [done|by eapply pt_page_free].
    + intros a Ha Hl. rewrite Hlk. intros Hva. destruct (uv_leaf _ _ _ _ Hu a Ha Hl Hva) as (H1 & H2 & H3).
      split_and!; [done| |by rewrite Hpp]. rewrite not_elem_of_cons. split; [by apply Hru|done].
    + intros a b Ha Hb Hal Hbl. rewrite !Hlk. by apply (uv_inj _ _ _ _ Hu).
  - apply mem_only_with.
  - intros π Hd. apply (other_page (ps_wf _ _ _ Hs) Hr Hrt Hsb π Hd).
  - intros b Hb. apply Hsb. intros Hrb. apply (Hb r); [right; by left|done].
Qed.

(** ** uvmalloc *)

(** The state [s] after [k] pages from [old] have been added to the address space
    that [s0] had. *)
Record grown (s0 : kernel) (l0 : list Z) (s : kernel) (l : list Z) (root lim perm old : Z) (k : nat) : Prop := {
  gr_uvm : uvm s l root lim;
  gr_mem : mem_only s0 s;
  gr_pool : exists tree, l0 ≡ₚ tree ++ pas (k_mem s) root old k ++ l
    /\ forall x, x ∈ tree -> pt_page (k_mem s) root x;
  gr_old : forall a, va_ok a -> ~ (old <= a < old + Z.of_nat k * PGSIZE) ->
    pt_lookup (k_mem s) root a = pt_lookup (k_mem s0) root a;
  gr_new : forall a, va_ok a -> old <= a < old + Z.of_nat k * PGSIZE ->
    has (pt_lookup (k_mem s) root a) PTE_V = true
    /\ PTE_FLAGS (pt_lookup (k_mem s) root a) = Z.lor perm PTE_V
    /\ forall i, 0 <= i < PGSIZE -> load8 (k_mem s) (PTE2PA (pt_lookup (k_mem s) root a) + i) = 0;
  gr_tree : forall x, pt_page (k_mem s) root x -> pt_page (k_mem s0) root x \/ x ∈ l0;
  gr_outside : same_outside (fun a => pt_page (k_mem s0) root a \/ a ∈ l0) (k_mem s0) (k_mem s)
}.

Definition alloc_body (pagetable oldsz xperm a : Z) : K (option Z) :=
  let* mem := kalloc in
  if is_null mem then
    let* _ := uvmdealloc pagetable a oldsz in ret (Some 0)
  else
    memsetK mem 0 PGSIZE ;;;
    let* e := mappages pagetable a PGSIZE mem (Z.lor (Z.lor PTE_R PTE_U) xperm) in
    if negb (e =? 0) then
      kfree mem ;;;
      let* _ := uvmdealloc pagetable a oldsz in ret (Some 0)
    else ret None.

(** The failure exit: the address space is the one [s0] had, and every page that
    left the pool is a page of the tree. *)
Definition undone (s0 : kernel) (l0 : list Z) (s : kernel) (root lim : Z) : Prop :=
  exists l tree, uvm s l root lim /\ mem_only s0 s
    /\ l0 ≡ₚ tree ++ l /\ (forall x, x ∈ tree -> pt_page (k_mem s) root x)
    /\ (forall a, va_ok a -> pt_lookup (k_mem s) root a = pt_lookup (k_mem s0) root a)
    /\ same_outside (fun a => pt_page (k_mem s0) root a \/ a ∈ l0) (k_mem s0) (k_mem s).

Section Uvmalloc.
Context (s0 : kernel) (l0 : list Z) (root lim xperm old : Z).
Let perm := Z.lor (Z.lor PTE_R PTE_U) xperm.
Hypothesis Hold : 0 <= old.
Hypothesis Holdal : old mod PGSIZE = 0.
Hypothesis Hlim : lim <= MAXVA.
Hypothesis Hperm : 0 <= perm < 1024.

Lemma grown_undo s l k :
  grown s0 l0 s l root lim perm old k -> old + Z.of_nat k * PGSIZE <= lim ->
  (forall a, va_ok a -> old <= a < lim -> pt_lookup (k_mem s0) root a = 0) ->
  exists s', uvmdealloc root (old + Z.of_nat k * PGSIZE) old s = Ret old s' /\ undone s0 l0 s' root lim.
Proof.
  intros [Hu Hm (tree & Hp & Ht) Ho Hn Hgt Hout] Hk H0.
  assert (Ea : forall n, 0 <= n -> old + n * PGSIZE <= lim -> PGROUNDUP (old + n * PGSIZE) = old + n * PGSIZE).
  { intros n Hn0 Hn1. apply PGROUNDUP_aligned; [kconst; lia|]. unfold PGSIZE in *. dlia. }
  pose proof (Ea 0) as Eo. rewrite Z.mul_0_l, Z.add_0_r in Eo.
  pose proof (Ea (Z.of_nat k)) as Ek. unfold PGSIZE in *.
  assert (Enp : npages (old + Z.of_nat k * 4096) old = k).
  { unfold npages. rewrite Eo, Ek by lia. unfold PGSIZE. dlia. }
  destruct (uvmdealloc_spec s l root lim (old + Z.of_nat k * 4096) old) as (s' & E & U & F & D);
    [done|done|lia|rewrite Ek by lia; lia|kconst; lia|].
  rewrite Enp, Eo in * by lia.
  exists s'. split; [done|]. exists (rev (pas (k_mem s) root old k) ++ l), tree.
  split_and!; [done|eapply mem_only_trans; [done|apply F]| | | |].
  - by rewrite <- Permutation_rev.
  - intros x Hx. rewrite (shrinks_pt_page _ _ _ _ _ F). by apply Ht.
  - intros a Ha. rewrite (D a Ha). case_decide as Dc.
    + rewrite H0; [done|done|unfold PGSIZE in *; lia].
    + destruct (decide (old <= a < old + Z.of_nat k * PGSIZE)) as [Hr|Hr]; [|by apply Ho].
      destruct (Hn a Ha Hr) as [Hv _]. exfalso. by apply Dc.
  - intros b Hb. rewrite (sh_outside _ _ _ _ F); [by apply Hout|].
    intros a [Ha|Ha]; apply Hb; [by apply Hgt|]. right. rewrite Hp, !elem_of_app. right. left.
    by rewrite <- Permutation_rev in Ha.
Qed.

(** A step that writes only to the tree and to pages of the pool. *)
Record pool_step (s : kernel) (l : list Z) (s' : kernel) : Prop := {
  st_mem : mem_only s s';
  st_tree : forall x, pt_page (k_mem s') root x -> pt_page (k_mem s) root x \/ x ∈ l;
  st_outside : same_outside (fun x => pt_page (k_mem s) root x \/ x ∈ l) (k_mem s) (k_mem s')
}.

Lemma pool_step_trans s1 l1 s2 l2 s3 :
  pool_step s1 l1 s2 -> pool_step s2 l2 s3 -> (forall x, x ∈ l2 -> x ∈ l1) -> pool_step s1 l1 s3.
Proof.
  intros [M1 T1 O1] [M2 T2 O2] Hl. constructor; [by eapply mem_only_trans| |].
  - intros x [Hx|Hx]%T2; auto.
  - intros b Hb. rewrite O2, O1; [done| |].
    + intros x Hx. by apply Hb.
    + intros x [Hx|Hx]; apply Hb; auto.
Qed.

Lemma pool_step_frame s l s' l' : pt_frame s l s' l' root -> pool_step s l s'.
Proof.
  intros [_ Hm (used & -> & Ho & Hp & _) _]. constructor; [done| |].
  - intros x [Hx|Hx]%Hp; [by left|right]. apply elem_of_app. by left.
  - intros b Hb. apply Ho. intros x [Hx|Hx]; apply Hb; [by left|right]. apply elem_of_app. by left.
Qed.

Lemma pool_step_take s r l m1 :
  uvm s (r :: l) root lim -> same_but r (k_mem s) m1 ->
  pool_step s (r :: l) (with_mem m1 (load64 (k_mem s) r) s).
Proof.
  intros Hu Hsb. destruct (take_page s r l root lim m1 Hu Hsb) as (_ & _ & Hpp).
  constructor; simpl; [apply mem_only_with| |].
  - intros x Hx. left. by apply Hpp.
  - intros b Hb. apply Hsb. apply Hb. right. by left.
Qed.

(** Bytes of a page the address space owns do not change in such a step. *)
Lemma pool_step_byte s l s' x i :
  pool_step s l s' -> uvm s l root lim -> valid_page (k_sym s) x -> x ∉ l -> ~ pt_page (k_mem s) root x ->
  0 <= i < PGSIZE -> load8 (k_mem s') (x + i) = load8 (k_mem s) (x + i).
Proof.
  intros Hst Hu Hx Hxl Hxt Hi. apply (st_outside _ _ _ Hst). intros y Hy.
  assert (Hv : valid_page (k_sym s) y).
  { destruct Hy as [(π & Hd & Hp)|Hy].
    - eapply (pw_valid _ _ _ _ (ps_wf _ _ _ (uv_pt _ _ _ _ Hu))); done.
    - pose proof (fi_valid _ _ (ps_free _ _ _ (uv_pt _ _ _ _ Hu))) as Hf.
      rewrite Forall_forall in Hf. by apply Hf. }
  assert (y <> x) by (intros ->; tauto).
  destruct (valid_page_disjoint _ _ _ Hv Hx); [done|lia..].
Qed.

Lemma pool_step_leaf s l s' a i :
  pool_step s l s' -> uvm s l root lim -> va_ok a -> a < lim ->
  has (pt_lookup (k_mem s) root a) PTE_V = true -> 0 <= i < PGSIZE ->
  load8 (k_mem s') (PTE2PA (pt_lookup (k_mem s) root a) + i)
  = load8 (k_mem s) (PTE2PA (pt_lookup (k_mem s) root a) + i).
Proof.
  intros Hst Hu Ha Hl Hv Hi. destruct (uv_leaf _ _ _ _ Hu a Ha Hl Hv) as (H1 & H2 & H3).
  by eapply pool_step_byte.
Qed.

(** [grown] after such a step, without a new page or with one. *)
Lemma grown_step s l s' l' used k d :
  grown s0 l0 s l root lim perm old k -> pool_step s l s' -> uvm s' l' root lim ->
  old + (Z.of_nat k + Z.of_nat d) * PGSIZE <= lim ->
  (forall a, va_ok a -> ~ (old + Z.of_nat k * PGSIZE <= a < old + Z.of_nat (k + d) * PGSIZE) ->
     pt_lookup (k_mem s') root a = pt_lookup (k_mem s) root a) ->
  (forall x, pt_page (k_mem s) root x -> pt_page (k_mem s') root x) ->
  (forall x, x ∈ used -> pt_page (k_mem s') root x) ->
  l ≡ₚ used ++ pas (k_mem s') root (old + Z.of_nat k * PGSIZE) d ++ l' ->
  (forall a, va_ok a -> old + Z.of_nat k * PGSIZE <= a < old + Z.of_nat (k + d) * PGSIZE ->
    has (pt_lookup (k_mem s') root a) PTE_V = true
    /\ PTE_FLAGS (pt_lookup (k_mem s') root a) = Z.lor perm PTE_V
    /\ forall i, 0 <= i < PGSIZE -> load8 (k_mem s') (PTE2PA (pt_lookup (k_mem s') root a) + i) = 0) ->
  grown s0 l0 s' l' root lim perm old (k + d).
Proof.
  intros G St Hu' Hkd Hlk Hkeep Hused Hl Hnew.
  destruct G as [Hu Hm (tree & Hp & Ht) Ho Hn Hgt Hout].
  assert (Hsub : forall x, x ∈ l -> x ∈ l0).
  { intros x Hx. rewrite Hp, !elem_of_app. auto. }
  constructor; [done|eapply mem_only_trans; [done|apply St]| | | | |].
  - exists (tree ++ used). split.
    + rewrite pas_app, (pas_ext (k_mem s)), Hp, Hl; try done; try (unfold PGSIZE in *; kconst; lia).
      * rewrite <- !app_assoc. apply Permutation_app_head. rewrite !app_assoc.
        do 2 apply Permutation_app_tail. apply Permutation_app_comm.
      * intros a Ha Hr. apply Hlk; [done|]. unfold PGSIZE in *. lia.
    + intros x [Hx|Hx]%elem_of_app; auto.
  - intros a Ha Hr. rewrite Hlk by (done || (unfold PGSIZE in *; lia)).
    apply Ho; [done|unfold PGSIZE in *; lia].
  - intros a Ha Hr.
    destruct (decide (a < old + Z.of_nat k * PGSIZE)); [|apply Hnew; [done|lia]].
    rewrite Hlk by (done || lia). destruct (Hn a Ha) as (H1 & H2 & H3); [lia|].
    split_and!; [done|done|]. intros i Hi.
    rewrite (pool_step_leaf s l s' a i) by (done || (unfold PGSIZE in *; lia)). by apply H3.
  - intros x [Hx|Hx]%(st_tree _ _ _ St); [by apply Hgt|right; by apply Hsub].
  - intros b Hb. rewrite (st_outside _ _ _ St); [by apply Hout|].
    intros x [Hx|Hx]; apply Hb; [by apply Hgt|right; by apply Hsub].
Qed.

Hypothesis Hfresh : forall a, va_ok a -> old <= a < lim -> pt_lookup (k_mem s0) root a = 0.

(** A page [r] of the pool is filled with zeroes, giving [s1], and mapped. *)
Lemma grown_add s r s1 used s2 l2 k :
  grown s0 l0 s (r :: used ++ l2) root lim perm old k -> old + (Z.of_nat k + 1) * PGSIZE <= lim ->
  uvm s1 (used ++ l2) root lim -> fresh_page s1 (used ++ l2) root lim r ->
  (forall va, pt_lookup (k_mem s1) root va = pt_lookup (k_mem s) root va) ->
  (forall i, 0 <= i < PGSIZE -> load8 (k_mem s1) (r + i) = 0) ->
  pool_step s (r :: used ++ l2) s2 -> pool_step s1 (used ++ l2) s2 -> uvm s2 l2 root lim ->
  mapped (k_mem s1) (k_mem s2) root (old + Z.of_nat k * PGSIZE) r perm 1 ->
  (forall x, pt_page (k_mem s) root x -> pt_page (k_mem s2) root x) ->
  (forall x, x ∈ used -> pt_page (k_mem s2) root x) ->
  grown s0 l0 s2 l2 root lim perm old (k + 1).
Proof.
  intros G Hk Hu1 [Hr Hrl Hrt _] Hlk1 Hz1 St St2 Hu2 Hmp Hkeep Hused.
  set (a := old + Z.of_nat k * PGSIZE) in *.
  assert (Ha : va_ok a) by (unfold a, va_ok, PGSIZE in *; kconst; dlia).
  assert (Hra : 0 <= r < PHYSTOP /\ r mod PGSIZE = 0) by (destruct Hr as (? & ? & ?); split; [lia|done]).
  assert (Hat : pt_lookup (k_mem s2) root a = mk_pte r perm).
  { rewrite (Hmp a Ha), decide_True by (unfold PGSIZE; lia). f_equal. lia. }
  apply (grown_step s (r :: used ++ l2) s2 l2 used k 1); try done.
  - intros b Hb Hb'. rewrite (Hmp b Hb), decide_False; [by apply Hlk1|]. unfold a, PGSIZE in *. lia.
  - cbn [pas]. fold a. unfold pa_at. rewrite Hat. unfold mk_pte. rewrite entry_valid, entry_pa by tauto.
    simpl. apply Permutation_middle.
  - intros b Hb Hb'. assert (b = a) as -> by (unfold a, va_ok, PGSIZE in *; dlia).
    rewrite Hat. unfold mk_pte. rewrite entry_valid, entry_flags, entry_pa by tauto.
    split_and!; [done|done|]. intros i Hi.
    rewrite (pool_step_byte s1 (used ++ l2)) by done. by apply Hz1.
Qed.

(** Memory runs out while the page is being mapped, and the page goes back. *)
Lemma grown_back s r s1 used s2 s3 k :
  grown s0 l0 s (r :: used ++ []) root lim perm old k -> old + (Z.of_nat k + 1) * PGSIZE <= lim ->
  (forall va, pt_lookup (k_mem s1) root va = pt_lookup (k_mem s) root va) ->
  (forall a, va_ok a -> pt_lookup (k_mem s2) root a = pt_lookup (k_mem s1) root a) ->
  (forall va, pt_lookup (k_mem s3) root va = pt_lookup (k_mem s2) root va) ->
  pool_step s (r :: used ++ []) s2 -> shrinks s2 s3 root [r] -> uvm s3 [r] root lim ->
  (forall x, pt_page (k_mem s) root x -> pt_page (k_mem s2) root x) ->
  (forall x, x ∈ used -> pt_page (k_mem s2) root x) ->
  grown s0 l0 s3 [r] root lim perm old (k + 0).
Proof.
  intros G Hk Hlk1 Hlk2 Hlk3 St Sh Hu3 Hkeep Hused.
  apply (grown_step s (r :: used ++ []) s3 [r] used k 0); try done.
  - eapply (pool_step_trans s _ s2 [r]); [done| |set_solver]. constructor; [apply Sh| |apply Sh].
    intros x Hx. left. by apply (shrinks_pt_page _ _ _ _ _ Sh).
  - unfold PGSIZE in *. lia.
  - intros a Ha _. by rewrite Hlk3, Hlk2, Hlk1.
  - intros x Hx. apply (shrinks_pt_page _ _ _ _ _ Sh). by apply Hkeep.
  - intros x Hx. apply (shrinks_pt_page _ _ _ _ _ Sh). by apply Hused.
  - simpl. rewrite app_nil_r. by rewrite Permutation_app_comm.
  - intros a _ Hr. lia.
Qed.

(** The loop body either adds one page or undoes everything. *)
Lemma alloc_body_spec s l k :
  grown s0 l0 s l root lim perm old k -> old + (Z.of_nat k + 1) * PGSIZE <= lim ->
  exists r s', alloc_body root old xperm (old + Z.of_nat k * PGSIZE) s = Ret r s'
  /\ ((r = None /\ exists l', grown s0 l0 s' l' root lim perm old (k + 1))
      \/ (r = Some 0 /\ undone s0 l0 s' root lim)).
Proof.
  intros G Hk. pose proof (gr_uvm _ _ _ _ _ _ _ _ _ G) as Hu. pose proof (uv_pt _ _ _ _ Hu) as Hs.
  set (a := old + Z.of_nat k * PGSIZE).
  assert (Ha : va_ok a) by (unfold a, va_ok, PGSIZE in *; kconst; dlia).
  assert (Hno : has (pt_lookup (k_mem s) root a) PTE_V = false).
  { rewrite (gr_old _ _ _ _ _ _ _ _ _ G), Hfresh; unfold a, PGSIZE in *; done || lia. }
  unfold alloc_body. destruct l as [|r l].
  { erewrite bind_ret_eq by (apply kalloc_nil; apply Hs). cbn [is_null Z.eqb].
    destruct (grown_undo s [] k) as (s' & E & U); [done|unfold PGSIZE in *; lia|done|].
    exists (Some 0), s'. split; [by erewrite bind_ret_eq by exact E|by right]. }
  destruct (kalloc_cons s r l) as [E _]; [apply Hs..|]. erewrite bind_ret_eq by exact E. clear E.
  assert (Hr : valid_page (k_sym s) r) by (pose proof (fi_valid _ _ (ps_free _ _ _ Hs)) as Hf; by inversion Hf).
  unfold is_null. destruct (Z.eqb_spec r 0) as [->|_]; [destruct Hr; lia|].
  erewrite bind_ret_eq by apply memsetK_with.
  pose proof (page_memset_zero (k_mem s) r) as Hsb.
  set (m1 := memset (memset (k_mem s) r 5 PGSIZE) r 0 PGSIZE) in *.
  destruct (take_page s r l root lim m1 Hu Hsb) as (Hu1 & Hlk1 & Hpp1).
  pose proof (take_page_fresh s r l root lim m1 Hu Hsb) as Hf1.
  pose proof (pool_step_take s r l m1 Hu Hsb) as St1.
  assert (Hz1 : forall i, 0 <= i < PGSIZE -> load8 m1 (r + i) = 0).
  { intros i Hi. unfold m1. rewrite load8_memset, decide_True by lia. done. }
  set (s1 := with_mem m1 (load64 (k_mem s) r) s) in *. change m1 with (k_mem s1) in Hlk1, Hpp1, Hz1.
  clearbody s1. clear m1 Hsb.
  destruct (map_page s1 l root lim a r perm) as (rc & s2 & l2 & E & F & Hu2 & Hrc);
    [done|done|done|done|by rewrite Hlk1|].
  fold perm. erewrite bind_ret_eq by exact E.
  pose proof (pool_step_frame _ _ _ _ F) as St2.
  assert (St : pool_step s (r :: l) s2) by (eapply pool_step_trans; [done|done|set_solver]).
  destruct F as [_ _ (used & -> & _ & _ & Hused) Hkeep].
  assert (Hkeep' : forall x, pt_page (k_mem s) root x -> pt_page (k_mem s2) root x).
  { intros x Hx%Hpp1. destruct Hx as (π & Hd & Hp). exists π. eauto. }
  destruct Hrc as [[-> Hmp]|(-> & -> & Hf2 & Hlk2)]; cbn [negb Z.eqb].
  - exists None, s2. split; [done|]. left. split; [done|]. exists l2.
    by eapply (grown_add s r s1 used s2 l2 k).
  - destruct (kfree_fresh s2 [] root lim r) as (s3 & E3 & Hu3 & Sh & Hlk3); [done|done|].
    erewrite bind_ret_eq by exact E3.
    assert (G3 : grown s0 l0 s3 [r] root lim perm old (k + 0)) by
      (by eapply (grown_back s r s1 used s2 s3 k)).
    rewrite Nat.add_0_r in G3.
    destruct (grown_undo s3 [r] k) as (s' & E' & U); [done|unfold PGSIZE in *; lia|done|].
    exists (Some 0), s'. split; [by erewrite bind_ret_eq by exact E'|by right].
Qed.

Lemma uvmalloc_loop newsz d : forall k s l,
  grown s0 l0 s l root lim perm old k ->
  old + (Z.of_nat (k + d) - 1) * PGSIZE < newsz <= old + Z.of_nat (k + d) * PGSIZE ->
  old + Z.of_nat (k + d) * PGSIZE <= lim ->
  exists r s',
    for_loop d (old + Z.of_nat k * PGSIZE) (fun a => a <? newsz) (fun a => wrap64 (a + PGSIZE))
      (alloc_body root old xperm) s = Ret r s'
    /\ ((r = None /\ exists l', grown s0 l0 s' l' root lim perm old (k + d))
        \/ (r = Some 0 /\ undone s0 l0 s' root lim)).
Proof.
  induction d as [|d IH]; intros k s l G Hn Hl; cbn [for_loop].
  { rewrite Nat.add_0_r in *. destruct (Z.ltb_spec (old + Z.of_nat k * PGSIZE) newsz); [lia|].
    exists None, s. split; [done|]. left. eauto. }
  unfold PGSIZE in *. destruct (Z.ltb_spec (old + Z.of_nat k * 4096) newsz); [|lia].
  destruct (alloc_body_spec s l k) as (r & s1 & E & [[-> (l1 & G1)]|[-> U]]);
    [done|unfold PGSIZE; lia| |]; erewrite bind_ret_eq by exact E.
  - rewrite wrap64_small by (kconst; lia).
    replace (old + Z.of_nat k * 4096 + 4096) with (old + Z.of_nat (k + 1) * 4096) by lia.
    replace (k + S d)%nat with (k + 1 + d)%nat in * by lia.
    by apply (IH (k + 1)%nat s1 l1).
  - exists (Some 0), s1. split; [done|by right].
Qed.
End Uvmalloc.

Lemma grown_0 s l root lim perm old : uvm s l root lim -> grown s l s l root lim perm old 0.
Proof.
  intros Hu. constructor; [done|apply mem_only_refl| | | |by left|by intros b _].
  - exists []. split; [done|]. by intros x ?%not_elem_of_nil.
  - done.
  - intros a _ Hr. lia.
Qed.

Lemma uvmalloc_perm xperm : 0 <= xperm < 1024 -> 0 <= Z.lor (Z.lor PTE_R PTE_U) xperm < 1024.
Proof. intros H. apply (lor_bound _ _ 10); [lia|done|done]. Qed.

(** C15: [uvmalloc] is all or nothing.  It returns [newsz], and then every new
    page is mapped with read, user and [xperm] permissions to a zeroed page of
    its own taken from the pool; or it returns 0, and then the address space
    maps what it mapped before and the pool has every page back except those
    that became pages of the page-table tree.  In both cases no other memory
    and no other kernel variable changes, and the address space still owns its
    pages. *)
Theorem uvmalloc_all_or_nothing s l root lim oldsz newsz xperm :
  uvm s l root lim -> 0 <= oldsz <= newsz -> newsz <= MAXVA ->
  PGROUNDUP newsz <= lim -> lim <= MAXVA -> 0 <= xperm < 1024 ->
  (forall a, va_ok a -> PGROUNDUP oldsz <= a < lim -> pt_lookup (k_mem s) root a = 0) ->
  exists rc s', uvmalloc root oldsz newsz xperm s = Ret rc s'
  /\ ((rc = newsz /\ exists l', grown s l s' l' root lim (Z.lor (Z.lor PTE_R PTE_U) xperm)
                                  (PGROUNDUP oldsz) (npages newsz oldsz))
      \/ (rc = 0 /\ undone s l s' root lim)).
Proof.
  intros Hu Hsz HsM Hlim HlM Hx Hf. unfold uvmalloc. destruct (Z.ltb_spec newsz oldsz); [lia|].
  destruct (npages_spec newsz oldsz) as [En _]; [lia|done|].
  pose proof (PGROUNDUP_spec oldsz) as Ho. pose proof (PGROUNDUP_spec newsz) as Hn.
  destruct (uvmalloc_loop s l root lim xperm (PGROUNDUP oldsz)) with
    (newsz := newsz) (d := npages newsz oldsz) (k := 0%nat) (s := s) (l := l)
    as (r & s' & E & Hr); try done; try (kconst; unfold PGSIZE in *; simpl; lia).
  - by apply uvmalloc_perm.
  - by apply grown_0.
  - rewrite Z.mul_0_l, Z.add_0_r in E.
    replace (Z.to_nat ((newsz - PGROUNDUP oldsz + PGSIZE - 1) / PGSIZE)) with (npages newsz oldsz)
      by (kconst; unfold PGSIZE in *; dlia).
    destruct Hr as [[-> (l' & G)]|[-> U]].
    + exists newsz, s'. split; [by erewrite bind_ret_eq by exact E|]. left. eauto.
    + exists 0, s'. split; [by erewrite bind_ret_eq by exact E|]. by right.
Qed.

Lemma small_uvm : exists s l root,
  uvm s l root MAXVA /\ (forall va, pt_lookup (k_mem s) root va = 0).
Proof.
  destruct small_table as (s & l & root & Hs & Hz). exists s, l, root. split; [|done].
  constructor; [done| |].
  - intros a _ _ Hv. by rewrite Hz in Hv.
  - intros a b _ _ _ _ Hv. by rewrite Hz in Hv.
Qed.

Lemma uvmalloc_all_or_nothing_witness : exists s l root rc s',
  uvm s l root MAXVA /\ uvmalloc root 0 (2 * PGSIZE) PTE_W s = Ret rc s'
  /\ (rc = 2 * PGSIZE \/ rc = 0).
Proof.
  destruct small_uvm as (s & l & root & Hu & Hz).
  destruct (uvmalloc_all_or_nothing s l root MAXVA 0 (2 * PGSIZE) PTE_W) as (rc & s' & E & Hrc).
  - exact Hu.
  - unfold PGSIZE. lia.
  - vm_compute. discriminate.
  - vm_compute. discriminate.
  - lia.
  - vm_compute. split; [discriminate|reflexivity].
  - intros a _ _. apply Hz.
  - exists s, l, root, rc, s'. split; [exact Hu|]. split; [exact E|]. destruct Hrc as [[H _]|[H _]]; auto.
Defined.
