(* ===== verification/VmFrame.v ===== *)
(** * The memory functions change memory only

    Every function of kalloc.c and vm.c, run by one thread, changes the physical
    memory and the free list and no other kernel variable, and never switches
    to another thread.  [quiet] says so, and composes. *)
From S2P Require Import Prelude State CString Kalloc Vm VmSpec.

Open Scope Z_scope.

Definition quiet {A} (m : K A) : Prop := forall s,
  match m s with
  | Ret _ s' => mem_only s s'
  | Yield _ _ => False
  | _ => True
  end.

Create HintDb quiet discriminated.
#[export] Hint Constants Opaque : quiet.

Lemma quiet_ret {A} (a : A) : quiet (ret a).
Proof. intros s. apply mem_only_refl. Qed.
Lemma quiet_skip : quiet skip.
Proof. apply quiet_ret. Qed.
Lemma quiet_get : quiet get.
Proof. intros s. apply mem_only_refl. Qed.
Lemma quiet_gets {A} (f : kernel -> A) : quiet (gets f).
Proof. intros s. apply mem_only_refl. Qed.
Lemma quiet_panic {A} msg : quiet (panic (A := A) msg).
Proof. by intros s. Qed.
Lemma quiet_fuel {A} : quiet (out_of_fuel (A := A)).
Proof. by intros s. Qed.

Lemma quiet_bind {A B} (m : K A) (f : A -> K B) :
  quiet m -> (forall a, quiet (f a)) -> quiet (bind m f).
Proof.
  intros Hm Hf s. unfold bind. specialize (Hm s). destruct (m s) as [a s1| | |]; simpl; try done.
  specialize (Hf a s1). destruct (f a s1); try done. by eapply mem_only_trans.
Qed.

Lemma quiet_mem f : quiet (modify (fun s => set_k_mem (f s) s)).
Proof. intros s. simpl. unfold mem_only. by destruct s. Qed.

Lemma quiet_if {A} (b : bool) (m1 m2 : K A) : quiet m1 -> quiet m2 -> quiet (if b then m1 else m2).
Proof. by destruct b. Qed.

#[export] Hint Resolve quiet_ret quiet_skip quiet_get quiet_gets quiet_panic quiet_fuel quiet_mem : quiet.

Lemma quiet_for_loop {R} fuel i cond step (body : Z -> K (option R)) :
  (forall i, quiet (body i)) -> quiet (for_loop fuel i cond step body).
Proof.
  intros Hb. revert i. induction fuel as [|fuel IH]; intros i; cbn [for_loop]; apply quiet_if;
    auto with quiet. apply quiet_bind; [done|]. intros [v|]; auto with quiet.
Qed.
Lemma quiet_while_loop {L R} fuel (l : L) (body : L -> K (L + R)) :
  (forall l, quiet (body l)) -> quiet (while_loop fuel l body).
Proof.
  intros Hb. revert l. induction fuel as [|fuel IH]; intros l; cbn [while_loop]; [auto with quiet|].
  apply quiet_bind; [done|]. intros [l'|v]; auto with quiet.
Qed.
Lemma quiet_for_all {I} (l : list I) (body : I -> K unit) :
  (forall i, quiet (body i)) -> quiet (for_all l body).
Proof. intros Hb. induction l; cbn [for_all]; [auto with quiet|]. apply quiet_bind; auto. Qed.

(** [quiet] takes a program apart. *)
Ltac quiet :=
  repeat first
  [ assumption
  | solve [auto with quiet nocore]
  | match goal with
    | |- quiet (bind _ _) => apply quiet_bind; intros
    | |- quiet (if _ then _ else _) => apply quiet_if
    | |- quiet (match ?x with _ => _ end) => destruct x
    | |- quiet (for_loop _ _ _ _ _) => apply quiet_for_loop; intros
    | |- quiet (while_loop _ _ _) => apply quiet_while_loop; intros
    | |- quiet (for_all _ _) => apply quiet_for_all; intros
    end
  | progress cbn beta iota ].

(** ** kalloc.c *)
Lemma quiet_kalloc : quiet kalloc.
Proof.
  intros s. destruct (decide (LKmem ∈ k_held s)) as [Hh|Hh].
  { unfold kalloc. by rewrite (bind_panic_eq _ _ _ _ (acquire_held _ _ Hh)). }
  unfold kalloc. erewrite bind_ret_eq by (by apply acquire_ok).
  erewrite bind_ret_eq by reflexivity. simpl k_freelist. destruct (negb (is_null (k_freelist s))).
  - erewrite bind_ret_eq; [|erewrite bind_ret_eq by reflexivity; reflexivity].
    erewrite bind_ret_eq by (by apply release_top).
    erewrite bind_ret_eq by reflexivity. simpl. unfold mem_only. by destruct s.
  - erewrite bind_ret_eq by reflexivity. erewrite bind_ret_eq by (by apply release_top).
    erewrite bind_ret_eq by reflexivity. simpl. unfold mem_only. by destruct s.
Qed.

Lemma quiet_kfree pa : quiet (kfree pa).
Proof.
  intros s. unfold kfree. erewrite bind_ret_eq by reflexivity.
  destruct (_ || _ || _); [done|]. erewrite bind_ret_eq by reflexivity.
  set (s1 := set_k_mem _ s). assert (H1 : mem_only s s1) by (unfold mem_only, s1; by destruct s).
  assert (Hh1 : k_held s1 = k_held s) by done. clearbody s1.
  destruct (decide (LKmem ∈ k_held s1)) as [Hh|Hh].
  { by rewrite (bind_panic_eq _ _ _ _ (acquire_held _ _ Hh)). }
  erewrite bind_ret_eq by (by apply acquire_ok). do 3 (erewrite bind_ret_eq by reflexivity).
  erewrite release_top by reflexivity. eapply mem_only_trans; [exact H1|]. unfold mem_only. by destruct s1.
Qed.
#[export] Hint Resolve quiet_kalloc quiet_kfree : quiet.

Lemma quiet_memset a c n : quiet (memsetK a c n).
Proof. apply quiet_mem. Qed.
Lemma quiet_memmove a b n : quiet (memmoveK a b n).
Proof. apply quiet_mem. Qed.
Lemma quiet_store64 a v : quiet (store64K a v).
Proof. apply quiet_mem. Qed.
Lemma quiet_load64 a : quiet (load64K a).
Proof. apply quiet_gets. Qed.
Lemma quiet_get_proc i : quiet (get_proc i).
Proof. apply quiet_gets. Qed.
Lemma quiet_this_proc : quiet this_proc.
Proof. unfold this_proc, myproc. quiet. Qed.
#[export] Hint Resolve quiet_memset quiet_memmove quiet_store64 quiet_load64 quiet_get_proc quiet_this_proc : quiet.

(** ** vm.c *)
Lemma quiet_walk root va alloc : quiet (walk root va alloc).
Proof. unfold walk. cbn [walk_levels]. quiet. Qed.
#[export] Hint Resolve quiet_walk : quiet.

Lemma quiet_walkaddr root va : quiet (walkaddr root va).
Proof. unfold walkaddr. quiet. Qed.
Lemma quiet_mappages_loop n root a last pa perm : quiet (mappages_loop n root a last pa perm).
Proof. revert a pa. induction n as [|n IH]; intros a pa; cbn [mappages_loop]; quiet. Qed.
#[export] Hint Resolve quiet_walkaddr quiet_mappages_loop : quiet.
Lemma quiet_mappages root va size pa perm : quiet (mappages root va size pa perm).
Proof. unfold mappages. quiet. Qed.
Lemma quiet_uvmcreate : quiet uvmcreate.
Proof. unfold uvmcreate. quiet. Qed.
Lemma quiet_uvmunmap root va n f : quiet (uvmunmap root va n f).
Proof. unfold uvmunmap. quiet. Qed.
#[export] Hint Resolve quiet_mappages quiet_uvmcreate quiet_uvmunmap : quiet.
Lemma quiet_uvmdealloc root o n : quiet (uvmdealloc root o n).
Proof. unfold uvmdealloc. quiet. Qed.
#[export] Hint Resolve quiet_uvmdealloc : quiet.
Lemma quiet_uvmalloc root o n x : quiet (uvmalloc root o n x).
Proof. unfold uvmalloc. quiet. Qed.
Lemma quiet_freewalk n root : quiet (freewalk n root).
Proof.
  revert root. induction n as [|n IH]; intros root; cbn [freewalk]; quiet.
Qed.
#[export] Hint Resolve quiet_uvmalloc quiet_freewalk : quiet.
Lemma quiet_uvmfree root sz : quiet (uvmfree root sz).
Proof. unfold uvmfree. quiet. Qed.
Lemma quiet_uvmcopy old new sz : quiet (uvmcopy old new sz).
Proof. unfold uvmcopy. quiet. Qed.
Lemma quiet_uvmshare old new sz : quiet (uvmshare old new sz).
Proof. unfold uvmshare. quiet. Qed.
Lemma quiet_thread_freepagetable root sz : quiet (thread_freepagetable root sz).
Proof. unfold thread_freepagetable. quiet. Qed.
Lemma quiet_uvmclear root va : quiet (uvmclear root va).
Proof. unfold uvmclear. quiet. Qed.
Lemma quiet_ismapped root va : quiet (ismapped root va).
Proof. unfold ismapped. quiet. Qed.
#[export] Hint Resolve quiet_uvmfree quiet_uvmcopy quiet_uvmshare quiet_thread_freepagetable
  quiet_uvmclear quiet_ismapped : quiet.
Lemma quiet_vmfault root va r : quiet (vmfault root va r).
Proof. unfold vmfault. quiet. Qed.
#[export] Hint Resolve quiet_vmfault : quiet.
Lemma quiet_copyout root va l : quiet (copyout root va l).
Proof. unfold copyout. quiet. Qed.
Lemma quiet_copyin root va n : quiet (copyin root va n).
Proof. unfold copyin. quiet. Qed.
Lemma quiet_copyinstr root va n : quiet (copyinstr root va n).
Proof. unfold copyinstr. quiet. Qed.
#[export] Hint Resolve quiet_copyout quiet_copyin quiet_copyinstr : quiet.
