(* ===== verification/Sched.v ===== *)
(** * Scheduling: the first layer of proc.c

    [scheduler], [sched], [yield], [sleep], [wakeup], [kkill], [setkilled],
    [killed], [setpriority], [allocpid], and the theorems about the priority
    scheduler and about sleeping and waking. *)
From S2P Require Import Prelude State CString Kalloc Vm.

Open Scope Z_scope.

(** ** Definitions *)

(** [swtch] to the scheduler is the point where other threads run.  The nesting
    depth [mycpu()->noff] is the number of locks held and interrupts are off
    while one is held (see [Spinlock]). *)
Definition sched : K unit :=
  let* p := this_proc in
  let* s := get in
  if negb (holding (LProc p) s) then panic "sched p->lock" else
  if negb (Nat.eqb (length (k_held s)) 1) then panic "sched locks" else
  if decide (p_state (getproc s p) = RUNNING) then panic "sched RUNNING" else
  yield_cpu.

Definition yield : K unit :=
  let* p := this_proc in
  acquire (LProc p) ;;;
  mod_proc p (set_p_state RUNNABLE) ;;;
  sched ;;;
  release (LProc p).

Definition sleep (chan : chanid) (lk : lockid) : K unit :=
  let* p := this_proc in
  acquire (LProc p) ;;;
  release lk ;;;
  mod_proc p (set_p_chan chan) ;;;
  mod_proc p (set_p_state SLEEPING) ;;;
  sched ;;;
  mod_proc p (set_p_chan CNull) ;;;
  release (LProc p) ;;;
  acquire lk.

Definition wakeup (chan : chanid) : K unit :=
  for_all proc_table (fun p =>
    let* me := myproc in
    if decide (me = Some p) then skip else
    acquire (LProc p) ;;;
    let* pr := get_proc p in
    (if decide (p_state pr = SLEEPING /\ p_chan pr = chan)
     then mod_proc p (set_p_state RUNNABLE) else skip) ;;;
    release (LProc p)).

Definition kkill (pid : Z) : K Z :=
  let* r := for_each proc_table (fun p =>
    acquire (LProc p) ;;;
    let* pr := get_proc p in
    if p_pid pr =? pid then
      mod_proc p (set_p_killed 1) ;;;
      (if decide (p_state pr = SLEEPING) then mod_proc p (set_p_state RUNNABLE) else skip) ;;;
      release (LProc p) ;;;
      ret (Some 0)
    else
      release (LProc p) ;;;
      ret None) in
  ret (default (-1) r).

Definition setkilled (p : nat) : K unit :=
  acquire (LProc p) ;;;
  mod_proc p (set_p_killed 1) ;;;
  release (LProc p).

Definition killed (p : nat) : K Z :=
  acquire (LProc p) ;;;
  let* pr := get_proc p in
  release (LProc p) ;;;
  ret (p_killed pr).

Definition setpriority (pid priority : Z) : K Z :=
  if priority <? 0 then ret (-1) else
  let* r := for_each proc_table (fun p =>
    acquire (LProc p) ;;;
    let* pr := get_proc p in
    if (p_pid pr =? pid) && negb (bool_decide (p_state pr = UNUSED)) then
      mod_proc p (set_p_priority priority) ;;;
      release (LProc p) ;;;
      ret (Some 0)
    else
      release (LProc p) ;;;
      ret None) in
  ret (default (-1) r).

Definition allocpid : K Z :=
  acquire LPid ;;;
  let* pid := gets k_nextpid in
  modify (set_k_nextpid (int32 (pid + 1))) ;;;
  release LPid ;;;
  ret pid.

(** One process considered by the scan of [scheduler]: [best] is the process
    chosen so far, whose lock is held. *)
Definition pick_step (p : nat) (best : option nat) : K (option nat) :=
  acquire (LProc p) ;;;
  let* pr := get_proc p in
  if decide (p_state pr = RUNNABLE) then
    match best with
    | None => ret (Some p)
    | Some b =>
        let* br := get_proc b in
        if p_priority br <? p_priority pr then release (LProc b) ;;; ret (Some p)
        else release (LProc p) ;;; ret best
    end
  else release (LProc p) ;;; ret best.

(** One turn of the [for(;;)] of [scheduler]; [swtch b] stands for what process
    [b] does until it switches back. *)
Definition scheduler_round (swtch : nat -> K unit) : K unit :=
  let* best := fold_each proc_table None pick_step in
  match best with
  | None => skip
  | Some b =>
      mod_proc b (set_p_state RUNNING) ;;;
      modify (set_k_cur (Some b)) ;;;
      swtch b ;;;
      modify (set_k_cur None) ;;;
      release (LProc b)
  end.

(** [either_copyout]/[either_copyin] move bytes to or from user memory or kernel
    memory.  The kernel side is an address of physical memory, or a local
    variable of the caller, which the caller keeps as a list of bytes. *)
Inductive place := User (va : Z) | Kernel (a : Z) | Local.
Definition place_add (d : place) (n : Z) : place :=
  match d with User va => User (wrap64 (va + n)) | Kernel a => Kernel (a + n) | Local => Local end.

Definition either_copyout (dst : place) (src : list Z) : K Z :=
  let* p := this_proc in
  match dst with
  | User va => let* pr := get_proc p in copyout (p_pagetable pr) va src
  | Kernel a => modify (fun s => set_k_mem (write_bytes (k_mem s) a src) s) ;;; ret 0
  | Local => ret 0
  end.

Inductive source := SUser (va : Z) | SKernel (a : Z) | SLocal (l : list Z).
Definition source_add (d : source) (n : Z) : source :=
  match d with
  | SUser va => SUser (wrap64 (va + n))
  | SKernel a => SKernel (a + n)
  | SLocal l => SLocal (drop (Z.to_nat n) l)
  end.

Definition either_copyin (src : source) (len : Z) : K (Z * list Z) :=
  let* p := this_proc in
  match src with
  | SUser va => let* pr := get_proc p in copyin (p_pagetable pr) va len
  | SKernel a => let* s := get in ret (0, read_bytes (k_mem s) a (Z.to_nat len))
  | SLocal l => ret (0, take (Z.to_nat len) l)
  end.

(** ** Switching away *)

(** Code that always gives up the CPU (or panics) before it returns. *)
Definition switches {A} (m : K A) : Prop := forall s a s', m s <> Ret a s'.

Lemma switches_bind_l {A B} (m : K A) (f : A -> K B) : switches m -> switches (bind m f).
Proof.
  intros Hm s b s' E. unfold bind in E. destruct (m s) eqn:E1; try done. by destruct (Hm s a s0).
Qed.
Lemma switches_bind_r {A B} (m : K A) (f : A -> K B) : (forall a, switches (f a)) -> switches (bind m f).
Proof.
  intros Hf s b s' E. unfold bind in E. destruct (m s) eqn:E1; try done. by destruct (Hf a s0 b s').
Qed.

Lemma switches_sched : switches sched.
Proof.
  unfold sched. apply switches_bind_r. intros p. apply switches_bind_r. intros s0 s a s' E.
  repeat (case_match; try done).
Qed.

Lemma switches_sleep chan lk : switches (sleep chan lk).
Proof.
  unfold sleep. do 5 (apply switches_bind_r; intros). apply switches_bind_l, switches_sched.
Qed.

Lemma this_proc_ret t s : k_cur s = Some t -> this_proc s = Ret t s.
Proof. intros H. unfold this_proc, myproc. erewrite bind_ret_eq by reflexivity. by rewrite H. Qed.

Lemma sched_yields t s :
  k_cur s = Some t -> k_held s = [LProc t] -> p_state (getproc s t) <> RUNNING ->
  sched s = Yield s (fun s1 => Ret tt s1).
Proof.
  intros Hc Hh Hs. unfold sched. erewrite bind_ret_eq by (by apply this_proc_ret).
  erewrite bind_ret_eq by reflexivity. unfold holding.
  rewrite Hh, bool_decide_eq_true_2 by set_solver. simpl. by rewrite decide_False.
Qed.

(** [sleep], cut at the switch to the scheduler: how the thread goes to sleep,
    and the state in which [sleep] returns when it is resumed in [s]. *)
Definition asleep (t : nat) (chan : chanid) (s : kernel) : kernel :=
  set_k_held [LProc t] (upd_proc t (fun x => set_p_state SLEEPING (set_p_chan chan x)) s).
Definition awake (t : nat) (lk : lockid) (s : kernel) : kernel :=
  set_k_held [lk] (upd_proc t (set_p_chan CNull) s).

Lemma sleep_yields chan lk t s :
  k_cur s = Some t -> k_held s = [lk] -> lk <> LProc t -> (t < length (k_procs s))%nat ->
  exists k, sleep chan lk s = Yield (asleep t chan s) k
  /\ forall s1, k_held s1 = [LProc t] -> k s1 = Ret tt (awake t lk s1).
Proof.
  intros Hc Hh Hlk Ht. unfold sleep. erewrite bind_ret_eq by (by apply this_proc_ret).
  erewrite bind_ret_eq by (apply acquire_ok; rewrite Hh; set_solver).
  erewrite bind_ret_eq by (apply release_in; simpl; rewrite Hh; set_solver).
  do 2 erewrite bind_ret_eq by reflexivity.
  set (s2 := upd_proc t (set_p_state SLEEPING) _).
  assert (s2 = asleep t chan s) as ->.
  { unfold s2, asleep. cbn [k_held set_k_held]. rewrite Hh. simpl. rewrite decide_False by done.
    rewrite decide_True by done. rewrite upd_proc_twice. by destruct s. }
  erewrite bind_yield_eq.
  2: { apply (sched_yields t); [done|done|]. unfold asleep. rewrite getproc_held, getproc_upd by done.
       by rewrite decide_True. }
  eexists. split; [reflexivity|]. intros s1 Hh1. cbn [run_bind]. erewrite bind_ret_eq by reflexivity.
  erewrite bind_ret_eq by (by apply release_top). rewrite acquire_ok by set_solver. by destruct s1.
Qed.

(** [killed] only looks. *)
Lemma killed_eq p s : LProc p ∉ k_held s -> killed p s = Ret (p_killed (getproc s p)) s.
Proof.
  intros H. unfold killed. erewrite bind_ret_eq by (by apply acquire_ok). erewrite bind_ret_eq by reflexivity.
  by erewrite bind_ret_eq by apply release_acquired.
Qed.

Lemma killed_ret p s k s' : killed p s = Ret k s' -> s' = s /\ k = p_killed (getproc s p).
Proof.
  unfold killed. destruct (decide (LProc p ∈ k_held s)) as [H|H].
  { by rewrite (bind_panic_eq _ _ _ _ (acquire_held _ _ H)). }
  erewrite bind_ret_eq by (by apply acquire_ok). erewrite bind_ret_eq by reflexivity.
  erewrite bind_ret_eq by apply release_acquired. intros [= <- <-]. done.
Qed.

(** ** The priority scheduler *)

Definition runnable (s : kernel) (p : nat) : Prop := p_state (getproc s p) = RUNNABLE.
Definition prio (s : kernel) (p : nat) : Z := p_priority (getproc s p).

(** [best] is the choice among [l]: a runnable process of maximal priority, the
    first one in table order among equals. *)
Definition is_best (s : kernel) (n : nat) (best : option nat) : Prop :=
  match best with
  | None => forall p, (p < n)%nat -> ~ runnable s p
  | Some b => (b < n)%nat /\ runnable s b
      /\ forall p, (p < n)%nat -> runnable s p -> prio s p <= prio s b /\ (prio s p = prio s b -> (b <= p)%nat)
  end.

(** The state during the scan: only the lock of the best process is held. *)
Definition scanning (s : kernel) (best : option nat) : kernel :=
  match best with
  | None => s
  | Some b => set_k_held (LProc b :: k_held s) s
  end.

Lemma scanning_getproc s best p : getproc (scanning s best) p = getproc s p.
Proof. destruct best; [apply getproc_held|done]. Qed.

Lemma pick_step_spec s n best :
  (forall p, LProc p ∉ k_held s) -> is_best s n best -> exists best',
  pick_step n best (scanning s best) = Ret best' (scanning s best') /\ is_best s (S n) best'.
Proof.
  intros Hh Hb. unfold pick_step.
  assert (Hn : LProc n ∉ k_held (scanning s best)).
  { destruct best as [b|]; [|apply Hh]. simpl. destruct Hb as [Hb _].
    destruct s; simpl in *. rewrite not_elem_of_cons. split; [|apply Hh]. intros [=]. lia. }
  erewrite bind_ret_eq by (by apply acquire_ok).
  unfold get_proc, gets at 1. erewrite bind_ret_eq by reflexivity.
  rewrite getproc_held, scanning_getproc.
  assert (Hback : release (LProc n) (set_k_held (LProc n :: k_held (scanning s best)) (scanning s best))
    = Ret tt (scanning s best)).
  { apply release_acquired. }
  destruct (decide (p_state (getproc s n) = RUNNABLE)) as [Hr|Hr].
  - destruct best as [b|].
    + unfold gets at 1. erewrite bind_ret_eq by reflexivity. rewrite getproc_held, scanning_getproc.
      destruct Hb as (Hbn & Hbr & Hmax). destruct (Z.ltb_spec (p_priority (getproc s b)) (p_priority (getproc s n))) as [Hlt|Hge].
      * exists (Some n). split.
        { erewrite bind_ret_eq; [reflexivity|]. rewrite release_in by (destruct s; simpl; set_solver).
          f_equal. simpl. rewrite decide_False by (intros [=]; lia). rewrite decide_True by done.
          by destruct s. }
        split_and!; [lia|done|]. intros p Hp Hpr. destruct (decide (p = n)) as [->|]; [lia|].
        destruct (Hmax p) as [H1 H2]; [lia|done|]. unfold prio in *. lia.
      * exists (Some b). split; [by erewrite bind_ret_eq by exact Hback|].
        split_and!; [lia|done|]. intros p Hp Hpr. destruct (decide (p = n)) as [->|]; [unfold prio; lia|].
        apply Hmax; [lia|done].
    + exists (Some n). split; [done|]. split_and!; [lia|done|]. intros p Hp Hpr.
      destruct (decide (p = n)) as [->|]; [lia|]. exfalso. apply (Hb p); [lia|done].
  - exists best. split; [by erewrite bind_ret_eq by exact Hback|].
    destruct best as [b|].
    + destruct Hb as (Hbn & Hbr & Hmax). split_and!; [lia|done|]. intros p Hp Hpr.
      destruct (decide (p = n)) as [->|]; [done|]. apply Hmax; [lia|done].
    + intros p Hp Hpr. destruct (decide (p = n)) as [->|]; [done|]. apply (Hb p); [lia|done].
Qed.

Lemma fold_each_pick s k n best :
  (forall p, LProc p ∉ k_held s) -> is_best s n best -> exists best',
  fold_each (seq n k) best pick_step (scanning s best) = Ret best' (scanning s best')
  /\ is_best s (n + k) best'.
Proof.
  revert n best. induction k as [|k IH]; intros n best Hh Hb; cbn [seq fold_each].
  { exists best. rewrite Nat.add_0_r. done. }
  destruct (pick_step_spec s n best Hh Hb) as (b1 & E & Hb1). erewrite bind_ret_eq by exact E.
  destruct (IH (S n) b1 Hh Hb1) as (b2 & E2 & Hb2). exists b2. split; [done|].
  by replace (n + S k)%nat with (S n + k)%nat by lia.
Qed.

(** C14: the scheduler runs a process of highest priority.  One turn of the
    [for(;;)] of [scheduler] starts, with only its lock held and as the current
    RUNNING process, a runnable process of maximal priority, the first in the
    table among those of equal priority; it starts nothing, and changes nothing,
    exactly when no process is runnable. *)
Theorem scheduler_highest_priority swtch s :
  k_held s = [] -> exists best,
  is_best s (Z.to_nat NPROC) best
  /\ scheduler_round swtch s =
     match best with
     | None => Ret tt s
     | Some b =>
         (swtch b ;;; modify (set_k_cur None) ;;; release (LProc b))
         (set_k_cur (Some b) (upd_proc b (set_p_state RUNNING) (set_k_held [LProc b] s)))
     end.
Proof.
  intros Hh. destruct (fold_each_pick s (Z.to_nat NPROC) 0 None) as (best & E & Hb).
  - intros p. rewrite Hh. apply not_elem_of_nil.
  - intros p Hp. lia.
  - exists best. split; [done|]. unfold scheduler_round. unfold proc_table.
    erewrite bind_ret_eq by exact E. destruct best as [b|]; [|done]. simpl scanning. rewrite Hh.
    unfold mod_proc, modify at 1. by erewrite bind_ret_eq by reflexivity.
Qed.

Definition two_runnable : kernel :=
  let s := kernel0 (mkSymbols PHYSTOP 0 0 0 0 0) in
  upd_proc 3 (fun x => set_p_priority 20 (set_p_state RUNNABLE x))
    (upd_proc 1 (fun x => set_p_priority 10 (set_p_state RUNNABLE x)) s).

Lemma scheduler_highest_priority_witness : exists s',
  scheduler_round (fun _ => skip) two_runnable = Ret tt s'
  /\ p_state (getproc s' 3) = RUNNING /\ p_state (getproc s' 1) = RUNNABLE.
Proof.
  destruct (scheduler_highest_priority (fun _ => skip) two_runnable) as (best & Hb & E); [reflexivity|].
  destruct best as [b|].
  - destruct Hb as (Hb & Hr & Hm).
    assert (b = 3%nat) as ->.
    { destruct (Hm 3%nat) as [Hp Ho]; [vm_compute; lia|reflexivity|].
      revert Hr Hp. clear. do 64 (destruct b as [|b]; [vm_compute; congruence|]). discriminate. }
    eexists. split; [rewrite E; vm_compute; reflexivity|]. split; reflexivity.
  - exfalso. apply (Hb 3%nat); [vm_compute; lia|reflexivity].
Defined.

(** ** Looking a process up by its pid *)

(** What a critical section under [p]'s lock does to the state. *)
Lemma locked_get {A} p s (f : proc -> K A) :
  LProc p ∉ k_held s ->
  (acquire (LProc p) ;;; let* pr := get_proc p in f pr) s
  = f (getproc s p) (set_k_held (LProc p :: k_held s) s).
Proof. intros H. by erewrite bind_ret_eq by (by apply acquire_ok). Qed.

Lemma mod_release p (g : proc -> proc) s :
  (mod_proc p g ;;; release (LProc p)) (set_k_held (LProc p :: k_held s) s)
  = Ret tt (upd_proc p g s).
Proof.
  erewrite bind_ret_eq by reflexivity. erewrite release_top by reflexivity. by destruct s.
Qed.

Lemma getproc_no_locks (s : kernel) : k_held s = [] -> forall p, LProc p ∉ k_held s.
Proof. intros -> p. apply not_elem_of_nil. Qed.

(** The first slot in table order whose process passes a test. *)
Definition first_slot (s : kernel) (test : proc -> bool) : option nat :=
  List.find (fun p => test (getproc s p)) proc_table.

Lemma first_slot_some s test p :
  first_slot s test = Some p ->
  (p < Z.to_nat NPROC)%nat /\ test (getproc s p) = true
  /\ forall q, (q < p)%nat -> test (getproc s q) = false.
Proof.
  unfold first_slot, proc_table. generalize (Z.to_nat NPROC). intros n.
  cut (forall k, List.find (fun p => test (getproc s p)) (seq k n) = Some p ->
    (k <= p < k + n)%nat /\ test (getproc s p) = true
    /\ forall q, (k <= q < p)%nat -> test (getproc s q) = false).
  { intros H E. apply H in E as (H1 & H2 & H3). split_and!; [lia|done|]. intros q Hq. apply H3. lia. }
  induction n as [|n IH]; intros k; simpl; [done|].
  destruct (test (getproc s k)) eqn:E.
  - intros [= ->]. split; [lia|]. split; [done|]. intros; lia.
  - intros (H1 & H2 & H3)%IH. split; [lia|]. split; [done|]. intros q Hq.
    destruct (decide (q = k)) as [->|]; [done|apply H3; lia].
Qed.

Lemma first_slot_none s test p :
  first_slot s test = None -> (p < Z.to_nat NPROC)%nat -> test (getproc s p) = false.
Proof.
  intros H Hp. apply (List.find_none _ _ H). apply list_elem_of_In. unfold proc_table.
  apply elem_of_seq. lia.
Qed.

(** [setpriority] sets the priority of the process with the given pid.  A
    negative priority, and a pid no live process has, are refused with -1 and
    nothing changes; otherwise the result is 0 and exactly the priority field of
    that process becomes the requested one. *)
Theorem setpriority_correct pid priority s :
  (forall p, LProc p ∉ k_held s) ->
  setpriority pid priority s =
  if priority <? 0 then Ret (-1) s else
  match first_slot s (fun x => (p_pid x =? pid) && negb (bool_decide (p_state x = UNUSED))) with
  | Some p => Ret 0 (upd_proc p (set_p_priority priority) s)
  | None => Ret (-1) s
  end.
Proof.
  intros Hh. unfold setpriority. destruct (priority <? 0); [done|].
  unfold bind at 1. rewrite (for_each_find _ _
    (fun p => (p_pid (getproc s p) =? pid) && negb (bool_decide (p_state (getproc s p) = UNUSED)))
    (fun _ => 0) (fun p => upd_proc p (set_p_priority priority))).
  - unfold first_slot. by destruct (List.find _ _).
  - intros p _. rewrite locked_get by apply Hh. destruct (_ && _).
    + erewrite bind_ret_eq by reflexivity. erewrite bind_ret_eq by (by apply release_top). by destruct s.
    + by erewrite bind_ret_eq by apply release_acquired.
Qed.

Lemma setpriority_correct_witness : exists s',
  setpriority 7 3 (upd_proc 5 (fun x => set_p_pid 7 (set_p_state SLEEPING x)) two_runnable) = Ret 0 s'
  /\ p_priority (getproc s' 5) = 3.
Proof.
  eexists. rewrite setpriority_correct.
  - split; [reflexivity|]. reflexivity.
  - intros p. apply not_elem_of_nil.
Defined.

Lemma kkill_spec pid s :
  (forall p, LProc p ∉ k_held s) ->
  kkill pid s =
  match first_slot s (fun x => p_pid x =? pid) with
  | Some p => Ret 0 (upd_proc p (fun x => set_p_killed 1
                (if decide (p_state (getproc s p) = SLEEPING) then set_p_state RUNNABLE x else x)) s)
  | None => Ret (-1) s
  end.
Proof.
  intros Hh. unfold kkill. unfold bind at 1.
  rewrite (for_each_find _ _ (fun p => p_pid (getproc s p) =? pid) (fun _ => 0)
    (fun p => upd_proc p (fun x => set_p_killed 1
       (if decide (p_state (getproc s p) = SLEEPING) then set_p_state RUNNABLE x else x)))).
  - unfold first_slot. by destruct (List.find _ _).
  - intros p _. rewrite locked_get by apply Hh. destruct (p_pid (getproc s p) =? pid).
    + erewrite bind_ret_eq by reflexivity.
      destruct (decide (p_state (getproc s p) = SLEEPING)).
      * erewrite bind_ret_eq by reflexivity. erewrite bind_ret_eq by (by apply release_top).
        unfold ret. f_equal. rewrite upd_proc_twice. by destruct s.
      * erewrite bind_ret_eq by reflexivity. erewrite bind_ret_eq by (by apply release_top). by destruct s.
    + by erewrite bind_ret_eq by apply release_acquired.
Qed.

(** ** wakeup *)
Definition wake (me : option nat) (chan : chanid) (i : nat) (x : proc) : proc :=
  if decide (me <> Some i /\ p_state x = SLEEPING /\ p_chan x = chan) then set_p_state RUNNABLE x else x.

(** The table after the first [k] slots have been visited. *)
Definition woken_upto (k : nat) (chan : chanid) (s : kernel) : kernel :=
  set_k_procs (imap (fun i x => if decide (i < k)%nat then wake (k_cur s) chan i x else x) (k_procs s)) s.
Definition woken (chan : chanid) (s : kernel) : kernel :=
  set_k_procs (imap (wake (k_cur s) chan) (k_procs s)) s.

Lemma woken_upto_S k chan s :
  woken_upto (S k) chan s = upd_proc k (wake (k_cur s) chan k) (woken_upto k chan s).
Proof.
  unfold woken_upto, upd_proc. simpl. unfold set_k_procs at 1 2. simpl. f_equal.
  apply list_eq. intros i. destruct (decide (i = k)) as [->|Hi].
  - rewrite list_lookup_alter_eq, !list_lookup_imap. destruct (k_procs s !! k); simpl; [|done].
    rewrite decide_True, decide_False by lia. done.
  - rewrite list_lookup_alter_ne by done. rewrite !list_lookup_imap.
    destruct (k_procs s !! i); simpl; [|done]. f_equal.
    repeat case_decide; done || lia.
Qed.

Lemma woken_upto_getproc k chan s : getproc (woken_upto k chan s) k = getproc s k.
Proof.
  unfold getproc, woken_upto. simpl. rewrite list_lookup_imap.
  destruct (k_procs s !! k); simpl; [|done]. by rewrite decide_False by lia.
Qed.

Lemma wakeup_upto chan s k :
  (forall p, LProc p ∉ k_held s) ->
  for_all (seq 0 k) (fun p =>
    let* me := myproc in
    if decide (me = Some p) then skip else
    acquire (LProc p) ;;;
    let* pr := get_proc p in
    (if decide (p_state pr = SLEEPING /\ p_chan pr = chan)
     then mod_proc p (set_p_state RUNNABLE) else skip) ;;;
    release (LProc p)) s = Ret tt (woken_upto k chan s).
Proof.
  intros Hh. induction k as [|k IH].
  { simpl. unfold skip, ret. f_equal. unfold woken_upto. simpl.
    replace (imap _ (k_procs s)) with (k_procs s); [by destruct s|].
    apply list_eq. intros i. rewrite list_lookup_imap. by destruct (k_procs s !! i). }
  rewrite seq_S. erewrite for_all_app by exact IH. simpl for_all.
  rewrite woken_upto_S. set (s1 := woken_upto k chan s).
  assert (Hh1 : LProc k ∉ k_held s1) by apply Hh.
  pose proof (woken_upto_getproc k chan s) as Hg. fold s1 in Hg.
  assert (Hc : k_cur s1 = k_cur s) by done. clearbody s1. rewrite <- Hc.
  unfold bind at 1. unfold myproc, gets at 1, bind at 1. simpl run_bind.
  destruct (decide (k_cur s1 = Some k)) as [E|E].
  { simpl. unfold skip, ret. f_equal. symmetry. apply upd_proc_id. unfold wake. rewrite decide_False; naive_solver. }
  rewrite locked_get by done.
  destruct (decide (p_state (getproc s1 k) = SLEEPING /\ p_chan (getproc s1 k) = chan)) as [D|D].
  - rewrite mod_release. simpl. unfold skip, ret. f_equal. apply upd_proc_ext.
    intros x Hx. unfold wake. rewrite decide_True; [done|]. rewrite (getproc_lookup _ _ _ Hx) in D. naive_solver.
  - erewrite bind_ret_eq by reflexivity. rewrite release_acquired. simpl. unfold skip, ret. f_equal.
    symmetry. apply upd_proc_id. unfold wake. rewrite decide_False; naive_solver.
Qed.

Lemma wakeup_spec chan s :
  (forall p, LProc p ∉ k_held s) -> (length (k_procs s) <= Z.to_nat NPROC)%nat ->
  wakeup chan s = Ret tt (woken chan s).
Proof.
  intros Hh Hl. unfold wakeup, proc_table. rewrite wakeup_upto by done. f_equal.
  unfold woken_upto, woken. f_equal. apply list_eq. intros i. rewrite !list_lookup_imap.
  destruct (k_procs s !! i) as [x|] eqn:E; simpl; [|done].
  apply lookup_lt_Some in E. by rewrite decide_True by lia.
Qed.
