(* ===== verification/SleepWake.v ===== *)
(** * No lost wakeups: [sleep] and [wakeup] under interleaving

    The kernel code that waits for a condition is, everywhere,
    [acquire(lk); while(!cond) sleep(chan, lk); ...; release(lk)], and the code
    that makes the condition true is [acquire(lk); cond = 1; wakeup(chan);
    release(lk)].  Here the two are cut at every lock operation of [sleep],
    [sched], [scheduler] and [wakeup] (proc.c), and any number of processes may
    interleave between the pieces. *)
From S2P Require Import Prelude State.

Open Scope nat_scope.

(** Where a process is. *)
Inductive swpc :=
| Free               (* holds neither lock *)
| Check              (* holds lk, looks at the condition *)
| Sleep1             (* sleep() entered, before acquire(&p->lock) *)
| Sleep2             (* both locks held, before release(lk) *)
| Sleep3             (* p->lock held, before p->state = SLEEPING *)
| Sleep4             (* asleep, the scheduler still has to release p->lock *)
| Off                (* switched out *)
| Resume             (* picked by the scheduler, p->lock held *)
| Resume2            (* p->lock released, before acquire(lk) *)
| Signal             (* holds lk, makes the condition true *)
| Wake (i : nat)     (* in wakeup(), slot i is next *)
| WakeL (i : nat).   (* in wakeup(), slot i's lock held *)
#[global] Instance swpc_eq_dec : EqDecision swpc.
Proof. solve_decision. Defined.

Record sw := mkSw {
  sw_lk : option nat;          (* who holds the condition lock *)
  sw_pl : nat -> option nat;   (* who holds p->lock *)
  sw_cond : bool;
  sw_st : nat -> procstate;
  sw_chan : nat -> bool;       (* p->chan == chan *)
  sw_pc : nat -> swpc
}.

Definition upd {A} (f : nat -> A) (p : nat) (v : A) : nat -> A :=
  fun q => if decide (q = p) then v else f q.

Section Steps.
Context (N : nat).   (* NPROC *)

Inductive sw_step : sw -> sw -> Prop :=
(* acquire(lk) before the while loop, and when coming back from sleep *)
| sw_enter s p : p < N -> sw_pc s p = Free \/ sw_pc s p = Resume2 -> sw_lk s = None ->
    sw_step s (mkSw (Some p) (sw_pl s) (sw_cond s) (sw_st s) (sw_chan s) (upd (sw_pc s) p Check))
(* the condition holds: it is used up, release(lk) *)
| sw_consume s p : sw_pc s p = Check -> sw_cond s = true ->
    sw_step s (mkSw None (sw_pl s) false (sw_st s) (sw_chan s) (upd (sw_pc s) p Free))
| sw_sleep s p : sw_pc s p = Check -> sw_cond s = false ->
    sw_step s (mkSw (sw_lk s) (sw_pl s) (sw_cond s) (sw_st s) (sw_chan s) (upd (sw_pc s) p Sleep1))
| sw_sleep_acquire s p : sw_pc s p = Sleep1 -> sw_pl s p = None ->
    sw_step s (mkSw (sw_lk s) (upd (sw_pl s) p (Some p)) (sw_cond s) (sw_st s) (sw_chan s) (upd (sw_pc s) p Sleep2))
| sw_sleep_release s p : sw_pc s p = Sleep2 ->
    sw_step s (mkSw None (sw_pl s) (sw_cond s) (sw_st s) (sw_chan s) (upd (sw_pc s) p Sleep3))
| sw_sleeping s p : sw_pc s p = Sleep3 ->
    sw_step s (mkSw (sw_lk s) (sw_pl s) (sw_cond s) (upd (sw_st s) p SLEEPING) (upd (sw_chan s) p true)
                 (upd (sw_pc s) p Sleep4))
(* swtch to the scheduler, which releases p->lock *)
| sw_off s p : sw_pc s p = Sleep4 ->
    sw_step s (mkSw (sw_lk s) (upd (sw_pl s) p None) (sw_cond s) (sw_st s) (sw_chan s) (upd (sw_pc s) p Off))
(* the scheduler of some CPU acquires p->lock and runs p *)
| sw_run s p : sw_pc s p = Off -> sw_st s p = RUNNABLE -> sw_pl s p = None ->
    sw_step s (mkSw (sw_lk s) (upd (sw_pl s) p (Some p)) (sw_cond s) (upd (sw_st s) p RUNNING) (sw_chan s)
                 (upd (sw_pc s) p Resume))
| sw_resume s p : sw_pc s p = Resume ->
    sw_step s (mkSw (sw_lk s) (upd (sw_pl s) p None) (sw_cond s) (sw_st s) (upd (sw_chan s) p false)
                 (upd (sw_pc s) p Resume2))
(* the waker *)
| sw_signal_acquire s p : p < N -> sw_pc s p = Free -> sw_lk s = None ->
    sw_step s (mkSw (Some p) (sw_pl s) (sw_cond s) (sw_st s) (sw_chan s) (upd (sw_pc s) p Signal))
| sw_signal s p : sw_pc s p = Signal ->
    sw_step s (mkSw (sw_lk s) (sw_pl s) true (sw_st s) (sw_chan s) (upd (sw_pc s) p (Wake 0)))
| sw_wake_self s p : sw_pc s p = Wake p ->
    sw_step s (mkSw (sw_lk s) (sw_pl s) (sw_cond s) (sw_st s) (sw_chan s) (upd (sw_pc s) p (Wake (S p))))
| sw_wake_acquire s p i : sw_pc s p = Wake i -> i < N -> i <> p -> sw_pl s i = None ->
    sw_step s (mkSw (sw_lk s) (upd (sw_pl s) i (Some p)) (sw_cond s) (sw_st s) (sw_chan s)
                 (upd (sw_pc s) p (WakeL i)))
| sw_wake_release s p i : sw_pc s p = WakeL i ->
    sw_step s (mkSw (sw_lk s) (upd (sw_pl s) i None) (sw_cond s)
                 (upd (sw_st s) i (if decide (sw_st s i = SLEEPING /\ sw_chan s i = true) then RUNNABLE else sw_st s i))
                 (sw_chan s) (upd (sw_pc s) p (Wake (S i))))
| sw_wake_done s p : sw_pc s p = Wake N ->
    sw_step s (mkSw None (sw_pl s) (sw_cond s) (sw_st s) (sw_chan s) (upd (sw_pc s) p Free))
(* kkill() makes a sleeping process runnable *)
| sw_kill s p : sw_st s p = SLEEPING -> sw_pl s p = None ->
    sw_step s (mkSw (sw_lk s) (sw_pl s) (sw_cond s) (upd (sw_st s) p RUNNABLE) (sw_chan s) (sw_pc s)).

Inductive sw_reach : sw -> Prop :=
| sw_init c : sw_reach (mkSw None (fun _ => None) c (fun _ => RUNNING) (fun _ => false) (fun _ => Free))
| sw_next s s' : sw_reach s -> sw_step s s' -> sw_reach s'.

(** ** The invariant *)
Definition holds_lk (c : swpc) : bool :=
  match c with Check | Sleep1 | Sleep2 | Signal | Wake _ | WakeL _ => true | _ => false end.
Definition holds_pl (c : swpc) : bool :=
  match c with Sleep2 | Sleep3 | Sleep4 | Resume => true | _ => false end.

Record sw_inv (s : sw) : Prop := {
  sw_i_lk : forall p, holds_lk (sw_pc s p) = true <-> sw_lk s = Some p;
  sw_i_pl : forall p, holds_pl (sw_pc s p) = true -> sw_pl s p = Some p;
  sw_i_wakel : forall w i, sw_pc s w = WakeL i -> sw_pl s i = Some w /\ w <> i;
  sw_i_sleeping : forall p, sw_st s p = SLEEPING ->
    (sw_pc s p = Sleep4 \/ sw_pc s p = Off) /\ sw_chan s p = true;
  sw_i_false : forall p, sw_pc s p = Sleep1 \/ sw_pc s p = Sleep2 -> sw_cond s = false;
  sw_i_range : forall p, N <= p -> sw_pc s p = Free;
  sw_i_woken : forall p, sw_cond s = true -> sw_pc s p = Sleep3 \/ sw_st s p = SLEEPING ->
    exists w i, (sw_pc s w = Wake i \/ sw_pc s w = WakeL i) /\ i <= p
}.

(** One goal per step: the stepping process's location is put in the facts, and
    updates are decided. *)
Ltac sw_pcs :=
  repeat match goal with
  | H : sw_pc _ _ = _ \/ sw_pc _ _ = _ |- _ => destruct H
  | H : sw_pc ?s ?p = _, H' : context [sw_pc ?s ?p] |- _ =>
      lazymatch H' with H => fail | _ => rewrite H in H' end
  end; simpl in *.
Ltac sw_upd := simpl in *; unfold upd in *; repeat case_decide; subst.

Section Preserve.
Context (s s' : sw).
Hypothesis I : sw_inv s.
Hypothesis St : sw_step s s'.

Lemma step_lk p : holds_lk (sw_pc s' p) = true <-> sw_lk s' = Some p.
Proof.
  pose proof (sw_i_lk s I) as H. pose proof (H p) as Hp.
  destruct St as [? q|? q|? q|? q|? q|? q|? q|? q|? q|? q|? q|? q|? q|? q|? q|? q]; pose proof (H q) as Hq;
  clear H St I; sw_upd; sw_pcs; intuition congruence.
Qed.

Lemma step_pl p : holds_pl (sw_pc s' p) = true -> sw_pl s' p = Some p.
Proof.
  pose proof (sw_i_pl s I) as H. pose proof (H p) as Hp. pose proof (sw_i_wakel s I) as H2.
  destruct St as [? q|? q|? q|? q|? q|? q|? q|? q|? q|? q|? q|? q|? q|? q|? q|? q];
  try pose proof (H2 q) as Hq; clear H H2 St I; sw_upd; sw_pcs; try intuition congruence.
  destruct (Hq _ eq_refl). intuition congruence.
Qed.

Lemma step_wakel w i : sw_pc s' w = WakeL i -> sw_pl s' i = Some w /\ w <> i.
Proof.
  pose proof (sw_i_wakel s I w i) as Hw. pose proof (sw_i_pl s I i) as Hi. pose proof (sw_i_lk s I w) as Hlw.
  pose proof (sw_i_wakel s I) as H2. pose proof (sw_i_lk s I) as H3.
  destruct St as [? q|? q|? q|? q|? q|? q|? q|? q|? q|? q|? q|? q|? q|? q|? q|? q];
  try pose proof (H2 q) as Hq; try pose proof (H3 q) as Hlq;
  clear H2 H3 St I; intros E; sw_upd; sw_pcs; try (rewrite E in *; simpl in *); try intuition congruence.
Qed.

Lemma step_sleeping p :
  sw_st s' p = SLEEPING -> (sw_pc s' p = Sleep4 \/ sw_pc s' p = Off) /\ sw_chan s' p = true.
Proof.
  pose proof (sw_i_sleeping s I p) as Hp.
  destruct St as [? q|? q|? q|? q|? q|? q|? q|? q|? q|? q|? q|? q|? q|? q|? q|? q];
  clear St I; intros E; sw_upd; try (specialize (Hp E) as [[Hp|Hp] Hc]); sw_pcs; try intuition congruence.
Qed.

Lemma step_false p : sw_pc s' p = Sleep1 \/ sw_pc s' p = Sleep2 -> sw_cond s' = false.
Proof.
  pose proof (sw_i_false s I p) as Hp. pose proof (sw_i_lk s I) as H.  pose proof (H p) as Hlp.
  destruct St as [? q|? q|? q|? q|? q|? q|? q|? q|? q|? q|? q|? q|? q|? q|? q|? q];
  pose proof (H q) as Hlq;
  clear H St I; intros [E|E]; sw_upd; try (rewrite E in *; simpl in * ); sw_pcs; try intuition congruence.
Qed.

Lemma step_range p : N <= p -> sw_pc s' p = Free.
Proof.
  pose proof (sw_i_range s I p) as Hp.
  destruct St as [? q|? q|? q|? q|? q|? q|? q|? q|? q|? q|? q|? q|? q|? q|? q|? q];
  clear St I; intros E; specialize (Hp E); sw_upd; sw_pcs; try intuition (congruence || lia).
Qed.

(** A waker that has not passed slot [p] yet. *)
Definition coming (s : sw) (p : nat) : Prop :=
  exists w i, (sw_pc s w = Wake i \/ sw_pc s w = WakeL i) /\ i <= p.

(** A step of a process that is not in [wakeup] keeps the waker. *)
Lemma coming_other q p :
  coming s p -> (forall i, sw_pc s q <> Wake i /\ sw_pc s q <> WakeL i) ->
  (forall w, w <> q -> sw_pc s' w = sw_pc s w) -> coming s' p.
Proof.
  intros (w & i & Hw & Hi) Hq Ho. exists w, i. rewrite Ho; [done|].
  intros ->. destruct (Hq i). tauto.
Qed.

(** Only one process is in [wakeup]: the holder of the lock. *)
Lemma coming_unique q p j :
  sw_pc s q = Wake j \/ sw_pc s q = WakeL j -> coming s p -> j <= p.
Proof.
  intros Hq (w & i & Hw & Hi).
  assert (Hlq : sw_lk s = Some q) by (apply (sw_i_lk s I); destruct Hq as [->| ->]; done).
  assert (Hlw : sw_lk s = Some w) by (apply (sw_i_lk s I); destruct Hw as [->| ->]; done).
  assert (w = q) as -> by congruence. destruct Hq as [Hq|Hq], Hw as [Hw|Hw]; congruence.
Qed.

Definition waiting (s : sw) (p : nat) : Prop := sw_pc s p = Sleep3 \/ sw_st s p = SLEEPING.

Lemma waiting_pc p : waiting s p -> sw_pc s p = Sleep3 \/ sw_pc s p = Sleep4 \/ sw_pc s p = Off.
Proof. intros [?|H]; [by left|]. destruct (sw_i_sleeping s I p H) as [[?|?] _]; auto. Qed.
End Preserve.

Lemma step_woken s s' p :
  sw_inv s -> sw_step s s' -> sw_cond s' = true -> waiting s' p -> coming s' p.
Proof.
  intros I St Hc Hw. pose proof (sw_i_woken s I p) as Hp. fold (coming s p) in Hp. fold (waiting s p) in Hp.
  pose proof (waiting_pc s I p) as Hpc.
  destruct St as [? q|? q|? q|? q|? q|? q|? q|? q|? q|? q|? q|? q|? q i|? q i|? q|? q];
    simpl in Hc; try discriminate Hc.
  10: { exists q, 0. simpl. unfold upd. rewrite decide_True by done. split; [by left|lia]. }
  all: assert (Hold : waiting s p) by
    (clear Hp Hpc; pose proof (sw_i_false s I q) as Hf; unfold waiting in *;
     simpl in Hw; unfold upd in Hw; repeat case_decide; subst; intuition congruence).
  all: specialize (Hp Hc Hold); specialize (Hpc Hold).
  14: exact Hp.
  1-9: apply (coming_other s _ q); [exact Hp| |intros w Hne; simpl; unfold upd; by rewrite ?decide_False];
    clear Hw Hp Hpc Hold; intros j; split; intuition congruence.
  - (* the waker skips itself *)
    pose proof (coming_unique s I q p q (or_introl H) Hp).
    assert (p <> q) by (intros ->; intuition congruence).
    exists q, (S q). simpl. unfold upd. rewrite decide_True by done. split; [by left|lia].
  - pose proof (coming_unique s I q p i (or_introl H) Hp).
    exists q, i. simpl. unfold upd. rewrite decide_True by done. split; [by right|lia].
  - pose proof (coming_unique s I q p i (or_intror H) Hp).
    destruct (sw_i_wakel s I q i H) as [Hpl Hne].
    assert (p <> i).
    { intros ->. unfold waiting in Hw. simpl in Hw. unfold upd in Hw. rewrite decide_False in Hw by done.
      rewrite decide_True in Hw by done. destruct Hw as [Hw|Hw].
      - assert (sw_pl s i = Some i) by (apply (sw_i_pl s I); by rewrite Hw). congruence.
      - case_decide as D; [done|]. apply D. split; [done|]. by apply (sw_i_sleeping s I). }
    exists q, (S i). simpl. unfold upd. rewrite decide_True by done. split; [by left|lia].
  - pose proof (coming_unique s I q p N (or_introl H) Hp).
    rewrite (sw_i_range s I p) in Hpc by done. intuition congruence.
Qed.

Lemma sw_inv_step s s' : sw_inv s -> sw_step s s' -> sw_inv s'.
Proof.
  intros I St. constructor.
  - by eapply step_lk.
  - by eapply step_pl.
  - by eapply step_wakel.
  - by eapply step_sleeping.
  - by eapply step_false.
  - by eapply step_range.
  - intros p Hc Hw. by eapply step_woken.
Qed.

Lemma sw_reach_inv s : sw_reach s -> sw_inv s.
Proof.
  induction 1 as [c|s s' _ IH St]; [|by eapply sw_inv_step].
  constructor; simpl; try done; try (intros; intuition congruence).
Qed.

(** C13: no wakeup is lost.  In every interleaving of any number of processes
    waiting with [sleep] and signalling with [wakeup], cut at every lock
    operation, whenever the condition lock is free and the condition is true, no
    process is asleep on the channel and none is on its way to sleep. *)
Theorem no_lost_wakeup s p :
  sw_reach s -> sw_lk s = None -> sw_cond s = true -> ~ waiting s p.
Proof.
  intros R Hl Hc Hw. pose proof (sw_reach_inv s R) as I.
  destruct (sw_i_woken s I p Hc Hw) as (w & i & Hwk & _).
  assert (sw_lk s = Some w) by (apply (sw_i_lk s I); destruct Hwk as [->| ->]; done). congruence.
Qed.
End Steps.

(** [n] steps back from the end of a run. *)
Ltac sw_back n := lazymatch n with O => idtac | S ?m => eapply sw_next; [sw_back m|] end.

(** Process 0 signals. *)
Lemma no_lost_wakeup_witness : exists s,
  sw_reach 1 s /\ sw_cond s = true /\ sw_lk s = None /\ ~ waiting s 0.
Proof.
  assert (R : exists s, sw_reach 1 s /\ sw_lk s = None /\ sw_cond s = true).
  { eexists. split.
    - sw_back 4. 1: apply (sw_init 1 false).
      + apply (sw_signal_acquire 1 _ 0); [lia|reflexivity|reflexivity].
      + apply (sw_signal 1 _ 0); reflexivity.
      + apply (sw_wake_self 1 _ 0); reflexivity.
      + apply (sw_wake_done 1 _ 0); reflexivity.
    - split; reflexivity. }
  destruct R as (s & R & Hl & Hc). exists s.
  split; [exact R|]. split; [exact Hc|]. split; [exact Hl|].
  exact (no_lost_wakeup 1 s 0 R Hl Hc).
Defined.
