(* ===== verification/Printf.v ===== *)
(** * printf.c and the output half of console.c

    The characters [printf] sends to the uart, and the theorems that a printed
    number denotes the number and fits the buffer of [printint]. *)
From S2P Require Import Prelude State.

Open Scope Z_scope.

(** ** Characters *)
Definition chr (c : Ascii.ascii) : Z := Z.of_nat (Ascii.nat_of_ascii c).
Definition str (s : string) : list Z := map chr (String.list_ascii_of_string s).

(** A newline at the end of a format. *)
Definition nl : string := String (Ascii.ascii_of_nat 10) EmptyString.

Definition BACKSPACE : Z := 256.

(** [uartputc_sync]: waits for the device, then writes the transmit register. *)
Definition uartputc_sync (c : Z) : K unit := modify (fun s => set_k_out (k_out s ++ [uint8 c]) s).

Definition consputc (c : Z) : K unit :=
  if c =? BACKSPACE then
    uartputc_sync 8 ;;; uartputc_sync 32 ;;; uartputc_sync 8
  else uartputc_sync c.

(** ** printint *)
Definition digits : list Z := str "0123456789abcdef".
Definition digit (d : Z) : Z := default 0 (digits !! Z.to_nat d).

(** The [do]/[while] loop: [buf] from index 0 on, least significant digit
    first.  64 turns are enough for a 64-bit number in any base above 1. *)
Fixpoint int_digits (fuel : nat) (x base : Z) : list Z :=
  match fuel with
  | O => []
  | S fuel' =>
      digit (x mod base) :: (if x / base =? 0 then [] else int_digits fuel' (x / base) base)
  end.

(** The contents of [buf] when the output loop starts. *)
Definition printint_buf (xx base : Z) (sign : bool) : list Z :=
  let neg := sign && (xx <? 0) in
  let x := if neg then wrap64 (- xx) else wrap64 xx in
  int_digits 64 x base ++ (if neg then [45] else []).

Definition printint (xx base : Z) (sign : bool) : K unit :=
  for_all (rev (printint_buf xx base sign)) consputc.

Definition printptr (x : Z) : K unit :=
  consputc 48 ;;; consputc 120 ;;;
  for_all (seqZ 0 16) (fun i => consputc (digit (Z.shiftr (wrap64 (Z.shiftl x (4 * i))) 60))).

(** ** printf *)

(** A variadic argument: a number, or the string a pointer refers to (None for
    a null pointer). *)
Inductive arg := AInt (v : Z) | AStr (v : option (list Z)).
Definition arg_int (l : list arg) : Z := match l with AInt v :: _ => v | _ => 0 end.
Definition arg_str (l : list arg) : option (list Z) := match l with AStr v :: _ => v | _ => None end.

(** The conversion at [c0 c1 c2]: what it prints and how many characters of the
    format it takes; None when the format ends. *)
Definition conversion (c0 c1 c2 : Z) (args : list arg) : option (K unit * list arg * nat) :=
  let v := arg_int args in
  let l := 108 in
  if c0 =? 100 then Some (printint (int32 v) 10 true, tail args, 1%nat)
  else if (c0 =? l) && (c1 =? 100) then Some (printint (int64 v) 10 true, tail args, 2%nat)
  else if (c0 =? l) && (c1 =? l) && (c2 =? 100) then Some (printint (int64 v) 10 true, tail args, 3%nat)
  else if c0 =? 117 then Some (printint (uint32 v) 10 false, tail args, 1%nat)
  else if (c0 =? l) && (c1 =? 117) then Some (printint (int64 v) 10 false, tail args, 2%nat)
  else if (c0 =? l) && (c1 =? l) && (c2 =? 117) then Some (printint (int64 v) 10 false, tail args, 3%nat)
  else if c0 =? 120 then Some (printint (uint32 v) 16 false, tail args, 1%nat)
  else if (c0 =? l) && (c1 =? 120) then Some (printint (int64 v) 16 false, tail args, 2%nat)
  else if (c0 =? l) && (c1 =? l) && (c2 =? 120) then Some (printint (int64 v) 16 false, tail args, 3%nat)
  else if c0 =? 112 then Some (printptr (wrap64 v), tail args, 1%nat)
  else if c0 =? 99 then Some (consputc (uint32 v), tail args, 1%nat)
  else if c0 =? 115 then
    Some (for_all (default (str "(null)") (arg_str args)) consputc, tail args, 1%nat)
  else if c0 =? 37 then Some (consputc 37, args, 1%nat)
  else if c0 =? 0 then None
  else Some (consputc 37 ;;; consputc c0, args, 1%nat).

(** The loop over the format; [fmt] has no nul inside, its end is the nul. *)
Fixpoint printf_loop (fuel : nat) (fmt : list Z) (args : list arg) : K unit :=
  match fuel, fmt with
  | O, _ => out_of_fuel
  | S _, [] => skip
  | S fuel', cx :: rest =>
      if negb (cx =? 37) then consputc cx ;;; printf_loop fuel' rest args
      else
        match conversion (nth 0 rest 0) (nth 1 rest 0) (nth 2 rest 0) args with
        | None => skip
        | Some (c, args', n) => c ;;; printf_loop fuel' (drop n rest) args'
        end
  end.

Definition printf (fmt : string) (args : list arg) : K Z :=
  acquire LPr ;;;
  printf_loop (S (length (str fmt))) (str fmt) args ;;;
  release LPr ;;;
  ret 0.

(** ** What a printed number means *)

(** Reading digits back: the position in [digits], and Horner's rule. *)
Definition undigit (c : Z) : Z := if c <=? 57 then c - 48 else c - 87.
Definition horner (base : Z) (l : list Z) : Z := fold_left (fun acc c => acc * base + undigit c) l 0.
Definition parse_int (base : Z) (l : list Z) : Z :=
  match l with
  | 45 :: l' => - horner base l'
  | _ => horner base l
  end.

Lemma undigit_digit d : 0 <= d < 16 -> undigit (digit d) = d /\ 48 <= digit d <= 102.
Proof.
  intros Hd. assert (Hn : (Z.to_nat d < 16)%nat) by lia.
  rewrite <- (Z2Nat.id d) at 2 by lia. unfold digit. revert Hn. generalize (Z.to_nat d). intros n Hn.
  do 16 (destruct n as [|n]; [vm_compute; split; [reflexivity|split; discriminate]|]). lia.
Qed.

Lemma horner_snoc base l c : horner base (l ++ [c]) = horner base l * base + undigit c.
Proof. unfold horner. by rewrite fold_left_app. Qed.

Lemma int_digits_value fuel x base :
  2 <= base <= 16 -> 0 <= x < base ^ Z.of_nat fuel ->
  horner base (rev (int_digits fuel x base)) = x
  /\ Forall (fun c => 48 <= c <= 102) (int_digits fuel x base).
Proof.
  intros Hb. revert x. induction fuel as [|fuel IH]; intros x Hx; simpl int_digits.
  { rewrite Z.pow_0_r in Hx. assert (x = 0) as -> by lia. split; [done|constructor]. }
  rewrite Nat2Z.inj_succ, Z.pow_succ_r in Hx by lia.
  destruct (undigit_digit (x mod base)) as [Hu Hr]; [pose proof (Z.mod_pos_bound x base); lia|].
  destruct (Z.eqb_spec (x / base) 0) as [E|E].
  - simpl. unfold horner. simpl. rewrite Hu. split; [|constructor; [done|constructor]].
    rewrite Z.mod_eq, E by lia. lia.
  - destruct (IH (x / base)) as [IH1 IH2].
    { split; [apply Z.div_pos; lia|]. apply Z.div_lt_upper_bound; lia. }
    simpl. rewrite horner_snoc, IH1, Hu. split; [|by constructor].
    pose proof (Z.div_mod x base). lia.
Qed.

Lemma int_digits_length fuel x base n :
  2 <= base -> 0 <= x < base ^ Z.of_nat (S n) -> (length (int_digits fuel x base) <= S n)%nat.
Proof.
  intros Hb. revert x n. induction fuel as [|fuel IH]; intros x n Hx; simpl; [lia|].
  destruct (Z.eqb_spec (x / base) 0) as [E|E]; simpl; [lia|].
  destruct n as [|n].
  - rewrite Z.pow_1_r in Hx. rewrite Z.div_small in E by lia. done.
  - rewrite Nat2Z.inj_succ, Z.pow_succ_r in Hx by lia. specialize (IH (x / base) n).
    assert (0 <= x / base < base ^ Z.of_nat (S n)).
    { split; [apply Z.div_pos; lia|]. apply Z.div_lt_upper_bound; lia. }
    lia.
Qed.

Lemma consputc_out s c : c <> BACKSPACE -> consputc c s = Ret tt (set_k_out (k_out s ++ [uint8 c]) s).
Proof. intros H. unfold consputc. by destruct (Z.eqb_spec c BACKSPACE). Qed.

Lemma for_all_consputc s l :
  Forall (fun c => 0 <= c < 256) l -> for_all l consputc s = Ret tt (set_k_out (k_out s ++ l) s).
Proof.
  revert s. induction l as [|c l IH]; intros s Hl; simpl.
  { rewrite app_nil_r. by destruct s. }
  apply Forall_cons in Hl as [Hc Hl].
  erewrite bind_ret_eq by (apply consputc_out; unfold BACKSPACE; lia).
  rewrite IH by done. unfold uint8. rewrite Z.mod_small by lia. f_equal. destruct s; simpl.
  unfold set_k_out. simpl. by rewrite <- app_assoc.
Qed.

Lemma horner_no_minus base l : Forall (fun c => 48 <= c <= 102) l -> parse_int base l = horner base l.
Proof.
  destruct l as [|c l]; [done|]. intros [Hc _]%Forall_cons. unfold parse_int.
  destruct (decide (c = 45)); [lia|]. destruct c as [|p|p]; try done.
  do 6 (destruct p as [p|p|]; try done).
Qed.

(** a printed number reads back as the number, and [printint] stays inside
    its 20-byte buffer.  In base 10 and 16, for every 64-bit argument, the
    characters sent to the uart parse back to the argument (to its unsigned
    value when [sign] is not set), and [buf] never needs more than 20 bytes. *)
Theorem printint_roundtrip xx base sign s :
  base = 10 \/ base = 16 -> - 2 ^ 63 <= xx < 2 ^ 63 ->
  (length (printint_buf xx base sign) <= 20)%nat
  /\ exists out, printint xx base sign s = Ret tt (set_k_out (k_out s ++ out) s)
     /\ parse_int base out = (if sign then xx else wrap64 xx).
Proof.
  intros Hb Hx. assert (Hb' : 10 <= base <= 16) by lia.
  assert (H64 : 2 ^ 64 <= base ^ Z.of_nat 20).
  { trans (10 ^ Z.of_nat 20); [vm_compute; discriminate|]. apply Z.pow_le_mono_l. lia. }
  assert (H63 : 2 ^ 63 < base ^ Z.of_nat 19).
  { eapply Z.lt_le_trans; [|apply (Z.pow_le_mono_l 10); lia]. done. }
  assert (Hbig : forall x, 0 <= x < 2 ^ 64 -> x < base ^ Z.of_nat 64).
  { intros x Hx'. eapply Z.lt_le_trans; [apply Hx'|]. etrans; [exact H64|]. apply Z.pow_le_mono_r; lia. }
  unfold printint, printint_buf. destruct (sign && (xx <? 0)) eqn:Es.
  - apply andb_true_iff in Es as [-> Hn%Z.ltb_lt]. rewrite (wrap64_small (- xx)) by lia.
    destruct (int_digits_value 64 (- xx) base) as [Hv Hf]; [lia|split; [lia|apply Hbig; lia]|].
    pose proof (int_digits_length 64 (- xx) base 18) as Hl.
    set (ds := int_digits 64 (- xx) base) in *. clearbody ds.
    split; [rewrite length_app; simpl; lia|].
    rewrite rev_app_distr. eexists. split.
    + apply for_all_consputc. simpl. constructor; [lia|]. apply Forall_rev.
      eapply Forall_impl; [exact Hf|]. simpl. lia.
    + simpl. rewrite Hv. lia.
  - pose proof (wrap64_range xx) as Hw.
    destruct (int_digits_value 64 (wrap64 xx) base) as [Hv Hf]; [lia|split; [lia|apply Hbig; lia]|].
    pose proof (int_digits_length 64 (wrap64 xx) base 19) as Hl. rewrite app_nil_r.
    set (ds := int_digits 64 (wrap64 xx) base) in *. clearbody ds.
    split; [lia|]. eexists. split.
    + apply for_all_consputc. apply Forall_rev. eapply Forall_impl; [exact Hf|]. simpl. lia.
    + rewrite horner_no_minus by (by apply Forall_rev). rewrite Hv.
      destruct sign; [|done]. simpl in Es. apply Z.ltb_ge in Es. apply wrap64_small. lia.
Qed.

Lemma printint_roundtrip_witness : exists out,
  printint (- 2 ^ 63) 10 true (kernel0 (mkSymbols PHYSTOP 0 0 0 0 0))
  = Ret tt (set_k_out out (kernel0 (mkSymbols PHYSTOP 0 0 0 0 0)))
  /\ parse_int 10 out = - 2 ^ 63 /\ length out = 20%nat.
Proof.
  destruct (printint_roundtrip (- 2 ^ 63) 10 true (kernel0 (mkSymbols PHYSTOP 0 0 0 0 0)))
    as [_ (out & E & P)]; [left; reflexivity|lia|].
  exists out. split; [exact E|]. split; [exact P|].
  vm_compute in E. injection E as <-. reflexivity.
Defined.

(** ** printf only prints *)
Definition prints {A} (m : K A) : Prop := forall s, exists a out, m s = Ret a (set_k_out out s).

Lemma prints_ret {A} (a : A) : prints (ret a).
Proof. intros s. exists a, (k_out s). by destruct s. Qed.

Lemma prints_bind {A B} (m : K A) (f : A -> K B) : prints m -> (forall a, prints (f a)) -> prints (bind m f).
Proof.
  intros Hm Hf s. destruct (Hm s) as (a & o1 & E). destruct (Hf a (set_k_out o1 s)) as (b & o2 & E2).
  exists b, o2. erewrite bind_ret_eq by exact E. rewrite E2. by destruct s.
Qed.

Lemma prints_for_all {I} (l : list I) (body : I -> K unit) :
  (forall i, prints (body i)) -> prints (for_all l body).
Proof.
  intros Hb. induction l as [|i l IH]; cbn [for_all]; [apply prints_ret|]. by apply prints_bind.
Qed.

Lemma prints_uartputc c : prints (uartputc_sync c).
Proof. intros s. by eexists tt, _. Qed.

Lemma prints_consputc c : prints (consputc c).
Proof.
  unfold consputc. destruct (c =? BACKSPACE); [|apply prints_uartputc].
  repeat (apply prints_bind; [apply prints_uartputc|intros _]). apply prints_uartputc.
Qed.

Lemma prints_printint xx base sign : prints (printint xx base sign).
Proof. apply prints_for_all, prints_consputc. Qed.
Lemma prints_printptr x : prints (printptr x).
Proof.
  unfold printptr. do 2 (apply prints_bind; [apply prints_consputc|intros _]).
  apply prints_for_all. intros i. apply prints_consputc.
Qed.

Lemma conversion_prints c0 c1 c2 args c args' n :
  conversion c0 c1 c2 args = Some (c, args', n) -> prints c /\ (1 <= n)%nat.
Proof.
  unfold conversion. intros E.
  repeat match type of E with context [if ?b then _ else _] => destruct b end; simplify_eq;
    (split; [|lia]); auto using prints_printint, prints_printptr, prints_consputc, prints_for_all.
  apply prints_bind; [apply prints_consputc|intros _; apply prints_consputc].
Qed.

Lemma prints_printf_loop fuel fmt args : (length fmt < fuel)%nat -> prints (printf_loop fuel fmt args).
Proof.
  revert fmt args. induction fuel as [|fuel IH]; intros fmt args Hl; [lia|].
  destruct fmt as [|cx rest]; cbn [printf_loop]; [apply prints_ret|]. simpl in Hl.
  destruct (negb (cx =? 37)).
  - apply prints_bind; [apply prints_consputc|]. intros _. apply IH. lia.
  - destruct (conversion _ _ _ args) as [[[c args'] n]|] eqn:E; [|apply prints_ret].
    apply conversion_prints in E as [Hc Hn]. apply prints_bind; [done|]. intros _. apply IH.
    rewrite length_drop. lia.
Qed.

Lemma printf_spec fmt args s :
  LPr ∉ k_held s -> exists out, printf fmt args s = Ret 0 (set_k_out out s).
Proof.
  intros Hh. unfold printf. erewrite bind_ret_eq by (by apply acquire_ok).
  destruct (prints_printf_loop (S (length (str fmt))) (str fmt) args ltac:(lia)
    (set_k_held (LPr :: k_held s) s)) as ([] & out & E).
  erewrite bind_ret_eq by exact E. erewrite bind_ret_eq by (by apply release_top).
  exists out. by destruct s.
Qed.

(** Code that prints with [printf] and does nothing else. *)
Definition logs {A} (m : K A) : Prop :=
  forall s, LPr ∉ k_held s -> exists a out, m s = Ret a (set_k_out out s).

Lemma logs_ret {A} (a : A) : logs (ret a).
Proof. intros s _. apply prints_ret. Qed.
Lemma logs_gets {A} (f : kernel -> A) : logs (gets f).
Proof. intros s _. exists (f s), (k_out s). by destruct s. Qed.
Lemma logs_bind {A B} (m : K A) (f : A -> K B) : logs m -> (forall a, logs (f a)) -> logs (bind m f).
Proof.
  intros Hm Hf s Hh. destruct (Hm s Hh) as (a & o1 & E). destruct (Hf a (set_k_out o1 s)) as (b & o2 & E2); [done|].
  exists b, o2. erewrite bind_ret_eq by exact E. rewrite E2. by destruct s.
Qed.
Lemma logs_for_all {I} (l : list I) (body : I -> K unit) :
  (forall i, logs (body i)) -> logs (for_all l body).
Proof. intros Hb. induction l as [|i l IH]; cbn [for_all]; [apply logs_ret|]. by apply logs_bind. Qed.
Lemma logs_printf fmt args : logs (printf fmt args).
Proof. intros s Hh. destruct (printf_spec fmt args s Hh) as (out & E). eauto. Qed.
