(* ===== verification/Ring.v ===== *)
(** * Circular buffers with free-running 32-bit indices

    pipe.c and console.c keep a read and a write index that are only reduced
    modulo the buffer size when the buffer is accessed.  A buffer whose size
    divides 2^32 then holds a queue, also when the indices wrap around. *)
From S2P Require Import Prelude.

Open Scope Z_scope.

Section Ring.
Context (n : Z).

(** The queue between the read index [r] and the write index [w]. *)
Definition ring_at (buf : list Z) (i : Z) : Z := default 0 (buf !! Z.to_nat (i mod n)).
Definition ring_size (r w : Z) : Z := uint32 (w - r).
Definition ring (buf : list Z) (r w : Z) : list Z :=
  (fun i => ring_at buf (r + i)) <$> seqZ 0 (ring_size r w).

Hypothesis Hn : 0 < n.
Hypothesis Hdiv : 2 ^ 32 mod n = 0.

Lemma ring_length buf r w : Z.of_nat (length (ring buf r w)) = ring_size r w.
Proof.
  unfold ring. rewrite length_fmap, length_seqZ. unfold ring_size. pose proof (uint32_range (w - r)). lia.
Qed.

(** Reducing an index modulo 2^32 does not change the slot. *)
Lemma uint32_mod i : uint32 i mod n = i mod n.
Proof.
  unfold uint32. apply Z.mod_divide in Hdiv as [k Hk]; [|lia].
  rewrite (Z.mod_eq i (2 ^ 32)) by lia. rewrite Hk at 1.
  replace (i - k * n * (i / 2 ^ 32)) with (i + (- (k * (i / 2 ^ 32))) * n) by lia.
  apply Z.mod_add. lia.
Qed.

Lemma ring_at_uint32 buf i : ring_at buf (uint32 i) = ring_at buf i.
Proof. unfold ring_at. by rewrite uint32_mod. Qed.

Lemma ring_lookup buf r w i :
  0 <= i < ring_size r w -> ring buf r w !! Z.to_nat i = Some (ring_at buf (r + i)).
Proof.
  intros Hi. unfold ring. rewrite list_lookup_fmap, lookup_seqZ_lt by lia. simpl. do 2 f_equal. lia.
Qed.

Lemma ring_eq buf r w l :
  Z.of_nat (length l) = ring_size r w ->
  (forall i, 0 <= i < ring_size r w -> l !! Z.to_nat i = Some (ring_at buf (r + i))) ->
  ring buf r w = l.
Proof.
  intros Hl H. apply list_eq. intros i.
  destruct (decide (Z.of_nat i < ring_size r w)) as [Hi|Hi].
  - rewrite <- (Nat2Z.id i). rewrite ring_lookup, H by lia. done.
  - rewrite !lookup_ge_None_2; [done|lia|]. pose proof (ring_length buf r w). lia.
Qed.

Lemma ring_size_add r w k :
  0 <= k -> ring_size r w + k < 2 ^ 32 -> ring_size r (uint32 (w + k)) = ring_size r w + k.
Proof.
  intros Hk Hs. unfold ring_size, uint32 in *.
  rewrite Zminus_mod_idemp_l. replace (w + k - r) with ((w - r) + k) by lia.
  rewrite <- (Z.add_mod_idemp_l (w - r)) by lia. rewrite Z.mod_small; [done|].
  pose proof (Z.mod_pos_bound (w - r) (2 ^ 32)). lia.
Qed.

Lemma ring_size_sub r w : 0 < ring_size r w -> ring_size r (uint32 (w - 1)) = ring_size r w - 1.
Proof.
  intros Hs. unfold ring_size, uint32 in *. pose proof (Z.mod_pos_bound (w - r) (2 ^ 32)).
  rewrite Zminus_mod_idemp_l. replace (w - 1 - r) with ((w - r) - 1) by lia.
  rewrite <- (Zminus_mod_idemp_l (w - r)). rewrite Z.mod_small; lia.
Qed.

Lemma ring_size_pop r w : 0 < ring_size r w -> ring_size (uint32 (r + 1)) w = ring_size r w - 1.
Proof.
  intros Hs. unfold ring_size, uint32 in *. pose proof (Z.mod_pos_bound (w - r) (2 ^ 32)).
  rewrite Zminus_mod_idemp_r. replace (w - (r + 1)) with ((w - r) - 1) by lia.
  rewrite <- (Zminus_mod_idemp_l (w - r)). rewrite Z.mod_small; lia.
Qed.

(** The write index is the read index plus the size. *)
Lemma ring_w r w : uint32 w = w -> uint32 (r + ring_size r w) = w.
Proof.
  intros Hw. unfold ring_size, uint32 in *. rewrite Z.add_mod_idemp_r by lia.
  replace (r + (w - r)) with w by lia. done.
Qed.

Lemma ring_at_insert buf c i j :
  Z.of_nat (length buf) = n ->
  ring_at (<[Z.to_nat (i mod n) := c]> buf) j = if decide (i mod n = j mod n) then c else ring_at buf j.
Proof.
  intros Hl. pose proof (Z.mod_pos_bound i n Hn). pose proof (Z.mod_pos_bound j n Hn). unfold ring_at.
  case_decide as E.
  - rewrite <- E, list_lookup_insert_eq by lia. done.
  - rewrite list_lookup_insert_ne by lia. done.
Qed.

(** Adding a byte at the end. *)
Lemma ring_push buf r w c :
  Z.of_nat (length buf) = n -> n < 2 ^ 32 -> uint32 w = w -> ring_size r w < n ->
  ring (<[Z.to_nat (w mod n) := c]> buf) r (uint32 (w + 1)) = ring buf r w ++ [c].
Proof.
  intros Hl Hn32 Hw Hs. pose proof (ring_length buf r w) as Hlen.
  assert (H0 : 0 <= ring_size r w) by apply uint32_range.
  pose proof (ring_size_add r w 1) as Hsz. apply ring_eq.
  - rewrite length_app. simpl. lia.
  - intros i Hi. rewrite Hsz in Hi by lia. rewrite ring_at_insert by done.
    rewrite <- (uint32_mod (r + i)).
    destruct (decide (i = ring_size r w)) as [->|Hne].
    + rewrite ring_w by done. rewrite decide_True by done.
      rewrite lookup_app_r by lia. by replace (Z.to_nat (ring_size r w) - length (ring buf r w))%nat with 0%nat by lia.
    + rewrite lookup_app_l by lia. rewrite decide_False; [apply ring_lookup; lia|].
      rewrite uint32_mod. intros E. apply Hne.
      rewrite <- (ring_w r w Hw) in E. rewrite uint32_mod in E.
      assert ((ring_size r w - i) mod n = 0) as E0.
      { replace (ring_size r w - i) with ((r + ring_size r w) - (r + i)) by lia.
        rewrite Zminus_mod, E, Z.sub_diag. done. }
      rewrite Z.mod_small in E0 by lia. lia.
Qed.

(** Taking the first byte. *)
Lemma ring_pop buf r w :
  0 < ring_size r w -> ring buf r w = ring_at buf r :: ring buf (uint32 (r + 1)) w.
Proof.
  intros Hs. pose proof (ring_size_pop r w Hs) as Hp. pose proof (ring_length buf (uint32 (r + 1)) w).
  apply ring_eq; [simpl; lia|]. intros i Hi. destruct (decide (i = 0)) as [->|].
  - simpl. by rewrite Z.add_0_r.
  - replace (Z.to_nat i) with (S (Z.to_nat (i - 1))) by lia. simpl.
    rewrite ring_lookup by lia. f_equal. rewrite <- (ring_at_uint32 buf (r + i)).
    rewrite <- (ring_at_uint32 buf (uint32 (r + 1) + (i - 1))). f_equal.
    unfold uint32. rewrite Z.add_mod_idemp_l by lia. f_equal. lia.
Qed.

(** Taking the last byte back. *)
Lemma ring_unpush buf r w :
  0 < ring_size r w ->
  ring buf r w = ring buf r (uint32 (w - 1)) ++ [ring_at buf (r + (ring_size r w - 1))].
Proof.
  intros Hs. pose proof (ring_size_sub r w Hs) as Hp. pose proof (ring_length buf r (uint32 (w - 1))).
  apply ring_eq; [rewrite length_app; simpl; lia|]. intros i Hi.
  destruct (decide (i = ring_size r w - 1)) as [->|].
  - rewrite lookup_app_r by lia.
    by replace (Z.to_nat (ring_size r w - 1) - length (ring buf r (uint32 (w - 1))))%nat with 0%nat by lia.
  - rewrite lookup_app_l by lia. apply ring_lookup. lia.
Qed.

Lemma ring_empty buf r : ring buf r r = [].
Proof. unfold ring, ring_size. rewrite Z.sub_diag. done. Qed.

Lemma ring_size_0 r w : uint32 r = r -> uint32 w = w -> ring_size r w = 0 <-> r = w.
Proof.
  intros Hr Hw. split; [|intros ->; unfold ring_size; by rewrite Z.sub_diag].
  intros E. rewrite <- (ring_w r w Hw), E, Z.add_0_r. done.
Qed.
End Ring.
