(* ===== verification/Pipe.v ===== *)
(** * Pipes: pipe.c

    [pipewrite], [piperead] and [pipeclose], and the theorem that a pipe is a
    bounded first-in first-out queue of bytes. *)
From S2P Require Import Prelude State CString Kalloc Vm VmSpec VmFrame Sched Ring.

Open Scope Z_scope.

Definition PIPESIZE : Z := 512.

Definition pipe0 : pipe := mkPipe (replicate (Z.to_nat PIPESIZE) 0) 0 0 0 0.
Definition getpipe (s : kernel) (pi : Z) : pipe := default pipe0 (k_pipes s !! pi).
Definition get_pipe (pi : Z) : K pipe := gets (fun s => getpipe s pi).
Definition mod_pipe (pi : Z) (f : pipe -> pipe) : K unit :=
  modify (fun s => set_k_pipes (<[pi := f (getpipe s pi)]> (k_pipes s)) s).

(** [pi->data[pi->nwrite++ % PIPESIZE] = ch] *)
Definition pipe_put (ch : Z) (p : pipe) : pipe :=
  set_pi_nwrite (uint32 (pi_nwrite p + 1))
    (set_pi_data (<[Z.to_nat (pi_nwrite p mod PIPESIZE) := ch]> (pi_data p)) p).
(** [pi->nread++] *)
Definition pipe_next (p : pipe) : pipe := set_pi_nread (uint32 (pi_nread p + 1)) p.

Definition pipeclose (pi writable : Z) : K unit :=
  acquire (LPipe pi) ;;;
  (if negb (writable =? 0) then
     mod_pipe pi (set_pi_writeopen 0) ;;; wakeup (CPipeR pi)
   else
     mod_pipe pi (set_pi_readopen 0) ;;; wakeup (CPipeW pi)) ;;;
  let* p := get_pipe pi in
  if (pi_readopen p =? 0) && (pi_writeopen p =? 0) then
    release (LPipe pi) ;;;
    modify (fun s => set_k_pipes (delete pi (k_pipes s)) s) ;;;
    kfree pi
  else release (LPipe pi).

(** How the loops of [pipewrite] and [piperead] end: with the lock held, or by
    an early return that has released it. *)
Inductive pipe_exit := Break (i : Z) | Return (r : Z).

Section Fuel.
(** Bound on the turns of a loop that waits. *)
Context (fuel : nat).

Definition pipewrite_turn (pi addr n : Z) (pr : nat) (i : Z) : K (Z + pipe_exit) :=
  if n <=? i then ret (inr (Break i)) else
  let* p := get_pipe pi in
  let* k := (if pi_readopen p =? 0 then ret 1 else killed pr) in
  if negb (k =? 0) then release (LPipe pi) ;;; ret (inr (Return (-1))) else
  if pi_nwrite p =? uint32 (pi_nread p + PIPESIZE) then
    wakeup (CPipeR pi) ;;;
    sleep (CPipeW pi) (LPipe pi) ;;;
    ret (inl i)
  else
    let* pg := get_proc pr in
    let* r := copyin (p_pagetable pg) (wrap64 (addr + i)) 1 in
    let '(e, ch) := r in
    if e =? -1 then ret (inr (Break i)) else
    mod_pipe pi (pipe_put (nth 0 ch 0)) ;;;
    ret (inl (i + 1)).

Definition pipewrite (pi addr n : Z) : K Z :=
  let* pr := this_proc in
  acquire (LPipe pi) ;;;
  let* r := while_loop fuel 0 (pipewrite_turn pi addr n pr) in
  match r with
  | Return v => ret v
  | Break i => wakeup (CPipeR pi) ;;; release (LPipe pi) ;;; ret i
  end.

Definition piperead_wait (pi : Z) (pr : nat) : K bool :=
  while_loop fuel tt (fun _ =>
    let* p := get_pipe pi in
    if (pi_nread p =? pi_nwrite p) && negb (pi_writeopen p =? 0) then
      let* k := killed pr in
      if negb (k =? 0) then release (LPipe pi) ;;; ret (inr false)
      else sleep (CPipeR pi) (LPipe pi) ;;; ret (inl tt)
    else ret (inr true)).

Definition piperead_turn (pi addr n : Z) (pr : nat) (i : Z) : K (Z + Z) :=
  if n <=? i then ret (inr i) else
  let* p := get_pipe pi in
  if pi_nread p =? pi_nwrite p then ret (inr i) else
  let ch := ring_at PIPESIZE (pi_data p) (pi_nread p) in
  let* pg := get_proc pr in
  let* e := copyout (p_pagetable pg) (wrap64 (addr + i)) [ch] in
  if e =? -1 then ret (inr (if i =? 0 then -1 else i)) else
  mod_pipe pi pipe_next ;;;
  ret (inl (i + 1)).

(** The copy loop takes at most [n] turns. *)
Definition piperead (pi addr n : Z) : K Z :=
  let* pr := this_proc in
  acquire (LPipe pi) ;;;
  let* ok := piperead_wait pi pr in
  if negb (ok : bool) then ret (-1) else
  let* i := while_loop (S (Z.to_nat n)) 0 (piperead_turn pi addr n pr) in
  wakeup (CPipeW pi) ;;;
  release (LPipe pi) ;;;
  ret i.
End Fuel.








(** ** The turns of the loops *)

















