(* ===== verification/Console.v ===== *)
(** * Console input and output: console.c, uart.c

    The line discipline of the console, and the interrupt-driven half of the
    uart driver. *)
From S2P Require Import Prelude State CString Kalloc Vm Sched Printf Ring.

Open Scope Z_scope.

Definition INPUT_BUF_SIZE : Z := 128.
(** [C(x)] *)
Definition ctl (x : Z) : Z := x - 64.
Definition newline : Z := 10.

Definition get_cons : K cons := gets k_cons.
Definition mod_cons (f : cons -> cons) : K unit := modify (fun s => set_k_cons (f (k_cons s)) s).

(** ** procdump *)
Definition state_name (st : procstate) : list Z :=
  str match st with
  | UNUSED => "unused" | USED => "used" | SLEEPING => "sleep " | RUNNABLE => "runble"
  | RUNNING => "run   " | ZOMBIE => "zombie"
  end.
Definition procdump : K unit :=
  let* _ := printf nl [] in
  for_all proc_table (fun p =>
    let* pr := get_proc p in
    if decide (p_state pr = UNUSED) then skip else
    let* _ := printf "%d %s %s" [AInt (p_pid pr); AStr (Some (state_name (p_state pr))); AStr (Some (cstr (p_name pr)))] in
    let* _ := printf nl [] in skip).

(** ** consoleintr *)

(** The [while] of control-U takes back the characters after [cons.w]. *)
Definition kill_line : K unit :=
  let* c := get_cons in
  while_loop (S (Z.to_nat (uint32 (c_e c - c_w c)))) tt (fun _ =>
    let* c := get_cons in
    if negb (c_e c =? c_w c) &&
       negb (ring_at INPUT_BUF_SIZE (c_buf c) (uint32 (c_e c - 1)) =? newline) then
      mod_cons (fun c => set_c_e (uint32 (c_e c - 1)) c) ;;;
      consputc BACKSPACE ;;;
      ret (inl tt)
    else ret (inr tt)).

Definition put_char (ch : Z) (c : cons) : cons :=
  set_c_e (uint32 (c_e c + 1)) (set_c_buf (<[Z.to_nat (c_e c mod INPUT_BUF_SIZE) := ch]> (c_buf c)) c).

Definition consoleintr (ch : Z) : K unit :=
  acquire LCons ;;;
  (if ch =? ctl 80 then procdump
   else if ch =? ctl 85 then kill_line
   else if (ch =? ctl 72) || (ch =? 127) then
     let* c := get_cons in
     if negb (c_e c =? c_w c) then
       mod_cons (fun c => set_c_e (uint32 (c_e c - 1)) c) ;;;
       consputc BACKSPACE
     else skip
   else
     let* c := get_cons in
     if negb (ch =? 0) && (uint32 (c_e c - c_r c) <? INPUT_BUF_SIZE) then
       let ch := if ch =? 13 then newline else ch in
       consputc ch ;;;
       mod_cons (put_char ch) ;;;
       let* c := get_cons in
       if (ch =? newline) || (ch =? ctl 68) || (uint32 (c_e c - c_r c) =? INPUT_BUF_SIZE) then
         mod_cons (fun c => set_c_w (c_e c) c) ;;;
         wakeup CCons
       else skip
     else skip) ;;;
  release LCons.

(** ** uart.c *)

(** [uartgetc]: the next byte the device has received, or -1. *)
Definition uartgetc : K Z :=
  let* rx := gets k_rx in
  match rx with
  | [] => ret (-1)
  | c :: rx' => modify (set_k_rx rx') ;;; ret c
  end.

(** [tx_idle] is the LSR_TX_IDLE bit the device shows. *)
Definition uartintr (tx_idle : bool) : K unit :=
  acquire LUart ;;;
  (if tx_idle then modify (set_k_tx_busy 0) ;;; wakeup CUart else skip) ;;;
  release LUart ;;;
  let* rx := gets k_rx in
  while_loop (S (length rx)) tt (fun _ =>
    let* c := uartgetc in
    if c =? -1 then ret (inr tt) else consoleintr c ;;; ret (inl tt)).

Section Fuel.
Context (fuel : nat).

Definition uartwrite (buf : list Z) : K unit :=
  acquire LUart ;;;
  for_all buf (fun b =>
    while_loop fuel tt (fun _ =>
      let* busy := gets k_tx_busy in
      if negb (busy =? 0) then sleep CUart LUart ;;; ret (inl tt) else ret (inr tt)) ;;;
    modify (fun s => set_k_out (k_out s ++ [uint8 b]) s) ;;;
    modify (set_k_tx_busy 1)) ;;;
  release LUart.

(** ** consolewrite, consoleread *)

(** Chunks of 32 bytes. *)
Definition consolewrite (src : source) (n : Z) : K Z :=
  while_loop (S (Z.to_nat n)) (0, src) (fun '(i, src) =>
    if n <=? i then ret (inr i) else
    let nn := Z.min 32 (n - i) in
    let* r := either_copyin src nn in
    let '(e, bytes) := r in
    if e =? -1 then ret (inr i) else
    uartwrite bytes ;;;
    ret (inl (i + nn, source_add src nn))).

(** Waiting for input: false when the process has been killed, and then the
    lock has been released. *)
Definition cons_wait : K bool :=
  while_loop fuel tt (fun _ =>
    let* c := get_cons in
    if c_r c =? c_w c then
      let* p := this_proc in
      let* k := killed p in
      if negb (k =? 0) then release LCons ;;; ret (inr false)
      else sleep CCons LCons ;;; ret (inl tt)
    else ret (inr true)).

Definition consoleread (dst : place) (n : Z) : K Z :=
  let target := uint32 n in
  acquire LCons ;;;
  let* r := while_loop (S (Z.to_nat n)) (dst, n) (fun '(dst, n) =>
    if n <=? 0 then ret (inr (Some n)) else
    let* ok := cons_wait in
    if negb (ok : bool) then ret (inr None) else
    let* cs := get_cons in
    let c := ring_at INPUT_BUF_SIZE (c_buf cs) (c_r cs) in
    mod_cons (fun c => set_c_r (uint32 (c_r c + 1)) c) ;;;
    if c =? ctl 68 then
      (if uint32 n <? target then mod_cons (fun c => set_c_r (uint32 (c_r c - 1)) c) else skip) ;;;
      ret (inr (Some n))
    else
    let* e := either_copyout dst [c] in
    if e =? -1 then ret (inr (Some n)) else
    if c =? newline then ret (inr (Some (n - 1)))
    else ret (inl (place_add dst 1, n - 1))) in
  match r with
  | None => ret (-1)
  | Some n => release LCons ;;; ret (int32 (target - n))
  end.

(** [consoleinit] connects the console to [devsw[CONSOLE]]; no other device has
    functions. *)
Definition CONSOLE : Z := 1.
Definition devsw_read (major : Z) : option (place -> Z -> K Z) :=
  if major =? CONSOLE then Some consoleread else None.
Definition devsw_write (major : Z) : option (source -> Z -> K Z) :=
  if major =? CONSOLE then Some consolewrite else None.
End Fuel.

(** ** The line discipline *)

(** The buffer holds the committed input, then the line being edited. *)
Record cons_wf (c : cons) : Prop := {
  cw_len : length (c_buf c) = Z.to_nat INPUT_BUF_SIZE;
  cw_r : uint32 (c_r c) = c_r c;
  cw_w : uint32 (c_w c) = c_w c;
  cw_e : uint32 (c_e c) = c_e c;
  cw_order : ring_size (c_r c) (c_w c) <= ring_size (c_r c) (c_e c) <= INPUT_BUF_SIZE
}.

Definition pending (c : cons) : list Z := ring INPUT_BUF_SIZE (c_buf c) (c_r c) (c_e c).
Definition ncommitted (c : cons) : nat := Z.to_nat (ring_size (c_r c) (c_w c)).
Definition committed (c : cons) : list Z := take (ncommitted c) (pending c).
Definition editing (c : cons) : list Z := drop (ncommitted c) (pending c).

(** What a typed character does to the committed input and the edited line. *)
Definition line_input (ch : Z) (com ed : list Z) : list Z * list Z :=
  if ch =? ctl 80 then (com, ed)
  else if ch =? ctl 85 then (com, [])
  else if (ch =? ctl 72) || (ch =? 127) then (com, removelast ed)
  else if (ch =? 0) || (INPUT_BUF_SIZE <=? Z.of_nat (length com + length ed)) then (com, ed)
  else
    let ch := if ch =? 13 then newline else ch in
    let ed := ed ++ [ch] in
    if (ch =? newline) || (ch =? ctl 68) || (Z.of_nat (length com + length ed) =? INPUT_BUF_SIZE)
    then (com ++ ed, []) else (com, ed).

Section View.
Context (c : cons).
Hypothesis Hwf : cons_wf c.

Lemma pending_length : Z.of_nat (length (pending c)) = ring_size (c_r c) (c_e c).
Proof. unfold pending. by rewrite ring_length. Qed.

Lemma ncommitted_le : (ncommitted c <= length (pending c))%nat.
Proof.
  pose proof pending_length. destruct Hwf as [_ _ _ _ [Ho _]].
  pose proof (uint32_range (c_w c - c_r c)). unfold ncommitted, ring_size in *. lia.
Qed.

Lemma lengths : Z.of_nat (length (committed c) + length (editing c)) = uint32 (c_e c - c_r c).
Proof.
  change (uint32 (c_e c - c_r c)) with (ring_size (c_r c) (c_e c)). rewrite <- pending_length.
  rewrite <- (take_drop (ncommitted c) (pending c)) at 1. rewrite length_app. done.
Qed.

(** The edited line is empty exactly when the code's test says so. *)
Lemma editing_nil : (c_e c =? c_w c) = true <-> editing c = [].
Proof.
  rewrite Z.eqb_eq. destruct Hwf as [Hl Hr Hw He Ho]. split.
  - intros E. unfold editing, ncommitted. rewrite <- E, <- pending_length, Nat2Z.id. apply drop_all.
  - intros E. assert (length (editing c) = 0%nat) as E0 by (by rewrite E).
    unfold editing in E0. rewrite length_drop in E0.
    pose proof ncommitted_le. pose proof pending_length as Hp. unfold ncommitted in *.
    rewrite <- (ring_w (c_r c) (c_e c)), <- (ring_w (c_r c) (c_w c)) by done. f_equal.
    pose proof (uint32_range (c_w c - c_r c)). unfold ring_size in *. lia.
Qed.

(** Taking one character back from a line that is not empty. *)
Lemma uneat : editing c <> [] ->
  let c' := set_c_e (uint32 (c_e c - 1)) c in
  cons_wf c' /\ committed c' = committed c /\ editing c' = removelast (editing c)
  /\ ring_at INPUT_BUF_SIZE (c_buf c) (uint32 (c_e c - 1)) = List.last (editing c) 0.
Proof.
  intros Hne c'. destruct Hwf as [Hl Hr Hw He Ho].
  pose proof pending_length as Hp. pose proof ncommitted_le as Hle.
  assert (Hlt : (ncommitted c < length (pending c))%nat).
  { destruct (decide (ncommitted c = length (pending c))) as [E|]; [|lia].
    exfalso. apply Hne. unfold editing. rewrite E. apply drop_all. }
  assert (Hpos : 0 < ring_size (c_r c) (c_e c)) by lia.
  pose proof (ring_unpush INPUT_BUF_SIZE (c_buf c) (c_r c) (c_e c) Hpos) as Hu.
  fold (pending c) in Hu. change (ring INPUT_BUF_SIZE (c_buf c) (c_r c) (uint32 (c_e c - 1))) with (pending c') in Hu.
  pose proof (ring_size_sub (c_r c) (c_e c) Hpos) as Hs.
  assert (Hlen : length (pending c) = S (length (pending c'))) by (rewrite Hu, length_app; simpl; lia).
  assert (Hcm : committed c' = committed c).
  { unfold committed. change (ncommitted c') with (ncommitted c). rewrite Hu. rewrite take_app_le by lia. done. }
  assert (Hed : editing c = editing c' ++ [ring_at INPUT_BUF_SIZE (c_buf c) (c_r c + (ring_size (c_r c) (c_e c) - 1))]).
  { unfold editing. change (ncommitted c') with (ncommitted c). rewrite Hu at 1. by rewrite drop_app_le by lia. }
  split_and!.
  - constructor; simpl; try done.
    + unfold uint32. by rewrite Z.mod_mod.
    + rewrite Hs. unfold ncommitted in *. lia.
  - done.
  - rewrite Hed. by rewrite removelast_last.
  - rewrite Hed, last_last.
    rewrite <- (ring_at_uint32 INPUT_BUF_SIZE ltac:(done) ltac:(done) (c_buf c) (c_r c + _)).
    f_equal. rewrite <- (ring_w (c_r c) (c_e c) He) at 1. unfold uint32.
    rewrite Zminus_mod_idemp_l. f_equal. lia.
Qed.

(** Adding a character. *)
Lemma eat ch : uint32 (c_e c - c_r c) < INPUT_BUF_SIZE ->
  let c' := put_char ch c in
  cons_wf c' /\ committed c' = committed c /\ editing c' = editing c ++ [ch].
Proof.
  intros Hlt c'. destruct Hwf as [Hl Hr Hw He Ho]. fold (ring_size (c_r c) (c_e c)) in Hlt.
  pose proof ncommitted_le as Hle.
  assert (Hp : pending c' = pending c ++ [ch]).
  { unfold pending, c', put_char. simpl. apply ring_push; try done. by rewrite Hl. }
  pose proof (ring_size_add (c_r c) (c_e c) 1) as Hs.
  split_and!.
  - constructor; simpl; try done.
    + by rewrite length_insert.
    + unfold uint32. by rewrite Z.mod_mod.
    + rewrite Hs; unfold INPUT_BUF_SIZE in *; lia.
  - unfold committed. change (ncommitted c') with (ncommitted c). rewrite Hp. by rewrite take_app_le.
  - unfold editing. change (ncommitted c') with (ncommitted c). rewrite Hp. by rewrite drop_app_le.
Qed.

(** Committing the line. *)
Lemma commit_line :
  let c' := set_c_w (c_e c) c in
  cons_wf c' /\ committed c' = committed c ++ editing c /\ editing c' = [].
Proof.
  intros c'. destruct Hwf as [Hl Hr Hw He Ho]. pose proof pending_length as Hp.
  assert (Hn : ncommitted c' = length (pending c)).
  { unfold ncommitted, c'. simpl. rewrite <- Hp. lia. }
  split_and!.
  - constructor; simpl; try done. lia.
  - unfold committed at 1. change (pending c') with (pending c). rewrite Hn, firstn_all.
    unfold committed, editing. by rewrite take_drop.
  - unfold editing. change (pending c') with (pending c). rewrite Hn. apply drop_all.
Qed.
End View.

Lemma editing_length c :
  cons_wf c -> uint32 (c_e c - c_w c) = Z.of_nat (length (editing c)).
Proof.
  intros Hwf. pose proof (lengths c) as Hl. pose proof (ncommitted_le c Hwf) as Hle.
  assert (Hc : Z.of_nat (length (committed c)) = uint32 (c_w c - c_r c)).
  { unfold committed. rewrite length_take. unfold ncommitted, ring_size in *.
    pose proof (uint32_range (c_w c - c_r c)). lia. }
  replace (c_e c - c_w c) with ((c_e c - c_r c) - (c_w c - c_r c)) by lia.
  unfold uint32 at 1. rewrite Zminus_mod. fold (uint32 (c_e c - c_r c)) (uint32 (c_w c - c_r c)).
  rewrite <- Hl, <- Hc. rewrite Z.mod_small; [lia|].
  pose proof (uint32_range (c_e c - c_r c)). lia.
Qed.

(** The state with the console and the output replaced. *)
Definition with_cons (c : cons) (out : list Z) (s : kernel) : kernel := set_k_cons c (set_k_out out s).

Lemma kill_line_loop n : forall s,
  cons_wf (k_cons s) -> newline ∉ editing (k_cons s) -> length (editing (k_cons s)) = n ->
  exists c out,
    while_loop (S n) tt (fun _ =>
      let* c := get_cons in
      if negb (c_e c =? c_w c) &&
         negb (ring_at INPUT_BUF_SIZE (c_buf c) (uint32 (c_e c - 1)) =? newline) then
        mod_cons (fun c => set_c_e (uint32 (c_e c - 1)) c) ;;;
        consputc BACKSPACE ;;;
        ret (inl tt)
      else ret (inr tt)) s = Ret tt (with_cons c out s)
    /\ cons_wf c /\ committed c = committed (k_cons s) /\ editing c = [].
Proof.
  induction n as [|n IH]; intros s Hwf Hnl Hlen; cbn [while_loop].
  - apply nil_length_inv in Hlen. exists (k_cons s), (k_out s).
    apply (editing_nil _ Hwf) in Hlen as Hb. split_and!; [|done|done|done].
    erewrite bind_ret_eq; [|erewrite bind_ret_eq by reflexivity; rewrite Hb; reflexivity].
    by destruct s.
  - assert (Hne : editing (k_cons s) <> []) by (intros E; by rewrite E in Hlen).
    destruct (c_e (k_cons s) =? c_w (k_cons s)) eqn:Hb.
    { apply (editing_nil _ Hwf) in Hb. done. }
    destruct (uneat _ Hwf Hne) as (Hwf' & Hcm & Hed & Hlast).
    assert (Hll : List.last (editing (k_cons s)) 0 ∈ editing (k_cons s)).
    { destruct (exists_last Hne) as (l & x & ->). rewrite last_last. set_solver. }
    destruct (Z.eqb_spec (ring_at INPUT_BUF_SIZE (c_buf (k_cons s)) (uint32 (c_e (k_cons s) - 1))) newline) as [E|E].
    { exfalso. apply Hnl. rewrite <- E, Hlast. done. }
    destruct (prints_consputc BACKSPACE (set_k_cons (set_c_e (uint32 (c_e (k_cons s) - 1)) (k_cons s)) s))
      as ([] & out1 & E1).
    erewrite bind_ret_eq; [|].
    2: { erewrite bind_ret_eq by reflexivity. rewrite Hb. apply Z.eqb_neq in E. rewrite E. simpl.
         erewrite bind_ret_eq by reflexivity. erewrite bind_ret_eq by exact E1. reflexivity. }
    cbn beta iota.
    destruct (IH (set_k_out out1 (set_k_cons (set_c_e (uint32 (c_e (k_cons s) - 1)) (k_cons s)) s)))
      as (c & out & E2 & Hwf2 & Hc2 & He2).
    + done.
    + simpl. rewrite Hed. intros H. apply Hnl.
      destruct (exists_last Hne) as (l & x & El). rewrite El in *. rewrite removelast_last in H. set_solver.
    + simpl. rewrite Hed. destruct (exists_last Hne) as (l & x & El). rewrite El in *.
      rewrite removelast_last. rewrite length_app in Hlen. simpl in Hlen. lia.
    + exists c, out. split_and!; [|done| |done].
      * etrans; [exact E2|by destruct s].
      * rewrite Hc2. simpl. done.
Qed.

(** The console part of a state change. *)
Definition cons_step (ch : Z) (s s' : kernel) : Prop :=
  cons_wf (k_cons s') /\ newline ∉ editing (k_cons s')
  /\ (committed (k_cons s'), editing (k_cons s')) = line_input ch (committed (k_cons s)) (editing (k_cons s)).

Lemma logs_procdump : logs procdump.
Proof.
  unfold procdump. apply logs_bind; [apply logs_printf|]. intros _. apply logs_for_all. intros p.
  apply logs_bind; [apply logs_gets|]. intros pr. destruct (decide (p_state pr = UNUSED)); [apply logs_ret|].
  apply logs_bind; [apply logs_printf|]. intros _. apply logs_bind; [apply logs_printf|]. intros _. apply logs_ret.
Qed.


(** Readers asleep on the console are runnable in [s']. *)
Definition readers_woken (s s' : kernel) : Prop :=
  forall p x, k_procs s !! p = Some x -> k_cur s <> Some p ->
  p_state x = SLEEPING -> p_chan x = CCons ->
  exists x', k_procs s' !! p = Some x' /\ p_state x' = RUNNABLE.

(** The processes after a typed character: those asleep on the console are woken when the
    committed input has changed, and nothing happens to any process when it has not. *)
Definition wakes_readers (s s' : kernel) : Prop :=
  (committed (k_cons s') <> committed (k_cons s) -> readers_woken s s' /\ k_procs s' = k_procs (woken CCons s))
  /\ (committed (k_cons s') = committed (k_cons s) -> k_procs s' = k_procs s).

Lemma woken_readers s s1 c out :
  k_procs s1 = k_procs s -> k_cur s1 = k_cur s ->
  readers_woken s (woken CCons (with_cons c out s1)).
Proof.
  intros Ep Ec p x Hp Hcur Hst Hch. unfold woken. simpl. rewrite list_lookup_imap, Ep, Hp. simpl.
  eexists. split; [done|]. unfold wake. rewrite Ec, decide_True; done.
Qed.

(** The character arm of the [switch]. *)
Lemma consoleintr_char ch s :
  0 <= ch < 256 -> cons_wf (k_cons s) -> newline ∉ editing (k_cons s) ->
  ch <> ctl 80 -> ch <> ctl 85 -> ch <> ctl 72 -> ch <> 127 ->
  (forall p, LProc p ∉ k_held s) -> (length (k_procs s) <= Z.to_nat NPROC)%nat ->
  exists s',
  (let* c := get_cons in
   if negb (ch =? 0) && (uint32 (c_e c - c_r c) <? INPUT_BUF_SIZE) then
     let ch := if ch =? 13 then newline else ch in
     consputc ch ;;;
     mod_cons (put_char ch) ;;;
     let* c := get_cons in
     if (ch =? newline) || (ch =? ctl 68) || (uint32 (c_e c - c_r c) =? INPUT_BUF_SIZE) then
       mod_cons (fun c => set_c_w (c_e c) c) ;;;
       wakeup CCons
     else skip
   else skip) s = Ret tt s'
  /\ cons_step ch s s' /\ k_held s' = k_held s
  /\ wakes_readers s s'.
Proof.
  intros Hch Hwf Hnl N1 N2 N3 N4 Hh Hlp. erewrite bind_ret_eq by reflexivity.
  unfold cons_step, line_input.
  apply Z.eqb_neq in N1, N2, N3, N4. rewrite N1, N2, N3, N4. cbn [orb].
  rewrite (lengths (k_cons s)).
  destruct (Z.eqb_spec ch 0) as [->|Hz].
  { exists s. split_and!; try done. }
  simpl negb. cbn [andb orb].
  destruct (Z.ltb_spec (uint32 (c_e (k_cons s) - c_r (k_cons s))) INPUT_BUF_SIZE) as [Hlt|Hge].
  2: { exists s. split_and!; try done. destruct (Z.leb_spec INPUT_BUF_SIZE (uint32 (c_e (k_cons s) - c_r (k_cons s)))); [done|lia]. }
  destruct (Z.leb_spec INPUT_BUF_SIZE (uint32 (c_e (k_cons s) - c_r (k_cons s)))); [lia|].
  cbv zeta. cbn [negb andb]. set (ch' := if ch =? 13 then newline else ch).
  destruct (prints_consputc ch' s) as ([] & out & E). erewrite bind_ret_eq by exact E.
  destruct (eat _ Hwf ch' Hlt) as (Hwf1 & Hc1 & He1).
  set (c1 := put_char ch' (k_cons s)) in *.
  erewrite bind_ret_eq by reflexivity. erewrite bind_ret_eq by reflexivity.
  change (put_char ch' (k_cons (set_k_out out s))) with c1.
  change (k_cons (set_k_cons c1 (set_k_out out s))) with c1.
  rewrite <- (lengths c1), Hc1, He1.
  change (set_k_cons c1 (set_k_out out s)) with (with_cons c1 out s).
  destruct ((ch' =? newline) || (ch' =? ctl 68) ||
    (Z.of_nat (length (committed (k_cons s)) + length (editing (k_cons s) ++ [ch'])) =? INPUT_BUF_SIZE)) eqn:Ec.
  - erewrite bind_ret_eq by reflexivity.
    change (set_k_cons _ (with_cons c1 out s)) with (with_cons (set_c_w (c_e c1) c1) out s).
    destruct (commit_line c1 Hwf1) as (Hwf2 & Hc2 & He2).
    set (c2 := set_c_w (c_e c1) c1) in *. clearbody c2.
    exists (woken CCons (with_cons c2 out s)).
    split; [apply wakeup_spec; done|]. split_and!; try done.
    + simpl. rewrite He2. apply not_elem_of_nil.
    + simpl. by rewrite Hc2, He2, Hc1, He1.
    + split; [intros _; split; [by apply woken_readers|done]|]. cbn. rewrite Hc2, Hc1, He1. intros E'. apply (f_equal length) in E'. rewrite !length_app in E'. cbn in E'. lia.
  - clearbody c1. exists (with_cons c1 out s). split_and!; try done.
    + simpl. rewrite He1. apply orb_false_elim in Ec as [Ec _]. apply orb_false_elim in Ec as [Ec _].
      apply Z.eqb_neq in Ec. set_solver.
    + simpl. by rewrite Hc1, He1.
Qed.

(** C29: the console's line discipline.  For every typed character,
    [consoleintr] does to the circular buffer what the abstract line editor does
    to the committed input and the edited line: control-U drops the line,
    backspace its last character, a full buffer ignores input, and newline,
    control-D or the character that fills the buffer commit the line.  The readers that
    sleep on the console are made runnable when the committed input changes, and no process
    is touched when it does not.  It never panics and releases the lock. *)
Theorem consoleintr_refines ch s :
  0 <= ch < 256 -> cons_wf (k_cons s) -> newline ∉ editing (k_cons s) ->
  LCons ∉ k_held s -> LPr ∉ k_held s -> (forall p, LProc p ∉ k_held s) ->
  (length (k_procs s) <= Z.to_nat NPROC)%nat ->
  exists s', consoleintr ch s = Ret tt s' /\ cons_step ch s s' /\ k_held s' = k_held s
  /\ wakes_readers s s'.
Proof.
  intros Hch Hwf Hnl HC HP Hh Hlp. unfold consoleintr. erewrite bind_ret_eq by (by apply acquire_ok).
  set (s1 := set_k_held (LCons :: k_held s) s).
  assert (Hfin : forall m, (exists s2, m s1 = Ret tt s2 /\ cons_step ch s1 s2 /\ k_held s2 = k_held s1
      /\ wakes_readers s1 s2) ->
    exists s', (m ;;; release LCons) s1 = Ret tt s' /\ cons_step ch s s' /\ k_held s' = k_held s
      /\ wakes_readers s s').
  { intros m (s2 & E & Hst & Hk & Hr). exists (set_k_held (k_held s) s2).
    split; [erewrite bind_ret_eq by exact E; by apply release_top|]. split_and!; try done. }
  apply Hfin. clear Hfin.
  assert (Hsame : forall out, cons_step (ctl 80) s1 (set_k_out out s1)) by (intros; done).
  destruct (Z.eqb_spec ch (ctl 80)) as [->|N1].
  { destruct (logs_procdump s1) as ([] & out & E); [simpl; set_solver|].
    exists (set_k_out out s1). split_and!; try done. }
  destruct (Z.eqb_spec ch (ctl 85)) as [->|N2].
  { destruct (kill_line_loop (length (editing (k_cons s))) s1) as (c & out & E & Hw & Hc & He); try done.
    exists (with_cons c out s1). split_and!; try done.
    - unfold kill_line. erewrite bind_ret_eq by reflexivity. simpl k_cons. rewrite editing_length, Nat2Z.id by done. exact E.
    - unfold cons_step. simpl k_cons. rewrite Hc, He. split_and!; [done|apply not_elem_of_nil|done]. }
  destruct ((ch =? ctl 72) || (ch =? 127)) eqn:E4.
  - erewrite bind_ret_eq by reflexivity. change (k_cons s1) with (k_cons s).
    assert (HL : line_input ch (committed (k_cons s)) (editing (k_cons s))
      = (committed (k_cons s), removelast (editing (k_cons s)))).
    { unfold line_input. apply Z.eqb_neq in N1, N2. by rewrite N1, N2, E4. }
    destruct (c_e (k_cons s) =? c_w (k_cons s)) eqn:Hb.
    + exists s1. split_and!; try done. unfold cons_step. change (k_cons s1) with (k_cons s). rewrite HL.
      apply (editing_nil _ Hwf) in Hb. rewrite Hb. split_and!; [done|apply not_elem_of_nil|done].
    + assert (Hne : editing (k_cons s) <> []) by (intros E; apply (editing_nil _ Hwf) in E; congruence).
      destruct (uneat _ Hwf Hne) as (Hwf' & Hcm & Hed & _).
      cbn [negb]. erewrite bind_ret_eq by reflexivity.
      destruct (prints_consputc BACKSPACE (set_k_cons (set_c_e (uint32 (c_e (k_cons s) - 1)) (k_cons s)) s1))
        as ([] & out & E).
      eexists. split; [exact E|]. split_and!; try done.
      * unfold cons_step. change (k_cons s1) with (k_cons s). simpl k_cons. rewrite HL, Hcm, Hed. split_and!; [done| |done].
        intros H. apply Hnl. destruct (exists_last Hne) as (l & x & El).
        rewrite El in *. rewrite removelast_last in H. set_solver.
  - apply orb_false_elim in E4 as [N3 N4]. apply Z.eqb_neq in N3, N4.
    apply consoleintr_char; try done. intros p. simpl. rewrite not_elem_of_cons. split; [done|apply Hh].
Qed.

Lemma consoleintr_refines_witness : exists s',
  consoleintr 65 (kernel0 (mkSymbols PHYSTOP 0 0 0 0 0)) = Ret tt s'
  /\ editing (k_cons s') = [65] /\ committed (k_cons s') = [].
Proof.
  destruct (consoleintr_refines 65 (kernel0 (mkSymbols PHYSTOP 0 0 0 0 0))) as (s' & E & (_ & _ & H) & _).
  - lia.
  - constructor; vm_compute; try reflexivity; split; discriminate.
  - apply not_elem_of_nil.
  - apply not_elem_of_nil.
  - apply not_elem_of_nil.
  - intros p. apply not_elem_of_nil.
  - vm_compute. lia.
  - exists s'. split; [exact E|]. change (line_input _ _ _) with ([] : list Z, [65]) in H.
    injection H as H1 H2. split; assumption.
Defined.
