(* ===== verification/Bytes.v ===== *)
(** * Structures inside a block: little-endian fields of a byte list *)
From S2P Require Import Prelude.

Open Scope Z_scope.

Definition byte_at (l : list Z) (i : Z) : Z := default 0 (l !! Z.to_nat i).

(** [n] bytes of [l] from offset [off], and replacing bytes from offset [off]. *)
Definition slice (l : list Z) (off n : Z) : list Z := take (Z.to_nat n) (drop (Z.to_nat off) l).
Definition splice (l : list Z) (off : Z) (bs : list Z) : list Z :=
  take (Z.to_nat off) l ++ bs ++ drop (Z.to_nat off + length bs) l.

(** Little-endian encoding. *)
Fixpoint enc (n : nat) (v : Z) : list Z :=
  match n with
  | O => []
  | S n' => v mod 256 :: enc n' (v / 256)
  end.
Fixpoint dec (l : list Z) : Z :=
  match l with
  | [] => 0
  | b :: l' => b + 256 * dec l'
  end.

Definition ld (n : Z) (l : list Z) (off : Z) : Z := dec (slice l off n).
Definition st (n : Z) (l : list Z) (off v : Z) : list Z := splice l off (enc (Z.to_nat n) v).

(** The fields the code uses. *)
Definition ld16 (l : list Z) (off : Z) : Z := ld 2 l off.
Definition ld32 (l : list Z) (off : Z) : Z := ld 4 l off.
Definition ld64 (l : list Z) (off : Z) : Z := ld 8 l off.
Definition st16 (l : list Z) (off v : Z) : list Z := st 2 l off v.
Definition st32 (l : list Z) (off v : Z) : list Z := st 4 l off v.

Lemma enc_length n v : length (enc n v) = n.
Proof. revert v. induction n as [|n IH]; intros v; simpl; [done|]. by rewrite IH. Qed.

Lemma dec_enc n v : dec (enc n v) = v mod 256 ^ Z.of_nat n.
Proof.
  revert v. induction n as [|n IH]; intros v; simpl.
  { by rewrite Z.mod_1_r. }
  rewrite IH, Nat2Z.inj_succ, Z.pow_succ_r by lia.
  pose proof (Z.pow_pos_nonneg 256 (Z.of_nat n)). rewrite Z.rem_mul_r by lia. done.
Qed.

Lemma enc_bytes n v : Forall (fun b => 0 <= b < 256) (enc n v).
Proof.
  revert v. induction n as [|n IH]; intros v; simpl; constructor; [|apply IH]. apply Z.mod_pos_bound. lia.
Qed.

Lemma splice_length l off bs :
  (Z.to_nat off + length bs <= length l)%nat -> length (splice l off bs) = length l.
Proof. intros H. unfold splice. rewrite !length_app, length_take, length_drop. lia. Qed.

Lemma slice_length l off n :
  0 <= off -> 0 <= n -> off + n <= Z.of_nat (length l) -> length (slice l off n) = Z.to_nat n.
Proof. intros. unfold slice. rewrite length_take, length_drop. lia. Qed.

Lemma slice_splice_eq l off bs n :
  0 <= off -> n = Z.of_nat (length bs) -> off + n <= Z.of_nat (length l) -> slice (splice l off bs) off n = bs.
Proof.
  intros Ho -> Hl. unfold slice, splice.
  rewrite drop_app_length' by (rewrite length_take; lia). rewrite Nat2Z.id. by rewrite take_app_length.
Qed.

Lemma splice_lookup l off bs i :
  0 <= off -> off + Z.of_nat (length bs) <= Z.of_nat (length l) ->
  splice l off bs !! i =
  if decide (Z.to_nat off <= i < Z.to_nat off + length bs)%nat then bs !! (i - Z.to_nat off)%nat else l !! i.
Proof.
  intros Ho Hl. unfold splice. case_decide as D.
  - rewrite lookup_app_r by (rewrite length_take; lia). rewrite length_take.
    rewrite lookup_app_l by lia. f_equal. lia.
  - destruct (decide (i < Z.to_nat off)%nat).
    + rewrite lookup_app_l by (rewrite length_take; lia). by rewrite lookup_take_lt.
    + rewrite lookup_app_r by (rewrite length_take; lia). rewrite length_take.
      rewrite lookup_app_r by lia. rewrite lookup_drop. f_equal. lia.
Qed.

Lemma slice_lookup l off n i :
  0 <= off -> slice l off n !! i = if decide (i < Z.to_nat n)%nat then l !! (Z.to_nat off + i)%nat else None.
Proof.
  intros Ho. unfold slice. case_decide.
  - rewrite lookup_take_lt by lia. by rewrite lookup_drop.
  - rewrite lookup_take_ge by lia. done.
Qed.

(** Disjoint fields do not disturb each other. *)
Lemma slice_splice_ne l off bs off' n :
  0 <= off -> 0 <= off' -> off + Z.of_nat (length bs) <= Z.of_nat (length l) ->
  off' + n <= off \/ off + Z.of_nat (length bs) <= off' ->
  slice (splice l off bs) off' n = slice l off' n.
Proof.
  intros H1 H2 H3 H4. apply list_eq. intros i. rewrite !slice_lookup by done.
  case_decide; [|done]. rewrite splice_lookup by done. rewrite decide_False; [done|]. lia.
Qed.

Lemma st_length n l off v :
  0 <= off -> 0 <= n -> off + n <= Z.of_nat (length l) -> length (st n l off v) = length l.
Proof. intros. unfold st. apply splice_length. rewrite enc_length. lia. Qed.

Lemma ld_st_eq n l off v :
  0 <= off -> 0 <= n -> off + n <= Z.of_nat (length l) -> ld n (st n l off v) off = v mod 256 ^ n.
Proof.
  intros. unfold ld, st. rewrite slice_splice_eq by (rewrite ?enc_length; lia).
  rewrite dec_enc. f_equal. f_equal. lia.
Qed.

Lemma ld_st_ne n n' l off off' v :
  0 <= off -> 0 <= off' -> 0 <= n -> off + n <= Z.of_nat (length l) ->
  off' + n' <= off \/ off + n <= off' -> ld n' (st n l off v) off' = ld n' l off'.
Proof.
  intros. unfold ld, st. rewrite slice_splice_ne; [done|done|done|rewrite enc_length; lia..].
Qed.

Lemma byte_at_insert l i v j : 0 <= i < Z.of_nat (length l) -> 0 <= j -> byte_at (<[Z.to_nat i := v]> l) j = if j =? i then v else byte_at l j.
Proof.
  intros Hi Hj. unfold byte_at. destruct (Z.eqb_spec j i) as [->|]; [by rewrite list_lookup_insert_eq by lia|by rewrite list_lookup_insert_ne by lia].
Qed.

(** ** Bits of a bitmap *)
Definition bit (buf : list Z) (b : Z) : bool := Z.testbit (byte_at buf (b / 8)) (b mod 8).

Lemma set_bit_spec buf i b : 0 <= i -> i / 8 < Z.of_nat (length buf) -> 0 <= b ->
  bit (<[Z.to_nat (i / 8) := uint8 (Z.lor (byte_at buf (i / 8)) (Z.shiftl 1 (i mod 8)))]> buf) b = bit buf b || (b =? i).
Proof.
  intros Hi Hl Hb. unfold bit. rewrite byte_at_insert by dlia. destruct (Z.eqb_spec (b / 8) (i / 8)) as [E|E].
  - unfold uint8. change 256 with (2 ^ 8). rewrite Z.mod_pow2_bits_low by dlia. rewrite Z.lor_spec, E. f_equal. rewrite Z.shiftl_spec by dlia.
    destruct (Z.eqb_spec b i) as [->|Hne]; [by rewrite Z.sub_diag|]. destruct (Z.ltb_spec (b mod 8) (i mod 8)); [by rewrite Z.testbit_neg_r by lia|].
    change 1 with (2 ^ 0). apply Z.pow2_bits_false. dlia.
  - rewrite (proj2 (Z.eqb_neq b i)); [by rewrite orb_false_r|]. by intros ->.
Qed.

(** The test of a bit by its mask. *)
Lemma bit_mask buf b : Z.land (byte_at buf (b / 8)) (Z.shiftl 1 (b mod 8)) = 0 <-> bit buf b = false.
Proof.
  unfold bit. pose proof (Z.mod_pos_bound b 8 ltac:(lia)) as Hr. rewrite Z.shiftl_1_l. split.
  - intros H. assert (Z.testbit (Z.land (byte_at buf (b / 8)) (2 ^ (b mod 8))) (b mod 8) = false) as E by (rewrite H; apply Z.testbit_0_l).
    rewrite Z.land_spec, Z.pow2_bits_true, andb_true_r in E by lia. done.
  - intros H. apply Z.bits_inj'. intros k Hk. rewrite Z.land_spec, Z.testbit_0_l. destruct (Z.eqb_spec k (b mod 8)) as [->|Hne]; [by rewrite H|].
    rewrite Z.pow2_bits_false by lia. apply andb_false_r.
Qed.

Lemma reset_bit_spec buf i b : 0 <= i -> i / 8 < Z.of_nat (length buf) -> 0 <= b ->
  bit (<[Z.to_nat (i / 8) := uint8 (Z.land (byte_at buf (i / 8)) (Z.lnot (Z.shiftl 1 (i mod 8))))]> buf) b = bit buf b && negb (b =? i).
Proof.
  intros Hi Hl Hb. unfold bit. rewrite byte_at_insert by dlia. destruct (Z.eqb_spec (b / 8) (i / 8)) as [E|E].
  - unfold uint8. change 256 with (2 ^ 8). rewrite Z.mod_pow2_bits_low by dlia. rewrite Z.land_spec, Z.lnot_spec, E by dlia. f_equal. f_equal. rewrite Z.shiftl_1_l.
    destruct (Z.eqb_spec b i) as [->|Hne]; [apply Z.pow2_bits_true; dlia|]. apply Z.pow2_bits_false. dlia.
  - rewrite (proj2 (Z.eqb_neq b i)); [by rewrite andb_true_r|]. by intros ->.
Qed.
