(* ===== verification/Virtio.v ===== *)
(** * The disk driver: virtio_disk.c

    The driver shares descriptors and two rings with the device.  Its code runs
    under vdisk_lock, which it gives up only where it sleeps, so a call of
    virtio_disk_rw is a sequence of segments; a thread's state says which segment
    it runs next.  The interrupt handler and the device run between them. *)
From stdpp Require Import functions.
From S2P Require Import Prelude State Bytes.

Open Scope Z_scope.

(** ** virtio.h *)
Definition VIRTIO_MMIO_MAGIC_VALUE : Z := 0x000.
Definition VIRTIO_MMIO_VERSION : Z := 0x004.
Definition VIRTIO_MMIO_DEVICE_ID : Z := 0x008.
Definition VIRTIO_MMIO_VENDOR_ID : Z := 0x00c.
Definition VIRTIO_MMIO_DEVICE_FEATURES : Z := 0x010.
Definition VIRTIO_MMIO_DRIVER_FEATURES : Z := 0x020.
Definition VIRTIO_MMIO_QUEUE_SEL : Z := 0x030.
Definition VIRTIO_MMIO_QUEUE_NUM_MAX : Z := 0x034.
Definition VIRTIO_MMIO_QUEUE_NUM : Z := 0x038.
Definition VIRTIO_MMIO_QUEUE_READY : Z := 0x044.
Definition VIRTIO_MMIO_QUEUE_NOTIFY : Z := 0x050.
Definition VIRTIO_MMIO_INTERRUPT_ACK : Z := 0x064.
Definition VIRTIO_MMIO_STATUS : Z := 0x070.
Definition VIRTIO_MMIO_QUEUE_DESC_LOW : Z := 0x080.
Definition VIRTIO_MMIO_QUEUE_DESC_HIGH : Z := 0x084.
Definition VIRTIO_MMIO_DRIVER_DESC_LOW : Z := 0x090.
Definition VIRTIO_MMIO_DRIVER_DESC_HIGH : Z := 0x094.
Definition VIRTIO_MMIO_DEVICE_DESC_LOW : Z := 0x0a0.
Definition VIRTIO_MMIO_DEVICE_DESC_HIGH : Z := 0x0a4.
Definition VIRTIO_CONFIG_S_ACKNOWLEDGE : Z := 1.
Definition VIRTIO_CONFIG_S_DRIVER : Z := 2.
Definition VIRTIO_CONFIG_S_DRIVER_OK : Z := 4.
Definition VIRTIO_CONFIG_S_FEATURES_OK : Z := 8.
Definition VIRTIO_BLK_F_RO : Z := 5.
Definition VIRTIO_BLK_F_SCSI : Z := 7.
Definition VIRTIO_BLK_F_CONFIG_WCE : Z := 11.
Definition VIRTIO_BLK_F_MQ : Z := 12.
Definition VIRTIO_F_ANY_LAYOUT : Z := 27.
Definition VIRTIO_RING_F_INDIRECT_DESC : Z := 28.
Definition VIRTIO_RING_F_EVENT_IDX : Z := 29.
Definition NUM : Z := 8.
Definition VRING_DESC_F_NEXT : Z := 1.
Definition VRING_DESC_F_WRITE : Z := 2.
Definition VIRTIO_BLK_T_IN : Z := 0.
Definition VIRTIO_BLK_T_OUT : Z := 1.

(** The addresses the driver gives to the device: a request header
    [disk.ops[i]], the data of a buffer, a status byte [disk.info[i].status]. *)
Inductive dma := DNull | DOps (i : Z) | DData (b : nat) | DStatus (i : Z).

Record virtq_desc := mkDesc { d_addr : dma; d_len : Z; d_flags : Z; d_next : Z }.
Record virtq_avail := mkAvail { av_idx : Z; av_ring : list Z }.
Record virtq_used_elem := mkUsedElem { ue_id : Z; ue_len : Z }.
Record virtq_used := mkUsed { us_idx : Z; us_ring : list virtq_used_elem }.
Record virtio_blk_req := mkBlkReq { rq_type : Z; rq_reserved : Z; rq_sector : Z }.

(** ** The state *)

(** [disk.info[i]] *)
Record disk_info := mkDiskInfo { in_b : option nat; in_status : Z }.

(** [struct disk] *)
Record disk := mkDisk {
  dk_desc : list virtq_desc;
  dk_avail : virtq_avail;
  dk_used : virtq_used;
  dk_free : list Z;
  dk_used_idx : Z;
  dk_info : list disk_info;
  dk_ops : list virtio_blk_req }.

(** The fields of [struct buf] the driver uses. *)
Record dbuf := mkDbuf { db_blockno : Z; db_disk : Z; db_data : list Z }.

(** Where a thread is in virtio_disk_rw(b, write): before the loop that allocates
    descriptors, asleep on [&disk.free[0]], about to increment [avail->idx],
    before the test of [b->disk], asleep on [b]. *)
Inductive rw_pc :=
  | Idle
  | Alloc (b : nat) (write : bool)
  | SleepFree (b : nat) (write : bool)
  | Publish (b : nat) (write : bool) (idx : list Z)
  | Wait (b : nat) (write : bool) (idx : list Z)
  | SleepBuf (b : nat) (write : bool) (idx : list Z).

(** The driver, the threads that call it, whether the interrupt handler is in its
    loop, the buffers, and of the device the disk, how far it has read the avail
    ring, the chains it is working on, the index of the avail ring when it was
    last notified and its interrupt status register. *)
Record vstate := mkV {
  v_disk : disk;
  v_bufs : nat -> dbuf;
  v_thr : list rw_pc;
  v_intr : bool;
  v_sectors : Z -> list Z;
  v_fetched : Z;
  v_taken : list Z;
  v_notified : Z;
  v_irq : Z }.

Definition set_disk (f : disk -> disk) (s : vstate) : vstate :=
  mkV (f (v_disk s)) (v_bufs s) (v_thr s) (v_intr s) (v_sectors s) (v_fetched s) (v_taken s) (v_notified s) (v_irq s).
Definition set_bufs (f : (nat -> dbuf) -> nat -> dbuf) (s : vstate) : vstate :=
  mkV (v_disk s) (f (v_bufs s)) (v_thr s) (v_intr s) (v_sectors s) (v_fetched s) (v_taken s) (v_notified s) (v_irq s).
Definition set_thr (f : list rw_pc -> list rw_pc) (s : vstate) : vstate :=
  mkV (v_disk s) (v_bufs s) (f (v_thr s)) (v_intr s) (v_sectors s) (v_fetched s) (v_taken s) (v_notified s) (v_irq s).
Definition set_intr (i : bool) (s : vstate) : vstate :=
  mkV (v_disk s) (v_bufs s) (v_thr s) i (v_sectors s) (v_fetched s) (v_taken s) (v_notified s) (v_irq s).

Definition set_notified (i : Z) (s : vstate) : vstate :=
  mkV (v_disk s) (v_bufs s) (v_thr s) (v_intr s) (v_sectors s) (v_fetched s) (v_taken s) i (v_irq s).
Definition set_irq (i : Z) (s : vstate) : vstate :=
  mkV (v_disk s) (v_bufs s) (v_thr s) (v_intr s) (v_sectors s) (v_fetched s) (v_taken s) (v_notified s) i.

Definition set_desc (f : list virtq_desc -> list virtq_desc) (d : disk) : disk :=
  mkDisk (f (dk_desc d)) (dk_avail d) (dk_used d) (dk_free d) (dk_used_idx d) (dk_info d) (dk_ops d).
Definition set_avail (f : virtq_avail -> virtq_avail) (d : disk) : disk :=
  mkDisk (dk_desc d) (f (dk_avail d)) (dk_used d) (dk_free d) (dk_used_idx d) (dk_info d) (dk_ops d).
Definition set_used (f : virtq_used -> virtq_used) (d : disk) : disk :=
  mkDisk (dk_desc d) (dk_avail d) (f (dk_used d)) (dk_free d) (dk_used_idx d) (dk_info d) (dk_ops d).
Definition set_free (f : list Z -> list Z) (d : disk) : disk :=
  mkDisk (dk_desc d) (dk_avail d) (dk_used d) (f (dk_free d)) (dk_used_idx d) (dk_info d) (dk_ops d).
Definition set_used_idx (i : Z) (d : disk) : disk :=
  mkDisk (dk_desc d) (dk_avail d) (dk_used d) (dk_free d) i (dk_info d) (dk_ops d).
Definition set_info (f : list disk_info -> list disk_info) (d : disk) : disk :=
  mkDisk (dk_desc d) (dk_avail d) (dk_used d) (dk_free d) (dk_used_idx d) (f (dk_info d)) (dk_ops d).
Definition set_ops (f : list virtio_blk_req -> list virtio_blk_req) (d : disk) : disk :=
  mkDisk (dk_desc d) (dk_avail d) (dk_used d) (dk_free d) (dk_used_idx d) (dk_info d) (f (dk_ops d)).

Definition desc0 : virtq_desc := mkDesc DNull 0 0 0.
Definition info0 : disk_info := mkDiskInfo None 0.
Definition req0 : virtio_blk_req := mkBlkReq 0 0 0.

(** [a[i]] and [a[i] = v] for the arrays of NUM elements. *)
Definition elt {A} (d : A) (l : list A) (i : Z) : A := default d (l !! Z.to_nat i).
Definition put {A} (i : Z) (v : A) (l : list A) : list A := <[Z.to_nat i := v]> l.

Definition get_desc (s : vstate) (i : Z) : virtq_desc := elt desc0 (dk_desc (v_disk s)) i.
Definition get_info (s : vstate) (i : Z) : disk_info := elt info0 (dk_info (v_disk s)) i.
Definition get_op (s : vstate) (i : Z) : virtio_blk_req := elt req0 (dk_ops (v_disk s)) i.
Definition is_free (s : vstate) (i : Z) : Z := elt 0 (dk_free (v_disk s)) i.

Notation V A := (M vstate A).

(** Writes to two of the device registers: the number of a queue that has new
    entries, and the bits of the interrupt status that the driver has seen. *)
Definition write_reg (r v : Z) : V unit :=
  modify (fun s =>
    if r =? VIRTIO_MMIO_QUEUE_NOTIFY then set_notified (av_idx (dk_avail (v_disk s))) s
    else if r =? VIRTIO_MMIO_INTERRUPT_ACK then set_irq (Z.ldiff (v_irq s) v) s
    else s).

(** ** Descriptors *)

(** wakeup(&disk.free[0]) and wakeup(b). *)
Definition wake_free (p : rw_pc) : rw_pc := match p with SleepFree b w => Alloc b w | _ => p end.
Definition wake_buf (b : nat) (p : rw_pc) : rw_pc :=
  match p with SleepBuf b' w idx => if decide (b' = b) then Wait b' w idx else p | _ => p end.

Definition alloc_desc : V Z :=
  let* r := for_each (seqZ 0 NUM) (fun i =>
    let* f := gets (fun s => is_free s i) in
    if negb (f =? 0) then
      modify (set_disk (set_free (put i 0))) ;;;
      ret (Some i)
    else ret None) in
  ret (default (-1) r).

Definition free_desc (i : Z) : V unit :=
  if NUM <=? i then panic "free_desc 1" else
  let* f := gets (fun s => is_free s i) in
  if negb (f =? 0) then panic "free_desc 2" else
  modify (set_disk (set_desc (put i desc0))) ;;;
  modify (set_disk (set_free (put i 1))) ;;;
  modify (set_thr (map wake_free)).

(** Each turn frees one of the NUM descriptors, and freeing one twice panics. *)
Definition free_chain (i : Z) : V unit :=
  while_loop (S (Z.to_nat NUM)) i (fun i =>
    let* d := gets (fun s => get_desc s i) in
    free_desc i ;;;
    if negb (Z.land (d_flags d) VRING_DESC_F_NEXT =? 0) then ret (inl (d_next d)) else ret (inr tt)).

(** The loop of alloc3_desc, [got] being idx[0 .. i-1]. *)
Fixpoint alloc_loop (n : nat) (got : list Z) : V (option (list Z)) :=
  match n with
  | O => ret (Some got)
  | S n' =>
      let* i := alloc_desc in
      if i <? 0 then for_all got free_desc ;;; ret None
      else alloc_loop n' (got ++ [i])
  end.
Definition alloc3_desc : V (option (list Z)) := alloc_loop 3 [].

(** ** virtio_disk_rw *)
Definition idx_at (idx : list Z) (k : nat) : Z := default 0 (idx !! k).

(** The three descriptors, the request header and [disk.info]. *)
Definition rw_format (b : nat) (write : bool) (idx : list Z) : V unit :=
  let i0 := idx_at idx 0 in let i1 := idx_at idx 1 in let i2 := idx_at idx 2 in
  let* v := gets (fun s => v_bufs s b) in
  let sector := uint32 (db_blockno v * (BSIZE / 512)) in
  modify (set_disk (set_ops (put i0 (mkBlkReq (if write then VIRTIO_BLK_T_OUT else VIRTIO_BLK_T_IN) 0 sector)))) ;;;
  modify (set_disk (set_desc (put i0 (mkDesc (DOps i0) 16 VRING_DESC_F_NEXT i1)))) ;;;
  modify (set_disk (set_desc (put i1 (mkDesc (DData b) BSIZE
    (Z.lor (if write then 0 else VRING_DESC_F_WRITE) VRING_DESC_F_NEXT) i2)))) ;;;
  modify (set_disk (set_info (fun l => put i0 (mkDiskInfo (in_b (elt info0 l i0)) 255) l))) ;;;
  modify (set_disk (set_desc (put i2 (mkDesc (DStatus i0) 1 VRING_DESC_F_WRITE 0)))) ;;;
  modify (set_bufs (fun f => <[b := mkDbuf (db_blockno (f b)) 1 (db_data (f b))]> f)) ;;;
  modify (set_disk (set_info (fun l => put i0 (mkDiskInfo (Some b) (in_status (elt info0 l i0))) l))).

Definition set_pc (t : nat) (p : rw_pc) : V unit := modify (set_thr (insert t p)).

(** From the call, or from a wakeup, to the barrier before [avail->idx += 1], or
    to the sleep for descriptors. *)
Definition rw_alloc (t b : nat) (write : bool) : V unit :=
  let* r := alloc3_desc in
  match r with
  | None => set_pc t (SleepFree b write)
  | Some idx =>
      rw_format b write idx ;;;
      modify (set_disk (set_avail (fun a => mkAvail (av_idx a) (put (av_idx a mod NUM) (idx_at idx 0) (av_ring a))))) ;;;
      set_pc t (Publish b write idx)
  end.

Definition rw_publish (t b : nat) (write : bool) (idx : list Z) : V unit :=
  modify (set_disk (set_avail (fun a => mkAvail (uint16 (av_idx a + 1)) (av_ring a)))) ;;;
  write_reg VIRTIO_MMIO_QUEUE_NOTIFY 0 ;;;
  set_pc t (Wait b write idx).

(** The test of [b->disk], and what follows the loop. *)
Definition rw_wait (t b : nat) (write : bool) (idx : list Z) : V unit :=
  let* v := gets (fun s => v_bufs s b) in
  if db_disk v =? 1 then set_pc t (SleepBuf b write idx)
  else
    modify (set_disk (set_info (fun l => put (idx_at idx 0) (mkDiskInfo None (in_status (elt info0 l (idx_at idx 0)))) l))) ;;;
    free_chain (idx_at idx 0) ;;;
    set_pc t Idle.

(** ** virtio_disk_intr *)

(** From the lock to the loop: the bits of the interrupt status register are read and
    acknowledged. *)
Definition intr_enter : V unit :=
  let* status := gets v_irq in
  write_reg VIRTIO_MMIO_INTERRUPT_ACK (Z.land status 3) ;;;
  modify (set_intr true).

(** One turn of its loop; it leaves the loop and the lock when it has seen every
    used entry.  A null [b] is a page fault in the kernel. *)
Definition intr_turn : V unit :=
  let* s := get in
  let d := v_disk s in
  if dk_used_idx d =? us_idx (dk_used d) then modify (set_intr false) else
  let id := ue_id (elt (mkUsedElem 0 0) (us_ring (dk_used d)) (dk_used_idx d mod NUM)) in
  if negb (in_status (get_info s id) =? 0) then panic "virtio_disk_intr status" else
  match in_b (get_info s id) with
  | None => panic "kerneltrap"
  | Some b =>
      modify (set_bufs (fun f => <[b := mkDbuf (db_blockno (f b)) 0 (db_data (f b))]> f)) ;;;
      modify (set_thr (map (wake_buf b))) ;;;
      modify (set_disk (set_used_idx (uint16 (dk_used_idx d + 1))))
  end.

(** ** virtio_disk_init *)

(** The device registers: what a read returns depends on the writes so far, the
    latest first. *)
Section Init.
Context (mmio_read : list (Z * Z) -> Z -> Z).

Definition rd (r : Z) : M (list (Z * Z)) Z := gets (fun h => mmio_read h r).
Definition wr (r v : Z) : M (list (Z * Z)) unit := modify (fun h => (r, uint32 v) :: h).

Definition clear_bit (n features : Z) : Z := Z.land features (wrap64 (Z.lnot (Z.shiftl 1 n))).

Definition virtio_features (features : Z) : Z :=
  let features := clear_bit VIRTIO_BLK_F_RO features in
  let features := clear_bit VIRTIO_BLK_F_SCSI features in
  let features := clear_bit VIRTIO_BLK_F_CONFIG_WCE features in
  let features := clear_bit VIRTIO_BLK_F_MQ features in
  let features := clear_bit VIRTIO_F_ANY_LAYOUT features in
  let features := clear_bit VIRTIO_RING_F_EVENT_IDX features in
  clear_bit VIRTIO_RING_F_INDIRECT_DESC features.

(** [desc], [avail] and [used] are what kalloc returns, 0 when it fails. *)
Definition virtio_disk_init (desc avail used : Z) : M (list (Z * Z)) disk :=
  let* magic := rd VIRTIO_MMIO_MAGIC_VALUE in
  let* version := rd VIRTIO_MMIO_VERSION in
  let* device := rd VIRTIO_MMIO_DEVICE_ID in
  let* vendor := rd VIRTIO_MMIO_VENDOR_ID in
  if negb (magic =? 0x74726976) || negb (version =? 2) || negb (device =? 2) || negb (vendor =? 0x554d4551)
  then panic "could not find virtio disk" else
  wr VIRTIO_MMIO_STATUS 0 ;;;
  let status := Z.lor 0 VIRTIO_CONFIG_S_ACKNOWLEDGE in
  wr VIRTIO_MMIO_STATUS status ;;;
  let status := Z.lor status VIRTIO_CONFIG_S_DRIVER in
  wr VIRTIO_MMIO_STATUS status ;;;
  let* features := rd VIRTIO_MMIO_DEVICE_FEATURES in
  wr VIRTIO_MMIO_DRIVER_FEATURES (virtio_features features) ;;;
  let status := Z.lor status VIRTIO_CONFIG_S_FEATURES_OK in
  wr VIRTIO_MMIO_STATUS status ;;;
  let* status := rd VIRTIO_MMIO_STATUS in
  if Z.land status VIRTIO_CONFIG_S_FEATURES_OK =? 0 then panic "virtio disk FEATURES_OK unset" else
  wr VIRTIO_MMIO_QUEUE_SEL 0 ;;;
  let* ready := rd VIRTIO_MMIO_QUEUE_READY in
  if negb (ready =? 0) then panic "virtio disk should not be ready" else
  let* max := rd VIRTIO_MMIO_QUEUE_NUM_MAX in
  if max =? 0 then panic "virtio disk has no queue 0" else
  if max <? NUM then panic "virtio disk max queue too short" else
  if (desc =? 0) || (avail =? 0) || (used =? 0) then panic "virtio disk kalloc" else
  wr VIRTIO_MMIO_QUEUE_NUM NUM ;;;
  wr VIRTIO_MMIO_QUEUE_DESC_LOW desc ;;;
  wr VIRTIO_MMIO_QUEUE_DESC_HIGH (Z.shiftr desc 32) ;;;
  wr VIRTIO_MMIO_DRIVER_DESC_LOW avail ;;;
  wr VIRTIO_MMIO_DRIVER_DESC_HIGH (Z.shiftr avail 32) ;;;
  wr VIRTIO_MMIO_DEVICE_DESC_LOW used ;;;
  wr VIRTIO_MMIO_DEVICE_DESC_HIGH (Z.shiftr used 32) ;;;
  wr VIRTIO_MMIO_QUEUE_READY 1 ;;;
  let status := Z.lor status VIRTIO_CONFIG_S_DRIVER_OK in
  wr VIRTIO_MMIO_STATUS status ;;;
  ret (mkDisk (replicate (Z.to_nat NUM) desc0) (mkAvail 0 (replicate (Z.to_nat NUM) 0))
        (mkUsed 0 (replicate (Z.to_nat NUM) (mkUsedElem 0 0))) (replicate (Z.to_nat NUM) 1) 0
        (replicate (Z.to_nat NUM) info0) (replicate (Z.to_nat NUM) req0)).
End Init.
