(* ===== verification/VirtioSpec.v ===== *)
(** * The disk driver refines an atomic disk

    Any number of threads, the interrupt handler and the device run in any order.
    The device is a parameter; of it only what the virtio specification says is
    assumed.  Every call of virtio_disk_rw then behaves as if the block had been
    transferred at one moment between its call and its return. *)
From stdpp Require Import functions.
From S2P Require Import Prelude State Bytes Virtio.

Open Scope Z_scope.

(** ** The device *)

(** [n] sectors of 512 bytes from [x] on. *)
Definition read_sectors (d : Z -> list Z) (x n : Z) : list Z := concat (map (fun i => d (x + i)) (seqZ 0 n)).
Definition write_sectors (d : Z -> list Z) (x n : Z) (data : list Z) : Z -> list Z :=
  fun y => if (x <=? y) && (y <? x + n) then slice data (512 * (y - x)) 512 else d y.

(** A request as the device finds it from the head of a chain. *)
Record request := mkRequest { r_write : bool; r_sector : Z; r_buf : nat; r_count : Z; r_status : Z }.

Definition has_flag (d : virtq_desc) (f : Z) : bool := negb (Z.land (d_flags d) f =? 0).

(** The chain of a block request: a header, the data, a status byte.  The data is
    readable for the device when it is to be written to the disk, else writable. *)
Definition request_at (s : vstate) (h : Z) : option request :=
  let d0 := get_desc s h in let d1 := get_desc s (d_next d0) in let d2 := get_desc s (d_next d1) in
  match d_addr d0, d_addr d1, d_addr d2 with
  | DOps i, DData b, DStatus j =>
      let op := get_op s i in
      let write := rq_type op =? VIRTIO_BLK_T_OUT in
      if (d_len d0 =? 16) && has_flag d0 VRING_DESC_F_NEXT && negb (has_flag d0 VRING_DESC_F_WRITE)
         && has_flag d1 VRING_DESC_F_NEXT && (d_len d1 mod 512 =? 0) && eqb (has_flag d1 VRING_DESC_F_WRITE) (negb write)
         && negb (has_flag d2 VRING_DESC_F_NEXT) && has_flag d2 VRING_DESC_F_WRITE && (d_len d2 =? 1)
         && (write || (rq_type op =? VIRTIO_BLK_T_IN))
      then Some (mkRequest write (rq_sector op) b (d_len d1 / 512) j) else None
  | _, _, _ => None
  end.

(** The device takes the next entry of the avail ring. *)
Definition fetched (s : vstate) : vstate :=
  mkV (v_disk s) (v_bufs s) (v_thr s) (v_intr s) (v_sectors s) (uint16 (v_fetched s + 1))
    (v_taken s ++ [elt 0 (av_ring (dk_avail (v_disk s))) (v_fetched s mod NUM)])
    (v_notified s) (v_irq s).
Definition dev_fetch (s s' : vstate) : Prop := v_fetched s <> av_idx (dk_avail (v_disk s)) /\ s' = fetched s.

(** It stores the status [st] of a request, adds the chain to the used ring,
    increments its index and raises an interrupt, with [bufs] and [sectors] left
    in memory and on the disk. *)
Definition replied (h len st : Z) (bufs : nat -> dbuf) (sectors : Z -> list Z) (r : request) (s : vstate) : vstate :=
  let d := v_disk s in
  mkV
    (set_used (fun u => mkUsed (uint16 (us_idx u + 1)) (put (us_idx u mod NUM) (mkUsedElem h len) (us_ring u)))
      (set_info (fun l => put (r_status r) (mkDiskInfo (in_b (elt info0 l (r_status r))) st) l) d))
    bufs (v_thr s) (v_intr s) sectors (v_fetched s) (filter (fun x => x <> h) (v_taken s))
    (v_notified s) (Z.lor (v_irq s) 1).

(** A request that succeeds: its data is transferred. *)
Definition completed (h len : Z) (r : request) (s : vstate) : vstate :=
  replied h len 0
    (if r_write r then v_bufs s else
       let v := v_bufs s (r_buf r) in
       <[r_buf r := mkDbuf (db_blockno v) (db_disk v) (read_sectors (v_sectors s) (r_sector r) (r_count r))]> (v_bufs s))
    (if r_write r then write_sectors (v_sectors s) (r_sector r) (r_count r) (db_data (v_bufs s (r_buf r))) else v_sectors s)
    r s.
Definition dev_done (h len : Z) (r : request) (s s' : vstate) : Prop := s' = completed h len r s.

(** A request that fails (VIRTIO_BLK_S_IOERR, VIRTIO_BLK_S_UNSUPP): the data of
    the buffer of a read and the sectors of a write may hold anything. *)
Definition dev_fail (h len : Z) (r : request) (s s' : vstate) : Prop :=
  exists st bufs sectors, s' = replied h len st bufs sectors r s /\ 0 < st < 256
  /\ (forall x, x <> r_buf r \/ r_write r = true -> bufs x = v_bufs s x)
  /\ (forall x, db_blockno (bufs x) = db_blockno (v_bufs s x) /\ db_disk (bufs x) = db_disk (v_bufs s x)
        /\ length (db_data (bufs x)) = length (db_data (v_bufs s x)))
  /\ (forall y, r_write r = false \/ ~ (r_sector r <= y < r_sector r + r_count r) -> sectors y = v_sectors s y)
  /\ (forall y, length (sectors y) = length (v_sectors s y)).

(** What is assumed of the device (virtio 1.1, sections 2.6 and 5.2): it takes
    entries of the avail ring in order, and completes the requests it has taken
    in any order; [honest] is whether every request succeeds.  Nothing is assumed
    when a chain is not a request. *)
Definition device_behaves (honest : bool) (device : vstate -> vstate -> Prop) : Prop :=
  forall s s', device s s' -> dev_fetch s s' \/
    exists h len, h ∈ v_taken s /\ forall r, request_at s h = Some r ->
      dev_done h len r s s' \/ (honest = false /\ dev_fail h len r s s').
Definition device_ok : (vstate -> vstate -> Prop) -> Prop := device_behaves true.

(** ** The system *)
Inductive event := ECall (t b : nat) (write : bool) | ERet (t b : nat) (write : bool) (data : list Z) | EUse (b : nat) (bn : Z) (data : list Z).

(** The buffer and the descriptors a thread uses. *)
Definition uses (p : rw_pc) : option nat :=
  match p with Idle => None | Alloc b _ | SleepFree b _ | Publish b _ _ | Wait b _ _ | SleepBuf b _ _ => Some b end.
Definition idxs (p : rw_pc) : list Z :=
  match p with Publish _ _ idx | Wait _ _ idx | SleepBuf _ _ idx => idx | _ => [] end.

(** vdisk_lock is held by a thread at its barrier or by the handler in its loop. *)
Definition lock_free (s : vstate) : Prop :=
  v_intr s = false /\ forall t b w idx, v_thr s !! t <> Some (Publish b w idx).

Definition unused (s : vstate) (b : nat) : Prop := forall t p, v_thr s !! t = Some p -> uses p <> Some b.

(** What kkill does to a thread that sleeps, wherever it sleeps. *)
Definition wake_up (p : rw_pc) : rw_pc := match p with SleepFree b w => Alloc b w | SleepBuf b w idx => Wait b w idx | _ => p end.

Section System.
Context (device : vstate -> vstate -> Prop).

(** The threads, the interrupt handler, which runs when the device has raised an
    interrupt, and the device.  Callers hold the sleep lock of the buffer, so
    nobody else uses it; between calls they change its contents, and the cache
    gives it to another block. *)
Inductive sys_step (s : vstate) : option event -> vstate -> Prop :=
  | step_call t b w : v_thr s !! t = Some Idle -> unused s b ->
      sys_step s (Some (ECall t b w)) (set_thr (insert t (Alloc b w)) s)
  | step_use b bn data : unused s b -> 0 <= bn < 2 ^ 31 -> length data = Z.to_nat BSIZE ->
      sys_step s (Some (EUse b bn data)) (set_bufs (fun f => <[b := mkDbuf bn (db_disk (f b)) data]> f) s)
  | step_alloc t b w s' : lock_free s -> v_thr s !! t = Some (Alloc b w) -> rw_alloc t b w s = Ret tt s' -> sys_step s None s'
  | step_publish t b w idx s' : v_thr s !! t = Some (Publish b w idx) -> rw_publish t b w idx s = Ret tt s' -> sys_step s None s'
  | step_sleep t b w idx s' : lock_free s -> v_thr s !! t = Some (Wait b w idx) -> db_disk (v_bufs s b) = 1 ->
      rw_wait t b w idx s = Ret tt s' -> sys_step s None s'
  | step_ret t b w idx s' : lock_free s -> v_thr s !! t = Some (Wait b w idx) -> db_disk (v_bufs s b) <> 1 ->
      rw_wait t b w idx s = Ret tt s' -> sys_step s (Some (ERet t b w (db_data (v_bufs s' b)))) s'
  | step_intr s' : lock_free s -> Z.testbit (v_irq s) 0 = true -> intr_enter s = Ret tt s' -> sys_step s None s'
  | step_turn s' : v_intr s = true -> intr_turn s = Ret tt s' -> sys_step s None s'
  | step_device s' : device s s' -> sys_step s None s'.

(** The same, when kkill may wake a thread wherever it sleeps and the handler may
    run without an interrupt of this device. *)
Inductive vstep (s : vstate) : option event -> vstate -> Prop :=
  | step_sys e s' : sys_step s e s' -> vstep s e s'
  | step_kill t p : v_thr s !! t = Some p -> vstep s None (set_thr (insert t (wake_up p)) s)
  | step_spurious s' : lock_free s -> intr_enter s = Ret tt s' -> vstep s None s'.
End System.

(** A sequence of steps and the events of it. *)
Inductive steps {S} (step : S -> option event -> S -> Prop) (s : S) : list event -> S -> Prop :=
  | steps_nil : steps step s [] s
  | steps_snoc tr s1 e s2 : steps step s tr s1 -> step s1 e s2 -> steps step s (tr ++ option_list e) s2.

(** The driver as virtio_disk_init leaves it, with [n] threads. *)
Definition v_init (n : nat) (d : disk) (bufs : nat -> dbuf) (sectors : Z -> list Z) : vstate :=
  mkV d bufs (replicate n Idle) false sectors 0 [] 0 0.

(** ** The atomic disk *)
Inductive acall := AIdle | ATodo (b : nat) (write : bool) | ADone (b : nat) (write : bool).

(** The block number and the contents of each buffer, the contents of each block,
    and what each thread is doing. *)
Record astate := mkA { a_bufs : nat -> Z * list Z; a_disk : Z -> list Z; a_thr : list acall }.

Definition a_uses (c : acall) : option nat := match c with AIdle => None | ATodo b _ | ADone b _ => Some b end.

(** The transfer of a block, at once. *)
Definition a_transfer (b : nat) (write : bool) (a : astate) : astate :=
  let '(bn, data) := a_bufs a b in
  if write then mkA (a_bufs a) (<[bn := data]> (a_disk a)) (a_thr a)
  else mkA (<[b := (bn, a_disk a bn)]> (a_bufs a)) (a_disk a) (a_thr a).

Definition a_set (t : nat) (c : acall) (a : astate) : astate := mkA (a_bufs a) (a_disk a) (<[t := c]> (a_thr a)).

Inductive astep (a : astate) : option event -> astate -> Prop :=
  | a_call t b w : a_thr a !! t = Some AIdle -> (forall t' c, a_thr a !! t' = Some c -> a_uses c <> Some b) ->
      astep a (Some (ECall t b w)) (a_set t (ATodo b w) a)
  | a_use b bn data : (forall t c, a_thr a !! t = Some c -> a_uses c <> Some b) -> 0 <= bn < 2 ^ 31 -> length data = Z.to_nat BSIZE ->
      astep a (Some (EUse b bn data)) (mkA (<[b := (bn, data)]> (a_bufs a)) (a_disk a) (a_thr a))
  | a_do t b w : a_thr a !! t = Some (ATodo b w) -> astep a None (a_set t (ADone b w) (a_transfer b w a))
  | a_ret t b w : a_thr a !! t = Some (ADone b w) -> astep a (Some (ERet t b w (snd (a_bufs a b)))) (a_set t AIdle a)
  | a_stay : astep a None a.

(** ** The invariant *)

(** [l] are the entries of a ring from index [lo] to index [hi]. *)
Definition ring_is (ring : list Z) (lo hi : Z) (l : list Z) : Prop :=
  0 <= lo < 2 ^ 16 /\ Z.of_nat (length l) <= NUM /\ hi = uint16 (lo + Z.of_nat (length l))
  /\ forall k x, l !! k = Some x -> ring !! Z.to_nat ((lo + Z.of_nat k) mod NUM) = Some x.

(** The call whose request is with the device or done. *)
Definition posted (p : rw_pc) : option (nat * bool * list Z) :=
  match p with Wait b w idx | SleepBuf b w idx => Some (b, w, idx) | _ => None end.
Definition chained (p : rw_pc) : option (nat * bool * list Z) :=
  match p with Publish b w idx | Wait b w idx | SleepBuf b w idx => Some (b, w, idx) | _ => None end.

(** The chain of a call is set up as virtio_disk_rw does it. *)
Definition chain_ok (s : vstate) (b : nat) (w : bool) (idx : list Z) : Prop :=
  exists i0 i1 i2, idx = [i0; i1; i2] /\ NoDup idx /\ Forall (fun i => 0 <= i < NUM) idx
  /\ get_desc s i0 = mkDesc (DOps i0) 16 VRING_DESC_F_NEXT i1
  /\ get_desc s i1 = mkDesc (DData b) BSIZE (Z.lor (if w then 0 else VRING_DESC_F_WRITE) VRING_DESC_F_NEXT) i2
  /\ get_desc s i2 = mkDesc (DStatus i0) 1 VRING_DESC_F_WRITE 0
  /\ get_op s i0 = mkBlkReq (if w then VIRTIO_BLK_T_OUT else VIRTIO_BLK_T_IN) 0 (2 * db_blockno (v_bufs s b))
  /\ in_b (get_info s i0) = Some b.

Record vinv {honest : bool} (s : vstate) (queued used : list Z) : Prop := {
  vi_desc : length (dk_desc (v_disk s)) = Z.to_nat NUM;
  vi_ring : length (av_ring (dk_avail (v_disk s))) = Z.to_nat NUM;
  vi_uring : length (us_ring (dk_used (v_disk s))) = Z.to_nat NUM;
  vi_lfree : length (dk_free (v_disk s)) = Z.to_nat NUM;
  vi_info : length (dk_info (v_disk s)) = Z.to_nat NUM;
  vi_ops : length (dk_ops (v_disk s)) = Z.to_nat NUM;
  vi_own : forall t t' p p' i, v_thr s !! t = Some p -> v_thr s !! t' = Some p' -> i ∈ idxs p -> i ∈ idxs p' -> t = t';
  vi_free : forall i, 0 <= i < NUM ->
    (is_free s i = 1 /\ forall t p, v_thr s !! t = Some p -> i ∉ idxs p) \/
    (is_free s i = 0 /\ exists t p, v_thr s !! t = Some p /\ i ∈ idxs p);
  vi_chain : forall t p b w idx, v_thr s !! t = Some p -> chained p = Some (b, w, idx) -> chain_ok s b w idx;
  vi_uses : forall t t' p p' b, v_thr s !! t = Some p -> v_thr s !! t' = Some p' -> uses p = Some b -> uses p' = Some b -> t = t';
  vi_bufs : forall b, 0 <= db_blockno (v_bufs s b) < 2 ^ 31 /\ length (db_data (v_bufs s b)) = Z.to_nat BSIZE
    /\ (db_disk (v_bufs s b) = 0 \/ db_disk (v_bufs s b) = 1);
  vi_sectors : forall x, length (v_sectors s x) = 512%nat;
  vi_avail : ring_is (av_ring (dk_avail (v_disk s))) (v_fetched s) (av_idx (dk_avail (v_disk s))) queued;
  vi_used : ring_is (map ue_id (us_ring (dk_used (v_disk s)))) (dk_used_idx (v_disk s)) (us_idx (dk_used (v_disk s))) used;
  vi_nodup : NoDup (queued ++ v_taken s ++ used);
  vi_live : forall h, h ∈ queued ++ v_taken s ++ used <->
    exists t p b w idx, v_thr s !! t = Some p /\ posted p = Some (b, w, idx) /\ db_disk (v_bufs s b) = 1 /\ h = idx_at idx 0;
  vi_publish : forall t b w idx, v_thr s !! t = Some (Publish b w idx) ->
    db_disk (v_bufs s b) = 1 /\ v_intr s = false /\ elt 0 (av_ring (dk_avail (v_disk s))) (av_idx (dk_avail (v_disk s)) mod NUM) = idx_at idx 0
    /\ forall t' b' w' idx', v_thr s !! t' = Some (Publish b' w' idx') -> t' = t;
  vi_status : honest = true -> forall h, h ∈ used -> in_status (get_info s h) = 0;
  vi_notified : v_notified s = av_idx (dk_avail (v_disk s));
  vi_irq : used <> [] -> v_intr s = true \/ Z.testbit (v_irq s) 0 = true;
  vi_asleep : forall t b w idx, v_thr s !! t = Some (SleepBuf b w idx) -> db_disk (v_bufs s b) = 1;
  vi_hungry : forall t b w, v_thr s !! t = Some (SleepFree b w) -> exists t' p', v_thr s !! t' = Some p' /\ idxs p' <> [] }.

(** [honest] is whether the device has completed every request with success. *)
#[global] Arguments vinv : clear implicits.

(** Where a call is, for a client of the atomic disk. *)
Definition abs_pc (s : vstate) (used : list Z) (p : rw_pc) : acall :=
  match p with
  | Idle => AIdle
  | Alloc b w | SleepFree b w | Publish b w _ => ATodo b w
  | Wait b w idx | SleepBuf b w idx =>
      if decide (db_disk (v_bufs s b) = 0 \/ idx_at idx 0 ∈ used) then ADone b w else ATodo b w
  end.

Definition block (sectors : Z -> list Z) (bn : Z) : list Z := read_sectors sectors (2 * bn) 2.

Definition refines (s : vstate) (a : astate) : Prop :=
  exists queued used, vinv true s queued used /\ a_thr a = map (abs_pc s used) (v_thr s)
  /\ (forall b, a_bufs a b = (db_blockno (v_bufs s b), db_data (v_bufs s b)))
  /\ (forall bn, 0 <= bn < 2 ^ 31 -> a_disk a bn = block (v_sectors s) bn).
