(* ===== verification/VirtioInv.v ===== *)
(** * The invariant of the disk driver is kept by every step *)
From stdpp Require Import functions.
From S2P Require Import Prelude State Bytes Virtio VirtioSpec.

Open Scope Z_scope.

(** ** Arrays and threads *)
Lemma elt_put {A} (d : A) l i j v : 0 <= i < Z.of_nat (length l) -> 0 <= j ->
  elt d (put i v l) j = if i =? j then v else elt d l j.
Proof.
  intros Hi Hj. unfold elt, put. destruct (Z.eqb_spec i j) as [<-|Hne].
  - by rewrite list_lookup_insert_eq by lia.
  - by rewrite list_lookup_insert_ne by lia.
Qed.

Lemma put_length {A} i (v : A) l : length (put i v l) = length l.
Proof. apply length_insert. Qed.

Lemma thr_insert {A} (l : list A) t p t' p' :
  <[t := p]> l !! t' = Some p' -> (t' = t /\ p' = p) \/ (t' <> t /\ l !! t' = Some p').
Proof. intros H. apply list_lookup_insert_Some in H as [(-> & -> & _)|[? ?]]; auto. Qed.

Lemma chained_publish p b w idx : chained p = Some (b, w, idx) -> posted p = None -> p = Publish b w idx.
Proof. destruct p; simpl; try done. by intros [= -> -> ->]. Qed.

Lemma chained_idxs p b w idx : chained p = Some (b, w, idx) -> idxs p = idx /\ uses p = Some b.
Proof. destruct p; simpl; try done; by intros [= -> -> ->]. Qed.

Lemma posted_chained p c : posted p = Some c -> chained p = Some c.
Proof. by destruct p. Qed.

Lemma idxs_chained p : idxs p <> [] -> exists b w, chained p = Some (b, w, idxs p).
Proof. destruct p; simpl; try done; eauto. Qed.

(** What the invariant sees of a thread. *)
Definition alike (p p' : rw_pc) : Prop := idxs p' = idxs p /\ posted p' = posted p /\ chained p' = chained p.

Lemma alike_refl p : alike p p.
Proof. done. Qed.

Section Threads.
Context {honest : bool} (s : vstate) (queued used : list Z) (I : vinv honest s queued used).

(** Threads that move without touching their descriptors. *)
Lemma vinv_thr thr' :
  length thr' = length (v_thr s) ->
  (forall t p', thr' !! t = Some p' -> exists p, v_thr s !! t = Some p /\ alike p p') ->
  (forall t t' p p' b, thr' !! t = Some p -> thr' !! t' = Some p' -> uses p = Some b -> uses p' = Some b -> t = t') ->
  (forall t b w idx, thr' !! t = Some (SleepBuf b w idx) -> db_disk (v_bufs s b) = 1) ->
  (forall t b w, thr' !! t = Some (SleepFree b w) -> exists t' p', thr' !! t' = Some p' /\ idxs p' <> []) ->
  vinv honest (set_thr (fun _ => thr') s) queued used.
Proof.
  intros Hlen Hal Huses Hasleep Hhungry.
  assert (forall t p, v_thr s !! t = Some p -> exists p', thr' !! t = Some p' /\ alike p p') as Hal'.
  { intros t p Hp. destruct (lookup_lt_is_Some_2 thr' t) as [p' Hp']; [rewrite Hlen; by eapply lookup_lt_Some|].
    destruct (Hal t p' Hp') as (p1 & Hp1 & A1). exists p'. split; [done|]. by replace p with p1 by congruence. }
  assert (forall t b w idx, thr' !! t = Some (Publish b w idx) -> v_thr s !! t = Some (Publish b w idx)) as Hpub.
  { intros t b w idx Hp. destruct (Hal _ _ Hp) as (p & Hp1 & _ & A2 & A3). rewrite Hp1. f_equal. by apply chained_publish. }
  destruct I as [I1 I2 I3 I4 I5 I6 I7 I8 I9 I10 I11 I12 I13 I14 I15 I16 I17 I18 I21 I22 I19 I20]. constructor; try done; cbn [v_thr set_thr].
  - intros t t' p p' i (p1 & E1 & -> & _)%Hal (p2 & E2 & -> & _)%Hal. by eapply I7.
  - intros i Hi. destruct (I8 i Hi) as [[Hf Hn]|[Hf (t & p & Hp & Hin)]]; [left|right]; (split; [done|]).
    + intros t p (p1 & E1 & -> & _)%Hal. by eapply Hn.
    + destruct (Hal' t p Hp) as (p' & Hp' & E & _). exists t, p'. by rewrite E.
  - intros t p b w idx (p1 & E1 & _ & _ & ->)%Hal. by apply I9 with t.
  - intros h. change (v_taken (set_thr _ s)) with (v_taken s). rewrite I16. split.
    + intros (t & p & b & w & idx & Hp & Hq & Hr). destruct (Hal' t p Hp) as (p' & Hp' & _ & E & _). exists t, p', b, w, idx. by rewrite E.
    + intros (t & p & b & w & idx & (p1 & E1 & _ & E & _)%Hal & Hq & Hr). exists t, p1, b, w, idx. by rewrite <- E.
  - intros t b w idx Hp%Hpub. destruct (I17 t b w idx Hp) as (J1 & J2 & J3 & J4). split_and!; try done. intros t' b' w' idx' Hp'%Hpub. by eapply J4.
Qed.

(** wakeup. *)
Lemma vinv_wake f : (forall p, alike p (f p) /\ uses (f p) = uses p) -> (forall p b w idx, f p = SleepBuf b w idx -> p = SleepBuf b w idx) ->
  (forall p b w, f p = SleepFree b w -> p = SleepFree b w) -> vinv honest (set_thr (map f) s) queued used.
Proof.
  intros Hf Hsb Hsf. change (set_thr (map f) s) with (set_thr (fun _ => map f (v_thr s)) s).
  assert (forall t p', map f (v_thr s) !! t = Some p' -> exists p, v_thr s !! t = Some p /\ p' = f p) as Hm.
  { intros t p' H. apply list_lookup_fmap_Some in H as (p & -> & Hp). eauto. }
  apply vinv_thr.
  - apply length_map.
  - intros t p' (p & Hp & ->)%Hm. exists p. split; [done|]. apply Hf.
  - intros t t' p p' b (p1 & E1 & ->)%Hm (p2 & E2 & ->)%Hm. rewrite !(proj2 (Hf _)). by apply (vi_uses _ _ _ I).
  - intros t b w idx (p & Hp & E)%Hm. symmetry in E. apply Hsb in E as ->. by apply (vi_asleep _ _ _ I) in Hp.
  - intros t b w (p & Hp & E)%Hm. symmetry in E. apply Hsf in E as ->.
    destruct (vi_hungry _ _ _ I _ _ _ Hp) as (t' & p' & Hp' & Hi). exists t', (f p'). rewrite list_lookup_fmap, Hp'. split; [done|].
    by rewrite (proj1 (proj1 (Hf p'))).
Qed.
End Threads.

Lemma wake_free_alike p : alike p (wake_free p) /\ uses (wake_free p) = uses p.
Proof. by destruct p. Qed.
Lemma wake_buf_alike b p : alike p (wake_buf b p) /\ uses (wake_buf b p) = uses p.
Proof. destruct p; try done. simpl. by case_decide. Qed.

Lemma vinv_wake_free {honest} s queued used : vinv honest s queued used -> vinv honest (set_thr (map wake_free) s) queued used.
Proof. intros I. apply vinv_wake; [done|apply wake_free_alike| |]; by intros []. Qed.

(** ** A call, and a thread that goes to sleep *)
Lemma vinv_call {honest} s queued used t b w : vinv honest s queued used -> v_thr s !! t = Some Idle -> unused s b ->
  vinv honest (set_thr (insert t (Alloc b w)) s) queued used.
Proof.
  intros I Ht Hu. change (set_thr (insert t ?p) s) with (set_thr (fun _ => <[t := p]> (v_thr s)) s). apply vinv_thr; try done.
  - apply length_insert.
  - intros t' p' [[-> ->]|[Hne Hp]]%thr_insert; [by exists Idle|by exists p'].
  - intros t1 t2 p1 p2 b' [[-> ->]|[N1 H1]]%thr_insert [[-> ->]|[N2 H2]]%thr_insert U1 U2; try done.
    + simpl in U1. injection U1 as ->. by destruct (Hu t2 p2).
    + simpl in U2. injection U2 as ->. by destruct (Hu t1 p1).
    + by eapply (vi_uses _ _ _ I).
  - intros t' b' w' idx [[_ ?]|[_ Hp]]%thr_insert; [done|]. by eapply (vi_asleep _ _ _ I).
  - intros t' b' w' [[_ ?]|[_ Hp]]%thr_insert; [done|]. destruct (vi_hungry _ _ _ I _ _ _ Hp) as (t1 & p1 & H1 & H2).
    exists t1, p1. split; [|done]. rewrite list_lookup_insert_ne; [done|]. intros <-. rewrite Ht in H1. by injection H1 as <-.
Qed.

(** A thread that only changes where it waits. *)
Lemma vinv_move {honest} s queued used t p p' : vinv honest s queued used -> v_thr s !! t = Some p -> alike p p' -> uses p' = uses p ->
  (forall b w idx, p' = SleepBuf b w idx -> db_disk (v_bufs s b) = 1) ->
  (forall b w, p' = SleepFree b w -> exists t' p', v_thr s !! t' = Some p' /\ idxs p' <> []) ->
  vinv honest (set_thr (insert t p') s) queued used.
Proof.
  intros I Ht Ha Hu Hsb Hsf. change (set_thr (insert t ?p) s) with (set_thr (fun _ => <[t := p]> (v_thr s)) s).
  assert (forall t1 p1, v_thr s !! t1 = Some p1 -> exists p2, <[t := p']> (v_thr s) !! t1 = Some p2 /\ alike p1 p2) as Hback.
  { intros t1 p1 H1. destruct (decide (t1 = t)) as [->|Hne]; [|by exists p1; rewrite list_lookup_insert_ne].
    exists p'. rewrite list_lookup_insert_eq by (by eapply lookup_lt_Some). split; [done|]. by replace p1 with p by congruence. }
  apply vinv_thr; try done.
  - apply length_insert.
  - intros t' q [[-> ->]|[Hne Hp]]%thr_insert; [by exists p|by exists q].
  - intros t1 t2 p1 p2 b [[-> ->]|[N1 H1]]%thr_insert [[-> ->]|[N2 H2]]%thr_insert U1 U2; try done; rewrite ?Hu in U1; rewrite ?Hu in U2; by eapply (vi_uses _ _ _ I).
  - intros t' b w idx [[-> ?]|[_ Hp]]%thr_insert; [by eapply Hsb|]. by eapply (vi_asleep _ _ _ I).
  - intros t' b w Hq. assert (exists t1 p1, v_thr s !! t1 = Some p1 /\ idxs p1 <> []) as (t1 & p1 & H1 & H2).
    { apply thr_insert in Hq as [[-> Hq]|[_ Hp]]; [by eapply Hsf|by eapply (vi_hungry _ _ _ I)]. }
    destruct (Hback t1 p1 H1) as (p2 & Hp2 & E & _). exists t1, p2. by rewrite E.
Qed.

(** ** Descriptors *)
Definition took (i : Z) (s : vstate) : vstate := set_disk (set_free (put i 0)) s.
Definition freed (i : Z) (s : vstate) : vstate :=
  set_thr (map wake_free) (set_disk (set_free (put i 1)) (set_disk (set_desc (put i desc0)) s)).

Lemma alloc_desc_run s :
  (exists i, 0 <= i < NUM /\ is_free s i <> 0 /\ alloc_desc s = Ret i (took i s)) \/
  ((forall i, 0 <= i < NUM -> is_free s i = 0) /\ alloc_desc s = Ret (-1) s).
Proof.
  assert (alloc_desc s = match List.find (fun i => negb (is_free s i =? 0)) (seqZ 0 NUM) with Some i => Ret i (took i s) | None => Ret (-1) s end) as E.
  { unfold alloc_desc. erewrite bind_ret_eq.
    2: { rewrite (for_each_find _ _ (fun i => negb (is_free s i =? 0)) (fun i => i) took).
         - instantiate (1 := match List.find (fun i => negb (is_free s i =? 0)) (seqZ 0 NUM) with Some i => took i s | None => s end).
           instantiate (1 := List.find (fun i => negb (is_free s i =? 0)) (seqZ 0 NUM)).
           by destruct (List.find _ _).
         - intros i _. erewrite bind_ret_eq by reflexivity. by destruct (negb (is_free s i =? 0)). }
    by destruct (List.find _ _). }
  rewrite E. destruct (List.find _ _) as [i|] eqn:F.
  - left. apply find_some in F as [Hin%list_elem_of_In%elem_of_seqZ Ht]. exists i. split; [lia|]. split; [|done]. by apply Z.eqb_neq, negb_true_iff.
  - right. split; [|done]. intros i Hi. pose proof (find_none _ _ F i) as Hn. cbv beta in Hn. apply Z.eqb_eq. apply negb_false_iff, Hn.
    apply list_elem_of_In, elem_of_seqZ. lia.
Qed.

Lemma free_desc_run i s : i < NUM -> is_free s i = 0 -> free_desc i s = Ret tt (freed i s).
Proof.
  intros Hi Hf. unfold free_desc. rewrite (proj2 (Z.leb_gt NUM i)) by done. erewrite bind_ret_eq by reflexivity. by rewrite Hf.
Qed.

Definition shape (s : vstate) : Prop :=
  length (dk_desc (v_disk s)) = Z.to_nat NUM /\ length (dk_free (v_disk s)) = Z.to_nat NUM.

Lemma is_free_took s i j : shape s -> 0 <= i < NUM -> 0 <= j -> is_free (took i s) j = if i =? j then 0 else is_free s j.
Proof. intros [_ H] Hi Hj. apply elt_put; [rewrite H; unfold NUM in *; lia|done]. Qed.
Lemma is_free_freed s i j : shape s -> 0 <= i < NUM -> 0 <= j -> is_free (freed i s) j = if i =? j then 1 else is_free s j.
Proof. intros [_ H] Hi Hj. apply elt_put; [simpl; rewrite H; unfold NUM in *; lia|done]. Qed.
Lemma get_desc_freed s i j : shape s -> 0 <= i < NUM -> 0 <= j -> get_desc (freed i s) j = if i =? j then desc0 else get_desc s j.
Proof. intros [H _] Hi Hj. apply elt_put; [rewrite H; unfold NUM in *; lia|done]. Qed.
Lemma shape_took s i : shape s -> shape (took i s).
Proof. intros [H1 H2]. split; [done|]. simpl. by rewrite put_length. Qed.
Lemma shape_freed s i : shape s -> shape (freed i s).
Proof. intros [H1 H2]. split; simpl; by rewrite put_length. Qed.

Lemma nodup3 (i0 i1 i2 : Z) : NoDup [i0; i1; i2] <-> i0 <> i1 /\ i0 <> i2 /\ i1 <> i2.
Proof.
  split.
  - intros [H1 [H2 _]%NoDup_cons]%NoDup_cons. set_solver.
  - intros (H1 & H2 & H3). repeat (apply NoDup_cons; split; [set_solver|]). constructor.
Qed.

Lemma forall3 (P : Z -> Prop) (i0 i1 i2 : Z) : Forall P [i0; i1; i2] <-> P i0 /\ P i1 /\ P i2.
Proof. rewrite !Forall_cons. naive_solver. Qed.

(** The chain of a call is freed whole. *)
Lemma free_chain_run s i0 i1 i2 :
  shape s -> NoDup [i0; i1; i2] -> Forall (fun i => 0 <= i < NUM) [i0; i1; i2] -> Forall (fun i => is_free s i = 0) [i0; i1; i2] ->
  has_flag (get_desc s i0) VRING_DESC_F_NEXT = true -> d_next (get_desc s i0) = i1 ->
  has_flag (get_desc s i1) VRING_DESC_F_NEXT = true -> d_next (get_desc s i1) = i2 ->
  has_flag (get_desc s i2) VRING_DESC_F_NEXT = false ->
  free_chain i0 s = Ret tt (freed i2 (freed i1 (freed i0 s))).
Proof.
  intros Hs Hnd Hr Hf N0 E1 N1 E2 N2. apply forall3 in Hr as (R0 & R1 & R2), Hf as (F0 & F1 & F2).
  assert (i0 <> i1 /\ i0 <> i2 /\ i1 <> i2) as (D01 & D02 & D12) by (by apply nodup3).
  pose proof (shape_freed s i0 Hs) as Hs1. pose proof (shape_freed _ i1 Hs1) as Hs2.
  assert (forall s i, i < NUM -> is_free s i = 0 ->
    (let* d := gets (fun s => get_desc s i) in free_desc i ;;;
     if negb (Z.land (d_flags d) VRING_DESC_F_NEXT =? 0) then ret (inl (d_next d)) else ret (inr tt)) s
    = Ret (if has_flag (get_desc s i) VRING_DESC_F_NEXT then inl (d_next (get_desc s i)) else inr tt) (freed i s)) as Hbody.
  { intros s0 i Hi Hfi. erewrite bind_ret_eq by reflexivity. erewrite bind_ret_eq by (by apply free_desc_run). fold (has_flag (get_desc s0 i) VRING_DESC_F_NEXT).
    destruct (has_flag (get_desc s0 i) VRING_DESC_F_NEXT); reflexivity. }
  unfold free_chain. change (S (Z.to_nat NUM)) with 9%nat. erewrite while_next.
  2: { rewrite Hbody by (done || lia). rewrite N0, E1. reflexivity. }
  erewrite while_next.
  2: { rewrite Hbody; [|lia|by rewrite is_free_freed, (proj2 (Z.eqb_neq _ _)) by (done || lia)].
       rewrite get_desc_freed, (proj2 (Z.eqb_neq i0 i1)) by (done || lia). rewrite N1, E2. reflexivity. }
  erewrite while_done; [reflexivity|]. rewrite Hbody; [|lia|].
  - rewrite !get_desc_freed, (proj2 (Z.eqb_neq i0 i2)), (proj2 (Z.eqb_neq i1 i2)) by (done || lia). by rewrite N2.
  - by rewrite !is_free_freed, (proj2 (Z.eqb_neq i0 i2)), (proj2 (Z.eqb_neq i1 i2)) by (done || lia).
Qed.

(** Everything but the descriptors, their flags and the threads. *)
Definition rest (s : vstate) :=
  (dk_avail (v_disk s), dk_used (v_disk s), dk_used_idx (v_disk s), dk_info (v_disk s), dk_ops (v_disk s),
   v_bufs s, v_intr s, v_sectors s, v_fetched s, v_taken s, v_notified s, v_irq s).

(** After an allocation that failed: descriptors that were taken are free again,
    and those who sleep for descriptors may have been woken. *)
Record restored (s s' : vstate) : Prop := {
  re_shape : shape s';
  re_free : forall j, 0 <= j -> is_free s' j = is_free s j;
  re_desc : forall j, 0 <= j -> is_free s j = 0 -> get_desc s' j = get_desc s j;
  re_thr : v_thr s' = v_thr s \/ v_thr s' = map wake_free (v_thr s);
  re_rest : rest s' = rest s }.

Definition flags_ok (s : vstate) : Prop := forall i, 0 <= i < NUM -> is_free s i = 0 \/ is_free s i = 1.

Lemma wake_free_twice l : map wake_free (map wake_free l) = map wake_free l.
Proof. rewrite map_map. apply map_ext. by intros []. Qed.

Lemma alloc_loop_fail n s got s' : alloc_desc s = Ret (-1) s -> for_all got free_desc s = Ret tt s' ->
  alloc_loop (S n) got s = Ret None s'.
Proof. intros E1 E2. cbn [alloc_loop]. erewrite bind_ret_eq by exact E1. change (-1 <? 0) with true. cbv iota. by erewrite bind_ret_eq by exact E2. Qed.

Lemma alloc_loop_next n s got i : alloc_desc s = Ret i (took i s) -> 0 <= i -> alloc_loop (S n) got s = alloc_loop n (got ++ [i]) (took i s).
Proof. intros E1 Hi. cbn [alloc_loop]. erewrite bind_ret_eq by exact E1. by rewrite (proj2 (Z.ltb_ge i 0)). Qed.

Lemma restored_one s i : shape s -> 0 <= i < NUM -> is_free s i = 1 -> restored s (freed i (took i s)).
Proof.
  intros Hs Hi Hf. pose proof (shape_took s i Hs) as Hs1. constructor; try done.
  - by apply shape_freed.
  - intros j Hj. rewrite is_free_freed, is_free_took by done. by destruct (Z.eqb_spec i j) as [<-|].
  - intros j Hj Hfj. rewrite get_desc_freed by done. by destruct (Z.eqb_spec i j) as [<-|]; [congruence|].
  - by right.
Qed.

Lemma restored_two s i j : shape s -> 0 <= i < NUM -> 0 <= j < NUM -> i <> j -> is_free s i = 1 -> is_free s j = 1 ->
  restored s (freed j (freed i (took j (took i s)))).
Proof.
  intros Hs Hi Hj Hne Fi Fj. pose proof (shape_took s i Hs) as Hs1. pose proof (shape_took _ j Hs1) as Hs2. pose proof (shape_freed _ i Hs2) as Hs3. constructor; try done.
  - by apply shape_freed.
  - intros k Hk. rewrite !is_free_freed, !is_free_took by done.
    destruct (Z.eqb_spec j k) as [<-|]; [done|]. by destruct (Z.eqb_spec i k) as [<-|].
  - intros k Hk Fk. rewrite !get_desc_freed by done. destruct (Z.eqb_spec j k) as [<-|]; [congruence|].
    by destruct (Z.eqb_spec i k) as [<-|]; [congruence|].
  - right. apply (wake_free_twice (v_thr s)).
Qed.

(** alloc3_desc takes three free descriptors, or leaves all as they were because
    at most two are free. *)
Lemma alloc3_run s : shape s -> flags_ok s ->
  (exists i0 i1 i2, NoDup [i0; i1; i2] /\ Forall (fun i => 0 <= i < NUM) [i0; i1; i2] /\ Forall (fun i => is_free s i = 1) [i0; i1; i2]
     /\ alloc3_desc s = Ret (Some [i0; i1; i2]) (took i2 (took i1 (took i0 s)))) \/
  (exists s', alloc3_desc s = Ret None s' /\ restored s s' /\ exists i j, forall k, 0 <= k < NUM -> k <> i -> k <> j -> is_free s k = 0).
Proof.
  intros Hs Hok. unfold alloc3_desc. destruct (alloc_desc_run s) as [(i0 & R0 & F0 & E0)|[F0 E0]].
  2: { right. exists s. split; [by eapply alloc_loop_fail|]. split; [by constructor; auto|]. exists 0, 0. auto. }
  rewrite (alloc_loop_next _ _ _ _ E0) by lia. pose proof (shape_took s i0 Hs) as Hs1.
  assert (is_free s i0 = 1) as G0 by (destruct (Hok i0 R0); done).
  assert (forall k, 0 <= k -> is_free (took i0 s) k = if i0 =? k then 0 else is_free s k) as T0 by (intros; by apply is_free_took).
  destruct (alloc_desc_run (took i0 s)) as [(i1 & R1 & F1 & E1)|[F1 E1]].
  2: { right. exists (freed i0 (took i0 s)). split; [|split; [by apply restored_one|]].
       - eapply alloc_loop_fail; [exact E1|]. cbn [app for_all]. erewrite bind_ret_eq; [reflexivity|]. apply free_desc_run; [lia|]. rewrite T0 by lia. by rewrite Z.eqb_refl.
       - exists i0, i0. intros k Hk Hne _. specialize (F1 k Hk). rewrite T0 in F1 by lia. by rewrite (proj2 (Z.eqb_neq i0 k)) in F1. }
  rewrite (alloc_loop_next _ _ _ _ E1) by lia. pose proof (shape_took _ i1 Hs1) as Hs2.
  assert (i0 <> i1 /\ is_free s i1 = 1) as [N01 G1].
  { rewrite T0 in F1 by lia. destruct (Z.eqb_spec i0 i1); [done|]. destruct (Hok i1 R1); done. }
  assert (forall k, 0 <= k -> is_free (took i1 (took i0 s)) k = if i1 =? k then 0 else if i0 =? k then 0 else is_free s k) as T1.
  { intros k Hk. rewrite is_free_took by done. by rewrite T0. }
  destruct (alloc_desc_run (took i1 (took i0 s))) as [(i2 & R2 & F2 & E2)|[F2 E2]].
  - left. exists i0, i1, i2. rewrite (alloc_loop_next _ _ _ _ E2) by lia. rewrite T1 in F2 by lia.
    destruct (Z.eqb_spec i1 i2); [done|]. destruct (Z.eqb_spec i0 i2); [done|]. rewrite nodup3, !forall3. destruct (Hok i2 R2); split_and!; done || lia.
  - right. exists (freed i1 (freed i0 (took i1 (took i0 s)))). split; [|split; [by apply restored_two|]].
    + eapply alloc_loop_fail; [exact E2|]. cbn [app for_all].
      erewrite bind_ret_eq by (apply free_desc_run; [lia|]; rewrite T1 by lia; rewrite Z.eqb_refl; by destruct (i1 =? i0)).
      erewrite bind_ret_eq; [reflexivity|]. apply free_desc_run; [lia|]. rewrite is_free_freed, T1 by (done || lia). rewrite (proj2 (Z.eqb_neq i0 i1)) by done. by rewrite Z.eqb_refl.
    + exists i0, i1. intros k Hk N0 N1. specialize (F2 k Hk). rewrite T1 in F2 by lia.
      by rewrite (proj2 (Z.eqb_neq i1 k)), (proj2 (Z.eqb_neq i0 k)) in F2.
Qed.

(** ** What keeps a chain as it is *)
Lemma chain_ok_ext s s' b w idx :
  chain_ok s b w idx -> (forall i, i ∈ idx -> get_desc s' i = get_desc s i) ->
  get_op s' (idx_at idx 0) = get_op s (idx_at idx 0) -> in_b (get_info s' (idx_at idx 0)) = in_b (get_info s (idx_at idx 0)) ->
  db_blockno (v_bufs s' b) = db_blockno (v_bufs s b) -> chain_ok s' b w idx.
Proof.
  intros (i0 & i1 & i2 & -> & Hnd & Hr & D0 & D1 & D2 & O & Ib) Hd Ho Hi Hb.
  change (idx_at [i0; i1; i2] 0) with i0 in *. exists i0, i1, i2. rewrite !Hd by set_solver. rewrite Ho, Hi, Hb. done.
Qed.

Lemma owned_taken {honest} s queued used t p i : vinv honest s queued used -> v_thr s !! t = Some p -> i ∈ idxs p -> 0 <= i < NUM /\ is_free s i = 0.
Proof.
  intros I Ht Hi. destruct (idxs_chained p) as (b & w & Hc); [by intros E; rewrite E in Hi; apply not_elem_of_nil in Hi|].
  destruct (vi_chain _ _ _ I _ _ _ _ _ Ht Hc) as (i0 & i1 & i2 & E & _ & Hr & _). rewrite Forall_forall in Hr.
  assert (0 <= i < NUM) as Hri by (apply Hr; by rewrite E in *). split; [done|].
  destruct (vi_free _ _ _ I i Hri) as [[_ Hn]|[Hf _]]; [|done]. by destruct (Hn _ _ Ht).
Qed.

Lemma vinv_shape {honest} s queued used : vinv honest s queued used -> shape s /\ flags_ok s.
Proof.
  intros I. split; [split; apply I|]. intros i Hi. destruct (vi_free _ _ _ I i Hi) as [[-> _]|[-> _]]; auto.
Qed.

Lemma vinv_restored {honest} s s' queued used : vinv honest s queued used -> restored s s' -> vinv honest s' queued used.
Proof.
  intros I [[R1 R1'] R2 R3 R4 R5]. assert (vinv honest (set_thr (fun _ => v_thr s) s') queued used) as I'.
  { pose proof R5 as [= Q1 Q2 Q3 Q4 Q5 Q6 Q7 Q8 Q9 Q10 Q11 Q12]. pose proof I as [I1 I2 I3 I4 I5 I6 I7 I8 I9 I10 I11 I12 I13 I14 I15 I16 I17 I18 I21 I22 I19 I20].
    constructor; cbn [v_disk v_bufs v_thr v_intr v_sectors v_fetched v_taken v_notified v_irq set_thr]; rewrite ?Q1, ?Q2, ?Q3, ?Q4, ?Q5, ?Q6, ?Q7, ?Q8, ?Q9, ?Q10, ?Q11, ?Q12; try done.
    - intros i Hi. change (is_free (set_thr _ s') i) with (is_free s' i). rewrite R2 by lia. by apply I8.
    - intros t p b w idx Ht Hc. pose proof (I9 t p b w idx Ht Hc) as Hok. eapply chain_ok_ext; [exact Hok|..].
      + intros i Hi. destruct (chained_idxs _ _ _ _ Hc) as [E _]. rewrite <- E in Hi. destruct (owned_taken _ _ _ _ _ _ I Ht Hi) as [? ?]. apply R3; [lia|done].
      + unfold get_op. simpl. by rewrite Q5.
      + unfold get_info. simpl. by rewrite Q4.
      + simpl. by rewrite Q6.
    - intros Ho h Hh. unfold get_info. simpl. rewrite Q4. by apply I18. }
  destruct R4 as [R4|R4].
  - replace s' with (set_thr (fun _ => v_thr s) s'); [done|]. rewrite <- R4. by destruct s'.
  - apply vinv_wake_free in I'. replace s' with (set_thr (map wake_free) (set_thr (fun _ => v_thr s) s')); [done|].
    unfold set_thr. simpl. rewrite <- R4. by destruct s'.
Qed.

(** ** Submitting a request *)

(** Run updates of a state that is given field by field. *)
Ltac vcbv :=
  lazy beta iota zeta delta [set_pc modify took freed set_thr set_disk set_bufs set_intr set_notified set_irq set_info set_desc set_avail set_used set_free set_ops set_used_idx
    v_disk v_bufs v_thr v_intr v_sectors v_fetched v_taken v_notified v_irq dk_desc dk_avail dk_used dk_free dk_used_idx dk_info dk_ops av_idx av_ring in_b in_status].
Definition desc_head (i0 i1 : Z) : virtq_desc := mkDesc (DOps i0) 16 VRING_DESC_F_NEXT i1.
Definition desc_data (b : nat) (w : bool) (i2 : Z) : virtq_desc :=
  mkDesc (DData b) BSIZE (Z.lor (if w then 0 else VRING_DESC_F_WRITE) VRING_DESC_F_NEXT) i2.
Definition desc_stat (i0 : Z) : virtq_desc := mkDesc (DStatus i0) 1 VRING_DESC_F_WRITE 0.
Definition blk_req (w : bool) (bn : Z) : virtio_blk_req := mkBlkReq (if w then VIRTIO_BLK_T_OUT else VIRTIO_BLK_T_IN) 0 (2 * bn).

Definition submitted (t b : nat) (w : bool) (i0 i1 i2 : Z) (s : vstate) : vstate :=
  let d := v_disk s in let v := v_bufs s b in
  mkV (mkDisk (put i2 (desc_stat i0) (put i1 (desc_data b w i2) (put i0 (desc_head i0 i1) (dk_desc d))))
        (mkAvail (av_idx (dk_avail d)) (put (av_idx (dk_avail d) mod NUM) i0 (av_ring (dk_avail d))))
        (dk_used d) (put i2 0 (put i1 0 (put i0 0 (dk_free d)))) (dk_used_idx d)
        (put i0 (mkDiskInfo (Some b) 255) (dk_info d)) (put i0 (blk_req w (db_blockno v)) (dk_ops d)))
    (<[b := mkDbuf (db_blockno v) 1 (db_data v)]> (v_bufs s)) (<[t := Publish b w [i0; i1; i2]]> (v_thr s))
    (v_intr s) (v_sectors s) (v_fetched s) (v_taken s) (v_notified s) (v_irq s).

Lemma put_put {A} i (u v : A) l : put i u (put i v l) = put i u l.
Proof. apply list_insert_insert_eq. Qed.

Lemma rw_alloc_submit s t b w i0 i1 i2 :
  length (dk_info (v_disk s)) = Z.to_nat NUM -> 0 <= i0 < NUM -> 0 <= db_blockno (v_bufs s b) < 2 ^ 31 ->
  alloc3_desc s = Ret (Some [i0; i1; i2]) (took i2 (took i1 (took i0 s))) ->
  rw_alloc t b w s = Ret tt (submitted t b w i0 i1 i2 s).
Proof.
  intros Hi Hr Hb E. unfold rw_alloc. erewrite bind_ret_eq by exact E.
  unfold rw_format. cbn [idx_at]. change (idx_at [i0; i1; i2] 0) with i0. change (idx_at [i0; i1; i2] 1) with i1. change (idx_at [i0; i1; i2] 2) with i2.
  kunfold. simpl. change (v_bufs _ b) with (v_bufs s b). unfold submitted, blk_req.
  replace (uint32 (db_blockno (v_bufs s b) * (BSIZE / 512))) with (2 * db_blockno (v_bufs s b)).
  2: { change (BSIZE / 512) with 2. rewrite uint32_small; lia. }
  destruct s as [[dd [ai ar] us fr ui inf ops] bufs thr intr sec fe ta]. vcbv. simpl in Hi.
  rewrite elt_put by (rewrite ?Hi; unfold NUM in *; lia). rewrite Z.eqb_refl, put_put. reflexivity.
Qed.

(** ** Rings *)
Lemma vring_mod k : uint16 k mod NUM = k mod NUM.
Proof. unfold uint16, NUM. rewrite Z.mod_mod_divide; [done|]. exists 8192. done. Qed.

Lemma vring_length_lt l i : NoDup l -> Forall (fun x => 0 <= x < NUM) l -> 0 <= i < NUM -> i ∉ l -> Z.of_nat (length l) < NUM.
Proof.
  intros Hnd Hr Hi Hni. assert (length (i :: l) <= length (seqZ 0 NUM))%nat as Hle.
  { apply submseteq_length, NoDup_submseteq; [by constructor|]. intros x [->|Hx]%elem_of_cons; apply elem_of_seqZ; [lia|].
    rewrite Forall_forall in Hr. specialize (Hr x Hx). lia. }
  rewrite length_seqZ in Hle. simpl in Hle. unfold NUM in *. lia.
Qed.

Section Ring.
Context (ring : list Z) (lo hi : Z) (l : list Z) (HR : ring_is ring lo hi l) (Hlen : length ring = Z.to_nat NUM).

Lemma vring_hi_mod : hi mod NUM = (lo + Z.of_nat (length l)) mod NUM.
Proof. destruct HR as (_ & _ & -> & _). apply vring_mod. Qed.

(** The slot of the next entry is none of those in use. *)
Lemma vring_put x : Z.of_nat (length l) < NUM -> ring_is (put (hi mod NUM) x ring) lo hi l.
Proof.
  intros Hl. pose proof HR as (H1 & H2 & H3 & H4). split_and!; try done; [lia|lia|]. intros k y Hk. rewrite <- (H4 k y Hk).
  apply lookup_lt_Some in Hk. unfold put. apply list_lookup_insert_ne. rewrite vring_hi_mod.
  pose proof (Z.mod_pos_bound (lo + Z.of_nat k) NUM) as B1. pose proof (Z.mod_pos_bound (lo + Z.of_nat (length l)) NUM) as B2.
  intros E. unfold NUM in *. assert ((lo + Z.of_nat (length l)) mod 8 = (lo + Z.of_nat k) mod 8) as E' by lia. dlia.
Qed.

Lemma vring_push x : Z.of_nat (length l) < NUM -> ring_is (put (hi mod NUM) x ring) lo (uint16 (hi + 1)) (l ++ [x]).
Proof.
  intros Hl. destruct (vring_put x Hl) as (H1 & H2 & H3 & H4). split_and!; try done; [lia|lia|rewrite length_app; simpl; lia| |].
  - rewrite H3, length_app. unfold uint16. rewrite Zplus_mod_idemp_l. simpl. f_equal. lia.
  - intros k y [Hk|[Hk Hy]]%lookup_app_Some; [by apply H4|]. apply list_lookup_singleton_Some in Hy as [Hk0 <-].
    replace (Z.of_nat k) with (Z.of_nat (length l)) by lia. rewrite <- vring_hi_mod. unfold put.
    apply list_lookup_insert_eq. pose proof (Z.mod_pos_bound hi NUM). unfold NUM in *. lia.
Qed.

Lemma vring_nonempty : lo <> hi -> exists x l', l = x :: l'.
Proof.
  destruct HR as (H1 & _ & -> & _). destruct l as [|x l']; [|eauto]. simpl. rewrite Z.add_0_r. unfold uint16. by rewrite Z.mod_small by lia.
Qed.

Lemma vring_empty : l = [] -> hi = lo.
Proof. intros ->. destruct HR as (H1 & _ & -> & _). simpl. rewrite Z.add_0_r. unfold uint16. by rewrite Z.mod_small by lia. Qed.
End Ring.

Lemma vring_ne ring lo hi x l : ring_is ring lo hi (x :: l) -> lo <> hi.
Proof.
  intros (H1 & H2 & H3 & _) E. rewrite <- E in H3. simpl in H2, H3. unfold uint16, NUM in *.
  pose proof (Z.mod_pos_bound (lo + Z.of_nat (S (length l))) (2 ^ 16)). dlia.
Qed.

Lemma vring_pop ring lo hi x l : ring_is ring lo hi (x :: l) -> elt 0 ring (lo mod NUM) = x /\ ring_is ring (uint16 (lo + 1)) hi l.
Proof.
  intros (H1 & H2 & H3 & H4). simpl in H2. split.
  - unfold elt. specialize (H4 0%nat x eq_refl). rewrite Z.add_0_r in H4. by rewrite H4.
  - split_and!; [apply Z.mod_pos_bound; lia|apply Z.mod_pos_bound; lia|lia| |].
    + rewrite H3. unfold uint16. rewrite Zplus_mod_idemp_l. f_equal. simpl. lia.
    + intros k y Hk. rewrite <- (H4 (S k) y Hk). f_equal. f_equal. unfold uint16, NUM. rewrite <- (Zplus_mod_idemp_l (_ mod 2 ^ 16)).
      rewrite Z.mod_mod_divide by (by exists 8192). rewrite Zplus_mod_idemp_l. f_equal. lia.
Qed.

(** The slot of the entry that is being published. *)
Lemma vring_publish ring lo hi l x : ring_is ring lo hi l -> Z.of_nat (length l) < NUM -> length ring = Z.to_nat NUM ->
  elt 0 ring (hi mod NUM) = x -> ring_is ring lo (uint16 (hi + 1)) (l ++ [x]).
Proof.
  intros HR Hl Hlen Hx. replace ring with (put (hi mod NUM) x ring); [by apply vring_push|]. unfold put, elt in *.
  pose proof (Z.mod_pos_bound hi NUM). destruct (lookup_lt_is_Some_2 ring (Z.to_nat (hi mod NUM))) as [y Hy]; [unfold NUM in *; lia|].
  rewrite Hy in Hx. simpl in Hx. subst y. by apply list_insert_id.
Qed.

Lemma head_owned {honest} s queued used h : vinv honest s queued used -> h ∈ queued ++ v_taken s ++ used ->
  exists t p, v_thr s !! t = Some p /\ h ∈ idxs p /\ 0 <= h < NUM /\ is_free s h = 0.
Proof.
  intros I (t & p & b & w & idx & Ht & Hp & _ & ->)%(vi_live _ _ _ I). apply posted_chained in Hp as Hc.
  destruct (vi_chain _ _ _ I _ _ _ _ _ Ht Hc) as (i0 & i1 & i2 & -> & _). destruct (chained_idxs _ _ _ _ Hc) as [E _].
  assert (idx_at [i0; i1; i2] 0 ∈ idxs p) as Hin by (rewrite E; set_solver).
  destruct (owned_taken _ _ _ _ _ _ I Ht Hin) as [? ?]. exists t, p. done.
Qed.

Lemma heads_lt {honest} s queued used i l : vinv honest s queued used -> 0 <= i < NUM -> i ∉ queued ++ v_taken s ++ used -> NoDup l ->
  (forall x, x ∈ l -> x ∈ queued ++ v_taken s ++ used) -> Z.of_nat (length l) < NUM.
Proof.
  intros I Hi Hni Hl Hin. apply (vring_length_lt l i); [done| |done|by intros ?%Hin].
  apply Forall_forall. intros x Hx%Hin. destruct (head_owned _ _ _ _ I Hx) as (_ & _ & _ & _ & ? & _). done.
Qed.

Lemma heads_nodup {honest} s queued used : vinv honest s queued used -> NoDup queued /\ NoDup (v_taken s) /\ NoDup used.
Proof. intros I. pose proof (vi_nodup _ _ _ I) as (H1 & _ & (H2 & _ & H3)%NoDup_app)%NoDup_app. done. Qed.

Section Submit.
Context {honest : bool} (s : vstate) (queued used : list Z) (I : vinv honest s queued used).
Context (t b : nat) (w : bool) (Ht : v_thr s !! t = Some (Alloc b w)) (Hlock : lock_free s).
Context (i0 i1 i2 : Z) (Hnd : NoDup [i0; i1; i2]) (Hr : Forall (fun i => 0 <= i < NUM) [i0; i1; i2]) (Hf : Forall (fun i => is_free s i = 1) [i0; i1; i2]).
Let s' := submitted t b w i0 i1 i2 s.

Lemma sub_free j : 0 <= j -> is_free s' j = if decide (j ∈ [i0; i1; i2]) then 0 else is_free s j.
Proof.
  intros Hj. apply forall3 in Hr as (R0 & R1 & R2). pose proof (vi_lfree _ _ _ I) as L. unfold is_free, s', submitted. simpl.
  assert (Z.of_nat (length (dk_free (v_disk s))) = NUM) as L' by (rewrite L; done).
  rewrite !elt_put by (rewrite ?put_length; lia).
  destruct (Z.eqb_spec i2 j), (Z.eqb_spec i1 j), (Z.eqb_spec i0 j); case_decide as Hd; try done; set_solver.
Qed.

Lemma sub_desc j : 0 <= j -> get_desc s' j = if i2 =? j then desc_stat i0 else if i1 =? j then desc_data b w i2 else if i0 =? j then desc_head i0 i1 else get_desc s j.
Proof.
  intros Hj. apply forall3 in Hr as (R0 & R1 & R2). assert (Z.of_nat (length (dk_desc (v_disk s))) = NUM) as L' by (rewrite (vi_desc _ _ _ I); done).
  unfold get_desc, s', submitted. simpl. by rewrite !elt_put by (rewrite ?put_length; lia).
Qed.

Lemma sub_op j : 0 <= j -> get_op s' j = if i0 =? j then blk_req w (db_blockno (v_bufs s b)) else get_op s j.
Proof.
  intros Hj. apply forall3 in Hr as (R0 & R1 & R2). assert (Z.of_nat (length (dk_ops (v_disk s))) = NUM) as L' by (rewrite (vi_ops _ _ _ I); done).
  unfold get_op, s', submitted. simpl. by rewrite !elt_put by (rewrite ?put_length; lia).
Qed.

Lemma sub_info j : 0 <= j -> get_info s' j = if i0 =? j then mkDiskInfo (Some b) 255 else get_info s j.
Proof.
  intros Hj. apply forall3 in Hr as (R0 & R1 & R2). assert (Z.of_nat (length (dk_info (v_disk s))) = NUM) as L' by (rewrite (vi_info _ _ _ I); done).
  unfold get_info, s', submitted. simpl. by rewrite !elt_put by (rewrite ?put_length; lia).
Qed.

Lemma sub_buf x : x <> b -> v_bufs s' x = v_bufs s x.
Proof. intros Hx. unfold s', submitted. simpl. by rewrite fn_lookup_insert_ne. Qed.
Lemma sub_buf_eq : v_bufs s' b = mkDbuf (db_blockno (v_bufs s b)) 1 (db_data (v_bufs s b)).
Proof. unfold s', submitted. simpl. by rewrite fn_lookup_insert. Qed.

(** The other threads use other descriptors and buffers. *)
Lemma sub_other t' p : v_thr s !! t' = Some p -> t' <> t -> (forall i, i ∈ idxs p -> i ∉ [i0; i1; i2] /\ 0 <= i < NUM) /\ uses p <> Some b.
Proof.
  intros Hp Hne. split.
  - intros i Hi. destruct (owned_taken _ _ _ _ _ _ I Hp Hi) as [Hri Hfi]. split; [|done]. intros Hin. rewrite Forall_forall in Hf. specialize (Hf i Hin). lia.
  - intros Hu. apply Hne. by eapply (vi_uses _ _ _ I).
Qed.

Lemma sub_heads h : h ∈ queued ++ v_taken s ++ used -> h ∉ [i0; i1; i2] /\ 0 <= h < NUM.
Proof.
  intros Hh. destruct (head_owned _ _ _ _ I Hh) as (t1 & p1 & H1 & H2 & H3 & H4). split; [|done].
  intros Hin. rewrite Forall_forall in Hf. specialize (Hf h Hin). lia.
Qed.

Lemma sub_chain t' p b' w' idx : <[t := Publish b w [i0; i1; i2]]> (v_thr s) !! t' = Some p -> chained p = Some (b', w', idx) -> chain_ok s' b' w' idx.
Proof.
  apply nodup3 in Hnd as Hnd'. destruct Hnd' as (N01 & N02 & N12). apply forall3 in Hr as Hr'. destruct Hr' as (R0 & R1 & R2).
  intros [[-> ->]|[Hne Hp]]%thr_insert Hc.
  - injection Hc as <- <- <-. exists i0, i1, i2. split_and!; try done.
    + rewrite sub_desc by lia. rewrite (proj2 (Z.eqb_neq i2 i0)), (proj2 (Z.eqb_neq i1 i0)), Z.eqb_refl by congruence. done.
    + rewrite sub_desc by lia. rewrite (proj2 (Z.eqb_neq i2 i1)), Z.eqb_refl by congruence. done.
    + rewrite sub_desc by lia. by rewrite Z.eqb_refl.
    + rewrite sub_op, Z.eqb_refl, sub_buf_eq by lia. done.
    + by rewrite sub_info, Z.eqb_refl by lia.
  - destruct (sub_other _ _ Hp Hne) as [Hi Hu]. destruct (chained_idxs _ _ _ _ Hc) as [E Eu]. rewrite E in Hi.
    pose proof (vi_chain _ _ _ I _ _ _ _ _ Hp Hc) as Hok. assert (idx_at idx 0 ∈ idx) as H0 by (destruct Hok as (? & ? & ? & -> & _); set_solver).
    destruct (Hi _ H0) as [Hn0 Hr0]. eapply chain_ok_ext; [exact Hok|..].
    + intros i Hin. destruct (Hi i Hin) as [Hn ?]. rewrite sub_desc by lia. rewrite !(proj2 (Z.eqb_neq _ i)) by set_solver. done.
    + rewrite sub_op by lia. by rewrite (proj2 (Z.eqb_neq i0 _)) by set_solver.
    + rewrite sub_info by lia. by rewrite (proj2 (Z.eqb_neq i0 _)) by set_solver.
    + rewrite sub_buf; [done|]. congruence.
Qed.

Lemma sub_live h : h ∈ queued ++ v_taken s ++ used <-> exists t' p b' w' idx, <[t := Publish b w [i0; i1; i2]]> (v_thr s) !! t' = Some p
  /\ posted p = Some (b', w', idx) /\ db_disk (v_bufs s' b') = 1 /\ h = idx_at idx 0.
Proof.
  rewrite (vi_live _ _ _ I). split.
  - intros (t' & p & b' & w' & idx & Hp & Hq & Hd & ->). assert (t' <> t) as Hne by (intros ->; rewrite Ht in Hp; by injection Hp as <-).
    destruct (sub_other _ _ Hp Hne) as [_ Hu]. destruct (chained_idxs _ _ _ _ (posted_chained _ _ Hq)) as [_ E].
    exists t', p, b', w', idx. rewrite list_lookup_insert_ne by done. rewrite sub_buf by congruence. done.
  - intros (t' & p & b' & w' & idx & [[-> ->]|[Hne Hp]]%thr_insert & Hq & Hd & ->); [done|].
    destruct (sub_other _ _ Hp Hne) as [_ Hu]. destruct (chained_idxs _ _ _ _ (posted_chained _ _ Hq)) as [_ E].
    exists t', p, b', w', idx. rewrite sub_buf in Hd by congruence. done.
Qed.

Lemma vinv_submit : vinv honest s' queued used.
Proof.
  pose proof I as [I1 I2 I3 I4 I5 I6 I7 I8 I9 I10 I11 I12 I13 I14 I15 I16 I17 I18 I21 I22 I19 I20].
  apply forall3 in Hr as Hr'. destruct Hr' as (R0 & R1 & R2).
  assert (Z.of_nat (length queued) < NUM) as Hq.
  { apply (heads_lt (honest := honest) s queued used i0); [done|done| |by apply (heads_nodup _ _ _ I)|set_solver]. intros [Hn _]%sub_heads. set_solver. }
  constructor; unfold s', submitted; cbn [v_disk v_bufs v_thr v_intr v_sectors v_fetched v_taken v_notified v_irq dk_desc dk_avail dk_used dk_free dk_used_idx dk_info dk_ops av_idx av_ring];
    fold (submitted t b w i0 i1 i2 s); fold s'; rewrite ?put_length; try done.
  - intros t1 t2 p1 p2 i [[-> ->]|[N1 H1]]%thr_insert [[-> ->]|[N2 H2]]%thr_insert J1 J2; try done.
    + by destruct (proj1 (sub_other _ _ H2 N2) i J2).
    + by destruct (proj1 (sub_other _ _ H1 N1) i J1).
    + by eapply I7.
  - intros i Hi. rewrite sub_free by lia. case_decide as Hd.
    + right. split; [done|]. exists t, (Publish b w [i0; i1; i2]). rewrite list_lookup_insert_eq by (by eapply lookup_lt_Some). done.
    + destruct (I8 i Hi) as [[Hfi Hn]|[Hfi (t' & p & Hp & Hin)]]; [left|right]; (split; [done|]).
      * intros t' p [[-> ->]|[N Hp]]%thr_insert; [done|]. by eapply Hn.
      * exists t', p. split; [|done]. rewrite list_lookup_insert_ne; [done|]. intros <-. rewrite Ht in Hp. injection Hp as <-. set_solver.
  - apply sub_chain.
  - intros t1 t2 p1 p2 b' [[-> ->]|[N1 H1]]%thr_insert [[-> ->]|[N2 H2]]%thr_insert J1 J2; try done.
    + injection J1 as <-. by destruct (proj2 (sub_other _ _ H2 N2)).
    + injection J2 as <-. by destruct (proj2 (sub_other _ _ H1 N1)).
    + by eapply I10.
  - intros x. change (<[b:=_]> (v_bufs s) x) with (v_bufs s' x). destruct (decide (x = b)) as [->|Hx]; [|by rewrite sub_buf].
    rewrite sub_buf_eq. destruct (I11 b) as (? & ? & _). simpl. auto.
  - by apply vring_put.
  - intros h. apply sub_live.
  - intros t' b' w' idx [[-> [= -> -> ->]]|[N Hp]]%thr_insert; [|by destruct Hlock as [_ Hl]; apply Hl in Hp].
    change (<[b:=_]> (v_bufs s) b) with (v_bufs s' b). rewrite sub_buf_eq. split_and!; [done|apply Hlock| |].
    + rewrite elt_put; [by rewrite Z.eqb_refl| |]; pose proof (Z.mod_pos_bound (av_idx (dk_avail (v_disk s))) NUM); rewrite ?I2; unfold NUM in *; lia.
    + intros t' b' w' idx' [[-> _]|[N Hp]]%thr_insert; [done|]. by destruct Hlock as [_ Hl]; apply Hl in Hp.
  - intros Ho h Hh. destruct (sub_heads h) as [Hn ?]; [set_solver|]. rewrite sub_info by lia. rewrite (proj2 (Z.eqb_neq i0 h)) by set_solver. by apply I18.
  - intros t' b' w' idx [[_ ?]|[N Hp]]%thr_insert; [done|]. change (<[b:=_]> (v_bufs s) b') with (v_bufs s' b').
    rewrite sub_buf; [by eapply I19|]. intros ->. by destruct (proj2 (sub_other _ _ Hp N)).
  - intros t' b' w' _. exists t, (Publish b w [i0; i1; i2]). rewrite list_lookup_insert_eq by (by eapply lookup_lt_Some). done.
Qed.
End Submit.
