(* ===== verification/VirtioInv2.v ===== *)
(** * The invariant of the disk driver: publishing, returning, interrupts, device *)
From stdpp Require Import functions.
From S2P Require Import Prelude State Bytes Virtio VirtioSpec VirtioInv.

Open Scope Z_scope.

Ltac vproj := cbn [v_disk v_bufs v_thr v_intr v_sectors v_fetched v_taken v_notified v_irq dk_desc dk_avail dk_used dk_free dk_used_idx dk_info dk_ops av_idx av_ring us_idx us_ring
  set_thr set_disk set_bufs set_intr set_notified set_irq set_info set_desc set_avail set_used set_free set_ops set_used_idx].

(** ** Publishing a request *)
Definition published (t b : nat) (w : bool) (idx : list Z) (s : vstate) : vstate :=
  set_thr (insert t (Wait b w idx)) (set_notified (uint16 (av_idx (dk_avail (v_disk s)) + 1))
    (set_disk (set_avail (fun a => mkAvail (uint16 (av_idx a + 1)) (av_ring a))) s)).

Lemma rw_publish_run t b w idx s : rw_publish t b w idx s = Ret tt (published t b w idx s).
Proof. done. Qed.

Section Publishing.
Context {honest : bool} (s : vstate) (queued used : list Z) (I : vinv honest s queued used).
Context (t b : nat) (w : bool) (idx : list Z) (Ht : v_thr s !! t = Some (Publish b w idx)).

(** Its head is with neither ring nor device yet. *)
Lemma publish_fresh : idx_at idx 0 ∈ idx /\ 0 <= idx_at idx 0 < NUM /\ idx_at idx 0 ∉ queued ++ v_taken s ++ used.
Proof.
  destruct (vi_chain _ _ _ I _ _ _ _ _ Ht eq_refl) as (i0 & i1 & i2 & -> & _ & Hr & _). apply forall3 in Hr as (? & _ & _).
  change (idx_at [i0; i1; i2] 0) with i0. split; [set_solver|]. split; [done|].
  intros (t' & p & b' & w' & idx' & Hp & Hq & _ & E)%(vi_live _ _ _ I). assert (t = t') as <-.
  { eapply (vi_own _ _ _ I _ _ _ _ i0 Ht Hp); [simpl; set_solver|]. destruct (chained_idxs _ _ _ _ (posted_chained _ _ Hq)) as [-> _].
    destruct (vi_chain _ _ _ I _ _ _ _ _ Hp (posted_chained _ _ Hq)) as (j0 & j1 & j2 & -> & _). rewrite E. set_solver. }
  rewrite Ht in Hp. by injection Hp as <-.
Qed.

Lemma pub_thr t' p' : <[t := Wait b w idx]> (v_thr s) !! t' = Some p' ->
  exists p, v_thr s !! t' = Some p /\ idxs p' = idxs p /\ chained p' = chained p /\ uses p' = uses p /\ (t' <> t -> p' = p).
Proof. intros [[-> ->]|[Hne Hp]]%thr_insert; [by exists (Publish b w idx)|by exists p']. Qed.

Lemma pub_thr_back t' p : v_thr s !! t' = Some p -> t' <> t -> <[t := Wait b w idx]> (v_thr s) !! t' = Some p.
Proof. intros Hp Hne. by rewrite list_lookup_insert_ne. Qed.

Lemma pub_at : <[t := Wait b w idx]> (v_thr s) !! t = Some (Wait b w idx).
Proof. apply list_lookup_insert_eq. by eapply lookup_lt_Some. Qed.

Lemma vinv_publish : vinv honest (published t b w idx s) (queued ++ [idx_at idx 0]) used.
Proof.
  pose proof I as [I1 I2 I3 I4 I5 I6 I7 I8 I9 I10 I11 I12 I13 I14 I15 I16 I17 I18 I21 I22 I19 I20].
  destruct publish_fresh as (Hin & Hr & Hfresh). destruct (I17 _ _ _ _ Ht) as (Hd & Hintr & Hslot & Huniq).
  assert (forall t' p, v_thr s !! t' = Some p -> exists p', <[t := Wait b w idx]> (v_thr s) !! t' = Some p' /\ idxs p' = idxs p) as Hback.
  { intros t' p Hp. destruct (decide (t' = t)) as [->|Hne]; [|exists p; split; [by apply pub_thr_back|done]].
    exists (Wait b w idx). rewrite pub_at. split; [done|]. rewrite Ht in Hp. by injection Hp as <-. }
  constructor; unfold published; vproj; try done.
  - intros t1 t2 p1 p2 i (q1 & E1 & -> & _)%pub_thr (q2 & E2 & -> & _)%pub_thr. by eapply I7.
  - intros i Hi. destruct (I8 i Hi) as [[Hf Hn]|[Hf (t' & p & Hp & Hip)]]; [left|right]; (split; [done|]).
    + intros t' p (q & E & -> & _)%pub_thr. by eapply Hn.
    + destruct (Hback t' p Hp) as (p' & Hp' & E). exists t', p'. by rewrite E.
  - intros t' p b' w' idx' (q & E & _ & -> & _)%pub_thr Hc. by apply (I9 t' q).
  - intros t1 t2 p1 p2 b' (q1 & E1 & _ & _ & -> & _)%pub_thr (q2 & E2 & _ & _ & -> & _)%pub_thr. by eapply I10.
  - apply vring_publish; try done. apply (heads_lt (honest := honest) s queued used (idx_at idx 0)); [done|done|done|by apply (heads_nodup _ _ _ I)|set_solver].
  - rewrite <- app_assoc. cbn [app]. rewrite <- Permutation_middle. by constructor.
  - intros h. rewrite <- app_assoc. cbn [app]. rewrite <- Permutation_middle, elem_of_cons, I16. split.
    + intros [->|(t' & p & b' & w' & idx' & Hp & Hq & Hd' & ->)].
      * exists t, (Wait b w idx), b, w, idx. by rewrite pub_at.
      * exists t', p, b', w', idx'. split; [|done]. apply pub_thr_back; [done|]. intros ->. rewrite Ht in Hp. by injection Hp as <-.
    + intros (t' & p & b' & w' & idx' & [[-> ->]|[Hne Hp]]%thr_insert & Hq & Hd' & ->); [injection Hq as <- <- <-; by left|].
      right. exists t', p, b', w', idx'. done.
  - intros t' b' w' idx' [[_ ?]|[Hne Hp]]%thr_insert; [done|]. by destruct Hne; eapply Huniq.
  - intros t' b' w' idx' [[_ ?]|[Hne Hp]]%thr_insert; [done|]. by eapply I19.
  - intros t' b' w' _. exists t, (Wait b w idx). rewrite pub_at. split; [done|]. simpl. intros ->. by apply not_elem_of_nil in Hin.
Qed.
End Publishing.

(** ** Returning *)
Definition forget_buf (i : Z) (l : list disk_info) : list disk_info := put i (mkDiskInfo None (in_status (elt info0 l i))) l.

Lemma forget_length i l : length (forget_buf i l) = length l.
Proof. apply put_length. Qed.

Definition released (t : nat) (i0 i1 i2 : Z) (s : vstate) : vstate :=
  let d := v_disk s in
  mkV (mkDisk (put i2 desc0 (put i1 desc0 (put i0 desc0 (dk_desc d)))) (dk_avail d) (dk_used d)
        (put i2 1 (put i1 1 (put i0 1 (dk_free d)))) (dk_used_idx d) (forget_buf i0 (dk_info d)) (dk_ops d))
    (v_bufs s) (<[t := Idle]> (map wake_free (v_thr s))) (v_intr s) (v_sectors s) (v_fetched s) (v_taken s) (v_notified s) (v_irq s).

Section Returning.
Context {honest : bool} (s : vstate) (queued used : list Z) (I : vinv honest s queued used).
Context (t b : nat) (w : bool) (i0 i1 i2 : Z).
Let idx := [i0; i1; i2].
Context (Ht : v_thr s !! t = Some (Wait b w idx)) (Hd : db_disk (v_bufs s b) <> 1).
Let s' := released t i0 i1 i2 s.

Lemma ret_range : (0 <= i0 < NUM /\ 0 <= i1 < NUM /\ 0 <= i2 < NUM) /\ (i0 <> i1 /\ i0 <> i2 /\ i1 <> i2).
Proof.
  destruct (vi_chain _ _ _ I _ _ _ _ _ Ht eq_refl) as (j0 & j1 & j2 & E & Hnd & Hr & _).
  split; [by apply (forall3 (fun i => 0 <= i < NUM))|by apply nodup3].
Qed.

Lemma rw_wait_ret : rw_wait t b w idx s = Ret tt s'.
Proof.
  destruct ret_range as [(R0 & R1 & R2) Hne]. destruct (vi_chain _ _ _ I _ _ _ _ _ Ht eq_refl) as (j0 & j1 & j2 & [= <- <- <-] & Hnd & Hr & D0 & D1 & D2 & _).
  assert (forall i, i ∈ idx -> is_free s i = 0) as Hf by (intros i Hi; by destruct (owned_taken _ _ _ _ _ _ I Ht Hi)).
  unfold rw_wait. erewrite bind_ret_eq by reflexivity. rewrite (proj2 (Z.eqb_neq _ 1)) by done. erewrite bind_ret_eq by reflexivity.
  change (idx_at idx 0) with i0. set (s1 := set_disk _ s).
  erewrite bind_ret_eq.
  2: { apply (free_chain_run s1 i0 i1 i2); try done; change (get_desc s1) with (get_desc s); rewrite ?D0, ?D1, ?D2; try done.
       - split; apply I.
       - apply forall3. change (is_free s1) with (is_free s). rewrite !Hf by (unfold idx; set_solver). done.
       - by destruct w. }
  unfold s', released, s1, forget_buf. destruct s as [[dd [ai ar] us fr ui inf ops] bufs thr intr sec fe ta]. vcbv. by rewrite !wake_free_twice.
Qed.

Lemma rel_free j : 0 <= j -> is_free s' j = if decide (j ∈ idx) then 1 else is_free s j.
Proof.
  intros Hj. destruct ret_range as [(R0 & R1 & R2) _]. unfold is_free, s', released. vproj.
  assert (Z.of_nat (length (dk_free (v_disk s))) = NUM) as L' by (by rewrite (vi_lfree _ _ _ I)).
  rewrite !elt_put by (rewrite ?put_length; lia). unfold idx.
  destruct (Z.eqb_spec i2 j), (Z.eqb_spec i1 j), (Z.eqb_spec i0 j); case_decide; try done; set_solver.
Qed.

Lemma rel_desc j : 0 <= j -> j ∉ idx -> get_desc s' j = get_desc s j.
Proof.
  intros Hj Hn. destruct ret_range as [(R0 & R1 & R2) _]. unfold get_desc, s', released. vproj.
  assert (Z.of_nat (length (dk_desc (v_disk s))) = NUM) as L' by (by rewrite (vi_desc _ _ _ I)).
  rewrite !elt_put by (rewrite ?put_length; lia). by rewrite !(proj2 (Z.eqb_neq _ j)) by (unfold idx in Hn; set_solver).
Qed.

Lemma rel_info j : 0 <= j -> in_status (get_info s' j) = in_status (get_info s j) /\ (j <> i0 -> get_info s' j = get_info s j).
Proof.
  intros Hj. destruct ret_range as [(R0 & _) _]. unfold get_info, s', released, forget_buf. vproj.
  assert (Z.of_nat (length (dk_info (v_disk s))) = NUM) as L' by (by rewrite (vi_info _ _ _ I)).
  rewrite !elt_put by lia. by destruct (Z.eqb_spec i0 j) as [<-|].
Qed.

Lemma rel_thr t' p' : <[t := Idle]> (map wake_free (v_thr s)) !! t' = Some p' ->
  (t' = t /\ p' = Idle) \/ (t' <> t /\ exists p, v_thr s !! t' = Some p /\ p' = wake_free p /\ forall i, i ∈ idxs p -> i ∉ idx).
Proof.
  intros [[-> ->]|[Hne Hp]]%thr_insert; [by left|right]. split; [done|]. apply list_lookup_fmap_Some in Hp as (p & -> & Hp).
  exists p. split_and!; try done. intros i Hi Hin. apply Hne. by eapply (vi_own _ _ _ I _ _ _ _ i Hp Ht).
Qed.

Lemma rel_back t' p : v_thr s !! t' = Some p -> t' <> t -> <[t := Idle]> (map wake_free (v_thr s)) !! t' = Some (wake_free p).
Proof. intros Hp Hne. rewrite list_lookup_insert_ne by done. by rewrite list_lookup_fmap, Hp. Qed.

Lemma vinv_ret : vinv honest s' queued used.
Proof.
  pose proof I as [I1 I2 I3 I4 I5 I6 I7 I8 I9 I10 I11 I12 I13 I14 I15 I16 I17 I18 I21 I22 I19 I20].
  assert (forall p, alike p (wake_free p)) as Ha by (intros p; apply wake_free_alike).
  constructor; unfold s', released; vproj; fold (released t i0 i1 i2 s); fold s'; rewrite ?forget_length, ?put_length; try done.
  - intros t1 t2 p1 p2 i [[-> ->]|[N1 (q1 & E1 & -> & _)]]%rel_thr; [set_solver|]. rewrite (proj1 (Ha _)).
    intros [[-> ->]|[N2 (q2 & E2 & -> & _)]]%rel_thr; [set_solver|]. rewrite (proj1 (Ha _)). by eapply I7.
  - intros i Hi. rewrite rel_free by lia. case_decide as Hin.
    + left. split; [done|]. intros t' p [[-> ->]|[N (q & E & -> & Hq)]]%rel_thr; [set_solver|]. rewrite (proj1 (Ha _)). intros Hiq. by apply (Hq i).
    + destruct (I8 i Hi) as [[Hf Hn]|[Hf (t' & p & Hp & Hip)]]; [left|right]; (split; [done|]).
      * intros t' p [[-> ->]|[N (q & E & -> & Hq)]]%rel_thr; [set_solver|]. rewrite (proj1 (Ha _)). by eapply Hn.
      * assert (t' <> t) as Hne by (intros ->; rewrite Ht in Hp; by injection Hp as <-).
        exists t', (wake_free p). split; [by apply rel_back|]. by rewrite (proj1 (Ha _)).
  - intros t' p b' w' idx' [[-> ->]|[N (q & E & -> & Hq)]]%rel_thr; [done|]. rewrite (proj2 (proj2 (Ha _))). intros Hc.
    pose proof (I9 _ _ _ _ _ E Hc) as Hok. destruct (chained_idxs _ _ _ _ Hc) as [Ei _]. rewrite Ei in Hq.
    assert (forall i, i ∈ idx' -> 0 <= i) as Hpos by (intros i Hi; rewrite <- Ei in Hi; destruct (owned_taken _ _ _ _ _ _ I E Hi); lia).
    assert (idx_at idx' 0 ∈ idx') as H0 by (destruct Hok as (? & ? & ? & -> & _); set_solver).
    eapply chain_ok_ext; [exact Hok|intros i Hi; apply rel_desc; auto|done| |done]. f_equal.
    apply rel_info; [auto|]. intros E0. rewrite E0 in H0. apply (Hq i0 H0). unfold idx. set_solver.
  - intros t1 t2 p1 p2 b' [[-> ->]|[N1 (q1 & E1 & -> & _)]]%rel_thr; [done|]. rewrite (proj2 (wake_free_alike _)).
    intros [[-> ->]|[N2 (q2 & E2 & -> & _)]]%rel_thr; [done|]. rewrite (proj2 (wake_free_alike _)). by eapply I10.
  - intros h. rewrite I16. split.
    + intros (t' & p & b' & w' & idx' & Hp & Hq & Hd' & ->). assert (t' <> t) as Hne by (intros ->; rewrite Ht in Hp; injection Hp as <-; injection Hq as <- <- <-; done).
      exists t', (wake_free p), b', w', idx'. rewrite (proj1 (proj2 (Ha _))). split; [by apply rel_back|done].
    + intros (t' & p & b' & w' & idx' & [[-> ->]|[N (q & E & -> & _)]]%rel_thr & Hq & Hd' & ->); [done|].
      rewrite (proj1 (proj2 (Ha _))) in Hq. exists t', q, b', w', idx'. done.
  - intros t' b' w' idx' [[_ ?]|[N (q & E & Eq & _)]]%rel_thr; [done|]. assert (q = Publish b' w' idx') as -> by (by destruct q).
    destruct (I17 _ _ _ _ E) as (J1 & J2 & J3 & J4). split_and!; try done.
    intros t1 b1 w1 idx1 [[_ ?]|[N1 (q & E1 & Eq1 & _)]]%rel_thr; [done|]. assert (q = Publish b1 w1 idx1) as -> by (by destruct q). by eapply J4.
  - intros Ho h Hh. assert (h ∈ queued ++ v_taken s ++ used) as Hin by set_solver.
    destruct (head_owned _ _ _ _ I Hin) as (_ & _ & _ & _ & ? & _). rewrite (proj1 (rel_info h ltac:(lia))). by apply I18.
  - intros t' b' w' idx' [[_ ?]|[N (q & E & Eq & _)]]%rel_thr; [done|]. assert (q = SleepBuf b' w' idx') as -> by (by destruct q). by eapply I19.
  - intros t' b' w' [[_ ?]|[N (q & E & Eq & _)]]%rel_thr; [done|]. by destruct q.
Qed.
End Returning.

(** ** The interrupt handler *)
Definition entered (s : vstate) : vstate := set_intr true (set_irq (Z.ldiff (v_irq s) (Z.land (v_irq s) 3)) s).

Lemma intr_enter_run s : intr_enter s = Ret tt (entered s).
Proof. done. Qed.

Lemma vinv_intr {honest} s queued used : vinv honest s queued used -> lock_free s -> vinv honest (entered s) queued used.
Proof.
  intros [I1 I2 I3 I4 I5 I6 I7 I8 I9 I10 I11 I12 I13 I14 I15 I16 I17 I18 I21 I22 I19 I20] [_ Hl]. constructor; try done.
  - intros t b w idx Hp. by apply Hl in Hp.
  - by left.
Qed.

(** The handler leaves its loop when it has seen every used entry; an entry that
    the device adds later raises an interrupt. *)
Lemma vinv_intr_done {honest} s queued : vinv honest s queued [] -> vinv honest (set_intr false s) queued [].
Proof.
  intros [I1 I2 I3 I4 I5 I6 I7 I8 I9 I10 I11 I12 I13 I14 I15 I16 I17 I18 I21 I22 I19 I20]. constructor; try done.
  intros t b w idx Hp. destruct (I17 _ _ _ _ Hp) as (J1 & J2 & J3 & J4). done.
Qed.

Definition finished (b : nat) (s : vstate) : vstate :=
  set_disk (set_used_idx (uint16 (dk_used_idx (v_disk s) + 1)))
    (set_thr (map (wake_buf b)) (set_bufs (fun f => <[b := mkDbuf (db_blockno (f b)) 0 (db_data (f b))]> f) s)).

Section Turn.
Context {honest : bool} (s : vstate) (queued used : list Z) (h : Z) (I : vinv honest s queued (h :: used)).

(** The call whose request the next used entry is. *)
Lemma turn_owner : exists t p b w idx, v_thr s !! t = Some p /\ posted p = Some (b, w, idx) /\ db_disk (v_bufs s b) = 1 /\ h = idx_at idx 0
  /\ in_b (get_info s h) = Some b /\ h ∈ idxs p.
Proof.
  destruct (proj1 (vi_live _ _ _ I h)) as (t & p & b & w & idx & Hp & Hq & Hd & Eh); [set_solver|].
  exists t, p, b, w, idx. destruct (vi_chain _ _ _ I _ _ _ _ _ Hp (posted_chained _ _ Hq)) as (i0 & i1 & i2 & -> & _ & _ & _ & _ & _ & _ & Hb).
  destruct (chained_idxs _ _ _ _ (posted_chained _ _ Hq)) as [-> _]. change (idx_at [i0; i1; i2] 0) with i0 in *. subst h. split_and!; try done. set_solver.
Qed.

Lemma intr_turn_eq : intr_turn s =
  if negb (in_status (get_info s h) =? 0) then Panic "virtio_disk_intr status" else
  match in_b (get_info s h) with None => Panic "kerneltrap" | Some b => Ret tt (finished b s) end.
Proof.
  pose proof (vi_used _ _ _ I) as HR. pose proof (vring_pop _ _ _ _ _ HR) as [Ee _].
  unfold intr_turn. erewrite bind_ret_eq by reflexivity.
  rewrite (proj2 (Z.eqb_neq (dk_used_idx (v_disk s)) (us_idx (dk_used (v_disk s))))) by (by eapply vring_ne).
  assert (ue_id (elt (mkUsedElem 0 0) (us_ring (dk_used (v_disk s))) (dk_used_idx (v_disk s) mod NUM)) = h) as ->.
  { rewrite <- Ee. unfold elt. rewrite list_lookup_fmap. by destruct (us_ring _ !! _). }
  destruct (negb _); [done|]. by destruct (in_b _).
Qed.

Lemma intr_turn_run b : in_status (get_info s h) = 0 -> in_b (get_info s h) = Some b -> intr_turn s = Ret tt (finished b s).
Proof. intros Hs Hb. by rewrite intr_turn_eq, Hs, Hb. Qed.

Lemma vinv_turn b : in_b (get_info s h) = Some b -> vinv honest (finished b s) queued used.
Proof.
  intros Hb. destruct turn_owner as (t & p & b0 & w & idx & Hp & Hq & Hd & Eh & Hb0 & Hin). rewrite Hb0 in Hb. injection Hb as ->.
  pose proof I as [I1 I2 I3 I4 I5 I6 I7 I8 I9 I10 I11 I12 I13 I14 I15 I16 I17 I18 I21 I22 I19 I20].
  assert (forall q, alike q (wake_buf b q) /\ uses (wake_buf b q) = uses q) as Ha by (apply wake_buf_alike).
  assert (forall t' q', map (wake_buf b) (v_thr s) !! t' = Some q' -> exists q, v_thr s !! t' = Some q /\ q' = wake_buf b q) as Hm.
  { intros t' q' H. apply list_lookup_fmap_Some in H as (q & -> & Hq'). eauto. }
  assert (forall t' q, v_thr s !! t' = Some q -> map (wake_buf b) (v_thr s) !! t' = Some (wake_buf b q)) as Hm'.
  { intros t' q Hq'. by rewrite list_lookup_fmap, Hq'. }
  assert (forall x, v_bufs (finished b s) x = if decide (b = x) then mkDbuf (db_blockno (v_bufs s b)) 0 (db_data (v_bufs s b)) else v_bufs s x) as Eb.
  { intros x. unfold finished. vproj. case_decide as Ex; [subst; by rewrite fn_lookup_insert|by rewrite fn_lookup_insert_ne]. }
  assert (forall x, db_blockno (v_bufs (finished b s) x) = db_blockno (v_bufs s x)) as Ebn by (intros x; rewrite Eb; by case_decide; subst).
  assert (uses p = Some b) as Hup by (by destruct (chained_idxs _ _ _ _ (posted_chained _ _ Hq))).
  assert (forall t' q, v_thr s !! t' = Some q -> uses q = Some b -> t' = t) as Hub by (intros t' q Hq' Hu; by eapply I10).
  assert (h ∉ queued ++ v_taken s ++ used) as Hfresh.
  { rewrite app_assoc in I15 |- *. rewrite <- Permutation_middle in I15. by apply NoDup_cons in I15 as [? _]. }
  constructor; try done; change (v_thr (finished b s)) with (map (wake_buf b) (v_thr s)); change (v_taken (finished b s)) with (v_taken s).
  - intros t1 t2 p1 p2 i (q1 & E1 & ->)%Hm (q2 & E2 & ->)%Hm. rewrite !(proj1 (proj1 (Ha _))). by eapply I7.
  - intros i Hi. destruct (I8 i Hi) as [[Hf Hn]|[Hf (t' & q & Hq' & Hip)]]; [left|right]; (split; [done|]).
    + intros t' q' (q & Hq' & ->)%Hm. rewrite (proj1 (proj1 (Ha _))). by eapply Hn.
    + exists t', (wake_buf b q). rewrite (proj1 (proj1 (Ha _))). auto.
  - intros t' q' b' w' idx' (q & Hq' & ->)%Hm. rewrite (proj2 (proj2 (proj1 (Ha _)))). intros Hc.
    eapply chain_ok_ext; [by eapply I9|done|done|done|apply Ebn].
  - intros t1 t2 p1 p2 b' (q1 & E1 & ->)%Hm (q2 & E2 & ->)%Hm. rewrite !(proj2 (Ha _)). by eapply I10.
  - intros x. rewrite Eb. case_decide; [|done]. subst x. destruct (I11 b) as (? & ? & _). simpl. auto.
  - by apply (vring_pop _ _ _ _ _ I14).
  - rewrite app_assoc in I15 |- *. rewrite <- Permutation_middle in I15. by apply NoDup_cons in I15 as [_ ?].
  - intros h'. split.
    + intros Hh'. destruct (proj1 (I16 h')) as (t' & q & b' & w' & idx' & Hq' & Hp' & Hd' & E'); [set_solver|].
      exists t', (wake_buf b q), b', w', idx'. rewrite (proj1 (proj2 (proj1 (Ha _)))). split_and!; auto.
      rewrite Eb, decide_False; [done|]. intros <-. assert (t' = t) as ->.
      { apply (Hub _ q Hq'). by destruct (chained_idxs _ _ _ _ (posted_chained _ _ Hp')). }
      rewrite Hp in Hq'. injection Hq' as <-. rewrite Hq in Hp'. injection Hp' as <- <-. congruence.
    + intros (t' & q' & b' & w' & idx' & (q & Hq' & ->)%Hm & Hp' & Hd' & E'). rewrite (proj1 (proj2 (proj1 (Ha _)))) in Hp'.
      rewrite Eb in Hd'. case_decide as Ex; [done|].
      assert (h' ∈ queued ++ v_taken s ++ h :: used) as Hall by (apply I16; exists t', q, b', w', idx'; done).
      assert (h' <> h); [|set_solver]. intros ->. apply Ex. assert (t' = t) as ->.
      { eapply (I7 _ _ _ _ h Hq' Hp); [|done]. destruct (chained_idxs _ _ _ _ (posted_chained _ _ Hp')) as [-> _].
        destruct (I9 _ _ _ _ _ Hq' (posted_chained _ _ Hp')) as (j0 & j1 & j2 & -> & _). rewrite E'. set_solver. }
      rewrite Hp in Hq'. injection Hq' as <-. rewrite Hq in Hp'. by injection Hp' as <- <-.
  - intros t' b' w' idx' (q & Hq' & Eq)%Hm. assert (q = Publish b' w' idx') as -> by (destruct q; try done; simpl in Eq; by case_decide).
    destruct (I17 _ _ _ _ Hq') as (J1 & J2 & J3 & J4). split_and!; try done.
    + rewrite Eb, decide_False; [done|]. intros <-. assert (t' = t) as -> by (by eapply Hub). rewrite Hp in Hq'. by injection Hq' as ->.
    + intros t1 b1 w1 idx1 (q & Hq1 & Eq1)%Hm. assert (q = Publish b1 w1 idx1) as -> by (destruct q; try done; simpl in Eq1; by case_decide). by eapply J4.
  - intros Ho h' Hh'. apply I18; [done|]. set_solver.
  - intros _. by apply I22.
  - intros t' b' w' idx' (q & Hq' & Eq)%Hm. destruct q; try done. simpl in Eq. case_decide as Ex; [done|]. injection Eq as <- <- <-.
    rewrite Eb, decide_False by congruence. by eapply I19.
  - intros t' b' w' (q & Hq' & Eq)%Hm. destruct q; try done; [injection Eq as <- <-|simpl in Eq; by case_decide].
    destruct (I20 _ _ _ Hq') as (t1 & p1 & H1 & H2). exists t1, (wake_buf b p1). rewrite (proj1 (proj1 (Ha _))). auto.
Qed.
End Turn.
