(* ===== verification/VirtioRefine.v ===== *)
(** * The disk driver refines the atomic disk *)
From stdpp Require Import functions.
From S2P Require Import Prelude State Bytes Virtio VirtioSpec VirtioInv VirtioInv2.

Open Scope Z_scope.

(** ** Blocks and sectors *)
Lemma read_block d x : read_sectors d x 2 = d x ++ d (x + 1).
Proof. unfold read_sectors. change (seqZ 0 2) with [0; 1]. cbn [map concat]. by rewrite Z.add_0_r, app_nil_r. Qed.

Lemma slice_halves (data : list Z) : length data = Z.to_nat BSIZE -> slice data 0 512 ++ slice data 512 512 = data.
Proof.
  intros H. unfold slice. change (Z.to_nat 0) with 0%nat. rewrite drop_0. rewrite (take_ge (drop _ _)); [apply take_drop|].
  rewrite length_drop, H. unfold BSIZE. lia.
Qed.

Lemma block_write d bn bn' data : length data = Z.to_nat BSIZE ->
  block (write_sectors d (2 * bn) 2 data) bn' = if bn' =? bn then data else block d bn'.
Proof.
  intros H. unfold block. rewrite !read_block. unfold write_sectors. destruct (Z.eqb_spec bn' bn) as [->|Hne].
  - rewrite (proj2 (Z.leb_le (2 * bn) (2 * bn))), (proj2 (Z.ltb_lt (2 * bn) (2 * bn + 2))) by lia.
    rewrite (proj2 (Z.leb_le (2 * bn) (2 * bn + 1))), (proj2 (Z.ltb_lt (2 * bn + 1) (2 * bn + 2))) by lia. cbn [andb].
    replace (512 * (2 * bn - 2 * bn)) with 0 by lia. replace (512 * (2 * bn + 1 - 2 * bn)) with 512 by lia. by apply slice_halves.
  - destruct (Z.leb_spec (2 * bn) (2 * bn')), (Z.ltb_spec (2 * bn') (2 * bn + 2)), (Z.leb_spec (2 * bn) (2 * bn' + 1)), (Z.ltb_spec (2 * bn' + 1) (2 * bn + 2)); try lia; done.
Qed.

Lemma block_length d bn : (forall x, length (d x) = 512%nat) -> length (block d bn) = Z.to_nat BSIZE.
Proof. intros H. unfold block. rewrite read_block, length_app, !H. done. Qed.

Lemma write_sectors_length d x data y : (forall x, length (d x) = 512%nat) -> length data = Z.to_nat BSIZE -> length (write_sectors d x 2 data y) = 512%nat.
Proof.
  intros Hd H. unfold write_sectors. destruct (Z.leb_spec x y), (Z.ltb_spec y (x + 2)); try apply Hd. cbn [andb]. unfold slice.
  rewrite length_take, length_drop, H. unfold BSIZE. lia.
Qed.

(** ** The device *)
Section Device.
Context {honest : bool} (s : vstate) (queued used : list Z) (I : vinv honest s queued used).

Lemma vinv_fetch s' : dev_fetch s s' -> exists h queued', queued = h :: queued' /\ vinv honest s' queued' used /\ v_thr s' = v_thr s /\ v_bufs s' = v_bufs s /\ v_sectors s' = v_sectors s.
Proof.
  intros [Hne ->]. unfold fetched. pose proof I as [I1 I2 I3 I4 I5 I6 I7 I8 I9 I10 I11 I12 I13 I14 I15 I16 I17 I18 I21 I22 I19 I20].
  destruct (vring_nonempty _ _ _ _ I13 I2 Hne) as (h & queued' & Eq). exists h, queued'. split; [done|]. rewrite Eq in *.
  destruct (vring_pop _ _ _ _ _ I13) as [-> HR].
  assert (h :: queued' ++ v_taken s ++ used ≡ₚ queued' ++ (v_taken s ++ [h]) ++ used) as HP.
  { rewrite <- (app_assoc (v_taken s)). cbn [app]. by rewrite <- Permutation_middle, <- Permutation_middle. }
  split; [|done]. constructor; try done; vproj.
  - by rewrite <- HP.
  - intros h'. rewrite <- HP. apply I16.
Qed.

(** A chain the device has taken is the request of a call. *)
Lemma taken_request h : h ∈ v_taken s -> exists t p b w idx, v_thr s !! t = Some p /\ posted p = Some (b, w, idx)
  /\ db_disk (v_bufs s b) = 1 /\ h = idx_at idx 0 /\ h ∈ idxs p /\ 0 <= h < NUM
  /\ request_at s h = Some (mkRequest w (2 * db_blockno (v_bufs s b)) b 2 h).
Proof.
  intros Hh. destruct (proj1 (vi_live _ _ _ I h)) as (t & p & b & w & idx & Hp & Hq & Hd & Eh); [set_solver|].
  exists t, p, b, w, idx. destruct (vi_chain _ _ _ I _ _ _ _ _ Hp (posted_chained _ _ Hq)) as (i0 & i1 & i2 & -> & _ & Hr & D0 & D1 & D2 & O & _).
  destruct (chained_idxs _ _ _ _ (posted_chained _ _ Hq)) as [Ei _]. change (idx_at [i0; i1; i2] 0) with i0 in *. subst i0.
  apply forall3 in Hr as (R0 & _ & _). split_and!; try done; try apply R0; [rewrite Ei; set_solver|].
  unfold request_at. rewrite D0. cbn [d_next d_addr]. rewrite D1. cbn [d_next d_addr]. rewrite D2. cbn [d_next d_addr d_len]. rewrite O. by destruct w.
Qed.

(** A reply to the request of a call. *)
Context (h len st : Z) (bufs : nat -> dbuf) (sectors : Z -> list Z) (r : request).
Context (Hh : h ∈ v_taken s) (Hr : 0 <= h < NUM) (Hst : r_status r = h) (Hhonest : honest = true -> st = 0).
Context (Hbufs : forall x, db_blockno (bufs x) = db_blockno (v_bufs s x) /\ db_disk (bufs x) = db_disk (v_bufs s x)
  /\ length (db_data (bufs x)) = Z.to_nat BSIZE).
Context (Hsectors : forall x, length (sectors x) = 512%nat).
Let s' := replied h len st bufs sectors r s.

Lemma reply_info j : 0 <= j -> get_info s' j = if h =? j then mkDiskInfo (in_b (get_info s h)) st else get_info s j.
Proof.
  intros Hj. unfold s', replied, get_info. vproj. rewrite Hst. apply elt_put; [rewrite (vi_info _ _ _ I); unfold NUM in *; lia|done].
Qed.

Lemma reply_perm : queued ++ v_taken s' ++ used ++ [h] ≡ₚ queued ++ v_taken s ++ used.
Proof.
  destruct (heads_nodup _ _ _ I) as (_ & Hnd & _). unfold s', replied. vproj.
  apply Permutation_app_head. rewrite (Permutation_app_comm used [h]), app_assoc. apply Permutation_app_tail. apply NoDup_Permutation; [|done|].
  - apply NoDup_app. split_and!; [by apply NoDup_filter| |apply NoDup_singleton].
    intros x [Hx _]%list_elem_of_filter ->%list_elem_of_singleton. done.
  - intros x. rewrite elem_of_app, list_elem_of_filter, list_elem_of_singleton. destruct (decide (x = h)) as [->|]; naive_solver.
Qed.

Lemma vinv_reply : vinv honest s' queued (used ++ [h]).
Proof.
  pose proof I as [I1 I2 I3 I4 I5 I6 I7 I8 I9 I10 I11 I12 I13 I14 I15 I16 I17 I18 I21 I22 I19 I20].
  assert (h ∉ used) as Hnu by (intros Hu; pose proof I15 as (_ & _ & (_ & Hdis & _)%NoDup_app)%NoDup_app; by apply (Hdis h)).
  assert (Z.of_nat (length used) < NUM) as Hlen.
  { apply (vring_length_lt used h); [by apply (heads_nodup _ _ _ I)| |done|done]. apply Forall_forall. intros x Hx.
    destruct (head_owned s queued used x I) as (_ & _ & _ & _ & ? & _); [set_solver|done]. }
  assert (forall x, db_disk (v_bufs s' x) = db_disk (v_bufs s x)) as Ed by (intros x; apply Hbufs).
  constructor; try done.
  - unfold s', replied. vproj. by rewrite put_length.
  - unfold s', replied. vproj. by rewrite put_length.
  - intros t' q b' w' idx' Hq' Hc. pose proof (I9 _ _ _ _ _ Hq' Hc) as Hok. eapply chain_ok_ext; [exact Hok|done|done| |apply Hbufs].
    assert (0 <= idx_at idx' 0) as H0.
    { destruct Hok as (j0 & j1 & j2 & -> & _ & Hrj & _). apply forall3 in Hrj as (? & _). change (idx_at [j0; j1; j2] 0) with j0. lia. }
    rewrite reply_info by done. by destruct (Z.eqb_spec h (idx_at idx' 0)) as [<-|].
  - intros x. destruct (I11 x) as (J1 & J2 & J3). rewrite Ed. change (v_bufs s') with bufs. destruct (Hbufs x) as (-> & _ & ->). done.
  - unfold s', replied. vproj. unfold put. change (map ue_id (<[?i := ?x]> ?l)) with (ue_id <$> <[i := x]> l). rewrite list_fmap_insert.
    apply vring_push; [done|by rewrite length_map|done].
  - by rewrite reply_perm.
  - intros h'. rewrite reply_perm, I16. split; intros (t' & q & b' & w' & idx' & H1 & H2 & H3 & H4); exists t', q, b', w', idx'; split_and!; try done.
    + by rewrite Ed.
    + by rewrite <- Ed.
  - intros t' b' w' idx' Hq'. rewrite Ed. by apply (I17 t' b' w').
  - intros Ho h' Hh'. assert (h' ∈ used \/ h' = h) as Hc by set_solver. rewrite reply_info.
    + destruct (Z.eqb_spec h h') as [|Hne]; [by apply Hhonest|]. destruct Hc; [by apply I18|done].
    + destruct Hc as [Hu| ->]; [|lia]. destruct (head_owned s queued used h' I) as (_ & _ & _ & _ & ? & _); [set_solver|lia].
  - intros _. right. unfold s', replied. vproj. rewrite Z.lor_spec. apply orb_true_r.
  - intros t' b' w' idx' Hq'. rewrite Ed. by eapply I19.
Qed.
End Device.

(** A request that succeeds. *)
Section Done.
Context {honest : bool} (s : vstate) (queued used : list Z) (I : vinv honest s queued used).
Context (h len : Z) (b : nat) (w : bool) (s' : vstate).
Context (t : nat) (p : rw_pc) (idx : list Z) (Hp : v_thr s !! t = Some p) (Hq : posted p = Some (b, w, idx)) (Hh : h ∈ v_taken s) (Hr : 0 <= h < NUM).
Context (Hdone : dev_done h len (mkRequest w (2 * db_blockno (v_bufs s b)) b 2 h) s s').

Lemma done_bufs x : v_bufs s' x = if decide (b = x /\ w = false) then mkDbuf (db_blockno (v_bufs s b)) (db_disk (v_bufs s b)) (block (v_sectors s) (db_blockno (v_bufs s b))) else v_bufs s x.
Proof.
  rewrite Hdone. unfold completed, replied, block. vproj. cbn [r_write r_sector r_buf r_count]. destruct w; [by rewrite decide_False by naive_solver|].
  case_decide as E; [destruct E as [<- _]; by rewrite fn_lookup_insert|]. rewrite fn_lookup_insert_ne by naive_solver. done.
Qed.

Lemma done_same x : db_blockno (v_bufs s' x) = db_blockno (v_bufs s x) /\ db_disk (v_bufs s' x) = db_disk (v_bufs s x).
Proof. rewrite done_bufs. case_decide as E; [by destruct E as [<- _]|done]. Qed.

Lemma done_thr : v_thr s' = v_thr s /\ v_fetched s' = v_fetched s /\ v_intr s' = v_intr s /\ v_taken s' = filter (fun x => x <> h) (v_taken s).
Proof. by rewrite Hdone. Qed.

Lemma done_sectors : v_sectors s' = if w then write_sectors (v_sectors s) (2 * db_blockno (v_bufs s b)) 2 (db_data (v_bufs s b)) else v_sectors s.
Proof. rewrite Hdone. unfold completed, replied. vproj. cbn [r_write r_sector r_buf r_count]. by destruct w. Qed.

Lemma vinv_done : vinv honest s' queued (used ++ [h]).
Proof.
  assert (s' = replied h len 0 (v_bufs s') (v_sectors s') (mkRequest w (2 * db_blockno (v_bufs s b)) b 2 h) s) as E by (by rewrite Hdone).
  pose proof (vi_bufs _ _ _ I) as I11. pose proof (vi_sectors _ _ _ I) as I12. rewrite E. apply vinv_reply; try done.
  - intros x. destruct (done_same x) as [-> ->]. split; [done|]. split; [done|]. rewrite done_bufs.
    destruct (decide (b = x /\ w = false)); [by apply block_length|apply I11].
  - intros x. rewrite done_sectors. destruct w; [|done]. apply write_sectors_length; [done|apply I11].
Qed.
End Done.

(** ** The simulation *)
Lemma map_same {A B} (f g : A -> B) l l' : length l' = length l ->
  (forall t p', l' !! t = Some p' -> exists p, l !! t = Some p /\ g p' = f p) -> map f l = map g l'.
Proof.
  intros Hlen H. apply list_eq. intros t. change (map f l) with (f <$> l). change (map g l') with (g <$> l'). rewrite !list_lookup_fmap.
  destruct (l' !! t) as [p'|] eqn:E.
  - destruct (H t p' E) as (p & -> & Ep). simpl. by rewrite Ep.
  - apply lookup_ge_None in E. rewrite (lookup_ge_None_2 l) by lia. done.
Qed.

Lemma map_insert {A B} (f g : A -> B) l l' t c : length l' = length l -> (t < length l)%nat ->
  (forall t' p', l' !! t' = Some p' -> (t' = t /\ g p' = c) \/ (t' <> t /\ exists p, l !! t' = Some p /\ g p' = f p)) ->
  <[t := c]> (map f l) = map g l'.
Proof.
  intros Hlen Ht H. apply list_eq. intros t'. change (map f l) with (f <$> l). change (map g l') with (g <$> l'). rewrite list_lookup_fmap.
  destruct (l' !! t') as [p'|] eqn:E.
  - destruct (H t' p' E) as [[-> Ep]|(Hne & p & Hp & Ep)]; simpl; rewrite Ep.
    + by rewrite list_lookup_insert_eq by (by rewrite length_fmap).
    + rewrite list_lookup_insert_ne, list_lookup_fmap by done. by rewrite Hp.
  - apply lookup_ge_None in E. rewrite lookup_ge_None_2; [done|]. rewrite length_insert, length_fmap. lia.
Qed.

Lemma abs_uses s used p : a_uses (abs_pc s used p) = uses p.
Proof. destruct p; try done; simpl; by case_decide. Qed.

Lemma abs_wake_free s used p : abs_pc s used (wake_free p) = abs_pc s used p.
Proof. by destruct p. Qed.
Lemma abs_wake_buf s used b p : abs_pc s used (wake_buf b p) = abs_pc s used p.
Proof. destruct p; try done. simpl. by case_decide. Qed.

(** The abstraction of a thread depends on the flag of its buffer and on whether
    its chain is used. *)
Lemma abs_same s s' used used' p :
  (forall b w idx, posted p = Some (b, w, idx) -> (db_disk (v_bufs s' b) = 0 \/ idx_at idx 0 ∈ used' <-> db_disk (v_bufs s b) = 0 \/ idx_at idx 0 ∈ used)) ->
  abs_pc s' used' p = abs_pc s used p.
Proof. intros H. destruct p; try done; simpl; specialize (H _ _ _ eq_refl); repeat case_decide; tauto || done. Qed.

Lemma a_unused s a used b : a_thr a = map (abs_pc s used) (v_thr s) -> unused s b -> forall t c, a_thr a !! t = Some c -> a_uses c <> Some b.
Proof. intros -> Hu t c Hc. apply list_lookup_fmap_Some in Hc as (p & -> & Hp). rewrite abs_uses. by eapply Hu. Qed.

Lemma a_lookup s a used t p : a_thr a = map (abs_pc s used) (v_thr s) -> v_thr s !! t = Some p -> a_thr a !! t = Some (abs_pc s used p).
Proof. intros -> Hp. change (map (abs_pc s used) (v_thr s)) with (abs_pc s used <$> v_thr s). by rewrite list_lookup_fmap, Hp. Qed.

Lemma vinv_use {honest} s queued used b bn data : vinv honest s queued used -> unused s b -> 0 <= bn < 2 ^ 31 -> length data = Z.to_nat BSIZE ->
  vinv honest (set_bufs (fun f => <[b := mkDbuf bn (db_disk (f b)) data]> f) s) queued used.
Proof.
  intros I Hu Hbn Hlen. pose proof I as [I1 I2 I3 I4 I5 I6 I7 I8 I9 I10 I11 I12 I13 I14 I15 I16 I17 I18 I21 I22 I19 I20]. set (s' := set_bufs _ s).
  assert (forall x, x <> b -> v_bufs s' x = v_bufs s x) as Eo by (intros x Hx; unfold s'; vproj; by rewrite fn_lookup_insert_ne).
  assert (v_bufs s' b = mkDbuf bn (db_disk (v_bufs s b)) data) as Eb by (unfold s'; vproj; by rewrite fn_lookup_insert).
  assert (forall x, db_disk (v_bufs s' x) = db_disk (v_bufs s x)) as Ed by (intros x; destruct (decide (x = b)) as [->|]; [by rewrite Eb|by rewrite Eo]).
  constructor; try done.
  - intros t p b' w idx Hp Hc. eapply chain_ok_ext; [by eapply I9|done|done|done|]. rewrite Eo; [done|]. intros ->.
    apply (Hu t p Hp). by destruct (chained_idxs _ _ _ _ Hc).
  - intros x. rewrite Ed. destruct (decide (x = b)) as [->|]; [|by rewrite Eo]. rewrite Eb. split; [done|]. split; [done|apply I11].
  - intros h. change (v_taken s') with (v_taken s). rewrite I16.
    split; intros (t' & q & b' & w' & idx' & H1 & H2 & H3 & H4); exists t', q, b', w', idx'; split_and!; try done; by rewrite Ed in *.
  - intros t b' w idx Hp. rewrite Ed. by apply (I17 t b' w).
  - intros t b' w idx Hp. rewrite Ed. by eapply I19.
Qed.

Lemma third_index i j : exists k, 0 <= k < NUM /\ k <> i /\ k <> j.
Proof. destruct (decide (0 = i \/ 0 = j)) as [H0|H0]; [destruct (decide (1 = i \/ 1 = j)) as [H1|H1]; [exists 2|exists 1]|exists 0]; unfold NUM; lia. Qed.

(** ** Every step keeps the invariant *)
Section Keeps.
Context {honest : bool} (s : vstate) (queued used : list Z) (I : vinv honest s queued used).

Lemma used_empty : dk_used_idx (v_disk s) = us_idx (dk_used (v_disk s)) -> used = [].
Proof. intros E. destruct used as [|h u] eqn:Eu; [done|]. by destruct (vring_ne _ _ _ _ _ (vi_used _ _ _ I)). Qed.

Lemma vinv_no_desc t b w s1 i j : v_thr s !! t = Some (Alloc b w) -> restored s s1 -> (forall k, 0 <= k < NUM -> k <> i -> k <> j -> is_free s k = 0) ->
  vinv honest (set_thr (insert t (SleepFree b w)) s1) queued used.
Proof.
  intros Ht Hre Hfull. pose proof (vinv_restored s s1 queued used I Hre) as I1.
  assert (v_thr s1 !! t = Some (Alloc b w)) as Ht1 by (destruct (re_thr _ _ Hre) as [->| ->]; [done|]; by rewrite list_lookup_fmap, Ht).
  apply (vinv_move s1 queued used t (Alloc b w) (SleepFree b w)); try done. intros _ _ _.
  destruct (third_index i j) as (k & Hk & Hki & Hkj).
  destruct (vi_free _ _ _ I1 k Hk) as [[Hf _]|[_ (t' & p & Hp & Hin)]].
  - rewrite (re_free _ _ Hre), Hfull in Hf by lia. done.
  - exists t', p. split; [done|]. intros Ei. rewrite Ei in Hin. by apply not_elem_of_nil in Hin.
Qed.

Lemma vinv_alloc t b w s' : lock_free s -> v_thr s !! t = Some (Alloc b w) -> rw_alloc t b w s = Ret tt s' -> vinv honest s' queued used.
Proof.
  intros Hlock Ht E. destruct (vinv_shape _ _ _ I) as [Hs Hok].
  destruct (alloc3_run s Hs Hok) as [(i0 & i1 & i2 & Hnd & Hr & Hf & E3)|(s1 & E3 & Hre & i & j & Hfull)].
  - pose proof Hr as (R0 & _ & _)%forall3. rewrite (rw_alloc_submit s t b w i0 i1 i2) in E; [|apply I|done|apply (vi_bufs _ _ _ I)|done].
    injection E as <-. by apply vinv_submit.
  - unfold rw_alloc in E. erewrite bind_ret_eq in E by exact E3. injection E as <-. by eapply vinv_no_desc.
Qed.

Lemma vinv_sleep t b w idx s' : v_thr s !! t = Some (Wait b w idx) -> db_disk (v_bufs s b) = 1 -> rw_wait t b w idx s = Ret tt s' -> vinv honest s' queued used.
Proof.
  intros Ht Hd E. unfold rw_wait in E. erewrite bind_ret_eq in E by reflexivity. rewrite Hd in E. injection E as <-.
  apply (vinv_move s queued used t (Wait b w idx) (SleepBuf b w idx)); try done. by intros b' w' idx' [= <- <- <-].
Qed.

Lemma vinv_kill t p : v_thr s !! t = Some p -> vinv honest (set_thr (insert t (wake_up p)) s) queued used.
Proof. intros Hp. by apply (vinv_move s queued used t p (wake_up p)); destruct p. Qed.

Lemma vinv_turned s' : intr_turn s = Ret tt s' -> exists used', vinv honest s' queued used'.
Proof.
  intros E. destruct (decide (dk_used_idx (v_disk s) = us_idx (dk_used (v_disk s)))) as [Ee|Hne].
  - unfold intr_turn in E. erewrite bind_ret_eq in E by reflexivity. rewrite Ee, Z.eqb_refl in E. injection E as <-.
    pose proof I as I0. rewrite (used_empty Ee) in I0. exists []. by apply vinv_intr_done.
  - destruct (vring_nonempty _ _ _ _ (vi_used _ _ _ I)) as (h & used' & Eu); [by rewrite length_map; apply I|done|].
    pose proof I as I0. rewrite Eu in I0. destruct (turn_owner _ _ _ _ I0) as (t & p & b & w & idx & _ & _ & _ & _ & Hb & _).
    rewrite (intr_turn_eq _ _ _ _ I0), Hb in E. destruct (negb _); [done|]. injection E as <-. exists used'. by apply (vinv_turn s queued used' h).
Qed.

Lemma vinv_device device s' : device_behaves honest device -> device s s' -> exists queued' used', vinv honest s' queued' used'.
Proof.
  intros Hdev Hs. destruct (Hdev _ _ Hs) as [Hf|(h & len & Hh & Hreq)].
  { destruct (vinv_fetch _ _ _ I s' Hf) as (h & queued' & _ & I' & _). eauto. }
  destruct (taken_request _ _ _ I h Hh) as (t & p & b & w & idx & Hp & Hq & _ & _ & _ & Hr & Er).
  exists queued, (used ++ [h]). destruct (Hreq _ Er) as [Hd|[-> (st & bufs & sectors & -> & Hst & _ & Hb & _ & Hl)]]; [by eapply vinv_done|].
  apply vinv_reply; try done.
  - intros x. destruct (Hb x) as (-> & -> & ->). split; [done|]. split; [done|apply (vi_bufs _ _ _ I)].
  - intros x. rewrite Hl. apply (vi_sectors _ _ _ I).
Qed.

Lemma vinv_sys device e s' : device_behaves honest device -> sys_step device s e s' -> exists queued' used', vinv honest s' queued' used'.
Proof.
  intros Hdev Hstep.
  destruct Hstep as [t b w Ht Hu|b bn data Hu Hbn Hlen|t b w s' Hl Ht E|t b w idx s' Ht E|t b w idx s' Hl Ht Hd E|t b w idx s' Hl Ht Hd E|s' Hl Hi E|s' Hi E|s' Hs].
  - exists queued, used. by apply vinv_call.
  - exists queued, used. by apply vinv_use.
  - exists queued, used. by eapply vinv_alloc.
  - rewrite rw_publish_run in E. injection E as <-. eexists _, used. by apply vinv_publish.
  - exists queued, used. by eapply vinv_sleep.
  - destruct (vi_chain _ _ _ I _ _ _ _ _ Ht eq_refl) as (i0 & i1 & i2 & -> & _).
    rewrite (rw_wait_ret s queued used I t b w i0 i1 i2) in E by done. injection E as <-. exists queued, used. by eapply vinv_ret.
  - rewrite intr_enter_run in E. injection E as <-. exists queued, used. by apply vinv_intr.
  - destruct (vinv_turned s' E) as [used' I']. eauto.
  - by eapply vinv_device.
Qed.
End Keeps.

Lemma vinv_step {honest} s queued used device e s' : vinv honest s queued used -> device_behaves honest device -> vstep device s e s' ->
  exists queued' used', vinv honest s' queued' used'.
Proof.
  intros I Hdev [e' s1 Hs|t p Hp|s1 Hl E]; [by eapply vinv_sys|exists queued, used; by apply vinv_kill|].
  rewrite intr_enter_run in E. injection E as <-. exists queued, used. by apply vinv_intr.
Qed.

Section Simulation.
Context (s : vstate) (a : astate) (queued used : list Z) (I : vinv true s queued used).
Context (HT : a_thr a = map (abs_pc s used) (v_thr s)).
Context (HB : forall b, a_bufs a b = (db_blockno (v_bufs s b), db_data (v_bufs s b))).
Context (HD : forall bn, 0 <= bn < 2 ^ 31 -> a_disk a bn = block (v_sectors s) bn).

Lemma sim_call t b w : v_thr s !! t = Some Idle -> unused s b ->
  astep a (Some (ECall t b w)) (a_set t (ATodo b w) a) /\ refines (set_thr (insert t (Alloc b w)) s) (a_set t (ATodo b w) a).
Proof.
  intros Ht Hu. split; [constructor; [by rewrite (a_lookup _ _ _ _ _ HT Ht)|by eapply a_unused]|].
  exists queued, used. split; [by apply vinv_call|]. split; [|done]. unfold a_set. cbn [a_thr]. rewrite HT. apply map_insert.
  - apply length_insert.
  - by eapply lookup_lt_Some.
  - intros t' p' [[-> ->]|[Hne Hp]]%thr_insert; [by left|right]. split; [done|]. by exists p'.
Qed.

Lemma sim_use b bn data : unused s b -> 0 <= bn < 2 ^ 31 -> length data = Z.to_nat BSIZE ->
  astep a (Some (EUse b bn data)) (mkA (<[b := (bn, data)]> (a_bufs a)) (a_disk a) (a_thr a))
  /\ refines (set_bufs (fun f => <[b := mkDbuf bn (db_disk (f b)) data]> f) s) (mkA (<[b := (bn, data)]> (a_bufs a)) (a_disk a) (a_thr a)).
Proof.
  intros Hu Hbn Hlen. split; [constructor; [by eapply a_unused|done|done]|]. exists queued, used. split; [by apply vinv_use|]. cbn [a_thr a_bufs a_disk].
  split; [|split; [|done]].
  - rewrite HT. apply map_same; [done|]. intros t p Hp. exists p. split; [done|]. apply abs_same. intros b' w idx Hq. vproj.
    destruct (decide (b' = b)) as [->|]; [by rewrite fn_lookup_insert|by rewrite fn_lookup_insert_ne].
  - intros x. vproj. destruct (decide (x = b)) as [->|]; [by rewrite !fn_lookup_insert|by rewrite !fn_lookup_insert_ne].
Qed.

(** [refines] with the same queues, when no thread seems to move. *)
Lemma sim_stay s' : vinv true s' queued used -> length (v_thr s') = length (v_thr s) ->
  (forall t p', v_thr s' !! t = Some p' -> exists p, v_thr s !! t = Some p /\ abs_pc s' used p' = abs_pc s used p) ->
  (forall b, db_blockno (v_bufs s' b) = db_blockno (v_bufs s b) /\ db_data (v_bufs s' b) = db_data (v_bufs s b)) ->
  v_sectors s' = v_sectors s -> refines s' a.
Proof.
  intros I' Hlen Hthr Hb Hs. exists queued, used. split; [done|]. split; [|split].
  - rewrite HT. by apply map_same.
  - intros b. rewrite HB. by destruct (Hb b) as [-> ->].
  - by rewrite Hs.
Qed.

Lemma sim_submit t b w i0 i1 i2 : lock_free s -> v_thr s !! t = Some (Alloc b w) -> NoDup [i0; i1; i2] -> Forall (fun i => 0 <= i < NUM) [i0; i1; i2] ->
  Forall (fun i => is_free s i = 1) [i0; i1; i2] -> refines (submitted t b w i0 i1 i2 s) a.
Proof.
  intros Hlock Ht Hnd Hr Hf. apply sim_stay; [by apply vinv_submit|apply length_insert| |intros x|done].
  - intros t' p' [[-> ->]|[Hne Hp]]%thr_insert; [by exists (Alloc b w)|]. exists p'. split; [done|]. apply abs_same. intros b' w' idx Hq.
    rewrite sub_buf; [done|]. intros ->. apply Hne. eapply (vi_uses _ _ _ I _ _ _ _ b Hp Ht); [by destruct (chained_idxs _ _ _ _ (posted_chained _ _ Hq))|done].
  - destruct (decide (x = b)) as [->|]; [by rewrite sub_buf_eq|by rewrite sub_buf].
Qed.

Lemma sim_no_desc t b w s1 i j : v_thr s !! t = Some (Alloc b w) -> restored s s1 -> (forall k, 0 <= k < NUM -> k <> i -> k <> j -> is_free s k = 0) ->
  refines (set_thr (insert t (SleepFree b w)) s1) a.
Proof.
  intros Ht Hre Hfull. pose proof (re_thr _ _ Hre) as Rt.
  pose proof (re_rest _ _ Hre) as [= Q1 Q2 Q3 Q4 Q5 Q6 Q7 Q8 Q9 Q10 Q11 Q12].
  assert (forall t' p', v_thr s1 !! t' = Some p' -> exists p, v_thr s !! t' = Some p /\ (p' = p \/ p' = wake_free p)) as Hthr.
  { intros t' p' Hp. destruct Rt as [Rt|Rt]; rewrite Rt in Hp; [eauto|]. apply list_lookup_fmap_Some in Hp as (p & -> & Hp). eauto. }
  assert (v_thr s1 !! t = Some (Alloc b w)) as Ht1 by (destruct Rt as [->| ->]; [done|]; by rewrite list_lookup_fmap, Ht).
  apply sim_stay.
  - by eapply vinv_no_desc.
  - vproj. rewrite length_insert. destruct Rt as [->| ->]; [done|apply length_map].
  - intros t' p' [[-> ->]|[Hne (p & Hp & Hpp)%Hthr]]%thr_insert; [by exists (Alloc b w)|]. exists p. split; [done|].
    transitivity (abs_pc s used p'); [apply abs_same; vproj; by rewrite Q6|]. destruct Hpp as [->| ->]; [done|apply abs_wake_free].
  - intros x. vproj. by rewrite Q6.
  - vproj. done.
Qed.

Lemma sim_alloc t b w s' : lock_free s -> v_thr s !! t = Some (Alloc b w) -> rw_alloc t b w s = Ret tt s' -> refines s' a.
Proof.
  intros Hlock Ht E. destruct (vinv_shape _ _ _ I) as [Hs Hok].
  destruct (alloc3_run s Hs Hok) as [(i0 & i1 & i2 & Hnd & Hr & Hf & E3)|(s1 & E3 & Hre & i & j & Hfull)].
  - pose proof Hr as (R0 & _ & _)%forall3. rewrite (rw_alloc_submit s t b w i0 i1 i2) in E; [|apply I|done|apply (vi_bufs _ _ _ I)|done].
    injection E as <-. by apply sim_submit.
  - unfold rw_alloc in E. erewrite bind_ret_eq in E by exact E3. injection E as <-. by eapply sim_no_desc.
Qed.

Lemma sim_publish t b w idx s' : v_thr s !! t = Some (Publish b w idx) -> rw_publish t b w idx s = Ret tt s' -> refines s' a.
Proof.
  intros Ht E. rewrite rw_publish_run in E. injection E as <-. exists (queued ++ [idx_at idx 0]), used.
  split; [by apply vinv_publish|]. split; [|done]. rewrite HT. apply map_same; [apply length_insert|].
  intros t' p' [[-> ->]|[Hne Hp]]%thr_insert; [|by exists p'].
  exists (Publish b w idx). split; [done|]. simpl. rewrite decide_False; [done|].
  destruct (vi_publish _ _ _ I _ _ _ _ Ht) as (Hd & _). destruct (publish_fresh _ _ _ I _ _ _ _ Ht) as (_ & _ & Hn). unfold published. vproj. set_solver by lia.
Qed.

Lemma sim_sleep t b w idx s' : v_thr s !! t = Some (Wait b w idx) -> db_disk (v_bufs s b) = 1 -> rw_wait t b w idx s = Ret tt s' -> refines s' a.
Proof.
  intros Ht Hd E. pose proof (vinv_sleep s queued used I t b w idx s' Ht Hd E) as I'.
  unfold rw_wait in E. erewrite bind_ret_eq in E by reflexivity. rewrite Hd in E. injection E as <-.
  apply sim_stay; try done.
  - apply length_insert.
  - intros t' p' [[-> ->]|[Hne Hp]]%thr_insert; [by exists (Wait b w idx)|by exists p'].
Qed.

Lemma sim_ret t b w idx s' : lock_free s -> v_thr s !! t = Some (Wait b w idx) -> db_disk (v_bufs s b) <> 1 -> rw_wait t b w idx s = Ret tt s' ->
  astep a (Some (ERet t b w (db_data (v_bufs s' b)))) (a_set t AIdle a) /\ refines s' (a_set t AIdle a).
Proof.
  intros Hlock Ht Hd E. destruct (vi_chain _ _ _ I _ _ _ _ _ Ht eq_refl) as (i0 & i1 & i2 & -> & _).
  rewrite (rw_wait_ret s queued used I t b w i0 i1 i2) in E by done. injection E as <-. split.
  - change (v_bufs (released t i0 i1 i2 s)) with (v_bufs s). replace (db_data (v_bufs s b)) with (snd (a_bufs a b)) by (by rewrite HB).
    constructor. rewrite (a_lookup _ _ _ _ _ HT Ht). simpl. rewrite decide_True; [done|]. left. destruct (vi_bufs _ _ _ I b) as (_ & _ & [?|?]); done.
  - exists queued, used. split; [by eapply vinv_ret|]. split; [|done]. unfold a_set. cbn [a_thr]. rewrite HT. apply map_insert.
    + unfold released. vproj. by rewrite length_insert, length_map.
    + by eapply lookup_lt_Some.
    + intros t' p' [[-> ->]|[Hne Hp]]%thr_insert; [by left|right]. split; [done|].
      apply list_lookup_fmap_Some in Hp as (p & -> & Hp). exists p. split; [done|]. rewrite abs_wake_free. by apply abs_same.
Qed.

(** The handler marks the call of the next used entry done, which it was. *)
Lemma sim_finish h used' b : used = h :: used' -> in_b (get_info s h) = Some b -> refines (finished b s) a.
Proof.
  intros Eu Hb. pose proof I as I0. rewrite Eu in I0. exists queued, used'. split; [by eapply vinv_turn|].
  destruct (turn_owner _ _ _ _ I0) as (t & p & b0 & w & idx & Hp & Hq & Hd & Eh & Hb0 & Hin). rewrite Hb0 in Hb. injection Hb as ->.
  split; [|split; [|done]].
  - rewrite HT. apply map_same; [apply length_map|]. intros t' p' Hp'. apply list_lookup_fmap_Some in Hp' as (q & -> & Hq'). exists q. split; [done|].
    change (v_thr s !! t' = Some q) in Hq'. rewrite abs_wake_buf. apply abs_same. intros b' w' idx' Hpq. unfold finished. vproj. rewrite Eu.
    destruct (chained_idxs _ _ _ _ (posted_chained _ _ Hq)) as [Ei Eb]. destruct (chained_idxs _ _ _ _ (posted_chained _ _ Hpq)) as [Ei' Eb'].
    destruct (decide (b' = b)) as [->|Hne].
    + assert (t' = t) as -> by (by eapply (vi_uses _ _ _ I _ _ _ _ b Hq' Hp)). assert (q = p) as -> by congruence.
      assert (idx' = idx) as -> by congruence. rewrite fn_lookup_insert, <- Eh. cbn [db_disk]. set_solver.
    + rewrite fn_lookup_insert_ne by done. enough (idx_at idx' 0 <> h) by set_solver. intros E.
      destruct (vi_chain _ _ _ I _ _ _ _ _ Hq' (posted_chained _ _ Hpq)) as (j0 & j1 & j2 & -> & _). change (idx_at [j0; j1; j2] 0) with j0 in E.
      apply Hne. assert (t' = t) as -> by (eapply (vi_own _ _ _ I _ _ _ _ h Hq' Hp); [rewrite Ei'; set_solver|done]). congruence.
  - intros x. rewrite HB. unfold finished. vproj. destruct (decide (x = b)) as [->|]; [by rewrite fn_lookup_insert|by rewrite fn_lookup_insert_ne].
Qed.

Lemma sim_turn s' : intr_turn s = Ret tt s' -> refines s' a.
Proof.
  intros E. destruct (decide (dk_used_idx (v_disk s) = us_idx (dk_used (v_disk s)))) as [Ee|Hne].
  - unfold intr_turn in E. erewrite bind_ret_eq in E by reflexivity. rewrite Ee, Z.eqb_refl in E. injection E as <-.
    apply sim_stay; try done; [|intros t p Hp; by exists p].
    pose proof I as I0. rewrite (used_empty _ _ _ I Ee) in I0 |- *. by apply vinv_intr_done.
  - destruct (vring_nonempty _ _ _ _ (vi_used _ _ _ I)) as (h & used' & Eu); [by rewrite length_map; apply I|done|].
    pose proof I as I0. rewrite Eu in I0. destruct (turn_owner _ _ _ _ I0) as (t & p & b & w & idx & _ & _ & _ & _ & Hb & _).
    rewrite (intr_turn_run _ _ _ _ I0 _ (vi_status _ _ _ I0 eq_refl h ltac:(set_solver)) Hb) in E. injection E as <-. by eapply sim_finish.
Qed.

Lemma sim_kill t p : v_thr s !! t = Some p -> refines (set_thr (insert t (wake_up p)) s) a.
Proof.
  intros Hp. apply sim_stay; try done.
  - by apply vinv_kill.
  - apply length_insert.
  - intros t' p' [[-> ->]|[Hne Hp']]%thr_insert; [exists p; by destruct p|by exists p'].
Qed.

(** The device does the transfer of a call. *)
Lemma sim_done h len r s' : h ∈ v_taken s -> request_at s h = Some r -> dev_done h len r s s' ->
  exists a', astep a None a' /\ refines s' a'.
Proof.
  intros Hh Hreq Hdone. destruct (taken_request _ _ _ I h Hh) as (t & p & b & w & idx & Hp & Hq & Hd & Eh & Hin & Hr & Er).
  rewrite Er in Hreq. injection Hreq as <-. exists (a_set t (ADone b w) (a_transfer b w a)).
  destruct (chained_idxs _ _ _ _ (posted_chained _ _ Hq)) as [Ei Eb].
  assert (h ∉ used) as Hnu by (intros Hu; pose proof (vi_nodup _ _ _ I) as (_ & _ & (_ & Hdis & _)%NoDup_app)%NoDup_app; by apply (Hdis h)).
  pose proof (done_bufs s h len b w s' p idx Hq Hr Hdone) as DB. pose proof (done_sectors s h len b w s' p idx Hq Hdone) as DS.
  split.
  - constructor. rewrite (a_lookup _ _ _ _ _ HT Hp). assert (~ (db_disk (v_bufs s b) = 0 \/ idx_at idx 0 ∈ used)) as Hno by (rewrite <- Eh, Hd; naive_solver).
    destruct p; try done; injection Hq as -> -> ->; simpl; by rewrite decide_False.
  - exists queued, (used ++ [h]). split; [by eapply vinv_done|]. unfold a_set, a_transfer. rewrite HB.
    split; [|split].
    + replace (a_thr _) with (<[t := ADone b w]> (a_thr a)) by (by destruct w). rewrite HT. destruct (done_thr s h len b w s' Hdone) as (Et & _).
      apply map_insert; [by rewrite Et|by eapply lookup_lt_Some|]. intros t' p' Hp'. rewrite Et in Hp'. destruct (decide (t' = t)) as [->|Hne]; [left|right].
      * split; [done|]. assert (p' = p) as -> by congruence. destruct p; try done; injection Hq as -> -> ->; simpl; rewrite decide_True by set_solver; done.
      * split; [done|]. exists p'. split; [done|]. apply abs_same. intros b' w' idx' Hq'. rewrite (proj2 (done_same s h len b w s' p idx Hq Hr Hdone b')).
        enough (idx_at idx' 0 <> h) by set_solver. intros E. destruct (vi_chain _ _ _ I _ _ _ _ _ Hp' (posted_chained _ _ Hq')) as (j0 & j1 & j2 & -> & _).
        change (idx_at [j0; j1; j2] 0) with j0 in E. destruct (chained_idxs _ _ _ _ (posted_chained _ _ Hq')) as [Ei' _].
        apply Hne. eapply (vi_own _ _ _ I _ _ _ _ h Hp' Hp); [rewrite Ei'; set_solver|done].
    + intros x. rewrite DB. destruct w; cbn [a_bufs].
      * rewrite decide_False by naive_solver. apply HB.
      * destruct (decide (b = x)) as [<-|Hx]; [rewrite fn_lookup_insert, decide_True by done|rewrite fn_lookup_insert_ne, decide_False by naive_solver; apply HB].
        cbn [db_blockno db_data]. by rewrite HD by apply (vi_bufs _ _ _ I).
    + intros bn Hbn. rewrite DS. destruct w; cbn [a_disk]; [|by apply HD]. rewrite block_write by apply (vi_bufs _ _ _ I).
      destruct (Z.eqb_spec bn (db_blockno (v_bufs s b))) as [->|Hx]; [by rewrite fn_lookup_insert|]. rewrite fn_lookup_insert_ne by done. by apply HD.
Qed.

Lemma sim_fetch s' : dev_fetch s s' -> refines s' a.
Proof.
  intros Hf. destruct (vinv_fetch _ _ _ I s' Hf) as (h & queued' & Eq & I' & Et & Eb & Es). exists queued', used. split; [done|].
  rewrite Et, Es. split; [|split; [|done]].
  - rewrite HT. apply map_same; [done|]. intros t p Hp. exists p. split; [done|]. apply abs_same. by rewrite Eb.
  - by rewrite Eb.
Qed.
End Simulation.

Lemma sim_enter s a queued used s' : vinv true s queued used -> a_thr a = map (abs_pc s used) (v_thr s) ->
  (forall b, a_bufs a b = (db_blockno (v_bufs s b), db_data (v_bufs s b))) ->
  (forall bn, 0 <= bn < 2 ^ 31 -> a_disk a bn = block (v_sectors s) bn) ->
  lock_free s -> intr_enter s = Ret tt s' -> refines s' a.
Proof.
  intros I HT HB HD Hl E. rewrite intr_enter_run in E. injection E as <-.
  eapply sim_stay; try done; [by apply vinv_intr|]. intros t p Hp. by exists p.
Qed.

(** Every step of the system is a step of the atomic disk with the same event. *)
Lemma sys_step_refines device s a e s' : device_ok device -> refines s a -> sys_step device s e s' -> exists a', astep a e a' /\ refines s' a'.
Proof.
  intros Hdev (queued & used & I & HT & HB & HD) Hstep. pose proof (a_stay a) as Hstay.
  destruct Hstep as [t b w Ht Hu|b bn data Hu Hbn Hlen|t b w s' Hl Ht E|t b w idx s' Ht E|t b w idx s' Hl Ht Hd E|t b w idx s' Hl Ht Hd E|s' Hl Hi E|s' Hi E|s' Hs].
  - eexists. by eapply sim_call.
  - eexists. by eapply sim_use.
  - exists a. split; [done|]. by eapply sim_alloc.
  - exists a. split; [done|]. by eapply sim_publish.
  - exists a. split; [done|]. by eapply sim_sleep.
  - eexists. by eapply sim_ret.
  - exists a. split; [done|]. by eapply sim_enter.
  - exists a. split; [done|]. by eapply sim_turn.
  - destruct (Hdev _ _ Hs) as [Hf|(h & len & Hh & Hdone)]; [exists a; split; [done|]; by eapply sim_fetch|].
    destruct (taken_request _ _ _ I h Hh) as (t & p & b & w & idx & _ & _ & _ & _ & _ & _ & Er).
    destruct (Hdone _ Er) as [Hd|[? _]]; [|done]. by eapply sim_done.
Qed.

Lemma vstep_refines device s a e s' : device_ok device -> refines s a -> vstep device s e s' -> exists a', astep a e a' /\ refines s' a'.
Proof.
  intros Hdev Hr [e' s1 Hs|t p Hp|s1 Hl E]; [by eapply sys_step_refines| |];
    destruct Hr as (queued & used & I & HT & HB & HD); exists a; (split; [apply a_stay|]); [by eapply sim_kill|by eapply sim_enter].
Qed.
