(* ===== verification/VirtioRun.v ===== *)
(** * Runs of the disk driver

    From the state virtio_disk_init leaves: every run is a run of the atomic disk,
    no call panics, and every pending call can still return. *)
From stdpp Require Import functions.
From S2P Require Import Prelude State Bytes Virtio VirtioSpec VirtioInv VirtioInv2 VirtioRefine.

Open Scope Z_scope.

(** ** Start *)
Definition disk_init : disk :=
  mkDisk (replicate (Z.to_nat NUM) desc0) (mkAvail 0 (replicate (Z.to_nat NUM) 0))
    (mkUsed 0 (replicate (Z.to_nat NUM) (mkUsedElem 0 0))) (replicate (Z.to_nat NUM) 1) 0
    (replicate (Z.to_nat NUM) info0) (replicate (Z.to_nat NUM) req0).

Definition good_buf (v : dbuf) : Prop := 0 <= db_blockno v < 2 ^ 31 /\ length (db_data v) = Z.to_nat BSIZE /\ db_disk v = 0.

(** The atomic disk at the same moment. *)
Definition a_init (n : nat) (bufs : nat -> dbuf) (sectors : Z -> list Z) : astate :=
  mkA (fun b => (db_blockno (bufs b), db_data (bufs b))) (block sectors) (replicate n AIdle).

Lemma init_idle n t p : replicate n Idle !! t = Some p -> p = Idle.
Proof. by intros [-> _]%lookup_replicate. Qed.

Lemma vinv_init {honest} n bufs sectors : (forall b, good_buf (bufs b)) -> (forall x, length (sectors x) = 512%nat) -> vinv honest (v_init n disk_init bufs sectors) [] [].
Proof.
  intros Hb Hs. constructor; try done; unfold v_init; vproj.
  - by intros t t' p p' i ->%init_idle _ ?%not_elem_of_nil.
  - intros i Hi. left. split; [|by intros t p ->%init_idle ?%not_elem_of_nil].
    unfold is_free, elt. cbn [v_disk dk_free disk_init]. rewrite lookup_replicate_2; [done|]. unfold NUM in *. lia.
  - by intros t p b w idx ->%init_idle.
  - by intros t t' p p' b ->%init_idle.
  - intros b. destruct (Hb b) as (? & ? & ?). auto.
  - constructor.
  - intros h. split; [by intros ?%not_elem_of_nil|]. by intros (t & p & b & w & idx & ->%init_idle & ? & _).
  - by intros t b w idx ?%init_idle.
  - by intros _ h ?%not_elem_of_nil.
  - by intros t b w idx ?%init_idle.
  - by intros t b w ?%init_idle.
Qed.

Lemma refines_init n bufs sectors : (forall b, good_buf (bufs b)) -> (forall x, length (sectors x) = 512%nat) ->
  refines (v_init n disk_init bufs sectors) (a_init n bufs sectors).
Proof.
  intros Hb Hs. exists [], []. split; [by apply vinv_init|]. split; [|done]. unfold a_init, v_init. vproj. cbn [a_thr].
  change (map ?f ?l) with (f <$> l). by rewrite fmap_replicate.
Qed.

Lemma steps_refine device s a tr s' : device_ok device -> refines s a -> steps (vstep device) s tr s' ->
  exists a', steps astep a tr a' /\ refines s' a'.
Proof.
  intros Hdev Hr. induction 1 as [|tr s1 e s2 _ IH Hstep]; [exists a; split; [constructor|done]|].
  destruct IH as (a1 & Ha & Hr1). destruct (vstep_refines _ _ _ _ _ Hdev Hr1 Hstep) as (a2 & Ha2 & Hr2).
  exists a2. split; [by econstructor|done].
Qed.

(** A driver that has been initialised, with [n] threads that use it. *)
Lemma run_inv {honest} device n bufs sectors tr s : device_behaves honest device -> (forall b, good_buf (bufs b)) ->
  (forall x, length (sectors x) = 512%nat) -> steps (vstep device) (v_init n disk_init bufs sectors) tr s ->
  exists queued used, vinv honest s queued used.
Proof.
  intros Hdev Hb Hs. induction 1 as [|tr s1 e s2 _ (queued & used & I) Hstep]; [exists [], []; by apply vinv_init|by eapply vinv_step].
Qed.

(** ** No panic *)
Section Safe.
Context {honest : bool} (s : vstate) (queued used : list Z) (I : vinv honest s queued used).

Lemma alloc_runs t b w : v_thr s !! t = Some (Alloc b w) -> exists s', rw_alloc t b w s = Ret tt s'.
Proof.
  intros Ht. destruct (vinv_shape _ _ _ I) as [Hs Hok].
  destruct (alloc3_run s Hs Hok) as [(i0 & i1 & i2 & Hnd & Hr & Hf & E3)|(s1 & E3 & _)].
  - pose proof Hr as (R0 & _ & _)%forall3. eexists. eapply rw_alloc_submit; [apply I|done|apply (vi_bufs _ _ _ I)|done].
  - unfold rw_alloc. erewrite bind_ret_eq by exact E3. eexists. reflexivity.
Qed.

Lemma wait_runs t b w idx : lock_free s -> v_thr s !! t = Some (Wait b w idx) -> exists s', rw_wait t b w idx s = Ret tt s'.
Proof.
  intros Hl Ht. destruct (decide (db_disk (v_bufs s b) = 1)) as [Hd|Hd].
  - unfold rw_wait. erewrite bind_ret_eq by reflexivity. rewrite Hd. eexists. reflexivity.
  - destruct (vi_chain _ _ _ I _ _ _ _ _ Ht eq_refl) as (i0 & i1 & i2 & -> & _). eexists. by eapply rw_wait_ret.
Qed.

(** The entry of the used ring that the handler sees next. *)
Definition next_used (s : vstate) : Z := ue_id (elt (mkUsedElem 0 0) (us_ring (dk_used (v_disk s))) (dk_used_idx (v_disk s) mod NUM)).

Lemma turn_runs : (exists s', intr_turn s = Ret tt s') \/
  (honest = false /\ in_status (get_info s (next_used s)) <> 0 /\ intr_turn s = Panic "virtio_disk_intr status").
Proof.
  destruct (decide (dk_used_idx (v_disk s) = us_idx (dk_used (v_disk s)))) as [Ee|Hne].
  - left. unfold intr_turn. erewrite bind_ret_eq by reflexivity. rewrite Ee, Z.eqb_refl. eexists. reflexivity.
  - destruct (vring_nonempty _ _ _ _ (vi_used _ _ _ I)) as (h & used' & Eu); [by rewrite length_map; apply I|done|].
    pose proof I as I0. rewrite Eu in I0. destruct (turn_owner _ _ _ _ I0) as (t & p & b & w & idx & _ & _ & _ & _ & Hb & _).
    assert (next_used s = h) as ->.
    { destruct (vring_pop _ _ _ _ _ (vi_used _ _ _ I0)) as [<- _]. unfold next_used, elt. rewrite list_lookup_fmap. by destruct (us_ring _ !! _). }
    rewrite (intr_turn_eq _ _ _ _ I0), Hb. destruct (Z.eqb_spec (in_status (get_info s h)) 0) as [E|E]; [left; eexists; reflexivity|right].
    destruct honest eqn:Eh; [|done]. destruct E. apply (vi_status _ _ _ I0); [done|set_solver].
Qed.
End Safe.

(** ** Every call can return *)

(** The device takes the next entry when it has been notified of it, and completes
    each request it has taken. *)
Definition device_serves (device : vstate -> vstate -> Prop) : Prop :=
  (forall s, v_notified s = av_idx (dk_avail (v_disk s)) -> v_fetched s <> av_idx (dk_avail (v_disk s)) -> exists s', device s s' /\ dev_fetch s s') /\
  (forall s h r, h ∈ v_taken s -> request_at s h = Some r -> exists len s', device s s' /\ dev_done h len r s s').

Definition is_ret (e : event) : bool := match e with ERet _ _ _ _ => true | _ => false end.

(** What is left to do in a state. *)
Definition weight (p : rw_pc) : nat :=
  match p with Idle => 0 | Alloc _ _ | SleepFree _ _ => 15 | Publish _ _ _ => 12 | Wait _ _ _ | SleepBuf _ _ _ => 5 end.
Definition work (s : vstate) (queued used : list Z) : nat :=
  (sum_list_with weight (v_thr s) + 4 * length queued + 3 * length (v_taken s) + 2 * length used + (if v_intr s then 1 else 0))%nat.

Lemma weight_insert l t p q : l !! t = Some p -> (sum_list_with weight (<[t := q]> l) + weight p = sum_list_with weight l + weight q)%nat.
Proof.
  revert t. induction l as [|x l IH]; intros [|t] H; try done; simpl in *; [injection H as ->; lia|]. specialize (IH t H). lia.
Qed.

Lemma weight_map f l : (forall p, weight (f p) = weight p) -> sum_list_with weight (map f l) = sum_list_with weight l.
Proof. intros Hf. induction l as [|x l IH]; [done|]. simpl. by rewrite Hf, IH. Qed.

Lemma weight_wake_free p : weight (wake_free p) = weight p.
Proof. by destruct p. Qed.
Lemma weight_wake_buf b p : weight (wake_buf b p) = weight p.
Proof. destruct p; try done. simpl. by case_decide. Qed.

Lemma steps_mono {S} (step step' : S -> option event -> S -> Prop) s tr s' :
  (forall s e s', step s e s' -> step' s e s') -> steps step s tr s' -> steps step' s tr s'.
Proof. intros H. induction 1; econstructor; eauto. Qed.

Lemma steps_one {S} (step : S -> option event -> S -> Prop) s e s' : step s e s' -> steps step s (option_list e) s'.
Proof. intros H. change (option_list e) with ([] ++ option_list e). econstructor; [constructor|done]. Qed.

Lemma steps_app {S} (step : S -> option event -> S -> Prop) s1 tr1 s2 tr2 s3 : steps step s1 tr1 s2 -> steps step s2 tr2 s3 -> steps step s1 (tr1 ++ tr2) s3.
Proof. intros H1. induction 1; [by rewrite app_nil_r|]. rewrite app_assoc. by econstructor. Qed.

Section Progress.
Context (device : vstate -> vstate -> Prop) (Hserve : device_serves device).

(** Some steps that leave less to do, with no event but returns. *)
Definition advances (s : vstate) (k : nat) : Prop :=
  exists tr s' queued used, steps (sys_step device) s tr s' /\ vinv true s' queued used /\ (work s' queued used < k)%nat /\ forallb is_ret tr = true.

Lemma advance_one s e s' queued used k : sys_step device s e s' -> vinv true s' queued used -> (work s' queued used < k)%nat -> forallb is_ret (option_list e) = true -> advances s k.
Proof. intros Hs Hv Hk He. exists (option_list e), s', queued, used. split; [by apply steps_one|done]. Qed.

Lemma advance_turn s queued used : vinv true s queued used -> v_intr s = true -> exists s' used', sys_step device s None s' /\ vinv true s' queued used' /\ (work s' queued used' < work s queued used)%nat
  /\ (used <> [] -> (work s' queued used' + 1 < work s queued used)%nat).
Proof.
  intros I Hi. destruct used as [|h used'] eqn:Eu.
  - exists (set_intr false s), []. split_and!; [| |unfold work; vproj; rewrite Hi; lia|done].
    + apply step_turn; [done|]. unfold intr_turn. erewrite bind_ret_eq by reflexivity.
      by rewrite (vring_empty _ _ _ _ (vi_used _ _ _ I) ltac:(by rewrite length_map; apply I) eq_refl), Z.eqb_refl.
    + by apply vinv_intr_done.
  - destruct (turn_owner _ _ _ _ I) as (t & p & b & w & idx & _ & _ & _ & _ & Hb & _). exists (finished b s), used'.
    assert (work (finished b s) queued used' + 1 < work s queued (h :: used'))%nat as Hw.
    { unfold work, finished. vproj. rewrite weight_map by apply weight_wake_buf. simpl. lia. }
    split_and!; [| |lia|lia]; [apply step_turn; [done|eapply intr_turn_run; [exact I|apply (vi_status _ _ _ I); [done|set_solver]|done]]|by eapply vinv_turn].
Qed.

Context (s : vstate) (queued used : list Z) (I : vinv true s queued used).

Lemma advance_publish t b w idx : v_thr s !! t = Some (Publish b w idx) -> advances s (work s queued used).
Proof.
  intros Ht. eapply advance_one; [eapply step_publish; [done|apply rw_publish_run]|by eapply vinv_publish| |done].
  unfold work, published. vproj. pose proof (weight_insert _ _ _ (Wait b w idx) Ht). rewrite length_app. simpl in *. lia.
Qed.

Lemma advance_queue : lock_free s -> queued ++ v_taken s ++ used <> [] -> advances s (work s queued used).
Proof.
  intros Hl Hne. destruct Hserve as [Hfetch Hdone]. destruct (decide (queued = [])) as [Eq|Nq].
  2: { destruct queued as [|h q'] eqn:Eq; [done|]. destruct (Hfetch s) as (s' & Hd & Hf); [apply (vi_notified _ _ _ I)|by eapply vring_ne, vi_avail|].
       destruct (vinv_fetch _ _ _ I s' Hf) as (h' & q'' & [= <- <-] & I' & Et & _ & _). eapply advance_one; [by apply step_device|done| |done].
       unfold work. rewrite Et. destruct Hf as [_ ->]. unfold fetched. vproj. rewrite length_app. simpl. lia. }

  destruct (decide (v_taken s = [])) as [Et|Nt].
  - rewrite Eq, Et in Hne. destruct (advance_turn (entered s) queued used) as (s' & used' & Hv & I' & _ & Hw); [by apply vinv_intr|done|].
    exists [], s', queued, used'. split; [|split_and!; try done].
    + change [] with (([] ++ option_list None) ++ option_list (@None event)). econstructor; [|exact Hv]. econstructor; [constructor|]. 
      apply step_intr; [done| |apply intr_enter_run].
      destruct (vi_irq _ _ _ I) as [Hi|Hi]; [done|by rewrite (proj1 Hl) in Hi|done].
    + specialize (Hw Hne). unfold work, entered in *. revert Hw. vproj. destruct (v_intr s); lia.
  - destruct (v_taken s) as [|h taken] eqn:Et; [done|]. assert (h ∈ v_taken s) as Hh by (rewrite Et; set_solver).
    destruct (taken_request _ _ _ I h Hh) as (t & p & b & w & idx & Hp & Hq & Hd & Eh & Hin & Hr & Er).
    destruct (Hdone s h _ Hh Er) as (len & s' & Hdv & Hdn). eapply advance_one; [by apply step_device|by eapply vinv_done| |done].
    destruct (done_thr s h len b w s' Hdn) as (E1 & _ & E3 & E4). unfold work. rewrite E1, E3, E4, length_app. cbn [length].
    pose proof (length_filter_lt (fun x => x <> h) (v_taken s) h Hh ltac:(tauto)). rewrite Et in *. lia.
Qed.

(** Nothing is with the device: a call that was posted is done. *)
Lemma advance_return t p : lock_free s -> queued ++ v_taken s ++ used = [] -> v_thr s !! t = Some p -> posted p <> None -> advances s (work s queued used).
Proof.
  intros Hl Hnil Ht Hp. destruct (posted p) as [[[b w] idx]|] eqn:Hq; [|done].
  assert (db_disk (v_bufs s b) <> 1) as Hd.
  { intros Hd. destruct (vi_live _ _ _ I (idx_at idx 0)) as [_ H]. rewrite Hnil in H. apply (not_elem_of_nil (idx_at idx 0)), H. by exists t, p, b, w, idx. }
  destruct p; try done; injection Hq as -> -> ->; [|by destruct Hd; eapply (vi_asleep _ _ _ I)].
  destruct (vi_chain _ _ _ I _ _ _ _ _ Ht eq_refl) as (i0 & i1 & i2 & -> & _).
  eapply advance_one; [eapply step_ret; try done; by eapply rw_wait_ret|by eapply vinv_ret| |done].
  assert (map wake_free (v_thr s) !! t = Some (Wait b w [i0; i1; i2])) as Ht' by (by rewrite list_lookup_fmap, Ht).
  unfold work, released. vproj. pose proof (weight_insert _ _ _ Idle Ht') as Hw. rewrite weight_map in Hw by apply weight_wake_free. simpl in Hw. lia.
Qed.

(** No thread has a descriptor: one that wants three gets them. *)
Lemma advance_alloc t b w : lock_free s -> (forall t p, v_thr s !! t = Some p -> idxs p = []) -> v_thr s !! t = Some (Alloc b w) -> advances s (work s queued used).
Proof.
  intros Hl Hno Ht. destruct (vinv_shape _ _ _ I) as [Hs Hok].
  destruct (alloc3_run s Hs Hok) as [(i0 & i1 & i2 & Hnd & Hr & Hf & E3)|(s1 & _ & _ & i & j & Hfull)].
  - pose proof Hr as (R0 & _ & _)%forall3.
    eapply advance_one; [eapply step_alloc; [done..|]; eapply rw_alloc_submit; [apply I|done|apply (vi_bufs _ _ _ I)|done]|by apply vinv_submit| |done].
    unfold work, submitted. vproj. pose proof (weight_insert _ _ _ (Publish b w [i0; i1; i2]) Ht). simpl in *. lia.
  - exfalso. assert (exists k, 0 <= k < NUM /\ k <> i /\ k <> j) as (k & Hk & Hki & Hkj) by apply third_index.
    destruct (vi_free _ _ _ I k Hk) as [[Hf _]|[_ (t' & p & Hp & Hin)]]; [by rewrite Hfull in Hf|].
    rewrite (Hno _ _ Hp) in Hin. by apply not_elem_of_nil in Hin.
Qed.

Definition is_publish (p : rw_pc) : bool := match p with Publish _ _ _ => true | _ => false end.

Lemma find_thread (test : rw_pc -> bool) (l : list rw_pc) : (exists t p, l !! t = Some p /\ test p = true) \/ (forall t p, l !! t = Some p -> test p = false).
Proof.
  destruct (decide (Exists (fun p => test p = true) l)) as [H|H].
  - left. apply Exists_exists in H as (p & (t & Ht)%list_elem_of_lookup & Hp). eauto.
  - right. intros t p Hp. destruct (test p) eqn:E; [|done]. destruct H. apply Exists_exists. exists p. split; [by eapply list_elem_of_lookup_2|done].
Qed.

Lemma advance t p : v_thr s !! t = Some p -> p <> Idle -> advances s (work s queued used).
Proof.
  intros Ht Hp. destruct (v_intr s) eqn:Hi.
  { destruct (advance_turn s queued used I Hi) as (s' & used' & Hv & I' & Hw & _). by eapply (advance_one _ None). }
  destruct (find_thread is_publish (v_thr s)) as [(t1 & p1 & H1 & E1)|Hpub].
  { destruct p1; try done. by eapply advance_publish. }
  assert (lock_free s) as Hl by (split; [done|]; intros t1 b w idx H1; by apply Hpub in H1).
  destruct (decide (queued ++ v_taken s ++ used = [])) as [Hnil|Hne]; [|by apply advance_queue].
  destruct (find_thread (fun q => bool_decide (posted q <> None)) (v_thr s)) as [(t1 & p1 & H1 & E1)|Hpost].
  { apply bool_decide_eq_true in E1. by eapply advance_return. }
  assert (forall t p, v_thr s !! t = Some p -> idxs p = []) as Hno.
  { intros t1 p1 H1. pose proof (Hpub _ _ H1) as A1. pose proof (Hpost _ _ H1) as A2. by destruct p1. }
  pose proof (Hpub _ _ Ht) as A1. pose proof (Hpost _ _ Ht) as A2. destruct p; try done; [by eapply advance_alloc|].
  destruct (vi_hungry _ _ _ I _ _ _ Ht) as (t' & p' & Hp' & []). by eapply Hno.
Qed.
End Progress.

(** From any state of a run the system can come to rest. *)
Lemma drain device s queued used : device_serves device -> vinv true s queued used ->
  exists tr s', steps (sys_step device) s tr s' /\ forallb is_ret tr = true /\ forall t p, v_thr s' !! t = Some p -> p = Idle.
Proof.
  intros Hserve. remember (work s queued used) as k eqn:Ek. revert s queued used Ek.
  induction (lt_wf k) as [k _ IH]. intros s queued used -> I.
  destruct (find_thread (fun q => bool_decide (weight q <> 0%nat)) (v_thr s)) as [(t & p & Ht & Hp)|Hidle].
  - apply bool_decide_eq_true in Hp. destruct (advance device Hserve s queued used I t p Ht) as (tr & s1 & q1 & u1 & Hs & I1 & Hw & He); [by intros ->|].
    destruct (IH _ Hw s1 q1 u1 eq_refl I1) as (tr' & s' & Hs' & He' & Hall). exists (tr ++ tr'), s'.
    split; [by eapply steps_app|]. split; [|done]. by rewrite forallb_app, He, He'.
  - exists [], s. split; [constructor|]. split; [done|]. intros t p Hp. apply Hidle in Hp. by destruct p.
Qed.

(** In the atomic disk a thread is done with a buffer only when its call returns. *)
Lemma a_returns a tr a' t b c : steps astep a tr a' -> a_thr a !! t = Some c -> a_uses c = Some b ->
  (exists c', a_thr a' !! t = Some c' /\ a_uses c' = Some b) \/ exists w data, ERet t b w data ∈ tr.
Proof.
  intros Hs Hc Hb. induction Hs as [|tr a1 e a2 _ IH Hstep]; [eauto|].
  destruct IH as [(c1 & H1 & U1)|(w & data & Hin)]; [|right; exists w, data; set_solver].
  assert (t < length (a_thr a1))%nat as Hlt by (by eapply lookup_lt_Some).
  destruct Hstep as [t' b' w' Ht' _|b' bn data _ _ _|t' b' w' Ht'|t' b' w' Ht'|]; cbn [a_thr a_set].
  - left. exists c1. rewrite list_lookup_insert_ne; [done|]. intros ->. rewrite Ht' in H1. by injection H1 as <-.
  - eauto.
  - left. assert (a_thr (a_transfer b' w' a1) = a_thr a1) as -> by (unfold a_transfer; destruct (a_bufs a1 b'), w'; done).
    destruct (decide (t' = t)) as [->|Hne]; [|exists c1; by rewrite list_lookup_insert_ne].
    exists (ADone b' w'). rewrite list_lookup_insert_eq by done. rewrite Ht' in H1. by injection H1 as <-.
  - destruct (decide (t' = t)) as [->|Hne]; [|left; exists c1; by rewrite list_lookup_insert_ne].
    right. rewrite Ht' in H1. injection H1 as <-. injection U1 as <-. exists w', (snd (a_bufs a1 b')). set_solver.
  - eauto.
Qed.

(** ** virtio_disk_init *)
Section Handshake.
Context (mmio_read : list (Z * Z) -> Z -> Z).

(** The registers virtio_disk_init writes, in order. *)
Definition handshake (features status desc avail used : Z) : list (Z * Z) :=
  [(VIRTIO_MMIO_STATUS, 0); (VIRTIO_MMIO_STATUS, 1); (VIRTIO_MMIO_STATUS, 3); (VIRTIO_MMIO_DRIVER_FEATURES, features); (VIRTIO_MMIO_STATUS, 11);
   (VIRTIO_MMIO_QUEUE_SEL, 0); (VIRTIO_MMIO_QUEUE_NUM, NUM);
   (VIRTIO_MMIO_QUEUE_DESC_LOW, uint32 desc); (VIRTIO_MMIO_QUEUE_DESC_HIGH, uint32 (Z.shiftr desc 32));
   (VIRTIO_MMIO_DRIVER_DESC_LOW, uint32 avail); (VIRTIO_MMIO_DRIVER_DESC_HIGH, uint32 (Z.shiftr avail 32));
   (VIRTIO_MMIO_DEVICE_DESC_LOW, uint32 used); (VIRTIO_MMIO_DEVICE_DESC_HIGH, uint32 (Z.shiftr used 32));
   (VIRTIO_MMIO_QUEUE_READY, 1); (VIRTIO_MMIO_STATUS, uint32 (Z.lor status VIRTIO_CONFIG_S_DRIVER_OK))].

Lemma rd_run r h : rd mmio_read r h = Ret (mmio_read h r) h.
Proof. done. Qed.
Lemma wr_run r v h : wr r v h = Ret tt ((r, uint32 v) :: h).
Proof. done. Qed.

Lemma init_run desc avail used h d h' : virtio_disk_init mmio_read desc avail used h = Ret d h' ->
  d = disk_init /\ desc <> 0 /\ avail <> 0 /\ used <> 0 /\ exists features status, Z.land status VIRTIO_CONFIG_S_FEATURES_OK <> 0
  /\ features = mmio_read ((VIRTIO_MMIO_STATUS, 3) :: (VIRTIO_MMIO_STATUS, 1) :: (VIRTIO_MMIO_STATUS, 0) :: h) VIRTIO_MMIO_DEVICE_FEATURES
  /\ h' = rev (handshake (uint32 (virtio_features features)) status desc avail used) ++ h.
Proof.
  unfold virtio_disk_init. do 4 (erewrite bind_ret_eq by apply rd_run). case_match; [done|].
  do 3 (erewrite bind_ret_eq by apply wr_run). erewrite bind_ret_eq by apply rd_run. do 2 (erewrite bind_ret_eq by apply wr_run).
  erewrite bind_ret_eq by apply rd_run. 
  match goal with |- context [Z.land ?x ?y =? 0] => destruct (Z.eqb_spec (Z.land x y) 0) as [|Hok]; [done|] end.
  erewrite bind_ret_eq by apply wr_run. erewrite bind_ret_eq by apply rd_run. case_match; [done|].
  erewrite bind_ret_eq by apply rd_run. case_match; [done|]. case_match; [done|].
  destruct (Z.eqb_spec desc 0), (Z.eqb_spec avail 0), (Z.eqb_spec used 0); try done. cbn [orb].
  do 9 (erewrite bind_ret_eq by apply wr_run). intros [= <- <-]. split_and!; try done. eexists _, _. split; [exact Hok|]. split; reflexivity.
Qed.

Lemma clear_bit_spec k f n : 0 <= k < 31 -> 0 <= n < 64 -> Z.testbit (clear_bit k f) n = Z.testbit f n && negb (n =? k).
Proof.
  intros Hk Hn. unfold clear_bit, wrap64. rewrite Z.land_spec, Z.mod_pow2_bits_low, Z.lnot_spec by lia. f_equal. f_equal.
  rewrite Z.shiftl_spec by lia. destruct (Z.eqb_spec n k) as [->|Hne]; [by rewrite Z.sub_diag|].
  destruct (Z.ltb_spec n k); [by rewrite Z.testbit_neg_r by lia|]. change 1 with (2 ^ 0). apply Z.pow2_bits_false. lia.
Qed.
End Handshake.

(** A device that does what is assumed of it, and nothing else. *)
Definition plain_device (s s' : vstate) : Prop :=
  dev_fetch s s' \/ exists h r, h ∈ v_taken s /\ request_at s h = Some r /\ dev_done h 0 r s s'.

Lemma plain_device_ok : device_ok plain_device.
Proof. intros s s' [Hf|(h & r & Hh & Hr & Hd)]; [by left|right]. exists h, 0. split; [done|]. intros r'. rewrite Hr. intros [= <-]. by left. Qed.

Lemma plain_device_serves : device_serves plain_device.
Proof.
  split.
  - intros s _ Hne. eexists. split; [left|]; by split.
  - intros s h r Hh Hr. eexists 0, _. split; [right; exists h, r; split_and!; [done|done|reflexivity]|reflexivity].
Qed.

(** Registers as qemu's virtio-mmio device has them after a reset. *)
Definition reset_device (h : list (Z * Z)) (r : Z) : Z :=
  if r =? VIRTIO_MMIO_MAGIC_VALUE then 0x74726976 else if r =? VIRTIO_MMIO_VERSION then 2 else if r =? VIRTIO_MMIO_DEVICE_ID then 2
  else if r =? VIRTIO_MMIO_VENDOR_ID then 0x554d4551 else if r =? VIRTIO_MMIO_DEVICE_FEATURES then 0x31006ed4
  else if r =? VIRTIO_MMIO_QUEUE_NUM_MAX then 1024 else if r =? VIRTIO_MMIO_STATUS then default 0 (snd <$> List.find (fun w => fst w =? r) h) else 0.

Definition blank_buf : dbuf := mkDbuf 0 0 (replicate (Z.to_nat BSIZE) 0).
Definition blank_sectors (x : Z) : list Z := replicate 512 (x mod 256).
Lemma blank_good b : good_buf ((fun _ : nat => blank_buf) b).
Proof. done. Qed.
Lemma blank_length x : length (blank_sectors x) = 512%nat.
Proof. done. Qed.

(** ** The driver *)
Section Claims.
Context (device : vstate -> vstate -> Prop) (mmio_read : list (Z * Z) -> Z -> Z).
Context (desc avail used : Z) (h h' : list (Z * Z)) (d : disk).
Context (n : nat) (bufs : nat -> dbuf) (sectors : Z -> list Z).

(** C5: Any number of threads that call virtio_disk_rw, the interrupt handler and
    the device, interleaved in any order from the state virtio_disk_init leaves,
    have the calls and returns of a disk that transfers each block at one moment
    between its call and its return. *)
Theorem driver_refines_atomic_disk (tr : list event) (s : vstate) :
  device_ok device -> (forall b, good_buf (bufs b)) -> (forall x, length (sectors x) = 512%nat) ->
  virtio_disk_init mmio_read desc avail used h = Ret d h' ->
  steps (vstep device) (v_init n d bufs sectors) tr s ->
  exists a, steps astep (a_init n bufs sectors) tr a /\ refines s a.
Proof.
  intros Hdev Hb Hs [-> _]%init_run Hrun. by eapply steps_refine; [|apply refines_init|].
Qed.

(** C7: After a virtio_disk_init that returned, whatever the order of threads,
    handler and device: free_desc never panics, no null [disk.info[id].b] is
    dereferenced and free_chain ends; every part of virtio_disk_rw and of
    virtio_disk_intr that can run runs to its end, with one exception.  The
    handler panics when it comes to a request that the device failed, and with a
    device that fails none ([honest]) it never does. *)
Theorem driver_never_panics (honest : bool) (tr : list event) (s : vstate) :
  device_behaves honest device -> (forall b, good_buf (bufs b)) -> (forall x, length (sectors x) = 512%nat) ->
  virtio_disk_init mmio_read desc avail used h = Ret d h' ->
  steps (vstep device) (v_init n d bufs sectors) tr s ->
  (forall t b w, v_thr s !! t = Some (Alloc b w) -> exists s', rw_alloc t b w s = Ret tt s')
  /\ (forall t b w idx, v_thr s !! t = Some (Publish b w idx) -> exists s', rw_publish t b w idx s = Ret tt s')
  /\ (forall t b w idx, lock_free s -> v_thr s !! t = Some (Wait b w idx) -> exists s', rw_wait t b w idx s = Ret tt s')
  /\ ((exists s', intr_turn s = Ret tt s') \/
      (honest = false /\ in_status (get_info s (next_used s)) <> 0 /\ intr_turn s = Panic "virtio_disk_intr status")).
Proof.
  intros Hdev Hb Hs [-> _]%init_run Hrun. destruct (run_inv device n bufs sectors _ _ Hdev Hb Hs Hrun) as (q & u & I). split_and!.
  - intros t b w. by eapply alloc_runs.
  - intros t b w idx _. eexists. apply rw_publish_run.
  - intros t b w idx. by eapply wait_runs.
  - by eapply turn_runs.
Qed.

(** C6: No wakeup, notification or interrupt is lost and no descriptor leaks.
    From every state of every run (threads may have been woken by kkill and the
    handler may have run without an interrupt), with a device that succeeds, looks
    at its queue when it is notified and serves it, the system can go on, with no
    new call, no kill and no interrupt that the device has not raised, until every
    thread is idle; every call that was pending then has returned. *)
Theorem pending_calls_return (tr : list event) (s : vstate) :
  device_ok device -> device_serves device -> (forall b, good_buf (bufs b)) -> (forall x, length (sectors x) = 512%nat) ->
  virtio_disk_init mmio_read desc avail used h = Ret d h' ->
  steps (vstep device) (v_init n d bufs sectors) tr s ->
  exists tr' s', steps (sys_step device) s tr' s' /\ forallb is_ret tr' = true /\ (forall t p, v_thr s' !! t = Some p -> p = Idle)
  /\ forall t p b, v_thr s !! t = Some p -> uses p = Some b -> exists w data, ERet t b w data ∈ tr'.
Proof.
  intros Hdev Hserve Hb Hs [-> _]%init_run Hrun.
  destruct (steps_refine _ _ _ _ _ Hdev (refines_init n _ _ Hb Hs) Hrun) as (a & _ & Hr). pose proof Hr as (q & u & I & HT & _).
  destruct (drain device s q u Hserve I) as (tr' & s' & Hs' & He & Hidle). exists tr', s'. split_and!; try done.
  intros t p b Hp Hu. apply (steps_mono _ (vstep device)) in Hs'; [|intros; by apply step_sys].
  destruct (steps_refine _ _ _ _ _ Hdev Hr Hs') as (a' & Ha' & q' & u' & I' & HT' & _).
  destruct (a_returns _ _ _ t b (abs_pc s u p) Ha') as [(c & Hc & Hcb)|Hret]; [by apply a_lookup|by rewrite abs_uses| |done].
  rewrite HT' in Hc. apply list_lookup_fmap_Some in Hc as (p' & -> & Hp'). rewrite (Hidle _ _ Hp') in Hcb. done.
Qed.

(** virtio_disk_init returns only after the handshake of the specification:
    reset, ACKNOWLEDGE, DRIVER, the features, FEATURES_OK, queue 0 with the
    addresses of the three rings, DRIVER_OK last; of the offered features it
    accepts all but the seven it clears. *)
Theorem init_negotiates :
  virtio_disk_init mmio_read desc avail used h = Ret d h' ->
  exists offered accepted status, h' = rev (handshake accepted status desc avail used) ++ h
  /\ offered = mmio_read ((VIRTIO_MMIO_STATUS, 3) :: (VIRTIO_MMIO_STATUS, 1) :: (VIRTIO_MMIO_STATUS, 0) :: h) VIRTIO_MMIO_DEVICE_FEATURES
  /\ (forall k, 0 <= k < 32 -> Z.testbit accepted k = Z.testbit offered k && negb (bool_decide (k ∈ [5; 7; 11; 12; 27; 28; 29])))
  /\ Z.land status VIRTIO_CONFIG_S_FEATURES_OK <> 0.
Proof.
  intros (_ & _ & _ & _ & f & status & Hok & Ef & ->)%init_run. exists f, (uint32 (virtio_features f)), status. split_and!; try done.
  intros k Hk. unfold uint32. rewrite Z.mod_pow2_bits_low by lia. unfold virtio_features. rewrite !clear_bit_spec by (done || lia).
  rewrite <- !andb_assoc. f_equal.
  destruct (decide (k ∈ [5; 7; 11; 12; 27; 28; 29])) as [Hin|Hin].
  - rewrite bool_decide_true by done. repeat (apply elem_of_cons in Hin as [->|Hin]; [reflexivity|]). by apply not_elem_of_nil in Hin.
  - rewrite bool_decide_false by done. rewrite !not_elem_of_cons in Hin. destruct Hin as (? & ? & ? & ? & ? & ? & ? & _).
    repeat (rewrite (proj2 (Z.eqb_neq k _)) by done). done.
Qed.
End Claims.

(** ** A run: a thread reads the block of buffer 3 while another writes buffer 4 *)
Definition after (m : V unit) (s : vstate) : vstate := match m s with Ret _ s' => s' | _ => s end.

Definition demo0 : vstate := v_init 2 disk_init (fun _ => blank_buf) blank_sectors.
Definition demo1 : vstate := after (rw_alloc 0 3 false) (set_thr (insert 0%nat (Alloc 3 false)) demo0).
Definition demo2 : vstate := after (rw_wait 0 3 false [0; 1; 2]) (after (rw_publish 0 3 false [0; 1; 2]) demo1).
Definition demo3 : vstate := after (rw_alloc 1 4 true) (set_thr (insert 1%nat (Alloc 4 true)) (fetched demo2)).
Definition demo4 : vstate := after (rw_publish 1 4 true [3; 4; 5]) (completed 0 0 (mkRequest false 0 3 2 0) demo3).
Definition demo5 : vstate := after intr_turn (after intr_turn (after intr_enter demo4)).
Definition demo6 : vstate := after (rw_wait 0 3 false [0; 1; 2]) demo5.
Definition demo_trace : list event := [ECall 0 3 false; ECall 1 4 true].
Definition demo_init : run (list (Z * Z)) disk := virtio_disk_init reset_device 0x87f00000 0x87f01000 0x87f02000 [].
Definition demo_writes : list (Z * Z) := match demo_init with Ret _ h => h | _ => [] end.

Lemma demo_init_ok : virtio_disk_init reset_device 0x87f00000 0x87f01000 0x87f02000 [] = Ret disk_init demo_writes.
Proof. vm_compute. reflexivity. Qed.

Lemma demo_lock_free s : v_intr s = false -> forallb (fun p => negb (is_publish p)) (v_thr s) = true -> lock_free s.
Proof.
  intros Hi Hp. split; [done|]. intros t b w idx Ht. rewrite forallb_forall in Hp. specialize (Hp (Publish b w idx)). simpl in Hp.
  assert (false = true); [|done]. apply Hp, list_elem_of_In. by eapply list_elem_of_lookup_2.
Qed.

Lemma demo_unused s b : forallb (fun p => bool_decide (uses p <> Some b)) (v_thr s) = true -> unused s b.
Proof.
  intros Hp t p Ht. rewrite forallb_forall in Hp. specialize (Hp p). apply bool_decide_eq_true in Hp; [done|].
  apply list_elem_of_In. by eapply list_elem_of_lookup_2.
Qed.

Lemma after_run m s : match m s with Ret _ _ => true | _ => false end = true -> m s = Ret tt (after m s).
Proof. unfold after. by destruct (m s) as [[] s'| | |]. Qed.

(** A step without an event that runs [m]. *)
Lemma demo_step tr s m s0 : steps (vstep plain_device) s0 tr s -> (forall s', m s = Ret tt s' -> vstep plain_device s None s') ->
  match m s with Ret _ _ => true | _ => false end = true -> steps (vstep plain_device) s0 tr (after m s).
Proof.
  intros Hs Hv Hm. rewrite <- (app_nil_r tr). change [] with (option_list (@None event)). econstructor; [done|].
  by apply Hv, after_run.
Qed.

Ltac run_it := vm_compute; reflexivity.
Ltac run_free := apply demo_lock_free; run_it.

Lemma demo_runs_3 : steps (vstep plain_device) demo0 demo_trace demo3.
Proof.
  apply demo_step; [|intros s' E; apply step_sys, (step_alloc _ _ 1 4 true s'); [run_free|run_it|exact E]|run_it].
  apply (steps_snoc _ _ [ECall 0 3 false] (fetched demo2) (Some (ECall 1 4 true))); [|apply step_sys, step_call; [run_it|apply demo_unused; run_it]].
  apply (steps_snoc _ _ [ECall 0 3 false] demo2 None); [|apply step_sys, step_device; left; split; [vm_compute; discriminate|reflexivity]].
  apply demo_step; [|intros s' E; apply step_sys, (step_sleep _ _ 0 3 false [0; 1; 2] s'); [run_free|run_it|run_it|exact E]|run_it].
  apply demo_step; [|intros s' E; apply step_sys, (step_publish _ _ 0 3 false [0; 1; 2] s'); [run_it|exact E]|run_it].
  apply demo_step; [|intros s' E; apply step_sys, (step_alloc _ _ 0 3 false s'); [run_free|run_it|exact E]|run_it].
  apply (steps_snoc _ _ [] demo0 (Some (ECall 0 3 false))); [constructor|]. apply step_sys, step_call; [run_it|apply demo_unused; run_it].
Qed.

Lemma demo_runs_6 : steps (vstep plain_device) demo0 (demo_trace ++ [ERet 0 3 false (db_data (v_bufs demo6 3))]) demo6.
Proof.
  apply (steps_snoc _ _ _ demo5 (Some (ERet 0 3 false (db_data (v_bufs demo6 3))))).
  2: { apply step_sys, (step_ret _ _ 0 3 false [0; 1; 2] demo6); [run_free|run_it|vm_compute; discriminate|apply after_run; run_it]. }
  apply demo_step; [|intros s' E; apply step_sys, step_turn; [run_it|exact E]|run_it].
  apply demo_step; [|intros s' E; apply step_sys, step_turn; [run_it|exact E]|run_it].
  apply demo_step; [|intros s' E; apply step_sys, step_intr; [run_free|run_it|exact E]|run_it].
  apply demo_step; [|intros s' E; apply step_sys, (step_publish _ _ 1 4 true [3; 4; 5] s'); [run_it|exact E]|run_it].
  apply (steps_snoc _ _ demo_trace demo3 None); [apply demo_runs_3|].
  apply step_sys, step_device. right. exists 0, (mkRequest false 0 3 2 0). split; [|split; [run_it|reflexivity]].
  replace (v_taken demo3) with [0] by run_it. apply list_elem_of_here.
Qed.

Lemma driver_refines_atomic_disk_witness : exists a, steps astep (a_init 2 (fun _ => blank_buf) blank_sectors) (demo_trace ++ [ERet 0 3 false (db_data (v_bufs demo6 3))]) a
  /\ refines demo6 a.
Proof.
  exact (driver_refines_atomic_disk plain_device reset_device _ _ _ _ _ _ 2 (fun _ => blank_buf) blank_sectors _ demo6
    plain_device_ok blank_good blank_length demo_init_ok demo_runs_6).
Defined.

Lemma driver_never_panics_witness : exists s', intr_turn demo3 = Ret tt s'.
Proof.
  destruct (proj2 (proj2 (proj2 (driver_never_panics plain_device reset_device _ _ _ _ _ _ 2 (fun _ => blank_buf) blank_sectors true _ demo3
    plain_device_ok blank_good blank_length demo_init_ok demo_runs_3)))) as [H|[H _]]; [exact H|discriminate H].
Defined.

Lemma pending_calls_return_witness : exists tr' s', steps (sys_step plain_device) demo3 tr' s' /\ forallb is_ret tr' = true
  /\ (forall t p, v_thr s' !! t = Some p -> p = Idle) /\ forall t p b, v_thr demo3 !! t = Some p -> uses p = Some b -> exists w data, ERet t b w data ∈ tr'.
Proof.
  exact (pending_calls_return plain_device reset_device _ _ _ _ _ _ 2 (fun _ => blank_buf) blank_sectors _ demo3
    plain_device_ok plain_device_serves blank_good blank_length demo_init_ok demo_runs_3).
Defined.

Lemma init_negotiates_witness : exists offered accepted status, demo_writes = rev (handshake accepted status 0x87f00000 0x87f01000 0x87f02000) ++ []
  /\ offered = 0x31006ed4
  /\ (forall k, 0 <= k < 32 -> Z.testbit accepted k = Z.testbit offered k && negb (bool_decide (k ∈ [5; 7; 11; 12; 27; 28; 29])))
  /\ Z.land status VIRTIO_CONFIG_S_FEATURES_OK <> 0.
Proof. exact (init_negotiates reset_device _ _ _ _ _ _ demo_init_ok). Defined.
