(* ===== verification/Bio.v ===== *)
(** * Sleep locks and the buffer cache: sleeplock.c, bio.c

    The disk itself, behind [virtio_disk_rw], transfers a block at a time; it is
    kept as the list of the writes it has done, so that a crash leaves the disk
    of some earlier moment: a tail of the list. *)
From S2P Require Import Prelude State CString Kalloc Vm Sched.

Open Scope Z_scope.

(** ** Access to the buffers *)
Definition buf0 : buf := mkBuf 0 0 0 (mkSleeplock 0 0) 0 0 0 [].
Definition getbuf (s : kernel) (b : nat) : buf := default buf0 (k_bufs s !! b).
Definition get_buf (b : nat) : K buf := gets (fun s => getbuf s b).
Definition upd_buf (b : nat) (f : buf -> buf) (s : kernel) : kernel :=
  set_k_bufs (alter f b (k_bufs s)) s.
Definition mod_buf (b : nat) (f : buf -> buf) : K unit := modify (upd_buf b f).

Definition inode0 : inode := mkInode 0 0 0 (mkSleeplock 0 0) 0 0 0 0 0 0 [].
Definition getinode (s : kernel) (i : nat) : inode := default inode0 (k_inodes s !! i).
Definition get_inode (i : nat) : K inode := gets (fun s => getinode s i).
Definition upd_inode (i : nat) (f : inode -> inode) (s : kernel) : kernel :=
  set_k_inodes (alter f i (k_inodes s)) s.
Definition mod_inode (i : nat) (f : inode -> inode) : K unit := modify (upd_inode i f).

(** ** sleeplock.c *)

(** The sleep locks of the kernel: one per buffer and one per in-memory inode. *)
Inductive sleepid := SBuf (b : nat) | SInode (i : nat).
Definition sl_lk (l : sleepid) : lockid := match l with SBuf b => LBuf b | SInode i => LInode i end.
Definition sl_chan (l : sleepid) : chanid := match l with SBuf b => CBuf b | SInode i => CInode i end.
Definition getsleep (s : kernel) (l : sleepid) : sleeplock :=
  match l with SBuf b => b_lock (getbuf s b) | SInode i => i_lock (getinode s i) end.
Definition put_sleep (l : sleepid) (v : sleeplock) : K unit :=
  match l with SBuf b => mod_buf b (set_b_lock v) | SInode i => mod_inode i (set_i_lock v) end.

Definition initsleeplock (l : sleepid) : K unit := put_sleep l (mkSleeplock 0 0).

(** [holdingsleep] *)
Definition holdingsleep (l : sleepid) : K bool :=
  acquire (sl_lk l) ;;;
  let* p := this_proc in
  let* pr := get_proc p in
  let* v := gets (fun s => getsleep s l) in
  release (sl_lk l) ;;;
  ret (negb (sl_locked v =? 0) && (sl_pid v =? p_pid pr)).

Definition releasesleep (l : sleepid) : K unit :=
  acquire (sl_lk l) ;;;
  put_sleep l (mkSleeplock 0 0) ;;;
  wakeup (sl_chan l) ;;;
  release (sl_lk l).

Section Fuel.
Context (fuel : nat).

Definition acquiresleep (l : sleepid) : K unit :=
  acquire (sl_lk l) ;;;
  while_loop fuel tt (fun _ =>
    let* v := gets (fun s => getsleep s l) in
    if negb (sl_locked v =? 0) then sleep (sl_chan l) (sl_lk l) ;;; ret (inl tt)
    else ret (inr tt)) ;;;
  let* p := this_proc in
  let* pr := get_proc p in
  put_sleep l (mkSleeplock 1 (p_pid pr)) ;;;
  release (sl_lk l).

(** ** bio.c *)

(** [&bcache.head] *)
Definition bhead : nat := Z.to_nat NBUF.

Definition binit : K unit :=
  mod_buf bhead (set_b_prev bhead) ;;;
  mod_buf bhead (set_b_next bhead) ;;;
  for_all (seq 0 (Z.to_nat NBUF)) (fun b =>
    let* h := get_buf bhead in
    mod_buf b (set_b_next (b_next h)) ;;;
    mod_buf b (set_b_prev bhead) ;;;
    initsleeplock (SBuf b) ;;;
    mod_buf (b_next h) (set_b_prev b) ;;;
    mod_buf bhead (set_b_next b)).

(** The two scans of [bget]: along [next] for the block, along [prev] for an
    unused buffer.  The list has [NBUF] buffers and the head. *)
Fixpoint bscan (n : nat) (step : buf -> nat) (test : buf -> bool) (b : nat) : K (option nat) :=
  match n with
  | O => out_of_fuel
  | S n' =>
      if Nat.eqb b bhead then ret None else
      let* v := get_buf b in
      if test v then ret (Some b) else bscan n' step test (step v)
  end.

Definition bget (dev blockno : Z) : K nat :=
  acquire LBcache ;;;
  let* h := get_buf bhead in
  let* c := bscan (S bhead) b_next (fun v => (b_dev v =? dev) && (b_blockno v =? blockno)) (b_next h) in
  match c with
  | Some b =>
      mod_buf b (fun v => set_b_refcnt (uint32 (b_refcnt v + 1)) v) ;;;
      release LBcache ;;;
      acquiresleep (SBuf b) ;;;
      ret b
  | None =>
      let* u := bscan (S bhead) b_prev (fun v => b_refcnt v =? 0) (b_prev h) in
      match u with
      | Some b =>
          mod_buf b (fun v => set_b_refcnt 1 (set_b_valid 0 (set_b_blockno blockno (set_b_dev dev v)))) ;;;
          release LBcache ;;;
          acquiresleep (SBuf b) ;;;
          ret b
      | None => panic "bget: no buffers"
      end
  end.

(** The disk: a block holds what was last written to it, zeroes at first. *)
Definition zero_block : list Z := replicate (Z.to_nat BSIZE) 0.
Fixpoint disk_block (d : list (Z * list Z)) (blockno : Z) : list Z :=
  match d with
  | [] => zero_block
  | (b, data) :: d' => if b =? blockno then data else disk_block d' blockno
  end.
Definition virtio_disk_rw (b : nat) (write : bool) : K unit :=
  let* v := get_buf b in
  if write then modify (fun s => set_k_disk ((b_blockno v, b_data v) :: k_disk s) s)
  else modify (fun s => upd_buf b (set_b_data (disk_block (k_disk s) (b_blockno v))) s).

Definition bread (dev blockno : Z) : K nat :=
  let* b := bget dev blockno in
  let* v := get_buf b in
  (if b_valid v =? 0 then virtio_disk_rw b false ;;; mod_buf b (set_b_valid 1) else skip) ;;;
  ret b.

Definition bwrite (b : nat) : K unit :=
  let* h := holdingsleep (SBuf b) in
  if negb h then panic "bwrite" else virtio_disk_rw b true.

Definition brelse (b : nat) : K unit :=
  let* h := holdingsleep (SBuf b) in
  if negb h then panic "brelse" else
  releasesleep (SBuf b) ;;;
  acquire LBcache ;;;
  mod_buf b (fun v => set_b_refcnt (uint32 (b_refcnt v - 1)) v) ;;;
  let* v := get_buf b in
  (if b_refcnt v =? 0 then
     mod_buf (b_next v) (set_b_prev (b_prev v)) ;;;
     mod_buf (b_prev v) (set_b_next (b_next v)) ;;;
     let* h := get_buf bhead in
     mod_buf b (set_b_next (b_next h)) ;;;
     mod_buf b (set_b_prev bhead) ;;;
     let* h := get_buf bhead in
     mod_buf (b_next h) (set_b_prev b) ;;;
     mod_buf bhead (set_b_next b)
   else skip) ;;;
  release LBcache.

Definition bpin (b : nat) : K unit :=
  acquire LBcache ;;;
  mod_buf b (fun v => set_b_refcnt (uint32 (b_refcnt v + 1)) v) ;;;
  release LBcache.

Definition bunpin (b : nat) : K unit :=
  acquire LBcache ;;;
  mod_buf b (fun v => set_b_refcnt (uint32 (b_refcnt v - 1)) v) ;;;
  release LBcache.
End Fuel.
