(* ===== verification/BioSpec.v ===== *)
(** * Theory of the buffer cache

    What bread, bwrite, brelse, bpin and bunpin do for a thread that is alone
    with the cache: no buffer lock is held by another thread, so no call sleeps.
    The cache is described by what each block contains, in the cache or on disk,
    and by the reference counts; the list of recently used buffers is hidden in
    the invariant. *)
From S2P Require Import Prelude State CString Kalloc Vm Sched Bytes Bio.

Open Scope Z_scope.

(** ** Buffers *)
Lemma getbuf_upd b b' f s :
  (b < length (k_bufs s))%nat ->
  getbuf (upd_buf b f s) b' = if decide (b = b') then f (getbuf s b) else getbuf s b'.
Proof.
  intros Hb. unfold getbuf, upd_buf. simpl. case_decide as E.
  - subst b'. rewrite list_lookup_alter_eq. destruct (lookup_lt_is_Some_2 (k_bufs s) b Hb) as [v Hv]. by rewrite Hv.
  - by rewrite list_lookup_alter_ne.
Qed.

Lemma length_upd_buf b f s : length (k_bufs (upd_buf b f s)) = length (k_bufs s).
Proof. apply length_alter. Qed.

Lemma upd_buf_twice b f g s : upd_buf b f (upd_buf b g s) = upd_buf b (fun v => f (g v)) s.
Proof.
  unfold upd_buf. destruct s. unfold set_k_bufs. simpl. f_equal. apply list_eq. intros j.
  destruct (decide (b = j)) as [->|]; [|by rewrite !list_lookup_alter_ne].
  rewrite !list_lookup_alter_eq. by destruct (k_bufs !! j).
Qed.

(** ** A thread alone with the cache

    It holds no spin lock, it has a process, and nobody sleeps for a buffer, for
    an inode or for the log. *)
Definition fs_chan (ch : chanid) : bool := match ch with CLog | CBuf _ | CInode _ => true | _ => false end.

Record calm (s : kernel) (pid : Z) : Prop := {
  calm_held : k_held s = [];
  calm_cur : exists p, k_cur s = Some p /\ p_pid (getproc s p) = pid;
  calm_len : (length (k_procs s) <= Z.to_nat NPROC)%nat;
  calm_sleep : forall i pr, k_procs s !! i = Some pr -> p_state pr = SLEEPING -> fs_chan (p_chan pr) = false }.

(** What calm looks at. *)
Definition env (s : kernel) := (k_held s, k_cur s, k_procs s, k_inodes s, k_sb s).

Lemma calm_env s s' pid : calm s pid -> env s' = env s -> calm s' pid.
Proof.
  intros [H1 H2 H3 H4] [= E1 E2 E3 _ _]. constructor.
  - congruence.
  - unfold getproc in *. by rewrite E2, E3.
  - by rewrite E3.
  - by rewrite E3.
Qed.

(** A wakeup on such a channel wakes nobody, under any other lock. *)
Lemma wakeup_calm s pid h ch : calm s pid -> fs_chan ch = true -> (forall p, LProc p ∉ h) ->
  wakeup ch (set_k_held h s) = Ret tt (set_k_held h s).
Proof.
  intros C Hch Hh. rewrite wakeup_spec; [|done|apply C]. f_equal.
  unfold woken. simpl. replace (imap (wake (k_cur s) ch) (k_procs s)) with (k_procs s); [by destruct s|].
  apply list_eq. intros i. rewrite list_lookup_imap. destruct (k_procs s !! i) as [pr|] eqn:E; [|done]. simpl. f_equal.
  unfold wake. rewrite decide_False; [done|]. intros (_ & H1 & H2). pose proof (calm_sleep _ _ C i pr E H1) as N. by rewrite H2, Hch in N.
Qed.

(** A step inside a critical section of a calm thread. *)
Lemma calm_acquire s pid lk : calm s pid -> acquire lk s = Ret tt (set_k_held [lk] s).
Proof. intros C. rewrite acquire_ok; rewrite (calm_held _ _ C); [done|set_solver]. Qed.

Lemma calm_release s pid lk : calm s pid -> release lk (set_k_held [lk] s) = Ret tt s.
Proof.
  intros C. erewrite release_top by reflexivity. rewrite <- (calm_held _ _ C) at 1. by destruct s.
Qed.

Lemma calm_upd_buf s pid b f : calm s pid -> calm (upd_buf b f s) pid.
Proof. intros C. by eapply calm_env. Qed.

Definition locked_by (pid : Z) : sleeplock := mkSleeplock 1 pid.
Definition unlocked : sleeplock := mkSleeplock 0 0.

Lemma acquiresleep_free fuel b s pid :
  calm s pid -> b_lock (getbuf s b) = unlocked ->
  acquiresleep (S fuel) (SBuf b) s = Ret tt (upd_buf b (set_b_lock (locked_by pid)) s).
Proof.
  intros C Hl. unfold acquiresleep. erewrite bind_ret_eq by (by eapply calm_acquire).
  destruct (calm_cur _ _ C) as (p & Ec & Ep).
  erewrite bind_ret_eq.
  2: { apply while_done. erewrite bind_ret_eq by reflexivity. simpl. change (getbuf (set_k_held _ s) b) with (getbuf s b). rewrite Hl. reflexivity. }
  erewrite bind_ret_eq by (by apply this_proc_ret). erewrite bind_ret_eq by reflexivity.
  erewrite bind_ret_eq by reflexivity. change (getproc (set_k_held _ s) p) with (getproc s p). rewrite Ep.
  change (upd_buf b ?f (set_k_held ?h s)) with (set_k_held h (upd_buf b f s)).
  by apply (calm_release _ pid), calm_upd_buf.
Qed.

Lemma holdingsleep_held b s pid :
  calm s pid -> b_lock (getbuf s b) = locked_by pid -> holdingsleep (SBuf b) s = Ret true s.
Proof.
  intros C Hl. unfold holdingsleep. erewrite bind_ret_eq by (by eapply calm_acquire).
  destruct (calm_cur _ _ C) as (p & Ec & Ep). erewrite bind_ret_eq by (by apply this_proc_ret).
  erewrite bind_ret_eq by reflexivity. erewrite bind_ret_eq by reflexivity. erewrite bind_ret_eq by (by eapply calm_release).
  unfold ret, getsleep. change (getbuf (set_k_held _ s) b) with (getbuf s b). change (getproc (set_k_held _ s) p) with (getproc s p).
  rewrite Hl, Ep. simpl. by rewrite Z.eqb_refl.
Qed.

Lemma releasesleep_held b s pid :
  calm s pid -> releasesleep (SBuf b) s = Ret tt (upd_buf b (set_b_lock unlocked) s).
Proof.
  intros C. unfold releasesleep. erewrite bind_ret_eq by (by eapply calm_acquire). erewrite bind_ret_eq by reflexivity.
  set (s1 := upd_buf b (set_b_lock unlocked) s). assert (calm s1 pid) as C1 by (by apply calm_upd_buf).
  erewrite bind_ret_eq by (apply (wakeup_calm s1 pid); [done|done|set_solver]). by apply (calm_release _ pid).
Qed.

(** ** The list of buffers *)

(** [l] is the list from [a] to [z], linked both ways. *)
Fixpoint chain (bufs : nat -> buf) (a : nat) (l : list nat) (z : nat) : Prop :=
  match l with
  | [] => b_next (bufs a) = z /\ b_prev (bufs z) = a
  | b :: l' => b_next (bufs a) = b /\ b_prev (bufs b) = a /\ chain bufs b l' z
  end.

Lemma chain_app bufs a l1 b l2 z : chain bufs a (l1 ++ b :: l2) z <-> chain bufs a l1 b /\ chain bufs b l2 z.
Proof.
  revert a. induction l1 as [|c l1 IH]; intros a; simpl; [tauto|]. rewrite IH. tauto.
Qed.

Lemma bscan_next test s a l n :
  chain (getbuf s) a l bhead -> bhead ∉ l -> (length l < n)%nat ->
  bscan n b_next test (b_next (getbuf s a)) s = Ret (List.find (fun b => test (getbuf s b)) l) s.
Proof.
  revert a n. induction l as [|b l IH]; intros a n; cbn [chain List.find length].
  - intros [-> _] _ Hn. destruct n as [|n]; [lia|]. cbn [bscan]. by rewrite Nat.eqb_refl.
  - intros (-> & _ & Hc) [Hb Hl]%not_elem_of_cons Hn. destruct n as [|n]; [lia|]. cbn [bscan].
    rewrite (proj2 (Nat.eqb_neq b bhead)) by done. erewrite bind_ret_eq by reflexivity.
    destruct (test (getbuf s b)); [done|]. apply IH; [done|done|lia].
Qed.

Lemma bscan_prev test s z l n :
  chain (getbuf s) bhead l z -> bhead ∉ l -> (length l < n)%nat ->
  bscan n b_prev test (b_prev (getbuf s z)) s = Ret (List.find (fun b => test (getbuf s b)) (rev l)) s.
Proof.
  revert z n. induction l as [|b l IH] using rev_ind; intros z n.
  - intros [_ ->] _ Hn. destruct n as [|n]; [lia|]. cbn [bscan rev List.find]. by rewrite Nat.eqb_refl.
  - rewrite (chain_app _ _ l b []). intros [Hc [_ ->]] Hl Hn. apply not_elem_of_app in Hl as [Hl Hb].
    destruct n as [|n]; [lia|]. cbn [bscan]. rewrite rev_unit. cbn [List.find].
    rewrite (proj2 (Nat.eqb_neq b bhead)) by set_solver. erewrite bind_ret_eq by reflexivity.
    destruct (test (getbuf s b)); [done|]. apply IH; [done|done|]. rewrite length_app in Hn. simpl in Hn. lia.
Qed.

(** *** Moving a buffer to the front *)
Lemma chain_frame bufs bufs' a l z :
  (forall x, x ∈ a :: l -> b_next (bufs' x) = b_next (bufs x)) ->
  (forall x, x ∈ l ++ [z] -> b_prev (bufs' x) = b_prev (bufs x)) ->
  chain bufs a l z -> chain bufs' a l z.
Proof.
  revert a. induction l as [|b l IH]; intros a Hn Hp; simpl.
  - rewrite Hn, Hp by set_solver. done.
  - rewrite (Hn a), (Hp b) by set_solver. intros (H1 & H2 & H3). split_and!; [done|done|]. apply IH; [set_solver|set_solver|done].
Qed.

Lemma chain_last bufs a l z : chain bufs a l z -> b_prev (bufs z) ∈ a :: l.
Proof.
  revert a. induction l as [|b l IH]; intros a; simpl; [intros [_ ->]; set_solver|].
  intros (_ & _ & H). apply IH in H. set_solver.
Qed.

(** The same list, ending elsewhere. *)
Lemma chain_retarget bufs bufs' a l z z' :
  chain bufs a l z -> NoDup (a :: l) ->
  (forall x, x ∈ a :: l -> x <> b_prev (bufs z) -> b_next (bufs' x) = b_next (bufs x)) ->
  (forall x, x ∈ l -> b_prev (bufs' x) = b_prev (bufs x)) ->
  b_next (bufs' (b_prev (bufs z))) = z' -> b_prev (bufs' z') = b_prev (bufs z) ->
  chain bufs' a l z'.
Proof.
  revert a. induction l as [|b l IH]; intros a; simpl.
  - intros [_ ->] _ _ _ H1 H2. done.
  - intros (H1 & H2 & H3) [Ha Hnd]%NoDup_cons Hn Hp E1 E2. pose proof (chain_last _ _ _ _ H3) as Hl. split_and!.
    + rewrite Hn; [done|set_solver|]. intros ->. done.
    + rewrite Hp; [done|set_solver].
    + apply IH; try done; set_solver.
Qed.

(** The same list, beginning elsewhere. *)
Lemma chain_restart bufs bufs' a b l z :
  chain bufs b l z -> NoDup (l ++ [z]) ->
  (forall x, x ∈ l -> b_next (bufs' x) = b_next (bufs x)) ->
  (forall x, x ∈ l ++ [z] -> x <> b_next (bufs b) -> b_prev (bufs' x) = b_prev (bufs x)) ->
  b_next (bufs' a) = b_next (bufs b) -> b_prev (bufs' (b_next (bufs b))) = a ->
  chain bufs' a l z.
Proof.
  destruct l as [|c l]; simpl.
  - intros [-> _] _ _ _ H1 H2. done.
  - intros (-> & _ & H3) [Hc _]%NoDup_cons Hn Hp E1 E2. split_and!; [done|done|].
    apply (chain_frame bufs); [set_solver| |done]. intros x Hx. apply Hp; [set_solver|]. intros ->. done.
Qed.

Lemma chain_first bufs a l z : chain bufs a l z -> b_next (bufs a) ∈ l ++ [z].
Proof. destruct l as [|c l]; simpl; [intros [-> _]|intros [-> _]]; set_solver. Qed.

Lemma next_set_prev b v s x : b_next (getbuf (upd_buf b (set_b_prev v) s) x) = b_next (getbuf s x).
Proof.
  unfold getbuf, upd_buf. simpl. destruct (decide (b = x)) as [->|]; [|by rewrite list_lookup_alter_ne].
  rewrite list_lookup_alter_eq. by destruct (k_bufs s !! x).
Qed.

Lemma prev_set_next b v s x : b_prev (getbuf (upd_buf b (set_b_next v) s) x) = b_prev (getbuf s x).
Proof.
  unfold getbuf, upd_buf. simpl. destruct (decide (b = x)) as [->|]; [|by rewrite list_lookup_alter_ne].
  rewrite list_lookup_alter_eq. by destruct (k_bufs s !! x).
Qed.

Lemma next_set_next b v s x : (b < length (k_bufs s))%nat ->
  b_next (getbuf (upd_buf b (set_b_next v) s) x) = if decide (b = x) then v else b_next (getbuf s x).
Proof. intros H. rewrite getbuf_upd by done. by case_decide. Qed.

Lemma prev_set_prev b v s x : (b < length (k_bufs s))%nat ->
  b_prev (getbuf (upd_buf b (set_b_prev v) s) x) = if decide (b = x) then v else b_prev (getbuf s x).
Proof. intros H. rewrite getbuf_upd by done. by case_decide. Qed.

(** The two updates of brelse that take [b] out of the list. *)
Definition unlinked (b : nat) (s : kernel) : kernel :=
  upd_buf (b_prev (getbuf s b)) (set_b_next (b_next (getbuf s b)))
    (upd_buf (b_next (getbuf s b)) (set_b_prev (b_prev (getbuf s b))) s).

Lemma chain_unlink s l1 b l2 :
  length (k_bufs s) = S bhead -> NoDup (bhead :: l1 ++ b :: l2) -> Forall (fun x => (x < bhead)%nat) (l1 ++ b :: l2) ->
  chain (getbuf s) bhead (l1 ++ b :: l2) bhead -> chain (getbuf (unlinked b s)) bhead (l1 ++ l2) bhead.
Proof.
  intros Hlen Hnd Hlt [H1 H2]%chain_app. pose proof (chain_last _ _ _ _ H1) as Hp. pose proof (chain_first _ _ _ _ H2) as Hn.
  rewrite Forall_forall in Hlt.
  assert (b_prev (getbuf s b) < length (k_bufs s))%nat as Lp.
  { rewrite Hlen. apply elem_of_cons in Hp as [->|Hp]; [lia|]. specialize (Hlt _ ltac:(apply elem_of_app; left; exact Hp)). lia. }
  assert (b_next (getbuf s b) < length (k_bufs s))%nat as Ln.
  { rewrite Hlen. apply elem_of_app in Hn as [Hn|Hn]; [specialize (Hlt (b_next (getbuf s b)) ltac:(set_solver)); lia|].
    apply list_elem_of_singleton in Hn as ->. lia. }
  set (s' := unlinked b s).
  assert (forall x, b_next (getbuf s' x) = if decide (b_prev (getbuf s b) = x) then b_next (getbuf s b) else b_next (getbuf s x)) as Enext.
  { intros x. unfold s', unlinked. rewrite next_set_next by (by rewrite length_upd_buf). by rewrite next_set_prev. }
  assert (forall x, b_prev (getbuf s' x) = if decide (b_next (getbuf s b) = x) then b_prev (getbuf s b) else b_prev (getbuf s x)) as Eprev.
  { intros x. unfold s', unlinked. rewrite prev_set_next. by apply prev_set_prev. }
  apply NoDup_cons in Hnd as [Hh (N1 & N12 & N2)%NoDup_app]. apply NoDup_cons in N2 as [Nb N2].
  apply not_elem_of_app in Hh as [Hh1 Hh2]. apply not_elem_of_cons in Hh2 as [_ Hh2].
  assert (forall x, x ∈ bhead :: l1 -> x ∉ l2) as Hdisj.
  { intros x [->|Hx]%elem_of_cons; [done|]. specialize (N12 x Hx). by apply not_elem_of_cons in N12 as [_ ?]. }
  assert (chain (getbuf s') bhead l1 (b_next (getbuf s b))) as C1.
  { apply (chain_retarget (getbuf s) _ _ _ b); [done|by constructor|..].
    - intros x _ Hx. rewrite Enext. by rewrite decide_False.
    - intros x Hx. rewrite Eprev. rewrite decide_False; [done|]. intros <-.
      apply elem_of_app in Hn as [Hn|Hn%list_elem_of_singleton]; [|congruence]. by apply (Hdisj _ ltac:(by apply elem_of_cons; right) Hn).
    - rewrite Enext. by rewrite decide_True.
    - rewrite Eprev. by rewrite decide_True. }
  destruct l2 as [|c l2]; simpl in H2.
  - destruct H2 as [E2 _]. rewrite E2 in C1. by rewrite app_nil_r.
  - destruct H2 as (E2 & _ & H2). rewrite E2 in *. apply chain_app. split; [done|].
    apply (chain_frame (getbuf s)); [| |done].
    + intros x Hx. rewrite Enext. rewrite decide_False; [done|]. intros <-. by apply (Hdisj _ Hp).
    + apply NoDup_cons in N2 as [Nc _].
      intros x Hx. rewrite Eprev. rewrite decide_False; [done|]. intros <-.
      apply elem_of_app in Hx as [Hx|Hx%list_elem_of_singleton]; [done|]. subst c. apply Hh2, elem_of_cons. by left.
Qed.

(** The four updates that put [b] at the front. *)
Definition at_front (b : nat) (s : kernel) : kernel :=
  let h := b_next (getbuf s bhead) in
  let s1 := upd_buf b (set_b_prev bhead) (upd_buf b (set_b_next h) s) in
  upd_buf bhead (set_b_next b) (upd_buf (b_next (getbuf s1 bhead)) (set_b_prev b) s1).

Lemma chain_front s b l :
  length (k_bufs s) = S bhead -> NoDup (bhead :: b :: l) -> Forall (fun x => (x < bhead)%nat) (b :: l) ->
  chain (getbuf s) bhead l bhead -> chain (getbuf (at_front b s)) bhead (b :: l) bhead.
Proof.
  intros Hlen Hnd Hlt H. pose proof (chain_first _ _ _ _ H) as Hf.
  apply NoDup_cons in Hnd as [Hh [Hb Hnd]%NoDup_cons]. apply Forall_cons in Hlt as [Lb Hlt]. rewrite Forall_forall in Hlt.
  assert (b_next (getbuf s bhead) < length (k_bufs s))%nat as Lf.
  { rewrite Hlen. apply elem_of_app in Hf as [Hf|Hf]; [specialize (Hlt _ Hf); lia|]. apply list_elem_of_singleton in Hf as ->. lia. }
  assert (b <> bhead) as Nb by lia. set (s' := at_front b s).
  set (f := b_next (getbuf s bhead)) in *.
  assert (b_next (getbuf (upd_buf b (set_b_prev bhead) (upd_buf b (set_b_next f) s)) bhead) = f) as Ef.
  { rewrite next_set_prev, next_set_next by lia. by rewrite decide_False. }
  assert (forall x, b_next (getbuf s' x) = if decide (bhead = x) then b else if decide (b = x) then f else b_next (getbuf s x)) as Enext.
  { intros x. unfold s', at_front. fold f. cbv zeta. rewrite Ef. rewrite next_set_next by (rewrite !length_upd_buf; lia).
    case_decide; [done|]. rewrite !next_set_prev. apply next_set_next. lia. }
  assert (forall x, b_prev (getbuf s' x) = if decide (f = x) then b else if decide (b = x) then bhead else b_prev (getbuf s x)) as Eprev.
  { intros x. unfold s', at_front. fold f. cbv zeta. rewrite Ef, prev_set_next, prev_set_prev by (rewrite !length_upd_buf; lia).
    case_decide; [done|]. rewrite prev_set_prev by (rewrite length_upd_buf; lia). case_decide; [done|]. apply prev_set_next. }
  assert (f <> b) as Nf by set_solver. simpl. split_and!.
  - rewrite Enext. by rewrite decide_True.
  - rewrite Eprev. by rewrite decide_False, decide_True.
  - apply (chain_restart (getbuf s) _ b bhead); [done|apply NoDup_app; split_and!; [done|set_solver|apply NoDup_singleton]|..].
    + intros x Hx. rewrite Enext, !decide_False; [done|set_solver..].
    + intros x Hx Hne. rewrite Eprev, !decide_False; [done|set_solver|done].
    + rewrite Enext. rewrite decide_False, decide_True by done. done.
    + rewrite Eprev. by rewrite decide_True.
Qed.

(** ** The invariant of the cache

    [H] are the buffers this thread holds, [P] counts the references of each
    buffer besides that one, [D] is what every block contains for a reader, and
    [dirty] are the blocks whose contents are newer in the cache than on disk;
    they are pinned. *)
Definition dec_bool (P : Prop) `{Decision P} : Z := if decide P then 1 else 0.

(** Buffer [b] caches block [bn]. *)
Definition caches (s : kernel) (b : nat) (bn : Z) : Prop :=
  (b < bhead)%nat /\ b_dev (getbuf s b) = ROOTDEV /\ b_blockno (getbuf s b) = bn.

Record cache (s : kernel) (pid : Z) (H : gset nat) (P : nat -> Z) (D : Z -> list Z) (dirty : gset Z) : Prop := {
  ca_len : length (k_bufs s) = S bhead;
  ca_list : exists l, l ≡ₚ seq 0 bhead /\ chain (getbuf s) bhead l bhead;
  ca_unique : forall b b' bn, caches s b bn -> caches s b' bn -> b = b';
  ca_lock : forall b, (b < bhead)%nat -> b_lock (getbuf s b) = if decide (b ∈ H) then locked_by pid else unlocked;
  ca_ref : forall b, (b < bhead)%nat -> b_refcnt (getbuf s b) = P b + dec_bool (b ∈ H) /\ 0 <= P b < 2 ^ 31;
  ca_data : forall b bn, caches s b bn -> b ∉ H -> b_valid (getbuf s b) <> 0 -> b_data (getbuf s b) = D bn;
  ca_disk : forall bn, bn ∉ dirty -> D bn = disk_block (k_disk s) bn;
  ca_dirty : forall bn, bn ∈ dirty -> exists b, caches s b bn /\ b_valid (getbuf s b) <> 0 /\ 1 <= P b;
  ca_held : forall b, b ∈ H -> (b < bhead)%nat;
  ca_size : forall bn, length (D bn) = Z.to_nat BSIZE;
  ca_pin : forall b, (b < bhead)%nat -> b ∉ H ->
    P b = 0 \/ (P b = 1 /\ b_dev (getbuf s b) = ROOTDEV /\ b_blockno (getbuf s b) ∈ dirty) }.

(** The thread holds buffer [b], with block [bn] and contents [data]. *)
Definition holds_buf (s : kernel) (b : nat) (bn : Z) (data : list Z) : Prop :=
  caches s b bn /\ b_valid (getbuf s b) <> 0 /\ b_data (getbuf s b) = data.

(** Everything about a buffer but its place in the list. *)
Definition core (v : buf) := (b_valid v, b_dev v, b_blockno v, b_lock v, b_refcnt v, b_data v).

Lemma holds_core s s' b bn data : core (getbuf s' b) = core (getbuf s b) -> holds_buf s b bn data -> holds_buf s' b bn data.
Proof. intros [= E1 E2 E3 E4 E5 E6]. unfold holds_buf, caches. by rewrite E1, E2, E3, E6. Qed.

(** Nothing but the buffers and the disk changes. *)
Definition frame (s s' : kernel) : Prop := env s' = env s /\ k_log s' = k_log s /\ k_sb s' = k_sb s.

Lemma frame_refl s : frame s s.
Proof. done. Qed.
Lemma frame_trans s1 s2 s3 : frame s1 s2 -> frame s2 s3 -> frame s1 s3.
Proof. intros (A1 & A2 & A3) (B1 & B2 & B3). split_and!; congruence. Qed.
Lemma frame_calm s s' pid : frame s s' -> calm s pid -> calm s' pid.
Proof. intros (E & _) C. by eapply calm_env. Qed.

Lemma perm_lt l b : l ≡ₚ seq 0 bhead -> b ∈ l <-> (b < bhead)%nat.
Proof. intros ->. rewrite elem_of_seq. lia. Qed.

Lemma perm_nodup l : l ≡ₚ seq 0 bhead -> NoDup (bhead :: l) /\ bhead ∉ l /\ length l = bhead.
Proof.
  intros Hl. assert (bhead ∉ l) as Hn by (rewrite perm_lt by done; lia). split_and!.
  - constructor; [done|]. rewrite Hl. apply NoDup_seq.
  - done.
  - by rewrite Hl, length_seq.
Qed.

(** Updating a buffer without moving it keeps the list. *)
Lemma chain_upd_buf s b f l :
  (forall v, b_next (f v) = b_next v /\ b_prev (f v) = b_prev v) ->
  chain (getbuf s) bhead l bhead -> chain (getbuf (upd_buf b f s)) bhead l bhead.
Proof.
  intros Hf. assert (forall x, b_next (getbuf (upd_buf b f s) x) = b_next (getbuf s x) /\ b_prev (getbuf (upd_buf b f s) x) = b_prev (getbuf s x)) as E.
  { intros x. unfold getbuf, upd_buf. simpl. destruct (decide (b = x)) as [->|]; [|by rewrite list_lookup_alter_ne].
    rewrite list_lookup_alter_eq. destruct (k_bufs s !! x); [apply Hf|done]. }
  apply chain_frame; intros x _; apply E.
Qed.

Lemma held_add {A} b x (H : gset nat) (u v : A) :
  b <> x -> (if decide (x ∈ {[b]} ∪ H) then u else v) = (if decide (x ∈ H) then u else v).
Proof. intros Hne. repeat case_decide; try done; set_solver. Qed.

Lemma held_del {A} b x (H : gset nat) (u v : A) :
  b <> x -> (if decide (x ∈ H ∖ {[b]}) then u else v) = (if decide (x ∈ H) then u else v).
Proof. intros Hne. repeat case_decide; try done; set_solver. Qed.

Section Cache.
Context (s : kernel) (pid : Z) (H : gset nat) (P : nat -> Z) (D : Z -> list Z) (dirty : gset Z).
Context (I : cache s pid H P D dirty).

(** Taking a buffer that nobody holds for a block that no other buffer caches. *)
Lemma cache_take b bn f :
  (b < bhead)%nat -> b ∉ H -> (forall b', caches s b' bn -> b' = b) ->
  (forall v, b_next (f v) = b_next v /\ b_prev (f v) = b_prev v) ->
  b_lock (f (getbuf s b)) = locked_by pid -> b_refcnt (f (getbuf s b)) = P b + 1 ->
  b_dev (f (getbuf s b)) = ROOTDEV -> b_blockno (f (getbuf s b)) = bn -> b_valid (f (getbuf s b)) <> 0 ->
  (caches s b bn \/ P b = 0) ->
  cache (upd_buf b f s) pid ({[b]} ∪ H) P D dirty.
Proof.
  intros Hb HH Hu Hf E1 E2 E3 E4 E5 Hd. destruct I as [I1 I2 I3 I4 I5 I6 I7 I8 I9 I10 I11].
  assert (forall x, getbuf (upd_buf b f s) x = if decide (b = x) then f (getbuf s b) else getbuf s x) as Eg
    by (intros x; apply getbuf_upd; lia).
  assert (forall x bn', caches (upd_buf b f s) x bn' <-> (x = b /\ bn' = bn) \/ (x <> b /\ caches s x bn')) as Ec.
  { intros x bn'. unfold caches. rewrite Eg. destruct (decide (b = x)) as [<-|Hne].
    2: { split; [intros C; right; split; [congruence|done]|intros [[-> _]|[_ C]]; done]. }
    rewrite E3, E4. split; [intros (_ & _ & <-); by left|intros [[_ ->]|[? _]]; done]. }
  constructor.
  - by rewrite length_upd_buf.
  - destruct I2 as (l & Hl & Hc). exists l. split; [done|]. by apply chain_upd_buf.
  - intros b1 b2 bn'. rewrite !Ec. intros [[-> ->]|[N1 C1]] [[-> ?]|[N2 C2]]; subst; try done.
    + symmetry. by apply Hu.
    + by apply Hu.
    + by eapply I3.
  - intros x Hx. rewrite Eg. destruct (decide (b = x)) as [<-|Hne]; [by rewrite decide_True by (apply elem_of_union_l, elem_of_singleton_2; done)|].
    rewrite I4 by done. by rewrite held_add.
  - intros x Hx. rewrite Eg. unfold dec_bool in *. destruct (decide (b = x)) as [<-|Hne].
    + rewrite (decide_True (P := b ∈ {[b]} ∪ H)) by (apply elem_of_union_l, elem_of_singleton_2; done). split; [done|by apply I5].
    + destruct (I5 x Hx) as [-> ?]. split; [|done]. by rewrite held_add.
  - intros x bn'. rewrite Ec, Eg. intros [[-> ->]|[N C]] [H1 H2]%not_elem_of_union; [by apply not_elem_of_singleton in H1|].
    rewrite decide_False by done. by apply I6.
  - done.
  - intros bn' Hbn. destruct (I8 bn' Hbn) as (x & Cx & Vx & Px). exists x. rewrite Ec, Eg.
    destruct (decide (b = x)) as [<-|Hne]; [|split_and!; auto].
    destruct Hd as [Hd|Hd]; [|lia]. split_and!; [|done|done]. left. split; [done|].
    destruct Hd as (_ & _ & <-). by destruct Cx as (_ & _ & <-).
  - intros x [->%elem_of_singleton|Hx]%elem_of_union; auto.
  - done.
  - intros x Hx [H1 H2]%not_elem_of_union. rewrite Eg, decide_False by (intros <-; by apply not_elem_of_singleton in H1). by apply I11.
Qed.

(** Changing the contents of a buffer that is held. *)
Lemma cache_modify b data bn old :
  b ∈ H -> holds_buf s b bn old ->
  cache (upd_buf b (set_b_data data) s) pid H P D dirty /\ holds_buf (upd_buf b (set_b_data data) s) b bn data
  /\ (forall b', b' <> b -> core (getbuf (upd_buf b (set_b_data data) s) b') = core (getbuf s b')).
Proof.
  intros HH ((Hb & Hdev & Hbn) & Hv & Hdata). destruct I as [I1 I2 I3 I4 I5 I6 I7 I8 I9 I10 I11].
  assert (forall x, getbuf (upd_buf b (set_b_data data) s) x = if decide (b = x) then set_b_data data (getbuf s b) else getbuf s x) as Eg
    by (intros x; apply getbuf_upd; lia).
  assert (forall x bn', caches (upd_buf b (set_b_data data) s) x bn' <-> caches s x bn') as Ec.
  { intros x bn'. unfold caches. rewrite Eg. by destruct (decide (b = x)) as [<-|]. }
  split; [|split].
  - constructor; try done.
    + by rewrite length_upd_buf.
    + destruct I2 as (l & Hl & Hc). exists l. split; [done|]. by apply chain_upd_buf.
    + intros b1 b2 bn'. rewrite !Ec. apply I3.
    + intros x Hx. rewrite Eg. destruct (decide (b = x)) as [<-|]; apply I4; done.
    + intros x Hx. rewrite Eg. destruct (decide (b = x)) as [<-|]; apply I5; done.
    + intros x bn'. rewrite Ec, Eg. intros C Hx. rewrite decide_False by (intros <-; done). by apply I6.
    + intros bn' Hbn'. destruct (I8 bn' Hbn') as (x & Cx & Vx & Px). exists x. rewrite Ec, Eg. by destruct (decide (b = x)) as [<-|].
    + intros x Hx HxH. rewrite Eg, decide_False by (intros <-; done). by apply I11.
  - unfold holds_buf. rewrite Ec, Eg, decide_True by done. done.
  - intros x Hx. by rewrite Eg, decide_False.
Qed.

Lemma not_dirty_uncached bn : (forall b, caches s b bn -> b_valid (getbuf s b) = 0) -> D bn = disk_block (k_disk s) bn.
Proof.
  intros Hn. apply (ca_disk _ _ _ _ _ _ I). intros Hd.
  destruct (ca_dirty _ _ _ _ _ _ I bn Hd) as (b & Cb & Vb & _). by rewrite (Hn b Cb) in Vb.
Qed.

(** The block is cached, or a buffer is free to take it. *)
Definition room (bn : Z) : Prop := (exists b, caches s b bn) \/ exists b, (b < bhead)%nat /\ b ∉ H /\ P b = 0.

(** What bget does to the buffer it returns, before the lock. *)
Definition got_new (dev blockno : Z) (v : buf) : buf :=
  set_b_refcnt 1 (set_b_valid 0 (set_b_blockno blockno (set_b_dev dev v))).
Definition got_cached (v : buf) : buf := set_b_refcnt (uint32 (b_refcnt v + 1)) v.

Lemma bget_spec fuel bn :
  calm s pid -> (forall b, b ∈ H -> ~ caches s b bn) -> room bn ->
  exists b g, bget (S fuel) ROOTDEV bn s = Ret b (upd_buf b (fun v => set_b_lock (locked_by pid) (g v)) s)
  /\ (b < bhead)%nat /\ b ∉ H
  /\ ((g = got_cached /\ caches s b bn) \/ (g = got_new ROOTDEV bn /\ P b = 0 /\ forall b', ~ caches s b' bn)).
Proof.
  intros C Hh Hroom. destruct (ca_list _ _ _ _ _ _ I) as (l & Hl & Hc). destruct (perm_nodup l Hl) as (_ & Hnh & Hlen).
  unfold bget. erewrite bind_ret_eq by (by eapply calm_acquire). erewrite bind_ret_eq by reflexivity.
  set (s1 := set_k_held [LBcache] s).
  erewrite bind_ret_eq by (apply (bscan_next _ s1 bhead l); [done|done|rewrite Hlen; lia]).
  assert (forall b g, b_lock (g (getbuf s b)) = unlocked -> (b < bhead)%nat ->
    (mod_buf b g ;;; release LBcache ;;; acquiresleep (S fuel) (SBuf b) ;;; ret b) s1
    = Ret b (upd_buf b (fun v => set_b_lock (locked_by pid) (g v)) s)) as Hgot.
  { intros b g Hg Hb. erewrite bind_ret_eq by reflexivity.
    change (upd_buf b g s1) with (set_k_held [LBcache] (upd_buf b g s)).
    erewrite bind_ret_eq by (by apply (calm_release _ pid), calm_upd_buf).
    erewrite bind_ret_eq; [|apply acquiresleep_free; [by apply calm_upd_buf|]].
    - by rewrite upd_buf_twice.
    - rewrite getbuf_upd, decide_True by (done || rewrite (ca_len _ _ _ _ _ _ I); lia). done. }
  destruct (List.find _ l) as [b|] eqn:Ef.
  - apply find_some in Ef as [Hin Ht]. apply list_elem_of_In, (perm_lt l b Hl) in Hin.
    apply andb_true_iff in Ht as [T1%Z.eqb_eq T2%Z.eqb_eq]. assert (caches s b bn) as Cb by done.
    assert (b ∉ H) as Hb by (intros Hb; by apply (Hh b)). exists b, got_cached. split_and!; [|done|done|by left].
    apply Hgot; [|done]. simpl. rewrite (ca_lock _ _ _ _ _ _ I) by done. by rewrite decide_False.
  - assert (forall b, ~ caches s b bn) as Hno.
    { intros b (Hb & E1 & E2). apply (perm_lt l b Hl), list_elem_of_In in Hb. pose proof (find_none _ _ Ef b Hb) as Hf.
      cbv beta in Hf. change (getbuf s1 b) with (getbuf s b) in Hf. by rewrite E1, E2, !Z.eqb_refl in Hf. }
    erewrite bind_ret_eq by (apply (bscan_prev _ s1 bhead l); [done|done|rewrite Hlen; lia]).
    destruct (List.find _ (rev l)) as [b|] eqn:Ef'.
    + apply find_some in Ef' as [Hin Ht]. apply in_rev, list_elem_of_In, (perm_lt l b Hl) in Hin. apply Z.eqb_eq in Ht.
      change (getbuf s1 b) with (getbuf s b) in Ht. destruct (ca_ref _ _ _ _ _ _ I b Hin) as [Er Hp]. rewrite Er in Ht.
      assert (b ∉ H /\ P b = 0) as [Hb HP].
      { unfold dec_bool in Ht. destruct (decide (b ∈ H)); [lia|]. split; [done|lia]. }
      exists b, (got_new ROOTDEV bn). split_and!; [|done|done|by right].
      apply Hgot; [|done]. simpl. rewrite (ca_lock _ _ _ _ _ _ I) by done. by rewrite decide_False.
    + exfalso. destruct Hroom as [[b Hb]|(b & Hb & HbH & HbP)]; [by apply Hno in Hb|]. pose proof Hb as Hin. apply (perm_lt l b Hl), list_elem_of_In, in_rev in Hin.
      pose proof (find_none _ _ Ef' b Hin) as Hf. cbv beta in Hf. change (getbuf s1 b) with (getbuf s b) in Hf. apply Z.eqb_neq in Hf. apply Hf.
      rewrite (proj1 (ca_ref _ _ _ _ _ _ I b Hb)). unfold dec_bool. rewrite decide_False by done. lia.
Qed.

(** bread returns a buffer that holds the contents of the block. *)
Lemma bread_spec fuel bn :
  calm s pid -> (forall b, b ∈ H -> ~ caches s b bn) -> room bn ->
  exists b s', bread (S fuel) ROOTDEV bn s = Ret b s'
  /\ cache s' pid ({[b]} ∪ H) P D dirty /\ b ∉ H /\ holds_buf s' b bn (D bn) /\ P b = dec_bool (bn ∈ dirty)
  /\ (forall b', b' <> b -> core (getbuf s' b') = core (getbuf s b')) /\ k_disk s' = k_disk s /\ frame s s'.
Proof.
  intros C Hh Hroom. destruct (bget_spec fuel bn C Hh Hroom) as (b & g & E & Hb & HbH & Hg).
  unfold bread. erewrite bind_ret_eq by exact E. erewrite bind_ret_eq by reflexivity.
  set (f := fun v => set_b_lock (locked_by pid) (g v)).
  assert ((b < length (k_bufs s))%nat) as Hlt by (rewrite (ca_len _ _ _ _ _ _ I); lia).
  destruct (ca_ref _ _ _ _ _ _ I b Hb) as [Er Hp]. unfold dec_bool in Er. rewrite decide_False in Er by done.
  assert (forall v, b_next (f v) = b_next v /\ b_prev (f v) = b_prev v) as Hlinks by (destruct Hg as [[-> _]|[-> _]]; done).
  assert (b_refcnt (f (getbuf s b)) = P b + 1 /\ b_dev (f (getbuf s b)) = ROOTDEV /\ b_blockno (f (getbuf s b)) = bn) as (F1 & F2 & F3).
  { unfold f. destruct Hg as [(-> & _ & D1 & D2)|(-> & -> & _)]; [|done]. simpl. rewrite Er. split; [|done].
    rewrite uint32_small; lia. }
  assert (forall b', caches s b' bn -> b' = b) as Hu.
  { intros b' C'. destruct Hg as [[_ Cb]|(_ & _ & Hno)]; [by eapply (ca_unique _ _ _ _ _ _ I)|by apply Hno in C']. }
  assert (caches s b bn \/ P b = 0) as Hd by (destruct Hg as [[_ ?]|(_ & ? & _)]; auto).
  assert (P b = dec_bool (bn ∈ dirty)) as Hpin.
  { unfold dec_bool. destruct (decide (bn ∈ dirty)) as [Hbn|Hbn].
    - destruct (ca_dirty _ _ _ _ _ _ I bn Hbn) as (b0 & C0 & _ & P0). rewrite (Hu b0 C0) in P0.
      destruct (ca_pin _ _ _ _ _ _ I b Hb HbH) as [?|[? _]]; lia.
    - destruct Hg as [[_ (_ & _ & Eb)]|(_ & ? & _)]; [|done].
      destruct (ca_pin _ _ _ _ _ _ I b Hb HbH) as [?|(_ & _ & Hin)]; [done|]. by rewrite Eb in Hin. }
  assert (forall f', (forall v, b_next (f' v) = b_next v /\ b_prev (f' v) = b_prev v) ->
    b_lock (f' (getbuf s b)) = locked_by pid -> b_refcnt (f' (getbuf s b)) = P b + 1 ->
    b_dev (f' (getbuf s b)) = ROOTDEV -> b_blockno (f' (getbuf s b)) = bn -> b_valid (f' (getbuf s b)) <> 0 -> b_data (f' (getbuf s b)) = D bn ->
    let s' := upd_buf b f' s in
    cache s' pid ({[b]} ∪ H) P D dirty /\ b ∉ H /\ holds_buf s' b bn (D bn) /\ P b = dec_bool (bn ∈ dirty)
    /\ (forall b', b' <> b -> core (getbuf s' b') = core (getbuf s b')) /\ k_disk s' = k_disk s /\ frame s s') as Hend.
  { intros f' G0 G1 G2 G3 G4 G5 G6 s'. refine (conj _ (conj _ (conj _ (conj _ (conj _ _))))); try done.
    - by apply (cache_take b bn).
    - unfold holds_buf, caches, s'. by rewrite getbuf_upd, decide_True by done.
    - intros b' Hne. unfold s'. by rewrite getbuf_upd, decide_False by done. }
  rewrite getbuf_upd, decide_True by done. fold (f (getbuf s b)). destruct (Z.eqb_spec (b_valid (f (getbuf s b))) 0) as [V|V].
  - erewrite bind_ret_eq.
    2: { erewrite bind_ret_eq; [reflexivity|]. unfold virtio_disk_rw. erewrite bind_ret_eq by reflexivity. reflexivity. }
    rewrite getbuf_upd, decide_True by done. fold f. rewrite !upd_buf_twice. eexists b, _. split; [reflexivity|].
    apply Hend; try done. cbn [b_data set_b_valid set_b_data]. rewrite F3. symmetry. apply not_dirty_uncached.
    intros b' C'. pose proof (Hu b' C') as ->. destruct Hg as [[-> _]|(_ & _ & Hno)]; [done|by apply Hno in C'].
  - erewrite bind_ret_eq by reflexivity. eexists b, _. split; [reflexivity|]. apply Hend; try done.
    destruct Hg as [[-> Cb]|[-> _]]; [|done]. simpl. by apply (ca_data _ _ _ _ _ _ I).
Qed.
End Cache.

(** ** Writing, releasing, pinning *)
Definition fupd {A} (D : Z -> A) (bn : Z) (v : A) : Z -> A := fun x => if x =? bn then v else D x.
Definition nupd (P : nat -> Z) (b : nat) (v : Z) : nat -> Z := fun x => if (x =? b)%nat then v else P x.

Lemma fupd_eq {A} (D : Z -> A) bn v : fupd D bn v bn = v.
Proof. unfold fupd. by rewrite Z.eqb_refl. Qed.
Lemma fupd_ne {A} (D : Z -> A) bn v x : x <> bn -> fupd D bn v x = D x.
Proof. intros H. unfold fupd. by rewrite (proj2 (Z.eqb_neq x bn)). Qed.
Lemma nupd_eq P b v : nupd P b v b = v.
Proof. unfold nupd. by rewrite Nat.eqb_refl. Qed.
Lemma nupd_ne P b v x : x <> b -> nupd P b v x = P x.
Proof. intros H. unfold nupd. by rewrite (proj2 (Nat.eqb_neq x b)). Qed.

Section Held.
Context (s : kernel) (pid : Z) (H : gset nat) (P : nat -> Z) (D : Z -> list Z) (dirty : gset Z).
Context (I : cache s pid H P D dirty) (C : calm s pid).
Context (b : nat) (bn : Z) (data : list Z) (HbH : b ∈ H) (Hh : holds_buf s b bn data).

Lemma held_other b' bn' : caches s b' bn' -> b' ∉ H -> bn' <> bn.
Proof.
  intros C' Hb' ->. destruct Hh as [Cb _]. rewrite (ca_unique _ _ _ _ _ _ I _ _ _ C' Cb) in Hb'. done.
Qed.

Lemma held_lock : b_lock (getbuf s b) = locked_by pid.
Proof. rewrite (ca_lock _ _ _ _ _ _ I) by (by apply (ca_held _ _ _ _ _ _ I)). by rewrite decide_True. Qed.

Lemma bwrite_spec : length data = Z.to_nat BSIZE ->
  exists s', bwrite b s = Ret tt s' /\ cache s' pid H P (fupd D bn data) (dirty ∖ {[bn]})
  /\ (forall b', getbuf s' b' = getbuf s b') /\ k_disk s' = (bn, data) :: k_disk s /\ frame s s'.
Proof.
  intros Hlen. destruct Hh as ((Hb & Hdev & Hbn) & Hv & Hdata). eexists. split.
  { unfold bwrite. erewrite bind_ret_eq by (apply (holdingsleep_held b s pid); [done|apply held_lock]). cbn [negb].
    unfold virtio_disk_rw. erewrite bind_ret_eq by reflexivity. rewrite Hbn, Hdata. reflexivity. }
  split; [|done]. pose proof I as [I1 I2 I3 I4 I5 I6 I7 I8 I9 I10 I11]. constructor; try done.
  - intros x bn' Cx Hx Vx. rewrite fupd_ne by (by eapply held_other). by apply I6.
  - intros bn' Hbn'. cbn [k_disk set_k_disk disk_block]. unfold fupd. rewrite (Z.eqb_sym bn bn').
    destruct (Z.eqb_spec bn' bn) as [->|Hne]; [done|]. apply I7. set_solver.
  - intros bn' Hbn'. apply I8. set_solver.
  - intros bn'. unfold fupd. by destruct (bn' =? bn).
  - intros x Hx HxH. destruct (I11 x Hx HxH) as [?|(? & ? & ?)]; [by left|right]. split_and!; try done.
    apply elem_of_difference. split; [done|]. rewrite elem_of_singleton. by apply (held_other x).
Qed.

(** Recording the new contents of a block that is already pinned, or is pinned
    now. *)
Lemma cache_absorb : length data = Z.to_nat BSIZE -> bn ∈ dirty -> cache s pid H P (fupd D bn data) dirty.
Proof.
  intros Hlen Hd. pose proof I as [I1 I2 I3 I4 I5 I6 I7 I8 I9 I10 I11]. constructor; try done.
  - intros x bn' Cx Hx Vx. rewrite fupd_ne by (by eapply held_other). by apply I6.
  - intros bn' Hbn'. rewrite fupd_ne by (by intros ->). by apply I7.
  - intros bn'. unfold fupd. by destruct (bn' =? bn).
Qed.

(** A change of the reference count of the buffer that is held. *)
Lemma cache_pins k D' dirty' :
  b_refcnt (getbuf s b) = P b + 1 -> 0 <= k < 2 ^ 31 ->
  (forall b' bn', caches s b' bn' -> b' ∉ H -> D' bn' = D bn') ->
  (forall bn', bn' ∉ dirty' -> D' bn' = disk_block (k_disk s) bn') ->
  (forall bn', bn' ∈ dirty' -> (bn' ∈ dirty /\ bn' <> bn) \/ (bn' = bn /\ 1 <= k)) ->
  (forall bn', length (D' bn') = Z.to_nat BSIZE) -> (forall bn', bn' ∈ dirty -> bn' <> bn -> bn' ∈ dirty') ->
  let s' := upd_buf b (fun v => set_b_refcnt (k + 1) v) s in
  cache s' pid H (nupd P b k) D' dirty' /\ holds_buf s' b bn data
  /\ (forall b', b' <> b -> core (getbuf s' b') = core (getbuf s b')) /\ k_disk s' = k_disk s /\ frame s s'.
Proof.
  intros Er Hk HD Hdisk Hdirty Hsize Hmore s'. pose proof held_other as Hoth. pose proof I as [I1 I2 I3 I4 I5 I6 I7 I8 I9 I10 I11].
  destruct Hh as ((Hb & Hdev & Hbn) & Hv & Hdata).
  assert (forall x, getbuf s' x = if decide (b = x) then set_b_refcnt (k + 1) (getbuf s b) else getbuf s x) as Eg
    by (intros x; apply getbuf_upd; lia).
  assert (forall x bn', caches s' x bn' <-> caches s x bn') as Ec.
  { intros x bn'. unfold caches. rewrite Eg. by destruct (decide (b = x)) as [<-|]. }
  refine (conj _ (conj _ (conj _ _))); [constructor; try done|..].
  - unfold s'. by rewrite length_upd_buf.
  - destruct I2 as (l & Hl & Hc). exists l. split; [done|]. by apply chain_upd_buf.
  - intros b1 b2 bn'. rewrite !Ec. apply I3.
  - intros x Hx. rewrite Eg. destruct (decide (b = x)) as [<-|]; apply I4; done.
  - intros x Hx. rewrite Eg. destruct (decide (b = x)) as [<-|Hne].
    + rewrite nupd_eq. unfold dec_bool. rewrite decide_True by done. done.
    + rewrite nupd_ne by congruence. by apply I5.
  - intros x bn'. rewrite Ec, Eg. intros Cx Hx. rewrite decide_False by (intros <-; done). intros Vx. rewrite (HD x) by done. by apply I6.
  - intros bn' [[Hd Hne]|[-> Hk1]]%Hdirty.
    + destruct (I8 bn' Hd) as (x & Cx & Vx & Px). exists x. rewrite Ec, Eg. destruct (decide (b = x)) as [<-|Hx].
      * exfalso. apply Hne. destruct Cx as (_ & _ & <-). done.
      * rewrite nupd_ne by congruence. done.
    + exists b. rewrite Ec, Eg, nupd_eq, decide_True by done. done.
  - intros x Hx HxH. rewrite Eg, decide_False, nupd_ne by (intros ->; done). destruct (I11 x Hx HxH) as [?|(? & ? & ?)]; [by left|right].
    split_and!; try done. apply Hmore; [done|]. by apply (Hoth x).
  - unfold holds_buf. rewrite Ec, Eg, decide_True by done. done.
  - intros x Hx. by rewrite Eg, decide_False by congruence.
  - done.
Qed.

Lemma held_ref : b_refcnt (getbuf s b) = P b + 1 /\ 0 <= P b < 2 ^ 31.
Proof.
  destruct (ca_ref _ _ _ _ _ _ I b) as [E Hp]; [by apply (ca_held _ _ _ _ _ _ I)|]. unfold dec_bool in E. by rewrite decide_True in E.
Qed.

Lemma ref_section (g : Z -> Z) r s1 : LBcache ∉ k_held s1 -> uint32 (g (b_refcnt (getbuf s1 b))) = r ->
  (acquire LBcache ;;; mod_buf b (fun v => set_b_refcnt (uint32 (g (b_refcnt v))) v) ;;; release LBcache) s1
  = Ret tt (upd_buf b (fun v => set_b_refcnt r v) s1).
Proof.
  intros Hh1 Hr. erewrite bind_ret_eq by (by apply acquire_ok). erewrite bind_ret_eq by reflexivity.
  erewrite release_top by reflexivity. f_equal. unfold upd_buf. destruct s1. unfold set_k_bufs, set_k_held. simpl in *. f_equal.
  apply list_eq. intros i. destruct (decide (b = i)) as [<-|]; [|by rewrite !list_lookup_alter_ne].
  rewrite !list_lookup_alter_eq. unfold getbuf in Hr. simpl in Hr. destruct (k_bufs !! b) as [v|]; [|done]. simpl in *. by rewrite Hr.
Qed.

(** log_write pins a block whose contents are now newer than the disk. *)
Lemma bpin_spec h : LBcache ∉ h -> length data = Z.to_nat BSIZE -> P b + 1 < 2 ^ 31 ->
  exists s', bpin b (set_k_held h s) = Ret tt (set_k_held h s') /\ cache s' pid H (nupd P b (P b + 1)) (fupd D bn data) ({[bn]} ∪ dirty)
  /\ holds_buf s' b bn data /\ (forall b', b' <> b -> core (getbuf s' b') = core (getbuf s b')) /\ k_disk s' = k_disk s /\ frame s s'.
Proof.
  intros Hlk Hlen Hp. destruct held_ref as [Er Hp0]. exists (upd_buf b (fun v => set_b_refcnt (P b + 1 + 1) v) s). split.
  { refine (ref_section (fun r => r + 1) (P b + 1 + 1) (set_k_held h s) _ _); [done|]. change (getbuf (set_k_held h s) b) with (getbuf s b).
    rewrite Er. apply (uint32_small (P b + 1 + 1)). lia. }
  apply cache_pins; try done; try lia.
  - intros b' bn' C' Hb'. by rewrite fupd_ne by (by eapply held_other).
  - intros bn' [H1 H2]%not_elem_of_union. rewrite fupd_ne by (by apply not_elem_of_singleton in H1). by apply (ca_disk _ _ _ _ _ _ I).
  - intros bn' Hbn'. destruct (decide (bn' = bn)) as [->|Hne]; [right; split; [done|lia]|left]. set_solver.
  - intros bn'. unfold fupd. destruct (bn' =? bn); [done|apply I].
  - set_solver.
Qed.

(** install_trans unpins a block it has written. *)
Lemma bunpin_spec : bn ∉ dirty -> 1 <= P b ->
  exists s', bunpin b s = Ret tt s' /\ cache s' pid H (nupd P b (P b - 1)) D dirty
  /\ holds_buf s' b bn data /\ (forall b', b' <> b -> core (getbuf s' b') = core (getbuf s b')) /\ k_disk s' = k_disk s /\ frame s s'.
Proof.
  intros Hd Hp. destruct held_ref as [Er Hp0]. eexists. split.
  { unfold bunpin. apply (ref_section (fun r => r - 1)); [rewrite (calm_held _ _ C); set_solver|]. rewrite Er. replace (P b + 1 - 1) with (P b - 1 + 1) by lia. apply uint32_small. lia. }
  apply cache_pins; try done; try lia.
  - apply I.
  - intros bn' Hbn'. left. split; [done|]. intros ->. done.
  - apply I.
Qed.

(** Giving a buffer back, its contents being those of the block. *)
Lemma cache_give : data = D bn -> P b = dec_bool (bn ∈ dirty) ->
  let s' := upd_buf b (fun v => set_b_refcnt (uint32 (b_refcnt v - 1)) (set_b_lock unlocked v)) s in
  cache s' pid (H ∖ {[b]}) P D dirty
  /\ (forall b', b' <> b -> core (getbuf s' b') = core (getbuf s b')) /\ b_refcnt (getbuf s' b) = P b.
Proof.
  intros Ed Hpin s'. destruct held_ref as [Er Hp]. pose proof I as [I1 I2 I3 I4 I5 I6 I7 I8 I9 I10 I11].
  destruct Hh as ((Hb & Hdev & Hbn) & Hv & Hdata).
  assert (forall x, getbuf s' x = if decide (b = x) then set_b_refcnt (P b) (set_b_lock unlocked (getbuf s b)) else getbuf s x) as Eg.
  { intros x. unfold s'. rewrite getbuf_upd by lia. destruct (decide (b = x)); [|done]. rewrite Er. replace (P b + 1 - 1) with (P b) by lia.
    by rewrite uint32_small by lia. }
  assert (forall x bn', caches s' x bn' <-> caches s x bn') as Ec.
  { intros x bn'. unfold caches. rewrite Eg. by destruct (decide (b = x)) as [<-|]. }
  refine (conj _ (conj _ _)); [constructor; try done|..].
  - unfold s'. by rewrite length_upd_buf.
  - destruct I2 as (l & Hl & Hc). exists l. split; [done|]. by apply chain_upd_buf.
  - intros b1 b2 bn'. rewrite !Ec. apply I3.
  - intros x Hx. rewrite Eg. destruct (decide (b = x)) as [<-|Hne]; [by rewrite decide_False by set_solver|].
    rewrite I4 by done. by rewrite held_del.
  - intros x Hx. rewrite Eg. unfold dec_bool in *. destruct (decide (b = x)) as [<-|Hne].
    + rewrite (decide_False (P := b ∈ H ∖ {[b]})) by set_solver. split; [simpl; lia|done].
    + rewrite held_del by done. by apply I5.
  - intros x bn'. rewrite Ec, Eg. destruct (decide (b = x)) as [<-|Hne].
    + intros (_ & _ & <-) _ _. simpl. congruence.
    + intros Cx Hx. apply I6; [done|]. intros Hin. apply Hx. apply elem_of_difference. split; [done|]. by rewrite elem_of_singleton.
  - intros bn' Hd. destruct (I8 bn' Hd) as (x & Cx & Vx & Px). exists x. rewrite Ec, Eg. by destruct (decide (b = x)) as [<-|].
  - intros x Hx. apply I9. set_solver.
  - intros x Hx HxH. rewrite Eg. destruct (decide (b = x)) as [<-|Hne].
    + simpl. rewrite Hdev, Hbn. unfold dec_bool in Hpin. destruct (decide (bn ∈ dirty)); [by right|by left].
    + apply I11; [done|]. intros Hin. apply HxH. apply elem_of_difference. split; [done|]. by rewrite elem_of_singleton.
  - intros x Hx. by rewrite Eg, decide_False by congruence.
  - by rewrite Eg, decide_True.
Qed.
End Held.

(** Moving buffers in the list changes nothing else. *)
Lemma cache_relink s s' pid H P D dirty :
  cache s pid H P D dirty -> (forall b, core (getbuf s' b) = core (getbuf s b)) -> length (k_bufs s') = length (k_bufs s) ->
  (exists l, l ≡ₚ seq 0 bhead /\ chain (getbuf s') bhead l bhead) -> k_disk s' = k_disk s ->
  cache s' pid H P D dirty.
Proof.
  intros [I1 I2 I3 I4 I5 I6 I7 I8 I9 I10 I11] Hc Hl Hch Hd.
  assert (forall x bn', caches s' x bn' <-> caches s x bn') as Ec.
  { intros x bn'. unfold caches. pose proof (Hc x) as [= E1 E2 E3 E4 E5 E6]. by rewrite E2, E3. }
  constructor; try done.
  - congruence.
  - intros b1 b2 bn'. rewrite !Ec. apply I3.
  - intros x Hx. pose proof (Hc x) as [= E1 E2 E3 E4 E5 E6]. rewrite E4. by apply I4.
  - intros x Hx. pose proof (Hc x) as [= E1 E2 E3 E4 E5 E6]. rewrite E5. by apply I5.
  - intros x bn'. pose proof (Hc x) as [= E1 E2 E3 E4 E5 E6]. rewrite Ec, E1, E6. apply I6.
  - rewrite Hd. done.
  - intros bn' Hbn'. destruct (I8 bn' Hbn') as (x & Cx & Vx & Px). exists x. pose proof (Hc x) as [= E1 E2 E3 E4 E5 E6]. by rewrite Ec, E1.
  - intros x. pose proof (Hc x) as [= E1 E2 E3 E4 E5 E6]. rewrite E2, E3. apply I11.
Qed.

Lemma core_set_next b v s x : core (getbuf (upd_buf b (set_b_next v) s) x) = core (getbuf s x).
Proof.
  unfold getbuf, upd_buf. simpl. destruct (decide (b = x)) as [->|]; [|by rewrite list_lookup_alter_ne].
  rewrite list_lookup_alter_eq. by destruct (k_bufs s !! x).
Qed.
Lemma core_set_prev b v s x : core (getbuf (upd_buf b (set_b_prev v) s) x) = core (getbuf s x).
Proof.
  unfold getbuf, upd_buf. simpl. destruct (decide (b = x)) as [->|]; [|by rewrite list_lookup_alter_ne].
  rewrite list_lookup_alter_eq. by destruct (k_bufs s !! x).
Qed.

Lemma cache_front s pid H P D dirty b :
  cache s pid H P D dirty -> (b < bhead)%nat ->
  cache (at_front b (unlinked b s)) pid H P D dirty
  /\ (forall b', core (getbuf (at_front b (unlinked b s)) b') = core (getbuf s b')).
Proof.
  intros I Hb. assert (forall b', core (getbuf (at_front b (unlinked b s)) b') = core (getbuf s b')) as Hc.
  { intros x. unfold at_front, unlinked. cbv zeta. by rewrite !core_set_next, !core_set_prev, ?core_set_next, ?core_set_prev. }
  split; [|done]. eapply cache_relink; [done|done| | |done].
  { unfold at_front, unlinked. cbv zeta. by rewrite !length_upd_buf. }
  destruct (ca_list _ _ _ _ _ _ I) as (l & Hl & Hch). pose proof (proj2 (perm_lt l b Hl) Hb) as Hin.
  apply list_elem_of_split in Hin as (l1 & l2 & ->). destruct (perm_nodup _ Hl) as (Hnd & _ & _).
  assert (Forall (fun x => (x < bhead)%nat) (l1 ++ b :: l2)) as Hlt.
  { apply Forall_forall. intros x Hx. by apply (perm_lt _ x Hl). }
  exists (b :: l1 ++ l2). split; [by rewrite <- Hl, Permutation_middle|]. apply chain_front.
  - unfold unlinked. by rewrite !length_upd_buf, (ca_len _ _ _ _ _ _ I).
  - by rewrite Permutation_middle.
  - by rewrite Permutation_middle.
  - apply chain_unlink; try done. apply (ca_len _ _ _ _ _ _ I).
Qed.

Lemma brelse_spec s pid H P D dirty b bn :
  cache s pid H P D dirty -> calm s pid -> b ∈ H -> holds_buf s b bn (D bn) -> P b = dec_bool (bn ∈ dirty) ->
  exists s', brelse b s = Ret tt s' /\ cache s' pid (H ∖ {[b]}) P D dirty
  /\ (forall b', b' <> b -> core (getbuf s' b') = core (getbuf s b')) /\ k_disk s' = k_disk s /\ frame s s'.
Proof.
  intros I C HbH Hh Hpin. destruct (cache_give s pid H P D dirty I C b bn (D bn) HbH Hh eq_refl Hpin) as (I2 & Hcore & Hr).
  set (s2 := upd_buf b _ s) in *. assert (b < bhead)%nat as Hb by apply Hh.
  assert (calm s2 pid) as C2 by (by apply calm_upd_buf).
  assert (forall r, (if b_refcnt (getbuf s2 b) =? 0 then Ret tt (at_front b (unlinked b s2)) else Ret tt s2) = r -> brelse b s = r) as Hrun.
  { intros r <-. unfold brelse. erewrite bind_ret_eq by (apply (holdingsleep_held b s pid); [done|by eapply held_lock]). cbn [negb].
    erewrite bind_ret_eq by (by eapply releasesleep_held). set (s1 := upd_buf b (set_b_lock unlocked) s).
    erewrite bind_ret_eq by (apply (calm_acquire _ pid); by apply calm_upd_buf). erewrite bind_ret_eq by reflexivity.
    assert (upd_buf b (fun v => set_b_refcnt (uint32 (b_refcnt v - 1)) v) (set_k_held [LBcache] s1) = set_k_held [LBcache] s2) as ->.
    { change (upd_buf b ?f (set_k_held ?h s1)) with (set_k_held h (upd_buf b f s1)). unfold s1, s2. by rewrite upd_buf_twice. }
    erewrite bind_ret_eq by reflexivity. change (getbuf (set_k_held _ s2) b) with (getbuf s2 b).
    destruct (b_refcnt (getbuf s2 b) =? 0).
    - erewrite bind_ret_eq.
      2: { do 2 erewrite bind_ret_eq by reflexivity. erewrite bind_ret_eq by reflexivity. do 2 erewrite bind_ret_eq by reflexivity.
           erewrite bind_ret_eq by reflexivity. erewrite bind_ret_eq by reflexivity. reflexivity. }
      change (release LBcache (set_k_held [LBcache] (at_front b (unlinked b s2))) = Ret tt (at_front b (unlinked b s2))).
      apply (calm_release _ pid). unfold at_front, unlinked. cbv zeta. by repeat apply calm_upd_buf.
    - erewrite bind_ret_eq by reflexivity. by apply (calm_release _ pid). }
  destruct (b_refcnt (getbuf s2 b) =? 0).
  - exists (at_front b (unlinked b s2)). split; [by apply Hrun|]. destruct (cache_front s2 pid _ P D dirty b I2 Hb) as [I3 Hc3].
    split; [done|]. split; [intros b' Hne; by rewrite Hc3, Hcore|done].
  - exists s2. split; [by apply Hrun|]. split; [done|]. split; [done|done].
Qed.

Lemma upd_buf_ext b f g s : f (getbuf s b) = g (getbuf s b) -> upd_buf b f s = upd_buf b g s.
Proof.
  intros E. unfold upd_buf. f_equal. apply list_eq. intros i. destruct (decide (b = i)) as [<-|]; [|by rewrite !list_lookup_alter_ne].
  rewrite !list_lookup_alter_eq. unfold getbuf in E. destruct (k_bufs s !! b) as [v|]; [|done]. simpl in *. by rewrite E.
Qed.

Lemma cache_ext s pid H P D D' dirty : (forall bn, D' bn = D bn) -> cache s pid H P D dirty -> cache s pid H P D' dirty.
Proof.
  intros E [I1 I2 I3 I4 I5 I6 I7 I8 I9 I10 I11]. constructor; try done.
  - intros b bn C1 C2 C3. rewrite E. by apply I6.
  - intros bn Hbn. rewrite E. by apply I7.
  - intros bn. rewrite E. apply I10.
Qed.

(** The output of printf does not concern the cache. *)
Lemma cache_out s pid H P D dirty out : cache s pid H P D dirty -> cache (set_k_out out s) pid H P D dirty.
Proof. intros [I1 I2 I3 I4 I5 I6 I7 I8 I9 I10 I11]. by constructor. Qed.

Lemma cache_log s pid H P D dirty l : cache s pid H P D dirty -> cache (set_k_log l s) pid H P D dirty.
Proof. intros [I1 I2 I3 I4 I5 I6 I7 I8 I9 I10 I11]. by constructor. Qed.

Lemma dec_bool_ext (P Q : Prop) `{Decision P} `{Decision Q} : (P <-> Q) -> dec_bool P = dec_bool Q.
Proof. intros H1. unfold dec_bool. repeat case_decide; tauto. Qed.

Lemma held_in (b : nat) (H : gset nat) : b ∈ {[b]} ∪ H.
Proof. apply elem_of_union_l, elem_of_singleton_2. done. Qed.

Lemma both_held (a b : nat) : ({[b]} ∪ ({[a]} ∪ ∅)) ∖ {[b]} ∖ {[a]} = (∅ : gset nat) /\ ({[b]} ∪ ({[a]} ∪ ∅)) ∖ {[a]} ∖ {[b]} = (∅ : gset nat).
Proof. set_solver. Qed.

Lemma held_still (a b : nat) (H : gset nat) : a <> b -> a ∈ H -> a ∈ H ∖ {[b]}.
Proof. set_solver. Qed.

Lemma empty_held b : ({[b]} ∪ ∅) ∖ {[b]} = (∅ : gset nat).
Proof. set_solver. Qed.

Lemma not_held_empty s bn b : b ∈ (∅ : gset nat) -> ~ caches s b bn.
Proof. by intros ?%elem_of_empty. Qed.
