(* ===== verification/Log.v ===== *)
(** * The log: log.c

    Transactions over the buffer cache: blocks written inside a transaction are
    copied to the log on disk, the header block commits them, and then they are
    installed. *)
From S2P Require Import Prelude State CString Kalloc Vm Sched Printf Bytes Bio.

Open Scope Z_scope.

Definition get_log : K log := gets k_log.
Definition mod_log (f : log -> log) : K unit := modify (fun s => set_k_log (f (k_log s)) s).
(** [log.lh.block[i]] *)
Definition lh_block (l : log) (i : Z) : Z := byte_at (l_block l) i.
Definition set_lh_block (i v : Z) (l : log) : log := set_l_block (<[Z.to_nat i := v]> (l_block l)) l.

(** [struct logheader] inside a block: [n], then [block]. *)
Definition hb_n (d : list Z) : Z := int32 (ld32 d 0).
Definition hb_block (d : list Z) (i : Z) : Z := int32 (ld32 d (4 + 4 * i)).
Definition hb_set_n (v : Z) (d : list Z) : list Z := st32 d 0 v.
Definition hb_set_block (i v : Z) (d : list Z) : list Z := st32 d (4 + 4 * i) v.

Section Fuel.
Context (fuel : nat).

Definition install_trans (recovering : bool) : K unit :=
  let* l := get_log in
  for_all (seqZ 0 (l_n l)) (fun tail =>
    (if recovering then
       let* _ := printf ("recovering tail %d dst %d" +:+ nl) [AInt tail; AInt (lh_block l tail)] in skip
     else skip) ;;;
    let* lbuf := bread fuel (l_dev l) (uint32 (l_start l + tail + 1)) in
    let* dbuf := bread fuel (l_dev l) (uint32 (lh_block l tail)) in
    let* lv := get_buf lbuf in
    mod_buf dbuf (set_b_data (b_data lv)) ;;;
    bwrite dbuf ;;;
    (if recovering then skip else bunpin dbuf) ;;;
    brelse lbuf ;;;
    brelse dbuf).

Definition read_head : K unit :=
  let* l := get_log in
  let* b := bread fuel (l_dev l) (uint32 (l_start l)) in
  let* v := get_buf b in
  mod_log (set_l_n (hb_n (b_data v))) ;;;
  for_all (seqZ 0 (hb_n (b_data v))) (fun i => mod_log (set_lh_block i (hb_block (b_data v) i))) ;;;
  brelse b.

Definition write_head : K unit :=
  let* l := get_log in
  let* b := bread fuel (l_dev l) (uint32 (l_start l)) in
  mod_buf b (fun v => set_b_data (hb_set_n (l_n l) (b_data v)) v) ;;;
  for_all (seqZ 0 (l_n l)) (fun i =>
    mod_buf b (fun v => set_b_data (hb_set_block i (lh_block l i) (b_data v)) v)) ;;;
  bwrite b ;;;
  brelse b.

Definition recover_from_log : K unit :=
  read_head ;;;
  install_trans true ;;;
  mod_log (set_l_n 0) ;;;
  write_head.

(** [sizeof(struct logheader)] is 4 + 4 * LOGBLOCKS. *)
Definition initlog (dev : Z) : K unit :=
  if BSIZE <=? 4 + 4 * LOGBLOCKS then panic "initlog: too big logheader" else
  let* sb := gets k_sb in
  mod_log (set_l_start (sb_logstart sb)) ;;;
  mod_log (set_l_dev dev) ;;;
  recover_from_log.

(** One turn of the [while(1)] of [begin_op]: true when the operation is in. *)
Definition begin_op_turn : K bool :=
  let* l := get_log in
  if negb (l_committing l =? 0) then sleep CLog LLog ;;; ret false
  else if LOGBLOCKS <? l_n l + (l_outstanding l + 1) * MAXOPBLOCKS then sleep CLog LLog ;;; ret false
  else
    mod_log (set_l_outstanding (l_outstanding l + 1)) ;;;
    release LLog ;;;
    ret true.

Definition begin_op : K unit :=
  acquire LLog ;;;
  while_loop fuel tt (fun _ =>
    let* ok := begin_op_turn in
    ret (if (ok : bool) then inr tt else inl tt)).

Definition write_log : K unit :=
  let* l := get_log in
  for_all (seqZ 0 (l_n l)) (fun tail =>
    let* to := bread fuel (l_dev l) (uint32 (l_start l + tail + 1)) in
    let* from := bread fuel (l_dev l) (uint32 (lh_block l tail)) in
    let* fv := get_buf from in
    mod_buf to (set_b_data (b_data fv)) ;;;
    bwrite to ;;;
    brelse from ;;;
    brelse to).

Definition commit : K unit :=
  let* l := get_log in
  if 0 <? l_n l then
    write_log ;;;
    write_head ;;;
    install_trans false ;;;
    mod_log (set_l_n 0) ;;;
    write_head
  else skip.

Definition end_op : K unit :=
  acquire LLog ;;;
  mod_log (fun l => set_l_outstanding (l_outstanding l - 1) l) ;;;
  let* l := get_log in
  if negb (l_committing l =? 0) then panic "log.committing" else
  let do_commit := l_outstanding l =? 0 in
  (if do_commit then mod_log (set_l_committing 1) else wakeup CLog) ;;;
  release LLog ;;;
  (if do_commit then
     commit ;;;
     acquire LLog ;;;
     mod_log (set_l_committing 0) ;;;
     wakeup CLog ;;;
     release LLog
   else skip).

(** The index the loop of [log_write] stops at. *)
Fixpoint log_index (n : nat) (i : Z) (l : log) (blockno : Z) : Z :=
  match n with
  | O => i
  | S n' => if uint32 (lh_block l i) =? blockno then i else log_index n' (i + 1) l blockno
  end.

Definition log_write (b : nat) : K unit :=
  acquire LLog ;;;
  let* l := get_log in
  if LOGBLOCKS <=? l_n l then panic "too big a transaction" else
  if l_outstanding l <? 1 then panic "log_write outside of trans" else
  let* v := get_buf b in
  let i := log_index (Z.to_nat (l_n l)) 0 l (b_blockno v) in
  mod_log (set_lh_block i (int32 (b_blockno v))) ;;;
  (if i =? l_n l then bpin b ;;; mod_log (fun l => set_l_n (l_n l + 1) l) else skip) ;;;
  release LLog.
End Fuel.
