(* ===== verification/LogSpec.v ===== *)
(** * Crash safety of the log

    The disk is the list of the writes it has done; a crash leaves a tail of it.
    [log_view] is what a disk means: what the blocks contain once the log has
    been recovered.  Commit changes this meaning from the old contents to the
    new ones at one write, that of the header; recovery never changes it and ends
    with a disk whose blocks contain it. *)
From S2P Require Import Prelude State CString Kalloc Vm Sched Printf Bytes Bio BioSpec Log.

Open Scope Z_scope.

(** ** The header block *)

(** What write_head stores in the header block. *)
Definition hdr (l : log) (d : list Z) : list Z :=
  fold_left (fun d i => hb_set_block i (lh_block l i) d) (seqZ 0 (l_n l)) (hb_set_n (l_n l) d).

Definition homes (l : log) : list Z := map (lh_block l) (seqZ 0 (l_n l)).

(** The home blocks a header block names. *)
Definition hdr_homes (d : list Z) : list Z := map (hb_block d) (seqZ 0 (hb_n d)).

Lemma int32_of_mod v : 0 <= v < 2 ^ 31 -> int32 (v mod 256 ^ 4) = v.
Proof. intros H. rewrite Z.mod_small by lia. apply int32_small. lia. Qed.

Section Header.
Context (l : log) (d : list Z).
Context (Hd : length d = Z.to_nat BSIZE) (Hn : 0 <= l_n l <= LOGBLOCKS).
Context (Hl : forall i, 0 <= i < l_n l -> 0 <= lh_block l i < 2 ^ 31).

Lemma hdr_upto k : (Z.of_nat k <= l_n l) ->
  let d' := fold_left (fun d i => hb_set_block i (lh_block l i) d) (seqZ 0 (Z.of_nat k)) (hb_set_n (l_n l) d) in
  length d' = Z.to_nat BSIZE /\ hb_n d' = l_n l /\ forall i, 0 <= i < Z.of_nat k -> hb_block d' i = lh_block l i.
Proof.
  assert (BSIZE = 1024) as EB by done. assert (LOGBLOCKS = 30) as EL by done.
  induction k as [|k IH]; intros Hk d'.
  - unfold d'. change (seqZ 0 (Z.of_nat 0)) with (@nil Z). cbn [fold_left]. unfold hb_set_n, hb_n, st32, ld32. rewrite st_length by lia. split_and!; [done| |lia].
    rewrite ld_st_eq by lia. apply int32_of_mod. lia.
  - destruct IH as (L & N & B); [lia|]. revert d'. rewrite seqZ_S, fold_left_app. cbn [fold_left]. rewrite Z.add_0_l.
    set (d1 := fold_left _ _ _) in *. unfold hb_set_block, st32. split_and!.
    + rewrite st_length by lia. done.
    + unfold hb_n, ld32. rewrite ld_st_ne by lia. done.
    + intros i Hi. unfold hb_block, ld32. destruct (decide (i = Z.of_nat k)) as [->|Hne].
      * rewrite ld_st_eq by lia. apply int32_of_mod, Hl. lia.
      * rewrite ld_st_ne by lia. apply B. lia.
Qed.

Lemma hdr_spec : length (hdr l d) = Z.to_nat BSIZE /\ hb_n (hdr l d) = l_n l /\ hdr_homes (hdr l d) = homes l.
Proof.
  destruct (hdr_upto (Z.to_nat (l_n l))) as (L & N & B); [lia|]. rewrite Z2Nat.id in * by lia.
  unfold hdr, hdr_homes, homes. rewrite N. split_and!; [done|done|]. apply map_ext_in.
  intros i Hi%list_elem_of_In%elem_of_seqZ. apply B. lia.
Qed.
End Header.

(** ** What a disk means *)

(** The log block that holds the contents of [bn], when the header names it. *)
Fixpoint log_slot (bl : list Z) (i bn : Z) : option Z :=
  match bl with
  | [] => None
  | x :: bl' => if x =? bn then Some i else log_slot bl' (i + 1) bn
  end.

Definition log_view (start : Z) (d : list (Z * list Z)) (bn : Z) : list Z :=
  match log_slot (hdr_homes (disk_block d start)) (start + 1) bn with
  | Some lb => disk_block d lb
  | None => disk_block d bn
  end.

(** Blocks outside the log. *)
Definition data_block (start bn : Z) : Prop := bn < start \/ start + LOGBLOCKS < bn.

(** A header that names at most LOGBLOCKS different blocks outside the log. *)
Definition homes_ok (start : Z) (bl : list Z) : Prop :=
  NoDup bl /\ Z.of_nat (length bl) <= LOGBLOCKS /\ Forall (fun bn => 0 <= bn < 2 ^ 31 /\ data_block start bn) bl.

Lemma log_slot_some bl i bn lb : log_slot bl i bn = Some lb -> exists k, bl !! k = Some bn /\ lb = i + Z.of_nat k.
Proof.
  revert i. induction bl as [|x bl IH]; intros i; simpl; [done|]. destruct (Z.eqb_spec x bn) as [->|Hx].
  - intros [= <-]. exists 0%nat. split; [done|lia].
  - intros (k & Hk & ->)%IH. exists (S k). split; [done|lia].
Qed.

Lemma log_slot_lookup bl i k bn : NoDup bl -> bl !! k = Some bn -> log_slot bl i bn = Some (i + Z.of_nat k).
Proof.
  intros Hnd. revert i k. induction Hnd as [|x bl Hx _ IH]; intros i k; [done|]. destruct k as [|k]; simpl.
  - intros [= <-]. rewrite Z.eqb_refl. f_equal. lia.
  - intros Hk. rewrite (proj2 (Z.eqb_neq x bn)) by (intros ->; by apply Hx, (list_elem_of_lookup_2 _ k)).
    rewrite (IH _ _ Hk). f_equal. lia.
Qed.

Lemma log_slot_none bl i bn : bn ∉ bl -> log_slot bl i bn = None.
Proof.
  revert i. induction bl as [|x bl IH]; intros i; simpl; [done|]. intros [Hx Hbl]%not_elem_of_cons.
  rewrite (proj2 (Z.eqb_neq x bn)) by done. by apply IH.
Qed.

(** ** Crashes *)

(** The disk got from [d0] to [d], and [Q] holds of it at every moment between. *)
Definition at_every_crash (d0 d : list (Z * list Z)) (Q : list (Z * list Z) -> Prop) : Prop :=
  d0 `suffix_of` d /\ forall d', d0 `suffix_of` d' -> d' `suffix_of` d -> Q d'.

Lemma crash_start d0 (Q : list (Z * list Z) -> Prop) : Q d0 -> at_every_crash d0 d0 Q.
Proof. intros H. split; [done|]. intros d' H1 H2. by rewrite (anti_symm suffix d' d0). Qed.

Lemma crash_write d0 d (Q : list (Z * list Z) -> Prop) x : at_every_crash d0 d Q -> Q (x :: d) -> at_every_crash d0 (x :: d) Q.
Proof.
  intros [Hs H] Hx. split; [by apply suffix_cons_r|]. intros d' H1 [[|y k] E]; simpl in E; [by rewrite <- E|].
  injection E as <- E. apply H; [done|by exists k].
Qed.

Lemma crash_trans d0 d1 d2 Q : at_every_crash d0 d1 Q -> at_every_crash d1 d2 Q -> at_every_crash d0 d2 Q.
Proof.
  intros [S1 H1] [S2 H2]. split; [by etrans|]. intros d' L1 L2.
  destruct L2 as [k2 E2], S2 as [k Ek]. rewrite Ek in E2. apply app_eq_inv in E2 as [(w & -> & E)|(w & -> & E)].
  - apply H2; [by exists w|]. exists k2. by rewrite Ek, <- app_assoc, E.
  - apply H1; [done|by exists w].
Qed.

Lemma crash_mono d0 d (Q Q' : list (Z * list Z) -> Prop) : at_every_crash d0 d Q -> (forall d', Q d' -> Q' d') -> at_every_crash d0 d Q'.
Proof. intros [Hs H] Hq. split; auto. Qed.

Lemma crash_end d0 d Q : at_every_crash d0 d Q -> Q d.
Proof. intros [Hs H]. by apply H. Qed.

(** Blocks have BSIZE bytes. *)
Definition sized (d : list (Z * list Z)) : Prop := forall bn, length (disk_block d bn) = Z.to_nat BSIZE.

(** Two disks with the same contents on the blocks of [S]. *)
Definition same_on (S : Z -> Prop) (d0 d : list (Z * list Z)) : Prop :=
  (sized d0 -> sized d) /\ forall bn, S bn -> disk_block d bn = disk_block d0 bn.

Lemma same_refl S d : same_on S d d.
Proof. done. Qed.

Lemma sized_write d bn data : sized d -> length data = Z.to_nat BSIZE -> sized ((bn, data) :: d).
Proof. intros H Hd x. cbn [disk_block]. by destruct (bn =? x). Qed.

Lemma same_write (S : Z -> Prop) d0 d bn data :
  same_on S d0 d -> ~ S bn -> length data = Z.to_nat BSIZE -> same_on S d0 ((bn, data) :: d).
Proof.
  intros [H1 H2] Hbn Hl. split; [intros Hd; by apply sized_write; [apply H1|]|]. intros x Hx. cbn [disk_block].
  destruct (Z.eqb_spec bn x) as [->|]; [done|]. by apply H2.
Qed.

Definition log_block (start bn : Z) : Prop := start < bn <= start + LOGBLOCKS.

Lemma view_no_header start d d' :
  hdr_homes (disk_block d start) = [] -> same_on (fun bn => ~ log_block start bn) d d' ->
  forall bn, data_block start bn -> log_view start d' bn = disk_block d bn.
Proof.
  intros Hh [_ Hs] bn Hbn. unfold log_view. rewrite (Hs start) by (unfold log_block; lia). rewrite Hh.
  apply Hs. unfold log_block, data_block in *. lia.
Qed.

Lemma view_installing start d d' :
  homes_ok start (hdr_homes (disk_block d start)) ->
  same_on (fun bn => bn ∉ hdr_homes (disk_block d start)) d d' ->
  disk_block d' start = disk_block d start /\ forall bn, log_view start d' bn = log_view start d bn.
Proof.
  intros (Hnd & Hlen & Hok) [_ Hs]. rewrite Forall_forall in Hok.
  assert (forall bn, ~ data_block start bn -> disk_block d' bn = disk_block d bn) as Hlog.
  { intros bn Hbn. apply Hs. intros Hin. by destruct (Hok _ Hin). }
  assert (disk_block d' start = disk_block d start) as E by (apply Hlog; unfold data_block; assert (LOGBLOCKS = 30) by done; lia).
  split; [done|]. intros bn. unfold log_view. rewrite E.
  destruct (log_slot _ _ bn) as [lb|] eqn:El.
  - apply log_slot_some in El as (k & Hk & ->). apply Hlog. apply lookup_lt_Some in Hk. unfold data_block. lia.
  - apply Hs. intros (k & Hk)%list_elem_of_lookup. by rewrite (log_slot_lookup _ _ _ _ Hnd Hk) in El.
Qed.

(** A disk with a good header that means the contents [C]. *)
Definition reads_as (start : Z) (C : Z -> list Z) (d : list (Z * list Z)) : Prop :=
  sized d /\ 0 <= hb_n (disk_block d start) /\ homes_ok start (hdr_homes (disk_block d start))
  /\ forall bn, data_block start bn -> log_view start d bn = C bn.

Lemma homes_ok_nil start : homes_ok start [].
Proof. split; [constructor|]. split; [done|constructor]. Qed.

Lemma no_homes d : hb_n d = 0 -> hdr_homes d = [].
Proof. intros E. unfold hdr_homes. by rewrite E. Qed.

(** A disk with an empty header means what it contains. *)
Lemma reads_empty start C d : sized d -> hb_n (disk_block d start) = 0 ->
  (forall bn, data_block start bn -> disk_block d bn = C bn) -> reads_as start C d.
Proof.
  intros Hz Hn Hc. split_and!; [done|lia|rewrite no_homes by done; apply homes_ok_nil|].
  intros bn Hbn. unfold log_view. rewrite no_homes by done. by apply Hc.
Qed.

Lemma reads_logging start C d d' : sized d -> hb_n (disk_block d start) = 0 ->
  (forall bn, data_block start bn -> disk_block d bn = C bn) ->
  same_on (fun bn => ~ log_block start bn) d d' -> reads_as start C d'.
Proof.
  intros Hz Hn Hc [Hz' Hs]. apply reads_empty; [by apply Hz'|by rewrite Hs by (unfold log_block; lia)|].
  intros bn Hbn. rewrite Hs; [by apply Hc|]. unfold log_block, data_block in *. lia.
Qed.

Lemma reads_installing start C d d' : reads_as start C d ->
  same_on (fun bn => bn ∉ hdr_homes (disk_block d start)) d d' -> reads_as start C d'.
Proof.
  intros (Hz & Hn & Hok & Hv) Hs. destruct (view_installing start d d' Hok Hs) as [E Hv'].
  unfold reads_as. rewrite E. split_and!; try done; [by apply Hs|]. intros bn Hbn. rewrite Hv'. by apply Hv.
Qed.

(** ** The functions of log.c, for a thread alone with the cache *)
Definition has_free (P : nat -> Z) : Prop := exists b, (b < bhead)%nat /\ P b = 0.

Definition two_free (P : nat -> Z) : Prop := exists b b', (b < bhead)%nat /\ (b' < bhead)%nat /\ b <> b' /\ P b = 0 /\ P b' = 0.

Lemma free_room s bn P : has_free P -> room s ∅ P bn.
Proof. intros (b & Hb & HP). right. exists b. by split_and!. Qed.

(** Only the buffers of dirty blocks are pinned. *)
Lemma pinned_dirty s pid P D dirty b : cache s pid ∅ P D dirty -> (b < bhead)%nat -> P b <> 0 -> b_blockno (getbuf s b) ∈ dirty /\ caches s b (b_blockno (getbuf s b)).
Proof. intros I Hb HP. destruct (ca_pin _ _ _ _ _ _ I b Hb) as [?|(_ & ? & ?)]; [set_solver|done|done]. Qed.

Lemma cache_free s pid P D dirty : cache s pid ∅ P D dirty -> (size dirty < bhead)%nat -> has_free P.
Proof.
  intros I Hsz. destruct (decide (Exists (fun b => P b = 0) (seq 0 bhead))) as [He|He].
  - apply Exists_exists in He as (b & Hb%elem_of_seq & HP). exists b. split; [lia|done].
  - exfalso. rewrite <- Forall_Exists_neg, Forall_forall in He.
    assert (forall b, b ∈ seq 0 bhead -> b_blockno (getbuf s b) ∈ dirty /\ caches s b (b_blockno (getbuf s b))) as Hp.
    { intros b Hb. apply (pinned_dirty s pid P D); [done| |by apply He]. apply elem_of_seq in Hb. lia. }
    assert (NoDup (map (fun b => b_blockno (getbuf s b)) (seq 0 bhead))) as Hnd.
    { apply NoDup_fmap_2_strong; [|apply NoDup_seq]. intros x y Hx%Hp Hy%Hp E. eapply (ca_unique _ _ _ _ _ _ I); [apply Hx|]. rewrite E. apply Hy. }
    assert ((list_to_set (map (fun b => b_blockno (getbuf s b)) (seq 0 bhead)) : gset Z) ⊆ dirty) as Hsub.
    { intros x Hx. apply elem_of_list_to_set, list_elem_of_fmap in Hx as (b & -> & Hb). by apply Hp. }
    apply subseteq_size in Hsub. rewrite size_list_to_set, length_map, length_seq in Hsub by done. lia.
Qed.

Lemma cache_two_free s pid P D : cache s pid ∅ P D ∅ -> two_free P.
Proof.
  intros I. assert (forall b, (b < bhead)%nat -> P b = 0) as HP.
  { intros b Hb. destruct (ca_pin _ _ _ _ _ _ I b Hb) as [?|(_ & _ & ?)]; [set_solver|done|set_solver]. }
  assert (bhead = 30%nat) as E by done. exists 0%nat, 1%nat. split_and!; try apply HP; lia.
Qed.

(** Where the log is. *)
Definition log_at (s : kernel) (start : Z) : Prop :=
  l_dev (k_log s) = ROOTDEV /\ l_start (k_log s) = start /\ 0 <= start /\ start + LOGBLOCKS < 2 ^ 31.

(** The loop of the goal, with the invariant [J]. *)
Ltac for_inv J :=
  lazymatch goal with |- context [for_all (seqZ 0 ?n) ?body ?s] => pose proof (for_all_inv n body J s) as Hloop end.

Section Functions.
Context (fuel : nat) (pid start : Z).

Lemma write_head_spec s P D dirty :
  cache s pid ∅ P D dirty -> calm s pid -> log_at s start -> homes_ok start (homes (k_log s)) ->
  start ∉ dirty -> has_free P -> 0 <= l_n (k_log s) ->
  exists s', write_head (S fuel) s = Ret tt s'
  /\ cache s' pid ∅ P (fupd D start (hdr (k_log s) (D start))) dirty
  /\ k_disk s' = (start, hdr (k_log s) (D start)) :: k_disk s /\ frame s s'.
Proof.
  intros I C (Edev & Est & Hst & Hst') (_ & Hlen & Hok) Hd Hfree Hn. set (l := k_log s) in *.
  assert (l_n l <= LOGBLOCKS) as Hn' by (unfold homes in Hlen; rewrite length_map, length_seqZ in Hlen; lia).
  assert (forall i, 0 <= i < l_n l -> 0 <= lh_block l i < 2 ^ 31) as Hbl.
  { intros i Hi. rewrite Forall_forall in Hok. apply (Hok (lh_block l i)). apply list_elem_of_fmap. exists i. split; [done|]. apply elem_of_seqZ. lia. }
  unfold write_head. erewrite bind_ret_eq by reflexivity. fold l. rewrite Edev, Est, uint32_small by lia.
  destruct (bread_spec s pid ∅ P D dirty I fuel start C) as (b & s1 & E1 & I1 & _ & H1 & HP1 & _ & K1 & F1);
    [by apply not_held_empty|by apply free_room|].
  erewrite bind_ret_eq by exact E1. pose proof H1 as ((Hb & _ & _) & _ & Hdata).
  pose proof (frame_calm _ _ _ F1 C) as C1. assert ((b < length (k_bufs s1))%nat) as Hlt by (rewrite (ca_len _ _ _ _ _ _ I1); lia).
  destruct (hdr_spec l (D start)) as (L & _ & _); [apply I|lia|done|].
  destruct (for_all_inv (l_n l) (fun i => mod_buf b (fun v => set_b_data (hb_set_block i (lh_block l i) (b_data v)) v))
    (fun i s' => s' = upd_buf b (set_b_data (fold_left (fun d i => hb_set_block i (lh_block l i) d) (seqZ 0 i) (hb_set_n (l_n l) (D start)))) s1)
    (upd_buf b (fun v => set_b_data (hb_set_n (l_n l) (b_data v)) v) s1)) as (s2 & E2 & ->); [done| | |].
  { apply upd_buf_ext. by rewrite Hdata. }
  { intros i s' Hi ->. eexists. split; [reflexivity|]. rewrite upd_buf_twice. apply upd_buf_ext.
    replace (i + 1) with (Z.of_nat (S (Z.to_nat i))) by lia. rewrite seqZ_S, fold_left_app, Z.add_0_l, Z2Nat.id by lia. done. }
  erewrite bind_ret_eq by reflexivity. erewrite bind_ret_eq by exact E2.
  destruct (cache_modify s1 pid _ P D dirty I1 b (hdr l (D start)) start _ (held_in b ∅) H1) as (I2 & H2 & _).
  assert (calm (upd_buf b (set_b_data (hdr l (D start))) s1) pid) as C2 by (by apply calm_upd_buf).
  destruct (bwrite_spec _ pid _ P D dirty I2 C2 b start _ (held_in b ∅) H2 L) as (s3 & E3 & I3 & G3 & K3 & F3).
  erewrite bind_ret_eq by exact E3.
  assert (dirty ∖ {[start]} = dirty) as Edirty by set_solver. rewrite Edirty in I3.
  assert (holds_buf s3 b start (fupd D start (hdr l (D start)) start)) as H3.
  { rewrite fupd_eq. eapply holds_core; [|exact H2]. by rewrite G3. }
  destruct (brelse_spec s3 pid _ P _ dirty b start I3) as (s4 & E4 & I4 & _ & K4 & F4); [by eapply frame_calm|apply held_in|done|done|].
  rewrite empty_held in I4. exists s4. split; [done|]. split; [done|]. split.
  - rewrite K4, K3. simpl. by rewrite K1.
  - eapply frame_trans; [exact F1|]. eapply frame_trans; [|exact F4]. eapply frame_trans; [|exact F3]. done.
Qed.

(** The two buffers of a copy between a log block and a home block. *)
Lemma bread_two s P D dirty lb x :
  cache s pid ∅ P D dirty -> calm s pid -> lb <> x -> has_free P ->
  (x ∈ dirty \/ two_free P) ->
  exists a b s2, (let* a := bread (S fuel) ROOTDEV lb in let* b := bread (S fuel) ROOTDEV x in ret (a, b)) s = Ret (a, b) s2
  /\ a <> b /\ cache s2 pid ({[b]} ∪ ({[a]} ∪ ∅)) P D dirty /\ holds_buf s2 a lb (D lb) /\ holds_buf s2 b x (D x)
  /\ P a = dec_bool (lb ∈ dirty) /\ P b = dec_bool (x ∈ dirty) /\ k_disk s2 = k_disk s /\ frame s s2.
Proof.
  intros I C Hne Hfree Htwo.
  destruct (bread_spec s pid ∅ P D dirty I fuel lb C) as (a & s1 & E1 & I1 & _ & H1 & HPa & G1 & K1 & F1);
    [by apply not_held_empty|by apply free_room|].
  destruct (bread_spec s1 pid _ P D dirty I1 fuel x) as (b & s2 & E2 & I2 & Hba & H2 & HP & G2 & K2 & F2).
  - by eapply frame_calm.
  - intros b [->%elem_of_singleton|?%elem_of_empty]%elem_of_union; [|done]. intros (_ & _ & Ex). destruct H1 as ((_ & _ & El) & _). congruence.
  - destruct Htwo as [Hx|(b0 & b1 & L0 & L1 & N & P0 & P1)].
    + left. destruct (ca_dirty _ _ _ _ _ _ I1 x Hx) as (b & Cb & _). by exists b.
    + right. destruct (decide (b0 = a)) as [->|]; [exists b1|exists b0]; (split_and!; [done| |done]); set_solver.
  - exists a, b, s2. split.
    { erewrite bind_ret_eq by exact E1. by erewrite bind_ret_eq by exact E2. }
    assert (a <> b) as Nab by set_solver. split_and!; try done.
    + eapply holds_core; [by apply G2|done].
    + congruence.
    + by eapply frame_trans.
Qed.

Lemma bread_two_then {A} s a b s2 lb x (k : nat -> nat -> K A) :
  (let* a := bread (S fuel) ROOTDEV lb in let* b := bread (S fuel) ROOTDEV x in ret (a, b)) s = Ret (a, b) s2 ->
  (let* a := bread (S fuel) ROOTDEV lb in let* b := bread (S fuel) ROOTDEV x in k a b) s = k a b s2.
Proof.
  unfold bind. generalize (bread (S fuel) ROOTDEV lb s). intros r. destruct r as [a' s1| |s1 k1|]; simpl; try done.
  generalize (bread (S fuel) ROOTDEV x s1). intros r. destruct r as [b' s3| |s3 k3|]; simpl; try done. by intros [= <- <- <-].
Qed.

Lemma write_log_step s P D dirty lb x :
  cache s pid ∅ P D dirty -> calm s pid -> lb <> x -> has_free P -> x ∈ dirty -> lb ∉ dirty ->
  exists s', (let* to := bread (S fuel) ROOTDEV lb in
    let* from := bread (S fuel) ROOTDEV x in
    let* fv := get_buf from in
    mod_buf to (set_b_data (b_data fv)) ;;; bwrite to ;;; brelse from ;;; brelse to) s = Ret tt s'
  /\ cache s' pid ∅ P (fupd D lb (D x)) dirty /\ k_disk s' = (lb, D x) :: k_disk s /\ frame s s'.
Proof.
  intros I C Hne Hfree Hx Hlb.
  destruct (bread_two s P D dirty lb x I C Hne Hfree ltac:(by left)) as (a & b & s2 & E2 & Nab & I2 & Ha & Hb & HPa & HPb & K2 & F2).
  rewrite (bread_two_then s a b s2 lb x _ E2). erewrite bind_ret_eq by reflexivity.
  rewrite (proj2 (proj2 Hb)). erewrite bind_ret_eq by reflexivity. pose proof (frame_calm _ _ _ F2 C) as C2.
  assert (a ∈ ({[b]} ∪ ({[a]} ∪ ∅) : gset nat)) as Ina by (apply elem_of_union_r, held_in).
  destruct (cache_modify s2 pid _ P D dirty I2 a (D x) lb _ Ina Ha) as (I3 & Ha3 & G3).
  set (s3 := upd_buf a (set_b_data (D x)) s2) in *. assert (calm s3 pid) as C3 by (by apply calm_upd_buf).
  destruct (bwrite_spec s3 pid _ P D dirty I3 C3 a lb _ Ina Ha3) as (s4 & E4 & I4 & G4 & K4 & F4); [apply I|].
  erewrite bind_ret_eq by exact E4. replace (dirty ∖ {[lb]}) with dirty in I4 by set_solver.
  assert (holds_buf s4 b x (fupd D lb (D x) x)) as Hb4.
  { rewrite fupd_ne by congruence. eapply holds_core; [|exact Hb]. rewrite G4. by apply G3. }
  pose proof (frame_calm _ _ _ F4 C3) as C4.
  destruct (brelse_spec s4 pid _ P _ dirty b x I4 C4 (held_in b _) Hb4 HPb) as (s5 & E5 & I5 & G5 & K5 & F5).
  erewrite bind_ret_eq by exact E5.
  assert (holds_buf s5 a lb (fupd D lb (D x) lb)) as Ha5.
  { rewrite fupd_eq. eapply holds_core; [by apply G5|]. eapply holds_core; [|exact Ha3]. by rewrite G4. }
  destruct (brelse_spec s5 pid _ P _ dirty a lb I5) as (s6 & E6 & I6 & _ & K6 & F6);
    [by eapply frame_calm|by apply held_still|done|done|].
  exists s6. split; [done|]. rewrite (proj1 (both_held a b)) in I6. split; [done|]. split.
  - rewrite K6, K5, K4. simpl. by rewrite K2.
  - eapply frame_trans; [exact F2|]. eapply frame_trans; [|exact F6]. eapply frame_trans; [|exact F5]. eapply frame_trans; [|exact F4]. done.
Qed.

(** The copy of install_trans, with the pin of a committed block given back. *)
Lemma install_step (recovering : bool) s P D dirty lb x :
  cache s pid ∅ P D dirty -> calm s pid -> lb <> x -> has_free P -> lb ∉ dirty ->
  (if recovering then x ∉ dirty /\ two_free P else x ∈ dirty) ->
  exists s' P', (let* lbuf := bread (S fuel) ROOTDEV lb in
    let* dbuf := bread (S fuel) ROOTDEV x in
    let* lv := get_buf lbuf in
    mod_buf dbuf (set_b_data (b_data lv)) ;;; bwrite dbuf ;;;
    (if recovering then skip else bunpin dbuf) ;;; brelse lbuf ;;; brelse dbuf) s = Ret tt s'
  /\ cache s' pid ∅ P' (fupd D x (D lb)) (dirty ∖ {[x]}) /\ k_disk s' = (x, D lb) :: k_disk s /\ frame s s'.
Proof.
  intros I C Hne Hfree Hlb Hrec.
  destruct (bread_two s P D dirty lb x I C Hne Hfree ltac:(destruct recovering; [by right; apply Hrec|by left])) as (a & b & s2 & E2 & Nab & I2 & Ha & Hb & HPa & HPb & K2 & F2).
  rewrite (bread_two_then s a b s2 lb x _ E2). erewrite bind_ret_eq by reflexivity.
  rewrite (proj2 (proj2 Ha)). erewrite bind_ret_eq by reflexivity. pose proof (frame_calm _ _ _ F2 C) as C2.
  pose proof (held_in b ({[a]} ∪ ∅)) as Inb.
  destruct (cache_modify s2 pid _ P D dirty I2 b (D lb) x _ Inb Hb) as (I3 & Hb3 & G3).
  set (s3 := upd_buf b (set_b_data (D lb)) s2) in *. assert (calm s3 pid) as C3 by (by apply calm_upd_buf).
  destruct (bwrite_spec s3 pid _ P D dirty I3 C3 b x _ Inb Hb3) as (s4 & E4 & I4 & G4 & K4 & F4); [apply I|].
  erewrite bind_ret_eq by exact E4. pose proof (frame_calm _ _ _ F4 C3) as C4.
  assert (holds_buf s4 b x (D lb)) as Hb4 by (eapply holds_core; [|exact Hb3]; by rewrite G4).
  assert (holds_buf s4 a lb (D lb)) as Ha4 by (eapply holds_core; [|exact Ha]; rewrite G4; by apply G3).
  assert (x ∉ dirty ∖ {[x]}) as Hx by set_solver.
  assert (exists s5 P', (if recovering then skip else bunpin b) s4 = Ret tt s5
    /\ cache s5 pid ({[b]} ∪ ({[a]} ∪ ∅)) P' (fupd D x (D lb)) (dirty ∖ {[x]}) /\ P' a = 0 /\ P' b = 0
    /\ holds_buf s5 b x (D lb) /\ holds_buf s5 a lb (D lb) /\ k_disk s5 = k_disk s4 /\ frame s4 s5) as (s5 & P' & E5 & I5 & HPa5 & HPb5 & Hb5 & Ha5 & K5 & F5).
  { unfold dec_bool in HPa, HPb. rewrite decide_False in HPa by done. destruct recovering.
    { destruct Hrec. rewrite decide_False in HPb by done. by exists s4, P. }
    rewrite decide_True in HPb by done.
    destruct (bunpin_spec s4 pid _ P _ _ I4 C4 b x _ Inb Hb4) as (s5 & E5 & I5 & H5 & G5 & K5 & F5); [done|lia|].
    exists s5, (nupd P b (P b - 1)). rewrite nupd_eq, nupd_ne by done.
    refine (conj _ (conj _ (conj _ (conj _ (conj _ (conj _ (conj _ _))))))); try done; try lia. eapply holds_core; [by apply G5|done]. }
  erewrite bind_ret_eq by exact E5. pose proof (frame_calm _ _ _ F5 C4) as C5.
  assert (D lb = fupd D x (D lb) lb) as El by (by rewrite fupd_ne). rewrite El in Ha5.
  destruct (brelse_spec s5 pid _ P' _ _ a lb I5 C5) as (s6 & E6 & I6 & G6 & K6 & F6);
    [apply elem_of_union_r, held_in|done|rewrite HPa5; unfold dec_bool; rewrite decide_False by set_solver; done|].
  erewrite bind_ret_eq by exact E6.
  assert (holds_buf s6 b x (fupd D x (D lb) x)) as Hb6 by (rewrite fupd_eq; eapply holds_core; [apply G6; congruence|done]).
  destruct (brelse_spec s6 pid _ P' _ _ b x I6) as (s7 & E7 & I7 & _ & K7 & F7);
    [by eapply frame_calm|apply held_still; [congruence|done]|done|rewrite HPb5; unfold dec_bool; by rewrite decide_False|].
  exists s7, P'. split; [done|]. rewrite (proj2 (both_held a b)) in I7. split; [done|]. split.
  - rewrite K7, K6, K5, K4. simpl. by rewrite K2.
  - eapply frame_trans; [exact F2|]. eapply frame_trans; [|exact F7]. eapply frame_trans; [|exact F6].
    eapply frame_trans; [|exact F5]. eapply frame_trans; [|exact F4]. done.
Qed.

Lemma home_at l i : 0 <= i < l_n l -> homes l !! Z.to_nat i = Some (lh_block l i).
Proof.
  intros Hi. unfold homes. apply list_lookup_fmap_Some. exists i. split; [done|]. apply lookup_seqZ. lia.
Qed.

Lemma homes_length l : 0 <= l_n l -> Z.of_nat (length (homes l)) = l_n l.
Proof. intros H. unfold homes. rewrite length_map, length_seqZ. lia. Qed.

Lemma home_ok l i : homes_ok start (homes l) -> 0 <= i < l_n l ->
  0 <= lh_block l i < 2 ^ 31 /\ data_block start (lh_block l i) /\ l_n l <= LOGBLOCKS.
Proof.
  intros (_ & Hlen & Hok) Hi. rewrite homes_length in Hlen by lia. rewrite Forall_forall in Hok.
  destruct (Hok (lh_block l i)); [|done]. eapply list_elem_of_lookup_2, home_at, Hi.
Qed.

(** write_log copies the blocks of the transaction to the log, and touches no
    other block of the disk. *)
Lemma write_log_spec s P D dirty :
  cache s pid ∅ P D dirty -> calm s pid -> log_at s start -> homes_ok start (homes (k_log s)) -> 0 <= l_n (k_log s) ->
  (size dirty < bhead)%nat -> (forall x, x ∈ dirty <-> x ∈ homes (k_log s)) ->
  exists s' D', write_log (S fuel) s = Ret tt s' /\ cache s' pid ∅ P D' dirty /\ frame s s'
  /\ at_every_crash (k_disk s) (k_disk s') (same_on (fun bn => ~ log_block start bn) (k_disk s))
  /\ (forall bn, ~ log_block start bn -> D' bn = D bn)
  /\ (forall i, 0 <= i < l_n (k_log s) -> D' (start + i + 1) = D (lh_block (k_log s) i)).
Proof.
  intros I C (Edev & Est & Hst & Hst') Hok Hn Hfree Hdirty. set (l := k_log s) in *.
  unfold write_log. erewrite bind_ret_eq by reflexivity. fold l. rewrite Edev, Est.
  for_inv (fun i s' => exists D', cache s' pid ∅ P D' dirty /\ frame s s'
      /\ at_every_crash (k_disk s) (k_disk s') (same_on (fun bn => ~ log_block start bn) (k_disk s))
      /\ (forall bn, ~ log_block start bn -> D' bn = D bn)
      /\ (forall j, 0 <= j < i -> D' (start + j + 1) = D (lh_block l j))).
  destruct Hloop as (s' & E & D' & HJ); [done| | |by exists s', D'].
  { exists D. split; [done|]. split; [done|]. split; [by apply crash_start, same_refl|]. split; [done|lia]. }
  intros i s1 Hi (D1 & I1 & F1 & A1 & N1 & L1).
  destruct (home_ok l i Hok Hi) as (R & Hdata & Hle).
  assert (log_block start (start + i + 1)) as Hlb by (unfold log_block; lia).
  assert (~ log_block start (lh_block l i)) as Hx by (unfold log_block, data_block in *; lia).
  rewrite (uint32_small (start + i + 1)), (uint32_small (lh_block l i)) by lia.
  destruct (write_log_step s1 P D1 dirty (start + i + 1) (lh_block l i) I1) as (s2 & E2 & I2 & K2 & F2); [by eapply frame_calm| |by eapply cache_free| | |].
  { intros E0. by rewrite E0 in Hlb. }
  { apply Hdirty. eapply list_elem_of_lookup_2, home_at, Hi. }
  { rewrite Hdirty. intros (y & Ey & Hy%elem_of_seqZ)%list_elem_of_fmap. destruct (home_ok l y Hok) as (_ & ? & _); [lia|]. unfold log_block, data_block in *. lia. }
  exists s2. split; [exact E2|]. eexists. split; [exact I2|]. split; [by eapply frame_trans|]. split_and!.
  - rewrite K2. apply crash_write; [done|]. apply same_write; [by eapply crash_end|tauto|apply I1].
  - intros bn Hbn. rewrite fupd_ne by (by intros ->). by apply N1.
  - intros j Hj. destruct (decide (j = i)) as [->|]; [by rewrite fupd_eq, N1|]. rewrite fupd_ne by lia. apply L1. lia.
Qed.

Lemma homes_inj l i j : homes_ok start (homes l) -> 0 <= i < l_n l -> 0 <= j < l_n l -> lh_block l i = lh_block l j -> i = j.
Proof.
  intros (Hnd & _) Hi Hj E. pose proof (home_at l i Hi) as H1. pose proof (home_at l j Hj) as H2. rewrite E in H1.
  pose proof (NoDup_lookup _ _ _ _ Hnd H1 H2). lia.
Qed.

Lemma home_in l x : x ∈ homes l <-> exists i, 0 <= i < l_n l /\ lh_block l i = x.
Proof.
  unfold homes. rewrite list_elem_of_fmap. split.
  - intros (i & -> & Hi%elem_of_seqZ). exists i. split; [lia|done].
  - intros (i & Hi & <-). exists i. split; [done|]. apply elem_of_seqZ. lia.
Qed.

Lemma recovering_message (recovering : bool) fmt args s : calm s pid ->
  exists out, (if recovering then let* _ := printf fmt args in skip else skip) s = Ret tt (set_k_out out s).
Proof.
  intros C. destruct recovering; [|exists (k_out s); by destruct s].
  destruct (printf_spec fmt args s) as (out & E); [rewrite (calm_held _ _ C); set_solver|]. exists out. by erewrite bind_ret_eq by exact E.
Qed.

(** install_trans copies the log to the home blocks and touches no other block;
    at the end no buffer is newer than the disk. *)
Lemma install_trans_spec (recovering : bool) s P D dirty :
  cache s pid ∅ P D dirty -> calm s pid -> log_at s start -> homes_ok start (homes (k_log s)) -> 0 <= l_n (k_log s) ->
  (size dirty < bhead)%nat -> (forall x, x ∈ dirty <-> recovering = false /\ x ∈ homes (k_log s)) ->
  exists s' P' D', install_trans (S fuel) recovering s = Ret tt s' /\ cache s' pid ∅ P' D' ∅ /\ frame s s'
  /\ at_every_crash (k_disk s) (k_disk s') (same_on (fun bn => bn ∉ homes (k_log s)) (k_disk s))
  /\ (forall bn, bn ∉ homes (k_log s) -> D' bn = D bn)
  /\ (forall i, 0 <= i < l_n (k_log s) -> D' (lh_block (k_log s) i) = D (start + i + 1)).
Proof.
  intros I C (Edev & Est & Hst & Hst') Hok Hn Hsz Hdirty. set (l := k_log s) in *.
  unfold install_trans. erewrite bind_ret_eq by reflexivity. fold l. rewrite Edev, Est.
  for_inv (fun i s' => exists P' D' dirty', cache s' pid ∅ P' D' dirty' /\ frame s s'
      /\ at_every_crash (k_disk s) (k_disk s') (same_on (fun bn => bn ∉ homes l) (k_disk s))
      /\ (forall bn, bn ∉ homes l -> D' bn = D bn)
      /\ (forall j, 0 <= j < i -> D' (lh_block l j) = D (start + j + 1))
      /\ (forall x, x ∈ dirty' <-> recovering = false /\ exists j, i <= j < l_n l /\ lh_block l j = x)).
  destruct Hloop as (s' & E & P' & D' & dirty' & I' & F & A & N & L & Hd); [done| | |].
  { exists P, D, dirty. split; [done|]. split; [done|]. split; [by apply crash_start, same_refl|]. split; [done|].
    split; [lia|]. intros x. by rewrite Hdirty, home_in. }
  2: { exists s', P', D'. assert (dirty' = ∅) as ->; [|done].
       apply elem_of_equiv_empty_L. intros x (_ & j & Hj & _)%Hd. lia. }
  intros i s1 Hi (P1 & D1 & dirty1 & I1 & F1 & A1 & N1 & L1 & Hd1).
  destruct (home_ok l i Hok Hi) as (R & Hdata & Hle).
  assert (start + i + 1 ∉ homes l) as Hlb.
  { intros (j & Hj & Ej)%home_in. destruct (home_ok l j Hok Hj) as (_ & ? & _). unfold data_block in *. lia. }
  assert (lh_block l i ∈ homes l) as Hin by (apply home_in; by exists i).
  assert (forall x, x ∈ dirty1 -> x ∈ dirty) as Hsub.
  { intros x (Hr & j & Hj & <-)%Hd1. apply Hdirty. split; [done|]. apply home_in. exists j. split; [lia|done]. }
  assert (size dirty1 <= size dirty)%nat as Hle1 by (by apply subseteq_size).
  rewrite (uint32_small (start + i + 1)), (uint32_small (lh_block l i)) by lia.
  destruct (recovering_message recovering ("recovering tail %d dst %d" +:+ nl) [AInt i; AInt (lh_block l i)] s1) as (out & Eo); [by eapply frame_calm|].
  erewrite bind_ret_eq by exact Eo. apply (cache_out _ _ _ _ _ _ out) in I1.
  destruct (install_step recovering _ P1 D1 dirty1 (start + i + 1) (lh_block l i) I1) as (s2 & P2 & E2 & I2 & K2 & F2).
  - eapply frame_calm, C. exact F1.
  - intros E0. by rewrite <- E0 in Hin.
  - eapply cache_free; [exact I1|lia].
  - intros (_ & Hx)%Hsub%Hdirty. done.
  - destruct recovering.
    + split; [by intros [? _]%Hd1|]. eapply cache_two_free. assert (dirty1 = ∅) as <-; [|exact I1]. apply elem_of_equiv_empty_L. by intros x [? _]%Hd1.
    + apply Hd1. split; [done|]. exists i. split; [lia|done].
  - exists s2. split; [exact E2|]. eexists P2, _, _. split; [exact I2|]. split; [by eapply frame_trans; [exact F1|]|]. split_and!.
    + rewrite K2. apply crash_write; [done|]. apply same_write; [by eapply crash_end|tauto|apply I1].
    + intros bn Hbn. rewrite fupd_ne by (by intros ->). by apply N1.
    + intros j Hj. destruct (decide (j = i)) as [->|]; [rewrite fupd_eq; by apply N1|]. rewrite fupd_ne; [apply L1; lia|].
      intros E0. assert (j = i); [|done]. apply (homes_inj l); [done|lia|lia|done].
    + intros x. rewrite elem_of_difference, elem_of_singleton, Hd1. split.
      * intros [(-> & j & Hj & <-) Hx]. split; [done|]. exists j. split; [|done]. assert (j <> i) by congruence. lia.
      * intros (-> & j & Hj & <-). split; [split; [done|]; exists j; split; [lia|done]|].
        intros E0. assert (j = i); [|lia]. apply (homes_inj l); [done|lia|lia|done].
Qed.

(** ** Commit *)

(** The last two steps of commit and recovery: the empty header. *)
Lemma clear_head s P D :
  cache s pid ∅ P D ∅ -> calm s pid -> log_at s start ->
  exists s', (mod_log (set_l_n 0) ;;; write_head (S fuel)) s = Ret tt s'
  /\ cache s' pid ∅ P (fupd D start (hdr (set_l_n 0 (k_log s)) (D start))) ∅
  /\ k_disk s' = (start, hdr (set_l_n 0 (k_log s)) (D start)) :: k_disk s /\ env s' = env s /\ k_log s' = set_l_n 0 (k_log s)
  /\ length (hdr (set_l_n 0 (k_log s)) (D start)) = Z.to_nat BSIZE /\ hb_n (hdr (set_l_n 0 (k_log s)) (D start)) = 0.
Proof.
  intros I C H. erewrite bind_ret_eq by reflexivity.
  destruct (write_head_spec (set_k_log (set_l_n 0 (k_log s)) s) P D ∅) as (s' & E & I' & K & F & El & _); try done.
  - by apply cache_log.
  - by eapply calm_env.
  - apply homes_ok_nil.
  - eapply cache_free; [exact I|]. rewrite size_empty. assert (bhead = 30%nat) as -> by done. lia.
  - exists s'. destruct (hdr_spec (set_l_n 0 (k_log s)) (D start)) as (L & N & _); [apply I|done|simpl; lia|]. by split_and!.
Qed.

(** The committed disk: the header names the homes, the log blocks have the new
    contents. *)
Lemma reads_committed C l d :
  sized d -> 0 <= l_n l -> hb_n (disk_block d start) = l_n l -> hdr_homes (disk_block d start) = homes l -> homes_ok start (homes l) ->
  (forall bn, data_block start bn -> bn ∉ homes l -> disk_block d bn = C bn) ->
  (forall i, 0 <= i < l_n l -> disk_block d (start + i + 1) = C (lh_block l i)) ->
  reads_as start C d.
Proof.
  intros Hz Hn En Eh Hok H1 H2. unfold reads_as, log_view. rewrite En, Eh. split_and!; try done. intros bn Hbn.
  destruct (decide (bn ∈ homes l)) as [Hin|Hin]; [|by rewrite log_slot_none, H1].
  pose proof Hok as (Hnd & _). apply home_in in Hin as (i & Hi & <-).
  rewrite (log_slot_lookup _ _ _ _ Hnd (home_at l i Hi)). rewrite <- H2 by done. f_equal. lia.
Qed.

Lemma not_data_start : ~ data_block start start.
Proof. assert (LOGBLOCKS = 30) by done. unfold data_block. lia. Qed.

Lemma dirty_data l (dirty : gset Z) x : homes_ok start (homes l) -> (forall x, x ∈ dirty -> x ∈ homes l) ->
  ~ data_block start x -> x ∉ dirty.
Proof. intros Hok Hd Hx Hin. apply Hd, home_in in Hin as (i & Hi & <-). by destruct (home_ok l i Hok Hi) as (_ & ? & _). Qed.

(** What a committed disk means, read in the cache. *)
Lemma reads_homes s P D dirty C l :
  cache s pid ∅ P D dirty -> reads_as start C (k_disk s) -> hdr_homes (disk_block (k_disk s) start) = homes l ->
  (forall x, x ∈ dirty -> x ∈ homes l) ->
  (forall i, 0 <= i < l_n l -> D (start + i + 1) = C (lh_block l i))
  /\ (forall bn, data_block start bn -> bn ∉ homes l -> D bn = C bn).
Proof.
  intros I (_ & _ & Hok & Hv) Eh Hd. rewrite Eh in Hok. split.
  - intros i Hi. destruct (home_ok l i Hok Hi) as (_ & Hb & ?). rewrite <- Hv by done. unfold log_view.
    rewrite Eh, (log_slot_lookup _ _ _ _ (proj1 Hok) (home_at l i Hi)), (ca_disk _ _ _ _ _ _ I).
    + f_equal. lia.
    + eapply dirty_data; [exact Hok|done|]. unfold data_block. lia.
  - intros bn Hbn Hnh. rewrite <- Hv by done. unfold log_view. rewrite Eh, log_slot_none by done.
    apply (ca_disk _ _ _ _ _ _ I). auto.
Qed.

(** The second half of commit, and recovery after read_head: the meaning of the
    disk does not change, and at the end it is what the blocks contain. *)
Lemma install_and_clear recovering s P D dirty C :
  cache s pid ∅ P D dirty -> calm s pid -> log_at s start -> 0 <= l_n (k_log s) -> (size dirty < bhead)%nat -> (forall x, x ∈ dirty <-> recovering = false /\ x ∈ homes (k_log s)) ->
  reads_as start C (k_disk s) -> hdr_homes (disk_block (k_disk s) start) = homes (k_log s) ->
  exists s' P' D', (install_trans (S fuel) recovering ;;; mod_log (set_l_n 0) ;;; write_head (S fuel)) s = Ret tt s'
  /\ at_every_crash (k_disk s) (k_disk s') (reads_as start C)
  /\ cache s' pid ∅ P' D' ∅ /\ (forall bn, data_block start bn -> D' bn = C bn)
  /\ hb_n (disk_block (k_disk s') start) = 0 /\ env s' = env s /\ k_log s' = set_l_n 0 (k_log s).
Proof.
  intros I Cm Hat Hn Hsz Hdirty R Eh. set (l := k_log s) in *.
  pose proof R as (Hz & _ & Hok & _). rewrite Eh in Hok.
  destruct (reads_homes s P D dirty C l I R Eh) as [HL HD]; [intros x Hx; by apply Hdirty in Hx as [_ ?]|].
  destruct (install_trans_spec recovering s P D dirty) as (s1 & P1 & D1 & E1 & I1 & F1 & A1 & N1 & L1); try done.
  erewrite bind_ret_eq by exact E1. pose proof F1 as (V1 & G1 & _). fold l in G1, L1, N1, A1.
  destruct (clear_head s1 P1 D1) as (s2 & E2 & I2 & K2 & V2 & G2 & Lz & Nz);
    [done|by eapply frame_calm|unfold log_at; by rewrite G1|].
  rewrite G1 in *. set (empty := hdr (set_l_n 0 l) (D1 start)) in *.
  assert (forall bn, data_block start bn -> bn <> start) as Hne by (intros bn Hbn ->; by apply not_data_start).
  assert (forall bn, data_block start bn -> D1 bn = C bn) as HD1.
  { intros bn Hbn. destruct (decide (bn ∈ homes l)) as [Hin|Hin]; [|rewrite N1 by done; by apply HD].
    apply home_in in Hin as (i & Hi & <-). rewrite L1 by done. by apply HL. }
  exists s2, P1, (fupd D1 start empty). refine (conj E2 (conj _ (conj I2 (conj _ (conj _ (conj _ G2)))))).
  - rewrite K2. apply crash_write.
    + eapply crash_mono; [exact A1|]. intros d' Hd'. eapply reads_installing; [exact R|]. by rewrite Eh.
    + apply reads_empty; cbn [disk_block]; [apply sized_write; [by apply (crash_end _ _ _ A1)|done]|by rewrite Z.eqb_refl|].
      intros bn Hbn. rewrite (proj2 (Z.eqb_neq start bn)) by (intros <-; by eapply Hne).
      rewrite <- HD1 by done. symmetry. by apply I1.
  - intros bn Hbn. rewrite fupd_ne by auto. by apply HD1.
  - rewrite K2. cbn [disk_block]. by rewrite Z.eqb_refl.
  - by rewrite V2.
Qed.

(** The first half of commit: the header's write is the commit point. *)
Lemma commit_point s P D dirty :
  cache s pid ∅ P D dirty -> calm s pid -> log_at s start -> homes_ok start (homes (k_log s)) -> 0 < l_n (k_log s) ->
  (size dirty < bhead)%nat -> (forall x, x ∈ dirty <-> x ∈ homes (k_log s)) -> sized (k_disk s) -> hb_n (disk_block (k_disk s) start) = 0 ->
  exists s' D' d1 head, (write_log (S fuel) ;;; write_head (S fuel)) s = Ret tt s' /\ k_disk s' = (start, head) :: d1
  /\ at_every_crash (k_disk s) d1 (reads_as start (disk_block (k_disk s)))
  /\ reads_as start D (k_disk s') /\ hdr_homes (disk_block (k_disk s') start) = homes (k_log s)
  /\ cache s' pid ∅ P D' dirty /\ frame s s'.
Proof.
  intros I C Hat Hok Hn Hfree Hdirty Hz Hh. set (l := k_log s) in *.
  assert (forall x, ~ data_block start x -> x ∉ dirty) as Hnd by (intros x; eapply dirty_data; [done|]; intros y; by rewrite Hdirty).
  destruct (write_log_spec s P D dirty) as (s1 & D1 & E1 & I1 & F1 & A1 & N1 & L1); try done; [by apply Z.lt_le_incl|].
  erewrite bind_ret_eq by exact E1. pose proof F1 as (V1 & G1 & _). fold l in G1, L1.
  destruct (write_head_spec s1 P D1 dirty) as (s2 & E2 & I2 & K2 & F2); try done;
    [by eapply frame_calm|unfold log_at; by rewrite G1|by rewrite G1|apply Hnd, not_data_start|by eapply cache_free|rewrite G1; lia|].
  rewrite G1 in *.
  destruct (hdr_spec l (D1 start)) as (Lh & Nh & Hhd); [apply I1|destruct (home_ok l 0 Hok) as (_ & _ & ?); lia|intros i Hi; by apply home_ok|].
  set (head := hdr l (D1 start)) in *.
  assert (disk_block (k_disk s2) start = head) as Ehead by (rewrite K2; cbn [disk_block]; by rewrite Z.eqb_refl).
  assert (forall bn, bn ∉ dirty -> bn <> start -> disk_block (k_disk s2) bn = D1 bn) as Hc2.
  { intros bn Hbn Hne. rewrite <- (ca_disk _ _ _ _ _ _ I2) by done. by rewrite fupd_ne. }
  exists s2, (fupd D1 start head), (k_disk s1), head. rewrite Ehead.
  refine (conj E2 (conj K2 (conj _ (conj _ (conj Hhd (conj I2 (frame_trans _ _ _ F1 F2))))))).
  - eapply crash_mono; [exact A1|]. intros d' Hd'. by eapply reads_logging.
  - apply (reads_committed D l); rewrite ?Ehead; try done.
    + rewrite K2. apply sized_write; [by apply (crash_end _ _ _ A1)|done].
    + lia.
    + intros bn Hbn Hnh. rewrite Hc2; [|by rewrite Hdirty|intros ->; by apply not_data_start]. apply N1. unfold log_block, data_block in *. lia.
    + intros i Hi. destruct (home_ok l i Hok Hi) as (_ & _ & ?). rewrite Hc2; [by apply L1|apply Hnd; unfold data_block; lia|lia].
Qed.

(** commit: the disk means the old contents until the header is written, and the
    new ones from then on; at the end they are installed and the log is empty. *)
Lemma commit_run s P D dirty :
  cache s pid ∅ P D dirty -> calm s pid -> log_at s start -> homes_ok start (homes (k_log s)) -> 0 < l_n (k_log s) ->
  (size dirty < bhead)%nat -> (forall x, x ∈ dirty <-> x ∈ homes (k_log s)) -> sized (k_disk s) -> hb_n (disk_block (k_disk s) start) = 0 ->
  exists s' P' D' d1 head, commit (S fuel) s = Ret tt s'
  /\ at_every_crash (k_disk s) d1 (reads_as start (disk_block (k_disk s)))
  /\ at_every_crash ((start, head) :: d1) (k_disk s') (reads_as start D)
  /\ cache s' pid ∅ P' D' ∅ /\ (forall bn, data_block start bn -> D' bn = D bn)
  /\ hb_n (disk_block (k_disk s') start) = 0 /\ env s' = env s /\ k_log s' = set_l_n 0 (k_log s).
Proof.
  intros I C Hat Hok Hn Hfree Hdirty Hz Hh.
  destruct (commit_point s P D dirty) as (s1 & D1 & d1 & head & E1 & K1 & A1 & R1 & Eh & I1 & F1); try done.
  pose proof F1 as (V1 & G1 & _).
  destruct (install_and_clear false s1 P D1 dirty D) as (s2 & P2 & D2 & E2 & A2 & I2 & HD & Hz2 & V2 & G2); try done;
    [by eapply frame_calm|unfold log_at; by rewrite G1|rewrite G1; lia|intros x; rewrite G1, Hdirty; naive_solver|by rewrite G1|].
  exists s2, P2, D2, d1, head. rewrite <- K1. refine (conj _ (conj A1 (conj A2 (conj I2 (conj HD (conj Hz2 (conj _ _))))))).
  - unfold commit. erewrite bind_ret_eq by reflexivity. rewrite (proj2 (Z.ltb_lt 0 (l_n (k_log s)))) by done.
    rewrite <- E2. exact (bind_bind_eq _ _ _ _ _ _ E1).
  - by rewrite V2.
  - by rewrite G2, G1.
Qed.

(** ** Recovery *)

Lemma set_lh_block_spec l i v j : 0 <= i < Z.of_nat (length (l_block l)) -> 0 <= j ->
  lh_block (set_lh_block i v l) j = if i =? j then v else lh_block l j.
Proof.
  intros Hi Hj. unfold lh_block, set_lh_block, byte_at. simpl. destruct (Z.eqb_spec i j) as [<-|Hne].
  - by rewrite list_lookup_insert_eq by lia.
  - by rewrite list_lookup_insert_ne by lia.
Qed.

(** What read_head leaves in [log] of the header block [d]. *)
Definition header_read (l : log) (d : list Z) (i : Z) (l' : log) : Prop :=
  l_n l' = hb_n d /\ l_dev l' = l_dev l /\ l_start l' = l_start l /\ length (l_block l') = length (l_block l)
  /\ (l_outstanding l' = l_outstanding l /\ l_committing l' = l_committing l) /\ forall j, 0 <= j < i -> lh_block l' j = hb_block d j.

Lemma read_head_spec s P D dirty :
  cache s pid ∅ P D dirty -> calm s pid -> log_at s start -> has_free P -> 0 <= hb_n (D start) <= Z.of_nat (length (l_block (k_log s))) ->
  exists s', read_head (S fuel) s = Ret tt s' /\ cache s' pid ∅ P D dirty /\ log_at s' start /\ l_n (k_log s') = hb_n (D start)
  /\ homes (k_log s') = hdr_homes (D start) /\ length (l_block (k_log s')) = length (l_block (k_log s))
  /\ (l_outstanding (k_log s') = l_outstanding (k_log s) /\ l_committing (k_log s') = l_committing (k_log s)) /\ k_disk s' = k_disk s /\ env s' = env s.
Proof.
  intros I C (Edev & Est & Hst & Hst') Hfree Hn. unfold read_head. erewrite bind_ret_eq by reflexivity.
  assert (LOGBLOCKS = 30) as EL by done. rewrite Edev, Est, uint32_small by lia.
  destruct (bread_spec s pid ∅ P D dirty I fuel start C) as (b & s1 & E1 & I1 & _ & H1 & HP1 & _ & K1 & F1);
    [by apply not_held_empty|by apply free_room|].
  erewrite bind_ret_eq by exact E1. erewrite bind_ret_eq by reflexivity. erewrite bind_ret_eq by reflexivity.
  rewrite (proj2 (proj2 H1)). pose proof F1 as (V1 & G1 & _). set (d := D start) in *.
  lazymatch goal with |- context [bind (for_all _ ?body) _ ?s0] =>
    destruct (for_all_inv (hb_n d) body (fun i s' => exists l', s' = set_k_log l' s1 /\ header_read (k_log s) d i l') s0) as (s2 & E2 & l' & -> & L1 & L2 & L3 & L4 & Lop & L5) end.
  - lia.
  - eexists. split; [reflexivity|]. unfold header_read. simpl. rewrite G1. split_and!; try done. lia.
  - intros i s' Hi (l' & -> & L1 & L2 & L3 & L4 & Lop & L5). eexists. split; [reflexivity|]. eexists. split; [reflexivity|].
    unfold header_read. split_and!; try done; try apply Lop.
    + rewrite <- L4. apply length_insert.
    + intros j Hj. simpl. rewrite set_lh_block_spec by lia. destruct (Z.eqb_spec i j) as [<-|]; [done|]. apply L5. lia.
  - erewrite bind_ret_eq by exact E2.
    destruct (brelse_spec (set_k_log l' s1) pid ({[b]} ∪ ∅) P D dirty b start) as (s3 & E3 & I3 & _ & K3 & V3 & G3 & _);
      [by apply cache_log|eapply calm_env; [exact C|exact V1]|apply held_in|done|done|].
    rewrite empty_held in I3. exists s3. simpl in G3. split; [exact E3|]. split; [exact I3|]. unfold log_at. rewrite G3, L1, L2, L3, L4.
    split_and!; try done; try apply Lop.
    + unfold homes, hdr_homes. rewrite L1. apply map_ext_in. intros i Hi%list_elem_of_In%elem_of_seqZ. apply L5. lia.
    + rewrite K3. simpl. done.
    + rewrite V3. exact V1.
Qed.

(** recover_from_log: at every moment the disk means what it meant, and at the
    end the blocks contain it and the log is empty. *)
Lemma recover_run s P C :
  cache s pid ∅ P (disk_block (k_disk s)) ∅ -> calm s pid -> log_at s start ->
  length (l_block (k_log s)) = Z.to_nat LOGBLOCKS -> reads_as start C (k_disk s) ->
  exists s' P' D', recover_from_log (S fuel) s = Ret tt s'
  /\ at_every_crash (k_disk s) (k_disk s') (reads_as start C)
  /\ cache s' pid ∅ P' D' ∅ /\ (forall bn, data_block start bn -> D' bn = C bn)
  /\ hb_n (disk_block (k_disk s') start) = 0 /\ env s' = env s /\ l_n (k_log s') = 0 /\ log_at s' start
  /\ length (l_block (k_log s')) = Z.to_nat LOGBLOCKS
  /\ l_outstanding (k_log s') = l_outstanding (k_log s) /\ l_committing (k_log s') = l_committing (k_log s).
Proof.
  intros I Cm Hat Hl R. pose proof R as (_ & Hn & (_ & Hlen & _) & _).
  assert (size (∅ : gset Z) < bhead)%nat as Hsz by (rewrite size_empty; assert (bhead = 30%nat) as -> by done; lia).
  unfold hdr_homes in Hlen. rewrite length_map, length_seqZ in Hlen.
  destruct (read_head_spec s P _ ∅ I Cm Hat (cache_free _ _ _ _ _ I Hsz)) as (s1 & E1 & I1 & At1 & N1 & H1 & L1 & [Lo1 Lc1] & K1 & V1); [lia|].
  destruct (install_and_clear true s1 P _ ∅ C I1) as (s2 & P2 & D2 & E2 & A2 & I2 & HD & Hz2 & V2 & G2); try done.
  { by eapply calm_env. } { by rewrite N1. } { intros x. split; [set_solver|naive_solver]. } { by rewrite K1. } { by rewrite K1. }
  exists s2, P2, D2. rewrite K1 in A2. refine (conj _ (conj A2 (conj I2 (conj HD (conj Hz2 (conj _ (conj _ (conj _ (conj _ (conj _ _)))))))))).
  - unfold recover_from_log. by erewrite bind_ret_eq by exact E1.
  - by rewrite V2.
  - by rewrite G2.
  - unfold log_at. by rewrite G2.
  - rewrite G2. simpl. by rewrite L1.
  - by rewrite G2.
  - by rewrite G2.
Qed.
End Functions.
