(* ===== verification/LogTxn.v ===== *)
(** * Transactions

    What the callers of log.c rely on.  A transaction reads blocks, changes them
    and passes them to log_write, between begin_op and end_op; whenever the
    machine stops, the disk means the contents before it or the contents after
    it, and a boot recovers that meaning. *)
From S2P Require Import Prelude State CString Kalloc Vm Sched Printf Bytes Bio BioSpec Log LogSpec.

Open Scope Z_scope.

(** ** log_write *)

Lemma log_index_spec l bn : forall n i,
  (forall j, i <= j < i + Z.of_nat n -> 0 <= lh_block l j < 2 ^ 31) ->
  let r := log_index n i l bn in
  i <= r <= i + Z.of_nat n /\ (r < i + Z.of_nat n -> lh_block l r = bn) /\ (forall j, i <= j < r -> lh_block l j <> bn).
Proof.
  induction n as [|n IH]; intros i Hl; cbn [log_index]; [split_and!; intros; lia|].
  rewrite uint32_small by (pose proof (Hl i); lia). destruct (Z.eqb_spec (lh_block l i) bn) as [E|E]; [split_and!; [lia|lia|done|lia]|].
  destruct (IH (i + 1)) as (H1 & H2 & H3); [intros j Hj; apply Hl; lia|]. split_and!; [lia|lia|intros Hr; apply H2; lia|].
  intros j Hj. destruct (decide (j = i)) as [->|]; [done|]. apply H3. lia.
Qed.

Lemma homes_ext l l' : l_n l' = l_n l -> (forall i, 0 <= i < l_n l -> lh_block l' i = lh_block l i) -> homes l' = homes l.
Proof. intros En E. unfold homes. rewrite En. apply map_ext_in. intros i Hi%list_elem_of_In%elem_of_seqZ. apply E. lia. Qed.

Lemma homes_snoc l l' bn : 0 <= l_n l -> l_n l' = l_n l + 1 -> (forall i, 0 <= i < l_n l -> lh_block l' i = lh_block l i) ->
  lh_block l' (l_n l) = bn -> homes l' = homes l ++ [bn].
Proof.
  intros Hn En E Eb. unfold homes. rewrite En. replace (l_n l + 1) with (Z.of_nat (S (Z.to_nat (l_n l)))) by lia.
  rewrite seqZ_S, map_app, Z2Nat.id, Z.add_0_l by lia. cbn [map]. rewrite Eb. f_equal.
  apply map_ext_in. intros i Hi%list_elem_of_In%elem_of_seqZ. apply E. lia.
Qed.

(** The header in memory after [bn] has been logged. *)
Definition logged (bn : Z) (l l' : log) : Prop :=
  homes l' = (if decide (bn ∈ homes l) then homes l else homes l ++ [bn])
  /\ l_n l' = (if decide (bn ∈ homes l) then l_n l else l_n l + 1)
  /\ l_dev l' = l_dev l /\ l_start l' = l_start l /\ l_outstanding l' = l_outstanding l /\ l_committing l' = l_committing l
  /\ length (l_block l') = length (l_block l).

Lemma log_slot_old l bn (i := log_index (Z.to_nat (l_n l)) 0 l bn) l' : 0 <= l_n l < Z.of_nat (length (l_block l)) ->
  (forall j, 0 <= j < l_n l -> 0 <= lh_block l j < 2 ^ 31) ->
  l' = set_lh_block i bn l ->
  (i < l_n l /\ bn ∈ homes l /\ logged bn l l') \/ (i = l_n l /\ bn ∉ homes l /\ logged bn l (set_l_n (l_n l + 1) l')).
Proof.
  intros Hn Hl ->. destruct (log_index_spec l bn (Z.to_nat (l_n l)) 0) as (H1 & H2 & H3); [intros j Hj; apply Hl; lia|]. fold i in H1, H2, H3.
  assert (forall j, 0 <= j -> lh_block (set_lh_block i bn l) j = if i =? j then bn else lh_block l j) as Es by (intros j Hj; apply set_lh_block_spec; lia).
  destruct (decide (i < l_n l)) as [Hi|Hi].
  - left. specialize (H2 ltac:(lia)). assert (bn ∈ homes l) as Hin by (apply home_in; exists i; split; [lia|done]).
    split; [done|]. split; [done|]. unfold logged. rewrite !decide_True by done. split_and!; try done; [|apply length_insert].
    apply homes_ext; [done|]. intros j Hj. rewrite Es by lia. by destruct (Z.eqb_spec i j) as [<-|].
  - right. assert (i = l_n l) as Ei by lia. assert (bn ∉ homes l) as Hin by (intros (j & Hj & Ej)%home_in; apply (H3 j); [lia|done]).
    split; [done|]. split; [done|]. unfold logged. rewrite !decide_False by done. split_and!; try done; [|apply length_insert].
    apply homes_snoc; [lia|done| |].
    + intros j Hj. change (lh_block (set_l_n (l_n l + 1) (set_lh_block i bn l)) j) with (lh_block (set_lh_block i bn l) j).
      rewrite Es by lia. by rewrite (proj2 (Z.eqb_neq i j)) by lia.
    + change (lh_block (set_l_n (l_n l + 1) (set_lh_block i bn l)) (l_n l)) with (lh_block (set_lh_block i bn l) (l_n l)).
      rewrite Es by lia. by rewrite Ei, Z.eqb_refl.
Qed.

(** ** The invariant of an operation *)
Section Operation.
Context (fuel : nat) (pid start : Z).

(** Inside [n] operations, none of them in the middle of a call: the header in
    memory names the blocks whose contents are newer in the cache. *)
Record in_op (n : Z) (s : kernel) (D : Z -> list Z) (dirty : gset Z) : Prop := {
  op_cache : exists P, cache s pid ∅ P D dirty;
  op_calm : calm s pid;
  op_at : log_at s start;
  op_homes : homes_ok start (homes (k_log s));
  op_n : 0 <= l_n (k_log s);
  op_dirty : forall x, x ∈ dirty <-> x ∈ homes (k_log s);
  op_out : l_outstanding (k_log s) = n;
  op_comm : l_committing (k_log s) = 0;
  op_len : length (l_block (k_log s)) = Z.to_nat LOGBLOCKS;
  op_head : hb_n (disk_block (k_disk s) start) = 0;
  op_sized : sized (k_disk s) }.

Lemma op_size n s D dirty : in_op n s D dirty -> Z.of_nat (size dirty) = l_n (k_log s).
Proof.
  intros O. assert (dirty = list_to_set (homes (k_log s))) as ->.
  { apply set_eq. intros x. rewrite elem_of_list_to_set. apply O. }
  rewrite size_list_to_set by apply (op_homes _ _ _ _ O). apply homes_length, O.
Qed.

Lemma homes_ok_snoc bl bn : homes_ok start bl -> bn ∉ bl -> Z.of_nat (length bl) < LOGBLOCKS ->
  0 <= bn < 2 ^ 31 -> data_block start bn -> homes_ok start (bl ++ [bn]).
Proof.
  intros (H1 & H2 & H3) Hb Hl Hr Hd. split.
  - apply NoDup_app. split_and!; [done| |apply NoDup_singleton]. intros x Hx ->%list_elem_of_singleton. done.
  - split; [rewrite length_app; simpl; lia|]. apply Forall_app. split; [done|]. by constructor; [|constructor].
Qed.

(** log_write, for a buffer that has been changed. *)
Lemma log_write_spec s (H : gset nat) P D dirty b bn data :
  cache s pid H P D dirty -> b ∈ H -> calm s pid -> holds_buf s b bn data -> length data = Z.to_nat BSIZE -> P b = dec_bool (bn ∈ dirty) ->
  homes_ok start (homes (k_log s)) -> (forall x, x ∈ dirty <-> x ∈ homes (k_log s)) ->
  0 <= l_n (k_log s) < LOGBLOCKS -> length (l_block (k_log s)) = Z.to_nat LOGBLOCKS ->
  1 <= l_outstanding (k_log s) -> 0 <= bn < 2 ^ 31 ->
  exists s' P', log_write b s = Ret tt s' /\ cache s' pid H P' (fupd D bn data) ({[bn]} ∪ dirty) /\ holds_buf s' b bn data
  /\ P' b = 1 /\ logged bn (k_log s) (k_log s') /\ k_disk s' = k_disk s /\ env s' = env s
  /\ forall b', b' <> b -> core (getbuf s' b') = core (getbuf s b') /\ P' b' = P b'.
Proof.
  intros I HbH C Hh Hlen HP Hok Hdirty Hn Hbl Hout Hbn. set (l := k_log s) in *.
  assert (LOGBLOCKS = 30) as EL by done.
  unfold log_write. erewrite bind_ret_eq by (by eapply calm_acquire). erewrite bind_ret_eq by reflexivity.
  change (k_log (set_k_held [LLog] s)) with l. rewrite (proj2 (Z.leb_gt LOGBLOCKS (l_n l))) by lia.
  rewrite (proj2 (Z.ltb_ge (l_outstanding l) 1)) by lia. erewrite bind_ret_eq by reflexivity.
  change (getbuf (set_k_held [LLog] s) b) with (getbuf s b). pose proof Hh as ((_ & _ & Eb) & _ & _). rewrite Eb, (int32_small bn) by lia.
  erewrite bind_ret_eq by reflexivity. change (k_log (set_k_held [LLog] s)) with l.
  destruct (log_slot_old l bn (set_lh_block (log_index (Z.to_nat (l_n l)) 0 l bn) bn l)) as [(Hi & Hin & Hl)|(Hi & Hin & Hl)];
    [lia|intros j Hj; by apply (home_ok start)|done| |]; set (i := log_index _ _ _ _) in *; set (l1 := set_lh_block i bn l) in *.
  - rewrite (proj2 (Z.eqb_neq i (l_n l))) by lia. erewrite bind_ret_eq by reflexivity.
    pose proof (proj2 (Hdirty bn) Hin) as Hd. exists (set_k_log l1 s), P.
    assert ({[bn]} ∪ dirty = dirty) as -> by set_solver.
    split; [apply (calm_release (set_k_log l1 s) pid LLog); by eapply calm_env|]. split.
    + apply cache_log. by apply (cache_absorb s pid _ P D dirty I b bn data HbH Hh).
    + split; [done|]. split; [rewrite HP; unfold dec_bool; by rewrite decide_True|by split_and!].
  - rewrite (proj2 (Z.eqb_eq i (l_n l))) by done. assert (bn ∉ dirty) as Hd by (by rewrite Hdirty).
    unfold dec_bool in HP. rewrite decide_False in HP by done.
    apply (cache_log _ _ _ _ _ _ l1) in I.
    destruct (bpin_spec (set_k_log l1 s) pid _ P D dirty I (calm_env s (set_k_log l1 s) pid C eq_refl) b bn data HbH Hh [LLog]) as (s1 & E1 & I1 & H1 & Co1 & K1 & V1 & G1 & _); [set_solver|done|lia|].
    exists (set_k_log (set_l_n (l_n l + 1) l1) s1), (nupd P b (P b + 1)). split.
    + erewrite bind_ret_eq by (erewrite bind_ret_eq by exact E1; reflexivity).
      change (k_log (set_k_held [LLog] s1)) with (k_log s1). rewrite G1.
      apply (calm_release (set_k_log (set_l_n (l_n l + 1) l1) s1) pid LLog). by eapply calm_env.
    + split; [by apply cache_log|]. split; [done|]. rewrite nupd_eq. split; [lia|]. split_and!; try done. intros b' Hb'. split; [by apply Co1|by apply nupd_ne].
Qed.

(** The pattern the comment above log_write describes. *)
Definition txn_write (w : Z * (list Z -> list Z)) : K unit :=
  let* b := bread (S fuel) ROOTDEV (fst w) in
  mod_buf b (fun v => set_b_data (snd w (b_data v)) v) ;;;
  log_write b ;;;
  brelse b.

(** A write of a block outside the log that keeps its size. *)
Definition write_ok (w : Z * (list Z -> list Z)) : Prop :=
  0 <= fst w < 2 ^ 31 /\ data_block start (fst w) /\ forall d, length d = Z.to_nat BSIZE -> length (snd w d) = Z.to_nat BSIZE.

Lemma txn_write_spec n s D dirty w :
  1 <= n -> in_op n s D dirty -> l_n (k_log s) < LOGBLOCKS -> write_ok w ->
  exists s', txn_write w s = Ret tt s' /\ in_op n s' (fupd D (fst w) (snd w (D (fst w)))) ({[fst w]} ∪ dirty)
  /\ l_n (k_log s') <= l_n (k_log s) + 1 /\ k_disk s' = k_disk s.
Proof.
  destruct w as [bn f]. simpl. intros Hn1 O Hn (Hr & Hdata & Hf). cbn [fst snd] in *. pose proof (op_size _ _ _ _ O) as Hsz.
  pose proof O as [(P & I) C At Hok Hn0 Hdirty Hout Hcomm Hlen Hhd Hz]. assert (LOGBLOCKS = 30) as EL by done. assert (bhead = 30%nat) as EB by done.
  unfold txn_write. cbn [fst snd].
  destruct (bread_spec s pid ∅ P D dirty I fuel bn C) as (b & s1 & E1 & I1 & _ & H1 & HP1 & _ & K1 & F1);
    [by apply not_held_empty|apply free_room; eapply cache_free; [done|lia]|].
  erewrite bind_ret_eq by exact E1. erewrite bind_ret_eq by reflexivity. pose proof F1 as (V1 & G1 & _).
  rewrite (upd_buf_ext b _ (set_b_data (f (D bn)))) by (by rewrite (proj2 (proj2 H1))).
  destruct (cache_modify s1 pid _ P D dirty I1 b (f (D bn)) bn _ (held_in b ∅) H1) as (I2 & H2 & _).
  set (s2 := upd_buf b (set_b_data (f (D bn))) s1) in *. change (k_log s1) with (k_log s2) in G1.
  destruct (log_write_spec s2 _ P D dirty b bn (f (D bn)) I2 (held_in b ∅)) as (s3 & P3 & E3 & I3 & H3 & HP3 & L3 & K3 & V3 & _); try done; rewrite ?G1; try done; try lia.
  { apply calm_upd_buf. by eapply frame_calm. } { apply Hf, I. }
  erewrite bind_ret_eq by exact E3. rewrite G1 in L3. destruct L3 as (Lh & Ln & Ld & Ls & Lo & Lc & Ll).
  assert (calm s3 pid) as C3 by (eapply calm_env; [exact C|]; rewrite V3; exact V1).
  destruct (brelse_spec s3 pid _ P3 _ _ b bn I3 C3 (held_in b ∅)) as (s4 & E4 & I4 & _ & K4 & F4);
    [by rewrite fupd_eq|rewrite HP3; unfold dec_bool; rewrite decide_True by set_solver; done|].
  exists s4. split; [exact E4|]. rewrite empty_held in I4. pose proof F4 as (V4 & G4 & _). rewrite G4.
  assert (k_disk s4 = k_disk s) as K by (rewrite K4, K3; exact K1).
  split; [constructor; rewrite ?G4, ?K; try done|].
  - by exists P3.
  - by eapply frame_calm.
  - unfold log_at. by rewrite G4, Ld, Ls.
  - rewrite Lh. case_decide; [done|]. apply homes_ok_snoc; try done. rewrite homes_length by done. lia.
  - rewrite Ln. case_decide; lia.
  - intros x. rewrite Lh, elem_of_union, elem_of_singleton, Hdirty. case_decide as Hd; [set_solver|]. set_solver.
  - by rewrite Lo.
  - by rewrite Lc.
  - by rewrite Ll.
  - split; [|done]. rewrite Ln. case_decide; lia.
Qed.

(** ** Between operations *)

Record idle (s : kernel) (D : Z -> list Z) : Prop := {
  id_cache : exists P, cache s pid ∅ P D ∅;
  id_calm : calm s pid;
  id_at : log_at s start;
  id_n : l_n (k_log s) = 0;
  id_out : l_outstanding (k_log s) = 0;
  id_comm : l_committing (k_log s) = 0;
  id_len : length (l_block (k_log s)) = Z.to_nat LOGBLOCKS;
  id_head : hb_n (disk_block (k_disk s) start) = 0 }.

Lemma idle_disk s D bn : idle s D -> disk_block (k_disk s) bn = D bn.
Proof. intros [(P & I) _ _ _ _ _ _ _]. symmetry. apply I. set_solver. Qed.

Lemma idle_sized s D : idle s D -> sized (k_disk s).
Proof. intros L bn. rewrite (idle_disk s D bn L). destruct L as [(P & I) _ _ _ _ _ _ _]. apply I. Qed.

Lemma idle_op s D : idle s D -> in_op 0 s D ∅ /\ l_n (k_log s) = 0.
Proof.
  intros L. pose proof (idle_sized s D L) as Hz. destruct L as [(P & I) C At Hn Hout Hcomm Hlen Hhd]. split; [|done].
  constructor; try done; [by exists P| |by rewrite Hn|]; unfold homes; rewrite Hn; [apply homes_ok_nil|set_solver].
Qed.

(** begin_op lets an operation in when the log has room for one more. *)
Lemma begin_op_spec n s D dirty : in_op n s D dirty -> l_n (k_log s) + (n + 1) * MAXOPBLOCKS <= LOGBLOCKS ->
  exists s', begin_op (S fuel) s = Ret tt s' /\ in_op (n + 1) s' D dirty /\ l_n (k_log s') = l_n (k_log s) /\ k_disk s' = k_disk s /\ env s' = env s.
Proof.
  intros [(P & I) C At Hok Hn Hdirty Hout Hcomm Hlen Hhd Hz] Hroom. set (l := k_log s) in *.
  exists (set_k_log (set_l_outstanding (n + 1) l) s). split; [|split; [constructor|]]; try done.
  - unfold begin_op. erewrite bind_ret_eq by (by eapply calm_acquire). erewrite while_done; [reflexivity|].
    unfold begin_op_turn. erewrite bind_ret_eq.
    2: { erewrite bind_ret_eq by reflexivity. change (k_log (set_k_held [LLog] s)) with l. rewrite Hcomm, Hout. cbn [negb Z.eqb].
         rewrite (proj2 (Z.ltb_ge LOGBLOCKS (l_n l + (n + 1) * MAXOPBLOCKS))) by lia. erewrite bind_ret_eq by reflexivity.
         erewrite bind_ret_eq; [reflexivity|]. change (k_log (set_k_held [LLog] s)) with l.
         apply (calm_release (set_k_log (set_l_outstanding (n + 1) l) s) pid LLog). by eapply calm_env. }
    done.
  - exists P. by apply cache_log.
  - by eapply calm_env.
Qed.

Lemma homes_data l x : homes_ok start (homes l) -> x ∈ homes l -> data_block start x.
Proof. intros (_ & _ & Hf) Hx. rewrite Forall_forall in Hf. by apply Hf. Qed.

(** What the last operation leaves to do: commit, or nothing when nothing was
    written. *)
Lemma commit_op s P D dirty :
  cache s pid ∅ P D dirty -> calm s pid -> log_at s start -> homes_ok start (homes (k_log s)) -> 0 <= l_n (k_log s) ->
  (size dirty < bhead)%nat -> (forall x, x ∈ dirty <-> x ∈ homes (k_log s)) -> sized (k_disk s) -> hb_n (disk_block (k_disk s) start) = 0 ->
  exists s' P' D', commit (S fuel) s = Ret tt s' /\ cache s' pid ∅ P' D' ∅ /\ (forall bn, data_block start bn -> D' bn = D bn)
  /\ at_every_crash (k_disk s) (k_disk s') (fun d => reads_as start (disk_block (k_disk s)) d \/ reads_as start D d)
  /\ hb_n (disk_block (k_disk s') start) = 0 /\ env s' = env s /\ k_log s' = set_l_n 0 (k_log s).
Proof.
  intros I C At Hok Hn Hsz Hdirty Hz Hh. destruct (decide (l_n (k_log s) = 0)) as [E0|Hne].
  - exists s, P, D. assert (dirty = ∅) as ->.
    { apply elem_of_equiv_empty_L. intros x Hx%Hdirty. apply home_in in Hx as (i & Hi & _). lia. }
    assert (commit (S fuel) s = Ret tt s) as E by (unfold commit; erewrite bind_ret_eq by reflexivity; by rewrite E0).
    refine (conj E (conj I (conj _ (conj _ (conj Hh (conj _ _)))))); try done.
    + apply crash_start. left. by apply reads_empty.
    + destruct s as []. unfold set_k_log. simpl in *. destruct k_log. simpl in *. by subst.
  - destruct (commit_run fuel pid start s P D dirty) as (s' & P' & D' & d1 & head & E & A1 & A2 & I' & HD & Hh' & V & G); try done; [lia|].
    exists s', P', D'. refine (conj E (conj I' (conj HD (conj _ (conj Hh' (conj V G)))))).
    eapply crash_trans; [eapply crash_write; [eapply crash_mono; [exact A1|]|]|eapply crash_mono; [exact A2|]].
    + intros d' Hd'. by left.
    + right. destruct A2 as [S2 H2]. by apply H2.
    + intros d' Hd'. by right.
Qed.

Lemma end_op_spec s D dirty : in_op 1 s D dirty -> l_n (k_log s) < LOGBLOCKS ->
  exists s' D', end_op (S fuel) s = Ret tt s' /\ idle s' D' /\ (forall bn, data_block start bn -> D' bn = D bn)
  /\ at_every_crash (k_disk s) (k_disk s') (fun d => reads_as start (disk_block (k_disk s)) d \/ reads_as start D d) /\ env s' = env s.
Proof.
  intros O Hlt. pose proof (op_size _ _ _ _ O) as Hsz. destruct O as [(P & I) C At Hok Hn Hdirty Hout Hcomm Hlen Hhd Hz]. set (l := k_log s) in *.
  set (l1 := set_l_committing 1 (set_l_outstanding 0 l)).
  destruct (commit_op (set_k_log l1 s) P D dirty) as (s2 & P2 & D2 & E2 & I2 & HD & A & Hh2 & V2 & G2); try done.
  { by apply cache_log. } { by eapply calm_env. } { assert (bhead = 30%nat) by done. assert (LOGBLOCKS = 30) by done. lia. }
  assert (calm s2 pid) as C2 by (by eapply calm_env). set (l2 := set_l_n 0 l1) in *.
  exists (set_k_log (set_l_committing 0 l2) s2), D2. refine (conj _ (conj _ (conj HD (conj A V2)))).
  - unfold end_op. erewrite bind_ret_eq by (by eapply calm_acquire). erewrite bind_ret_eq by reflexivity. erewrite bind_ret_eq by reflexivity.
    cbn [k_log set_k_log set_k_held l_committing set_l_outstanding l_outstanding]. fold l. rewrite Hcomm, Hout. cbn [negb Z.eqb]. change (1 - 1 =? 0) with true. cbv iota.
    erewrite bind_ret_eq by reflexivity. erewrite bind_ret_eq.
    2: { instantiate (1 := set_k_log l1 s). refine (calm_release (set_k_log l1 s) pid LLog _). by eapply calm_env. }
    erewrite bind_ret_eq by exact E2. erewrite bind_ret_eq by (by eapply calm_acquire). erewrite bind_ret_eq by reflexivity.
    change (k_log (set_k_held [LLog] s2)) with (k_log s2). rewrite G2.
    set (s3 := set_k_log (set_l_committing 0 l2) s2). assert (calm s3 pid) as C3 by (by eapply calm_env).
    erewrite bind_ret_eq by (refine (wakeup_calm s3 pid [LLog] CLog _ _ _); [done|done|set_solver]).
    by apply (calm_release s3 pid).
  - constructor; try done; [by exists P2; apply cache_log|by eapply calm_env].
Qed.

(** ** One operation *)

Definition operation (ws : list (Z * (list Z -> list Z))) : K unit :=
  begin_op (S fuel) ;;; for_all ws txn_write ;;; end_op (S fuel).

(** What an operation does to the contents of the blocks. *)
Definition effect (ws : list (Z * (list Z -> list Z))) (D : Z -> list Z) : Z -> list Z :=
  fold_left (fun D w => fupd D (fst w) (snd w (D (fst w)))) ws D.

(** An operation that fits in the log. *)
Definition op_ok (ws : list (Z * (list Z -> list Z))) : Prop := Forall write_ok ws /\ Z.of_nat (length ws) < LOGBLOCKS.

Lemma writes_spec n ws : forall s D dirty, 1 <= n -> in_op n s D dirty -> Forall write_ok ws -> l_n (k_log s) + Z.of_nat (length ws) <= LOGBLOCKS ->
  exists s' dirty', for_all ws txn_write s = Ret tt s' /\ in_op n s' (effect ws D) dirty'
  /\ (forall x, x ∈ dirty' <-> x ∈ dirty \/ x ∈ map fst ws)
  /\ l_n (k_log s') <= l_n (k_log s) + Z.of_nat (length ws) /\ k_disk s' = k_disk s.
Proof.
  induction ws as [|w ws IH]; intros s D dirty Hn1 O Hok Hn; simpl in Hn.
  { exists s, dirty. split; [done|]. split; [done|]. split; [set_solver|]. split; [simpl; lia|done]. }
  apply Forall_cons in Hok as [Hw Hok]. destruct (txn_write_spec n s D dirty w Hn1 O) as (s1 & E1 & O1 & N1 & K1); [lia|done|].
  destruct (IH s1 _ _ Hn1 O1 Hok) as (s2 & dirty2 & E2 & O2 & Hd & N2 & K2); [lia|]. exists s2, dirty2. cbn [for_all].
  erewrite bind_ret_eq by exact E1. split; [done|]. split; [done|]. split; [|split; [simpl; lia|by rewrite K2]].
  intros x. rewrite Hd. cbn [map]. set_solver.
Qed.

Definition same_data (D D' : Z -> list Z) : Prop := forall bn, data_block start bn -> D' bn = D bn.

Lemma reads_same C C' d : same_data C C' -> reads_as start C d -> reads_as start C' d.
Proof. intros H (H1 & H2 & H3 & H4). split_and!; try done. intros bn Hbn. rewrite H by done. by apply H4. Qed.

Lemma effect_same ws : forall D D', Forall write_ok ws -> same_data D D' -> same_data (effect ws D) (effect ws D').
Proof.
  induction ws as [|w ws IH]; intros D D' Hok H; [done|]. apply Forall_cons in Hok as [Hw Hok]. apply IH; [done|].
  intros bn Hbn. unfold fupd. rewrite (H (fst w)) by apply Hw. destruct (bn =? fst w); [done|by apply H].
Qed.

(** ** A full log *)

Lemma list_to_set_size (l : list Z) : (size (list_to_set l : gset Z) <= length l)%nat.
Proof.
  induction l as [|x l IH]; cbn [list_to_set length]; [by rewrite size_empty|]. rewrite size_union_alt, size_singleton.
  assert (size ((list_to_set l : gset Z) ∖ {[x]}) <= size (list_to_set l : gset Z))%nat by (apply subseteq_size; set_solver). lia.
Qed.

(** With a block of the log in every buffer there is none left to read another. *)
Lemma full_pinned s P D dirty b : cache s pid ∅ P D dirty -> (bhead <= size dirty)%nat -> (b < bhead)%nat -> P b <> 0.
Proof.
  intros I Hsz Hb HP. set (others := filter (fun x => x <> b) (seq 0 bhead)).
  assert (dirty ⊆ list_to_set (map (fun x => b_blockno (getbuf s x)) others)) as Hsub.
  { intros bn Hbn. destruct (ca_dirty _ _ _ _ _ _ I bn Hbn) as (x & (Hx & _ & Ex) & _ & Px). apply elem_of_list_to_set, list_elem_of_fmap.
    exists x. split; [done|]. apply list_elem_of_filter. split; [intros ->; lia|]. apply elem_of_seq. lia. }
  apply subseteq_size in Hsub. assert (length others < bhead)%nat as Hlt.
  { eapply Nat.lt_le_trans; [apply (length_filter_lt _ _ b); [|tauto]|by rewrite length_seq]. apply elem_of_seq. lia. }
  pose proof (list_to_set_size (map (fun x => b_blockno (getbuf s x)) others)) as Hle. rewrite length_map in Hle. lia.
Qed.

(** bread of a block that no buffer caches, when every buffer is in use. *)
Lemma bread_full s P D dirty bn : cache s pid ∅ P D dirty -> calm s pid -> (bhead <= size dirty)%nat -> bn ∉ dirty ->
  bread (S fuel) ROOTDEV bn s = Panic "bget: no buffers".
Proof.
  intros I C Hsz Hbn. pose proof (full_pinned s P D dirty) as Hfull. destruct (ca_list _ _ _ _ _ _ I) as (l & Hl & Hc).
  destruct (perm_nodup l Hl) as (_ & Hnh & Hlen). unfold bread, bget.
  assert (forall b, b ∈ l -> (b < bhead)%nat /\ P b <> 0 /\ b_blockno (getbuf s b) ∈ dirty) as Hb.
  { intros b Hb%(perm_lt l b Hl). pose proof (Hfull b I Hsz Hb) as HP. split; [done|]. split; [done|]. by apply (pinned_dirty s pid P D). }
  set (s1 := set_k_held [LBcache] s).
  assert (forall test l', (forall b, b ∈ l' -> test (getbuf s b) = false) -> List.find (fun b => test (getbuf s1 b)) l' = None) as Hfind.
  { intros test l' Ht. induction l' as [|x l' IH]; simpl; [done|]. change (getbuf s1 x) with (getbuf s x).
    rewrite Ht by set_solver. apply IH. set_solver. }
  unfold bind at 1. erewrite bind_ret_eq by (by eapply calm_acquire). erewrite bind_ret_eq by reflexivity. fold s1.
  erewrite bind_ret_eq by (apply (bscan_next _ s1 bhead l); [done|done|rewrite Hlen; lia]).
  rewrite Hfind.
  2: { intros b Hin. destruct (Hb b Hin) as (_ & _ & Hd). apply andb_false_iff. right. apply Z.eqb_neq. by intros <-. }
  erewrite bind_ret_eq by (apply (bscan_prev _ s1 bhead l); [done|done|rewrite Hlen; lia]).
  rewrite Hfind; [done|]. intros b Hin%list_elem_of_In%in_rev%list_elem_of_In. destruct (Hb b Hin) as (Hlt & HP & _).
  destruct (ca_ref _ _ _ _ _ _ I b Hlt) as [-> Hr]. unfold dec_bool. rewrite decide_False by set_solver. apply Z.eqb_neq. lia.
Qed.

(** The last of the operations ends with a full log: commit cannot read the
    first log block. *)
Lemma end_op_full s D dirty : in_op 1 s D dirty -> l_n (k_log s) = LOGBLOCKS -> end_op (S fuel) s = Panic "bget: no buffers".
Proof.
  intros O Hfull. pose proof (op_size _ _ _ _ O) as Hsz. destruct O as [(P & I) C At Hok Hn Hdirty Hout Hcomm Hlen Hhd Hz]. set (l := k_log s) in *.
  set (l1 := set_l_committing 1 (set_l_outstanding 0 l)). assert (LOGBLOCKS = 30) as EL by done.
  assert (bread (S fuel) ROOTDEV (start + 1) (set_k_log l1 s) = Panic "bget: no buffers") as Ep.
  { apply (bread_full _ P D dirty); [by apply cache_log|by eapply calm_env|assert (bhead = 30%nat) by done; lia|].
    apply (dirty_data start l); [done|intros x; by rewrite Hdirty|]. unfold data_block. lia. }
  unfold end_op. erewrite bind_ret_eq by (by eapply calm_acquire). erewrite bind_ret_eq by reflexivity. erewrite bind_ret_eq by reflexivity.
  cbn [k_log set_k_log set_k_held l_committing set_l_outstanding l_outstanding]. fold l. rewrite Hcomm, Hout. cbn [negb Z.eqb]. change (1 - 1 =? 0) with true. cbv iota.
  erewrite bind_ret_eq by reflexivity. erewrite bind_ret_eq.
  2: { instantiate (1 := set_k_log l1 s). refine (calm_release (set_k_log l1 s) pid LLog _). by eapply calm_env. }
  unfold bind at 1. enough (commit (S fuel) (set_k_log l1 s) = Panic "bget: no buffers") as -> by done.
  unfold commit. erewrite bind_ret_eq by reflexivity. change (l_n (k_log (set_k_log l1 s))) with (l_n l). rewrite Hfull. cbn [Z.ltb]. 
  change (0 <? LOGBLOCKS) with true. cbv iota. unfold bind at 1. enough (write_log (S fuel) (set_k_log l1 s) = Panic "bget: no buffers") as -> by done.
  unfold write_log. erewrite bind_ret_eq by reflexivity. change (l_n (k_log (set_k_log l1 s))) with (l_n l). rewrite Hfull.
  destruct At as (Ed & Es & Hs1 & Hs2). rewrite seqZ_cons by lia. cbn [for_all]. unfold bind at 1 2. change (l_dev (k_log (set_k_log l1 s))) with (l_dev l).
  change (l_start (k_log (set_k_log l1 s))) with (l_start l). fold l in Ed, Es. rewrite Ed, Es.
  rewrite (uint32_small (start + 0 + 1)) by lia. replace (start + 0 + 1) with (start + 1) by lia. by rewrite Ep.
Qed.

(** end_op of an operation that is not the last one. *)
Lemma end_op_more n s D dirty : 1 < n -> in_op n s D dirty ->
  exists s', end_op (S fuel) s = Ret tt s' /\ in_op (n - 1) s' D dirty /\ k_log s' = set_l_outstanding (n - 1) (k_log s)
  /\ k_disk s' = k_disk s.
Proof.
  intros Hn1 [(P & I) C At Hok Hn Hdirty Hout Hcomm Hlen Hhd Hz]. set (l := k_log s) in *.
  set (s1 := set_k_log (set_l_outstanding (n - 1) l) s). assert (calm s1 pid) as C1 by (by eapply calm_env).
  exists s1. split; [|split; [constructor; try done; by exists P; apply cache_log|by split]].
  unfold end_op. erewrite bind_ret_eq by (by eapply calm_acquire). erewrite bind_ret_eq by reflexivity. erewrite bind_ret_eq by reflexivity.
  cbn [k_log set_k_log set_k_held l_committing set_l_outstanding l_outstanding]. fold l. rewrite Hcomm, Hout. cbn [negb Z.eqb].
  rewrite (proj2 (Z.eqb_neq (n - 1) 0)) by lia.
  erewrite bind_ret_eq by (refine (wakeup_calm s1 pid [LLog] CLog _ _ _); [done|done|set_solver]).
  by erewrite bind_ret_eq by (by apply (calm_release s1 pid)).
Qed.

Lemma operation_run ws s D : idle s D -> op_ok ws ->
  exists s' D', operation ws s = Ret tt s' /\ idle s' D' /\ same_data (effect ws D) D'
  /\ at_every_crash (k_disk s) (k_disk s') (fun d => reads_as start D d \/ reads_as start (effect ws D) d).
Proof.
  intros L [Hok Hlen]. destruct (idle_op s D L) as [O0 N0].
  destruct (begin_op_spec 0 s D ∅ O0) as (s1 & E1 & O1 & N1 & K1 & _); [by rewrite N0|].
  destruct (writes_spec 1 ws s1 D ∅ ltac:(lia) O1 Hok) as (s2 & dirty & E2 & O2 & _ & N2 & K2); [lia|].
  destruct (end_op_spec s2 _ dirty O2 ltac:(lia)) as (s3 & D3 & E3 & L3 & HD & A & _). exists s3, D3. rewrite K2, K1 in A.
  split; [unfold operation; erewrite bind_ret_eq by exact E1; by erewrite bind_ret_eq by exact E2|].
  split; [done|]. split; [done|]. eapply crash_mono; [exact A|]. intros d [Hd|Hd]; [left|by right].
  eapply reads_same; [|exact Hd]. intros bn _. symmetry. by apply idle_disk.
Qed.

(** ** A sequence of operations *)
Definition effects (wss : list (list (Z * (list Z -> list Z)))) (D : Z -> list Z) : Z -> list Z := fold_left (fun D ws => effect ws D) wss D.

Lemma effects_same wss : forall D D', Forall op_ok wss -> same_data D D' -> same_data (effects wss D) (effects wss D').
Proof.
  induction wss as [|ws wss IH]; intros D D' Hok H; [done|]. apply Forall_cons in Hok as [[Hw _] Hok]. apply IH; [done|]. by apply effect_same.
Qed.

Lemma operations_run wss : forall s D C, idle s D -> Forall op_ok wss -> same_data C D ->
  exists s' D', for_all wss operation s = Ret tt s' /\ idle s' D' /\ same_data (effects wss C) D'
  /\ at_every_crash (k_disk s) (k_disk s') (fun d => exists k, reads_as start (effects (take k wss) C) d).
Proof.
  induction wss as [|ws wss IH]; intros s D C L Hok HC.
  - exists s, D. split_and!; try done. apply crash_start. exists 0%nat. apply reads_empty; [by eapply idle_sized|apply L|].
    intros bn Hbn. rewrite (idle_disk s D) by done. by apply HC.
  - apply Forall_cons in Hok as [Hw Hok]. destruct (operation_run ws s D L Hw) as (s1 & D1 & E1 & L1 & H1 & A1).
    assert (same_data (effect ws C) (effect ws D)) as Heff by (apply effect_same; [apply Hw|done]).
    destruct (IH s1 D1 (effect ws C) L1 Hok) as (s2 & D2 & E2 & L2 & H2 & A2); [intros bn Hbn; rewrite H1 by done; by apply Heff|].
    exists s2, D2. cbn [for_all]. erewrite bind_ret_eq by exact E1. split_and!; try done. eapply crash_trans.
    + eapply crash_mono; [exact A1|]. intros d [Hd|Hd]; [exists 0%nat|exists 1%nat]; eapply reads_same; try exact Hd.
      * intros bn Hbn. symmetry. by apply HC.
      * intros bn Hbn. symmetry. by apply Heff.
    + eapply crash_mono; [exact A2|]. intros d [k Hd]. by exists (S k).
Qed.
End Operation.

(** ** Boot *)

Definition zero_buf : buf := mkBuf 0 0 0 unlocked 0 0 0 zero_block.

(** The cache as binit leaves it: buffer 29 first, buffer 0 last. *)
Definition linked_buf (b : nat) : buf :=
  set_b_next (if (b =? 0)%nat then bhead else b - 1)%nat (set_b_prev (if (b =? bhead - 1)%nat then bhead else b + 1)%nat zero_buf).
Definition linked_bufs : list buf := map linked_buf (seq 0 bhead) ++ [set_b_next (bhead - 1)%nat (set_b_prev 0%nat zero_buf)].

Lemma binit_run s : k_bufs s = replicate (S bhead) zero_buf -> binit s = Ret tt (set_k_bufs linked_bufs s).
Proof. intros E. destruct s. simpl in E. subst. vm_compute. reflexivity. Qed.

Lemma binit_cache s pid : sized (k_disk s) -> cache (set_k_bufs linked_bufs s) pid ∅ (fun _ => 0) (disk_block (k_disk s)) ∅.
Proof.
  intros Hz. set (s' := set_k_bufs linked_bufs s).
  assert (forall b, (b < bhead)%nat -> getbuf s' b = linked_buf b) as Eg.
  { intros b Hb. unfold getbuf, s'. change (k_bufs (set_k_bufs linked_bufs s)) with linked_bufs. unfold linked_bufs.
    rewrite lookup_app_l by (by rewrite length_map, length_seq). rewrite list_lookup_fmap, lookup_seq_lt by done. done. }
  assert (forall b bn, ~ caches s' b bn) as Hno by (intros b bn (Hb & Hd & _); by rewrite Eg in Hd).
  constructor; try done.
  - exists (rev (seq 0 bhead)). split; [by rewrite Permutation_rev|]. unfold getbuf, s'. simpl. vm_compute. repeat split.
  - intros b b' bn C. by apply Hno in C.
  - intros b Hb. by rewrite Eg, decide_False by (done || set_solver).
  - intros b Hb. unfold dec_bool. rewrite Eg, decide_False by (done || set_solver). done.
  - intros b bn C. by apply Hno in C.
  - by left.
Qed.

Section Boot.
Context (fuel : nat) (start : Z).

(** A machine that starts with the disk [d]: its memory is as the loader leaves
    it, and the super block says where the log is. *)
Record boots (s : kernel) (pid : Z) (d : list (Z * list Z)) : Prop := {
  bo_bufs : k_bufs s = replicate (S bhead) zero_buf;
  bo_log : k_log s = mkLog 0 0 0 0 0 (replicate (Z.to_nat LOGBLOCKS) 0);
  bo_sb : sb_logstart (k_sb s) = start;
  bo_range : 0 <= start /\ start + LOGBLOCKS < 2 ^ 31;
  bo_calm : calm s pid;
  bo_disk : k_disk s = d }.

Definition boot_disk : K unit := binit ;;; initlog (S fuel) ROOTDEV.

Lemma boot_run s pid d C : boots s pid d -> reads_as start C d ->
  exists s' D', boot_disk s = Ret tt s' /\ idle pid start s' D' /\ same_data start C D'
  /\ at_every_crash d (k_disk s') (reads_as start C).
Proof.
  intros [Bb Bl Bs Br Bc Bd] R. set (s1 := set_k_bufs linked_bufs s).
  set (s2 := set_k_log (set_l_dev ROOTDEV (set_l_start start (k_log s))) s1).
  assert (sized (k_disk s)) as Hz by (rewrite Bd; apply R).
  destruct (recover_run fuel pid start s2 (fun _ => 0) C) as (s3 & P3 & D3 & E3 & A3 & I3 & HD & Hh & V3 & N3 & At3 & L3 & Lo3 & Lc3).
  - exact (cache_log _ _ _ _ _ _ _ (binit_cache s pid Hz)).
  - by eapply calm_env.
  - by unfold log_at, s2.
  - simpl. by rewrite Bl.
  - simpl. by rewrite Bd.
  - exists s3, D3. split.
    + unfold boot_disk. erewrite bind_ret_eq by (by apply binit_run). unfold initlog. change (BSIZE <=? 4 + 4 * LOGBLOCKS) with false. cbv iota.
      erewrite bind_ret_eq by reflexivity. erewrite bind_ret_eq by reflexivity. erewrite bind_ret_eq by reflexivity.
      rewrite <- E3. f_equal. unfold s2, s1. simpl. by rewrite Bs.
    + split; [|split; [done|by rewrite <- Bd]]. constructor; try done; [by exists P3|by eapply calm_env|rewrite Lo3|rewrite Lc3]; simpl; by rewrite Bl.
Qed.

(** C4: A full log stops the kernel.  Three operations that write ten different
    blocks each are all let in, as MAXOPBLOCKS and LOGBLOCKS promise, and then
    their thirty blocks are pinned in all of the NBUF buffers: the last end_op
    finds no buffer for a block of the log and panics. *)
Theorem full_log_panics pid s D ws :
  idle pid start s D -> Forall (write_ok start) ws -> NoDup (map fst ws) -> Z.of_nat (length ws) = 3 * MAXOPBLOCKS ->
  (begin_op (S fuel) ;;; begin_op (S fuel) ;;; begin_op (S fuel) ;;; for_all ws (txn_write fuel) ;;;
   end_op (S fuel) ;;; end_op (S fuel) ;;; end_op (S fuel)) s = Panic "bget: no buffers".
Proof.
  intros L Hok Hnd Hlen. destruct (idle_op pid start s D L) as [O0 N0]. assert (LOGBLOCKS = 30 /\ MAXOPBLOCKS = 10) as [EL EM] by done.
  destruct (begin_op_spec fuel pid start 0 s D ∅ O0) as (s1 & E1 & O1 & N1 & _); [lia|].
  destruct (begin_op_spec fuel pid start 1 s1 D ∅ O1) as (s2 & E2 & O2 & N2 & _); [lia|].
  destruct (begin_op_spec fuel pid start 2 s2 D ∅ O2) as (s3 & E3 & O3 & N3 & _); [lia|].
  destruct (writes_spec fuel pid start 3 ws s3 D ∅ ltac:(lia) O3 Hok) as (s4 & dirty & E4 & O4 & Hd & _ & _); [lia|].
  assert (l_n (k_log s4) = LOGBLOCKS) as N4.
  { rewrite <- (op_size _ _ _ _ _ _ O4). assert (dirty = list_to_set (map fst ws)) as ->.
    { apply set_eq. intros x. rewrite Hd, elem_of_list_to_set. set_solver. }
    rewrite size_list_to_set, length_map by done. lia. }
  destruct (end_op_more fuel pid start 3 s4 _ dirty ltac:(lia) O4) as (s5 & E5 & O5 & G5 & _).
  destruct (end_op_more fuel pid start 2 s5 _ dirty ltac:(lia) O5) as (s6 & E6 & O6 & G6 & _).
  erewrite bind_ret_eq by exact E1. erewrite bind_ret_eq by exact E2. erewrite bind_ret_eq by exact E3. erewrite bind_ret_eq by exact E4.
  erewrite bind_ret_eq by exact E5. erewrite bind_ret_eq by exact E6. apply (end_op_full fuel pid start s6 _ dirty O6). by rewrite G6, G5.
Qed.

(** C2: An operation that is alone (no other one is outstanding, the log is empty and every
    buffer is free) and makes fewer than LOGBLOCKS writes, each of BSIZE bytes to a block
    of data: it returns, the blocks contain its effect, the log is empty again, and at
    every moment between the disk means the contents before it or the contents after
    it. *)
Theorem operation_atomic pid ws s D : idle pid start s D -> op_ok start ws ->
  exists s' D', operation fuel ws s = Ret tt s' /\ idle pid start s' D' /\ same_data start (effect ws D) D'
  /\ at_every_crash (k_disk s) (k_disk s') (fun d => reads_as start D d \/ reads_as start (effect ws D) d).
Proof. intros L Hok. by apply operation_run. Qed.
End Boot.

(** ** A machine to run them on *)

(** The machine of the witnesses: process 0 runs, the log starts at block 2. *)
Definition fresh_machine (d : list (Z * list Z)) : kernel :=
  set_k_disk d (set_k_sb (mkSuperblock 0 0 0 0 0 2 0 0) (set_k_cur (Some 0%nat) (kernel0 (mkSymbols PHYSTOP 0 0 0 0 0)))).

Lemma fresh_boots d : boots 2 (fresh_machine d) 0 d.
Proof.
  constructor; try done. constructor; try done; [by exists 0%nat|].
  intros i pr E. change (k_procs (fresh_machine d)) with (replicate (Z.to_nat NPROC) proc0) in E. by apply lookup_replicate in E as [-> _].
Qed.

Lemma zero_sized : sized [].
Proof. intros bn. done. Qed.

Lemma zero_reads start : reads_as start (fun _ => zero_block) [].
Proof. apply reads_empty; [apply zero_sized|done|done]. Qed.

(** An operation that fills a block with ones. *)
Definition ones : list Z := replicate (Z.to_nat BSIZE) 1.
Definition fill (bn : Z) : list (Z * (list Z -> list Z)) := [(bn, fun _ => ones)].

Lemma fill_ok : op_ok 2 (fill 100).
Proof. split; [|done]. constructor; [|constructor]. split_and!; [done|done|by right|done]. Qed.

Lemma operation_atomic_witness : exists s D s' D', idle 0 2 s D /\ D 100 = zero_block
  /\ operation 0 (fill 100) s = Ret tt s' /\ idle 0 2 s' D' /\ D' 100 = ones.
Proof.
  destruct (boot_run 0 2 _ 0 [] _ (fresh_boots []) (zero_reads 2)) as (s1 & D1 & E1 & L1 & H1 & A1).
  destruct (operation_atomic 0 2 0 (fill 100) s1 D1 L1 fill_ok) as (s2 & D2 & E2 & L2 & H2 & A2).
  exists s1, D1, s2, D2. refine (conj L1 (conj _ (conj E2 (conj L2 _)))).
  - apply H1. by right.
  - rewrite H2 by (by right). reflexivity.
Defined.

(** Thirty writes, to blocks 100 to 129. *)
Definition thirty : list (Z * (list Z -> list Z)) := map (fun bn => (bn, fun _ => ones)) (seqZ 100 30).

Lemma full_log_panics_witness : exists s D, idle 0 2 s D
  /\ (begin_op 1 ;;; begin_op 1 ;;; begin_op 1 ;;; for_all thirty (txn_write 0) ;;; end_op 1 ;;; end_op 1 ;;; end_op 1) s = Panic "bget: no buffers".
Proof.
  destruct (boot_run 0 2 _ 0 [] _ (fresh_boots []) (zero_reads 2)) as (s1 & D1 & E1 & L1 & _).
  exists s1, D1. split; [exact L1|]. apply (full_log_panics 0 2 0 s1 D1 thirty L1).
  - apply Forall_map, Forall_forall. intros bn Hbn%elem_of_seqZ. split; [simpl; lia|]. split; [right; simpl; assert (LOGBLOCKS = 30) by done; lia|done].
  - unfold thirty. rewrite map_map. cbn [fst]. rewrite map_id. apply NoDup_seqZ.
  - reflexivity.
Defined.
