(* ===== verification/LogGroup.v ===== *)
(** * Crash safety of overlapping operations

    Processes run file system operations at the same time: log.c commits when the
    last of those that overlap ends, and all of them together.  A run is a
    sequence of calls of begin_op, of writes that end with log_write and of calls
    of end_op, by any processes in any order; a process that begin_op makes wait
    has not begun its operation, and nothing else happens during a commit, since
    nobody is inside an operation and begin_op lets nobody in. *)
From S2P Require Import Prelude State CString Kalloc Vm Sched Printf Bytes Bio BioSpec Log LogSpec LogTxn.

Open Scope Z_scope.

(** ** Runs *)
Inductive action := ABegin | AWrite (w : Z * (list Z -> list Z)) | AEnd.

(** An action and the process that does it. *)
Notation act := (nat * action)%type.

(** The processes inside an operation, with the blocks it has written so far. *)
Notation inside := (gmap nat (gset Z)).

(** What callers promise: operations of a process do not nest and writes are
    inside an operation. *)
Definition take_step (o : inside) (e : act) : option inside :=
  match e with
  | (p, ABegin) => match o !! p with None => Some (<[p := ∅]> o) | Some _ => None end
  | (p, AWrite w) => match o !! p with Some B => Some (<[p := {[fst w]} ∪ B]> o) | None => None end
  | (p, AEnd) => match o !! p with Some _ => Some (delete p o) | None => None end
  end.

Fixpoint take_steps (o : inside) (evs : list act) : option inside :=
  match evs with
  | [] => Some o
  | e :: evs' => match take_step o e with Some o' => take_steps o' evs' | None => None end
  end.

(** Nobody is inside an operation. *)
Definition quiet (evs : list act) : bool := bool_decide (take_steps ∅ evs = Some ∅).

Definition writes (evs : list act) : list (Z * (list Z -> list Z)) :=
  omap (fun e => match e with (_, AWrite w) => Some w | _ => None end) evs.

Lemma take_steps_app evs evs' o : take_steps o (evs ++ evs') = take_steps o evs ≫= fun o' => take_steps o' evs'.
Proof. revert o. induction evs as [|e evs IH]; intros o; simpl; [done|]. by destruct (take_step o e). Qed.

Lemma writes_app evs evs' : writes (evs ++ evs') = writes evs ++ writes evs'.
Proof. apply omap_app. Qed.

Lemma effect_app ws ws' D : effect (ws ++ ws') D = effect ws' (effect ws D).
Proof. apply fold_left_app. Qed.

Section Group.
Context (fuel : nat) (start : Z).

Definition run_action (a : action) : K unit :=
  match a with
  | ABegin => begin_op (S fuel)
  | AWrite w => txn_write fuel w
  | AEnd => end_op (S fuel)
  end.

(** Process [p] gets the CPU and does its action. *)
Definition run_act (e : act) : K unit := modify (set_k_cur (Some (fst e))) ;;; run_action (snd e).

(** ** The invariant *)

(** Giving the CPU to another process. *)
Definition on_cpu (p : nat) (s : kernel) : kernel := set_k_cur (Some p) s.
Definition pid_at (p : nat) (s : kernel) : Z := p_pid (getproc s p).

Lemma in_op_switch pid n s D dirty p : in_op pid start n s D dirty -> in_op (pid_at p s) start n (on_cpu p s) D dirty.
Proof.
  intros [(P & [A1 A2 A3 A4 A5 A6 A7 A8 A9 A10 A11]) [C1 C2 C3 C4] O3 O4 O5 O6 O7 O8 O9 O10 O11].
  constructor; try done.
  - exists P. by constructor.
  - constructor; try done. by exists p.
Qed.

(** The blocks contain [all]; the disk means [saved], which is [all] up to the
    last moment at which nobody was inside an operation. *)
Record group (o : inside) (s : kernel) (all saved : Z -> list Z) : Prop := {
  gr_op : exists pid D dirty, in_op pid start (Z.of_nat (size o)) s D dirty /\ same_data start all D
    /\ (forall p B, o !! p = Some B -> B ⊆ dirty);
  gr_disk : reads_as start saved (k_disk s);
  gr_quiet : o = ∅ -> l_n (k_log s) = 0 /\ same_data start saved all }.

Lemma group_idle pid s D C : idle pid start s D -> same_data start C D -> group ∅ s C C.
Proof.
  intros L HC. destruct (idle_op pid start s D L) as [O N]. constructor; [| |by split].
  - exists pid, D, ∅. split; [exact O|]. split; [done|]. intros p B. by rewrite lookup_empty.
  - apply reads_empty; [by eapply idle_sized|apply L|]. intros bn Hbn. by rewrite (idle_disk pid start s D), HC.
Qed.

Lemma inside_some (o : inside) p B : o !! p = Some B -> 1 <= Z.of_nat (size o).
Proof.
  intros Hp. enough (size o <> 0%nat) by lia. intros E%map_size_empty_inv. subst. by rewrite lookup_empty in Hp.
Qed.

Lemma inside_delete (o : inside) p B : o !! p = Some B -> Z.of_nat (size o) = Z.of_nat (size (delete p o)) + 1.
Proof. intros Hp. pose proof (inside_some o p B Hp). rewrite map_size_delete_Some by (by exists B). lia. Qed.

(** ** One action *)

(** begin_op returns only when the log has room for one more operation. *)
Lemma begin_waits pid n s D dirty : in_op pid start n s D dirty -> LOGBLOCKS < l_n (k_log s) + (n + 1) * MAXOPBLOCKS ->
  forall s', begin_op (S fuel) s <> Ret tt s'.
Proof.
  intros [(P & I) C At Hok Hn Hdirty Hout Hcomm Hlen Hhd Hz] Hroom s'. unfold begin_op.
  erewrite bind_ret_eq by (by eapply calm_acquire). cbn [while_loop]. set (s1 := set_k_held [LLog] s).
  enough (forall b s2, begin_op_turn s1 <> Ret b s2) as H.
  { intros E. unfold bind at 1 2 in E. destruct (begin_op_turn s1) as [b s2| | |] eqn:Et; try done. by apply (H b s2). }
  intros b s2 E. unfold begin_op_turn in E. erewrite bind_ret_eq in E by reflexivity. change (k_log s1) with (k_log s) in E.
  rewrite Hcomm, Hout in E. cbn [negb Z.eqb] in E. rewrite (proj2 (Z.ltb_lt _ _) Hroom) in E.
  revert E. apply (switches_bind_l _ _ (switches_sleep CLog LLog)).
Qed.

(** With LOGBLOCKS blocks in the log no write returns, not even of one of them. *)
Lemma write_full pid n s D dirty w : in_op pid start n s D dirty -> l_n (k_log s) = LOGBLOCKS ->
  forall s', txn_write fuel w s <> Ret tt s'.
Proof.
  intros O Hfull s'. pose proof (op_size _ _ _ _ _ _ O) as Hsz. pose proof O as [(P & I) C At Hok Hn Hdirty Hout Hcomm Hlen Hhd Hz].
  assert (LOGBLOCKS = 30 /\ bhead = 30%nat) as [EL EB] by done. unfold txn_write.
  destruct (decide (fst w ∈ dirty)) as [Hin|Hin].
  - destruct (bread_spec s pid ∅ P D dirty I fuel (fst w) C) as (b & s1 & E1 & I1 & _ & H1 & HP1 & _ & K1 & F1).
    + by apply not_held_empty.
    + left. destruct (ca_dirty _ _ _ _ _ _ I (fst w) Hin) as (b & Hb & _). by exists b.
    + erewrite bind_ret_eq by exact E1. erewrite bind_ret_eq by reflexivity. set (s2 := upd_buf b _ s1).
      assert (calm s2 pid) as C2 by (apply calm_upd_buf; by eapply frame_calm).
      unfold log_write, bind at 1. erewrite bind_ret_eq by (by eapply calm_acquire). erewrite bind_ret_eq by reflexivity.
      change (k_log (set_k_held [LLog] s2)) with (k_log s1). destruct F1 as (_ & G1 & _). by rewrite G1, Hfull.
  - unfold bind at 1. by rewrite (bread_full fuel pid s P D dirty) by (done || lia).
Qed.

Definition act_ok (e : act) : Prop := match snd e with AWrite w => write_ok start w | _ => True end.

(** What the disk may mean while an action runs: what it meant, or, when the last
    operation ends, everything. *)
Definition between (o' : inside) (saved all' : Z -> list Z) (d : list (Z * list Z)) : Prop :=
  reads_as start saved d \/ (o' = ∅ /\ reads_as start all' d).
Definition after_act (o' : inside) (saved all' : Z -> list Z) : Z -> list Z := if decide (o' = ∅) then all' else saved.

(** The blocks an action may add to the log. *)
Definition adds (o : inside) (e : act) : Z :=
  match e with
  | (p, AWrite w) => match o !! p with Some B => if decide (fst w ∈ B) then 0 else 1 | None => 0 end
  | _ => 0
  end.

(** Room for one more operation. *)
Definition has_room (o : inside) (s : kernel) : Prop := l_n (k_log s) + (Z.of_nat (size o) + 1) * MAXOPBLOCKS <= LOGBLOCKS.

Definition acts (o o' : inside) (e : act) (s : kernel) (all saved : Z -> list Z) : Prop :=
  exists s', run_act e s = Ret tt s' /\ group o' s' (effect (writes [e]) all) (after_act o' saved (effect (writes [e]) all))
  /\ at_every_crash (k_disk s) (k_disk s') (between o' saved (effect (writes [e]) all))
  /\ l_n (k_log s') <= l_n (k_log s) + adds o e /\ (snd e = ABegin -> has_room o s).

Lemma begin_acts o s all saved p : group o s all saved -> o !! p = None ->
  acts o (<[p := ∅]> o) (p, ABegin) s all saved
  \/ (forall s', run_act (p, ABegin) s <> Ret tt s') /\ ~ has_room o s.
Proof.
  intros [(pid & D & dirty & O & HD & HB) Hd Hq] Hp. apply (in_op_switch _ _ _ _ _ p) in O.
  assert (Decision (has_room o s)) as Hdec by (unfold has_room; apply _). destruct (decide (has_room o s)) as [Hr|Hr].
  - left. destruct (begin_op_spec fuel _ start _ (on_cpu p s) D dirty O Hr) as (s' & E & O' & N & K & _).
    exists s'. split; [exact E|]. assert (<[p := ∅]> o <> (∅ : inside)) as Hne by apply insert_non_empty.
    unfold after_act. rewrite decide_False by done. cbn [writes omap list_omap effect fold_left snd].
    rewrite K. change (k_disk (on_cpu p s)) with (k_disk s). split; [constructor|split; [|split; [|done]]].
    + eexists _, D, dirty. rewrite map_size_insert_None, Nat2Z.inj_succ, <- Z.add_1_r by done. split; [exact O'|]. split; [done|].
      intros q B [[<- <-]|[_ Hb]]%lookup_insert_Some; [set_solver|by apply (HB q)].
    + by rewrite K.
    + done.
    + apply crash_start. by left.
    + change (k_log (on_cpu p s)) with (k_log s) in N. simpl. lia.
  - right. split; [|done]. intros s'. apply (begin_waits _ _ (on_cpu p s) D dirty O).
    change (k_log (on_cpu p s)) with (k_log s). unfold has_room in Hr. lia.
Qed.

Lemma write_acts o s all saved p w B : group o s all saved -> o !! p = Some B -> write_ok start w ->
  acts o (<[p := {[fst w]} ∪ B]> o) (p, AWrite w) s all saved
  \/ (forall s', run_act (p, AWrite w) s <> Ret tt s') /\ l_n (k_log s) = LOGBLOCKS.
Proof.
  intros [(pid & D & dirty & O & HD & HB) Hd Hq] Hp Hw. apply (in_op_switch _ _ _ _ _ p) in O. pose proof (inside_some o p B Hp) as H1.
  destruct (decide (l_n (k_log s) = LOGBLOCKS)) as [Hf|Hf]; [right; split; [|done]; intros s'; by apply (write_full _ _ (on_cpu p s) D dirty w O)|].
  assert (l_n (k_log s) <= LOGBLOCKS) as Hle.
  { pose proof (op_homes _ _ _ _ _ _ O) as (_ & Hl & _). by rewrite homes_length in Hl by apply (op_n _ _ _ _ _ _ O). }
  left. destruct (txn_write_spec fuel _ start _ (on_cpu p s) D dirty w H1 O) as (s' & E & O' & N & K);
    [change (k_log (on_cpu p s)) with (k_log s); lia|done|].
  exists s'. split; [exact E|]. assert (<[p := {[fst w]} ∪ B]> o <> (∅ : inside)) as Hne by apply insert_non_empty.
  unfold after_act. rewrite decide_False by done. cbn [writes omap list_omap effect fold_left].
  rewrite K. change (k_disk (on_cpu p s)) with (k_disk s). split; [constructor|split; [|split; [|done]]].
  - eexists _, _, _. rewrite map_size_insert_Some by (by exists B). split; [exact O'|]. split.
    + intros bn Hbn. unfold fupd. rewrite (HD (fst w)) by apply Hw. destruct (bn =? fst w); [done|by apply HD].
    + intros q B' [[<- <-]|[_ Hb]]%lookup_insert_Some; [specialize (HB _ _ Hp); set_solver|specialize (HB _ _ Hb); set_solver].
  - by rewrite K.
  - done.
  - apply crash_start. by left.
  - change (k_log (on_cpu p s)) with (k_log s) in N. unfold adds. rewrite Hp. case_decide as Hin; [|done].
    pose proof (op_size _ _ _ _ _ _ O') as Z'. pose proof (op_size _ _ _ _ _ _ O) as Z0. change (k_log (on_cpu p s)) with (k_log s) in Z0.
    assert ({[fst w]} ∪ dirty = dirty) as Ed by (specialize (HB _ _ Hp); set_solver). rewrite Ed in Z'. lia.
Qed.

Lemma end_acts o s all saved p B : group o s all saved -> o !! p = Some B ->
  acts o (delete p o) (p, AEnd) s all saved
  \/ (forall s', run_act (p, AEnd) s <> Ret tt s') /\ l_n (k_log s) = LOGBLOCKS /\ delete p o = ∅.
Proof.
  intros [(pid & D & dirty & O & HD & HB) Hd Hq] Hp. apply (in_op_switch _ _ _ _ _ p) in O. pose proof (inside_delete o p B Hp) as Hsz.
  cbn [writes omap list_omap effect fold_left snd]. destruct (decide (delete p o = ∅)) as [He|Hne].
  - rewrite He, map_size_empty in Hsz. change (Z.of_nat 0 + 1) with 1 in Hsz. rewrite Hsz in O.
    destruct (decide (l_n (k_log s) = LOGBLOCKS)) as [Hf|Hf].
    + right. split; [|done]. intros s'. change (run_act (p, AEnd) s) with (end_op (S fuel) (on_cpu p s)).
      by rewrite (end_op_full fuel _ start (on_cpu p s) D dirty O).
    + left. assert (l_n (k_log s) <= LOGBLOCKS) as Hle.
      { pose proof (op_homes _ _ _ _ _ _ O) as (_ & Hl & _). by rewrite homes_length in Hl by apply (op_n _ _ _ _ _ _ O). }
      destruct (end_op_spec fuel _ start (on_cpu p s) D dirty O) as (s' & D' & E & L & HD' & A & _);
        [change (k_log (on_cpu p s)) with (k_log s); lia|].
      exists s'. split; [exact E|]. rewrite He. unfold after_act. rewrite decide_True by done.
      assert (same_data start all D') as HD2 by (intros bn Hbn; rewrite HD' by done; by apply HD).
      split; [by eapply group_idle|]. split; [split; [apply A|]|split; [|done]].
      2: { rewrite (id_n _ _ _ _ L). pose proof (op_n _ _ _ _ _ _ O). change (k_log (on_cpu p s)) with (k_log s) in *. simpl. lia. }
      intros d H1 H2. destruct (proj2 A d H1 H2) as [R|R].
      * left. (* the disk before the commit still means [saved] *)
        eapply reads_same; [|exact R]. intros bn Hbn. change (k_disk (on_cpu p s)) with (k_disk s).
        pose proof Hd as (Hz & _ & _ & Hv). rewrite <- Hv by done. unfold log_view.
        pose proof (op_head _ _ _ _ _ _ O) as Hh. change (k_disk (on_cpu p s)) with (k_disk s) in Hh. by rewrite (no_homes _ Hh).
      * right. split; [done|]. eapply reads_same; [|exact R]. intros bn Hbn. symmetry. by apply HD.
  - left. assert (1 < Z.of_nat (size o)) as H1.
    { rewrite Hsz. enough (size (delete p o) <> 0%nat) by lia. by intros ?%map_size_empty_inv. }
    destruct (end_op_more fuel _ start _ (on_cpu p s) D dirty H1 O) as (s' & E & O' & G & K).
    exists s'. split; [exact E|]. unfold after_act. rewrite decide_False by done. rewrite K. change (k_disk (on_cpu p s)) with (k_disk s).
    split; [constructor|split; [|split; [|done]]].
    + eexists _, D, dirty. replace (Z.of_nat (size (delete p o))) with (Z.of_nat (size o) - 1) by lia. split; [exact O'|]. split; [done|].
      intros q B' [_ Hb]%lookup_delete_Some. by apply (HB q).
    + by rewrite K.
    + done.
    + apply crash_start. by left.
    + rewrite G. simpl. lia.
Qed.

(** Every action callers may take returns, or is a begin_op that waits, or finds
    the log full. *)
Definition stuck (o' : inside) (e : act) (o : inside) (s : kernel) : Prop :=
  (forall s', run_act e s <> Ret tt s') /\
  match snd e with
  | ABegin => ~ has_room o s
  | AWrite _ => l_n (k_log s) = LOGBLOCKS
  | AEnd => l_n (k_log s) = LOGBLOCKS /\ o' = ∅
  end.

Lemma act_runs o s all saved e o' : group o s all saved -> take_step o e = Some o' -> act_ok e ->
  acts o o' e s all saved \/ stuck o' e o s.
Proof.
  intros G Hs Hok. destruct e as [p [|w|]]; simpl in Hs; destruct (o !! p) as [B|] eqn:Hp; try done; apply (inj Some) in Hs as <-.
  - by apply begin_acts.
  - by apply write_acts.
  - by apply end_acts with B.
Qed.

(** ** Runs *)

(** The writes up to the last moment at which nobody was inside an operation. *)
Definition last_quiet (evs : list act) (k : nat) : Prop :=
  (k <= length evs)%nat /\ quiet (take k evs) = true /\ forall j, (k < j <= length evs)%nat -> quiet (take j evs) = false.

Lemma quiet_at evs o : take_steps ∅ evs = Some o -> quiet evs = bool_decide (o = ∅).
Proof. intros E. unfold quiet. rewrite E. apply bool_decide_ext. split; [by intros [= ->]|by intros ->]. Qed.

Lemma last_quiet_snoc evs e o' k : take_steps ∅ (evs ++ [e]) = Some o' -> last_quiet evs k ->
  last_quiet (evs ++ [e]) (if decide (o' = ∅) then S (length evs) else k).
Proof.
  intros E (Hk & Hq & Hl). pose proof (quiet_at _ _ E) as Eq. unfold last_quiet. rewrite length_app. cbn [length].
  assert (take (S (length evs)) (evs ++ [e]) = evs ++ [e]) as Et by (apply take_ge; rewrite length_app; simpl; lia).
  destruct (decide (o' = ∅)) as [Ho|Ho]; split_and!; try lia.
  - by rewrite Et, Eq, bool_decide_true.
  - by rewrite take_app_le.
  - intros j Hj. destruct (decide (j = S (length evs))) as [->|Hne]; [by rewrite Et, Eq, bool_decide_false|].
    rewrite take_app_le by lia. apply Hl. lia.
Qed.

Lemma for_all_snoc_inv {I} (l : list I) x (body : I -> K unit) : forall s s', for_all (l ++ [x]) body s = Ret tt s' ->
  exists s1, for_all l body s = Ret tt s1 /\ body x s1 = Ret tt s'.
Proof.
  induction l as [|y l IH]; intros s s' E; cbn [app for_all] in *; unfold bind in *.
  - exists s. split; [done|]. destruct (body x s) as [[] s1| | |]; try done.
  - destruct (body y s) as [[] s1| | |]; try done. apply IH, E.
Qed.

(** A run of actions that all returned, from a state in which nobody is inside
    an operation. *)
Lemma acts_run C evs : forall s s' o, group ∅ s C C -> Forall act_ok evs -> take_steps ∅ evs = Some o ->
  for_all evs run_act s = Ret tt s' ->
  exists k, last_quiet evs k /\ group o s' (effect (writes evs) C) (effect (writes (take k evs)) C).
Proof.
  induction evs as [|e evs IH] using rev_ind; intros s s' o G Hok Ht E.
  - injection Ht as <-. injection E as <-. exists 0%nat. split; [|done]. split; [done|]. split; [done|]. simpl. lia.
  - apply Forall_app in Hok as [Hok [He _]%Forall_cons]. rewrite take_steps_app in Ht.
    destruct (take_steps ∅ evs) as [o1|] eqn:Ht1; [|done]. cbn in Ht. destruct (take_step o1 e) as [o2|] eqn:Ht2; [|done].
    apply (inj Some) in Ht as ->. apply for_all_snoc_inv in E as (s1 & E1 & E2).
    destruct (IH s s1 o1 G Hok eq_refl E1) as (k & Hk & G1).
    destruct (act_runs o1 s1 _ _ e o G1 Ht2 He) as [(s2 & E2' & G2 & _)|[Hno _]]; [|by apply Hno in E2].
    rewrite E2 in E2'. injection E2' as <-. rewrite <- effect_app, <- writes_app in G2.
    assert (take_steps ∅ (evs ++ [e]) = Some o) as Ht by (rewrite take_steps_app, Ht1; cbn; by rewrite Ht2).
    eexists. split; [by apply (last_quiet_snoc evs e o k)|]. unfold after_act in G2. destruct (decide (o = ∅)) as [Ho|Ho].
    + by rewrite take_ge by (rewrite length_app; simpl; lia).
    + destruct Hk as [Hk _]. by rewrite take_app_le.
Qed.

(** ** Reservations *)


(** Every operation has written at most MAXOPBLOCKS different blocks. *)
Definition small (o : inside) : Prop := map_Forall (fun _ B => Z.of_nat (size B) <= MAXOPBLOCKS) o.

#[global] Instance small_decision o : Decision (small o).
Proof. unfold small. apply _. Defined.










(** ** Lives of a disk *)

(** A period of power: the actions that returned, and the one that was running
    when the machine stopped. *)
Record uptime := Uptime { returned : list act; running : option act }.
Definition all_acts (r : uptime) : list act := returned r ++ option_list (running r).

Definition run_ok (r : uptime) : Prop := Forall act_ok (all_acts r) /\ is_Some (take_steps ∅ (all_acts r)).

(** The machine starts with the disk [d] and stops with the disk [d']: while it
    boots, between two actions, or at any moment of an action.  An action that
    panics or waits has written nothing. *)
Definition period (d : list (Z * list Z)) (r : uptime) (d' : list (Z * list Z)) : Prop :=
  exists s pid s0 s1, boots start s pid d /\ boot_disk fuel s = Ret tt s0 /\ for_all (returned r) run_act s0 = Ret tt s1
  /\ match running r with
     | None => d' = k_disk s1 \/ (returned r = [] /\ d `suffix_of` d' /\ d' `suffix_of` k_disk s0)
     | Some e =>
         match run_act e s1 with
         | Ret _ s2 => k_disk s1 `suffix_of` d' /\ d' `suffix_of` k_disk s2
         | _ => d' = k_disk s1
         end
     end.

(** Any number of periods of power, each ended by a crash. *)
Inductive life (d : list (Z * list Z)) : list uptime -> list (Z * list Z) -> Prop :=
  | life_new : life d [] d
  | life_crash runs d1 r d2 : life d runs d1 -> period d1 r d2 -> life d (runs ++ [r]) d2.

(** What survives of a period: the writes before a moment at which nobody was
    inside an operation, so of operations that are entire; and no such moment
    among the actions that returned is later. *)
Definition survives (ws : list (Z * (list Z -> list Z))) (r : uptime) : Prop :=
  exists k, ws = writes (take k (all_acts r)) /\ quiet (take k (all_acts r)) = true
  /\ forall j, (k < j <= length (returned r))%nat -> quiet (take j (returned r)) = false.

Lemma survives_returned evs r k : r = Uptime evs (running r) -> last_quiet evs k -> survives (writes (take k evs)) r.
Proof.
  intros -> (Hk & Hq & Hl). exists k. unfold all_acts. cbn [returned running]. by rewrite take_app_le.
Qed.

Lemma survives_running evs e : quiet (evs ++ [e]) = true -> survives (writes (evs ++ [e])) (Uptime evs (Some e)).
Proof.
  intros Hq. exists (S (length evs)). unfold all_acts. cbn [returned running option_list].
  rewrite take_ge by (rewrite length_app; simpl; lia). split_and!; [done..|lia].
Qed.

Lemma period_reads d C r d' : reads_as start C d -> run_ok r -> period d r d' ->
  exists ws, survives ws r /\ reads_as start (effect ws C) d'.
Proof.
  destruct r as [evs next]. intros R [Ha [o Ho]] (s & pid & s0 & s1 & B & E0 & E1 & Hd). unfold all_acts in *. cbn [returned running] in *.
  destruct (boot_run fuel start s pid d C B R) as (s0' & D0 & E0' & L0 & H0 & A0). rewrite E0 in E0'. injection E0' as <-.
  apply Forall_app in Ha as [Ha Hn]. rewrite take_steps_app in Ho. destruct (take_steps ∅ evs) as [o1|] eqn:Ho1; [|discriminate Ho].
  destruct (acts_run C evs s0 s1 o1) as (k & Hk & G); [eapply group_idle; [exact L0|exact H0]|exact Ha|exact Ho1|exact E1|].
  pose proof (survives_returned evs (Uptime evs next) k eq_refl Hk) as Hsv. pose proof (gr_disk _ _ _ _ G) as Rk. destruct next as [e|].
  - cbn in Ho. destruct (take_step o1 e) as [o2|] eqn:Ho2; [|discriminate Ho]. apply (inj Some) in Ho as ->. apply Forall_cons in Hn as [He _].
    destruct (act_runs o1 s1 _ _ e o G Ho2 He) as [(s2 & E2 & _ & A & _)|[Hno _]].
    + rewrite E2 in Hd. destruct Hd as [Hd1 Hd2]. destruct (proj2 A d' Hd1 Hd2) as [Hr|[-> Hr]]; [eexists; split; [exact Hsv|exact Hr]|].
      rewrite <- effect_app, <- writes_app in Hr. eexists. split; [|exact Hr]. apply survives_running.
      rewrite (quiet_at _ ∅); [by apply bool_decide_true|]. rewrite take_steps_app, Ho1. cbn. by rewrite Ho2.
    + destruct (run_act e s1) as [[] s2| | |] eqn:E2; [destruct (Hno _ eq_refl)|subst d'; eexists; split; [exact Hsv|exact Rk]..].
  - destruct Hd as [->|(-> & Hd1 & Hd2)]; [eexists; split; [exact Hsv|exact Rk]|].
    rewrite take_nil in Hsv. exists []. split; [exact Hsv|]. exact (proj2 A0 d' Hd1 Hd2).
Qed.

Lemma life_reads d C runs d' : reads_as start C d -> Forall run_ok runs -> life d runs d' ->
  exists done, Forall2 survives done runs /\ reads_as start (effect (concat done) C) d'.
Proof.
  intros R Hok L. induction L as [|runs d1 r d2 L IH Hp]; [by exists []|].
  apply Forall_app in Hok as [Hok [Hw _]%Forall_cons]. destruct (IH Hok) as (done & Hpre & R1).
  destruct (period_reads d1 _ r d2 R1 Hw Hp) as (k & Hk & R2). exists (done ++ [k]). split.
  - apply Forall2_app; [done|]. by constructor.
  - rewrite concat_app, effect_app. cbn [concat]. by rewrite app_nil_r.
Qed.

(** C1: Crash safety, with any number of processes inside operations at a time
    and calls, writes and returns of them in any order.  Wherever the machine
    stopped in each period of power (in a commit, in a recovery), the next boot
    returns, and the blocks then contain the writes of each period up to a moment
    at which nobody was inside an operation: every operation is there entire or
    not at all, and all of them are there that ended before the last end_op to
    return with nobody else inside.  (An operation whose end_op returned while
    another was inside is saved together with that one.) *)
Theorem crash_safety d C runs d' :
  reads_as start C d -> Forall run_ok runs -> life d runs d' ->
  exists done, Forall2 survives done runs
  /\ forall s pid, boots start s pid d' -> exists s' D', boot_disk fuel s = Ret tt s' /\ idle pid start s' D' /\ same_data start (effect (concat done) C) D'.
Proof.
  intros R Hok L. destruct (life_reads d C runs d' R Hok L) as (done & Hpre & R'). exists done. split; [done|].
  intros s pid B. destruct (boot_run fuel start s pid d' _ B R') as (s' & D' & E & I & HD & _). eauto.
Qed.
End Group.

(** ** Two operations that overlap

    Process 1 begins, process 2 begins and writes, process 1 writes and ends, and
    the machine stops before process 2 ends; then it starts again and process 1
    runs alone. *)
Definition overlap : uptime := Uptime
  [(1%nat, ABegin); (2%nat, ABegin); (2%nat, AWrite (100, fun _ => ones)); (1%nat, AWrite (101, fun _ => ones)); (1%nat, AEnd)] None.
Definition alone : uptime := Uptime [(1%nat, ABegin); (1%nat, AWrite (102, fun _ => ones)); (1%nat, AEnd)] None.

(** Runs with at most two operations inside and few writes return. *)
Lemma few_return start evs : forall o s all saved o', group start o s all saved -> Forall (act_ok start) evs -> take_steps o evs = Some o' ->
  (forall k o1, take_steps o (take k evs) = Some o1 -> (size o1 <= 2)%nat) -> l_n (k_log s) + Z.of_nat (length evs) <= 10 ->
  exists s', for_all evs (run_act 0) s = Ret tt s'.
Proof.
  induction evs as [|e evs IH]; intros o s all saved o' G Hok Ht Hsz Hn; [by exists s|]. apply Forall_cons in Hok as [He Hok].
  cbn [take_steps] in Ht. destruct (take_step o e) as [o1|] eqn:Ht1; [|discriminate Ht]. cbn [length] in Hn.
  assert (LOGBLOCKS = 30 /\ MAXOPBLOCKS = 10) as [EL EM] by done.
  destruct (act_runs 0 start o s all saved e o1 G Ht1 He) as [(s1 & E1 & G1 & _ & Hn1 & _)|[_ Hst]].
  - destruct (IH o1 s1 _ _ o' G1 Hok Ht) as [s' E'].
    + intros k o2 Hk. apply (Hsz (S k)). cbn [take take_steps firstn]. by rewrite Ht1.
    + assert (adds o e <= 1) by (unfold adds; repeat case_match; lia). lia.
    + exists s'. cbn [for_all]. by erewrite bind_ret_eq by exact E1.
  - exfalso. destruct e as [p [|w|]]; cbn [snd] in Hst; [|lia|lia]. apply Hst. unfold has_room.
    pose proof (Hsz 1%nat o1) as H1. cbn [take take_steps firstn] in H1. rewrite Ht1 in H1. specialize (H1 eq_refl).
    simpl in Ht1. destruct (o !! p) eqn:Hp; [discriminate Ht1|]. apply (inj Some) in Ht1 as <-. rewrite map_size_insert_None in H1 by done. lia.
Qed.

Lemma ones_ok bn : 32 < bn < 2 ^ 31 -> write_ok 2 (bn, fun _ => ones).
Proof. intros H. split; [simpl; lia|]. split; [right; assert (LOGBLOCKS = 30) by done; simpl; lia|done]. Qed.

(** A test of the operations inside, at every moment of a run. *)
Definition at_all_times (test : inside -> bool) (evs : list act) : bool :=
  forallb (fun k => match take_steps ∅ (take k evs) with Some o => test o | None => true end) (seq 0 (S (length evs))).
Definition two_inside : list act -> bool := at_all_times (fun o => (size o <=? 2)%nat).

Lemma at_all_times_spec test evs k o : at_all_times test evs = true -> take_steps ∅ (take k evs) = Some o -> test o = true.
Proof.
  intros H E. unfold at_all_times in H. rewrite forallb_forall in H. destruct (decide (k <= length evs)%nat) as [Hk|Hk].
  - specialize (H k). rewrite E in H. apply H, list_elem_of_In, elem_of_seq. lia.
  - specialize (H (length evs)). rewrite firstn_all in H. rewrite take_ge in E by lia. rewrite E in H. apply H, list_elem_of_In, elem_of_seq. lia.
Qed.

Lemma two_inside_spec evs k o : two_inside evs = true -> take_steps ∅ (take k evs) = Some o -> (size o <= 2)%nat.
Proof. intros H E. apply Nat.leb_le. exact (at_all_times_spec (fun o => (size o <=? 2)%nat) evs k o H E). Qed.

(** A period from any disk that a boot recovers. *)
Lemma period_exists d C evs o : reads_as 2 C d -> Forall (act_ok 2) evs -> take_steps ∅ evs = Some o -> two_inside evs = true ->
  (length evs <= 10)%nat -> exists d', period 0 2 d (Uptime evs None) d'.
Proof.
  intros R Hok Ht H2 Hlen. destruct (boot_run 0 2 _ 0 d C (fresh_boots d) R) as (s0 & D0 & E0 & L0 & H0 & _).
  destruct (few_return 2 evs ∅ s0 C C o) as [s1 E1]; [by eapply group_idle|done|done| | |].
  - intros k o1. by apply two_inside_spec.
  - rewrite (id_n _ _ _ _ L0). lia.
  - exists (k_disk s1), (fresh_machine d), 0, s0, s1. split; [apply fresh_boots|]. split; [exact E0|]. split; [exact E1|by left].
Qed.

Lemma overlap_ok : Forall (act_ok 2) (returned overlap).
Proof. unfold overlap. cbn [returned]. repeat (apply Forall_cons; split; [try done; by apply ones_ok|]). apply Forall_nil. done. Qed.
Lemma alone_ok : Forall (act_ok 2) (returned alone).
Proof. unfold alone. cbn [returned]. repeat (apply Forall_cons; split; [try done; by apply ones_ok|]). apply Forall_nil. done. Qed.

Lemma overlap_lost ws : survives ws overlap -> ws = [].
Proof.
  intros (k & -> & Hq & _). do 5 (destruct k as [|k]; [first [reflexivity|discriminate Hq]|]).
  rewrite take_ge in Hq by (simpl; lia). discriminate Hq.
Qed.

Lemma alone_kept ws : survives ws alone -> ws = [(102, fun _ => ones)].
Proof.
  intros (k & -> & Hq & Hl). destruct (decide (3 <= k)%nat) as [Hk|Hk]; [by rewrite take_ge by (simpl; lia)|].
  specialize (Hl 3%nat ltac:(simpl; lia)). discriminate Hl.
Qed.

(** The operation of process 1 in the first period had returned and is lost with
    the one of process 2; the one of the second period is there. *)
Lemma crash_safety_witness : exists d' s' D', life 0 2 [] [overlap; alone] d'
  /\ boot_disk 0 (fresh_machine d') = Ret tt s' /\ idle 0 2 s' D' /\ D' 100 = zero_block /\ D' 101 = zero_block /\ D' 102 = ones.
Proof.
  pose proof overlap_ok as O1. pose proof alone_ok as A1.
  assert (run_ok 2 overlap /\ run_ok 2 alone) as [RO RA].
  { split; (split; [first [exact O1|exact A1]|vm_compute; by eexists]). }
  destruct (period_exists [] _ (returned overlap) {[2%nat := {[100]}]} (zero_reads 2) O1) as [d1 P1]; [vm_compute; reflexivity..|simpl; lia|].
  assert (life 0 2 [] [overlap] d1) as L1 by (apply (life_crash 0 2 [] [] [] overlap d1); [constructor|exact P1]).
  destruct (life_reads 0 2 [] (fun _ => zero_block) [overlap] d1 (zero_reads 2)) as (done1 & _ & R1); [by constructor|exact L1|].
  destruct (period_exists d1 _ (returned alone) ∅ R1 A1) as [d2 P2]; [vm_compute; reflexivity..|simpl; lia|].
  assert (life 0 2 [] [overlap; alone] d2) as L2 by (apply (life_crash 0 2 [] [overlap] d1 alone d2); [exact L1|exact P2]).
  destruct (crash_safety 0 2 [] (fun _ => zero_block) [overlap; alone] d2 (zero_reads 2)) as (done & Hs & Hb);
    [by repeat constructor|exact L2|].
  destruct (Hb (fresh_machine d2) 0 (fresh_boots _)) as (s' & D' & E & L & HD). exists d2, s', D'.
  split; [exact L2|]. split; [exact E|]. split; [exact L|].
  apply Forall2_cons_inv_r in Hs as (w1 & done1' & H1 & Hs & ->). apply Forall2_cons_inv_r in Hs as (w2 & done2' & H2 & Hs & ->).
  apply Forall2_nil_inv_r in Hs as ->. apply overlap_lost in H1 as ->. apply alone_kept in H2 as ->.
  rewrite !HD by (right; reflexivity). split; [|split]; reflexivity.
Defined.

