(* ===== verification/Fs.v ===== *)
(** * The file system: fs.c

    Block allocation, inodes, file contents, directories and path names. *)
From S2P Require Import Prelude State CString Kalloc Vm Sched Printf Bytes Bio Log.

Open Scope Z_scope.

(** ** stat.h, fs.h *)
Definition T_DIR : Z := 1.
Definition T_FILE : Z := 2.
Definition T_DEVICE : Z := 3.

Definition IBLOCK (i : Z) (sb : superblock) : Z := uint32 (i / IPB + sb_inodestart sb).
Definition BBLOCK (b : Z) (sb : superblock) : Z := uint32 (b / BPB + sb_bmapstart sb).

(** [struct dinode] at position [inum % IPB] of an inode block. *)
Definition dip_off (inum : Z) : Z := inum mod IPB * 64.
Definition di_type (d : list Z) (inum : Z) : Z := int16 (ld16 d (dip_off inum)).
Definition di_major (d : list Z) (inum : Z) : Z := int16 (ld16 d (dip_off inum + 2)).
Definition di_minor (d : list Z) (inum : Z) : Z := int16 (ld16 d (dip_off inum + 4)).
Definition di_nlink (d : list Z) (inum : Z) : Z := int16 (ld16 d (dip_off inum + 6)).
Definition di_size (d : list Z) (inum : Z) : Z := ld32 d (dip_off inum + 8).
Definition di_addrs (d : list Z) (inum : Z) : list Z :=
  (fun i => ld32 d (dip_off inum + 12 + 4 * i)) <$> seqZ 0 (NDIRECT + 1).

Fixpoint put_addrs (d : list Z) (off : Z) (addrs : list Z) : list Z :=
  match addrs with
  | [] => d
  | a :: addrs' => put_addrs (st32 d off a) (off + 4) addrs'
  end.
Definition put_dinode (d : list Z) (inum : Z) (ip : inode) : list Z :=
  let o := dip_off inum in
  let d := st16 d o (i_type ip) in
  let d := st16 d (o + 2) (i_major ip) in
  let d := st16 d (o + 4) (i_minor ip) in
  let d := st16 d (o + 6) (i_nlink ip) in
  let d := st32 d (o + 8) (i_size ip) in
  put_addrs d (o + 12) (i_addrs ip).

(** [struct dirent] *)
Definition DIRENT : Z := 16.
Definition de_inum (de : list Z) : Z := ld16 de 0.
Definition de_name (de : list Z) : list Z := slice de 2 DIRSIZ.

(** ** Names *)

(** [strncmp(s, t, n)] on two buffers; a buffer that ends is nul terminated. *)
Fixpoint lstrncmp (n : nat) (s t : list Z) : Z :=
  match n with
  | O => 0
  | S n' =>
      let a := nth 0 s 0 in
      let b := nth 0 t 0 in
      if negb (a =? 0) && (a =? b) then lstrncmp n' (tail s) (tail t) else a - b
  end.
Definition namecmp (s t : list Z) : Z := lstrncmp (Z.to_nat DIRSIZ) s t.

(** [strncpy(dst, s, n)]: the bytes stored. *)
Fixpoint lstrncpy (n : nat) (s : list Z) : list Z :=
  match n with
  | O => []
  | S n' =>
      let a := nth 0 s 0 in
      if a =? 0 then replicate n 0 else a :: lstrncpy n' (tail s)
  end.

Definition slash : Z := 47.
Fixpoint skip_slashes (path : list Z) : list Z :=
  match path with
  | c :: path' => if c =? slash then skip_slashes path' else path
  | [] => []
  end.
(** The element up to the next slash, and what follows. *)
Fixpoint take_elem (path : list Z) : list Z * list Z :=
  match path with
  | c :: path' =>
      if c =? slash then ([], path) else let '(e, r) := take_elem path' in (c :: e, r)
  | [] => ([], [])
  end.

(** [skipelem(path, name)]: the rest of the path and the new contents of the
    [DIRSIZ] bytes at [name]; a path is a list without its nul. *)
Definition skipelem (path name : list Z) : option (list Z * list Z) :=
  let path := skip_slashes path in
  match path with
  | [] => None
  | _ =>
      let '(s, path) := take_elem path in
      let len := Z.of_nat (length s) in
      let name :=
        if DIRSIZ <=? len then splice name 0 (take (Z.to_nat DIRSIZ) s)
        else splice (splice name 0 s) len [0] in
      Some (skip_slashes path, name)
  end.

Section Fuel.
Context (fuel : nat).

(** ** Blocks *)
Definition readsb (dev : Z) : K unit :=
  let* bp := bread fuel dev 1 in
  let* v := get_buf bp in
  let f i := ld32 (b_data v) (4 * i) in
  modify (set_k_sb (mkSuperblock (f 0) (f 1) (f 2) (f 3) (f 4) (f 5) (f 6) (f 7))) ;;;
  brelse bp.

Definition bzero (dev bno : Z) : K unit :=
  let* bp := bread fuel dev bno in
  mod_buf bp (set_b_data zero_block) ;;;
  log_write bp ;;;
  brelse bp.

Definition data_and (d : list Z) (i m : Z) : Z := Z.land (byte_at d i) m.
Definition put_byte (i v : Z) (b : buf) : buf := set_b_data (<[Z.to_nat i := uint8 v]> (b_data b)) b.

Definition balloc (dev : Z) : K Z :=
  let* sb := gets k_sb in
  let* r := for_loop (Z.to_nat (sb_size sb / BPB + 1)) 0 (fun b => b <? sb_size sb) (fun b => b + BPB) (fun b =>
    let* bp := bread fuel dev (BBLOCK b sb) in
    let* r := for_each (seqZ 0 (Z.min BPB (sb_size sb - b))) (fun bi =>
      let m := Z.shiftl 1 (bi mod 8) in
      let* v := get_buf bp in
      if data_and (b_data v) (bi / 8) m =? 0 then
        mod_buf bp (put_byte (bi / 8) (Z.lor (byte_at (b_data v) (bi / 8)) m)) ;;;
        log_write bp ;;;
        brelse bp ;;;
        bzero dev (b + bi) ;;;
        ret (Some (b + bi))
      else ret None) in
    match r with
    | Some v => ret (Some v)
    | None => brelse bp ;;; ret None
    end) in
  match r with
  | Some v => ret v
  | None => let* _ := printf ("balloc: out of blocks" +:+ nl) [] in ret 0
  end.

Definition bfree (dev b : Z) : K unit :=
  let* sb := gets k_sb in
  let* bp := bread fuel dev (BBLOCK b sb) in
  let bi := b mod BPB in
  let m := Z.shiftl 1 (bi mod 8) in
  let* v := get_buf bp in
  if data_and (b_data v) (bi / 8) m =? 0 then panic "freeing free block" else
  mod_buf bp (put_byte (bi / 8) (Z.land (byte_at (b_data v) (bi / 8)) (Z.lnot m))) ;;;
  log_write bp ;;;
  brelse bp.

(** ** Inodes *)
Definition itable_slots : list nat := seq 0 (Z.to_nat NINODE).

Definition iinit : K unit := for_all itable_slots (fun i => initsleeplock (SInode i)).

(** A turn of the scan of [iget]: the entry of the inode, or the first empty slot. *)
Definition iget_turn (dev inum : Z) (i : nat) (r : nat + option nat) : K (nat + option nat) :=
  match r with
  | inl _ => ret r
  | inr empty =>
      let* ip := get_inode i in
      if (0 <? i_ref ip) && (i_dev ip =? dev) && (i_inum ip =? inum) then ret (inl i)
      else if bool_decide (empty = None) && (i_ref ip =? 0) then ret (inr (Some i))
      else ret r
  end.

Definition iget (dev inum : Z) : K nat :=
  acquire LItable ;;;
  let* r := fold_each itable_slots (inr None : nat + option nat) (iget_turn dev inum) in
  match r with
  | inl i =>
      mod_inode i (fun ip => set_i_ref (i_ref ip + 1) ip) ;;;
      release LItable ;;;
      ret i
  | inr None => panic "iget: no inodes"
  | inr (Some i) =>
      mod_inode i (fun ip => set_i_valid 0 (set_i_ref 1 (set_i_inum inum (set_i_dev dev ip)))) ;;;
      release LItable ;;;
      ret i
  end.

Definition ialloc (dev type : Z) : K (option nat) :=
  let* sb := gets k_sb in
  let* r := for_each (seqZ 1 (sb_ninodes sb - 1)) (fun inum =>
    let* bp := bread fuel dev (IBLOCK inum sb) in
    let* v := get_buf bp in
    if di_type (b_data v) inum =? 0 then
      mod_buf bp (fun v => set_b_data
        (st16 (splice (b_data v) (dip_off inum) (replicate 64 0)) (dip_off inum) type) v) ;;;
      log_write bp ;;;
      brelse bp ;;;
      let* ip := iget dev inum in
      ret (Some ip)
    else brelse bp ;;; ret None) in
  match r with
  | Some ip => ret (Some ip)
  | None => let* _ := printf ("ialloc: no inodes" +:+ nl) [] in ret None
  end.

Definition iupdate (i : nat) : K unit :=
  let* sb := gets k_sb in
  let* ip := get_inode i in
  let* bp := bread fuel (i_dev ip) (IBLOCK (i_inum ip) sb) in
  mod_buf bp (fun v => set_b_data (put_dinode (b_data v) (i_inum ip) ip) v) ;;;
  log_write bp ;;;
  brelse bp.

Definition idup (i : nat) : K nat :=
  acquire LItable ;;;
  mod_inode i (fun ip => set_i_ref (i_ref ip + 1) ip) ;;;
  release LItable ;;;
  ret i.

Definition ilock (i : nat) : K unit :=
  let* ip := get_inode i in
  if i_ref ip <? 1 then panic "ilock" else
  acquiresleep fuel (SInode i) ;;;
  let* ip := get_inode i in
  if i_valid ip =? 0 then
    let* sb := gets k_sb in
    let* bp := bread fuel (i_dev ip) (IBLOCK (i_inum ip) sb) in
    let* v := get_buf bp in
    let d := b_data v in
    let n := i_inum ip in
    mod_inode i (fun ip => set_i_addrs (di_addrs d n) (set_i_size (di_size d n) (set_i_nlink (di_nlink d n)
      (set_i_minor (di_minor d n) (set_i_major (di_major d n) (set_i_type (di_type d n) ip)))))) ;;;
    brelse bp ;;;
    mod_inode i (set_i_valid 1) ;;;
    let* ip := get_inode i in
    if i_type ip =? 0 then panic "ilock: no type" else skip
  else skip.

Definition iunlock (i : nat) : K unit :=
  let* h := holdingsleep (SInode i) in
  let* ip := get_inode i in
  if negb h || (i_ref ip <? 1) then panic "iunlock" else releasesleep (SInode i).

(** ** Contents *)
Definition set_addr (n v : Z) (ip : inode) : inode := set_i_addrs (<[Z.to_nat n := v]> (i_addrs ip)) ip.

Definition itrunc (i : nat) : K unit :=
  for_all (seqZ 0 NDIRECT) (fun n =>
    let* ip := get_inode i in
    if negb (byte_at (i_addrs ip) n =? 0) then
      bfree (i_dev ip) (byte_at (i_addrs ip) n) ;;;
      mod_inode i (set_addr n 0)
    else skip) ;;;
  let* ip := get_inode i in
  (if negb (byte_at (i_addrs ip) NDIRECT =? 0) then
     let* bp := bread fuel (i_dev ip) (byte_at (i_addrs ip) NDIRECT) in
     for_all (seqZ 0 NINDIRECT) (fun j =>
       let* v := get_buf bp in
       let a := ld32 (b_data v) (4 * j) in
       if negb (a =? 0) then bfree (i_dev ip) a else skip) ;;;
     brelse bp ;;;
     bfree (i_dev ip) (byte_at (i_addrs ip) NDIRECT) ;;;
     mod_inode i (set_addr NDIRECT 0)
   else skip) ;;;
  mod_inode i (set_i_size 0) ;;;
  iupdate i.

Definition iput (i : nat) : K unit :=
  acquire LItable ;;;
  let* ip := get_inode i in
  (if (i_ref ip =? 1) && negb (i_valid ip =? 0) && (i_nlink ip =? 0) then
     acquiresleep fuel (SInode i) ;;;
     release LItable ;;;
     itrunc i ;;;
     mod_inode i (set_i_type 0) ;;;
     iupdate i ;;;
     mod_inode i (set_i_valid 0) ;;;
     releasesleep (SInode i) ;;;
     acquire LItable
   else skip) ;;;
  mod_inode i (fun ip => set_i_ref (i_ref ip - 1) ip) ;;;
  release LItable.

Definition iunlockput (i : nat) : K unit := iunlock i ;;; iput i.

Definition ireclaim_turn (dev : Z) (sb : superblock) (inum : Z) : K unit :=
  let* bp := bread fuel dev (IBLOCK inum sb) in
  let* v := get_buf bp in
  let* ip :=
    (if negb (di_type (b_data v) inum =? 0) && (di_nlink (b_data v) inum =? 0) then
       let* _ := printf ("ireclaim: orphaned inode %d" +:+ nl) [AInt inum] in
       let* ip := iget dev inum in ret (Some ip)
     else ret None) in
  brelse bp ;;;
  match ip with
  | Some ip => begin_op fuel ;;; ilock ip ;;; iunlock ip ;;; iput ip ;;; end_op fuel
  | None => skip
  end.

Definition ireclaim (dev : Z) : K unit :=
  let* sb := gets k_sb in
  for_all (seqZ 1 (sb_ninodes sb - 1)) (ireclaim_turn dev sb).

Definition fsinit (dev : Z) : K unit :=
  readsb dev ;;;
  let* sb := gets k_sb in
  if negb (sb_magic sb =? FSMAGIC) then panic "invalid file system" else
  initlog fuel dev ;;;
  ireclaim dev.

(** Entry [bn] of the indirect block [addr]. *)
Definition bmap_entry (dev addr bn : Z) : K Z :=
  let* bp := bread fuel dev addr in
  let* v := get_buf bp in
  let a := ld32 (b_data v) (4 * bn) in
  let* addr :=
    (if a =? 0 then
       let* addr := balloc dev in
       (if negb (addr =? 0) then
          mod_buf bp (fun v => set_b_data (st32 (b_data v) (4 * bn) addr) v) ;;;
          log_write bp
        else skip) ;;;
       ret addr
     else ret a) in
  brelse bp ;;;
  ret addr.

Definition bmap (i : nat) (bn : Z) : K Z :=
  let* ip := get_inode i in
  if bn <? NDIRECT then
    let addr := byte_at (i_addrs ip) bn in
    if addr =? 0 then
      let* addr := balloc (i_dev ip) in
      if addr =? 0 then ret 0 else
      mod_inode i (set_addr bn addr) ;;;
      ret addr
    else ret addr
  else
  let bn := bn - NDIRECT in
  if bn <? NINDIRECT then
    let* addr :=
      (if byte_at (i_addrs ip) NDIRECT =? 0 then
         let* addr := balloc (i_dev ip) in
         (if addr =? 0 then skip else mod_inode i (set_addr NDIRECT addr)) ;;;
         ret addr
       else ret (byte_at (i_addrs ip) NDIRECT)) in
    if addr =? 0 then ret 0 else bmap_entry (i_dev ip) addr bn
  else panic "bmap: out of range".

(** [stati]: the fields of [struct stat] laid out in 24 bytes, with the padding
    before [size] zero. *)
Definition stati (ip : inode) : list Z :=
  enc 4 (i_dev ip) ++ enc 4 (i_inum ip) ++ enc 2 (i_type ip) ++ enc 2 (i_nlink ip)
  ++ replicate 4 0 ++ enc 8 (i_size ip).

(** A turn of the loop of [readi]; the state holds the bytes moved so far. *)
Definition readi_turn (i : nat) (dev n : Z) (l : Z * Z * place * list Z) : K (Z * Z * place * list Z + Z * list Z) :=
  let '(tot, off, dst, acc) := l in
  if n <=? tot then ret (inr (tot, acc)) else
  let* addr := bmap i (off / BSIZE) in
  if addr =? 0 then ret (inr (tot, acc)) else
  let* bp := bread fuel dev addr in
  let m := Z.min (n - tot) (BSIZE - off mod BSIZE) in
  let* v := get_buf bp in
  let bytes := slice (b_data v) (off mod BSIZE) m in
  let* e := either_copyout dst bytes in
  if e =? -1 then brelse bp ;;; ret (inr (-1, acc)) else
  brelse bp ;;;
  ret (inl (tot + m, off + m, place_add dst m, acc ++ bytes)).

(** The result of [readi] and the bytes it moved. *)
Definition readi (i : nat) (dst : place) (off n : Z) : K (Z * list Z) :=
  let* ip := get_inode i in
  if (i_size ip <? off) || (uint32 (off + n) <? off) then ret (0, []) else
  let n := if i_size ip <? uint32 (off + n) then i_size ip - off else n in
  while_loop (Z.to_nat (n / BSIZE + 3)) (0, off, dst, []) (readi_turn i (i_dev ip) n).

(** A turn of the loop of [writei]. *)
Definition writei_turn (i : nat) (dev n : Z) (l : Z * Z * source) : K (Z * Z * source + Z * Z) :=
  let '(tot, off, src) := l in
  if n <=? tot then ret (inr (tot, off)) else
  let* addr := bmap i (off / BSIZE) in
  if addr =? 0 then ret (inr (tot, off)) else
  let* bp := bread fuel dev addr in
  let m := Z.min (n - tot) (BSIZE - off mod BSIZE) in
  let* r := either_copyin src m in
  let '(e, bytes) := r in
  mod_buf bp (fun v => set_b_data (splice (b_data v) (off mod BSIZE) bytes) v) ;;;
  if e =? -1 then brelse bp ;;; ret (inr (tot, off)) else
  log_write bp ;;;
  brelse bp ;;;
  ret (inl (tot + m, off + m, source_add src m)).

Definition writei (i : nat) (src : source) (off n : Z) : K Z :=
  let* ip := get_inode i in
  if (i_size ip <? off) || (uint32 (off + n) <? off) then ret (-1) else
  if MAXFILE * BSIZE <? uint32 (off + n) then ret (-1) else
  let* r := while_loop (Z.to_nat (n / BSIZE + 3)) (0, off, src) (writei_turn i (i_dev ip) n) in
  let '(tot, off) := r in
  let* ip := get_inode i in
  (if i_size ip <? off then mod_inode i (set_i_size off) else skip) ;;;
  iupdate i ;;;
  ret tot.

(** ** Directories *)

(** The entry at [off]: the inode and the offset if it has the name. *)
Definition dirlookup_turn (dp : nat) (dev : Z) (name : list Z) (off : Z) : K (option (nat * Z)) :=
  let* r := readi dp Local off DIRENT in
  let '(e, de) := r in
  if negb (e =? DIRENT) then panic "dirlookup read" else
  if de_inum de =? 0 then ret None else
  if namecmp name (de_name de) =? 0 then
    let* ip' := iget dev (de_inum de) in
    ret (Some (ip', off))
  else ret None.

(** The inode found and the offset of its entry. *)
Definition dirlookup (dp : nat) (name : list Z) : K (option (nat * Z)) :=
  let* ip := get_inode dp in
  if negb (i_type ip =? T_DIR) then panic "dirlookup not DIR" else
  for_loop (Z.to_nat (i_size ip / DIRENT + 1)) 0 (fun off => off <? i_size ip) (fun off => off + DIRENT) (dirlookup_turn dp (i_dev ip) name).

Definition dirlink (dp : nat) (name : list Z) (inum : Z) : K Z :=
  let* r := dirlookup dp name in
  match r with
  | Some (ip, _) => iput ip ;;; ret (-1)
  | None =>
      let* ip := get_inode dp in
      let* free := for_loop (Z.to_nat (i_size ip / DIRENT + 1)) 0 (fun off => off <? i_size ip)
        (fun off => off + DIRENT) (fun off =>
          let* r := readi dp Local off DIRENT in
          let '(e, de) := r in
          if negb (e =? DIRENT) then panic "dirlink read" else
          if de_inum de =? 0 then ret (Some off) else ret None) in
      (* without a free entry the loop leaves [off] at the first multiple of
         the entry size that is not below the file size *)
      let off := default ((i_size ip + DIRENT - 1) / DIRENT * DIRENT) free in
      let de := enc 2 inum ++ lstrncpy (Z.to_nat DIRSIZ) name in
      let* e := writei dp (SLocal de) off DIRENT in
      if negb (e =? DIRENT) then ret (-1) else ret 0
  end.

(** ** Path names *)
(** A turn of the loop of [namex]. *)
Definition namex_turn (nameiparent : bool) (l : nat * list Z * list Z) : K (nat * list Z * list Z + option nat * list Z) :=
  let '(ip, path, name) := l in
  match skipelem path name with
  | None =>
      if nameiparent then iput ip ;;; ret (inr (None, name)) else ret (inr (Some ip, name))
  | Some (path, name) =>
      ilock ip ;;;
      let* v := get_inode ip in
      if negb (i_type v =? T_DIR) then iunlockput ip ;;; ret (inr (None, name)) else
      if nameiparent && bool_decide (path = []) then iunlock ip ;;; ret (inr (Some ip, name)) else
      let* next := dirlookup ip name in
      match next with
      | None => iunlockput ip ;;; ret (inr (None, name))
      | Some (next, _) => iunlockput ip ;;; ret (inl (next, path, name))
      end
  end.

Definition namex (path : list Z) (nameiparent : bool) (name : list Z) : K (option nat * list Z) :=
  let* ip :=
    (if nth 0 path 0 =? slash then iget ROOTDEV ROOTINO
     else
       let* p := this_proc in
       let* pr := get_proc p in
       match p_cwd pr with Some c => idup c | None => panic "kerneltrap" end) in
  while_loop (S (length path)) (ip, path, name) (namex_turn nameiparent).

Definition name0 : list Z := replicate (Z.to_nat DIRSIZ) 0.
Definition namei (path : list Z) : K (option nat) :=
  let* r := namex path false name0 in ret (fst r).
Definition nameiparent (path : list Z) : K (option nat * list Z) := namex path true name0.
End Fuel.
