(* ===== verification/FsData.v ===== *)
(** * Data of the file system: path names, directory entries, inodes on disk

    What [skipelem] makes of a path, when [namecmp] finds the entry that
    [dirlink] wrote, and that [iupdate] and [ilock] are inverse on the inode
    block. *)
From S2P Require Import Prelude State CString Bytes Bio Fs.

Open Scope Z_scope.

(** ** Path names *)

(** The elements of a path: what stands between slashes, when not empty. *)
Fixpoint split_at (sep : Z) (path : list Z) : list (list Z) :=
  match path with
  | [] => [[]]
  | c :: path' =>
      if c =? sep then [] :: split_at sep path'
      else match split_at sep path' with
           | e :: es => (c :: e) :: es
           | [] => [[c]]
           end
  end.
Definition elems (path : list Z) : list (list Z) :=
  filter (fun e => e <> []) (split_at slash path).

(** The file name in a buffer of [DIRSIZ] bytes. *)
Definition name_of (name : list Z) : list Z := take (Z.to_nat DIRSIZ) (cstr name).

(** The names [namex] looks up, by repeating [skipelem]. *)
Fixpoint path_names (n : nat) (path name : list Z) : option (list (list Z)) :=
  match n with
  | O => None
  | S n' =>
      match skipelem path name with
      | None => Some []
      | Some (path', name') => (fun l => name_of name' :: l) <$> path_names n' path' name'
      end
  end.

Lemma split_at_nonempty sep path : split_at sep path <> [].
Proof. destruct path as [|c path]; simpl; [done|]. destruct (c =? sep); [done|]. by destruct (split_at sep path). Qed.

Lemma elems_skip path : elems (skip_slashes path) = elems path.
Proof.
  induction path as [|c path IH]; [done|]. cbn [skip_slashes]. destruct (c =? slash) eqn:E; [|done].
  rewrite IH. unfold elems. cbn [split_at]. by rewrite E.
Qed.

Lemma skip_slashes_head path c rest : skip_slashes path = c :: rest -> c <> slash.
Proof.
  induction path as [|d path IH]; simpl; [done|]. destruct (Z.eqb_spec d slash); [apply IH|]. by intros [= <- _].
Qed.

Lemma skip_slashes_le path : (length (skip_slashes path) <= length path)%nat.
Proof. induction path as [|c path IH]; simpl; [lia|]. destruct (c =? slash); simpl; lia. Qed.

Lemma take_elem_split path e r :
  take_elem path = (e, r) ->
  path = e ++ r /\ slash ∉ e /\ (r = [] \/ exists r', r = slash :: r') /\
  split_at slash path = match r with [] => [e] | _ :: r' => e :: split_at slash r' end.
Proof.
  revert e r. induction path as [|c path IH]; simpl; intros e r; [intros [= <- <-]; set_solver|].
  destruct (Z.eqb_spec c slash) as [->|Hc]; [intros [= <- <-]; set_solver|].
  destruct (take_elem path) as [e' r'] eqn:E. intros [= <- <-].
  destruct (IH e' r' eq_refl) as (-> & H1 & H2 & ->). split; [done|]. split; [set_solver|]. split; [done|].
  by destruct r'.
Qed.

Lemma elems_cons path c rest e r :
  skip_slashes path = c :: rest -> take_elem (c :: rest) = (e, r) ->
  elems path = e :: elems (skip_slashes r) /\ e <> [] /\ (length (skip_slashes r) < length path)%nat.
Proof.
  intros E T. pose proof (skip_slashes_head _ _ _ E) as Hc. pose proof (skip_slashes_le path) as L1.
  destruct (take_elem_split _ _ _ T) as (E2 & _ & _ & S).
  assert (e <> []) as He.
  { simpl in T. rewrite (proj2 (Z.eqb_neq _ _) Hc) in T. destruct (take_elem rest) as [a b]. by injection T as <- _. }
  rewrite <- elems_skip, E. split; [|split; [done|]].
  - rewrite (elems_skip r). unfold elems. rewrite S. destruct r as [|d r]; rewrite filter_cons_True by done; [done|].
    destruct (take_elem_split _ _ _ T) as (_ & _ & [?|[r' [= -> ->]]] & _); done.
  - pose proof (skip_slashes_le r) as L2. rewrite E, E2 in L1. rewrite length_app in L1. destruct e; [done|]. simpl in L1. lia.
Qed.

Lemma cstr_id l : 0 ∉ l -> cstr l = l.
Proof.
  induction l as [|c l IH]; simpl; intros H; [done|].
  destruct (Z.eqb_spec c 0); [set_solver|]. f_equal. apply IH. set_solver.
Qed.

Lemma cstr_app_nul l r : 0 ∉ l -> cstr (l ++ 0 :: r) = l.
Proof.
  induction l as [|c l IH]; simpl; intros H; [done|].
  destruct (Z.eqb_spec c 0); [set_solver|]. f_equal. apply IH. set_solver.
Qed.

Lemma cstr_app_prefix l r : 0 ∉ l -> cstr (l ++ r) = l ++ cstr r.
Proof.
  induction l as [|c l IH]; simpl; intros H; [done|].
  destruct (Z.eqb_spec c 0); [set_solver|]. f_equal. apply IH. set_solver.
Qed.

(** What one [skipelem] does to the name buffer. *)
Lemma skipelem_name e name :
  0 ∉ e -> length name = Z.to_nat DIRSIZ ->
  let len := Z.of_nat (length e) in
  let name' := if DIRSIZ <=? len then splice name 0 (take (Z.to_nat DIRSIZ) e)
               else splice (splice name 0 e) len [0] in
  name_of name' = take (Z.to_nat DIRSIZ) e /\ length name' = Z.to_nat DIRSIZ.
Proof.
  intros H0 Hn len. subst len. change (Z.to_nat DIRSIZ) with 14%nat in *. change DIRSIZ with 14.
  unfold name_of. destruct (Z.leb_spec 14 (Z.of_nat (length e))) as [L|L].
  - assert (length (take 14 e) = 14%nat) as Lt by (rewrite length_take; lia).
    split; [|rewrite splice_length; lia]. unfold splice. simpl. rewrite drop_ge by lia. rewrite app_nil_r.
    rewrite cstr_id; [by rewrite take_take|]. intros H. apply H0. rewrite <- (take_drop 14 e). set_solver.
  - assert (length (splice name 0 e) = 14%nat) as Ls by (rewrite splice_length; simpl; lia).
    split; [|rewrite splice_length; rewrite Ls; [done|]; cbn [length]; lia].
    unfold splice at 1. rewrite Nat2Z.id. unfold splice. simpl. rewrite take_app_length.
    by rewrite (cstr_app_nul e).
Qed.

(** Repeating [skipelem] over a path without a nul, as [namex] does, visits
    exactly the non-empty elements between slashes, in order, each cut to
    [DIRSIZ] bytes, and ends. *)
Theorem skipelem_elems path name :
  0 ∉ path -> length name = Z.to_nat DIRSIZ ->
  path_names (S (length path)) path name = Some (take (Z.to_nat DIRSIZ) <$> elems path).
Proof.
  remember (S (length path)) as n eqn:En. assert (length path < n)%nat as L by lia. clear En.
  revert path name L. induction n as [|n IH]; intros path name L H0 Hn; [lia|]. cbn [path_names]. unfold skipelem.
  destruct (skip_slashes path) as [|c rest] eqn:E.
  { rewrite <- elems_skip, E. done. }
  destruct (take_elem (c :: rest)) as [e r] eqn:T.
  destruct (elems_cons _ _ _ _ _ E T) as (-> & _ & Lt).
  destruct (take_elem_split _ _ _ T) as (E2 & _ & _ & _).
  assert (forall x, x ∈ e ++ r -> x ∈ path) as Sub.
  { intros x Hx. rewrite <- E2, <- E in Hx. clear -Hx. induction path as [|d path IH]; simpl in *; [done|].
    destruct (d =? slash); set_solver. }
  assert (0 ∉ e) as He by (intros H; apply H0, Sub; set_solver).
  destruct (skipelem_name e name He Hn) as [N1 N2]. rewrite IH; [by rewrite N1|lia| |done].
  intros H. apply H0, Sub. assert (forall x, x ∈ skip_slashes r -> x ∈ r) as S'; [|set_solver].
  clear. intros x. induction r as [|d r IH]; simpl; [done|]. destruct (d =? slash); set_solver.
Qed.

(** /usr//bin/ is looked up as usr, bin. *)
Lemma skipelem_elems_witness :
  path_names 11 [47; 117; 115; 114; 47; 47; 98; 105; 110; 47] (replicate 14 0)
  = Some [[117; 115; 114]; [98; 105; 110]].
Proof.
  apply (skipelem_elems [47; 117; 115; 114; 47; 47; 98; 105; 110; 47] (replicate 14 0)); [|reflexivity].
  set_solver by lia.
Defined.

(** ** Directory entries *)
Lemma lstrncmp_eq n s t : lstrncmp n s t = 0 <-> take n (cstr s) = take n (cstr t).
Proof.
  revert s t. induction n as [|n IH]; intros s t; [done|]. cbn [lstrncmp].
  destruct s as [|a s], t as [|b t]; cbn [nth cstr tail take].
  - done.
  - simpl. destruct (Z.eqb_spec b 0) as [->|]; simpl; [done|]. split; [lia|done].
  - destruct (Z.eqb_spec a 0) as [->|]; simpl; [done|].
    split; [lia|done].
  - destruct (Z.eqb_spec a 0) as [->|Ha], (Z.eqb_spec b 0) as [->|Hb]; simpl.
    + done.
    + split; [lia|done].
    + rewrite (proj2 (Z.eqb_neq a 0)) by done. split; [lia|done].
    + destruct (Z.eqb_spec a b) as [->|Hab]; simpl.
      * rewrite IH. split; [by intros ->|by intros [= ->]].
      * split; [lia|]. by intros [= ->].
Qed.

Lemma lstrncpy_length n s : length (lstrncpy n s) = n.
Proof.
  revert s. induction n as [|n IH]; intros s; [done|]. cbn [lstrncpy].
  destruct (nth 0 s 0 =? 0); [by rewrite length_replicate|]. simpl. by rewrite IH.
Qed.

Lemma lstrncpy_cstr n s : cstr (lstrncpy n s) = take n (cstr s).
Proof.
  revert s. induction n as [|n IH]; intros s; [done|]. cbn [lstrncpy].
  destruct s as [|c s]; cbn [nth tail cstr]; [done|].
  destruct (c =? 0) eqn:E; [done|]. cbn [cstr]. rewrite E. simpl. by rewrite IH.
Qed.

(** The entry [dirlink] stores. *)
Definition dirent_of (name : list Z) (inum : Z) : list Z := enc 2 inum ++ lstrncpy (Z.to_nat DIRSIZ) name.

Lemma dirent_of_length name inum : length (dirent_of name inum) = Z.to_nat DIRENT.
Proof. unfold dirent_of. rewrite length_app, enc_length, lstrncpy_length. done. Qed.

(** The entry [dirlink] writes for a name is matched by [namecmp] for exactly
    the names that agree with it in the first [DIRSIZ] bytes, and it holds the
    inode number. *)
Theorem dirent_lookup name name' inum :
  0 <= inum < 2 ^ 16 ->
  (namecmp name' (de_name (dirent_of name inum)) = 0 <-> name_of name' = name_of name)
  /\ de_inum (dirent_of name inum) = inum.
Proof.
  intros Hi. unfold namecmp, de_name, de_inum, dirent_of, ld16, ld, slice. cbn [Z.to_nat].
  change (drop (Z.to_nat 2)) with (@drop Z 2). change (drop (Z.to_nat 0)) with (@drop Z 0).
  rewrite (drop_app_length' (enc 2 inum)) by by rewrite enc_length.
  rewrite drop_0, (take_app_length' (enc 2 inum)) by by rewrite enc_length.
  rewrite take_ge by by rewrite lstrncpy_length. split.
  - rewrite lstrncmp_eq, lstrncpy_cstr, take_take. done.
  - rewrite dec_enc. apply Z.mod_small. done.
Qed.

Lemma dirent_lookup_witness :
  namecmp [97; 98; 0; 7] (de_name (dirent_of [97; 98] 5)) = 0 /\ de_inum (dirent_of [97; 98] 5) = 5.
Proof.
  destruct (dirent_lookup [97; 98] [97; 98; 0; 7] 5) as [[_ H] ?]; [lia|]. split; [|done]. by apply H.
Defined.

(** ** Inodes on disk *)
Lemma int16_mod z : - 2 ^ 15 <= z < 2 ^ 15 -> int16 (z mod 256 ^ 2) = z.
Proof.
  intros H. unfold int16. change (256 ^ 2) with (2 ^ 16).
  rewrite Zplus_mod_idemp_l. rewrite Z.mod_small; lia.
Qed.

Lemma put_addrs_length l off addrs :
  0 <= off -> off + 4 * Z.of_nat (length addrs) <= Z.of_nat (length l) -> length (put_addrs l off addrs) = length l.
Proof.
  revert l off. induction addrs as [|a addrs IH]; intros l off H1 H2; [done|]. cbn [put_addrs length] in *; unfold st32.
  rewrite IH; rewrite ?st_length; lia.
Qed.

Lemma put_addrs_ld_ne n l off addrs o :
  0 <= off -> 0 <= o -> off + 4 * Z.of_nat (length addrs) <= Z.of_nat (length l) ->
  o + n <= off \/ off + 4 * Z.of_nat (length addrs) <= o ->
  ld n (put_addrs l off addrs) o = ld n l o.
Proof.
  revert l off. induction addrs as [|a addrs IH]; intros l off H1 H2 H3 H4; [done|]. cbn [put_addrs length] in *; unfold st32.
  rewrite IH; [|rewrite ?st_length; lia..]. apply ld_st_ne; lia.
Qed.

Lemma put_addrs_ld l off addrs i a :
  0 <= off -> off + 4 * Z.of_nat (length addrs) <= Z.of_nat (length l) -> addrs !! i = Some a ->
  ld32 (put_addrs l off addrs) (off + 4 * Z.of_nat i) = a mod 256 ^ 4.
Proof.
  revert l off i. induction addrs as [|b addrs IH]; intros l off i H1 H2 Hi; [done|]. cbn [put_addrs length] in *; unfold st32.
  destruct i as [|i]; simpl in Hi.
  - injection Hi as ->. unfold ld32. rewrite put_addrs_ld_ne; [|rewrite ?st_length; lia..].
    replace (off + 4 * Z.of_nat 0) with off by lia. apply ld_st_eq; lia.
  - replace (off + 4 * Z.of_nat (S i)) with (off + 4 + 4 * Z.of_nat i) by lia.
    apply IH; [lia| |done]. rewrite st_length; lia.
Qed.
(** The fields of an in-memory inode that live on disk. *)
Definition disk_part (ip : inode) : Z * Z * Z * Z * Z * list Z :=
  (i_type ip, i_major ip, i_minor ip, i_nlink ip, i_size ip, i_addrs ip).
Definition dinode (d : list Z) (inum : Z) : Z * Z * Z * Z * Z * list Z :=
  (di_type d inum, di_major d inum, di_minor d inum, di_nlink d inum, di_size d inum, di_addrs d inum).

(** The fields fit their C types. *)
Record inode_fits (ip : inode) : Prop := {
  fits_type : - 2 ^ 15 <= i_type ip < 2 ^ 15;
  fits_major : - 2 ^ 15 <= i_major ip < 2 ^ 15;
  fits_minor : - 2 ^ 15 <= i_minor ip < 2 ^ 15;
  fits_nlink : - 2 ^ 15 <= i_nlink ip < 2 ^ 15;
  fits_size : 0 <= i_size ip < 2 ^ 32;
  fits_addrs : length (i_addrs ip) = Z.to_nat (NDIRECT + 1);
  fits_addr : Forall (fun a => 0 <= a < 2 ^ 32) (i_addrs ip);
}.

Lemma dip_off_range inum : 0 <= dip_off inum /\ dip_off inum + 64 <= BSIZE.
Proof.
  unfold dip_off. change IPB with 16. change BSIZE with 1024.
  pose proof (Z.mod_pos_bound inum 16 ltac:(lia)). lia.
Qed.

(** The fixed fields of [put_dinode], without the block addresses. *)
Definition put_fields (d : list Z) (o : Z) (ip : inode) : list Z :=
  st32 (st16 (st16 (st16 (st16 d o (i_type ip)) (o + 2) (i_major ip)) (o + 4) (i_minor ip)) (o + 6) (i_nlink ip))
    (o + 8) (i_size ip).
Lemma put_dinode_fields d inum ip :
  put_dinode d inum ip = put_addrs (put_fields d (dip_off inum) ip) (dip_off inum + 12) (i_addrs ip).
Proof. done. Qed.

Ltac field_side :=
  match goal with
  | |- context [length (st ?n ?l ?o ?v)] => rewrite (st_length n l o v); [field_side | lia | lia | field_side]
  | _ => lia
  end.
Ltac fields := unfold put_fields, ld16, ld32, st16, st32;
  repeat first [rewrite ld_st_eq by field_side | rewrite ld_st_ne by field_side].

Section Dinode.
Context (d : list Z) (inum : Z) (ip : inode).
Context (Hd : Z.of_nat (length d) = BSIZE) (Hip : inode_fits ip).

Lemma put_fields_length : Z.of_nat (length (put_fields d (dip_off inum) ip)) = BSIZE.
Proof.
  pose proof (dip_off_range inum). unfold put_fields, st16, st32. field_side.
Qed.

Lemma addrs_room : dip_off inum + 12 + 4 * Z.of_nat (length (i_addrs ip)) = dip_off inum + 64.
Proof. rewrite (fits_addrs ip Hip). change (Z.of_nat (Z.to_nat (NDIRECT + 1))) with 13. lia. Qed.

Lemma put_dinode_ld n o :
  0 <= o -> o + n <= dip_off inum + 12 \/ dip_off inum + 64 <= o ->
  ld n (put_dinode d inum ip) o = ld n (put_fields d (dip_off inum) ip) o.
Proof.
  intros. pose proof (dip_off_range inum). pose proof addrs_room. pose proof put_fields_length.
  rewrite put_dinode_fields. apply put_addrs_ld_ne; lia.
Qed.

Lemma put_dinode_length : Z.of_nat (length (put_dinode d inum ip)) = BSIZE.
Proof.
  pose proof (dip_off_range inum). pose proof addrs_room. pose proof put_fields_length.
  rewrite put_dinode_fields, put_addrs_length; lia.
Qed.

Lemma put_dinode_same : dinode (put_dinode d inum ip) inum = disk_part ip.
Proof.
  pose proof (dip_off_range inum) as [R1 R2]. destruct Hip. unfold dinode, disk_part.
  assert (di_addrs (put_dinode d inum ip) inum = i_addrs ip) as ->.
  { apply list_eq. intros i. unfold di_addrs. rewrite list_lookup_fmap.
    destruct (i_addrs ip !! i) as [a|] eqn:E.
    - pose proof (lookup_lt_Some _ _ _ E) as L. rewrite fits_addrs0 in L. change (Z.to_nat (NDIRECT + 1)) with 13%nat in L.
      rewrite lookup_seqZ_lt by (change (NDIRECT + 1) with 13; lia). simpl. f_equal.
      rewrite put_dinode_fields, (put_addrs_ld _ _ _ i a); [| lia | pose proof addrs_room; pose proof put_fields_length; lia | done].
      rewrite Forall_lookup in fits_addr0. apply Z.mod_small. exact (fits_addr0 _ _ E).
    - apply lookup_ge_None in E. rewrite fits_addrs0 in E. change (Z.to_nat (NDIRECT + 1)) with 13%nat in E.
      rewrite lookup_seqZ_ge; [done|]. change (NDIRECT + 1) with 13. lia. }
  unfold di_type, di_major, di_minor, di_nlink, di_size, ld16, ld32. rewrite !put_dinode_ld by lia. fields.
  rewrite !int16_mod by done. by rewrite (Z.mod_small (i_size ip)).
Qed.

Lemma put_dinode_other j :
  dip_off j <> dip_off inum -> dinode (put_dinode d inum ip) j = dinode d j.
Proof.
  intros Hj. pose proof (dip_off_range inum) as [R1 R2]. pose proof (dip_off_range j) as [J1 J2].
  assert (dip_off j + 64 <= dip_off inum \/ dip_off inum + 64 <= dip_off j) as Dis by (unfold dip_off in *; lia).
  assert (forall n o, 0 <= o -> dip_off j <= o -> o + n <= dip_off j + 64 ->
    ld n (put_dinode d inum ip) o = ld n d o) as E.
  { intros n o H0 H1 H2. rewrite put_dinode_ld by lia. fields. done. }
  unfold dinode, di_type, di_major, di_minor, di_nlink, di_size, di_addrs, ld16, ld32. rewrite !E by lia. f_equal.
  apply list_fmap_ext. intros k x Hx. apply lookup_seqZ in Hx as [-> Hk]. change (NDIRECT + 1) with 13 in Hk. apply E; lia.
Qed.
End Dinode.

(** What [iupdate] stores in the inode block, [ilock] reads back: every field
    of the inode, while the other inodes of the block keep theirs. *)
Theorem dinode_roundtrip d inum ip :
  Z.of_nat (length d) = BSIZE -> inode_fits ip ->
  let d' := put_dinode d inum ip in
  Z.of_nat (length d') = BSIZE /\ dinode d' inum = disk_part ip
  /\ forall j, j mod IPB <> inum mod IPB -> dinode d' j = dinode d j.
Proof.
  intros Hd Hip. split; [by apply put_dinode_length|]. split; [by apply put_dinode_same|].
  intros j Hj. apply put_dinode_other; [done|done|]. unfold dip_off. lia.
Qed.

Lemma dinode_roundtrip_witness :
  exists d', d' = put_dinode zero_block 3 (mkInode 1 3 1 (mkSleeplock 0 0) 1 2 0 0 1 5 (replicate 13 9))
  /\ dinode d' 3 = (2, 0, 0, 1, 5, replicate 13 9) /\ dinode d' 4 = dinode zero_block 4.
Proof.
  eexists. split; [reflexivity|].
  destruct (dinode_roundtrip zero_block 3 (mkInode 1 3 1 (mkSleeplock 0 0) 1 2 0 0 1 5 (replicate 13 9))) as (_ & H1 & H2).
  - reflexivity.
  - constructor; simpl; try lia; [reflexivity|]. repeat constructor; lia.
  - split; [exact H1|]. apply H2. vm_compute. discriminate.
Defined.

(** The superblock in a block. *)
Definition sb_of (d : list Z) : superblock :=
  mkSuperblock (ld32 d 0) (ld32 d 4) (ld32 d 8) (ld32 d 12) (ld32 d 16) (ld32 d 20) (ld32 d 24) (ld32 d 28).

(** ** The contents of a file *)

(** The address of block [k] of a file, 0 if it has none; [D] is the contents of
    each block. *)
Definition faddr (D : Z -> list Z) (addrs : list Z) (k : Z) : Z :=
  if k <? NDIRECT then byte_at addrs k
  else if byte_at addrs NDIRECT =? 0 then 0 else ld32 (D (byte_at addrs NDIRECT)) (4 * (k - NDIRECT)).

(** Block [k] of a file with these bytes, filled up with zeros. *)
Definition blockof (bytes : list Z) (k : Z) : list Z :=
  let r := slice bytes (BSIZE * k) BSIZE in r ++ replicate (Z.to_nat BSIZE - length r) 0.

Lemma blockof_length bytes k : length (blockof bytes k) = Z.to_nat BSIZE.
Proof. unfold blockof. rewrite length_app, length_replicate. unfold slice. rewrite length_take. lia. Qed.

Lemma blockof_lookup bytes k j : 0 <= k -> (j < Z.to_nat BSIZE)%nat -> blockof bytes k !! j = Some (default 0 (bytes !! (Z.to_nat (BSIZE * k) + j)%nat)).
Proof.
  intros Hk Hj. unfold blockof. set (r := slice bytes (BSIZE * k) BSIZE).
  assert (forall i, r !! i = if decide (i < Z.to_nat BSIZE)%nat then bytes !! (Z.to_nat (BSIZE * k) + i)%nat else None) as Er by (intros i; apply slice_lookup; unfold BSIZE; lia).
  destruct (decide (j < length r)%nat) as [Hr|Hr].
  - rewrite lookup_app_l by done. destruct (lookup_lt_is_Some_2 r j Hr) as [v Hv]. rewrite Hv. rewrite Er, decide_True in Hv by done. by rewrite Hv.
  - rewrite lookup_app_r by lia. assert (r !! j = None) as Hv by (apply lookup_ge_None; lia). rewrite Er, decide_True in Hv by done. rewrite Hv.
    apply lookup_replicate_2. unfold r, slice in *. rewrite length_take in *. lia.
Qed.

Lemma block_ext (l : list Z) bytes k : 0 <= k -> length l = Z.to_nat BSIZE ->
  (forall j, (j < Z.to_nat BSIZE)%nat -> l !! j = Some (default 0 (bytes !! (Z.to_nat (BSIZE * k) + j)%nat))) -> l = blockof bytes k.
Proof.
  intros Hk Hl H. apply list_eq. intros j. destruct (decide (j < Z.to_nat BSIZE)%nat) as [Hj|Hj].
  - by rewrite H, blockof_lookup by done.
  - rewrite !lookup_ge_None_2; [done|rewrite blockof_length; lia|lia].
Qed.

Lemma blockof_past bytes k : 0 <= k -> Z.of_nat (length bytes) <= BSIZE * k -> blockof bytes k = zero_block.
Proof.
  intros Hk Hl. symmetry. apply block_ext; [done|apply length_replicate|]. intros j Hj. rewrite (lookup_ge_None_2 bytes) by lia.
  by apply lookup_replicate_2.
Qed.

(** Appending bytes changes the last block only. *)
Lemma blockof_app_other bytes c k : 0 <= k -> k <> Z.of_nat (length bytes) / BSIZE ->
  Z.of_nat (length bytes + length c) <= BSIZE * (Z.of_nat (length bytes) / BSIZE + 1) -> blockof (bytes ++ c) k = blockof bytes k.
Proof.
  intros Hk Hne Hl. apply block_ext; [done|apply blockof_length|]. intros j Hj. rewrite blockof_lookup by done. f_equal. f_equal.
  destruct (decide (k < Z.of_nat (length bytes) / BSIZE)) as [Hlt|Hge].
  - rewrite lookup_app_l; [done|]. unfold BSIZE in *. dlia.
  - rewrite !lookup_ge_None_2; [done| |]; rewrite ?length_app; unfold BSIZE in *; dlia.
Qed.

Lemma blockof_app_last bytes c (k := Z.of_nat (length bytes) / BSIZE) :
  Z.of_nat (length bytes + length c) <= BSIZE * (k + 1) ->
  splice (blockof bytes k) (Z.of_nat (length bytes) - k * BSIZE) c = blockof (bytes ++ c) k.
Proof.
  intros Hl. assert (0 <= Z.of_nat (length bytes) - k * BSIZE < BSIZE) as Ho by (unfold k, BSIZE; dlia).
  assert (0 <= k) as Hk by (unfold k, BSIZE; dlia). unfold BSIZE in *.
  apply block_ext; [done| |].
  - rewrite splice_length; rewrite blockof_length; unfold BSIZE; lia.
  - intros j Hj. rewrite splice_lookup by (rewrite ?blockof_length; unfold BSIZE; lia). case_decide as Hd.
    + rewrite lookup_app_r by (unfold BSIZE; lia). destruct (lookup_lt_is_Some_2 c (j - Z.to_nat (Z.of_nat (length bytes) - k * 1024))) as [v Hv]; [lia|].
      rewrite Hv. replace (Z.to_nat (BSIZE * k) + j - length bytes)%nat with (j - Z.to_nat (Z.of_nat (length bytes) - k * 1024))%nat by (unfold BSIZE; lia).
      by rewrite Hv.
    + rewrite blockof_lookup by done. f_equal. f_equal. destruct (decide (Z.to_nat (BSIZE * k) + j < length bytes)%nat); [by rewrite lookup_app_l|].
      rewrite !lookup_ge_None_2; [done|rewrite length_app|]; unfold BSIZE in *; lia.
Qed.

Lemma ld_zero n o : 0 <= n -> 0 <= o -> o + n <= BSIZE -> ld n zero_block o = 0.
Proof.
  intros Hn H1 H2. assert (slice zero_block o n = replicate (Z.to_nat n) 0) as E.
  { unfold slice, zero_block. rewrite drop_replicate, take_replicate. f_equal. unfold BSIZE in *. lia. }
  unfold ld. rewrite E. clear. generalize (Z.to_nat n) as k. induction k as [|k IH]; [done|]. cbn [replicate dec]. rewrite IH. done.
Qed.

Lemma ld32_zero o : 0 <= o -> o + 4 <= BSIZE -> ld32 zero_block o = 0.
Proof. intros. apply ld_zero; lia. Qed.
