(* ===== verification/FsOp.v ===== *)
(** * The file system inside an operation

    What fs.c does with blocks between begin_op and end_op, for a thread alone
    with the disk: it reads blocks, holding some of their buffers, and passes the
    blocks it changes to log_write. *)
From S2P Require Import Prelude State CString Kalloc Vm Sched Printf Bytes Bio BioSpec Log LogSpec LogTxn Fs FsData.

Open Scope Z_scope.

Section Op.
Context (fuel : nat) (pid start : Z).

(** Inside [n] operations, with the buffers [H] held: [D] is what the blocks
    contain, [dirty] the blocks logged so far. *)
Record fsop (n : Z) (s : kernel) (H : gset nat) (P : nat -> Z) (D : Z -> list Z) (dirty : gset Z) : Prop := {
  fs_cache : cache s pid H P D dirty;
  fs_calm : calm s pid;
  fs_at : log_at s start;
  fs_homes : homes_ok start (homes (k_log s));
  fs_n : 0 <= l_n (k_log s);
  fs_dirty : forall x, x ∈ dirty <-> x ∈ homes (k_log s);
  fs_out : l_outstanding (k_log s) = n;
  fs_comm : l_committing (k_log s) = 0;
  fs_len : length (l_block (k_log s)) = Z.to_nat LOGBLOCKS;
  fs_head : hb_n (disk_block (k_disk s) start) = 0;
  fs_sized : sized (k_disk s) }.

Lemma fsop_in_op n s D dirty : in_op pid start n s D dirty -> exists P, fsop n s ∅ P D dirty.
Proof. intros [(P & I) C A H1 H2 H3 H4 H5 H6 H7 H8]. by exists P. Qed.

Lemma fsop_op n s P D dirty : fsop n s ∅ P D dirty -> in_op pid start n s D dirty.
Proof. intros [I C A H1 H2 H3 H4 H5 H6 H7 H8]. constructor; try done. by exists P. Qed.

Lemma fsop_size n s H P D dirty : fsop n s H P D dirty -> Z.of_nat (size dirty) = l_n (k_log s).
Proof.
  intros O. assert (dirty = list_to_set (homes (k_log s))) as ->.
  { apply set_eq. intros x. rewrite elem_of_list_to_set. apply O. }
  rewrite size_list_to_set by apply (fs_homes _ _ _ _ _ _ O). apply homes_length, O.
Qed.

(** A buffer this thread holds. *)
Definition held (s : kernel) (H : gset nat) (P : nat -> Z) (dirty : gset Z) (b : nat) (bn : Z) (data : list Z) : Prop :=
  b ∈ H /\ holds_buf s b bn data /\ P b = dec_bool (bn ∈ dirty).

(** What no call here touches. *)
Definition same (s s' : kernel) : Prop := env s' = env s /\ k_disk s' = k_disk s.

Lemma unchanged_refl s : same s s.
Proof. done. Qed.
Lemma same_trans s1 s2 s3 : same s1 s2 -> same s2 s3 -> same s1 s3.
Proof. intros [A1 A2] [B1 B2]. split; congruence. Qed.
Lemma same_sb s s' : same s s' -> k_sb s' = k_sb s /\ k_inodes s' = k_inodes s /\ k_procs s' = k_procs s /\ k_cur s' = k_cur s.
Proof. by intros [[= E1 E2 E3 E4 E5] _]. Qed.

(** The blocks held do not change under a call that keeps the others. *)
Definition keeps (s : kernel) (H : gset nat) (P : nat -> Z) (dirty : gset Z) (s' : kernel) (P' : nat -> Z) (dirty' : gset Z) (changed : gset Z) : Prop :=
  forall b bn data, held s H P dirty b bn data -> bn ∉ changed -> forall H', b ∈ H' -> held s' H' P' dirty' b bn data.

Lemma keeps_refl s H P dirty : keeps s H P dirty s P dirty ∅.
Proof. intros b bn data (_ & H1 & H2) _ H' Hb. by split. Qed.

Lemma keeps_trans s1 H P1 d1 s2 P2 d2 s3 P3 d3 c1 c2 : keeps s1 H P1 d1 s2 P2 d2 c1 -> keeps s2 H P2 d2 s3 P3 d3 c2 -> keeps s1 H P1 d1 s3 P3 d3 (c1 ∪ c2).
Proof. intros K1 K2 b bn data Hh [N1 N2]%not_elem_of_union H' Hb. eapply K2; [|done|done]. eapply K1; [done|done|]. apply Hh. Qed.

(** Not every buffer is pinned or held. *)
Lemma free_buffer s H P D dirty : cache s pid H P D dirty -> (size dirty + size H < bhead)%nat -> exists b, (b < bhead)%nat /\ b ∉ H /\ P b = 0.
Proof.
  intros I Hsz. destruct (decide (Exists (fun b => b ∉ H /\ P b = 0) (seq 0 bhead))) as [He|He].
  { apply Exists_exists in He as (b & Hb%elem_of_seq & HP). exists b. split; [lia|done]. }
  exfalso. rewrite <- Forall_Exists_neg, Forall_forall in He.
  set (pinned := filter (fun b => b ∉ H) (seq 0 bhead)).
  assert (forall b, b ∈ pinned -> b_blockno (getbuf s b) ∈ dirty /\ caches s b (b_blockno (getbuf s b))) as Hp.
  { intros b [HbH Hb]%list_elem_of_filter. pose proof (He b Hb) as Hn. apply elem_of_seq in Hb.
    destruct (ca_pin _ _ _ _ _ _ I b ltac:(lia) HbH) as [E|(_ & E1 & E2)]; [tauto|]. split; [done|]. split; [lia|done]. }
  assert (NoDup (map (fun b => b_blockno (getbuf s b)) pinned)) as Hnd.
  { apply NoDup_fmap_2_strong; [|apply NoDup_filter, NoDup_seq]. intros x y Hx%Hp Hy%Hp E. eapply (ca_unique _ _ _ _ _ _ I); [apply Hx|]. rewrite E. apply Hy. }
  assert ((list_to_set (map (fun b => b_blockno (getbuf s b)) pinned) : gset Z) ⊆ dirty) as Hsub.
  { intros x Hx. apply elem_of_list_to_set, list_elem_of_fmap in Hx as (b & -> & Hb). by apply Hp. }
  apply subseteq_size in Hsub. rewrite size_list_to_set, length_map in Hsub by done.
  assert ((list_to_set (seq 0 bhead) : gset nat) ⊆ H ∪ list_to_set pinned) as Hall.
  { intros b Hb%elem_of_list_to_set. destruct (decide (b ∈ H)); [set_solver|]. apply elem_of_union_r, elem_of_list_to_set, list_elem_of_filter. done. }
  apply subseteq_size in Hall. rewrite size_list_to_set, length_seq in Hall by apply NoDup_seq.
  assert (size (H ∪ list_to_set pinned) <= size H + size (list_to_set pinned : gset nat))%nat as Hu.
  { rewrite size_union_alt. assert (size ((list_to_set pinned : gset nat) ∖ H) <= size (list_to_set pinned : gset nat))%nat by (apply subseteq_size; set_solver). lia. }
  rewrite (size_list_to_set pinned) in Hu by apply NoDup_filter, NoDup_seq. lia.
Qed.

(** ** bread and brelse *)
Lemma op_read n s H P D dirty bn :
  fsop n s H P D dirty -> (forall b, b ∈ H -> ~ caches s b bn) -> (size dirty + size H < bhead)%nat ->
  exists b s', bread (S fuel) ROOTDEV bn s = Ret b s' /\ fsop n s' ({[b]} ∪ H) P D dirty /\ b ∉ H
  /\ held s' ({[b]} ∪ H) P dirty b bn (D bn) /\ same s s' /\ keeps s H P dirty s' P dirty ∅
  /\ (forall b' bn', b' <> b -> caches s' b' bn' <-> caches s b' bn').
Proof.
  intros [I C A H1 H2 H3 H4 H5 H6 H7 H8] Hh Hsz.
  destruct (bread_spec s pid H P D dirty I fuel bn C Hh) as (b & s' & E & I' & HbH & Hb & HP & Co & K & F); [right; by eapply free_buffer|].
  pose proof F as (V & G & _). exists b, s'. split; [exact E|].
  split; [constructor; unfold log_at in *; rewrite ?G, ?K; try done; by eapply frame_calm|]. split; [done|]. split; [by split; [apply held_in|]|]. split; [done|].
  split.
  - intros b1 bn1 d1 (B1 & B2 & B3) _ H' Hin. split; [done|]. split; [|done]. eapply holds_core; [|done]. apply Co. by intros ->.
  - intros b' bn' Hne. unfold caches. specialize (Co b' Hne). injection Co as E1 E2 E3 E4 E5 E6. by rewrite E2, E3.
Qed.

Lemma op_release n s H P D dirty b bn :
  fsop n s H P D dirty -> held s H P dirty b bn (D bn) ->
  exists s', brelse b s = Ret tt s' /\ fsop n s' (H ∖ {[b]}) P D dirty /\ same s s' /\ keeps s (H ∖ {[b]}) P dirty s' P dirty ∅
  /\ (forall b' bn', b' <> b -> caches s' b' bn' <-> caches s b' bn').
Proof.
  intros [I C A H1 H2 H3 H4 H5 H6 H7 H8] (HbH & Hb & HP).
  destruct (brelse_spec s pid H P D dirty b bn I C HbH Hb HP) as (s' & E & I' & Co & K & F). pose proof F as (V & G & _).
  exists s'. split; [exact E|]. split; [constructor; unfold log_at in *; rewrite ?G, ?K; try done; by eapply frame_calm|]. split; [done|]. split.
  - intros b1 bn1 d1 (B1 & B2 & B3) _ H' Hin. split; [done|]. split; [|done]. eapply holds_core; [|done]. apply Co. set_solver.
  - intros b' bn' Hne. unfold caches. specialize (Co b' Hne). injection Co as E1 E2 E3 E4 E5 E6. by rewrite E2, E3.
Qed.

(** ** Changing a block and logging it *)
Definition log_update (b : nat) (f : buf -> buf) : K unit := mod_buf b f ;;; log_write b.

Lemma op_write n s H P D dirty b bn f data :
  fsop n s H P D dirty -> held s H P dirty b bn (D bn) -> (forall v, b_data v = D bn -> f v = set_b_data data v) -> length data = Z.to_nat BSIZE ->
  (size dirty < bhead)%nat -> 0 <= bn < 2 ^ 31 -> data_block start bn -> 1 <= n ->
  exists s' P', log_update b f s = Ret tt s' /\ fsop n s' H P' (fupd D bn data) ({[bn]} ∪ dirty) /\ held s' H P' ({[bn]} ∪ dirty) b bn data
  /\ same s s' /\ keeps s H P dirty s' P' ({[bn]} ∪ dirty) {[bn]} /\ (forall b' bn', caches s' b' bn' <-> caches s b' bn').
Proof.
  intros O (HbH & Hb & HP) Hf Hlen Hsz Hbn Hdata Hn. pose proof (fsop_size _ _ _ _ _ _ O) as El. pose proof O as [I C A H1 H2 H3 H4 H5 H6 H7 H8].
  assert (bhead = 30%nat /\ LOGBLOCKS = 30) as [EB EL] by done.
  unfold log_update. erewrite bind_ret_eq by reflexivity. rewrite (upd_buf_ext b f (set_b_data data)) by (by apply Hf, Hb).
  destruct (cache_modify s pid H P D dirty I b data bn _ HbH Hb) as (I2 & Hb2 & Co2). set (s2 := upd_buf b (set_b_data data) s) in *.
  destruct (log_write_spec pid start s2 H P D dirty b bn data I2 HbH) as (s3 & P3 & E3 & I3 & Hb3 & HP3 & L3 & K3 & V3 & Co3); try done; try lia;
    [by apply calm_upd_buf|change (k_log s2) with (k_log s); lia..|].
  exists s3, P3. split; [exact E3|]. change (k_log s2) with (k_log s) in L3. destruct L3 as (Lh & Ln & Ld & Ls & Lo & Lc & Ll).
  assert (forall b', b' <> b -> core (getbuf s3 b') = core (getbuf s b')) as Co by (intros b' Hne; rewrite (proj1 (Co3 b' Hne)); by apply Co2).
  split; [constructor; try done|].
  - by eapply calm_env; [exact C|rewrite V3].
  - unfold log_at. by rewrite Ld, Ls.
  - rewrite Lh. case_decide; [done|]. apply homes_ok_snoc; try done. rewrite homes_length by done. lia.
  - rewrite Ln. case_decide; lia.
  - intros x. rewrite Lh, elem_of_union, elem_of_singleton, H3. case_decide as Hd; set_solver.
  - by rewrite Lo.
  - by rewrite Lc.
  - by rewrite Ll.
  - by rewrite K3.
  - by rewrite K3.
  - split; [split; [done|]; split; [done|]; rewrite HP3; unfold dec_bool; by rewrite decide_True by set_solver|]. split; [by split; [rewrite V3|rewrite K3]|]. split.
    + intros b1 bn1 d1 (B1 & B2 & B3) Hne%not_elem_of_singleton H' Hin.
      assert (b1 <> b) as Nb. { intros ->. apply Hne. destruct B2 as ((_ & _ & <-) & _). by destruct Hb as ((_ & _ & <-) & _). }
      split; [done|]. split; [by eapply holds_core; [apply Co|]|]. rewrite (proj2 (Co3 b1 Nb)), B3. apply dec_bool_ext. set_solver.
    + intros b' bn'. destruct (decide (b' = b)) as [->|Hne].
      * destruct Hb3 as ((B1 & B2 & B3) & _). destruct Hb as ((C1 & C2 & C3) & _). unfold caches. rewrite B2, B3, C2, C3. done.
      * unfold caches. specialize (Co b' Hne). injection Co as E1 E2 E3' E4 E5 E6. by rewrite E2, E3'.
Qed.
End Op.
