(* ===== verification/FsAlloc.v ===== *)
(** * balloc, bzero and bfree *)
From S2P Require Import Prelude State CString Kalloc Vm Sched Printf Bytes Bio BioSpec Log LogSpec LogTxn Fs FsData FsOp.

Open Scope Z_scope.

(** A search loop that stops at element [k]. *)
Lemma for_each_at {S I R} (l : list I) (body : I -> M S (option R)) s k i v s' :
  l !! k = Some i -> (forall j x, l !! j = Some x -> (j < k)%nat -> body x s = Ret None s) -> body i s = Ret (Some v) s' -> for_each l body s = Ret (Some v) s'.
Proof.
  revert k. induction l as [|x l IH]; intros [|k] Hi Hb He; try done; cbn [for_each].
  - injection Hi as ->. by erewrite bind_ret_eq by exact He.
  - erewrite bind_ret_eq by (apply (Hb 0%nat); [done|lia]). apply (IH k); [done| |done]. intros j y Hy Hj. apply (Hb (Datatypes.S j)); [done|lia].
Qed.

Lemma for_each_none {S I R} (l : list I) (body : I -> M S (option R)) s :
  (forall x, x ∈ l -> body x s = Ret None s) -> for_each l body s = Ret None s.
Proof.
  induction l as [|x l IH]; intros Hb; [done|]. cbn [for_each]. erewrite bind_ret_eq by (apply Hb; set_solver). apply IH. intros y Hy. apply Hb. set_solver.
Qed.

(** ** The layout of the disk *)
Record layout (sb : superblock) (start : Z) : Prop := {
  ly_log : 2 <= start /\ sb_logstart sb = start;
  ly_inodes : start + LOGBLOCKS < sb_inodestart sb;
  ly_ninodes : 0 < sb_ninodes sb /\ sb_inodestart sb + (sb_ninodes sb - 1) / IPB < sb_bmapstart sb;
  ly_bmap : sb_bmapstart sb < sb_size sb <= BPB }.

(** No held buffer has the block. *)
Definition unheld (s : kernel) (H : gset nat) (bn : Z) : Prop := forall b, b ∈ H -> ~ caches s b bn.
(** The held buffers keep their blocks. *)
Definition stays (s : kernel) (H : gset nat) (s' : kernel) : Prop := forall b bn, b ∈ H -> caches s' b bn <-> caches s b bn.

Lemma unheld_stays s H s' bn : stays s H s' -> unheld s H bn -> unheld s' H bn.
Proof. intros St Hu b Hb Hc. apply (Hu b Hb). by apply St. Qed.
Lemma stays_refl s H : stays s H s.
Proof. done. Qed.
Lemma stays_trans s1 H s2 s3 : stays s1 H s2 -> stays s2 H s3 -> stays s1 H s3.
Proof. intros A B b bn Hb. by rewrite (B b bn Hb), (A b bn Hb). Qed.

Lemma held_back (b : nat) (H : gset nat) : b ∉ H -> ({[b]} ∪ H) ∖ {[b]} = H.
Proof. set_solver. Qed.

Lemma held_size (b : nat) (H : gset nat) : b ∉ H -> size ({[b]} ∪ H) = S (size H).
Proof. intros Hb. rewrite size_union by set_solver. by rewrite size_singleton. Qed.

Lemma layout_consts : BPB = 8192 /\ LOGBLOCKS = 30 /\ BSIZE = 1024 /\ bhead = 30%nat.
Proof. done. Qed.

Definition set_bit (d : list Z) (b : Z) : list Z := <[Z.to_nat (b / 8) := uint8 (Z.lor (byte_at d (b / 8)) (Z.shiftl 1 (b mod 8)))]> d.
Definition reset_bit (d : list Z) (b : Z) : list Z := <[Z.to_nat (b / 8) := uint8 (Z.land (byte_at d (b / 8)) (Z.lnot (Z.shiftl 1 (b mod 8))))]> d.

Section Alloc.
Context (fuel : nat) (pid start : Z) (sb : superblock) (L : layout sb start).
Notation op := (fsop pid start).
Let bm := sb_bmapstart sb.

Lemma bm_range : 0 <= bm < 2 ^ 31 /\ start + LOGBLOCKS < bm.
Proof.
  destruct L as [[L1 _] L2 [L3 L4] L5]. destruct layout_consts as (E1 & E2 & E3 & E4). unfold bm.
  assert (0 <= (sb_ninodes sb - 1) / IPB) by (apply Z.div_pos; [lia|done]). lia.
Qed.

Lemma bblock b : 0 <= b < BPB -> BBLOCK b sb = bm.
Proof. intros Hb. unfold BBLOCK. rewrite Z.div_small by done. rewrite Z.add_0_l. apply uint32_small. pose proof bm_range. fold bm. lia. Qed.

Lemma op_out n s H P D dirty out : op n s H P D dirty -> op n (set_k_out out s) H P D dirty.
Proof. intros [[C1 C2 C3 C4 C5 C6 C7 C8 C9 C10 C11] [K1 K2 K3 K4] A H1 H2 H3 H4 H5 H6 H7 H8]. by constructor. Qed.

(** ** A block is read, changed, logged and released. *)
Lemma op_update n s H P D dirty bn f data :
  op n s H P D dirty -> unheld s H bn -> (size dirty + size H < bhead)%nat -> 0 <= bn < 2 ^ 31 -> data_block start bn -> 1 <= n ->
  (forall v, b_data v = D bn -> f v = set_b_data data v) -> length data = Z.to_nat BSIZE ->
  exists s' P', (let* bp := bread (S fuel) ROOTDEV bn in mod_buf bp f ;;; log_write bp ;;; brelse bp) s = Ret tt s'
  /\ op n s' H P' (fupd D bn data) ({[bn]} ∪ dirty) /\ same s s' /\ keeps s H P dirty s' P' ({[bn]} ∪ dirty) {[bn]} /\ stays s H s'.
Proof.
  intros O Hu Hsz Hbn Hdata Hn Hf Hlen.
  destruct (op_read fuel pid start n s H P D dirty bn O Hu Hsz) as (b & s1 & E1 & O1 & HbH & Hb1 & S1 & K1 & C1).
  destruct (op_write pid start n s1 _ P D dirty b bn f data O1 Hb1 Hf Hlen) as (s2 & P2 & E2 & O2 & Hb2 & S2 & K2 & C2); try done; [lia|].
  destruct (op_release pid start n s2 _ P2 _ _ b bn O2) as (s3 & E3 & O3 & S3 & K3 & C3); [by rewrite fupd_eq|].
  rewrite held_back in O3, K3 by done. exists s3, P2. split.
  { erewrite bind_ret_eq by exact E1. erewrite bind_bind_eq; [exact E3|exact E2]. }
  split; [done|]. split; [by eapply same_trans; [|eapply same_trans]|]. split.
  - intros b' bn' d' Hh Hc H' Hin. pose proof Hh as (HbH' & _). eapply K3; [|set_solver|done]. eapply (K2 b' bn' d'); [|done|done]. eapply (K1 b' bn' d'); [done|set_solver|set_solver].
  - intros b' bn' Hin. assert (b' <> b) as Hne by (by intros ->). by rewrite C3, C2, C1.
Qed.

Lemma bzero_spec n s H P D dirty bn :
  op n s H P D dirty -> unheld s H bn -> (size dirty + size H < bhead)%nat -> 0 <= bn < 2 ^ 31 -> data_block start bn -> 1 <= n ->
  exists s' P', bzero (S fuel) ROOTDEV bn s = Ret tt s'
  /\ op n s' H P' (fupd D bn zero_block) ({[bn]} ∪ dirty) /\ same s s' /\ keeps s H P dirty s' P' ({[bn]} ∪ dirty) {[bn]} /\ stays s H s'.
Proof. intros. apply op_update; try done. Qed.

(** ** balloc *)
Definition first_free (d : list Z) (b : Z) : Prop := 0 <= b < sb_size sb /\ bit d b = false /\ forall b', 0 <= b' < b -> bit d b' = true.
Definition none_free (d : list Z) : Prop := forall b, 0 <= b < sb_size sb -> bit d b = true.

Lemma free_or_not d : (exists b, first_free d b) \/ none_free d.
Proof.
  assert (forall n, (n <= Z.to_nat (sb_size sb))%nat -> (exists b, first_free d b) \/ forall b, 0 <= b < Z.of_nat n -> bit d b = true) as H.
  { induction n as [|n IH]; intros Hn; [right; lia|]. destruct IH as [IH|IH]; [lia|by left|]. destruct (bit d (Z.of_nat n)) eqn:E.
    - right. intros b Hb. destruct (decide (b = Z.of_nat n)) as [->|]; [done|]. apply IH. lia.
    - left. exists (Z.of_nat n). split; [lia|]. split; [done|]. intros b' Hb'. apply IH. lia. }
  destruct (H (Z.to_nat (sb_size sb)) ltac:(lia)) as [?|H']; [by left|right]. intros b Hb. apply H'. lia.
Qed.

(** The blocks before the data are in use. *)
Definition marked (d : list Z) : Prop := forall b, 0 <= b <= bm -> bit d b = true.

Lemma balloc_ok n s H P D dirty b :
  op n s H P D dirty -> k_sb s = sb -> 1 <= n -> first_free (D bm) b -> marked (D bm) -> unheld s H bm -> unheld s H b -> (size dirty + size H + 1 < bhead)%nat ->
  exists s' P', balloc (S fuel) ROOTDEV s = Ret b s'
  /\ op n s' H P' (fupd (fupd D bm (set_bit (D bm) b)) b zero_block) ({[b]} ∪ ({[bm]} ∪ dirty)) /\ same s s'
  /\ keeps s H P dirty s' P' ({[b]} ∪ ({[bm]} ∪ dirty)) {[b; bm]} /\ stays s H s'.
Proof.
  intros O Hsb Hn (Hr & Hb & Hbefore) Hmark Hum Hub Hsz. destruct bm_range as [Hbm Hdm']. assert (data_block start bm) as Hdm by (by right). pose proof (ly_bmap _ _ L) as [Ly1 Ly2]. fold bm in Ly1. destruct layout_consts as (EP & EL & EB & EH).
  assert (bm < b) as Hlt. { destruct (Z.le_gt_cases b bm); [|done]. rewrite Hmark in Hb by lia. done. }
  destruct (op_read fuel pid start n s H P D dirty bm O Hum ltac:(lia)) as (bp & s1 & E1 & O1 & HbH & Hb1 & S1 & K1 & C1).
  assert (length (D bm) = Z.to_nat BSIZE) as Hlen by apply O.
  pose proof (op_write pid start n s1 _ P D dirty bp bm (put_byte (b / 8) (Z.lor (byte_at (D bm) (b / 8)) (Z.shiftl 1 (b mod 8)))) (set_bit (D bm) b) O1 Hb1) as HW.
  destruct HW as (s2 & P2 & E2 & O2 & Hb2 & S2 & K2 & C2); try done; [by intros v <-|by unfold set_bit; rewrite length_insert|lia|].
  destruct (op_release pid start n s2 _ P2 _ _ bp bm O2) as (s3 & E3 & O3 & S3 & K3 & C3); [by rewrite fupd_eq|]. rewrite held_back in O3, K3 by done.
  assert (stays s H s3) as St3. { intros b' bn' Hin. assert (b' <> bp) by (by intros ->). by rewrite C3, C2, C1. }
  destruct (bzero_spec n s3 H P2 _ _ b O3) as (s4 & P4 & E4 & O4 & S4 & K4 & St4); try done.
  { by eapply unheld_stays. }
  { assert (size ({[bm]} ∪ dirty) <= 1 + size dirty)%nat by (rewrite size_union_alt, size_singleton; assert (size (dirty ∖ {[bm]}) <= size dirty)%nat by (apply subseteq_size; set_solver); lia). lia. }
  { lia. } { unfold data_block in *. lia. }
  assert (getbuf s1 bp = getbuf s1 bp /\ b_data (getbuf s1 bp) = D bm) as [_ Edata] by (split; [done|apply Hb1]).
  exists s4, P4. split.
  { unfold balloc. erewrite bind_ret_eq by reflexivity. rewrite Hsb.
    assert (0 <= sb_size sb / BPB) by (apply Z.div_pos; lia). destruct (Z.to_nat (sb_size sb / BPB + 1)) as [|k] eqn:Ek; [lia|].
    rewrite (bind_ret_eq _ _ s (Some b) s4); [done|]. cbn [for_loop]. rewrite (proj2 (Z.ltb_lt 0 _)) by lia. rewrite bblock by lia.
    rewrite (bind_ret_eq _ _ s (Some b) s4); [done|]. erewrite bind_ret_eq by exact E1. rewrite Z.sub_0_r, Z.min_r by lia.
    rewrite (bind_ret_eq _ _ s1 (Some b) s4); [done|]. apply (for_each_at _ _ s1 (Z.to_nat b) b).
    - rewrite lookup_seqZ_lt by lia. f_equal. lia.
    - intros j x [-> Hj]%lookup_seqZ Hlt'. erewrite bind_ret_eq by reflexivity. unfold data_and. rewrite Edata.
      destruct (Z.eqb_spec (Z.land (byte_at (D bm) ((0 + Z.of_nat j) / 8)) (Z.shiftl 1 ((0 + Z.of_nat j) mod 8))) 0) as [E|E]; [|done].
      apply bit_mask in E. rewrite Hbefore in E by lia. done.
    - erewrite bind_ret_eq by reflexivity. unfold data_and. rewrite Edata. rewrite (proj2 (Z.eqb_eq _ _)) by (by apply bit_mask).
      erewrite bind_bind_eq by exact E2. erewrite bind_ret_eq by exact E3. rewrite Z.add_0_l. by erewrite bind_ret_eq by exact E4. }
  split; [done|]. split; [by eapply same_trans; [|eapply same_trans; [|eapply same_trans]]|]. split.
  - intros b' bn' d' Hh Hc H' Hin. pose proof Hh as (HbH' & _). eapply (K4 b' bn' d'); [|set_solver|done]. eapply (K3 b' bn' d'); [|set_solver|done].
    eapply (K2 b' bn' d'); [|set_solver|set_solver]. eapply (K1 b' bn' d'); [done|set_solver|set_solver].
  - by eapply stays_trans.
Qed.

Lemma balloc_full n s H P D dirty :
  op n s H P D dirty -> k_sb s = sb -> none_free (D bm) -> unheld s H bm -> (size dirty + size H < bhead)%nat ->
  exists s', balloc (S fuel) ROOTDEV s = Ret 0 s' /\ op n s' H P D dirty /\ same s s' /\ keeps s H P dirty s' P dirty ∅ /\ stays s H s'.
Proof.
  intros O Hsb Hnone Hum Hsz. pose proof (ly_bmap _ _ L) as [Ly1 Ly2]. fold bm in Ly1. destruct layout_consts as (EP & EL & EB & EH). destruct bm_range as [Hbm Hdm']. assert (data_block start bm) as Hdm by (by right).
  destruct (op_read fuel pid start n s H P D dirty bm O Hum ltac:(lia)) as (bp & s1 & E1 & O1 & HbH & Hb1 & S1 & K1 & C1).
  destruct (op_release pid start n s1 _ P _ _ bp bm O1 Hb1) as (s2 & E2 & O2 & S2 & K2 & C2). rewrite held_back in O2, K2 by done.
  assert (b_data (getbuf s1 bp) = D bm) as Edata by apply Hb1.
  destruct (printf_spec ("balloc: out of blocks" +:+ nl) [] s2) as (out & E3); [rewrite (calm_held _ _ (fs_calm _ _ _ _ _ _ _ _ O2)); set_solver|].
  exists (set_k_out out s2). split.
  { unfold balloc. erewrite bind_ret_eq by reflexivity. rewrite Hsb.
    assert (sb_size sb / BPB = 0 \/ sb_size sb / BPB = 1) as Hd by (rewrite EP in *; dlia). destruct (Z.to_nat (sb_size sb / BPB + 1)) as [|k] eqn:Ek; [lia|].
    rewrite (bind_ret_eq _ _ s None s2); [by erewrite bind_ret_eq by exact E3|]. cbn [for_loop]. rewrite (proj2 (Z.ltb_lt 0 _)) by lia. rewrite bblock by lia.
    rewrite (bind_ret_eq _ _ s None s2).
    2: { erewrite bind_ret_eq by exact E1. rewrite Z.sub_0_r, Z.min_r by lia. rewrite (bind_ret_eq _ _ s1 None s1); [by erewrite bind_ret_eq by exact E2|].
      apply for_each_none. intros x [Hx1 Hx2]%elem_of_seqZ. erewrite bind_ret_eq by reflexivity. unfold data_and. rewrite Edata.
      destruct (Z.eqb_spec (Z.land (byte_at (D bm) (x / 8)) (Z.shiftl 1 (x mod 8))) 0) as [E|E]; [|done].
      apply bit_mask in E. rewrite Hnone in E by lia. done. }
    destruct k; cbn [for_loop]; rewrite (proj2 (Z.ltb_ge (0 + BPB) _)) by lia; done. }
  split; [by apply op_out|]. split; [by eapply same_trans|]. split.
  - intros b' bn' d' Hh Hc H' Hin. pose proof Hh as (HbH' & _). eapply (K2 b' bn' d'); [|set_solver|done]. eapply (K1 b' bn' d'); [done|set_solver|set_solver].
  - intros b' bn' Hin. assert (b' <> bp) as Hne by (by intros ->). change (caches (set_k_out out s2) b' bn') with (caches s2 b' bn'). by rewrite C2, C1.
Qed.

(** ** bfree *)
Lemma bfree_spec n s H P D dirty b :
  op n s H P D dirty -> k_sb s = sb -> 1 <= n -> 0 <= b < sb_size sb -> bit (D bm) b = true -> unheld s H bm -> (size dirty + size H < bhead)%nat ->
  exists s' P', bfree (S fuel) ROOTDEV b s = Ret tt s' /\ op n s' H P' (fupd D bm (reset_bit (D bm) b)) ({[bm]} ∪ dirty) /\ same s s'
  /\ keeps s H P dirty s' P' ({[bm]} ∪ dirty) {[bm]} /\ stays s H s'.
Proof.
  intros O Hsb Hn Hr Hb Hum Hsz. destruct bm_range as [Hbm Hdm']. assert (data_block start bm) as Hdm by (by right). pose proof (ly_bmap _ _ L) as [Ly1 Ly2]. destruct layout_consts as (EP & EL & EB & EH).
  destruct (op_read fuel pid start n s H P D dirty bm O Hum ltac:(lia)) as (bp & s1 & E1 & O1 & HbH & Hb1 & S1 & K1 & C1).
  assert (length (D bm) = Z.to_nat BSIZE) as Hlen by apply O. assert (b_data (getbuf s1 bp) = D bm) as Edata by apply Hb1.
  destruct (op_write pid start n s1 _ P D dirty bp bm (put_byte (b / 8) (Z.land (byte_at (D bm) (b / 8)) (Z.lnot (Z.shiftl 1 (b mod 8))))) (reset_bit (D bm) b) O1 Hb1) as (s2 & P2 & E2 & O2 & Hb2 & S2 & K2 & C2);
    try done; [by intros v <-|by unfold reset_bit; rewrite length_insert|lia|].
  destruct (op_release pid start n s2 _ P2 _ _ bp bm O2) as (s3 & E3 & O3 & S3 & K3 & C3); [by rewrite fupd_eq|]. rewrite held_back in O3, K3 by done.
  exists s3, P2. split.
  { unfold bfree. erewrite bind_ret_eq by reflexivity. rewrite Hsb, bblock by lia. erewrite bind_ret_eq by exact E1. rewrite Z.mod_small by lia. erewrite bind_ret_eq by reflexivity.
    unfold data_and. rewrite Edata. destruct (Z.eqb_spec (Z.land (byte_at (D bm) (b / 8)) (Z.shiftl 1 (b mod 8))) 0) as [E|E]; [apply bit_mask in E; congruence|].
    erewrite bind_bind_eq by exact E2. exact E3. }
  split; [done|]. split; [by eapply same_trans; [|eapply same_trans]|]. split.
  - intros b' bn' d' Hh Hc H' Hin. pose proof Hh as (HbH' & _). eapply (K3 b' bn' d'); [|set_solver|done].
    eapply (K2 b' bn' d'); [|set_solver|set_solver]. eapply (K1 b' bn' d'); [done|set_solver|set_solver].
  - intros b' bn' Hin. assert (b' <> bp) as Hne by (by intros ->). by rewrite C3, C2, C1.
Qed.
End Alloc.
