(* ===== verification/FsMap.v ===== *)
(** * bmap *)
From S2P Require Import Prelude State CString Kalloc Vm Sched Printf Bytes Bio BioSpec Log LogSpec LogTxn Fs FsData FsOp FsAlloc.

Open Scope Z_scope.

(** ** In-memory inodes *)
Lemma getinode_upd i f s j : (i < length (k_inodes s))%nat -> getinode (upd_inode i f s) j = if decide (i = j) then f (getinode s i) else getinode s j.
Proof.
  intros Hi. unfold getinode, upd_inode. simpl. case_decide as E.
  - subst j. rewrite list_lookup_alter_eq. destruct (lookup_lt_is_Some_2 (k_inodes s) i Hi) as [v ->]. done.
  - by rewrite list_lookup_alter_ne.
Qed.

Lemma length_upd_inode i f s : length (k_inodes (upd_inode i f s)) = length (k_inodes s).
Proof. apply length_alter. Qed.

Lemma upd_inode_twice i f g s : upd_inode i f (upd_inode i g s) = upd_inode i (fun v => f (g v)) s.
Proof.
  unfold upd_inode. destruct s. unfold set_k_inodes. simpl. f_equal. apply list_eq. intros j.
  destruct (decide (i = j)) as [->|]; [|by rewrite !list_lookup_alter_ne].
  rewrite !list_lookup_alter_eq. by destruct (k_inodes !! j).
Qed.

Lemma upd_inode_ext i f g s : f (getinode s i) = g (getinode s i) -> upd_inode i f s = upd_inode i g s.
Proof.
  intros E. unfold upd_inode. f_equal. apply list_eq. intros j. destruct (decide (i = j)) as [->|]; [|by rewrite !list_lookup_alter_ne].
  rewrite !list_lookup_alter_eq. unfold getinode in E. destruct (k_inodes s !! j); simpl in *; [by rewrite E|done].
Qed.

Lemma upd_inode_id i s : upd_inode i id s = s.
Proof.
  unfold upd_inode. destruct s. unfold set_k_inodes. simpl. f_equal. apply list_eq. intros j.
  destruct (decide (i = j)) as [->|]; [|by rewrite list_lookup_alter_ne]. rewrite list_lookup_alter_eq. by destruct (k_inodes !! j).
Qed.

Lemma same_upd_inode i f s s' : same s s' -> same (upd_inode i f s) (upd_inode i f s').
Proof. intros [E1 E2]. injection E1 as A1 A2 A3 A4 A5. split; [|done]. unfold env, upd_inode. simpl. by rewrite A1, A2, A3, A4, A5. Qed.

Lemma same_getinode s s' i : same s s' -> getinode s' i = getinode s i.
Proof. intros S. destruct (same_sb _ _ S) as (_ & E & _). unfold getinode. by rewrite E. Qed.

Lemma size_add (x : Z) (d : gset Z) : (size ({[x]} ∪ d) <= S (size d))%nat.
Proof. rewrite size_union_alt, size_singleton. assert (size (d ∖ {[x]}) <= size d)%nat by (apply subseteq_size; set_solver). lia. Qed.

Section Map.
Context (fuel : nat) (pid start : Z) (sb : superblock) (L : layout sb start).
Notation op := (fsop pid start).
Let bm := sb_bmapstart sb.

Lemma op_upd_inode n s H P D dirty i f : op n s H P D dirty -> op n (upd_inode i f s) H P D dirty.
Proof. intros [[C1 C2 C3 C4 C5 C6 C7 C8 C9 C10 C11] [K1 K2 K3 K4] A H1 H2 H3 H4 H5 H6 H7 H8]. by constructor. Qed.

(** What allocating block [b] does to the blocks. *)
Definition alloc (D : Z -> list Z) (b : Z) : Z -> list Z := fupd (fupd D bm (set_bit (D bm) b)) b zero_block.

Definition ind_of (addrs : list Z) : Z := byte_at addrs NDIRECT.

(** An address of the data blocks that is in use. *)
Definition in_use (D : Z -> list Z) (a : Z) : Prop := bm < a < sb_size sb /\ bit (D bm) a = true.

(** The blocks of a file are its own. *)
Record file_wf (D : Z -> list Z) (addrs : list Z) : Prop := {
  wf_len : length addrs = Z.to_nat (NDIRECT + 1);
  wf_used : forall k, 0 <= k < MAXFILE -> faddr D addrs k <> 0 -> in_use D (faddr D addrs k);
  wf_ind : ind_of addrs <> 0 -> in_use D (ind_of addrs);
  wf_inj : forall k j, 0 <= k < MAXFILE -> 0 <= j < MAXFILE -> faddr D addrs k <> 0 -> faddr D addrs k = faddr D addrs j -> k = j;
  wf_ne : forall k, 0 <= k < MAXFILE -> faddr D addrs k <> 0 -> faddr D addrs k <> ind_of addrs }.

(** The state of a call that works on inode [i]. *)
Record on_inode (n : Z) (s : kernel) (D : Z -> list Z) (dirty : gset Z) (i : nat) (addrs : list Z) : Prop := {
  oi_op : exists P, op n s ∅ P D dirty;
  oi_n : 1 <= n;
  oi_sb : k_sb s = sb;
  oi_i : (i < length (k_inodes s))%nat;
  oi_dev : i_dev (getinode s i) = ROOTDEV;
  oi_addrs : i_addrs (getinode s i) = addrs;
  oi_wf : file_wf D addrs;
  oi_marked : marked sb (D bm) }.

Lemma unheld_none s bn : unheld s ∅ bn.
Proof. intros b Hb. by apply elem_of_empty in Hb. Qed.

Lemma map_consts : NDIRECT = 12 /\ NINDIRECT = 256 /\ MAXFILE = 268 /\ BSIZE = 1024 /\ bhead = 30%nat.
Proof. done. Qed.

(** A block that is there. *)
Lemma bmap_old n s D dirty i addrs k (a := faddr D addrs k) :
  on_inode n s D dirty i addrs -> 0 <= k < MAXFILE -> a <> 0 -> (size dirty < bhead)%nat ->
  exists s', bmap (S fuel) i k s = Ret a s' /\ on_inode n s' D dirty i addrs /\ same s s'.
Proof.
  intros [(P & O) On Osb Oi Odev Oad Owf Omk] Hk Ha Hsz. destruct map_consts as (E1 & E2 & E3 & E4 & E5). unfold bmap. erewrite bind_ret_eq by reflexivity. rewrite Oad, Odev.
  unfold a, faddr in *. destruct (Z.ltb_spec k NDIRECT) as [Hlt|Hge].
  - rewrite (proj2 (Z.eqb_neq _ _) Ha). exists s. split; [done|]. split; [|done]. constructor; try done. by exists P.
  - rewrite (proj2 (Z.ltb_lt (k - NDIRECT) NINDIRECT)) by lia. fold (ind_of addrs) in *. destruct (Z.eqb_spec (ind_of addrs) 0) as [|Hi]; [done|].
    erewrite bind_ret_eq by reflexivity. rewrite (proj2 (Z.eqb_neq _ _) Hi). unfold bmap_entry.
    destruct (op_read fuel pid start n s ∅ P D dirty (ind_of addrs) O (unheld_none _ _)) as (bp & s1 & R1 & O1 & _ & Hb1 & S1 & _ & _); [rewrite size_empty; lia|].
    destruct (op_release pid start n s1 _ P _ _ bp _ O1 Hb1) as (s2 & R2 & O2 & S2 & _ & _). rewrite held_back in O2 by set_solver.
    exists s2. erewrite bind_ret_eq by exact R1. erewrite bind_ret_eq by reflexivity. rewrite (proj2 (proj2 (proj1 (proj2 Hb1)))). rewrite (proj2 (Z.eqb_neq _ _) Ha).
    erewrite bind_ret_eq by reflexivity. erewrite bind_ret_eq by exact R2. assert (same s s2) as S by (by eapply same_trans). split; [done|]. split; [|done].
    destruct (same_sb _ _ S) as (B1 & B2 & _). constructor; try done; [by exists P|by rewrite B1|by rewrite B2|by rewrite (same_getinode _ _ _ S)..].
Qed.

(** ** Allocation and the files *)
Section Fresh.
Context (D : Z -> list Z) (b : Z) (Hff : first_free sb (D bm) b) (Hmk : marked sb (D bm)) (Hlen : length (D bm) = Z.to_nat BSIZE).

Lemma fresh_range : bm < b < sb_size sb /\ 0 <= bm /\ sb_size sb <= BPB /\ bit (D bm) b = false.
Proof.
  destruct Hff as (Hr & Hb & _). destruct (bm_range start sb L) as [Hbm _]. pose proof (ly_bmap _ _ L) as [_ Hs]. fold bm in Hbm. split_and!; try lia; [|done].
  destruct (Z.le_gt_cases b bm) as [Hle|]; [|lia]. rewrite Hmk in Hb by (fold bm; lia). done.
Qed.

Lemma alloc_bit x : 0 <= x -> bit (alloc D b bm) x = bit (D bm) x || (x =? b).
Proof.
  intros Hx. destruct fresh_range as (Hr & H0 & Hs & _). unfold alloc. rewrite fupd_ne, fupd_eq by lia. change BPB with 8192 in Hs. apply set_bit_spec; [lia|rewrite Hlen; unfold BSIZE; dlia|done].
Qed.

Lemma alloc_same x : x <> bm -> x <> b -> alloc D b x = D x.
Proof. intros H1 H2. unfold alloc. by rewrite !fupd_ne. Qed.

Lemma alloc_zero : alloc D b b = zero_block.
Proof. unfold alloc. apply fupd_eq. Qed.

Lemma alloc_used a : in_use D a -> in_use (alloc D b) a /\ a <> b /\ a <> bm /\ alloc D b a = D a.
Proof.
  intros [Hr Hb]. destruct fresh_range as (Hr' & H0 & Hs & Hf). assert (a <> b) as Hne by (intros ->; congruence).
  split; [split; [done|]; rewrite alloc_bit by lia; by rewrite Hb|]. split; [done|]. split; [lia|]. apply alloc_same; [lia|done].
Qed.

Lemma alloc_in_use : in_use (alloc D b) b.
Proof. destruct fresh_range as (Hr & H0 & _). split; [done|]. rewrite alloc_bit by lia. rewrite Z.eqb_refl. apply orb_true_r. Qed.

Lemma alloc_marked : marked sb (alloc D b bm).
Proof. intros x Hx. rewrite alloc_bit by lia. by rewrite (Hmk x Hx). Qed.

Lemma alloc_length : length (alloc D b bm) = Z.to_nat BSIZE.
Proof. destruct fresh_range as (Hr & _). unfold alloc. rewrite fupd_ne, fupd_eq by lia. unfold set_bit. by rewrite length_insert. Qed.

Lemma alloc_faddr addrs k : file_wf D addrs -> faddr (alloc D b) addrs k = faddr D addrs k.
Proof.
  intros [_ _ W3 _ _]. unfold faddr. destruct (k <? NDIRECT); [done|]. fold (ind_of addrs). destruct (Z.eqb_spec (ind_of addrs) 0) as [|Hi]; [done|].
  by rewrite (proj2 (proj2 (proj2 (alloc_used _ (W3 Hi))))).
Qed.

Lemma alloc_wf addrs : file_wf D addrs -> file_wf (alloc D b) addrs.
Proof.
  intros W. pose proof W as [W1 W2 W3 W4 W5]. constructor; try done.
  - intros k Hk. rewrite alloc_faddr by done. intros Ha. by apply alloc_used, W2.
  - intros Hi. by apply alloc_used, W3.
  - intros k j Hk Hj. rewrite !alloc_faddr by done. by apply W4.
  - intros k Hk. rewrite alloc_faddr by done. by apply W5.
Qed.
End Fresh.

(** The effect of bmap: the file keeps its blocks, and every other block in use
    keeps its contents but the bitmap and the indirect block of the file. *)
Record kept (D : Z -> list Z) (addrs : list Z) (D' : Z -> list Z) (addrs' : list Z) : Prop := {
  kp_wf : file_wf D' addrs';
  kp_marked : marked sb (D' bm);
  kp_frame : forall x, 0 <= x -> x <> bm -> bit (D bm) x = true -> x <> ind_of addrs -> D' x = D x;
  kp_bits : forall x, 0 <= x -> bit (D bm) x = true -> bit (D' bm) x = true;
  kp_ind : ind_of addrs' = ind_of addrs \/ (ind_of addrs = 0 /\ bit (D bm) (ind_of addrs') = false) }.

(** It also has block [a] at [k]. *)
Record grown (D : Z -> list Z) (addrs : list Z) (k a : Z) (D' : Z -> list Z) (addrs' : list Z) : Prop := {
  gr_kept : kept D addrs D' addrs';
  gr_addr : faddr D' addrs' k = a /\ a <> 0;
  gr_fresh : bit (D bm) a = false /\ D' a = zero_block;
  gr_other : forall j, 0 <= j < MAXFILE -> j <> k -> faddr D' addrs' j = faddr D addrs j }.

(** A block of the inode. *)
Section Direct.
Context (D : Z -> list Z) (b : Z) (Hff : first_free sb (D bm) b) (Hmk : marked sb (D bm)) (Hlen : length (D bm) = Z.to_nat BSIZE).
Context (addrs : list Z) (W : file_wf D addrs).

Lemma alloc_kept : kept D addrs (alloc D b) addrs.
Proof.
  destruct (fresh_range D b Hff Hmk Hlen) as (Hr & H0 & Hs & Hf). constructor; [by apply alloc_wf|by apply alloc_marked| | |by left].
  - intros x Hx Hxm Hb _. apply alloc_same; [done|]. intros ->. congruence.
  - intros x Hx Hb. rewrite alloc_bit by done. by rewrite Hb.
Qed.

Lemma direct_grown k : 0 <= k < NDIRECT -> faddr D addrs k = 0 -> grown D addrs k b (alloc D b) (<[Z.to_nat k := b]> addrs).
Proof.
  intros Hk Hz. destruct map_consts as (E1 & E2 & E3 & E4 & E5). destruct (fresh_range D b Hff Hmk Hlen) as (Hr & H0 & Hs & Hf). pose proof W as [W1 W2 W3 W4 W5].
  set (addrs' := <[Z.to_nat k := b]> addrs). set (D' := alloc D b).
  assert (forall j, 0 <= j -> byte_at addrs' j = if j =? k then b else byte_at addrs j) as Eb by (intros j Hj; apply byte_at_insert; [rewrite W1; lia|done]).
  assert (ind_of addrs' = ind_of addrs) as Ei by (unfold ind_of; rewrite Eb by lia; by rewrite (proj2 (Z.eqb_neq _ _)) by lia).
  assert (forall j, 0 <= j < MAXFILE -> faddr D' addrs' j = if j =? k then b else faddr D addrs j) as Ef.
  { intros j Hj. rewrite <- (alloc_faddr D b Hff Hmk Hlen addrs j W). fold D'. unfold faddr. rewrite Eb by lia. fold (ind_of addrs') (ind_of addrs). rewrite Ei.
    destruct (Z.ltb_spec j NDIRECT); [done|]. by rewrite (proj2 (Z.eqb_neq j k)) by lia. }
  destruct alloc_kept as [K1 K2 K3 K4 _]. constructor.
  - constructor; try done; [|by left]. constructor.
    + unfold addrs'. by rewrite length_insert.
    + intros j Hj. rewrite Ef by done. destruct (Z.eqb_spec j k); [intros _; by apply alloc_in_use|]. intros Ha. by apply alloc_used, W2.
    + rewrite Ei. intros Hi. by apply alloc_used, W3.
    + intros j j' Hj Hj'. rewrite !Ef by done. destruct (Z.eqb_spec j k) as [->|N1], (Z.eqb_spec j' k) as [->|N2]; try done.
      * intros _ E. exfalso. assert (in_use D (faddr D addrs j')) as [_ Hu] by (apply W2; [done|lia]). congruence.
      * intros Ha E. exfalso. assert (in_use D (faddr D addrs j)) as [_ Hu] by (by apply W2). congruence.
      * by apply W4.
    + intros j Hj. rewrite Ef, Ei by done. destruct (Z.eqb_spec j k) as [->|]; [|by apply W5]. intros _ E. assert (in_use D (ind_of addrs)) as [_ Hu] by (apply W3; lia). congruence.
  - rewrite Ef by lia. rewrite Z.eqb_refl. split; [done|lia].
  - split; [done|apply alloc_zero].
  - intros j Hj Hne. rewrite Ef by done. by rewrite (proj2 (Z.eqb_neq _ _) Hne).
Qed.

(** The indirect block itself. *)
Lemma ind_kept : ind_of addrs = 0 -> let addrs' := <[Z.to_nat NDIRECT := b]> addrs in
  kept D addrs (alloc D b) addrs' /\ ind_of addrs' = b /\ forall j, 0 <= j < MAXFILE -> faddr (alloc D b) addrs' j = faddr D addrs j.
Proof.
  intros Hz addrs'. destruct map_consts as (E1 & E2 & E3 & E4 & E5). destruct (fresh_range D b Hff Hmk Hlen) as (Hr & H0 & Hs & Hf). pose proof W as [W1 W2 W3 W4 W5].
  assert (forall j, 0 <= j -> byte_at addrs' j = if j =? NDIRECT then b else byte_at addrs j) as Eb by (intros j Hj; apply byte_at_insert; [rewrite W1; lia|done]).
  assert (ind_of addrs' = b) as Ei by (unfold ind_of; rewrite Eb by lia; by rewrite Z.eqb_refl).
  assert (forall j, 0 <= j < MAXFILE -> faddr (alloc D b) addrs' j = faddr D addrs j) as Ef.
  { intros j Hj. unfold faddr. rewrite Eb by lia. fold (ind_of addrs') (ind_of addrs). rewrite Ei, Hz. destruct (Z.ltb_spec j NDIRECT).
    - by rewrite (proj2 (Z.eqb_neq _ _)) by lia.
    - rewrite (proj2 (Z.eqb_neq b 0)) by lia. rewrite alloc_zero. cbn [Z.eqb]. apply ld32_zero; lia. }
  split; [|done]. destruct alloc_kept as [K1 K2 K3 K4 _]. constructor; try done; [|right; by rewrite Ei].
  - constructor.
    + unfold addrs'. by rewrite length_insert.
    + intros j Hj. rewrite Ef by done. intros Ha. by apply alloc_used, W2.
    + intros _. rewrite Ei. by apply alloc_in_use.
    + intros j j' Hj Hj'. rewrite !Ef by done. by apply W4.
    + intros j Hj. rewrite Ef, Ei by done. intros Ha E. destruct (W2 j Hj Ha) as [_ Hu]. congruence.
Qed.

(** An entry of the indirect block. *)
Definition enter (D : Z -> list Z) (ind k b : Z) : Z -> list Z := fupd D ind (st32 (D ind) (4 * (k - NDIRECT)) b).

Lemma entry_grown k : NDIRECT <= k < MAXFILE -> ind_of addrs <> 0 -> faddr D addrs k = 0 -> length (D (ind_of addrs)) = Z.to_nat BSIZE ->
  grown D addrs k b (enter (alloc D b) (ind_of addrs) k b) addrs.
Proof.
  intros Hk Hi Hz Hl. destruct map_consts as (E1 & E2 & E3 & E4 & E5). destruct (fresh_range D b Hff Hmk Hlen) as (Hr & H0 & Hs & Hf). pose proof W as [W1 W2 W3 W4 W5].
  change BPB with 8192 in Hs. destruct (alloc_used D b Hff Hmk Hlen _ (W3 Hi)) as (U1 & U2 & U3 & U4). set (ind := ind_of addrs) in *. set (D' := enter (alloc D b) ind k b).
  assert (forall x, x <> ind -> D' x = alloc D b x) as En by (intros x Hx; unfold D', enter; by rewrite fupd_ne).
  assert (forall j, 0 <= j < MAXFILE -> faddr D' addrs j = if j =? k then b else faddr D addrs j) as Ef.
  { intros j Hj. unfold faddr. fold (ind_of addrs). fold ind. rewrite (proj2 (Z.eqb_neq _ _) Hi). destruct (Z.ltb_spec j NDIRECT); [by rewrite (proj2 (Z.eqb_neq j k)) by lia|].
    unfold D', enter. rewrite fupd_eq, U4. unfold ld32, st32. destruct (Z.eqb_spec j k) as [->|]; [rewrite ld_st_eq, Z.mod_small by lia; done|by rewrite ld_st_ne by lia]. }
  assert (forall a, in_use D a -> in_use D' a) as Hu.
  { intros a Ha. destruct (alloc_used D b Hff Hmk Hlen a Ha) as ([A1 A2] & _). split; [done|]. by rewrite En by congruence. }
  destruct alloc_kept as [K1 K2 K3 K4 _]. constructor.
  - constructor; [|by rewrite En by congruence|intros x Hx Hxm Hb Hxi; rewrite En by done; by apply K3|intros x Hx Hb; rewrite En by congruence; by apply K4|by left]. constructor; try done.
    + intros j Hj. rewrite Ef by done. destruct (Z.eqb_spec j k); [intros _|intros Ha; by apply Hu, W2]. destruct (alloc_in_use D b Hff Hmk Hlen) as [A1 A2].
      split; [done|]. by rewrite En by congruence.
    + intros _. by apply Hu, W3.
    + intros j j' Hj Hj'. rewrite !Ef by done. destruct (Z.eqb_spec j k) as [->|N1], (Z.eqb_spec j' k) as [->|N2]; try done.
      * intros _ E. exfalso. assert (in_use D (faddr D addrs j')) as [_ Hx] by (apply W2; [done|lia]). congruence.
      * intros Ha E. exfalso. assert (in_use D (faddr D addrs j)) as [_ Hx] by (by apply W2). congruence.
      * by apply W4.
    + intros j Hj. rewrite Ef by done. destruct (Z.eqb_spec j k) as [->|]; [by intros _ E; apply U2|by apply W5].
  - rewrite Ef by lia. rewrite Z.eqb_refl. split; [done|lia].
  - split; [done|]. rewrite En by congruence. apply alloc_zero.
  - intros j Hj Hne. rewrite Ef by done. by rewrite (proj2 (Z.eqb_neq _ _) Hne).
Qed.
End Direct.

Lemma grown_after D addrs D1 addrs1 k a D2 addrs2 : kept D addrs D1 addrs1 -> (forall j, 0 <= j < MAXFILE -> faddr D1 addrs1 j = faddr D addrs j) -> 0 <= a ->
  grown D1 addrs1 k a D2 addrs2 -> (ind_of addrs1 = ind_of addrs2) -> grown D addrs k a D2 addrs2.
Proof.
  intros [K1 K2 K3 K4 K5] Hf Ha [[G1 G2 G3 G4 G5] G6 [G7 G8] G9] Hi. constructor; try done.
  - constructor; try done.
    + intros x Hx Hxm Hb Hxi. rewrite G3; [by apply K3|done|done|by apply K4|]. intros ->. destruct K5 as [E|[_ E]]; congruence.
    + intros x Hx Hb. by apply G4, K4.
    + rewrite <- Hi. done.
  - split; [|done]. destruct (bit (D bm) a) eqn:E; [|done]. by rewrite (K4 a Ha E) in G7.
  - intros j Hj Hne. rewrite G9 by done. by apply Hf.
Qed.

(** ** bmap *)
Lemma on_next n s D dirty i addrs s' P' D' dirty' addrs' : on_inode n s D dirty i addrs -> same (upd_inode i (set_i_addrs addrs') s) s' ->
  op n s' ∅ P' D' dirty' -> file_wf D' addrs' -> marked sb (D' bm) -> on_inode n s' D' dirty' i addrs'.
Proof.
  intros [O On Osb Oi Odev Oad Owf Omk] S O' W M. destruct (same_sb _ _ S) as (B1 & B2 & _). pose proof (same_getinode _ _ i S) as G. rewrite getinode_upd, decide_True in G by done.
  constructor; try done; [by exists P'|by rewrite B1|by rewrite B2, length_upd_inode|by rewrite G..].
Qed.

Lemma same_addrs n s D dirty i addrs : on_inode n s D dirty i addrs -> upd_inode i (set_i_addrs addrs) s = s.
Proof. intros O. rewrite <- (upd_inode_id i s) at 2. apply upd_inode_ext. rewrite <- (oi_addrs _ _ _ _ _ _ O). by destruct (getinode s i). Qed.

Lemma on_len n s D dirty i addrs bn : on_inode n s D dirty i addrs -> length (D bn) = Z.to_nat BSIZE.
Proof. intros [(P & O) _ _ _ _ _ _ _]. apply O. Qed.

Definition nz (a : Z) : gset Z := if decide (a = 0) then ∅ else {[a]}.
Lemma nz_in a : a <> 0 -> a ∈ nz a.
Proof. intros Ha. unfold nz. rewrite decide_False by done. set_solver. Qed.

Lemma dirty_none (d e : gset Z) : d ⊆ d ∪ e.
Proof. set_solver. Qed.
Lemma dirty_direct (i d : gset Z) b : b <> 0 -> {[b]} ∪ ({[bm]} ∪ d) ⊆ d ∪ ({[bm]} ∪ i ∪ nz b).
Proof. intros Hb. pose proof (nz_in b Hb). set_solver. Qed.
Lemma dirty_entry (d : gset Z) x b : x <> 0 -> b <> 0 -> {[x]} ∪ ({[b]} ∪ ({[bm]} ∪ d)) ⊆ d ∪ ({[bm]} ∪ nz x ∪ nz b).
Proof. intros Hx Hb. pose proof (nz_in x Hx). pose proof (nz_in b Hb). set_solver. Qed.
Lemma dirty_ind (d d' e : gset Z) b : b <> 0 -> d' ⊆ {[b]} ∪ ({[bm]} ∪ d) ∪ ({[bm]} ∪ nz b ∪ e) -> d' ⊆ d ∪ ({[bm]} ∪ nz b ∪ e).
Proof. intros Hb. pose proof (nz_in b Hb). set_solver. Qed.

(** What bmap returns. *)
Record bmap_out (n : Z) (s : kernel) (D : Z -> list Z) (dirty : gset Z) (i : nat) (addrs : list Z) (k : Z)
    (a : Z) (s' : kernel) (D' : Z -> list Z) (dirty' : gset Z) (addrs' : list Z) : Prop := {
  bo_on : on_inode n s' D' dirty' i addrs';
  bo_same : same (upd_inode i (set_i_addrs addrs') s) s';
  bo_dirty : dirty' ⊆ dirty ∪ ({[bm]} ∪ nz (ind_of addrs') ∪ nz a);
  bo_case : (a = 0 /\ kept D addrs D' addrs' /\ none_free sb (D' bm) /\ forall j, 0 <= j < MAXFILE -> faddr D' addrs' j = faddr D addrs j) \/ grown D addrs k a D' addrs' }.

Lemma entry_run n s D dirty i addrs k : on_inode n s D dirty i addrs -> NDIRECT <= k < MAXFILE -> ind_of addrs <> 0 -> faddr D addrs k = 0 -> (size dirty + 2 < bhead)%nat ->
  exists a s' D' dirty', bmap_entry (S fuel) ROOTDEV (ind_of addrs) (k - NDIRECT) s = Ret a s' /\ on_inode n s' D' dirty' i addrs /\ same s s' /\ dirty' ⊆ dirty ∪ ({[bm]} ∪ nz (ind_of addrs) ∪ nz a)
  /\ (a = 0 /\ D' = D /\ none_free sb (D bm) \/ grown D addrs k a D' addrs).
Proof.
  intros O Hk Hi Hz Hsz. destruct map_consts as (E1 & E2 & E3 & E4 & E5). pose proof (on_len _ _ _ _ _ _ bm O) as Lbm. pose proof (on_len _ _ _ _ _ _ (ind_of addrs) O) as Lind.
  pose proof (oi_wf _ _ _ _ _ _ O) as W. pose proof (oi_marked _ _ _ _ _ _ O) as Mk. pose proof (oi_n _ _ _ _ _ _ O) as Hn. destruct (oi_op _ _ _ _ _ _ O) as (P & Op).
  destruct (bm_range start sb L) as [Hbm Hdm]. fold bm in Hbm, Hdm. destruct (wf_ind _ _ W Hi) as [Ir Iu]. pose proof (ly_bmap _ _ L) as [Ly1 Ly2]. change BPB with 8192 in Ly2.
  assert (ld32 (D (ind_of addrs)) (4 * (k - NDIRECT)) = 0) as Hz'.
  { unfold faddr in Hz. fold (ind_of addrs) in Hz. rewrite (proj2 (Z.ltb_ge k NDIRECT)), (proj2 (Z.eqb_neq _ _) Hi) in Hz by lia. exact Hz. }
  destruct (op_read fuel pid start n s ∅ P D dirty (ind_of addrs) Op (unheld_none _ _)) as (bp & s1 & R1 & O1 & _ & Hb1 & S1 & _ & _); [rewrite size_empty; lia|].
  assert (forall x, x <> ind_of addrs -> unheld s1 ({[bp]} ∪ ∅) x) as Hu.
  { intros x Hx b Hb Hc. assert (b = bp) as -> by set_solver. destruct Hb1 as (_ & ((_ & _ & B1) & _) & _). destruct Hc as (_ & _ & B2). congruence. }
  assert (k_sb s1 = sb) as Hsb1 by (rewrite (proj1 (same_sb _ _ S1)); apply O).
  assert (size ({[bp]} ∪ ∅ : gset nat) = 1%nat) as Es by (rewrite union_empty_r_L; apply size_singleton).
  unfold bmap_entry. setoid_rewrite bind_ret_eq; [|exact R1]. setoid_rewrite (bind_ret_eq (get_buf bp) _ s1 (getbuf s1 bp) s1); [|done].
  rewrite (proj2 (proj2 (proj1 (proj2 Hb1)))), Hz'. cbn [Z.eqb].
  destruct (free_or_not sb (D bm)) as [(b & Hff)|Hnone].
  - destruct (fresh_range D b Hff Mk Lbm) as (Hr & _ & _ & Hf). assert (b <> ind_of addrs) as Hne by congruence.
    destruct (balloc_ok fuel pid start sb L n s1 _ P D dirty b O1 Hsb1 Hn Hff Mk) as (s2 & P2 & R2 & O2 & S2 & K2 & _); [apply Hu; lia|by apply Hu|lia|].
    change (fupd (fupd D (sb_bmapstart sb) (set_bit (D (sb_bmapstart sb)) b)) b zero_block) with (alloc D b) in O2. fold bm in O2, K2. set (d2 := {[b]} ∪ ({[bm]} ∪ dirty)) in *.
    assert (size d2 <= size dirty + 2)%nat as Hd2 by (pose proof (size_add b ({[bm]} ∪ dirty)); pose proof (size_add bm dirty); subst d2; lia).
    assert (alloc D b (ind_of addrs) = D (ind_of addrs)) as Ea by (apply alloc_same; lia).
    pose proof (K2 _ _ _ Hb1 ltac:(set_solver by lia) ({[bp]} ∪ ∅) ltac:(set_solver)) as Hb2. rewrite <- Ea in Hb2.
    destruct (op_write pid start n s2 _ P2 _ d2 bp (ind_of addrs) (fun v => set_b_data (st32 (b_data v) (4 * (k - NDIRECT)) b) v) (st32 (alloc D b (ind_of addrs)) (4 * (k - NDIRECT)) b) O2 Hb2) as (s3 & P3 & R3 & O3 & Hb3 & S3 & _ & _);
      [by intros v ->|unfold st32; rewrite Ea, st_length by lia; done|lia|lia|right; lia|done|].
    fold (enter (alloc D b) (ind_of addrs) k b) in O3.
    destruct (op_release pid start n s3 _ P3 _ _ bp (ind_of addrs) O3) as (s4 & R4 & O4 & S4 & _ & _); [unfold enter; by rewrite fupd_eq|]. rewrite held_back in O4 by set_solver.
    pose proof (entry_grown D b Hff Mk Lbm addrs W k Hk Hi Hz Lind) as G. assert (same s s4) as S by (by eapply same_trans; [|eapply same_trans; [|eapply same_trans]]).
    exists b, s4, (enter (alloc D b) (ind_of addrs) k b), ({[ind_of addrs]} ∪ d2). split.
    { rewrite (bind_ret_eq _ _ s1 b s3); [by erewrite bind_ret_eq by exact R4|]. erewrite bind_ret_eq by exact R2. rewrite (proj2 (Z.eqb_neq b 0)) by lia. cbn [negb].
      by rewrite (bind_ret_eq _ _ s2 tt s3). }
    split; [|split; [done|split; [apply dirty_entry; [done|lia]|by right]]].
    destruct (gr_kept _ _ _ _ _ _ G) as [GW GM _ _ _]. eapply on_next; [exact O|by rewrite (same_addrs _ _ _ _ _ _ O)|exact O4|done|done].
  - destruct (balloc_full fuel pid start sb L n s1 _ P D dirty O1 Hsb1 Hnone) as (s2 & R2 & O2 & S2 & K2 & _); [apply Hu; lia|lia|].
    pose proof (K2 _ _ _ Hb1 ltac:(set_solver) ({[bp]} ∪ ∅) ltac:(set_solver)) as Hb2.
    destruct (op_release pid start n s2 _ P _ _ bp (ind_of addrs) O2 Hb2) as (s4 & R4 & O4 & S4 & _ & _). rewrite held_back in O4 by set_solver.
    assert (same s s4) as S by (by eapply same_trans; [|eapply same_trans]).
    exists 0, s4, D, dirty. split.
    { rewrite (bind_ret_eq _ _ s1 0 s2); [by erewrite bind_ret_eq by exact R4|]. erewrite bind_ret_eq by exact R2. done. }
    split; [|split; [done|split; [apply dirty_none|by left]]]. eapply on_next; [exact O|by rewrite (same_addrs _ _ _ _ _ _ O)|exact O4|done|done].
Qed.

(** balloc while no buffer is held. *)
Lemma balloc_run n s D dirty i addrs : on_inode n s D dirty i addrs -> (size dirty + 2 < bhead)%nat ->
  (exists b s' P', balloc (S fuel) ROOTDEV s = Ret b s' /\ first_free sb (D bm) b /\ op n s' ∅ P' (alloc D b) ({[b]} ∪ ({[bm]} ∪ dirty)) /\ same s s'
     /\ (size ({[b]} ∪ ({[bm]} ∪ dirty)) <= size dirty + 2)%nat)
  \/ (exists s', balloc (S fuel) ROOTDEV s = Ret 0 s' /\ none_free sb (D bm) /\ on_inode n s' D dirty i addrs /\ same s s').
Proof.
  intros O Hsz. pose proof O as [(P & Op) On Osb Oi Odev Oad Owf Omk].
  destruct (free_or_not sb (D bm)) as [(b & Hff)|Hnone]; [left|right].
  - destruct (balloc_ok fuel pid start sb L n s ∅ P D dirty b Op Osb On Hff Omk) as (s2 & P2 & R2 & O2 & S2 & _ & _); [apply unheld_none..|rewrite size_empty; lia|].
    exists b, s2, P2. split; [done|]. split; [done|]. split; [exact O2|]. split; [done|]. pose proof (size_add b ({[bm]} ∪ dirty)). pose proof (size_add bm dirty). lia.
  - destruct (balloc_full fuel pid start sb L n s ∅ P D dirty Op Osb Hnone) as (s2 & R2 & O2 & S2 & _ & _); [apply unheld_none|rewrite size_empty; lia|].
    exists s2. split; [done|]. split; [done|]. split; [|done]. eapply on_next; [exact O|by rewrite (same_addrs _ _ _ _ _ _ O)|exact O2|done|done].
Qed.

Lemma kept_refl D addrs : file_wf D addrs -> marked sb (D bm) -> kept D addrs D addrs.
Proof. intros W M. constructor; try done. by left. Qed.

Lemma set_addr_eq n s D dirty i addrs k a : on_inode n s D dirty i addrs -> forall s', same s s' ->
  upd_inode i (set_addr k a) s' = upd_inode i (set_i_addrs (<[Z.to_nat k := a]> addrs)) s'.
Proof. intros O s' S. apply upd_inode_ext. unfold set_addr. rewrite (same_getinode _ _ _ S). by rewrite (oi_addrs _ _ _ _ _ _ O). Qed.

(** A block of the inode is allocated. *)
Lemma direct_run n s D dirty i addrs k : on_inode n s D dirty i addrs -> 0 <= k < NDIRECT -> faddr D addrs k = 0 -> (size dirty + 4 < bhead)%nat ->
  exists a s' D' dirty' addrs', bmap (S fuel) i k s = Ret a s' /\ bmap_out n s D dirty i addrs k a s' D' dirty' addrs'.
Proof.
  intros O Hk Hz Hsz. destruct map_consts as (E1 & E2 & E3 & E4 & E5). pose proof O as [_ On Osb Oi Odev Oad Owf Omk]. pose proof (on_len _ _ _ _ _ _ bm O) as Lbm.
  assert (byte_at addrs k = 0) as Hz' by (unfold faddr in Hz; by rewrite (proj2 (Z.ltb_lt k NDIRECT)) in Hz by lia).
  unfold bmap. setoid_rewrite (bind_ret_eq (get_inode i) _ s (getinode s i) s); [|done]. rewrite (proj2 (Z.ltb_lt k NDIRECT)) by lia. rewrite Oad, Odev, Hz'. cbn [Z.eqb].
  destruct (balloc_run n s D dirty i addrs O ltac:(lia)) as [(b & s1 & P1 & R1 & Hff & O1 & S1 & Hd)|(s1 & R1 & Hnone & O1 & S1)].
  - destruct (fresh_range D b Hff Omk Lbm) as (Hr & _). destruct (bm_range start sb L) as [Hbm _]. fold bm in Hbm.
    pose proof (direct_grown D b Hff Omk Lbm addrs Owf k Hk Hz) as G. destruct (gr_kept _ _ _ _ _ _ G) as [GW GM _ _ _].
    exists b, (upd_inode i (set_addr k b) s1), (alloc D b), ({[b]} ∪ ({[bm]} ∪ dirty)), (<[Z.to_nat k := b]> addrs). split.
    { erewrite bind_ret_eq by exact R1. by rewrite (proj2 (Z.eqb_neq b 0)) by lia. }
    rewrite (set_addr_eq _ _ _ _ _ _ k b O s1 S1). assert (same (upd_inode i (set_i_addrs (<[Z.to_nat k := b]> addrs)) s) (upd_inode i (set_i_addrs (<[Z.to_nat k := b]> addrs)) s1)) as S2 by (by apply same_upd_inode).
    constructor; [|done|apply dirty_direct; lia|by right]. eapply on_next; [exact O|done|by apply op_upd_inode|done|done].
  - exists 0, s1, D, dirty, addrs. split; [by erewrite bind_ret_eq by exact R1|]. constructor; [done|by rewrite (same_addrs _ _ _ _ _ _ O)|first [done|apply dirty_none]|].
    left. split; [done|]. split; [by apply kept_refl|done].
Qed.

(** A block of the indirect block is allocated. *)
Lemma indirect_run n s D dirty i addrs k : on_inode n s D dirty i addrs -> NDIRECT <= k < MAXFILE -> faddr D addrs k = 0 -> (size dirty + 4 < bhead)%nat ->
  exists a s' D' dirty' addrs', bmap (S fuel) i k s = Ret a s' /\ bmap_out n s D dirty i addrs k a s' D' dirty' addrs'.
Proof.
  intros O Hk Hz Hsz. destruct map_consts as (E1 & E2 & E3 & E4 & E5). pose proof O as [_ On Osb Oi Odev Oad Owf Omk]. pose proof (on_len _ _ _ _ _ _ bm O) as Lbm.
  unfold bmap. setoid_rewrite (bind_ret_eq (get_inode i) _ s (getinode s i) s); [|done]. rewrite (proj2 (Z.ltb_ge k NDIRECT)), (proj2 (Z.ltb_lt (k - NDIRECT) NINDIRECT)) by lia. rewrite Oad, Odev. fold (ind_of addrs).
  destruct (Z.eqb_spec (ind_of addrs) 0) as [Hi|Hi].
  2: { destruct (entry_run n s D dirty i addrs k O Hk Hi Hz ltac:(lia)) as (a & s' & D' & dirty' & R & O' & S & Hd & Hcase). exists a, s', D', dirty', addrs. split.
    - erewrite bind_ret_eq by reflexivity. by rewrite (proj2 (Z.eqb_neq _ _) Hi).
    - constructor; [done|by rewrite (same_addrs _ _ _ _ _ _ O)|first [done|apply dirty_none]|]. destruct Hcase as [(-> & -> & Hn)|G]; [left|by right]. split; [done|]. split; [by apply kept_refl|done]. }
  destruct (balloc_run n s D dirty i addrs O ltac:(lia)) as [(b & s1 & P1 & R1 & Hff & O1 & S1 & Hd)|(s1 & R1 & Hnone & O1 & S1)].
  2: { exists 0, s1, D, dirty, addrs. split; [rewrite (bind_ret_eq _ _ s 0 s1); [done|by erewrite bind_ret_eq by exact R1]|]. constructor; [done|by rewrite (same_addrs _ _ _ _ _ _ O)|first [done|apply dirty_none]|].
    left. split; [done|]. split; [by apply kept_refl|done]. }
  destruct (fresh_range D b Hff Omk Lbm) as (Hr & _). destruct (bm_range start sb L) as [Hbm _]. fold bm in Hbm.
  set (addrs1 := <[Z.to_nat NDIRECT := b]> addrs). destruct (ind_kept D b Hff Omk Lbm addrs Owf Hi) as (Kd & Ki & Kf). fold addrs1 in Kd, Ki, Kf.
  set (d1 := {[b]} ∪ ({[bm]} ∪ dirty)) in *. set (s2 := upd_inode i (set_i_addrs addrs1) s1). assert (same (upd_inode i (set_i_addrs addrs1) s) s2) as S2 by (by apply same_upd_inode).
  assert (on_inode n s2 (alloc D b) d1 i addrs1) as O2 by (eapply on_next; [exact O|done|by apply op_upd_inode|apply Kd|apply Kd]).
  destruct (entry_run n s2 _ d1 i addrs1 k O2 Hk ltac:(lia) ltac:(rewrite Kf by lia; done) ltac:(lia)) as (a & s' & D' & dirty' & R & O' & S & Hd' & Hcase).
  exists a, s', D', dirty', addrs1. split.
  - rewrite (bind_ret_eq _ _ s b s2).
    + rewrite (proj2 (Z.eqb_neq b 0)) by lia. rewrite Ki in R. exact R.
    + erewrite bind_ret_eq by exact R1. rewrite (proj2 (Z.eqb_neq b 0)) by lia. rewrite (bind_ret_eq _ _ s1 tt s2); [done|]. change (Ret tt (upd_inode i (set_addr NDIRECT b) s1) = Ret tt s2). by rewrite (set_addr_eq _ _ _ _ _ _ NDIRECT b O s1 S1).
  - constructor; [done|by eapply same_trans|rewrite Ki in *; apply dirty_ind; [lia|done]|]. destruct Hcase as [(-> & -> & Hn)|G]; [left|right].
    + done.
    + eapply grown_after; [exact Kd|exact Kf| |exact G|done]. destruct G as [[GW _ _ _ _] [G1 G2] _ _]. destruct (wf_used _ _ GW k ltac:(lia)) as [Hx _]; [by rewrite G1|]. lia.
Qed.

(** bmap finds the block of the file, or gives it a new one, or the disk is full. *)
Lemma bmap_spec n s D dirty i addrs k : on_inode n s D dirty i addrs -> 0 <= k < MAXFILE -> (size dirty + 4 < bhead)%nat ->
  exists a s' D' dirty' addrs', bmap (S fuel) i k s = Ret a s' /\
    (if decide (faddr D addrs k = 0) then bmap_out n s D dirty i addrs k a s' D' dirty' addrs'
     else a = faddr D addrs k /\ D' = D /\ dirty' = dirty /\ addrs' = addrs /\ on_inode n s' D dirty i addrs /\ same s s').
Proof.
  intros O Hk Hsz. destruct map_consts as (E1 & E2 & E3 & E4 & E5). case_decide as Hz.
  - destruct (Z.lt_ge_cases k NDIRECT); [apply direct_run|apply indirect_run]; try done; lia.
  - destruct (bmap_old n s D dirty i addrs k O Hk Hz ltac:(lia)) as (s' & R & O' & S). by exists (faddr D addrs k), s', D, dirty, addrs.
Qed.
End Map.
