(* ===== verification/FsRw.v ===== *)
(** * readi, writei and iupdate

    Contents of a file as a function of the blocks, what readi returns and what
    writei changes, in a thread alone with the file system. *)
From S2P Require Import Prelude State CString Kalloc Vm Sched Printf Bytes Bio BioSpec Log LogSpec LogTxn Fs FsData FsOp FsAlloc FsMap.

Open Scope Z_scope.

(** Byte [j] of the file; a hole reads as zeros. *)
Definition fbyte (D : Z -> list Z) (addrs : list Z) (j : Z) : Z :=
  if faddr D addrs (j / BSIZE) =? 0 then 0 else byte_at (D (faddr D addrs (j / BSIZE))) (j mod BSIZE).
Definition fbytes (D : Z -> list Z) (addrs : list Z) (off n : Z) : list Z := fbyte D addrs <$> seqZ off n.

Lemma fbytes_app D addrs off n m : 0 <= n -> 0 <= m -> fbytes D addrs off (n + m) = fbytes D addrs off n ++ fbytes D addrs (off + n) m.
Proof. intros Hn Hm. unfold fbytes. rewrite <- fmap_app. f_equal. apply seqZ_app; lia. Qed.

Lemma fbytes_length D addrs off n : length (fbytes D addrs off n) = Z.to_nat n.
Proof. unfold fbytes. rewrite length_fmap. apply length_seqZ. Qed.

Lemma fbytes_lookup D addrs off n j : (j < Z.to_nat n)%nat -> fbytes D addrs off n !! j = Some (fbyte D addrs (off + Z.of_nat j)).
Proof. intros Hj. unfold fbytes. rewrite list_lookup_fmap, lookup_seqZ_lt by lia. done. Qed.

Lemma fbytes_nil D addrs off : fbytes D addrs off 0 = [].
Proof. done. Qed.

(** Bytes inside a block. *)
Lemma fbytes_slice D addrs off m a : 0 <= off -> faddr D addrs (off / BSIZE) = a -> a <> 0 -> length (D a) = Z.to_nat BSIZE ->
  0 <= m -> off mod BSIZE + m <= BSIZE -> slice (D a) (off mod BSIZE) m = fbytes D addrs off m.
Proof.
  intros Ho <- Ha Hl Hm Hmm. assert (0 <= off mod BSIZE) as H0 by (apply Z.mod_pos_bound; done). apply list_eq. intros j. rewrite slice_lookup by done. case_decide as Hj.
  - rewrite fbytes_lookup by done. unfold fbyte. assert ((off + Z.of_nat j) / BSIZE = off / BSIZE /\ (off + Z.of_nat j) mod BSIZE = off mod BSIZE + Z.of_nat j) as [-> ->].
    { unfold BSIZE in *. split; dlia. }
    rewrite (proj2 (Z.eqb_neq _ _) Ha). unfold byte_at. rewrite Z2Nat.inj_add, Nat2Z.id by lia.
    destruct (lookup_lt_is_Some_2 (D (faddr D addrs (off / BSIZE))) (Z.to_nat (off mod BSIZE) + j)%nat ltac:(lia)) as [v E]. by rewrite E.
  - symmetry. apply lookup_ge_None_2. rewrite fbytes_length. lia.
Qed.

(** Turns of the loops: [r] bytes from [off] on. *)
Definition blocks_at (off r : Z) : Z := if r <=? 0 then 0 else (off mod BSIZE + r - 1) / BSIZE + 1.

Lemma blocks_next off r (m := Z.min r (BSIZE - off mod BSIZE)) : 0 < r -> 0 < m <= r /\ blocks_at (off + m) (r - m) = blocks_at off r - 1.
Proof.
  intros Hr. unfold m, blocks_at, BSIZE. rewrite (proj2 (Z.leb_gt r 0)) by lia. destruct (Z.leb_spec (r - Z.min r (1024 - off mod 1024)) 0) as [H|H]; split; dlia.
Qed.

Lemma blocks_enough off r : 0 <= r -> 0 <= blocks_at off r < r / BSIZE + 3.
Proof. intros Hr. unfold blocks_at, BSIZE. destruct (Z.leb_spec r 0); dlia. Qed.

Section Rw.
Context (fuel : nat) (pid start : Z) (sb : superblock) (L : layout sb start).
Notation op := (fsop pid start).
Notation on := (on_inode pid start sb).
Let bm := sb_bmapstart sb.

Lemma calm_this_proc s : calm s pid -> exists p, this_proc s = Ret p s.
Proof. intros C. destruct (calm_cur _ _ C) as (p & Ep & _). exists p. unfold this_proc, myproc, bind, gets. simpl. by rewrite Ep. Qed.

Lemma local_copyout s bytes : calm s pid -> either_copyout Local bytes s = Ret 0 s.
Proof. intros (p & E)%calm_this_proc. unfold either_copyout. by rewrite (bind_ret_eq _ _ s p s). Qed.

Lemma local_copyin s l n : calm s pid -> either_copyin (SLocal l) n s = Ret (0, take (Z.to_nat n) l) s.
Proof. intros (p & E)%calm_this_proc. unfold either_copyin. by rewrite (bind_ret_eq _ _ s p s). Qed.

Lemma on_calm n s D dirty i addrs : on n s D dirty i addrs -> calm s pid.
Proof. intros [(P & O) _ _ _ _ _ _ _]. apply O. Qed.

(** ** readi *)
Lemma read_turn n s D dirty i addrs len tot off acc (m := Z.min (len - tot) (BSIZE - off mod BSIZE)) :
  on n s D dirty i addrs -> tot < len -> 0 <= off -> off / BSIZE < MAXFILE -> faddr D addrs (off / BSIZE) <> 0 -> (size dirty < bhead)%nat ->
  exists s', readi_turn (S fuel) i ROOTDEV len (tot, off, Local, acc) s = Ret (inl (tot + m, off + m, Local, acc ++ fbytes D addrs off m)) s' /\ on n s' D dirty i addrs /\ same s s'.
Proof.
  intros O Hlt Ho Hmax Ha Hsz. assert (0 <= off / BSIZE) as Hk by (apply Z.div_pos; done). assert (0 <= off mod BSIZE < BSIZE) as Hmod by (by apply Z.mod_pos_bound).
  destruct (bmap_old fuel pid start sb L n s D dirty i addrs _ O (conj Hk Hmax) Ha Hsz) as (s1 & R1 & O1 & S1). set (a := faddr D addrs (off / BSIZE)) in *.
  destruct (oi_op _ _ _ _ _ _ _ _ _ O1) as (P & Op). pose proof (on_len _ _ _ _ _ _ _ _ _ a O1) as La.
  destruct (op_read fuel pid start n s1 ∅ P D dirty a Op (unheld_none _ _)) as (bp & s2 & R2 & O2 & _ & Hb2 & S2 & _ & _); [rewrite size_empty; lia|].
  destruct (op_release pid start n s2 _ P _ _ bp a O2 Hb2) as (s3 & R3 & O3 & S3 & _ & _). rewrite held_back in O3 by set_solver.
  exists s3. split.
  - unfold readi_turn. rewrite (proj2 (Z.leb_gt len tot) Hlt). erewrite bind_ret_eq by exact R1. rewrite (proj2 (Z.eqb_neq a 0) Ha). erewrite bind_ret_eq by exact R2.
    erewrite bind_ret_eq by reflexivity. rewrite (proj2 (proj2 (proj1 (proj2 Hb2)))). fold m. erewrite bind_ret_eq by (apply local_copyout, O2). cbn [Z.eqb].
    erewrite bind_ret_eq by exact R3. rewrite (fbytes_slice D addrs off m a); try done; lia.
  - assert (same s1 s3) as S by (by eapply same_trans). split; [|by eapply same_trans]. eapply on_next; [exact O1|by rewrite (same_addrs _ _ _ _ _ _ _ _ _ O1)|exact O3|apply O1|apply O1].
Qed.

Lemma read_loop f n s D dirty i addrs len tot off acc :
  on n s D dirty i addrs -> tot <= len -> 0 <= off -> off + (len - tot) <= MAXFILE * BSIZE -> (forall j, off <= j < off + (len - tot) -> faddr D addrs (j / BSIZE) <> 0) ->
  (size dirty < bhead)%nat -> blocks_at off (len - tot) < Z.of_nat f ->
  exists s', while_loop f (tot, off, Local, acc) (readi_turn (S fuel) i ROOTDEV len) s = Ret (len, acc ++ fbytes D addrs off (len - tot)) s' /\ on n s' D dirty i addrs /\ same s s'.
Proof.
  revert s tot off acc. induction f as [|f IH]; intros s tot off acc O Htot Ho Hmax Ha Hsz Hf; [pose proof (blocks_enough off (len - tot)); lia|].
  destruct (decide (tot = len)) as [->|Hne].
  { exists s. split; [|by split]. apply while_done. unfold readi_turn. rewrite Z.leb_refl, Z.sub_diag. by rewrite fbytes_nil, app_nil_r. }
  destruct (blocks_next off (len - tot) ltac:(lia)) as [Hm Hb]. set (m := Z.min (len - tot) (BSIZE - off mod BSIZE)) in *.
  destruct (read_turn n s D dirty i addrs len tot off acc O ltac:(lia) Ho) as (s1 & R1 & O1 & S1); [unfold BSIZE in *; dlia|apply Ha; lia|done|]. fold m in R1.
  destruct (IH s1 (tot + m) (off + m) (acc ++ fbytes D addrs off m) O1) as (s2 & R2 & O2 & S2); try lia.
  - intros j Hj. apply Ha. lia.
  - replace (len - (tot + m)) with (len - tot - m) by lia. lia.
  - exists s2. split; [|split; [done|by eapply same_trans]]. erewrite while_next by exact R1. rewrite R2. f_equal. f_equal. rewrite <- app_assoc. f_equal.
    rewrite <- fbytes_app by lia. f_equal. lia.
Qed.

(** readi returns the bytes of the file, up to its end. *)
Lemma readi_run n s D dirty i addrs off len (sz := i_size (getinode s i)) (m := Z.min len (sz - off)) :
  on n s D dirty i addrs -> 0 <= off <= sz -> 0 <= len -> off + len < 2 ^ 32 -> sz <= MAXFILE * BSIZE -> (forall k, 0 <= k -> k * BSIZE < sz -> faddr D addrs k <> 0) -> (size dirty < bhead)%nat ->
  exists s', readi (S fuel) i Local off len s = Ret (m, fbytes D addrs off m) s' /\ on n s' D dirty i addrs /\ same s s'.
Proof.
  intros O Ho Hlen Hov Hmax Ha Hsz. unfold readi. setoid_rewrite (bind_ret_eq (get_inode i) _ s (getinode s i) s); [|done]. fold sz. rewrite uint32_small by lia.
  rewrite (proj2 (Z.ltb_ge sz off)), (proj2 (Z.ltb_ge (off + len) off)) by lia. cbn [orb].
  replace (if sz <? off + len then sz - off else len) with m by (unfold m; destruct (Z.ltb_spec sz (off + len)); lia). rewrite (oi_dev _ _ _ _ _ _ _ _ _ O).
  destruct (read_loop (Z.to_nat (m / BSIZE + 3)) n s D dirty i addrs m 0 off [] O) as (s' & R & O' & S); try (unfold m; lia).
  - intros j Hj. apply Ha; unfold BSIZE in *; dlia.
  - rewrite Z.sub_0_r. pose proof (blocks_enough off m ltac:(unfold m; lia)). lia.
  - exists s'. rewrite Z.sub_0_r in R. done.
Qed.

(** ** writei *)
Record wrote (D : Z -> list Z) (addrs : list Z) (off : Z) (bytes : list Z) (D' : Z -> list Z) (addrs' : list Z) : Prop := {
  wr_wf : file_wf sb D' addrs';
  wr_marked : marked sb (D' bm);
  wr_bytes : forall j, 0 <= j < MAXFILE * BSIZE ->
    fbyte D' addrs' j = if decide (off <= j < off + Z.of_nat (length bytes)) then byte_at bytes (j - off) else fbyte D addrs j;
  wr_keep : forall k, 0 <= k < MAXFILE -> faddr D addrs k <> 0 -> faddr D' addrs' k = faddr D addrs k;
  wr_there : forall j, off <= j < off + Z.of_nat (length bytes) -> faddr D' addrs' (j / BSIZE) <> 0;
  wr_new : forall k, 0 <= k < MAXFILE -> faddr D addrs k = 0 -> faddr D' addrs' k <> 0 -> bit (D bm) (faddr D' addrs' k) = false;
  wr_frame : forall x, 0 < x -> x <> bm -> bit (D bm) x = true -> x <> ind_of addrs -> (forall k, 0 <= k < MAXFILE -> faddr D addrs k <> x) -> D' x = D x;
  wr_bits : forall x, 0 <= x -> bit (D bm) x = true -> bit (D' bm) x = true;
  wr_ind : ind_of addrs' = ind_of addrs \/ (ind_of addrs = 0 /\ bit (D bm) (ind_of addrs') = false) }.

Lemma fbyte_zero D addrs j : D (faddr D addrs (j / BSIZE)) = zero_block -> fbyte D addrs j = 0.
Proof.
  intros E. unfold fbyte. rewrite E. destruct (_ =? 0); [done|]. unfold byte_at, zero_block. destruct (replicate _ _ !! _) eqn:H; [|done]. by apply lookup_replicate in H as [-> _].
Qed.

Lemma fbyte_same D addrs D' addrs' j : faddr D' addrs' (j / BSIZE) = faddr D addrs (j / BSIZE) ->
  (faddr D addrs (j / BSIZE) <> 0 -> D' (faddr D addrs (j / BSIZE)) = D (faddr D addrs (j / BSIZE))) -> fbyte D' addrs' j = fbyte D addrs j.
Proof. intros E H. unfold fbyte. rewrite E. destruct (Z.eqb_spec (faddr D addrs (j / BSIZE)) 0); [done|]. by rewrite H. Qed.

Lemma block_range j : 0 <= j < MAXFILE * BSIZE -> 0 <= j / BSIZE < MAXFILE.
Proof. intros Hj. change (MAXFILE * BSIZE) with 274432 in Hj. change MAXFILE with 268. unfold BSIZE. dlia. Qed.

(** A data block of the file stays under bmap. *)
Lemma kept_data D addrs D' addrs' k : file_wf sb D addrs -> kept sb D addrs D' addrs' -> 0 <= k < MAXFILE -> faddr D addrs k <> 0 -> D' (faddr D addrs k) = D (faddr D addrs k).
Proof.
  intros W [K1 K2 K3 K4 K5] Hk Ha. destruct (wf_used _ _ _ W k Hk Ha) as [Hr Hb]. destruct (bm_range start sb L) as [Hbm _]. apply K3; [lia|lia|done|by apply (wf_ne _ _ _ W)].
Qed.

Lemma kept_wrote D addrs D' addrs' off : file_wf sb D addrs -> kept sb D addrs D' addrs' -> (forall j, 0 <= j < MAXFILE -> faddr D' addrs' j = faddr D addrs j) ->
  wrote D addrs off [] D' addrs'.
Proof.
  intros W K Hf. pose proof K as [K1 K2 K3 K4 K5]. constructor; try done.
  - intros j Hj. rewrite decide_False by (simpl; lia). pose proof (block_range j Hj). apply fbyte_same; [by apply Hf|]. intros Ha. by eapply kept_data.
  - intros k Hk _. by apply Hf.
  - simpl. lia.
  - intros k Hk Hz Hn. by rewrite Hf in Hn.
  - intros x Hx Hxm Hb Hi _. apply K3; try done. lia.
Qed.

Lemma grown_wrote D addrs k a D' addrs' off : file_wf sb D addrs -> grown sb D addrs k a D' addrs' -> faddr D addrs k = 0 -> wrote D addrs off [] D' addrs'.
Proof.
  intros W [K [G1 G1'] [G2 G3] G4] Hz. pose proof K as [K1 K2 K3 K4 K5]. constructor; try done.
  - intros j Hj. rewrite decide_False by (simpl; lia). pose proof (block_range j Hj) as Hk. destruct (decide (j / BSIZE = k)) as [<-|Hne].
    + rewrite (fbyte_zero D' addrs') by (by rewrite G1). unfold fbyte. by rewrite Hz.
    + apply fbyte_same; [by apply G4|]. intros Ha. by eapply kept_data.
  - intros j Hj Ha. destruct (decide (j = k)) as [->|Hne]; [done|by apply G4].
  - simpl. lia.
  - intros j Hj Hj0 Hn. destruct (decide (j = k)) as [->|Hne]; [by rewrite G1|]. by rewrite G4 in Hn.
  - intros x Hx Hxm Hb Hi _. apply K3; try done. lia.
Qed.

(** The data of a block. *)
Lemma data_wrote D addrs off bytes (a := faddr D addrs (off / BSIZE)) : file_wf sb D addrs -> marked sb (D bm) -> length (D a) = Z.to_nat BSIZE ->
  0 <= off < MAXFILE * BSIZE -> off mod BSIZE + Z.of_nat (length bytes) <= BSIZE -> a <> 0 ->
  wrote D addrs off bytes (fupd D a (splice (D a) (off mod BSIZE) bytes)) addrs.
Proof.
  intros W Mk Hl Ho Hlen Ha. pose proof (block_range off Ho) as Hk. destruct (wf_used _ _ _ W _ Hk Ha) as [Hr Hb]. destruct (bm_range start sb L) as [Hbm _]. fold a bm in Hr, Hb, Hbm.
  pose proof (wf_ne _ _ _ W _ Hk Ha) as Hi. fold a in Hi. set (D' := fupd D a (splice (D a) (off mod BSIZE) bytes)).
  assert (forall k, faddr D' addrs k = faddr D addrs k) as Ef by (intros k; unfold faddr, D'; rewrite fupd_ne by (fold (ind_of addrs); congruence); done).
  assert (D' bm = D bm) as Em by (apply fupd_ne; lia). assert (0 <= off mod BSIZE < BSIZE) as Hmod by (by apply Z.mod_pos_bound).
  constructor; try done.
  - assert (forall x, in_use sb D x -> in_use sb D' x) as Hu by (intros x [U1 U2]; split; [done|fold bm; by rewrite Em]).
    destruct W as [W1 W2 W3 W4 W5]. constructor; [done| |auto| |].
    + intros k Hk'. rewrite Ef. auto.
    + intros k j Hk' Hj. rewrite !Ef. by apply W4.
    + intros k Hk'. rewrite Ef. auto.
  - by rewrite Em.
  - intros j Hj. pose proof (block_range j Hj) as Hkj. destruct (decide (j / BSIZE = off / BSIZE)) as [E|Hne].
    + unfold fbyte. rewrite !Ef, !E. fold a. rewrite (proj2 (Z.eqb_neq a 0) Ha). unfold D'. rewrite fupd_eq. unfold byte_at.
      assert (0 <= j mod BSIZE < BSIZE) as Hmj by (by apply Z.mod_pos_bound). assert (j - off = j mod BSIZE - off mod BSIZE) as Ejo by (unfold BSIZE in *; dlia).
      rewrite splice_lookup by lia. case_decide as Hc.
      * rewrite decide_True by lia. do 2 f_equal. lia.
      * by rewrite decide_False by lia.
    + rewrite decide_False by (unfold BSIZE in *; dlia). apply fbyte_same; [by rewrite Ef|]. intros Hn. apply fupd_ne. intros E. apply Hne. eapply (wf_inj _ _ _ W); done.
  - intros j Hj. rewrite Ef. replace (j / BSIZE) with (off / BSIZE); [done|]. unfold BSIZE in *; dlia.
  - intros k Hk' Hz. by rewrite Ef.
  - intros x Hx Hxm Hxb Hxi Hx'. apply fupd_ne. intros ->. by apply (Hx' _ Hk).
  - intros x Hx. by rewrite Em.
  - by left.
Qed.

Lemma wrote_trans D addrs off b1 D1 addrs1 b2 D2 addrs2 : wrote D addrs off b1 D1 addrs1 -> wrote D1 addrs1 (off + Z.of_nat (length b1)) b2 D2 addrs2 ->
  0 <= off -> off + Z.of_nat (length b1) <= MAXFILE * BSIZE -> wrote D addrs off (b1 ++ b2) D2 addrs2.
Proof.
  intros [A1 A2 A3 A4 A5 A6 A7 A8 A9] [B1 B2 B3 B4 B5 B6 B7 B8 B9] Ho Hmax. constructor; try done.
  - intros j Hj. rewrite B3, A3 by done. rewrite length_app. unfold byte_at. repeat case_decide; try lia; try done.
    + rewrite lookup_app_r by lia. do 2 f_equal. lia.
    + rewrite lookup_app_l by lia. done.
  - intros k Hk Ha. rewrite B4; [by apply A4|done|by rewrite A4].
  - intros j. rewrite length_app. intros Hj. destruct (decide (j < off + Z.of_nat (length b1))) as [Hlt|]; [|apply B5; lia]. pose proof (block_range j ltac:(lia)).
    rewrite B4; [|done|]; apply A5; lia.
  - intros k Hk Hz Hn. destruct (decide (faddr D1 addrs1 k = 0)) as [E|E]; [|rewrite B4 by done; by apply A6].
    destruct (wf_used _ _ _ B1 k Hk Hn) as [Hr _]. destruct (bm_range start sb L) as [Hbm _].
    pose proof (B6 k Hk E Hn) as Hb. destruct (bit (D bm) (faddr D2 addrs2 k)) eqn:Eb; [|done]. rewrite A8 in Hb by (lia || done). done.
  - intros x Hx Hxm Hb Hi Hk. rewrite B7; [by apply A7|done|done|apply A8; [lia|done]| |].
    + destruct A9 as [->|[_ E]]; congruence.
    + intros k Hk' E. destruct (decide (faddr D addrs k = 0)) as [E0|E0]; [|rewrite A4 in E by done; by apply (Hk k)].
      assert (bit (D bm) (faddr D1 addrs1 k) = false) by (apply A6; [done|done|lia]). congruence.
  - intros x Hx Hb. apply B8, A8; done.
  - destruct B9 as [->|[E1' E2']]; [done|]. right. split; [destruct A9 as [<-|[E1 _]]; done|].
    destruct (bit (D bm) (ind_of addrs2)) eqn:Eb; [|done]. rewrite A8 in E2'; [done| |done].
    destruct (decide (ind_of addrs2 = 0)) as [->|Hn]; [lia|]. destruct (wf_ind _ _ _ B1 Hn) as [Hr _]. destruct (bm_range start sb L) as [Hbm _]. lia.
Qed.

(** The blocks a call logs: the bitmap, the indirect block and those in [X]. *)
Definition logs (d0 : gset Z) (addrs : list Z) (X d : gset Z) : Prop := d ⊆ d0 ∪ ({[bm]} ∪ nz (ind_of addrs) ∪ X).

Lemma logs_size d0 addrs X d : logs d0 addrs X d -> (size d <= size d0 + size X + 2)%nat.
Proof.
  intros H%subseteq_size. etrans; [exact H|]. assert (forall A B : gset Z, (size (A ∪ B) <= size A + size B)%nat) as Hu.
  { intros A B. rewrite size_union_alt. assert (size (B ∖ A) <= size B)%nat by (apply subseteq_size; set_solver). lia. }
  assert (size (nz (ind_of addrs)) <= 1)%nat by (unfold nz; case_decide; [rewrite size_empty; lia|by rewrite size_singleton]).
  pose proof (Hu d0 ({[bm]} ∪ nz (ind_of addrs) ∪ X)). pose proof (Hu ({[bm]} ∪ nz (ind_of addrs)) X). pose proof (Hu {[bm]} (nz (ind_of addrs))). rewrite size_singleton in *. lia.
Qed.

Lemma logs_ind d0 addrs X d addrs' : logs d0 addrs X d -> ind_of addrs' = ind_of addrs \/ ind_of addrs = 0 -> logs d0 addrs' X d.
Proof. unfold logs. intros H [->|E]; [done|]. rewrite E in H. unfold nz in H at 1. simpl in H. set_solver. Qed.

Lemma logs_block d0 addrs X d a d' : logs d0 addrs X d -> a <> 0 -> d' ⊆ {[a]} ∪ (d ∪ ({[bm]} ∪ nz (ind_of addrs) ∪ nz a)) -> logs d0 addrs ({[a]} ∪ X) d'.
Proof. unfold logs. intros H Ha Hd. unfold nz in Hd at 2. rewrite decide_False in Hd by done. set_solver. Qed.

(** bmap, as part of a write. *)
Lemma write_bmap n s D dirty i addrs off d0 X : on n s D dirty i addrs -> 0 <= off < MAXFILE * BSIZE -> (size dirty + 4 < bhead)%nat -> logs d0 addrs X dirty ->
  exists a s' D' dirty' addrs', bmap (S fuel) i (off / BSIZE) s = Ret a s' /\ on n s' D' dirty' i addrs' /\ same (upd_inode i (set_i_addrs addrs') s) s' /\ wrote D addrs off [] D' addrs'
  /\ (if decide (a = 0) then none_free sb (D' bm) /\ logs d0 addrs' X dirty' else a = faddr D' addrs' (off / BSIZE) /\ logs d0 addrs' ({[a]} ∪ X) ({[a]} ∪ dirty')).
Proof.
  intros O Ho Hsz Hlog. pose proof (block_range off Ho) as Hk. pose proof (oi_wf _ _ _ _ _ _ _ _ _ O) as W. pose proof (oi_marked _ _ _ _ _ _ _ _ _ O) as Mk.
  destruct (bmap_spec fuel pid start sb L n s D dirty i addrs (off / BSIZE) O Hk Hsz) as (a & s' & D' & dirty' & addrs' & R & H).
  exists a, s', D', dirty', addrs'. split; [done|]. destruct (decide (faddr D addrs (off / BSIZE) = 0)) as [Hz|Hz].
  - destruct H as [H1 H2 H3 H4]. split; [done|]. split; [done|]. destruct H4 as [(-> & K & Hn & Hf)|G].
    + split; [by apply kept_wrote|]. rewrite decide_True by done. split; [done|].
      eapply (logs_ind d0 addrs X dirty addrs') in Hlog; [|destruct (kp_ind _ _ _ _ _ K) as [?|[? _]]; auto]. unfold logs, nz in *. rewrite (decide_True (P := 0 = 0)) in H3 by done. set_solver.
    + split; [by eapply grown_wrote|]. destruct G as [K [G1 G1'] _ _]. rewrite decide_False by done. split; [done|].
      eapply logs_block; [eapply logs_ind; [exact Hlog|]|done|].
      * destruct (kp_ind _ _ _ _ _ K) as [?|[? _]]; auto.
      * set_solver.
  - destruct H as (-> & -> & -> & -> & O' & S). split; [done|]. split; [by rewrite (same_addrs _ _ _ _ _ _ _ _ _ O)|]. split; [apply kept_wrote; [done|by apply kept_refl|done]|].
    rewrite decide_False by done. split; [done|]. eapply logs_block; [exact Hlog|done|set_solver].
Qed.

Lemma size_block (a : Z) (X : gset Z) : (size ({[a]} ∪ X) <= size X + 1)%nat.
Proof. pose proof (size_add a X). lia. Qed.

Lemma write_turn n s D dirty i addrs len tot off l d0 X (m := Z.min (len - tot) (BSIZE - off mod BSIZE)) :
  on n s D dirty i addrs -> tot < len -> 0 <= off -> off + (len - tot) <= MAXFILE * BSIZE -> Z.of_nat (length l) = len - tot -> (size d0 + size X + 6 < bhead)%nat -> logs d0 addrs X dirty ->
  exists s' D' dirty' addrs', on n s' D' dirty' i addrs' /\ same (upd_inode i (set_i_addrs addrs') s) s' /\
    ((writei_turn (S fuel) i ROOTDEV len (tot, off, SLocal l) s = Ret (inr (tot, off)) s' /\ none_free sb (D' bm) /\ wrote D addrs off [] D' addrs' /\ logs d0 addrs' X dirty')
     \/ (exists a, writei_turn (S fuel) i ROOTDEV len (tot, off, SLocal l) s = Ret (inl (tot + m, off + m, SLocal (drop (Z.to_nat m) l))) s'
           /\ wrote D addrs off (take (Z.to_nat m) l) D' addrs' /\ logs d0 addrs' ({[a]} ∪ X) dirty')).
Proof.
  intros O Hlt Ho Hmax Hl Hsz Hlog. assert (0 <= off < MAXFILE * BSIZE) as Hoff by lia. assert (0 <= off mod BSIZE < BSIZE) as Hmod by (by apply Z.mod_pos_bound).
  destruct (blocks_next off (len - tot) ltac:(lia)) as [Hm _]. fold m in Hm. pose proof (logs_size _ _ _ _ Hlog).
  destruct (write_bmap n s D dirty i addrs off d0 X O Hoff ltac:(lia) Hlog) as (a & s1 & D1 & d1 & addrs1 & R1 & O1 & S1 & W1 & H1). unfold writei_turn. rewrite (proj2 (Z.leb_gt len tot) Hlt).
  setoid_rewrite bind_ret_eq; [|exact R1..]. case_decide as Ha.
  { exists s1, D1, d1, addrs1. split; [done|]. split; [done|]. left. subst a. by destruct H1. }
  destruct H1 as [Ea Hlog1]. rewrite (proj2 (Z.eqb_neq a 0) Ha). pose proof O1 as [(P & Op) On1 _ _ _ _ Wf1 Mk1]. pose proof (on_len _ _ _ _ _ _ _ _ _ a O1) as La.
  pose proof (logs_size _ _ _ _ Hlog1) as Hs1. pose proof (size_block a X). assert (size d1 <= size ({[a]} ∪ d1))%nat by (apply subseteq_size; set_solver).
  pose proof (block_range off Hoff) as Hk. destruct (wf_used _ _ _ Wf1 _ Hk ltac:(by rewrite <- Ea)) as [Hr _]. rewrite <- Ea in Hr. destruct (bm_range start sb L) as [Hbm Hdm]. pose proof (ly_bmap _ _ L) as [_ Ly2]. change BPB with 8192 in Ly2.
  set (c := take (Z.to_nat m) l). assert (Z.of_nat (length c) = m) as Lc by (unfold c; rewrite length_take; lia). set (data := splice (D1 a) (off mod BSIZE) c).
  destruct (op_read fuel pid start n s1 ∅ P D1 d1 a Op (unheld_none _ _)) as (bp & s2 & R2 & O2 & _ & Hb2 & S2 & _ & _); [rewrite size_empty; lia|].
  destruct (op_write pid start n s2 _ P D1 d1 bp a (fun v => set_b_data (splice (b_data v) (off mod BSIZE) c) v) data O2 Hb2) as (s3 & P3 & R3 & O3 & Hb3 & S3 & _ & _);
    [by intros v ->|unfold data; rewrite splice_length by lia; done|lia|lia|right; lia|done|].
  destruct (op_release pid start n s3 _ P3 _ _ bp a O3) as (s4 & R4 & O4 & S4 & _ & _); [by rewrite fupd_eq|]. rewrite held_back in O4 by set_solver.
  assert (wrote D1 addrs1 off c (fupd D1 a data) addrs1) as W2.
  { unfold data. rewrite Ea. apply data_wrote; rewrite <- ?Ea; try done. rewrite Lc. unfold m. lia. }
  assert (same s1 s4) as S by (by eapply same_trans; [|eapply same_trans]).
  exists s4, (fupd D1 a data), ({[a]} ∪ d1), addrs1. split; [|split; [by eapply same_trans|]].
  - eapply on_next; [exact O1|by rewrite (same_addrs _ _ _ _ _ _ _ _ _ O1)|exact O4|apply W2|apply W2].
  - right. exists a. split; [|split; [|done]].
    + erewrite bind_ret_eq by exact R2. fold m. erewrite bind_ret_eq by (apply local_copyin, O2). cbv beta iota. change (0 =? -1) with false. cbv beta iota.
      erewrite bind_bind_eq by exact R3. by erewrite bind_ret_eq by exact R4.
    + change c with ([] ++ c). eapply wrote_trans; [exact W1|simpl; by rewrite Z.add_0_r|done|simpl; lia].
Qed.

Lemma upd_addrs_twice i a a' s : upd_inode i (set_i_addrs a') (upd_inode i (set_i_addrs a) s) = upd_inode i (set_i_addrs a') s.
Proof. rewrite upd_inode_twice. apply upd_inode_ext. by destruct (getinode s i). Qed.

Lemma write_loop f n s D dirty i addrs len tot off l d0 X :
  on n s D dirty i addrs -> tot <= len -> 0 <= off -> off + (len - tot) <= MAXFILE * BSIZE -> Z.of_nat (length l) = len - tot ->
  Z.of_nat (size d0 + size X) + blocks_at off (len - tot) + 5 < Z.of_nat bhead -> logs d0 addrs X dirty -> blocks_at off (len - tot) < Z.of_nat f ->
  exists k s' D' dirty' addrs' X', while_loop f (tot, off, SLocal l) (writei_turn (S fuel) i ROOTDEV len) s = Ret (tot + Z.of_nat k, off + Z.of_nat k) s'
  /\ on n s' D' dirty' i addrs' /\ same (upd_inode i (set_i_addrs addrs') s) s' /\ wrote D addrs off (take k l) D' addrs'
  /\ logs d0 addrs' X' dirty' /\ Z.of_nat (size X') <= Z.of_nat (size X) + blocks_at off (len - tot) /\ (k <= length l)%nat /\ (k = length l \/ none_free sb (D' bm)).
Proof.
  revert s D dirty addrs tot off l X. induction f as [|f IH]; intros s D dirty addrs tot off l X O Htot Ho Hmax Hl Hsz Hlog Hf; [pose proof (blocks_enough off (len - tot)); lia|].
  pose proof (blocks_enough off (len - tot) ltac:(lia)) as Hbe. destruct (decide (tot = len)) as [->|Hne].
  { destruct l; [|simpl in Hl; lia]. exists 0%nat, s, D, dirty, addrs, X. rewrite !Z.add_0_r. split; [apply while_done; unfold writei_turn; by rewrite Z.leb_refl|].
    split; [done|]. split; [by rewrite (same_addrs _ _ _ _ _ _ _ _ _ O)|]. split; [apply kept_wrote; [apply O|apply kept_refl; apply O|done]|]. split; [done|]. split; [lia|]. by split; [|left]. }
  destruct (blocks_next off (len - tot) ltac:(lia)) as [Hm Hb]. set (m := Z.min (len - tot) (BSIZE - off mod BSIZE)) in *.
  assert (0 <= blocks_at (off + m) (len - tot - m)) by (pose proof (blocks_enough (off + m) (len - tot - m)); lia).
  destruct (write_turn n s D dirty i addrs len tot off l d0 X O ltac:(lia) Ho Hmax Hl ltac:(lia) Hlog) as (s1 & D1 & d1 & addrs1 & O1 & S1 & [(R & Hn & W1 & L1)|(a & R & W1 & L1)]); fold m in R.
  { exists 0%nat, s1, D1, d1, addrs1, X. rewrite !Z.add_0_r. split; [by apply while_done|]. split; [done|]. split; [done|]. split; [done|]. split; [done|]. split; [lia|]. split; [lia|by right]. }
  fold m in W1. pose proof (size_block a X). set (c := take (Z.to_nat m) l) in *. assert (Z.of_nat (length c) = m) as Lc by (unfold c; rewrite length_take; lia).
  destruct (IH s1 D1 d1 addrs1 (tot + m) (off + m) (drop (Z.to_nat m) l) ({[a]} ∪ X) O1) as (k & s2 & D2 & d2 & addrs2 & X2 & R2 & O2 & S2 & W2 & L2 & Hx & Hk & Hend); try lia; try done.
  1-3: rewrite ?length_drop; replace (len - (tot + m)) with (len - tot - m) by lia; lia.
  rewrite length_drop in Hk, Hend. replace (len - (tot + m)) with (len - tot - m) in Hx by lia.
  exists (Z.to_nat m + k)%nat, s2, D2, d2, addrs2, X2. split; [erewrite while_next by exact R; rewrite R2; f_equal; f_equal; lia|]. split; [done|].
  split; [eapply same_trans; [|exact S2]; rewrite <- (upd_addrs_twice i addrs1); by apply same_upd_inode|].
  split; [|split; [done|split; [lia|split; [lia|destruct Hend; [left; lia|by right]]]]].
  rewrite <- take_take_drop. fold c. eapply wrote_trans; [exact W1|by rewrite Lc|done|rewrite Lc; lia].
Qed.

(** ** iupdate *)
Definition iblock (inum : Z) : Z := IBLOCK inum sb.

Lemma iblock_range inum : 0 <= inum < sb_ninodes sb -> start + LOGBLOCKS < iblock inum < bm.
Proof.
  intros Hi. destruct L as [[L1 L1'] L2 [L3 L4] [L5 L6]]. destruct layout_consts as (E1 & E2 & E3 & E4). fold bm in L4, L5. assert (0 <= inum / IPB <= (sb_ninodes sb - 1) / IPB) as H.
  { split; [apply Z.div_pos; [lia|done]|apply Z.div_le_mono; [done|lia]]. }
  unfold iblock, IBLOCK. rewrite uint32_small; lia.
Qed.

(** A block before the data is none of a file. *)
Lemma meta_faddr D addrs x v k : file_wf sb D addrs -> 0 < x < bm -> faddr (fupd D x v) addrs k = faddr D addrs k.
Proof.
  intros [_ _ W3 _ _] Hx. unfold faddr. destruct (k <? NDIRECT); [done|]. fold (ind_of addrs). destruct (Z.eqb_spec (ind_of addrs) 0) as [|Hi]; [done|].
  destruct (W3 Hi) as [Hr _]. fold bm in Hr. by rewrite fupd_ne by lia.
Qed.

Lemma meta_fbyte D addrs x v j : file_wf sb D addrs -> 0 < x < bm -> 0 <= j < MAXFILE * BSIZE -> fbyte (fupd D x v) addrs j = fbyte D addrs j.
Proof.
  intros W Hx Hj. apply fbyte_same; [by apply meta_faddr|]. intros Ha. destruct (wf_used _ _ _ W _ (block_range j Hj) Ha) as [Hr _]. fold bm in Hr. apply fupd_ne. lia.
Qed.

Lemma meta_wf D addrs x v : file_wf sb D addrs -> 0 < x < bm -> file_wf sb (fupd D x v) addrs.
Proof.
  intros W Hx. assert (forall a, in_use sb D a -> in_use sb (fupd D x v) a) as Hu by (intros a [U1 U2]; split; [done|fold bm; by rewrite fupd_ne by lia]).
  pose proof W as [W1 W2 W3 W4 W5]. constructor; [done| |auto| |].
  - intros k Hk. rewrite meta_faddr by done. auto.
  - intros k j Hk Hj. rewrite !meta_faddr by done. by apply W4.
  - intros k Hk. rewrite meta_faddr by done. auto.
Qed.

Lemma addrs_fit D addrs : file_wf sb D addrs -> Forall (fun a => 0 <= a < 2 ^ 32) addrs.
Proof.
  intros W. pose proof W as [W1 W2 W3 W4 W5]. destruct (bm_range start sb L) as [Hbm _]. fold bm in Hbm. pose proof (ly_bmap _ _ L) as [_ Ly2]. change BPB with 8192 in Ly2. destruct map_consts as (E1 & E2 & E3 & E4 & E5).
  apply Forall_lookup. intros k a Hk. pose proof (lookup_lt_Some _ _ _ Hk) as Hlt. assert (byte_at addrs (Z.of_nat k) = a) as Ea by (unfold byte_at; rewrite Nat2Z.id; by rewrite Hk).
  destruct (decide (a = 0)) as [->|Hn]; [lia|]. assert (in_use sb D a) as [Hr _]; [|fold bm in Hr; lia]. destruct (decide (Z.of_nat k = NDIRECT)) as [E|Hne].
  - rewrite <- Ea, E in *. by apply W3.
  - assert (faddr D addrs (Z.of_nat k) = a) as Ef by (unfold faddr; rewrite (proj2 (Z.ltb_lt _ _)) by lia; done). rewrite <- Ef in Hn |- *. apply W2; [lia|done].
Qed.

Lemma iupdate_run n s D dirty i addrs (ip := getinode s i) (ib := iblock (i_inum ip)) :
  on n s D dirty i addrs -> inode_fits ip -> 0 < i_inum ip < sb_ninodes sb -> (size dirty < bhead)%nat ->
  exists s', iupdate (S fuel) i s = Ret tt s' /\ on n s' (fupd D ib (put_dinode (D ib) (i_inum ip) ip)) ({[ib]} ∪ dirty) i addrs /\ same s s'.
Proof.
  intros O Hfit Hin Hsz. destruct (iblock_range (i_inum ip) ltac:(lia)) as [Hb1 Hb2]. fold ib in Hb1, Hb2. destruct (bm_range start sb L) as [Hbm _]. fold bm in Hbm. destruct layout_consts as (_ & EL & EB & _). pose proof (ly_log _ _ L) as [Hs _].
  pose proof O as [(P & Op) On Osb Oi Odev Oad Owf Omk]. pose proof (on_len _ _ _ _ _ _ _ _ _ ib O) as Lib.
  destruct (op_update fuel pid start sb L n s ∅ P D dirty ib (fun v => set_b_data (put_dinode (b_data v) (i_inum ip) ip) v) (put_dinode (D ib) (i_inum ip) ip) Op (unheld_none _ _)) as (s' & P' & R & O' & S & _); try done.
  - rewrite size_empty. lia.
  - lia.
  - right. lia.
  - by intros v ->.
  - pose proof (put_dinode_length (D ib) (i_inum ip) ip ltac:(lia) Hfit). lia.
  - exists s'. split; [unfold iupdate; erewrite bind_ret_eq by reflexivity; erewrite bind_ret_eq by reflexivity; fold ip; rewrite Osb; change (i_dev ip) with (i_dev (getinode s i)); rewrite Odev; exact R|].
    split; [|done]. eapply on_next; [exact O|by rewrite (same_addrs _ _ _ _ _ _ _ _ _ O)|exact O'|apply meta_wf; [done|lia]|]. rewrite fupd_ne by (fold bm; lia). done.
Qed.

Lemma on_upd n s D dirty i addrs g : on n s D dirty i addrs -> (forall ip, i_dev (g ip) = i_dev ip /\ i_addrs (g ip) = i_addrs ip) -> on n (upd_inode i g s) D dirty i addrs.
Proof.
  intros [(P & O) On Osb Oi Odev Oad Owf Omk] Hg. constructor; try done.
  - exists P. by apply op_upd_inode.
  - by rewrite length_upd_inode.
  - rewrite getinode_upd, decide_True by done. by rewrite (proj1 (Hg _)).
  - rewrite getinode_upd, decide_True by done. by rewrite (proj2 (Hg _)).
Qed.

(** The inode after the write of [k] bytes. *)
Definition written (ip : inode) (addrs : list Z) (off k : Z) : inode := set_i_size (Z.max (i_size ip) (off + k)) (set_i_addrs addrs ip).

Lemma grow_size n s D dirty i addrs ip s1 o : on n s D dirty i addrs -> same (upd_inode i (set_i_addrs addrs) s1) s -> (i < length (k_inodes s1))%nat -> ip = getinode s1 i ->
  exists s', (let* v := get_inode i in if i_size v <? o then mod_inode i (set_i_size o) else skip) s = Ret tt s'
  /\ on n s' D dirty i addrs /\ getinode s' i = set_i_size (Z.max (i_size ip) o) (set_i_addrs addrs ip) /\ same (upd_inode i (fun ip => set_i_size (Z.max (i_size ip) o) (set_i_addrs addrs ip)) s1) s'.
Proof.
  intros O S Hi ->. pose proof (same_getinode _ _ i S) as G. rewrite getinode_upd, decide_True in G by done.
  assert (upd_inode i (set_i_size (Z.max (i_size (getinode s1 i)) o)) s = if i_size (getinode s i) <? o then upd_inode i (set_i_size o) s else s) as E.
  { rewrite G. cbn [i_size set_i_addrs]. destruct (Z.ltb_spec (i_size (getinode s1 i)) o); [by rewrite Z.max_r by lia|]. rewrite Z.max_l by lia.
    rewrite <- (upd_inode_id i s) at 2. apply upd_inode_ext. rewrite G. by destruct (getinode s1 i). }
  exists (upd_inode i (set_i_size (Z.max (i_size (getinode s1 i)) o)) s). split; [|split; [by apply on_upd|split]].
  - erewrite bind_ret_eq by reflexivity. rewrite E. by destruct (_ <? _).
  - rewrite getinode_upd, decide_True by (done || apply O). by rewrite G.
  - pose proof (same_upd_inode i (set_i_size (Z.max (i_size (getinode s1 i)) o)) _ _ S) as S'. rewrite upd_inode_twice in S'. erewrite upd_inode_ext; [exact S'|done].
Qed.

(** writei writes its bytes, or as many as there is room for on the disk, and
    updates the inode. *)
Lemma writei_run n s D dirty i addrs off l (ip := getinode s i) (len := Z.of_nat (length l)) (ib := iblock (i_inum ip)) :
  on n s D dirty i addrs -> inode_fits ip -> 0 < i_inum ip < sb_ninodes sb -> 0 <= off <= i_size ip -> off + len <= MAXFILE * BSIZE ->
  Z.of_nat (size dirty) + blocks_at off len + 5 < Z.of_nat bhead ->
  exists k s' D1 dirty' addrs', let ip' := written ip addrs' off (Z.of_nat k) in
    writei (S fuel) i (SLocal l) off len s = Ret (Z.of_nat k) s' /\ on n s' (fupd D1 ib (put_dinode (D ib) (i_inum ip) ip')) dirty' i addrs'
    /\ same (upd_inode i (fun ip => written ip addrs' off (Z.of_nat k)) s) s' /\ wrote D addrs off (take k l) D1 addrs'
    /\ Z.of_nat (size dirty') <= Z.of_nat (size dirty) + blocks_at off len + 3 /\ (k <= length l)%nat /\ (k = length l \/ none_free sb (D1 bm)).
Proof.
  intros O Hfit Hin Ho Hmax Hsz. change (MAXFILE * BSIZE) with 274432 in *. pose proof (blocks_enough off len ltac:(lia)) as Hbe. assert (bhead = 30%nat) as EB by done.
  assert (logs dirty addrs ∅ dirty) as Hlog by (unfold logs; set_solver).
  destruct (write_loop (Z.to_nat (len / BSIZE + 3)) n s D dirty i addrs len 0 off l dirty ∅ O) as (k & s1 & D1 & d1 & addrs1 & X & R1 & O1 & S1 & W1 & L1 & Hx & Hk & Hend); try done; try lia;
    [change (MAXFILE * BSIZE) with 274432; lia|rewrite Z.sub_0_r, size_empty, Nat.add_0_r; lia|rewrite Z.sub_0_r; lia|]. rewrite Z.sub_0_r, size_empty in Hx. apply logs_size in L1.
  destruct (grow_size n s1 D1 d1 i addrs1 ip s (off + Z.of_nat k) O1 S1 (oi_i _ _ _ _ _ _ _ _ _ O) eq_refl) as (s2 & R2 & O2 & G2 & S2). fold (written ip addrs1 off (Z.of_nat k)) in G2.
  assert (i_inum (getinode s2 i) = i_inum ip) as Ein by (by rewrite G2).
  assert (inode_fits (getinode s2 i)) as Hfit2.
  { rewrite G2. destruct Hfit as [F1 F2 F3 F4 F5 F6 F7]. pose proof (addrs_fit _ _ (wr_wf _ _ _ _ _ _ W1)) as Hf. constructor; try done; [|by apply W1]. cbn [i_size written set_i_size]. lia. }
  destruct (iupdate_run n s2 D1 d1 i addrs1 O2 Hfit2) as (s3 & R3 & O3 & S3); [by rewrite Ein|lia|]. rewrite Ein in O3. fold ib in O3. rewrite G2 in O3.
  destruct (iblock_range (i_inum ip) ltac:(lia)) as [Hb1 Hb2]. fold ib in Hb1, Hb2. destruct layout_consts as (_ & EL & _). pose proof (ly_log _ _ L) as [Hs _].
  assert (D1 ib = D ib) as Eib.
  { pose proof (oi_wf _ _ _ _ _ _ _ _ _ O) as Wf. apply (wr_frame _ _ _ _ _ _ W1); [lia|lia|apply (oi_marked _ _ _ _ _ _ _ _ _ O); fold bm; lia| |].
    - intros E. destruct (wf_ind _ _ _ Wf ltac:(lia)) as [Hr _]. fold bm in Hr. lia.
    - intros j Hj E. destruct (wf_used _ _ _ Wf j Hj ltac:(lia)) as [Hr _]. fold bm in Hr. lia. }
  rewrite Eib in O3. exists k, s3, D1, ({[ib]} ∪ d1), addrs1. split; [|split; [done|split; [by eapply same_trans|split; [done|split; [pose proof (size_add ib d1); lia|done]]]]].
  unfold writei. erewrite bind_ret_eq by reflexivity. fold ip. rewrite (proj2 (Z.ltb_ge (i_size ip) off)) by lia. rewrite uint32_small by lia. rewrite (proj2 (Z.ltb_ge (off + len) off)) by lia. cbn [orb].
  change (MAXFILE * BSIZE) with 274432. rewrite (proj2 (Z.ltb_ge 274432 (off + len))) by lia. change (i_dev ip) with (i_dev (getinode s i)). rewrite (oi_dev _ _ _ _ _ _ _ _ _ O).
  erewrite bind_ret_eq by exact R1. cbv beta iota. erewrite bind_bind_eq by exact R2. by erewrite bind_ret_eq by exact R3.
Qed.
End Rw.
