(* ===== verification/FsInode.v ===== *)
(** * The inode table

    iget, idup, ilock, iunlock and iput of a thread alone with the file system:
    the in-memory inodes are the inodes of the disk. *)
From S2P Require Import Prelude State CString Kalloc Vm Sched Printf Bytes Bio BioSpec Log LogSpec LogTxn Fs FsData FsOp FsAlloc FsMap FsRw.

Open Scope Z_scope.

(** ** The sleep lock of an inode *)
Lemma calm_upd_inode s pid i f : calm s pid -> calm (upd_inode i f s) pid.
Proof. intros [C1 C2 C3 C4]. by constructor. Qed.

Lemma acquiresleep_inode fuel i s pid : calm s pid -> i_lock (getinode s i) = unlocked ->
  acquiresleep (S fuel) (SInode i) s = Ret tt (upd_inode i (set_i_lock (locked_by pid)) s).
Proof.
  intros C Hl. unfold acquiresleep. erewrite bind_ret_eq by (by eapply calm_acquire). destruct (calm_cur _ _ C) as (p & Ec & Ep).
  erewrite bind_ret_eq.
  2: { apply while_done. erewrite bind_ret_eq by reflexivity. simpl. change (getinode (set_k_held _ s) i) with (getinode s i). rewrite Hl. reflexivity. }
  erewrite bind_ret_eq by (by apply this_proc_ret). erewrite bind_ret_eq by reflexivity.
  erewrite bind_ret_eq by reflexivity. change (getproc (set_k_held _ s) p) with (getproc s p). rewrite Ep.
  change (upd_inode i ?f (set_k_held ?h s)) with (set_k_held h (upd_inode i f s)). by apply (calm_release _ pid), calm_upd_inode.
Qed.

Lemma holdingsleep_inode i s pid : calm s pid -> i_lock (getinode s i) = locked_by pid -> holdingsleep (SInode i) s = Ret true s.
Proof.
  intros C Hl. unfold holdingsleep. erewrite bind_ret_eq by (by eapply calm_acquire).
  destruct (calm_cur _ _ C) as (p & Ec & Ep). erewrite bind_ret_eq by (by apply this_proc_ret).
  erewrite bind_ret_eq by reflexivity. erewrite bind_ret_eq by reflexivity. erewrite bind_ret_eq by (by eapply calm_release).
  unfold ret, getsleep. change (getinode (set_k_held _ s) i) with (getinode s i). change (getproc (set_k_held _ s) p) with (getproc s p).
  rewrite Hl, Ep. simpl. by rewrite Z.eqb_refl.
Qed.

Lemma releasesleep_inode i s pid : calm s pid -> releasesleep (SInode i) s = Ret tt (upd_inode i (set_i_lock unlocked) s).
Proof.
  intros C. unfold releasesleep. erewrite bind_ret_eq by (by eapply calm_acquire). erewrite bind_ret_eq by reflexivity.
  set (s1 := upd_inode i (set_i_lock unlocked) s). assert (calm s1 pid) as C1 by (by apply calm_upd_inode).
  erewrite bind_ret_eq by (apply (wakeup_calm s1 pid); [done|done|set_solver]). by apply (calm_release _ pid).
Qed.

(** A critical section of the table. *)
Lemma itable_section s pid i f : calm s pid ->
  (acquire LItable ;;; mod_inode i f ;;; release LItable) s = Ret tt (upd_inode i f s).
Proof.
  intros C. erewrite bind_ret_eq by (by eapply calm_acquire). erewrite bind_ret_eq by reflexivity.
  change (upd_inode i f (set_k_held [LItable] s)) with (set_k_held [LItable] (upd_inode i f s)). by apply (calm_release _ pid), calm_upd_inode.
Qed.

(** ** iget *)
Definition has_inode (s : kernel) (dev inum : Z) (i : nat) : bool :=
  let ip := getinode s i in (0 <? i_ref ip) && (i_dev ip =? dev) && (i_inum ip =? inum).

Lemma iget_scan_done l i s (body : nat -> nat + option nat -> K (nat + option nat)) :
  (forall j, body j (inl i) s = Ret (inl i) s) -> fold_each l (inl i) body s = Ret (inl i) s.
Proof. intros Hb. induction l as [|x l IH]; [done|]. cbn [fold_each]. by erewrite bind_ret_eq by apply Hb. Qed.

Section Iget.
Context (s : kernel) (dev inum : Z).
Notation turn := (iget_turn dev inum).

Lemma iget_scan_hit l r i : i ∈ l -> has_inode s dev inum i = true -> (forall j, j ∈ l -> has_inode s dev inum j = true -> j = i) ->
  fold_each l (inr r) turn s = Ret (inl i) s.
Proof.
  revert r. induction l as [|x l IH]; intros r Hi Hh Hu; [by apply not_elem_of_nil in Hi|]. cbn [fold_each].
  destruct (has_inode s dev inum x) eqn:Ex.
  - assert (x = i) as -> by (apply Hu; [set_solver|done]). erewrite bind_ret_eq; [by apply iget_scan_done|].
    cbn [iget_turn]. erewrite bind_ret_eq by reflexivity. unfold has_inode in Ex. by rewrite Ex.
  - assert (exists r', turn x (inr r) s = Ret (inr r') s) as (r' & E).
    { cbn [iget_turn]. setoid_rewrite bind_ret_eq; [|reflexivity]. unfold has_inode in Ex. rewrite Ex. destruct (bool_decide _ && _); [by exists (Some x)|by exists r]. }
    erewrite bind_ret_eq by exact E. apply IH; [|done|intros j Hj; apply Hu; set_solver]. apply elem_of_cons in Hi as [->|]; [congruence|done].
Qed.

Lemma iget_scan_kept l i : (forall j, j ∈ l -> has_inode s dev inum j = false) -> fold_each l (inr (Some i)) turn s = Ret (inr (Some i)) s.
Proof.
  induction l as [|x l IH]; intros Hn; [done|]. cbn [fold_each]. erewrite bind_ret_eq; [apply IH; intros; apply Hn; set_solver|].
  cbn [iget_turn]. erewrite bind_ret_eq by reflexivity. pose proof (Hn x ltac:(set_solver)) as Ex. unfold has_inode in Ex. rewrite Ex. by rewrite bool_decide_false by done.
Qed.

Lemma iget_scan_miss l : (forall j, j ∈ l -> has_inode s dev inum j = false) -> (exists j, j ∈ l /\ i_ref (getinode s j) = 0) ->
  exists i, i ∈ l /\ i_ref (getinode s i) = 0 /\ fold_each l (inr None) turn s = Ret (inr (Some i)) s.
Proof.
  induction l as [|x l IH]; intros Hn (j & Hj & Hz); [by apply not_elem_of_nil in Hj|]. cbn [fold_each].
  pose proof (Hn x ltac:(set_solver)) as Ex. unfold has_inode in Ex. destruct (Z.eqb_spec (i_ref (getinode s x)) 0) as [E0|E0].
  - exists x. split; [set_solver|]. split; [done|]. erewrite bind_ret_eq; [apply iget_scan_kept; intros; apply Hn; set_solver|].
    cbn [iget_turn]. erewrite bind_ret_eq by reflexivity. rewrite Ex. by rewrite bool_decide_true, E0.
  - destruct IH as (i & Hi & Hi0 & R); [intros; apply Hn; set_solver|exists j; split; [|done]; apply elem_of_cons in Hj as [->|]; [congruence|done]|].
    exists i. split; [set_solver|]. split; [done|]. erewrite bind_ret_eq; [exact R|]. cbn [iget_turn]. erewrite bind_ret_eq by reflexivity. rewrite Ex. by rewrite (proj2 (Z.eqb_neq _ _) E0), andb_false_r.
Qed.
End Iget.

Lemma scan_held s h dev inum l r i : fold_each l r (iget_turn dev inum) s = Ret i s -> fold_each l r (iget_turn dev inum) (set_k_held h s) = Ret i (set_k_held h s).
Proof.
  revert r. induction l as [|x l IH]; intros r; cbn [fold_each]; [by intros [= ->]|].
  assert (exists r', iget_turn dev inum x r s = Ret r' s /\ iget_turn dev inum x r (set_k_held h s) = Ret r' (set_k_held h s)) as (r' & E1 & E2).
  { destruct r as [|e]; cbn [iget_turn]; [by eexists|]. rewrite !(bind_ret_eq _ _ s (getinode s x) s) by done. rewrite (bind_ret_eq _ _ _ (getinode s x) (set_k_held h s)) by done.
    destruct (_ && _ && _); [by eexists|]. by destruct (_ && _); eexists. }
  rewrite (bind_ret_eq _ _ _ _ _ E1), (bind_ret_eq _ _ _ _ _ E2). apply IH.
Qed.

Lemma slots_in i : i ∈ itable_slots <-> (i < Z.to_nat NINODE)%nat.
Proof. unfold itable_slots. rewrite elem_of_seq. lia. Qed.

Definition ref_up (ip : inode) : inode := set_i_ref (i_ref ip + 1) ip.
Definition ref_down (ip : inode) : inode := set_i_ref (i_ref ip - 1) ip.
Definition fresh_entry (dev inum : Z) (ip : inode) : inode := set_i_valid 0 (set_i_ref 1 (set_i_inum inum (set_i_dev dev ip))).

Lemma iget_hit s pid dev inum i : calm s pid -> (i < Z.to_nat NINODE)%nat -> has_inode s dev inum i = true ->
  (forall j, (j < Z.to_nat NINODE)%nat -> has_inode s dev inum j = true -> j = i) -> iget dev inum s = Ret i (upd_inode i ref_up s).
Proof.
  intros C Hi Hh Hu. unfold iget. erewrite bind_ret_eq by (by eapply calm_acquire).
  rewrite (bind_ret_eq _ _ _ (inl i) (set_k_held [LItable] s)).
  2: { apply scan_held, iget_scan_hit; [by apply slots_in|done|]. intros j Hj%slots_in. by apply Hu. }
  erewrite bind_ret_eq by reflexivity. change (upd_inode i ?f (set_k_held ?h s)) with (set_k_held h (upd_inode i f s)).
  erewrite bind_ret_eq by (by apply (calm_release _ pid), calm_upd_inode). done.
Qed.

Lemma iget_miss s pid dev inum : calm s pid -> (forall j, (j < Z.to_nat NINODE)%nat -> has_inode s dev inum j = false) ->
  (exists j, (j < Z.to_nat NINODE)%nat /\ i_ref (getinode s j) = 0) ->
  exists i, (i < Z.to_nat NINODE)%nat /\ i_ref (getinode s i) = 0 /\ iget dev inum s = Ret i (upd_inode i (fresh_entry dev inum) s).
Proof.
  intros C Hn (j & Hj & Hz). destruct (iget_scan_miss s dev inum itable_slots) as (i & Hi%slots_in & Hi0 & R); [intros k Hk%slots_in; by apply Hn|exists j; by rewrite slots_in|].
  exists i. split; [done|]. split; [done|]. unfold iget. erewrite bind_ret_eq by (by eapply calm_acquire).
  rewrite (bind_ret_eq _ _ _ (inr (Some i)) (set_k_held [LItable] s)) by (by apply scan_held).
  erewrite bind_ret_eq by reflexivity. change (upd_inode i ?f (set_k_held ?h s)) with (set_k_held h (upd_inode i f s)).
  erewrite bind_ret_eq by (by apply (calm_release _ pid), calm_upd_inode). done.
Qed.

(** ** The table and the disk *)
Section Table.
Context (fuel : nat) (pid start : Z) (sb : superblock) (L : layout sb start).
Notation op := (fsop pid start).
Notation iblk := (iblock sb).

Definition type_of (D : Z -> list Z) (inum : Z) : Z := di_type (D (iblk inum)) inum.
Definition nlink_of (D : Z -> list Z) (inum : Z) : Z := di_nlink (D (iblk inum)) inum.
Definition size_of (D : Z -> list Z) (inum : Z) : Z := di_size (D (iblk inum)) inum.
Definition addrs_of (D : Z -> list Z) (inum : Z) : list Z := di_addrs (D (iblk inum)) inum.

Definition on_disk (D : Z -> list Z) (ip : inode) : Prop := disk_part ip = dinode (D (iblk (i_inum ip))) (i_inum ip).

(** [R] counts the references, [locked] is the inode this thread has locked. *)
Record itable (s : kernel) (D : Z -> list Z) (R : nat -> Z) (locked : option nat) : Prop := {
  it_len : length (k_inodes s) = Z.to_nat NINODE;
  it_ref : forall i, (i < Z.to_nat NINODE)%nat -> i_ref (getinode s i) = R i /\ 0 <= R i;
  it_lock : forall i, (i < Z.to_nat NINODE)%nat -> i_lock (getinode s i) = if decide (locked = Some i) then locked_by pid else unlocked;
  it_used : forall i (ip := getinode s i), (i < Z.to_nat NINODE)%nat -> 0 < R i ->
    i_dev ip = ROOTDEV /\ 0 < i_inum ip < sb_ninodes sb /\ (i_valid ip = 0 \/ i_valid ip = 1 /\ on_disk D ip);
  it_uniq : forall i j, (i < Z.to_nat NINODE)%nat -> (j < Z.to_nat NINODE)%nat -> 0 < R i -> 0 < R j -> i_inum (getinode s i) = i_inum (getinode s j) -> i = j }.

(** A change of one entry. *)
Lemma itable_upd s D R locked i f R' locked' (ip := f (getinode s i)) : itable s D R locked -> (i < Z.to_nat NINODE)%nat ->
  (forall j, j <> i -> R' j = R j) -> i_ref ip = R' i -> 0 <= R' i -> (forall j, j <> i -> locked' = Some j <-> locked = Some j) ->
  i_lock ip = (if decide (locked' = Some i) then locked_by pid else unlocked) ->
  (0 < R' i -> i_dev ip = ROOTDEV /\ 0 < i_inum ip < sb_ninodes sb /\ (i_valid ip = 0 \/ i_valid ip = 1 /\ on_disk D ip)) ->
  (0 < R' i -> forall j, (j < Z.to_nat NINODE)%nat -> j <> i -> 0 < R j -> i_inum (getinode s j) <> i_inum ip) ->
  itable (upd_inode i f s) D R' locked'.
Proof.
  intros [T1 T2 T3 T4 T5] Hi HR Hr Hr0 Hl Hlk Hu Hq. assert (forall j, (j < Z.to_nat NINODE)%nat -> getinode (upd_inode i f s) j = if decide (i = j) then ip else getinode s j) as G.
  { intros j Hj. apply getinode_upd. by rewrite T1. }
  constructor.
  - by rewrite length_upd_inode.
  - intros j Hj. rewrite G by done. destruct (decide (i = j)) as [<-|E]; [done|]. rewrite HR by done. by apply T2.
  - intros j Hj. rewrite G by done. destruct (decide (i = j)) as [<-|E]; [done|]. rewrite T3 by done. destruct (decide (locked = Some j)) as [E1|E1], (decide (locked' = Some j)) as [E2|E2]; try done; exfalso; [apply E2|apply E1]; apply Hl; done.
  - intros j ip' Hj. unfold ip'. rewrite G by done. destruct (decide (i = j)) as [<-|E]; [done|]. rewrite HR by done. by apply T4.
  - intros j k Hj Hk. rewrite !G by done. destruct (decide (i = j)) as [<-|E1], (decide (i = k)) as [<-|E2]; try done.
    + rewrite (HR k) by done. intros H1 H2 E. exfalso. by apply (Hq H1 k).
    + rewrite (HR j) by done. intros H1 H2 E. exfalso. by apply (Hq H2 j).
    + rewrite !HR by done. by apply T5.
Qed.

Definition radd (R : nat -> Z) (i : nat) (d : Z) : nat -> Z := fun j => if decide (j = i) then R j + d else R j.
Lemma radd_eq R i d : radd R i d i = R i + d.
Proof. unfold radd. by rewrite decide_True. Qed.
Lemma radd_ne R i d j : j <> i -> radd R i d j = R j.
Proof. intros H. unfold radd. by rewrite decide_False. Qed.

(** The entry found keeps its number. *)
Definition entry_of (s : kernel) (i : nat) (inum : Z) : Prop := i_inum (getinode s i) = inum.

(** iget takes a reference to the entry of the inode, which may be new. *)
Lemma iget_run n s P D dirty R locked inum : op n s ∅ P D dirty -> itable s D R locked -> 0 < inum < sb_ninodes sb -> (exists j, (j < Z.to_nat NINODE)%nat /\ R j = 0) ->
  exists i f, iget ROOTDEV inum s = Ret i (upd_inode i f s) /\ (i < Z.to_nat NINODE)%nat /\ itable (upd_inode i f s) D (radd R i 1) locked /\ i_inum (f (getinode s i)) = inum
  /\ (0 < R i -> f (getinode s i) = ref_up (getinode s i)).
Proof.
  intros O T Hin (j & Hj & Hj0). pose proof (fs_calm _ _ _ _ _ _ _ _ O) as C. pose proof T as [T1 T2 T3 T4 T5].
  assert (forall i, (i < Z.to_nat NINODE)%nat -> has_inode s ROOTDEV inum i = true <-> 0 < R i /\ i_inum (getinode s i) = inum) as Hh.
  { intros i Hi. unfold has_inode. rewrite !andb_true_iff, Z.ltb_lt, !Z.eqb_eq. destruct (T2 i Hi) as [-> _]. split; [tauto|]. intros [H1 H2]. destruct (T4 i Hi H1) as [H3 _]. done. }
  destruct (decide (Exists (fun i => has_inode s ROOTDEV inum i = true) itable_slots)) as [He|He].
  - apply Exists_exists in He as (i & Hi%slots_in & Hhi). pose proof (proj1 (Hh i Hi) Hhi) as [HRi Hi']. exists i, ref_up. split; [|split; [done|split; [|split; [done|done]]]].
    + eapply iget_hit; [done|done|done|]. intros k Hk Hhk. apply (Hh k Hk) in Hhk as [Hk1 Hk2]. apply T5; try done. congruence.
    + destruct (T2 i Hi) as [Er _]. destruct (T4 i Hi HRi) as (U1 & U2 & U3). eapply itable_upd; [exact T|done|by intros; apply radd_ne|simpl; by rewrite radd_eq, Er|rewrite radd_eq; lia|done|by apply T3|done|].
      intros _ k Hk Hne Hk0 E. apply Hne. by apply T5.
  - rewrite <- Forall_Exists_neg, Forall_forall in He. destruct (iget_miss s pid ROOTDEV inum C) as (i & Hi & Hi0 & E).
    { intros k Hk. apply not_true_is_false. apply He. by apply slots_in. }
    { exists j. split; [done|]. by rewrite (proj1 (T2 j Hj)). }
    rewrite (proj1 (T2 i Hi)) in Hi0. exists i, (fresh_entry ROOTDEV inum). split; [done|]. split; [done|]. split; [|split; [done|lia]].
    eapply itable_upd; [exact T|done|by intros; apply radd_ne|simpl; by rewrite radd_eq, Hi0|rewrite radd_eq; lia|done|by apply T3| |].
    + intros _. split; [done|]. split; [done|by left].
    + intros _ k Hk Hne Hk0 Ek. assert (has_inode s ROOTDEV inum k = true) as Hx by (by apply Hh). apply (He k); [by apply slots_in|done].
Qed.

Lemma up_section s i : calm s pid -> (acquire LItable ;;; mod_inode i ref_up ;;; release LItable ;;; ret i) s = Ret i (upd_inode i ref_up s).
Proof.
  intros C. erewrite bind_ret_eq by (by eapply calm_acquire). erewrite bind_ret_eq by reflexivity. change (upd_inode i ?f (set_k_held ?h s)) with (set_k_held h (upd_inode i f s)).
  by erewrite bind_ret_eq by (by apply (calm_release _ pid), calm_upd_inode).
Qed.

Lemma idup_run n s P D dirty R locked i : op n s ∅ P D dirty -> itable s D R locked -> (i < Z.to_nat NINODE)%nat -> 0 < R i ->
  idup i s = Ret i (upd_inode i ref_up s) /\ itable (upd_inode i ref_up s) D (radd R i 1) locked.
Proof.
  intros O T Hi HR. pose proof T as [T1 T2 T3 T4 T5]. split; [apply up_section, O|].
  destruct (T2 i Hi) as [Er _]. eapply itable_upd; [exact T|done|by intros; apply radd_ne|simpl; by rewrite radd_eq, Er|rewrite radd_eq; lia|done|by apply T3|intros _; by apply T4|].
  intros _ k Hk Hne Hk0 E. apply Hne. by apply T5.
Qed.

Lemma itable_same s s' D R locked : same s s' -> itable s D R locked -> itable s' D R locked.
Proof.
  intros S [T1 T2 T3 T4 T5]. destruct (same_sb _ _ S) as (_ & B & _). assert (forall i, getinode s' i = getinode s i) as G by (intros i; by apply same_getinode).
  constructor; [by rewrite B|..].
  - intros i. rewrite G. apply T2.
  - intros i. rewrite G. apply T3.
  - intros i ip. unfold ip. rewrite G. apply T4.
  - intros i j. rewrite !G. apply T5.
Qed.

(** ** ilock *)
Definition loaded (D : Z -> list Z) (ip : inode) : inode :=
  let n := i_inum ip in let d := D (iblk n) in
  mkInode (i_dev ip) n (i_ref ip) (locked_by pid) 1 (di_type d n) (di_major d n) (di_minor d n) (di_nlink d n) (di_size d n) (di_addrs d n).

Lemma loaded_valid D ip : i_valid ip = 1 -> on_disk D ip -> set_i_lock (locked_by pid) ip = loaded D ip.
Proof. unfold on_disk, disk_part, dinode, loaded. destruct ip. cbn. intros -> [= -> -> -> -> -> E]. unfold set_i_lock. cbn. by rewrite E. Qed.

Lemma itable_lock s D R i : itable s D R None -> (i < Z.to_nat NINODE)%nat -> 0 < R i -> itable (upd_inode i (loaded D) s) D R (Some i).
Proof.
  intros T Hi HR. pose proof T as [T1 T2 T3 T4 T5]. destruct (T4 i Hi HR) as (U1 & U2 & U3).
  eapply itable_upd; [exact T|done|done|by apply T2|lia| |by rewrite decide_True| |].
  - intros j Hj. split; [by intros [= ->]|done].
  - intros _. split; [done|]. split; [done|]. by right.
  - intros _ k Hk Hne Hk0 E. apply Hne. by apply T5.
Qed.

Lemma ilock_run n s P D dirty R i : op n s ∅ P D dirty -> itable s D R None -> k_sb s = sb -> (i < Z.to_nat NINODE)%nat -> 0 < R i ->
  type_of D (i_inum (getinode s i)) <> 0 -> (size dirty < bhead)%nat ->
  exists s', ilock (S fuel) i s = Ret tt s' /\ op n s' ∅ P D dirty /\ same (upd_inode i (loaded D) s) s' /\ itable s' D R (Some i).
Proof.
  intros O T Hsb Hi HR Hty Hsz. pose proof (fs_calm _ _ _ _ _ _ _ _ O) as C. pose proof T as [T1 T2 T3 T4 T5]. destruct (T2 i Hi) as [Er _]. destruct (T4 i Hi HR) as (U1 & U2 & U3).
  pose proof (itable_lock s D R i T Hi HR) as T'. set (ip := getinode s i) in *. set (s1 := upd_inode i (set_i_lock (locked_by pid)) s).
  assert (getinode s1 i = set_i_lock (locked_by pid) ip) as G1 by (unfold s1; rewrite getinode_upd, decide_True by (done || by rewrite T1); done).
  assert (op n s1 ∅ P D dirty) as O1 by (by apply op_upd_inode).
  unfold ilock. setoid_rewrite (bind_ret_eq (get_inode i) _ s ip s); [|done]. rewrite (proj2 (Z.ltb_ge (i_ref ip) 1)) by lia.
  setoid_rewrite bind_ret_eq; [|by apply acquiresleep_inode; [|apply T3]]. fold s1. setoid_rewrite (bind_ret_eq (get_inode i) _ s1 (getinode s1 i) s1); [|done]. rewrite G1. cbn [i_valid i_dev i_inum set_i_lock].
  destruct U3 as [U3|[U3 U3']].
  2: { rewrite U3. cbn [Z.eqb]. exists s1. split; [done|]. assert (upd_inode i (loaded D) s = s1) as E by (apply upd_inode_ext; symmetry; by apply loaded_valid). rewrite <- E at 2 3. split; [done|]. by split. }
  rewrite U3. cbn [Z.eqb]. setoid_rewrite (bind_ret_eq (gets k_sb) _ s1 sb s1); [|by rewrite <- Hsb]. rewrite U1.
  destruct (op_read fuel pid start n s1 ∅ P D dirty (iblk (i_inum ip)) O1 (unheld_none _ _)) as (bp & s2 & R2 & O2 & _ & Hb2 & S2 & _ & _); [rewrite size_empty; lia|].
  set (f := fun v => set_i_addrs (addrs_of D (i_inum ip)) (set_i_size (size_of D (i_inum ip)) (set_i_nlink (nlink_of D (i_inum ip))
      (set_i_minor (di_minor (D (iblk (i_inum ip))) (i_inum ip)) (set_i_major (di_major (D (iblk (i_inum ip))) (i_inum ip)) (set_i_type (type_of D (i_inum ip)) v)))))).
  set (s3 := upd_inode i f s2). assert (op n s3 ({[bp]} ∪ ∅) P D dirty) as O3 by (by apply op_upd_inode).
  destruct (op_release pid start n s3 _ P _ _ bp (iblk (i_inum ip)) O3 Hb2) as (s4 & R4 & O4 & S4 & _ & _). rewrite held_back in O4 by set_solver.
  set (s5 := upd_inode i (set_i_valid 1) s4). assert (same (upd_inode i (loaded D) s) s5) as S5.
  { assert (same (upd_inode i f s1) s4) as S3 by (eapply same_trans; [by apply same_upd_inode|exact S4]). pose proof (same_upd_inode i (set_i_valid 1) _ _ S3) as S5. unfold s1 in S5. rewrite !upd_inode_twice in S5.
    erewrite upd_inode_ext; [exact S5|]. cbn. fold ip. unfold f, loaded. destruct ip. reflexivity. }
  exists s5. split; [|split; [by apply op_upd_inode|split; [done|by eapply itable_same]]].
  erewrite bind_ret_eq by exact R2. erewrite bind_ret_eq by reflexivity. rewrite (proj2 (proj2 (proj1 (proj2 Hb2)))). rewrite (bind_ret_eq _ _ s2 tt s3) by reflexivity.
  erewrite bind_ret_eq by exact R4. rewrite (bind_ret_eq _ _ s4 tt s5) by reflexivity. erewrite bind_ret_eq by reflexivity.
  rewrite (same_getinode _ _ i S5), getinode_upd, decide_True by (done || by rewrite T1). fold ip. unfold loaded. cbn [i_type]. fold (type_of D (i_inum ip)). by rewrite (proj2 (Z.eqb_neq _ _) Hty).
Qed.

(** ** iunlock and iput *)
Lemma itable_inum s D R locked i : itable s D R locked -> (i < Z.to_nat NINODE)%nat -> 0 < R i -> 0 < i_inum (getinode s i) < sb_ninodes sb.
Proof. intros T Hi HR. by apply (it_used _ _ _ _ T i Hi HR). Qed.

Lemma iunlock_run n s P D dirty R i : op n s ∅ P D dirty -> itable s D R (Some i) -> (i < Z.to_nat NINODE)%nat -> 0 < R i ->
  iunlock i s = Ret tt (upd_inode i (set_i_lock unlocked) s) /\ itable (upd_inode i (set_i_lock unlocked) s) D R None.
Proof.
  intros O T Hi HR. pose proof (fs_calm _ _ _ _ _ _ _ _ O) as C. pose proof T as [T1 T2 T3 T4 T5]. split.
  - unfold iunlock. erewrite bind_ret_eq by (apply (holdingsleep_inode i s pid C); rewrite T3 by done; by rewrite decide_True). erewrite bind_ret_eq by reflexivity.
    rewrite (proj1 (T2 i Hi)). rewrite (proj2 (Z.ltb_ge (R i) 1)) by lia. cbn [negb orb]. by eapply releasesleep_inode.
  - eapply itable_upd; [exact T|done|done|by apply T2|lia| |done|intros _; by apply T4|].
    + intros j Hj. split; [done|]. by intros [= ->].
    + intros _ k Hk Hne Hk0 E. apply Hne. by apply T5.
Qed.

(** iput of an inode that still has a link, or of one of several references. *)
Lemma iput_run n s P D dirty R i : op n s ∅ P D dirty -> itable s D R None -> (i < Z.to_nat NINODE)%nat -> 0 < R i -> nlink_of D (i_inum (getinode s i)) <> 0 ->
  iput (S fuel) i s = Ret tt (upd_inode i ref_down s) /\ itable (upd_inode i ref_down s) D (radd R i (-1)) None.
Proof.
  intros O T Hi HR Hnl. pose proof (fs_calm _ _ _ _ _ _ _ _ O) as C. pose proof T as [T1 T2 T3 T4 T5]. destruct (T4 i Hi HR) as (U1 & U2 & U3). destruct (T2 i Hi) as [Er _]. split.
  - unfold iput. erewrite bind_ret_eq by (by eapply calm_acquire). erewrite bind_ret_eq by reflexivity. change (getinode (set_k_held _ s) i) with (getinode s i).
    assert ((i_ref (getinode s i) =? 1) && negb (i_valid (getinode s i) =? 0) && (i_nlink (getinode s i) =? 0) = false) as ->.
    { destruct U3 as [->|[-> U3]]; [by rewrite andb_false_r|]. unfold on_disk, disk_part, dinode in U3. injection U3 as _ _ _ -> _ _. unfold nlink_of in Hnl. by rewrite (proj2 (Z.eqb_neq _ _) Hnl), andb_false_r. }
    erewrite bind_ret_eq by reflexivity. erewrite bind_ret_eq by reflexivity. change (upd_inode i ?f (set_k_held ?h s)) with (set_k_held h (upd_inode i f s)). by apply (calm_release _ pid), calm_upd_inode.
  - eapply itable_upd; [exact T|done|by intros; apply radd_ne|simpl; by rewrite radd_eq, Er|rewrite radd_eq; lia|done|by apply T3|intros _; by apply T4|].
    intros _ k Hk Hne Hk0 E. apply Hne. by apply T5.
Qed.
End Table.
