(* ===== verification/FsDir.v ===== *)
(** * Directories and path names

    dirlookup finds the entry of a name; namei follows a path from directory to
    directory. *)
From S2P Require Import Prelude State CString Kalloc Vm Sched Printf Bytes Bio BioSpec Log LogSpec LogTxn Fs FsData FsOp FsAlloc FsMap FsRw FsInode.

Open Scope Z_scope.

Section Dir.
Context (fuel : nat) (pid start : Z) (sb : superblock) (L : layout sb start).
Notation op := (fsop pid start).
Notation on := (on_inode pid start sb).
Notation table := (itable pid sb).
Let bm := sb_bmapstart sb.

(** ** A file system that can be walked *)

Definition no_holes (D : Z -> list Z) (addrs : list Z) (sz : Z) : Prop := forall k, 0 <= k -> k * BSIZE < sz -> faddr D addrs k <> 0.

Record inode_ok (D : Z -> list Z) (inum : Z) : Prop := {
  io_wf : file_wf sb D (addrs_of sb D inum);
  io_size : 0 <= size_of sb D inum <= MAXFILE * BSIZE;
  io_holes : no_holes D (addrs_of sb D inum) (size_of sb D inum);
  io_link : nlink_of sb D inum <> 0 }.

(** The entry at [off]. *)
Definition dirent_at (D : Z -> list Z) (dino off : Z) : list Z := fbytes D (addrs_of sb D dino) off DIRENT.

Record dir_ok (D : Z -> list Z) (dino : Z) : Prop := {
  do_size : size_of sb D dino mod DIRENT = 0;
  do_entry : forall off, 0 <= off < size_of sb D dino -> off mod DIRENT = 0 -> let x := de_inum (dirent_at D dino off) in
    x = 0 \/ (0 < x < sb_ninodes sb /\ type_of sb D x <> 0) }.

(** The blocks of a file. *)
Definition owns (D : Z -> list Z) (addrs : list Z) (b : Z) : Prop := b <> 0 /\ (b = ind_of addrs \/ exists k, 0 <= k < MAXFILE /\ faddr D addrs k = b).

Record fs_ok (D : Z -> list Z) : Prop := {
  fo_marked : marked sb (D bm);
  fo_root : 0 < ROOTINO < sb_ninodes sb /\ type_of sb D ROOTINO = T_DIR;
  fo_inode : forall x, 0 < x < sb_ninodes sb -> type_of sb D x <> 0 -> inode_ok D x;
  fo_dir : forall x, 0 < x < sb_ninodes sb -> type_of sb D x = T_DIR -> dir_ok D x;
  fo_own : forall x y b, 0 < x < sb_ninodes sb -> 0 < y < sb_ninodes sb -> type_of sb D x <> 0 -> type_of sb D y <> 0 ->
    owns D (addrs_of sb D x) b -> owns D (addrs_of sb D y) b -> x = y }.

(** The first entry of the name in [m] entries from [off] on: its inode and its
    offset. *)
Fixpoint dir_scan (D : Z -> list Z) (dino : Z) (name : list Z) (m : nat) (off : Z) : option (Z * Z) :=
  match m with
  | O => None
  | S m' =>
      let de := dirent_at D dino off in
      if de_inum de =? 0 then dir_scan D dino name m' (off + DIRENT)
      else if namecmp name (de_name de) =? 0 then Some (de_inum de, off)
      else dir_scan D dino name m' (off + DIRENT)
  end.
Definition dir_find (D : Z -> list Z) (dino : Z) (name : list Z) : option (Z * Z) := dir_scan D dino name (Z.to_nat (size_of sb D dino / DIRENT)) 0.

(** Inode [i] of the table is locked and holds inode [dino]. *)
Record at_inode (n : Z) (s : kernel) (D : Z -> list Z) (dirty : gset Z) (R : nat -> Z) (i : nat) (dino : Z) : Prop := {
  ai_on : on n s D dirty i (addrs_of sb D dino);
  ai_table : table s D R (Some i);
  ai_ref : 0 < R i;
  ai_inum : i_inum (getinode s i) = dino;
  ai_type : i_type (getinode s i) = type_of sb D dino;
  ai_size : i_size (getinode s i) = size_of sb D dino;
  ai_disk : on_disk sb D (getinode s i) }.

Lemma at_inode_same n s D dirty R i dino s' : at_inode n s D dirty R i dino -> on n s' D dirty i (addrs_of sb D dino) -> same s s' -> at_inode n s' D dirty R i dino.
Proof. intros [A1 A2 A3 A4 A5 A6 A7] O S. constructor; try done; rewrite ?(same_getinode _ _ i S); try done. by eapply itable_same. Qed.

Lemma at_inode_lt n s D dirty R i dino : at_inode n s D dirty R i dino -> (i < Z.to_nat NINODE)%nat.
Proof. intros A. rewrite <- (it_len _ _ _ _ _ _ (ai_table _ _ _ _ _ _ _ A)). apply (ai_on _ _ _ _ _ _ _ A). Qed.

Lemma DIRENT_16 : DIRENT = 16.
Proof. done. Qed.

(** ** dirlookup *)
Notation turn := (dirlookup_turn (S fuel)).

Lemma read_entry n s D dirty R i dino off : at_inode n s D dirty R i dino -> inode_ok D dino -> dir_ok D dino -> 0 <= off < size_of sb D dino -> off mod DIRENT = 0 -> (size dirty < bhead)%nat ->
  exists s', readi (S fuel) i Local off DIRENT s = Ret (DIRENT, dirent_at D dino off) s' /\ at_inode n s' D dirty R i dino /\ same s s'.
Proof.
  intros A [I1 I2 I3 I4] [D1 D2] Ho Hal Hsz. pose proof DIRENT_16 as ED. pose proof A as [A1 A2 A3 A4 A5 A6 A7]. change (MAXFILE * BSIZE) with 274432 in *.
  destruct (readi_run fuel pid start sb L n s D dirty i _ off DIRENT A1) as (s' & E & O' & S); rewrite ?A6; try (change (MAXFILE * BSIZE) with 274432); try lia; try done.
  rewrite A6 in E. rewrite Z.min_l in E by (rewrite ED in *; dlia). exists s'. split; [exact E|]. split; [by eapply at_inode_same|done].
Qed.

(** What dirlookup returns: a reference to the inode of the entry. *)
Definition found (n : Z) (D : Z -> list Z) (dirty : gset Z) (R : nat -> Z) (i : nat) (dino : Z) (r : option (Z * Z)) (v : option (nat * Z)) (s' : kernel) : Prop :=
  match r, v with
  | None, None => at_inode n s' D dirty R i dino
  | Some (x, off), Some (j, off') => off' = off /\ (j < Z.to_nat NINODE)%nat /\ i_inum (getinode s' j) = x /\ at_inode n s' D dirty (radd R j 1) i dino
  | _, _ => False
  end.

Lemma iget_at n s D dirty R i dino x : at_inode n s D dirty R i dino -> 0 < x < sb_ninodes sb -> (exists j, (j < Z.to_nat NINODE)%nat /\ R j = 0) ->
  exists j s', iget ROOTDEV x s = Ret j s' /\ (j < Z.to_nat NINODE)%nat /\ i_inum (getinode s' j) = x /\ at_inode n s' D dirty (radd R j 1) i dino.
Proof.
  intros A Hx Hfree. pose proof A as [A1 A2 A3 A4 A5 A6 A7]. destruct (oi_op _ _ _ _ _ _ _ _ _ A1) as (P & O).
  destruct (iget_run pid start sb n s P D dirty R (Some i) x O A2 Hx Hfree) as (j & f & E & Hj & T' & Ex & Hup). exists j, (upd_inode j f s). split; [done|]. split; [done|].
  pose proof (it_len _ _ _ _ _ _ A2) as Hlen. split; [rewrite getinode_upd, decide_True by (done || by rewrite Hlen); done|].
  assert (getinode (upd_inode j f s) i = if decide (j = i) then ref_up (getinode s i) else getinode s i) as G.
  { rewrite getinode_upd by (by rewrite Hlen). case_decide as Ej; [|done]. subst j. by rewrite Hup. }
  assert (on n (upd_inode j f s) D dirty i (addrs_of sb D dino)) as O'.
  { destruct A1 as [_ B2 B3 B4 B5 B6 B7 B8]. constructor; try done.
    - exists P. by apply op_upd_inode.
    - by rewrite length_upd_inode.
    - rewrite G. by destruct (decide (j = i)).
    - rewrite G. by destruct (decide (j = i)). }
  constructor; try done; rewrite ?G.
  - unfold radd. destruct (decide (i = j)); lia.
  - by destruct (decide (j = i)).
  - by destruct (decide (j = i)).
  - by destruct (decide (j = i)).
  - by destruct (decide (j = i)).
Qed.

Lemma dirlookup_scan f m n s D dirty R i dino name off : at_inode n s D dirty R i dino -> inode_ok D dino -> dir_ok D dino -> 0 <= off -> off mod DIRENT = 0 ->
  off + DIRENT * Z.of_nat m = size_of sb D dino -> (m <= f)%nat -> (size dirty < bhead)%nat -> (exists j, (j < Z.to_nat NINODE)%nat /\ R j = 0) ->
  exists v s', for_loop f off (fun off => off <? size_of sb D dino) (fun off => off + DIRENT) (turn i ROOTDEV name) s = Ret v s'
  /\ found n D dirty R i dino (dir_scan D dino name m off) v s'.
Proof.
  revert f s off. induction m as [|m IH]; intros f s off A Hi Hd Ho Hal Hsize Hf Hsz Hfree; pose proof DIRENT_16 as ED.
  { exists None, s. split; [|done]. destruct f; cbn [for_loop]; by rewrite (proj2 (Z.ltb_ge off _)) by lia. }
  destruct f as [|f]; [lia|]. cbn [for_loop dir_scan]. rewrite (proj2 (Z.ltb_lt off _)) by lia.
  destruct (read_entry n s D dirty R i dino off A Hi Hd ltac:(lia) Hal Hsz) as (s1 & R1 & A1 & S1). set (de := dirent_at D dino off) in *.
  assert (turn i ROOTDEV name off s = (if de_inum de =? 0 then ret None else if namecmp name (de_name de) =? 0 then let* ip' := iget ROOTDEV (de_inum de) in ret (Some (ip', off)) else ret None) s1) as E.
  { unfold dirlookup_turn. erewrite bind_ret_eq by exact R1. cbv beta iota. by rewrite Z.eqb_refl. }
  pose proof (IH f s1 (off + DIRENT) A1 Hi Hd ltac:(lia) ltac:(rewrite ED in *; dlia) ltac:(lia) ltac:(lia) Hsz Hfree) as Hnext.
  destruct (Z.eqb_spec (de_inum de) 0) as [E0|E0]; [by rewrite (bind_ret_eq _ _ s None s1)|].
  destruct (namecmp name (de_name de) =? 0) eqn:En; [|by rewrite (bind_ret_eq _ _ s None s1)].
  destruct (do_entry _ _ Hd off ltac:(lia) Hal) as [Hx|[Hx _]]; [done|]. fold de in Hx.
  destruct (iget_at n s1 D dirty R i dino _ A1 Hx Hfree) as (j & s2 & R2 & Hj & Ej & A2). exists (Some (j, off)), s2. split; [|done].
  rewrite (bind_ret_eq _ _ s (Some (j, off)) s2); [done|]. rewrite E. by erewrite bind_ret_eq by exact R2.
Qed.

Lemma dirlookup_run n s D dirty R i dino name : at_inode n s D dirty R i dino -> fs_ok D -> type_of sb D dino = T_DIR -> (size dirty < bhead)%nat -> (exists j, (j < Z.to_nat NINODE)%nat /\ R j = 0) ->
  exists v s', dirlookup (S fuel) i name s = Ret v s' /\ found n D dirty R i dino (dir_find D dino name) v s'.
Proof.
  intros A F Hty Hsz Hfree. pose proof A as [A1 A2 A3 A4 A5 A6 A7]. pose proof (at_inode_lt _ _ _ _ _ _ _ A) as Hlt. pose proof DIRENT_16 as ED.
  pose proof (itable_inum _ _ _ _ _ _ _ A2 Hlt A3) as Hin. rewrite A4 in Hin.
  assert (inode_ok D dino) as I by (apply F; [done|by rewrite Hty]). assert (dir_ok D dino) as Dk by (by apply F).
  unfold dirlookup. setoid_rewrite (bind_ret_eq (get_inode i) _ s (getinode s i) s); [|done]. rewrite A5, A6, Hty, (oi_dev _ _ _ _ _ _ _ _ _ A1). cbn [negb Z.eqb]. rewrite Z.eqb_refl. cbn [negb].
  apply dirlookup_scan; try done; try lia.
  - pose proof (do_size _ _ Dk). pose proof (io_size _ _ I). rewrite ED in *. dlia.
Qed.
End Dir.
