(* ===== verification/FsName.v ===== *)
(** * Path names: namei and nameiparent

    A path is the list of its elements, and namei is the walk along them. *)
From S2P Require Import Prelude State CString Kalloc Vm Sched Printf Bytes Bio BioSpec Log LogSpec LogTxn Fs FsData FsOp FsAlloc FsMap FsRw FsInode FsDir.

Open Scope Z_scope.

(** ** The elements of a path *)

(** [nm] holds the element [e]: its first 14 bytes, with a nul if it is shorter. *)
Definition is_name (nm e : list Z) : Prop := length nm = Z.to_nat DIRSIZ /\
  (if decide (length e < Z.to_nat DIRSIZ)%nat then exists junk, nm = e ++ 0 :: junk else nm = take (Z.to_nat DIRSIZ) e).

Lemma skip_nil path : skip_slashes path = [] <-> elems path = [].
Proof.
  rewrite <- (elems_skip path). destruct (skip_slashes path) as [|c p] eqn:E; [done|]. split; [done|]. intros He. exfalso. pose proof (skip_slashes_head _ _ _ E) as H.
  unfold elems in He. cbn [split_at] in He. rewrite (proj2 (Z.eqb_neq _ _) H) in He. by destruct (split_at slash p).
Qed.

Lemma skipelem_none path name : skipelem path name = None <-> elems path = [].
Proof. rewrite <- skip_nil. unfold skipelem. destruct (skip_slashes path) as [|c p]; [done|]. by destruct (take_elem (c :: p)). Qed.

Lemma skipelem_some path name path' nm : skipelem path name = Some (path', nm) -> length name = Z.to_nat DIRSIZ ->
  exists e, elems path = e :: elems path' /\ is_name nm e /\ (length path' < length path)%nat /\ (path' = [] <-> elems path' = []).
Proof.
  unfold skipelem. intros E Hn. destruct (skip_slashes path) as [|c p] eqn:Ep; [done|]. destruct (take_elem (c :: p)) as [e r] eqn:T. injection E as <- <-.
  destruct (elems_cons _ _ _ _ _ Ep T) as (Ee & He & Hlen). exists e. split; [done|]. split; [|split; [done|by rewrite elems_skip, skip_nil]].
  assert (DIRSIZ = 14) as ED by done. unfold is_name. destruct (Z.leb_spec DIRSIZ (Z.of_nat (length e))) as [Hle|Hlt].
  - rewrite decide_False by lia. unfold splice. change (Z.to_nat 0) with 0%nat. rewrite take_0, Nat.add_0_l. rewrite (drop_ge name) by (rewrite length_take; lia). rewrite app_nil_r. cbn [app]. split; [rewrite length_take; lia|done].
  - rewrite decide_True by lia. split; [rewrite !splice_length; rewrite ?splice_length; simpl; lia|]. exists (drop (length e + 1) name). unfold splice. cbn [Z.to_nat]. rewrite take_0, Nat.add_0_l, Nat2Z.id. cbn [app length].
    rewrite take_app_length', drop_app_ge by lia. f_equal. f_equal. rewrite drop_drop. f_equal. lia.
Qed.

(** Comparison looks at the element only. *)
Lemma lstrncmp_nul n e junk t : lstrncmp n (e ++ 0 :: junk) t = lstrncmp n e t.
Proof.
  revert e t. induction n as [|n IH]; intros e t; [done|]. cbn [lstrncmp]. destruct e as [|a e]; cbn [app nth tail]; [done|]. by rewrite IH.
Qed.

Lemma namecmp_is_name nm e t : is_name nm e -> namecmp nm t = namecmp (take (Z.to_nat DIRSIZ) e) t.
Proof.
  intros [Hl H]. unfold namecmp. destruct (decide _) as [Hd|Hd] in H; [|by rewrite H]. destruct H as (junk & ->). rewrite lstrncmp_nul. by rewrite take_ge by lia.
Qed.

Section Name.
Context (fuel : nat) (pid start : Z) (sb : superblock) (L : layout sb start).
Notation op := (fsop pid start).
Notation table := (itable pid sb).
Notation slot i := (i < Z.to_nat NINODE)%nat.

(** ** The walk *)
Fixpoint path_walk (D : Z -> list Z) (parent : bool) (dino : Z) (names : list (list Z)) : option Z :=
  match names with
  | [] => if parent then None else Some dino
  | e :: es =>
      if type_of sb D dino =? T_DIR then
        if parent && bool_decide (es = []) then Some dino else
        match dir_find sb D dino (take (Z.to_nat DIRSIZ) e) with
        | Some (x, _) => path_walk D parent x es
        | None => None
        end
      else None
  end.

Lemma dir_find_name D dino nm e : is_name nm e -> dir_find sb D dino nm = dir_find sb D dino (take (Z.to_nat DIRSIZ) e).
Proof.
  intros H. unfold dir_find. generalize (Z.to_nat (size_of sb D dino / DIRENT)), 0. intros m. induction m as [|m IH]; intros off; [done|]. cbn [dir_scan]. by rewrite (namecmp_is_name nm e) by done; rewrite !IH.
Qed.

(** Inside an operation with no inode locked. *)
Record ready (n : Z) (s : kernel) (D : Z -> list Z) (dirty : gset Z) (R : nat -> Z) : Prop := {
  rd_op : exists P, op n s ∅ P D dirty;
  rd_n : 1 <= n;
  rd_sb : k_sb s = sb;
  rd_table : table s D R None }.

Lemma itable_ext s D R R' locked : (forall i, R' i = R i) -> table s D R locked -> table s D R' locked.
Proof.
  intros E [T1 T2 T3 T4 T5]. constructor; try done.
  - intros i. rewrite E. apply T2.
  - intros i. rewrite E. apply T4.
  - intros i j. rewrite !E. apply T5.
Qed.

Lemma ready_upd n s D dirty R i f R' : ready n s D dirty R -> table (upd_inode i f s) D R' None -> ready n (upd_inode i f s) D dirty R'.
Proof. intros [(P & O) Hn Hsb T] T'. constructor; try done. exists P. by apply op_upd_inode. Qed.

(** ilock of an inode of the file system. *)
Lemma ilock_at n s D dirty R i (dino := i_inum (getinode s i)) : ready n s D dirty R -> fs_ok sb D -> slot i -> 0 < R i -> type_of sb D dino <> 0 -> (size dirty < bhead)%nat ->
  exists s', ilock (S fuel) i s = Ret tt s' /\ at_inode pid start sb n s' D dirty R i dino /\ k_disk s' = k_disk s.
Proof.
  intros [(P & O) Hn Hsb T] F Hi HR Hty Hsz. destruct (ilock_run fuel pid start sb L n s P D dirty R i O T Hsb Hi HR Hty Hsz) as (s' & E & O' & S & T'). exists s'. split; [done|]. split; [|apply S].
  pose proof (it_len _ _ _ _ _ _ T) as Hlen. pose proof (itable_inum _ _ _ _ _ _ _ T Hi HR) as Hin. fold dino in Hin. destruct (same_sb _ _ S) as (B1 & B2 & _).
  assert (getinode s' i = loaded pid sb D (getinode s i)) as G by (rewrite (same_getinode _ _ i S), getinode_upd, decide_True by (done || by rewrite Hlen); done).
  pose proof (fo_inode _ _ F dino Hin Hty) as [I1 _ _ _]. destruct (it_used _ _ _ _ _ _ T i Hi HR) as (U1 & _).
  constructor; try done; rewrite ?G; try done. constructor; try done; rewrite ?G; try done.
  - by exists P.
  - by rewrite B1.
  - rewrite B2, length_upd_inode. by rewrite Hlen.
  - apply F.
Qed.

Lemma at_ready n s D dirty R i dino : at_inode pid start sb n s D dirty R i dino ->
  iunlock i s = Ret tt (upd_inode i (set_i_lock unlocked) s) /\ ready n (upd_inode i (set_i_lock unlocked) s) D dirty R /\ i_inum (getinode (upd_inode i (set_i_lock unlocked) s) i) = dino.
Proof.
  intros A. pose proof (at_inode_lt _ _ _ _ _ _ _ _ _ _ A) as Hi. destruct A as [A1 A2 A3 A4 A5 A6 A7]. pose proof A1 as [(P & O) On Osb Oi _ _ _ _]. destruct (iunlock_run pid start sb n s P D dirty R i O A2 Hi A3) as [E T]. split; [done|]. split.
  - constructor; try done. exists P. by apply op_upd_inode.
  - by rewrite getinode_upd, decide_True.
Qed.

(** Unlock the inode and drop the reference to it. *)
Lemma iunlockput_run n s D dirty R i dino : at_inode pid start sb n s D dirty R i dino -> fs_ok sb D -> type_of sb D dino <> 0 ->
  exists s', iunlockput (S fuel) i s = Ret tt s' /\ ready n s' D dirty (radd R i (-1)) /\ forall j, slot j -> i_inum (getinode s' j) = i_inum (getinode s j).
Proof.
  intros A F Hty. pose proof (at_inode_lt _ _ _ _ _ _ _ _ _ _ A) as Hi. destruct (at_ready _ _ _ _ _ _ _ A) as (E1 & R1 & G1). pose proof R1 as [(P & O) _ _ T]. pose proof (ai_ref _ _ _ _ _ _ _ _ _ _ A) as HR.
  pose proof (itable_inum _ _ _ _ _ _ _ T Hi HR) as Hin. rewrite G1 in Hin. pose proof (fo_inode _ _ F dino Hin Hty) as [_ _ _ Hnl].
  set (s1 := upd_inode i (set_i_lock unlocked) s) in *. destruct (iput_run fuel pid start sb n s1 P D dirty R i O T Hi HR) as [E2 T2]; [by rewrite G1|].
  exists (upd_inode i ref_down s1). split; [unfold iunlockput; by erewrite bind_ret_eq by exact E1|]. split; [by eapply ready_upd|].
  intros j Hj. pose proof (it_len _ _ _ _ _ _ (ai_table _ _ _ _ _ _ _ _ _ _ A)) as Hlen. unfold s1. rewrite upd_inode_twice, getinode_upd by (by rewrite Hlen). destruct (decide (i = j)) as [<-|]; done.
Qed.

(** What namex leaves: a reference to the inode found. *)
Definition named (n : Z) (D : Z -> list Z) (dirty : gset Z) (R : nat -> Z) (r : option Z) (v : option nat) (s' : kernel) : Prop :=
  match r, v with
  | None, None => ready n s' D dirty R
  | Some x, Some j => slot j /\ i_inum (getinode s' j) = x /\ ready n s' D dirty (radd R j 1)
  | _, _ => False
  end.

Definition room (R : nat -> Z) : Prop := exists j k, j <> k /\ slot j /\ slot k /\ R j = 0 /\ R k = 0.

Lemma room_one R i : room R -> exists j, slot j /\ radd R i 1 j = 0.
Proof. intros (j & k & Hne & Hj & Hk & Ej & Ek). destruct (decide (j = i)) as [->|]; [exists k|exists j]; by rewrite radd_ne. Qed.

Lemma ready_ext n s D dirty R R' : (forall i, R' i = R i) -> ready n s D dirty R -> ready n s D dirty R'.
Proof. intros E [O Hn Hsb T]. constructor; try done. by eapply itable_ext. Qed.

Lemma radd_back R i j : radd (radd R i 1) i (-1) j = R j.
Proof. unfold radd. destruct (decide (j = i)); lia. Qed.

Lemma radd_swap R i k j : radd (radd (radd R i 1) k 1) i (-1) j = radd R k 1 j.
Proof. unfold radd. destruct (decide (j = i)), (decide (j = k)); lia. Qed.

(** ** namex *)
Definition typed (D : Z -> list Z) (x : Z) : Prop := 0 < x < sb_ninodes sb /\ type_of sb D x <> 0.

Lemma root_typed D : fs_ok sb D -> typed D ROOTINO.
Proof. intros F. destruct (fo_root _ _ F) as [H1 H2]. split; [done|]. by rewrite H2. Qed.

Lemma dir_scan_typed D dino name m off x o : dir_ok sb D dino -> 0 <= off -> off mod DIRENT = 0 -> off + DIRENT * Z.of_nat m <= size_of sb D dino ->
  dir_scan sb D dino name m off = Some (x, o) -> typed D x.
Proof.
  intros Hd. revert off. induction m as [|m IH]; intros off Ho Hal Hsz; [done|]. cbn [dir_scan]. pose proof DIRENT_16 as ED.
  assert (dir_scan sb D dino name m (off + DIRENT) = Some (x, o) -> typed D x) as Hn by (apply IH; rewrite ED in *; try lia; dlia).
  destruct (Z.eqb_spec (de_inum (dirent_at sb D dino off)) 0) as [|Hne]; [done|]. destruct (_ =? 0); [|done]. intros [= <- <-].
  destruct (do_entry _ _ _ Hd off ltac:(lia) Hal) as [|H]; [done|exact H].
Qed.

Lemma dir_find_typed D dino name x o : fs_ok sb D -> typed D dino -> type_of sb D dino = T_DIR -> dir_find sb D dino name = Some (x, o) -> typed D x.
Proof.
  intros F [H1 H2] Hty. pose proof (io_size _ _ _ (fo_inode _ _ F dino H1 H2)) as Hs. pose proof DIRENT_16 as ED. apply dir_scan_typed; [by apply F|lia|done|]. rewrite ED. dlia.
Qed.

(** One turn: the path is at its end, or the walk is over, or it goes on. *)
Lemma namex_turn_run np n s D dirty R ip path name dino : ready n s D dirty (radd R ip 1) -> fs_ok sb D -> slot ip -> i_inum (getinode s ip) = dino -> typed D dino -> 0 <= R ip ->
  room R -> (size dirty < bhead)%nat -> length name = Z.to_nat DIRSIZ ->
  (exists v nm s', namex_turn (S fuel) np (ip, path, name) s = Ret (inr (v, nm)) s' /\ named n D dirty R (path_walk D np dino (elems path)) v s'
     /\ (v <> None -> np = true -> exists e, elems path = [e] /\ is_name nm e))
  \/ (exists next path' nm s' x, namex_turn (S fuel) np (ip, path, name) s = Ret (inl (next, path', nm)) s' /\ ready n s' D dirty (radd R next 1) /\ slot next /\ i_inum (getinode s' next) = x /\ typed D x
     /\ path_walk D np x (elems path') = path_walk D np dino (elems path) /\ (length path' < length path)%nat /\ length nm = Z.to_nat DIRSIZ /\ (np = true -> last (elems path') = last (elems path)) ).
Proof.
  intros Rd F Hip Hino [Ht1 Ht2] HR Hroom Hsz Hname. unfold namex_turn. destruct (skipelem path name) as [[path' nm]|] eqn:Esk.
  2: { left. apply skipelem_none in Esk. rewrite Esk. cbn [path_walk]. destruct np; [|by exists (Some ip), name, s].
    pose proof Rd as [(P & O) _ _ T]. destruct (iput_run fuel pid start sb n s P D dirty _ ip O T Hip) as [E T']; [rewrite radd_eq; lia|rewrite Hino; by apply (fo_inode _ _ F)|].
    exists None, name, (upd_inode ip ref_down s). split; [by erewrite bind_ret_eq by exact E|]. split; [|done]. eapply ready_ext; [intros j; symmetry; apply radd_back|]. by eapply ready_upd. }
  destruct (skipelem_some _ _ _ _ Esk Hname) as (e & Ee & Hnm & Hlen & Hend). rewrite Ee. cbn [path_walk].
  destruct (ilock_at n s D dirty _ ip Rd F Hip ltac:(rewrite radd_eq; lia) ltac:(by rewrite Hino) Hsz) as (s1 & E1 & A1 & _). rewrite Hino in A1.
  setoid_rewrite bind_ret_eq; [|exact E1..]. setoid_rewrite (bind_ret_eq (get_inode ip) _ s1 (getinode s1 ip) s1); [|done..]. rewrite (ai_type _ _ _ _ _ _ _ _ _ _ A1).
  destruct (Z.eqb_spec (type_of sb D dino) T_DIR) as [Hty|Hty]; cbn [negb].
  2: { left. destruct (iunlockput_run _ _ _ _ _ _ _ A1 F Ht2) as (s2 & E2 & R2 & _). exists None, nm, s2. split; [by erewrite bind_ret_eq by exact E2|]. split; [|done]. eapply ready_ext; [|exact R2]. intros j; symmetry; apply radd_back. }
  rewrite (bool_decide_ext (path' = []) (elems path' = [])) by done.
  destruct (np && bool_decide (elems path' = [])) eqn:Enp.
  { left. apply andb_true_iff in Enp as [-> Hb%bool_decide_eq_true]. destruct (at_ready _ _ _ _ _ _ _ A1) as (E2 & R2 & G2). exists (Some ip), nm, (upd_inode ip (set_i_lock unlocked) s1).
    split; [by erewrite bind_ret_eq by exact E2|]. split; [done|]. intros _ _. exists e. by rewrite Hb. }
  destruct (dirlookup_run fuel pid start sb L n s1 D dirty _ ip dino nm A1 F Hty Hsz (room_one R ip Hroom)) as (v & s2 & E2 & Hf).
  rewrite (dir_find_name _ _ _ _ Hnm) in Hf. setoid_rewrite bind_ret_eq; [|exact E2..]. destruct (dir_find sb D dino (take (Z.to_nat DIRSIZ) e)) as [[x o]|] eqn:Ef, v as [[j o']|]; try done.
  - right. destruct Hf as (-> & Hj & Hx & A2). destruct (iunlockput_run _ _ _ _ _ _ _ A2 F Ht2) as (s3 & E3 & R3 & G3). exists j, path', nm, s3, x. split; [by erewrite bind_ret_eq by exact E3|].
    split; [eapply ready_ext; [|exact R3]; intros k; symmetry; apply radd_swap|]. split; [done|]. split; [by rewrite G3|]. split; [by eapply dir_find_typed|].
    split; [done|]. split; [done|]. split; [apply Hnm|]. intros ->. cbn in Enp. apply bool_decide_eq_false in Enp. destruct (elems path'); done.
  - left. destruct (iunlockput_run _ _ _ _ _ _ _ Hf F Ht2) as (s3 & E3 & R3 & _). exists None, nm, s3. split; [by erewrite bind_ret_eq by exact E3|]. split; [|done]. eapply ready_ext; [|exact R3]. intros k; symmetry; apply radd_back.
Qed.

Lemma namex_loop np f n s D dirty R ip path name dino : ready n s D dirty (radd R ip 1) -> fs_ok sb D -> slot ip -> i_inum (getinode s ip) = dino -> typed D dino -> (forall j, slot j -> 0 <= R j) ->
  room R -> (size dirty < bhead)%nat -> length name = Z.to_nat DIRSIZ -> (length path < f)%nat ->
  exists v nm s', while_loop f (ip, path, name) (namex_turn (S fuel) np) s = Ret (v, nm) s' /\ named n D dirty R (path_walk D np dino (elems path)) v s'
  /\ (v <> None -> np = true -> exists e, last (elems path) = Some e /\ is_name nm e).
Proof.
  revert s ip path name dino. induction f as [|f IH]; intros s ip path name dino Rd F Hip Hino Hty HR Hroom Hsz Hname Hf; [lia|].
  destruct (namex_turn_run np n s D dirty R ip path name dino Rd F Hip Hino Hty (HR ip Hip) Hroom Hsz Hname) as [(v & nm & s' & E & Hn & Hl)|(next & path' & nm & s' & x & E & R' & Hs & Hx & Hty' & Ew & Hlen & Hnm & Hl)].
  - exists v, nm, s'. split; [by apply while_done|]. split; [done|]. intros H1 H2. destruct (Hl H1 H2) as (e & -> & He). by exists e.
  - destruct (IH s' next path' nm x R' F Hs Hx Hty' HR Hroom Hsz Hnm ltac:(lia)) as (v & nm' & s2 & E2 & Hn & Hl2). exists v, nm', s2. split; [by erewrite while_next by exact E|]. rewrite Ew in Hn. split; [done|].
    intros H1 H2. rewrite <- (Hl H2). by apply Hl2.
Qed.

(** The inode where a path starts: the root, or the current directory. *)
Definition starts_at (s : kernel) (R : nat -> Z) (path : list Z) (x : Z) : Prop :=
  if nth 0 path 0 =? slash then x = ROOTINO
  else exists p c, k_cur s = Some p /\ p_cwd (getproc s p) = Some c /\ slot c /\ 0 < R c /\ x = i_inum (getinode s c).

Lemma namex_run np n s D dirty R path name x : ready n s D dirty R -> fs_ok sb D -> starts_at s R path x -> typed D x -> room R -> (size dirty < bhead)%nat -> length name = Z.to_nat DIRSIZ ->
  exists v nm s', namex (S fuel) path np name s = Ret (v, nm) s' /\ named n D dirty R (path_walk D np x (elems path)) v s'
  /\ (v <> None -> np = true -> exists e, last (elems path) = Some e /\ is_name nm e).
Proof.
  intros Rd F Hst Hty Hroom Hsz Hname. pose proof Rd as [(P & O) Hn Hsb T]. assert (forall j, slot j -> 0 <= R j) as HR by (intros j Hj; by apply (it_ref _ _ _ _ _ _ T)).
  assert (exists ip s1, (if nth 0 path 0 =? slash then iget ROOTDEV ROOTINO
     else let* p := this_proc in let* pr := get_proc p in match p_cwd pr with Some c => idup c | None => panic "kerneltrap" end) s = Ret ip s1
     /\ slot ip /\ i_inum (getinode s1 ip) = x /\ ready n s1 D dirty (radd R ip 1)) as (ip & s1 & E & Hip & Hino & R1).
  { unfold starts_at in Hst. pose proof (it_len _ _ _ _ _ _ T) as Hlen. destruct (nth 0 path 0 =? slash).
    - subst x. destruct (iget_run pid start sb n s P D dirty R None ROOTINO O T (proj1 Hty)) as (i & f & E & Hi & T' & Ei & _); [destruct Hroom as (j & k & _ & Hj & _ & Ej & _); eauto|].
      exists i, (upd_inode i f s). split; [done|]. split; [done|]. split; [rewrite getinode_upd, decide_True by (done || by rewrite Hlen); done|]. by eapply ready_upd.
    - destruct Hst as (p & c & Ep & Ec & Hc & HRc & ->). destruct (idup_run pid start sb n s P D dirty R None c O T Hc HRc) as [E T']. exists c, (upd_inode c ref_up s). split.
      + rewrite (bind_ret_eq _ _ s p s) by (by apply this_proc_ret). rewrite (bind_ret_eq _ _ s (getproc s p) s) by done. by rewrite Ec.
      + split; [done|]. split; [rewrite getinode_upd, decide_True by (done || by rewrite Hlen); done|]. by eapply ready_upd. }
  destruct (namex_loop np (S (length path)) n s1 D dirty R ip path name x R1 F Hip Hino Hty HR Hroom Hsz Hname ltac:(lia)) as (v & nm & s2 & E2 & H). exists v, nm, s2. split; [|done].
  unfold namex. by erewrite bind_ret_eq by exact E.
Qed.
End Name.
