(* ===== verification/FsBoot.v ===== *)
(** * Mounting the file system

    binit, iinit and fsinit on a machine that starts: the log is recovered and the
    inode table is empty. *)
From S2P Require Import Prelude State CString Kalloc Vm Sched Printf Bytes Bio BioSpec Log LogSpec LogTxn Fs FsData FsOp FsAlloc FsMap FsRw FsInode FsDir FsName.

Open Scope Z_scope.

Definition blank_inode : inode := mkInode 0 0 0 (mkSleeplock 0 0) 0 0 0 0 0 0 (replicate (Z.to_nat NDIRECT + 1) 0).

(** A machine that starts with the disk [d]. *)
Record powered (s : kernel) (pid : Z) (d : list (Z * list Z)) : Prop := {
  pw_bufs : k_bufs s = replicate (S bhead) zero_buf;
  pw_log : k_log s = mkLog 0 0 0 0 0 (replicate (Z.to_nat LOGBLOCKS) 0);
  pw_inodes : k_inodes s = replicate (Z.to_nat NINODE) blank_inode;
  pw_calm : calm s pid;
  pw_disk : k_disk s = d }.

Lemma iinit_run s : k_inodes s = replicate (Z.to_nat NINODE) blank_inode -> iinit s = Ret tt s.
Proof. intros E. destruct s. simpl in E. subst. vm_compute. reflexivity. Qed.

Section Mount.
Context (fuel : nat) (pid start : Z) (sb : superblock) (L : layout sb start).
Notation op := (fsop pid start).
Let bm := sb_bmapstart sb.

Definition mount : K unit := binit ;;; iinit ;;; fsinit (S fuel) ROOTDEV.

(** ** readsb *)
Lemma cache_sb s H P D dirty v : cache s pid H P D dirty -> cache (set_k_sb v s) pid H P D dirty.
Proof. intros [C1 C2 C3 C4 C5 C6 C7 C8 C9 C10 C11]. by constructor. Qed.

Lemma readsb_run s P D : cache s pid ∅ P D ∅ -> calm s pid ->
  exists s', readsb (S fuel) ROOTDEV s = Ret tt s' /\ cache s' pid ∅ P D ∅ /\ frame (set_k_sb (sb_of (D 1)) s) s' /\ k_disk s' = k_disk s.
Proof.
  intros I C. destruct (bread_spec s pid ∅ P D ∅ I fuel 1 C) as (b & s1 & E1 & I1 & _ & Hb & HP & _ & K1 & F1); [intros b Hb; set_solver|right; eapply free_buffer; [exact I|rewrite !size_empty; change bhead with 30%nat; lia]|].
  set (s2 := set_k_sb (sb_of (D 1)) s1). assert (calm s1 pid) as C1 by (by eapply frame_calm). assert (calm s2 pid) as C2 by (destruct C1; by constructor).
  destruct (brelse_spec s2 pid _ P D ∅ b 1 (cache_sb _ _ _ _ _ _ I1) C2) as (s3 & E3 & I3 & _ & K3 & F3); [set_solver|done|done|].
  rewrite held_back in I3 by set_solver. exists s3. split; [|split; [done|split]].
  - unfold readsb. erewrite bind_ret_eq by exact E1. erewrite bind_ret_eq by reflexivity. rewrite (proj2 (proj2 Hb)). erewrite bind_ret_eq by reflexivity. exact E3.
  - eapply frame_trans; [|exact F3]. destruct F1 as (V & G & B). unfold frame, s2, env in *. cbn. injection V as -> -> -> -> _. by rewrite G.
  - by rewrite K3, <- K1.
Qed.

(** ** ireclaim finds nothing to reclaim. *)
Lemma ireclaim_turn_run n s P D dirty inum : op n s ∅ P D dirty -> di_type (D (iblock sb inum)) inum = 0 \/ di_nlink (D (iblock sb inum)) inum <> 0 -> (size dirty < bhead)%nat ->
  exists s', ireclaim_turn (S fuel) ROOTDEV sb inum s = Ret tt s' /\ op n s' ∅ P D dirty /\ same s s'.
Proof.
  intros O Hno Hsz. destruct (op_read fuel pid start n s ∅ P D dirty (IBLOCK inum sb) O (unheld_none _ _)) as (bp & s1 & R1 & O1 & _ & Hb1 & S1 & _ & _); [rewrite size_empty; lia|].
  destruct (op_release pid start n s1 _ P _ _ bp _ O1 Hb1) as (s2 & R2 & O2 & S2 & _ & _). rewrite held_back in O2 by set_solver. exists s2. split; [|split; [done|by eapply same_trans]].
  unfold ireclaim_turn. erewrite bind_ret_eq by exact R1. erewrite bind_ret_eq by reflexivity. rewrite (proj2 (proj2 (proj1 (proj2 Hb1)))). fold (iblock sb inum).
  assert (negb (di_type (D (iblock sb inum)) inum =? 0) && (di_nlink (D (iblock sb inum)) inum =? 0) = false) as ->.
  { destruct Hno as [->|Hno]; [done|]. by rewrite (proj2 (Z.eqb_neq _ _) Hno), andb_false_r. }
  erewrite bind_ret_eq by reflexivity. by erewrite bind_ret_eq by exact R2.
Qed.

Lemma ireclaim_run n s P D dirty : op n s ∅ P D dirty -> k_sb s = sb -> (forall x, 0 < x < sb_ninodes sb -> di_type (D (iblock sb x)) x = 0 \/ di_nlink (D (iblock sb x)) x <> 0) -> (size dirty < bhead)%nat ->
  exists s', ireclaim (S fuel) ROOTDEV s = Ret tt s' /\ op n s' ∅ P D dirty /\ same s s'.
Proof.
  intros O Hsb Hno Hsz. unfold ireclaim. setoid_rewrite (bind_ret_eq (gets k_sb) _ s sb s); [|by rewrite <- Hsb].
  assert (Forall (fun x => 0 < x < sb_ninodes sb) (seqZ 1 (sb_ninodes sb - 1))) as Hl by (apply Forall_forall; intros x Hx%elem_of_seqZ; lia).
  clear Hsb. revert s O. induction Hl as [|x l Hx _ IH]; intros s O; [exists s; by split|]. cbn [for_all].
  destruct (ireclaim_turn_run n s P D dirty x O (Hno x Hx) Hsz) as (s1 & R1 & O1 & S1). destruct (IH s1 O1) as (s2 & R2 & O2 & S2).
  exists s2. split; [by erewrite bind_ret_eq by exact R1|]. split; [done|by eapply same_trans].
Qed.

(** ** The file system depends on the data blocks only. *)
Section Same.
Context (C D : Z -> list Z) (E : same_data start C D).

Lemma same_bm : D bm = C bm.
Proof. apply E. right. apply (bm_range start sb L). Qed.

Lemma same_iblock x : 0 < x < sb_ninodes sb -> D (iblock sb x) = C (iblock sb x).
Proof. intros Hx. apply E. right. apply (iblock_range start sb L). lia. Qed.

Lemma same_used a : in_use sb C a -> D a = C a.
Proof. intros [Hr _]. apply E. right. pose proof (proj2 (bm_range start sb L)). lia. Qed.

Lemma same_inode x : 0 < x < sb_ninodes sb ->
  type_of sb D x = type_of sb C x /\ nlink_of sb D x = nlink_of sb C x /\ size_of sb D x = size_of sb C x /\ addrs_of sb D x = addrs_of sb C x.
Proof. intros Hx. unfold type_of, nlink_of, size_of, addrs_of. by rewrite same_iblock. Qed.

Lemma same_faddr addrs k : file_wf sb C addrs -> faddr D addrs k = faddr C addrs k.
Proof.
  intros [_ _ W3 _ _]. unfold faddr. destruct (k <? NDIRECT); [done|]. fold (ind_of addrs). destruct (Z.eqb_spec (ind_of addrs) 0) as [|Hi]; [done|]. by rewrite (same_used _ (W3 Hi)).
Qed.

Lemma same_file addrs : file_wf sb C addrs -> file_wf sb D addrs.
Proof.
  intros W. pose proof W as [W1 W2 W3 W4 W5]. assert (forall a, in_use sb C a -> in_use sb D a) as Hu by (intros a [U1 U2]; split; [done|fold bm; by rewrite same_bm]).
  constructor; [done| |auto| |].
  - intros k Hk. rewrite same_faddr by done. auto.
  - intros k j Hk Hj. rewrite !same_faddr by done. by apply W4.
  - intros k Hk. rewrite same_faddr by done. auto.
Qed.

Lemma same_fbyte addrs j : file_wf sb C addrs -> 0 <= j < MAXFILE * BSIZE -> fbyte D addrs j = fbyte C addrs j.
Proof. intros W Hj. apply fbyte_same; [by apply same_faddr|]. intros Ha. apply same_used, (wf_used _ _ _ W); [by apply block_range|done]. Qed.

Lemma same_fbytes addrs off n : file_wf sb C addrs -> 0 <= off -> off + n <= MAXFILE * BSIZE -> fbytes D addrs off n = fbytes C addrs off n.
Proof. intros W Ho Hn. unfold fbytes. apply list_fmap_ext. intros i j Hj%lookup_seqZ. apply same_fbyte; [done|lia]. Qed.

Lemma fs_ok_same : fs_ok sb C -> fs_ok sb D.
Proof.
  intros [F1 F2 F3 F4 F5]. destruct (same_inode ROOTINO (proj1 F2)) as (R1 & _).
  assert (forall x, 0 < x < sb_ninodes sb -> type_of sb D x <> 0 -> inode_ok sb C x) as HI by (intros x Hx Ht; apply F3; [done|]; by rewrite <- (proj1 (same_inode x Hx))).
  constructor.
  - fold bm. rewrite same_bm. done.
  - by rewrite R1.
  - intros x Hx Ht. destruct (same_inode x Hx) as (_ & X2 & X3 & X4). pose proof (HI x Hx Ht) as [I1 I2 I3 I4]. constructor; rewrite ?X2, ?X3, ?X4; try done; [by apply same_file|].
    intros k Hk Hs. rewrite same_faddr by done. by apply I3.
  - intros x Hx Ht. destruct (same_inode x Hx) as (X1 & X2 & X3 & X4). rewrite X1 in Ht. pose proof (F3 x Hx ltac:(by rewrite Ht)) as [I1 I2 I3 I4]. pose proof (F4 x Hx Ht) as [D1 D2]. pose proof DIRENT_16 as ED.
    constructor; rewrite ?X3; try done. intros off Ho Hal y. unfold y, dirent_at. rewrite X4, same_fbytes; [fold (dirent_at sb C x off)|done|lia|].
    + destruct (D2 off Ho Hal) as [H|[H1 H2]]; [by left|right]. split; [done|]. by rewrite (proj1 (same_inode _ H1)).
    + rewrite ED in *. change (MAXFILE * BSIZE) with 274432 in *. dlia.
  - intros x y b Hx Hy Tx Ty [Hb Ox] [_ Oy]. destruct (same_inode x Hx) as (X1 & _ & _ & X4). destruct (same_inode y Hy) as (Y1 & _ & _ & Y4). rewrite X1 in Tx. rewrite Y1 in Ty.
    rewrite X4 in Ox. rewrite Y4 in Oy. apply (F5 x y b); try done; (split; [done|]); [destruct Ox as [?|(k & Hk & Ek)]|destruct Oy as [?|(k & Hk & Ek)]]; try by left.
    + right. exists k. split; [done|]. rewrite <- Ek. symmetry. by apply same_faddr, (F3 x Hx Tx).
    + right. exists k. split; [done|]. rewrite <- Ek. symmetry. by apply same_faddr, (F3 y Hy Ty).
Qed.

Lemma same_dirent x off : fs_ok sb C -> 0 < x < sb_ninodes sb -> type_of sb C x = T_DIR -> 0 <= off -> off + DIRENT <= size_of sb C x -> dirent_at sb D x off = dirent_at sb C x off.
Proof.
  intros F Hx Ht Ho Hs. pose proof (fo_inode _ _ F x Hx ltac:(by rewrite Ht)) as [I1 I2 _ _]. destruct (same_inode x Hx) as (_ & _ & _ & X4). unfold dirent_at. rewrite X4. apply same_fbytes; [done|done|lia].
Qed.

Lemma same_dir_scan x name m off : fs_ok sb C -> 0 < x < sb_ninodes sb -> type_of sb C x = T_DIR -> 0 <= off -> off + DIRENT * Z.of_nat m <= size_of sb C x -> dir_scan sb D x name m off = dir_scan sb C x name m off.
Proof.
  intros F Hx Ht. revert off. induction m as [|m IH]; intros off Ho Hs; [done|]. pose proof DIRENT_16 as ED. cbn [dir_scan]. rewrite same_dirent by (done || lia). by rewrite IH by lia.
Qed.

Lemma same_walk np x es : fs_ok sb C -> typed sb C x -> path_walk sb D np x es = path_walk sb C np x es.
Proof.
  intros F. revert x. induction es as [|e es IH]; intros x Hx; [done|]. cbn [path_walk]. destruct (same_inode x (proj1 Hx)) as (X1 & _ & X3 & _). rewrite X1. destruct (Z.eqb_spec (type_of sb C x) T_DIR) as [Ht|]; [|done].
  destruct (np && _); [done|]. assert (dir_find sb D x (take (Z.to_nat DIRSIZ) e) = dir_find sb C x (take (Z.to_nat DIRSIZ) e)) as Ef.
  { unfold dir_find. rewrite X3. apply same_dir_scan; try done; [apply Hx|]. pose proof (io_size _ _ _ (fo_inode _ _ F x (proj1 Hx) (proj2 Hx))). pose proof DIRENT_16 as ED. rewrite ED. dlia. }
  rewrite Ef. destruct (dir_find sb C x _) as [[y o]|] eqn:Ey; [|done]. apply IH. by eapply dir_find_typed.
Qed.
End Same.

(** ** The boot *)
Lemma itable_blank s D : k_inodes s = replicate (Z.to_nat NINODE) blank_inode -> itable pid sb s D (fun _ => 0) None.
Proof.
  intros Ei. assert (forall i, (i < Z.to_nat NINODE)%nat -> getinode s i = blank_inode) as G by (intros i Hi; unfold getinode; by rewrite Ei, lookup_replicate_2).
  constructor; try done; try lia.
  - by rewrite Ei, length_replicate.
  - intros i Hi. by rewrite G.
  - intros i Hi. by rewrite G.
Qed.

Lemma op_idle s P D : op 0 s ∅ P D ∅ -> idle pid start s D.
Proof. intros O. pose proof (fsop_size _ _ _ _ _ _ _ _ O) as Hs. rewrite size_empty in Hs. destruct O. constructor; try done. by exists P. Qed.

Lemma idle_fsop s D : idle pid start s D -> exists P, op 0 s ∅ P D ∅.
Proof. intros I. apply fsop_in_op. by apply idle_op. Qed.

(** A machine with a file system on its disk mounts it, after any crash. *)
Lemma mount_run s d C : powered s pid d -> reads_as start C d -> sb_of (disk_block d 1) = sb -> sb_magic sb = FSMAGIC -> 0 <= start /\ start + LOGBLOCKS < 2 ^ 31 -> fs_ok sb C ->
  exists s' D', mount s = Ret tt s' /\ idle pid start s' D' /\ same_data start C D' /\ k_sb s' = sb /\ itable pid sb s' D' (fun _ => 0) None
  /\ k_procs s' = k_procs s /\ k_cur s' = k_cur s.
Proof.
  intros [Pb Pl Pi Pc Pd] Rd Esb Hmag Hr F. set (s1 := set_k_bufs linked_bufs s).
  assert (sized (k_disk s)) as Hz by (rewrite Pd; apply Rd). assert (calm s1 pid) as C1 by (by eapply calm_env).
  destruct (readsb_run s1 (fun _ => 0) _ (binit_cache s pid Hz) C1) as (s2 & E2 & I2 & (V2 & G2 & B2) & K2). rewrite Pd, Esb in *. cbn in B2, G2, K2.
  injection V2 as W1 W2 W3 W4 _. set (s3 := set_k_log (set_l_dev ROOTDEV (set_l_start start (k_log s2))) s2).
  assert (calm s2 pid) as C2. { destruct C1 as [c1 c2 c3 c4]. constructor; [by rewrite W1|unfold getproc; by rewrite W2, W3|by rewrite W3|by rewrite W3]. }
  destruct (recover_run fuel pid start s3 (fun _ => 0) C) as (s4 & P4 & D4 & E4 & A4 & I4 & HD & Hh & V4 & N4 & At4 & L4 & Lo4 & Lc4).
  - change (k_disk s3) with (k_disk s2). rewrite K2, Pd. by apply cache_log.
  - by eapply calm_env.
  - by unfold log_at, s3.
  - simpl. by rewrite G2, Pl.
  - simpl. by rewrite K2, Pd.
  - assert (fsop pid start 0 s4 ∅ P4 D4 ∅) as O4.
    { constructor; try done.
      - by eapply calm_env; [exact C2|].
      - unfold homes. rewrite N4. apply homes_ok_nil.
      - by rewrite N4.
      - intros x. unfold homes. rewrite N4. cbn. split; intros Hx; [by apply elem_of_empty in Hx|by apply not_elem_of_nil in Hx].
      - rewrite Lo4. simpl. by rewrite G2, Pl.
      - rewrite Lc4. simpl. by rewrite G2, Pl.
      - intros bn. rewrite <- (ca_disk _ _ _ _ _ _ I4 bn) by set_solver. apply I4. }
    assert (fs_ok sb D4) as F4 by (eapply fs_ok_same; [|exact F]; done). assert (k_sb s4 = sb) as Sb4 by (injection V4 as _ _ _ _ ->; done).
    destruct (ireclaim_run 0 s4 P4 D4 ∅ O4 Sb4) as (s5 & E5 & O5 & S5).
    { intros x Hx. destruct (decide (di_type (D4 (iblock sb x)) x = 0)); [by left|right]. by apply (fo_inode _ _ F4 x Hx). }
    { rewrite size_empty. change bhead with 30%nat. lia. }
    destruct (same_sb _ _ S5) as (Q1 & Q2 & Q3 & Q4). injection V4 as X1 X2 X3 X4 _. cbn in X1, X2, X3, X4, W1, W2, W3, W4.
    exists s5, D4. split; [|split; [|split; [done|split; [by rewrite Q1|split; [|split; congruence]]]]].
    + unfold mount. erewrite bind_ret_eq by (by apply binit_run). erewrite bind_ret_eq by (by apply iinit_run). unfold fsinit. erewrite bind_ret_eq by exact E2.
      erewrite bind_ret_eq by reflexivity. rewrite B2, Hmag. change (negb (FSMAGIC =? FSMAGIC)) with false. cbv iota. rewrite (bind_ret_eq _ _ s2 tt s4); [exact E5|].
      unfold initlog. change (BSIZE <=? 4 + 4 * LOGBLOCKS) with false. cbv iota. erewrite bind_ret_eq by reflexivity. erewrite bind_ret_eq by reflexivity. erewrite bind_ret_eq by reflexivity.
      rewrite <- E4. f_equal. unfold s3. cbn. rewrite B2. by rewrite (proj2 (ly_log _ _ L)).
    + by eapply op_idle.
    + apply itable_blank. congruence.
Qed.
End Mount.
