(* ===== verification/FsFile.v ===== *)
(** * Files

    Reading a file by its path and writing to it, as a thread alone with the file
    system does: each inside an operation. *)
From S2P Require Import Prelude State CString Kalloc Vm Sched Printf Bytes Bio BioSpec Log LogSpec LogTxn Fs FsData FsOp FsAlloc FsMap FsRw FsInode FsDir FsName FsBoot.

Open Scope Z_scope.

Section File.
Context (fuel : nat) (pid start : Z) (sb : superblock) (L : layout sb start).
Notation op := (fsop pid start).
Notation table := (itable pid sb).
Notation ready := (ready pid start sb).
Let bm := sb_bmapstart sb.

(** Between operations, with the references [R] to inodes. *)
Record mounted (s : kernel) (D : Z -> list Z) (R : nat -> Z) : Prop := {
  mo_idle : idle pid start s D;
  mo_sb : k_sb s = sb;
  mo_table : table s D R None }.

Lemma itable_data s D D' R locked : (forall x, 0 < x < sb_ninodes sb -> D' (iblock sb x) = D (iblock sb x)) -> table s D R locked -> table s D' R locked.
Proof.
  intros E [T1 T2 T3 T4 T5]. constructor; try done. intros i ip Hi HR. destruct (T4 i Hi HR) as (U1 & U2 & U3). split; [done|]. split; [done|].
  destruct U3 as [?|[? U]]; [by left|right]. split; [done|]. unfold on_disk in *. fold ip in U. rewrite E; [done|]. exact U2.
Qed.

Lemma op_begin s D R : mounted s D R -> exists s1, begin_op (S fuel) s = Ret tt s1 /\ ready 1 s1 D ∅ R /\ same s s1.
Proof.
  intros [I Hsb T]. destruct (idle_op pid start s D I) as [O N]. destruct (begin_op_spec fuel pid start 0 s D ∅ O) as (s1 & E & O1 & _ & K & V); [by rewrite N|].
  assert (same s s1) as S by done. exists s1. split; [done|]. split; [|done]. constructor; [by apply fsop_in_op|done| |by eapply itable_same].
  by rewrite (proj1 (same_sb _ _ S)).
Qed.

Lemma op_end s D dirty R : ready 1 s D dirty R -> (size dirty < bhead)%nat ->
  exists s' D', end_op (S fuel) s = Ret tt s' /\ mounted s' D' R /\ same_data start D D'
  /\ at_every_crash (k_disk s) (k_disk s') (fun d => reads_as start (disk_block (k_disk s)) d \/ reads_as start D d) /\ env s' = env s.
Proof.
  intros [(P & O) Hn Hsb T] Hsz. pose proof (fsop_size _ _ _ _ _ _ _ _ O) as Hs. pose proof (fsop_op _ _ _ _ _ _ _ O) as I.
  destruct (end_op_spec fuel pid start s D dirty I) as (s' & D' & E & I' & HD & A & V). { change bhead with 30%nat in Hsz. change LOGBLOCKS with 30. lia. }
  exists s', D'. split; [done|]. split; [|done]. injection V as V1 V2 V3 V4 V5. constructor; [done|by rewrite V5|].
  apply (itable_data _ D); [intros x Hx; by apply (same_iblock start sb L D D')|]. destruct T as [T1 T2 T3 T4 T5]. assert (forall i, getinode s' i = getinode s i) as G by (intros i; unfold getinode; by rewrite V4).
  constructor; [by rewrite V4|..].
  - intros i. rewrite G. apply T2.
  - intros i. rewrite G. apply T3.
  - intros i ip. unfold ip. rewrite G. apply T4.
  - intros i j. rewrite !G. apply T5.
Qed.

(** ** Reading a file by its path *)

(** The calls exec makes to read from the file at [path]. *)
Definition read_path (path : list Z) (off n : Z) : K (option (Z * list Z)) :=
  begin_op (S fuel) ;;;
  let* ip := namei (S fuel) path in
  match ip with
  | None => end_op (S fuel) ;;; ret None
  | Some i =>
      ilock (S fuel) i ;;;
      let* r := readi (S fuel) i Local off n in
      iunlockput (S fuel) i ;;;
      end_op (S fuel) ;;;
      ret (Some r)
  end.

(** What the bytes of inode [x] say. *)
Definition inode_read (D : Z -> list Z) (x off n : Z) : Z * list Z :=
  if size_of sb D x <? off then (0, []) else
  let m := Z.min n (size_of sb D x - off) in (m, fbytes D (addrs_of sb D x) off m).

Lemma inode_read_same C D x off n : same_data start C D -> fs_ok sb C -> typed sb C x -> 0 <= off -> inode_read D x off n = inode_read C x off n.
Proof.
  intros E F [Hx Ht] Ho. destruct (same_inode start sb L C D E x Hx) as (_ & _ & X3 & X4). unfold inode_read. rewrite X3, X4. destruct (_ <? _); [done|].
  pose proof (fo_inode _ _ F x Hx Ht) as [I1 I2 _ _]. rewrite (same_fbytes start sb L C D E); [done|done|done|lia].
Qed.

Lemma walk_typed D np x es y : fs_ok sb D -> typed sb D x -> path_walk sb D np x es = Some y -> typed sb D y.
Proof.
  intros F. revert x. induction es as [|e es IH]; intros x Hx; cbn [path_walk]; [by destruct np; intros [= <-]|]. destruct (Z.eqb_spec (type_of sb D x) T_DIR) as [Ht|]; [|done].
  destruct (np && _); [by intros [= <-]|]. destruct (dir_find sb D x _) as [[z o]|] eqn:Ef; [|done]. apply IH. by eapply dir_find_typed.
Qed.

Lemma readi_at n s D dirty R i x off len : at_inode pid start sb n s D dirty R i x -> inode_ok sb D x -> 0 <= off -> 0 <= len -> off + len < 2 ^ 32 -> (size dirty < bhead)%nat ->
  exists s', readi (S fuel) i Local off len s = Ret (inode_read D x off len) s' /\ at_inode pid start sb n s' D dirty R i x /\ same s s'.
Proof.
  intros A [I1 I2 I3 I4] Ho Hlen Hov Hsz. pose proof A as [A1 A2 A3 A4 A5 A6 A7]. unfold inode_read. destruct (Z.ltb_spec (size_of sb D x) off) as [Hlt|Hge].
  - exists s. split; [|done]. unfold readi. erewrite bind_ret_eq by reflexivity. rewrite A6. by rewrite (proj2 (Z.ltb_lt _ _) Hlt).
  - destruct (readi_run fuel pid start sb L n s D dirty i _ off len A1) as (s' & E & O' & S); rewrite ?A6; try done; try lia. rewrite A6 in E. exists s'. split; [done|]. split; [by eapply at_inode_same|done].
Qed.

Lemma read_path_run s D R path off n x : mounted s D R -> fs_ok sb D -> starts_at s R path x -> typed sb D x -> room R -> 0 <= off -> 0 <= n -> off + n < 2 ^ 32 ->
  exists s' D', read_path path off n s = Ret (match path_walk sb D false x (elems path) with Some y => Some (inode_read D y off n) | None => None end) s'
  /\ mounted s' D' R /\ same_data start D D'.
Proof.
  intros M F Hst Hty Hroom Ho Hn Hov. assert (size (∅ : gset Z) < bhead)%nat as Hsz by (rewrite size_empty; change bhead with 30%nat; lia).
  destruct (op_begin s D R M) as (s1 & E1 & R1 & S1). unfold read_path. setoid_rewrite bind_ret_eq; [|exact E1].
  assert (starts_at s1 R path x) as Hst1. { destruct (same_sb _ _ S1) as (_ & B2 & B3 & B4). unfold starts_at, getproc, getinode in *. by rewrite B2, B3, B4. }
  destruct (namex_run fuel pid start sb L false 1 s1 D ∅ R path name0 x R1 F Hst1 Hty Hroom Hsz) as (v & nm & s2 & E2 & Hnamed & _); [done|].
  assert (namei (S fuel) path s1 = Ret v s2) as E2' by (unfold namei; by erewrite bind_ret_eq by exact E2). setoid_rewrite bind_ret_eq; [|exact E2'].
  destruct (path_walk sb D false x (elems path)) as [y|] eqn:Ew, v as [i|]; try done; cbn [named] in Hnamed.
  - destruct Hnamed as (Hi & Hino & R2). destruct (walk_typed _ _ _ _ _ F Hty Ew) as [Hy1 Hy2]. assert (0 < radd R i 1 i) as HRi by (rewrite radd_eq; pose proof (proj2 (it_ref _ _ _ _ _ _ (mo_table _ _ _ M) i Hi)); lia).
    destruct (ilock_at fuel pid start sb L 1 s2 D ∅ _ i R2 F Hi HRi ltac:(by rewrite Hino) Hsz) as (s3 & E3 & A3 & _). rewrite Hino in A3.
    destruct (readi_at 1 s3 D ∅ _ i y off n A3 (fo_inode _ _ F y Hy1 Hy2) Ho Hn Hov Hsz) as (s4 & E4 & A4 & S4).
    destruct (iunlockput_run fuel pid start sb 1 s4 D ∅ _ i y A4 F Hy2) as (s5 & E5 & R5 & _).
    assert (ready 1 s5 D ∅ R) as R5' by (eapply ready_ext; [|exact R5]; intros j; symmetry; apply radd_back). destruct (op_end s5 D ∅ R R5' Hsz) as (s6 & D6 & E6 & M6 & HD & _).
    exists s6, D6. split; [|done]. erewrite bind_ret_eq by exact E3. erewrite bind_ret_eq by exact E4. erewrite bind_ret_eq by exact E5. by erewrite bind_ret_eq by exact E6.
  - destruct (op_end s2 D ∅ R Hnamed Hsz) as (s6 & D6 & E6 & M6 & HD & _). exists s6, D6. split; [|done]. by erewrite bind_ret_eq by exact E6.
Qed.

(** ** Writing to a file *)

(** The calls filewrite makes for a piece of its data, but for [f->off]. *)
Definition write_inode (i : nat) (src : source) (off n : Z) : K Z :=
  begin_op (S fuel) ;;;
  ilock (S fuel) i ;;;
  let* r := writei (S fuel) i src off n in
  iunlock i ;;;
  end_op (S fuel) ;;;
  ret r.

Lemma int16_range v : - 2 ^ 15 <= int16 v < 2 ^ 15.
Proof. unfold int16. pose proof (Z.mod_pos_bound (v + 2 ^ 15) (2 ^ 16)). lia. Qed.

Lemma on_disk_fits D ip : on_disk sb D ip -> inode_ok sb D (i_inum ip) -> inode_fits ip.
Proof.
  unfold on_disk, disk_part, dinode. intros [= E1 E2 E3 E4 E5 E6] [I1 I2 I3 I4]. change (MAXFILE * BSIZE) with 274432 in I2. fold (size_of sb D (i_inum ip)) in E5. fold (addrs_of sb D (i_inum ip)) in E6.
  constructor; rewrite ?E1, ?E2, ?E3, ?E4, ?E5, ?E6; try apply int16_range; [lia|apply I1|by eapply addrs_fit].
Qed.

Lemma dinode_inv d n d' n' : dinode d n = dinode d' n' -> di_type d n = di_type d' n' /\ di_nlink d n = di_nlink d' n' /\ di_size d n = di_size d' n' /\ di_addrs d n = di_addrs d' n'.
Proof. unfold dinode. generalize (di_addrs d n), (di_addrs d' n'). intros a b E. by injection E. Qed.

(** Other inodes of the disk keep their fields. *)
Definition other_inodes (x : Z) (D D' : Z -> list Z) : Prop := forall y, 0 < y < sb_ninodes sb -> y <> x -> dinode (D' (iblock sb y)) y = dinode (D (iblock sb y)) y.

Lemma itable_write s D R i x D' f (ip := getinode s i) : table s D R (Some i) -> (i < Z.to_nat NINODE)%nat -> 0 < R i -> i_inum ip = x -> other_inodes x D D' ->
  i_dev (f ip) = i_dev ip -> i_inum (f ip) = x -> i_ref (f ip) = i_ref ip -> i_lock (f ip) = i_lock ip -> i_valid (f ip) = i_valid ip -> on_disk sb D' (f ip) ->
  table (upd_inode i f s) D' R (Some i).
Proof.
  intros [T1 T2 T3 T4 T5] Hi HR Hx Ho F1 F2 F3 F4 F5 Fd. assert (forall j, getinode (upd_inode i f s) j = if decide (i = j) then f ip else getinode s j) as G by (intros j; apply getinode_upd; by rewrite T1).
  assert (forall j, i_inum (getinode (upd_inode i f s) j) = i_inum (getinode s j)) as Gn by (intros j; rewrite G; destruct (decide (i = j)) as [<-|]; [by rewrite F2|done]).
  constructor.
  - by rewrite length_upd_inode.
  - intros j Hj. rewrite G. destruct (decide (i = j)) as [<-|]; [rewrite F3|]; by apply T2.
  - intros j Hj. rewrite G. destruct (decide (i = j)) as [<-|]; [rewrite F4|]; by apply T3.
  - intros j ip' Hj HRj. unfold ip'. rewrite G. destruct (T4 j Hj HRj) as (U1 & U2 & U3). destruct (decide (i = j)) as [<-|Hne].
    + rewrite F1, F2, F5. fold ip in U1, U2, U3. rewrite Hx in U2. split; [done|]. split; [done|]. destruct U3 as [?|[? _]]; [by left|by right].
    + split; [done|]. split; [done|]. destruct U3 as [?|[? U]]; [by left|right]. split; [done|]. unfold on_disk in *. rewrite Ho; [done|done|]. intros E. apply Hne. apply T5; try done. by rewrite E.
  - intros j k. rewrite !Gn. apply T5.
Qed.

(** What a write of [bytes] at [off] of the file [x] does to the file system. *)
Record file_written (D : Z -> list Z) (x off : Z) (bytes : list Z) (D' : Z -> list Z) : Prop := {
  fw_ok : fs_ok sb D';
  fw_size : type_of sb D' x = T_FILE /\ size_of sb D' x = Z.max (size_of sb D x) (off + Z.of_nat (length bytes));
  fw_bytes : forall j, 0 <= j < MAXFILE * BSIZE ->
    fbyte D' (addrs_of sb D' x) j = if decide (off <= j < off + Z.of_nat (length bytes)) then byte_at bytes (j - off) else fbyte D (addrs_of sb D x) j;
  fw_other : forall y, 0 < y < sb_ninodes sb -> y <> x -> type_of sb D' y = type_of sb D y /\ nlink_of sb D' y = nlink_of sb D y /\ size_of sb D' y = size_of sb D y
    /\ (type_of sb D y <> 0 -> forall j, 0 <= j < MAXFILE * BSIZE -> fbyte D' (addrs_of sb D' y) j = fbyte D (addrs_of sb D y) j) }.

Lemma file_written_same D x off bytes D1 D' : 0 < x < sb_ninodes sb -> same_data start D1 D' -> file_written D x off bytes D1 -> file_written D x off bytes D'.
Proof.
  intros Hx E [W1 [W2 W2'] W3 W4]. destruct (same_inode start sb L D1 D' E x Hx) as (X1 & X2 & X3 & X4). constructor.
  - by eapply fs_ok_same.
  - by rewrite X1, X3.
  - intros j Hj. rewrite X4. rewrite (same_fbyte start sb L D1 D' E); [by apply W3| |done]. apply (fo_inode _ _ W1 x Hx). by rewrite W2.
  - intros y Hy Hne. destruct (same_inode start sb L D1 D' E y Hy) as (-> & -> & -> & ->). destruct (W4 y Hy Hne) as (Y1 & Y2 & Y3 & Y4). do 3 (split; [done|]). intros Ht j Hj.
    rewrite (same_fbyte start sb L D1 D' E); [by apply Y4| |done]. apply (fo_inode _ _ W1 y Hy). by rewrite Y1.
Qed.

(** The blocks after the write of [bytes] at [off] of inode [x]. *)
Section Effect.
Context (D : Z -> list Z) (F : fs_ok sb D) (Hlen : forall bn, length (D bn) = Z.to_nat BSIZE).
Context (x off : Z) (Hx : 0 < x < sb_ninodes sb) (Hty : type_of sb D x = T_FILE) (bytes : list Z) (D1 : Z -> list Z) (addrs' : list Z).
Context (W : wrote sb D (addrs_of sb D x) off bytes D1 addrs') (Hoff : 0 <= off <= size_of sb D x) (Hmax : off + Z.of_nat (length bytes) <= MAXFILE * BSIZE).
Context (ip : inode) (Fit : inode_fits ip) (E1 : i_type ip = type_of sb D x) (E2 : i_nlink ip = nlink_of sb D x) (E3 : i_size ip = Z.max (size_of sb D x) (off + Z.of_nat (length bytes))) (E4 : i_addrs ip = addrs').
Let ib := iblock sb x.
Let D' := fupd D1 ib (put_dinode (D ib) x ip).

Let Ok : inode_ok sb D x.
Proof. apply F; [done|by rewrite Hty]. Qed.

Lemma eff_meta y : 0 < y < bm -> D1 y = D y.
Proof.
  intros Hy. destruct Ok as [I1 _ _ _]. apply (wr_frame _ _ _ _ _ _ _ W); [lia|fold bm; lia|apply (fo_marked _ _ F); fold bm; lia| |].
  - intros E. destruct (wf_ind _ _ _ I1 ltac:(lia)) as [Hr _]. fold bm in Hr. lia.
  - intros k Hk E. destruct (wf_used _ _ _ I1 k Hk ltac:(lia)) as [Hr _]. fold bm in Hr. lia.
Qed.

Lemma eff_ib : 0 < ib < bm.
Proof. destruct (iblock_range start sb L x ltac:(lia)) as [H1 H2]. pose proof (ly_log _ _ L) as [H3 _]. change LOGBLOCKS with 30 in H1. fold ib bm in H1, H2. lia. Qed.

Lemma eff_self : dinode (D' ib) x = disk_part ip.
Proof. unfold D'. rewrite fupd_eq. apply put_dinode_same; [rewrite Hlen; done|done]. Qed.

Lemma iblock_pos y : 0 < y < sb_ninodes sb -> 0 < iblock sb y < bm.
Proof. intros Hy. destruct (iblock_range start sb L y ltac:(lia)) as [H1 H2]. pose proof (ly_log _ _ L) as [H3 _]. change LOGBLOCKS with 30 in H1. fold bm in H2. lia. Qed.

Lemma iblock_same y : 0 < y < sb_ninodes sb -> iblock sb y = ib -> y <> x -> dip_off y <> dip_off x.
Proof.
  intros Hy E Hne. destruct L as [[L1 L1'] L2 [L3 L4] [L5 L6]]. unfold ib, iblock, IBLOCK in E. change IPB with 16 in *. change BPB with 8192 in *. change LOGBLOCKS with 30 in *.
  assert (0 <= y / 16 <= (sb_ninodes sb - 1) / 16 /\ 0 <= x / 16 <= (sb_ninodes sb - 1) / 16) as [Hy' Hx'].
  { split; split; (apply Z.div_pos; lia) || (apply Z.div_le_mono; lia). }
  rewrite !uint32_small in E by lia. unfold dip_off. change IPB with 16. dlia.
Qed.

Lemma eff_others : other_inodes x D D'.
Proof.
  intros y Hy Hne. destruct (decide (iblock sb y = ib)) as [E|E].
  - rewrite E. unfold D'. rewrite fupd_eq. apply put_dinode_other; [rewrite Hlen; done|done|by apply iblock_same].
  - unfold D'. rewrite fupd_ne by done. rewrite eff_meta by (by apply iblock_pos). done.
Qed.

Lemma eff_fields : type_of sb D' x = type_of sb D x /\ nlink_of sb D' x = nlink_of sb D x /\ size_of sb D' x = i_size ip /\ addrs_of sb D' x = addrs'.
Proof.
  pose proof eff_self as E. unfold dinode, disk_part in E. injection E as H1 _ _ H2 H3 H4.
  unfold type_of at 1, nlink_of at 1, size_of at 1, addrs_of at 1. fold ib. rewrite H1, H2, H3, H4. by rewrite E1, E2, E4.
Qed.

Lemma eff_other_fields y : 0 < y < sb_ninodes sb -> y <> x ->
  type_of sb D' y = type_of sb D y /\ nlink_of sb D' y = nlink_of sb D y /\ size_of sb D' y = size_of sb D y /\ addrs_of sb D' y = addrs_of sb D y.
Proof. intros Hy Hne. apply dinode_inv. by apply eff_others. Qed.

Lemma eff_type y : 0 < y < sb_ninodes sb -> type_of sb D' y = type_of sb D y.
Proof. intros Hy. destruct (decide (y = x)) as [->|Hne]; [apply eff_fields|by apply eff_other_fields]. Qed.

(** A block of another file. *)
Lemma eff_foreign y b : 0 < y < sb_ninodes sb -> y <> x -> type_of sb D y <> 0 -> owns D (addrs_of sb D y) b -> D' b = D b.
Proof.
  intros Hy Hne Ht Ob. pose proof (fo_inode _ _ F y Hy Ht) as [J1 _ _ _]. assert (in_use sb D b) as [Hr Hb].
  { destruct Ob as [Hb0 [->|(k & Hk & <-)]]; [by apply (wf_ind _ _ _ J1)|by apply (wf_used _ _ _ J1)]. }
  fold bm in Hr, Hb. pose proof eff_ib. unfold D'. rewrite fupd_ne by lia. assert (~ owns D (addrs_of sb D x) b) as Hno.
  { intros Ox. apply Hne. apply (fo_own _ _ F y x b); try done. by rewrite Hty. }
  apply (wr_frame _ _ _ _ _ _ _ W); [pose proof (bm_range start sb L) as [[Hb0 _] _]; fold bm in Hb0; lia|fold bm; lia|done| |].
  - intros ->. apply Hno. split; [apply Ob|by left].
  - intros k Hk E. apply Hno. split; [apply Ob|right; by exists k].
Qed.

Lemma eff_faddr y k : 0 < y < sb_ninodes sb -> y <> x -> type_of sb D y <> 0 -> faddr D' (addrs_of sb D y) k = faddr D (addrs_of sb D y) k.
Proof.
  intros Hy Hne Ht. unfold faddr. destruct (k <? NDIRECT); [done|]. fold (ind_of (addrs_of sb D y)). destruct (Z.eqb_spec (ind_of (addrs_of sb D y)) 0) as [|Hi]; [done|].
  rewrite (eff_foreign y _ Hy Hne Ht); [done|]. split; [done|by left].
Qed.

Lemma eff_fbyte y j : 0 < y < sb_ninodes sb -> y <> x -> type_of sb D y <> 0 -> 0 <= j < MAXFILE * BSIZE -> fbyte D' (addrs_of sb D y) j = fbyte D (addrs_of sb D y) j.
Proof.
  intros Hy Hne Ht Hj. apply fbyte_same; [by apply eff_faddr|]. intros Ha. apply (eff_foreign y _ Hy Hne Ht). split; [done|right]. eexists. split; [by apply block_range|done].
Qed.

Lemma eff_bits b : 0 <= b -> bit (D bm) b = true -> bit (D' bm) b = true.
Proof. intros H0 Hb. pose proof eff_ib. unfold D'. rewrite fupd_ne by lia. by apply (wr_bits _ _ _ _ _ _ _ W). Qed.

Lemma eff_bytes j : 0 <= j < MAXFILE * BSIZE ->
  fbyte D' (addrs_of sb D' x) j = if decide (off <= j < off + Z.of_nat (length bytes)) then byte_at bytes (j - off) else fbyte D (addrs_of sb D x) j.
Proof.
  intros Hj. destruct eff_fields as (_ & _ & _ & ->). unfold D'. rewrite (meta_fbyte sb); [|apply W|apply eff_ib|done]. by apply (wr_bytes _ _ _ _ _ _ _ W).
Qed.

Lemma eff_used b : in_use sb D b -> in_use sb D' b.
Proof. intros [Hr Hb]. split; [done|]. pose proof (bm_range start sb L) as [[H0 _] _]. fold bm in H0, Hb, Hr |- *. apply eff_bits; [lia|done]. Qed.

Lemma eff_self_ok : inode_ok sb D' x.
Proof.
  destruct Ok as [I1 I2 I3 I4]. destruct eff_fields as (X1 & X2 & X3 & X4). constructor; rewrite ?X2, ?X3, ?X4, ?E3; try done.
  - apply (meta_wf sb); [apply W|apply eff_ib].
  - lia.
  - intros k Hk Hs. unfold D'. rewrite (meta_faddr sb); [|apply W|apply eff_ib]. assert (k < MAXFILE) as Hkm by (unfold BSIZE in *; lia). destruct (Z.lt_ge_cases (k * BSIZE) (size_of sb D x)) as [Hlt|Hge].
    + rewrite (wr_keep _ _ _ _ _ _ _ W) by (auto || lia). by apply I3.
    + pose proof (wr_there _ _ _ _ _ _ _ W (k * BSIZE) ltac:(lia)) as Ht. by rewrite Z.div_mul in Ht.
Qed.

Lemma eff_other_ok y : 0 < y < sb_ninodes sb -> y <> x -> type_of sb D y <> 0 -> inode_ok sb D' y.
Proof.
  intros Hy Hne Ht. destruct (eff_other_fields y Hy Hne) as (Y1 & Y2 & Y3 & Y4). pose proof (fo_inode _ _ F y Hy Ht) as [[V1 V2 V3 V4 V5] J2 J3 J4].
  constructor; rewrite ?Y2, ?Y3, ?Y4; try done.
  - constructor; [done| | | |].
    + intros k Hk. rewrite eff_faddr by done. intros Ha. by apply eff_used, V2.
    + intros Hi. by apply eff_used, V3.
    + intros k j Hk Hj. rewrite !eff_faddr by done. by apply V4.
    + intros k Hk. rewrite eff_faddr by done. by apply V5.
  - intros k Hk Hs. rewrite eff_faddr by done. by apply J3.
Qed.

Lemma eff_dirent y o : 0 < y < sb_ninodes sb -> type_of sb D y = T_DIR -> 0 <= o < size_of sb D y -> o mod DIRENT = 0 -> dirent_at sb D' y o = dirent_at sb D y o.
Proof.
  intros Hy Ht Ho Hal. assert (y <> x) as Hne by (intros ->; by rewrite Hty in Ht). destruct (eff_other_fields y Hy Hne) as (_ & _ & _ & Y4).
  pose proof (io_size _ _ _ (fo_inode _ _ F y Hy ltac:(by rewrite Ht))) as Hs. pose proof (do_size _ _ _ (fo_dir _ _ F y Hy Ht)) as Hd. pose proof DIRENT_16 as ED.
  unfold dirent_at. rewrite Y4. unfold fbytes. apply list_fmap_ext. intros k j Hj%lookup_seqZ. apply eff_fbyte; [done|done|by rewrite Ht|]. rewrite ED in *. change (MAXFILE * BSIZE) with 274432 in *. dlia.
Qed.

Lemma eff_owns y b : 0 < y < sb_ninodes sb -> y <> x -> type_of sb D y <> 0 -> owns D' (addrs_of sb D' y) b -> owns D (addrs_of sb D y) b.
Proof.
  intros Hy Hne Ht. destruct (eff_other_fields y Hy Hne) as (_ & _ & _ & ->). intros [Hb [E|(k & Hk & E)]]; split; try done; [by left|right]. exists k. split; [done|]. by rewrite <- E, eff_faddr.
Qed.

(** A block of the file is an old one of it or was free. *)
Lemma eff_own_self b : owns D' (addrs_of sb D' x) b -> owns D (addrs_of sb D x) b \/ bit (D bm) b = false.
Proof.
  destruct eff_fields as (_ & _ & _ & ->). intros [Hb [E|(k & Hk & E)]].
  - destruct (wr_ind _ _ _ _ _ _ _ W) as [Ei|[_ Ei]]; [left|right; by rewrite E]. split; [done|left]. congruence.
  - unfold D' in E. rewrite (meta_faddr sb) in E; [|apply W|apply eff_ib]. destruct (decide (faddr D (addrs_of sb D x) k = 0)) as [Hz|Hz].
    + right. rewrite <- E. apply (wr_new _ _ _ _ _ _ _ W); [done|done|by rewrite E].
    + left. split; [done|right]. exists k. split; [done|]. rewrite <- E. symmetry. by apply (wr_keep _ _ _ _ _ _ _ W).
Qed.

Lemma eff_apart y b : 0 < y < sb_ninodes sb -> y <> x -> type_of sb D y <> 0 -> owns D' (addrs_of sb D' x) b -> owns D' (addrs_of sb D' y) b -> False.
Proof.
  intros Hy Hne Ht Ox Oy%eff_owns; try done. apply eff_own_self in Ox as [Ox|Hb].
  - apply Hne. apply (fo_own _ _ F y x b); try done. by rewrite Hty.
  - pose proof (fo_inode _ _ F y Hy Ht) as [J1 _ _ _]. assert (in_use sb D b) as [_ Hu]; [|fold bm in Hu; congruence].
    destruct Oy as [Hb0 [->|(k & Hk & <-)]]; [by apply (wf_ind _ _ _ J1)|by apply (wf_used _ _ _ J1)].
Qed.

Lemma eff_fs_ok : fs_ok sb D'.
Proof.
  pose proof F as [F1 F2 F3 F4 F5]. constructor.
  - fold bm. unfold D'. pose proof eff_ib. rewrite fupd_ne by lia. apply W.
  - rewrite eff_type by apply F2. done.
  - intros y Hy. rewrite eff_type by done. intros Ht. destruct (decide (y = x)) as [->|Hne]; [apply eff_self_ok|by apply eff_other_ok].
  - intros y Hy. rewrite eff_type by done. intros Ht. assert (y <> x) as Hne by (intros ->; by rewrite Hty in Ht). destruct (eff_other_fields y Hy Hne) as (_ & _ & Y3 & _).
    pose proof (F4 y Hy Ht) as [G1 G2]. constructor; rewrite Y3; [done|]. intros o Ho Hal z. unfold z. rewrite eff_dirent by done.
    destruct (G2 o Ho Hal) as [?|[H1 H2]]; [by left|right]. split; [done|]. by rewrite eff_type.
  - intros y z b Hy Hz. rewrite !eff_type by done. intros Ty Tz Oy Oz. destruct (decide (y = x)) as [->|Ny], (decide (z = x)) as [->|Nz]; try done.
    + destruct (eff_apart z b Hz Nz Tz Oy Oz).
    + destruct (eff_apart y b Hy Ny Ty Oz Oy).
    + apply (F5 y z b); try done; by apply eff_owns.
Qed.

Lemma eff_written : file_written D x off bytes D'.
Proof.
  destruct eff_fields as (X1 & _ & X3 & _). constructor; [apply eff_fs_ok|by rewrite X1, X3|apply eff_bytes|].
  intros y Hy Hne. destruct (eff_other_fields y Hy Hne) as (Y1 & Y2 & Y3 & Y4). do 3 (split; [done|]). intros Ht j Hj. rewrite Y4. by apply eff_fbyte.
Qed.
End Effect.

Lemma at_write n s D dirty R i x s' D' dirty' addrs' off k : at_inode pid start sb n s D dirty R i x -> on_inode pid start sb n s' D' dirty' i addrs' ->
  same (upd_inode i (fun ip => written ip addrs' off k) s) s' -> other_inodes x D D' -> on_disk sb D' (written (getinode s i) addrs' off k) -> type_of sb D' x = type_of sb D x ->
  at_inode pid start sb n s' D' dirty' R i x.
Proof.
  intros A O S Ho Hd Ht. pose proof (at_inode_lt _ _ _ _ _ _ _ _ _ _ A) as Hi. destruct A as [A1 A2 A3 A4 A5 A6 A7].
  pose proof (itable_write s D R i x D' (fun ip => written ip addrs' off k) A2 Hi A3 A4 Ho eq_refl A4 eq_refl eq_refl eq_refl Hd) as T.
  assert (getinode s' i = written (getinode s i) addrs' off k) as G by (rewrite (same_getinode _ _ i S), getinode_upd, decide_True by (done || by rewrite (it_len _ _ _ _ _ _ A2)); done).
  pose proof Hd as Hd0. unfold on_disk in Hd. change (i_inum (written (getinode s i) addrs' off k)) with (i_inum (getinode s i)) in Hd. rewrite A4 in Hd. symmetry in Hd. unfold dinode, disk_part in Hd.
  assert (addrs_of sb D' x = addrs' /\ size_of sb D' x = i_size (written (getinode s i) addrs' off k)) as [Ea Es] by (by injection Hd).
  constructor; rewrite ?G; try done.
  - by rewrite Ea.
  - by eapply itable_same.
  - cbn. by rewrite A5, Ht.
Qed.

Lemma write_blocks off len : 0 <= len <= 3 * BSIZE -> blocks_at off len <= 4.
Proof. intros H. unfold blocks_at. destruct (len <=? 0); [lia|]. unfold BSIZE in *. dlia. Qed.

Lemma writei_at n s D dirty R i x off l (len := Z.of_nat (length l)) :
  at_inode pid start sb n s D dirty R i x -> fs_ok sb D -> type_of sb D x = T_FILE -> 0 <= off <= size_of sb D x -> off + len <= MAXFILE * BSIZE ->
  Z.of_nat (size dirty) + blocks_at off len + 5 < Z.of_nat bhead ->
  exists k s' D' dirty', writei (S fuel) i (SLocal l) off len s = Ret (Z.of_nat k) s' /\ at_inode pid start sb n s' D' dirty' R i x /\ file_written D x off (take k l) D'
  /\ (k <= length l)%nat /\ (k = length l \/ none_free sb (D' bm)) /\ k_disk s' = k_disk s /\ Z.of_nat (size dirty') <= Z.of_nat (size dirty) + blocks_at off len + 3.
Proof.
  intros A F Hty Hoff Hmax Hsz. pose proof A as [B1 B2 B3 B4 B5 B6 B7]. pose proof (itable_inum _ _ _ _ _ _ _ B2 (at_inode_lt _ _ _ _ _ _ _ _ _ _ A) B3) as Hx. rewrite B4 in Hx.
  assert (inode_ok sb D x) as Ok by (apply F; [done|by rewrite Hty]). assert (inode_fits (getinode s i)) as Fit by (eapply on_disk_fits; [exact B7|by rewrite B4]).
  assert (forall bn, length (D bn) = Z.to_nat BSIZE) as Hl by (intros bn; by eapply on_len).
  destruct (writei_run fuel pid start sb L n s D dirty i _ off l B1 Fit) as (k & s3 & D1 & d3 & addrs3 & E3 & O3 & S3 & W3 & Hd3 & Hk & Hend); rewrite ?B4, ?B6; try done. rewrite B4 in O3.
  set (ip := written (getinode s i) addrs3 off (Z.of_nat k)) in *. set (ib := iblock sb x) in *. set (D3 := fupd D1 ib (put_dinode (D ib) x ip)) in *.
  assert (length (take k l) = k) as Lk by (rewrite length_take; lia).
  assert (inode_fits ip) as Fit'.
  { destruct Fit as [f1 f2 f3 f4 f5 f6 f7]. pose proof (addrs_fit start sb L _ _ (wr_wf _ _ _ _ _ _ _ W3)). constructor; try done; [|by apply W3]. cbn. rewrite B6. pose proof (io_size _ _ _ Ok) as Hs. change (MAXFILE * BSIZE) with 274432 in *. lia. }
  pose proof B7 as B7'. unfold on_disk, dinode, disk_part in B7'. rewrite B4 in B7'. assert (i_nlink ip = nlink_of sb D x) as B8 by (by injection B7').
  assert (i_size ip = Z.max (size_of sb D x) (off + Z.of_nat (length (take k l)))) as Es by (rewrite Lk; cbn; by rewrite B6).
  assert (off + Z.of_nat (length (take k l)) <= MAXFILE * BSIZE) as Hmax' by (rewrite Lk; lia).
  exists k, s3, D3, d3. split; [done|]. split; [|split; [|split; [done|split; [|split; [apply S3|done]]]]].
  - eapply at_write; [exact A|exact O3|exact S3|by eapply eff_others| |by eapply eff_fields].
    unfold on_disk. fold ip. change (i_inum ip) with (i_inum (getinode s i)). rewrite B4. symmetry. by apply eff_self.
  - by eapply eff_written.
  - destruct Hend as [?|Hn]; [by left|right]. unfold D3. rewrite fupd_ne; [done|]. destruct (iblock_range start sb L x ltac:(lia)) as [_ Hr]. fold ib bm in Hr. lia.
Qed.

(** A piece of filewrite: the file has the bytes, nothing else changed, and a crash
    leaves the file system before or after the write. *)
Lemma write_inode_run s D R i off l (x := i_inum (getinode s i)) (len := Z.of_nat (length l)) :
  mounted s D R -> fs_ok sb D -> (i < Z.to_nat NINODE)%nat -> 0 < R i -> type_of sb D x = T_FILE -> 0 <= off <= size_of sb D x -> off + len <= MAXFILE * BSIZE -> len <= 3 * BSIZE ->
  exists k s' D', write_inode i (SLocal l) off len s = Ret (Z.of_nat k) s' /\ (k <= length l)%nat /\ (k = length l \/ none_free sb (D' bm)) /\ mounted s' D' R
  /\ file_written D x off (take k l) D' /\ at_every_crash (k_disk s) (k_disk s') (fun d => reads_as start D d \/ reads_as start D' d).
Proof.
  intros M F Hi HR Hty Hoff Hmax Hlen. assert (size (∅ : gset Z) < bhead)%nat as Hsz by (rewrite size_empty; change bhead with 30%nat; lia).
  destruct (op_begin s D R M) as (s1 & E1 & R1 & S1). pose proof (same_getinode _ _ i S1) as G1.
  destruct (ilock_at fuel pid start sb L 1 s1 D ∅ R i R1 F Hi HR) as (s2 & E2 & A2 & K2); [rewrite G1; fold x; by rewrite Hty|done|]. rewrite G1 in A2. fold x in A2.
  pose proof (itable_inum _ _ _ _ _ _ _ (mo_table _ _ _ M) Hi HR) as Hx. fold x in Hx. pose proof (write_blocks off len ltac:(lia)) as Hb. assert (bhead = 30%nat) as EB by done.
  destruct (writei_at 1 s2 D ∅ R i x off l A2 F Hty Hoff Hmax) as (k & s3 & D3 & d3 & E3 & A3 & W3 & Hk & Hend & K3 & Hd3); [rewrite size_empty; fold len; lia|]. fold len in Hd3. rewrite size_empty in Hd3.
  destruct (at_ready pid start sb 1 s3 D3 d3 R i x A3) as (E4 & R4 & _). set (s4 := upd_inode i (set_i_lock unlocked) s3) in *.
  destruct (op_end s4 D3 d3 R R4 ltac:(lia)) as (s5 & D5 & E5 & M5 & HD & Cr & _). assert (k_disk s4 = k_disk s) as K4 by (change (k_disk s4) with (k_disk s3); rewrite K3, K2; apply S1).
  exists k, s5, D5. split; [|split; [done|split; [|split; [done|split; [by eapply file_written_same|]]]]].
  - unfold write_inode. erewrite bind_ret_eq by exact E1. erewrite bind_ret_eq by exact E2. erewrite bind_ret_eq by exact E3. erewrite bind_ret_eq by exact E4. by erewrite bind_ret_eq by exact E5.
  - pose proof (same_bm start sb L D3 D5 HD) as Eb. fold bm in Eb. by rewrite Eb.
  - rewrite K4 in Cr. eapply crash_mono; [exact Cr|]. intros d [Hd|Hd]; [left|right].
    + eapply reads_same; [|exact Hd]. intros bn Hbn. symmetry. apply idle_disk with (pid := pid) (start := start). apply M.
    + by eapply reads_same.
Qed.
End File.
