(* ===== verification/Mkfs.v ===== *)
(** * mkfs.c

    The host program that builds the file system image: the image file is a list
    of blocks, the structures are laid out in their bytes.  The host is little
    endian, as RISC-V; what it prints is left out. *)
From S2P Require Import Prelude State Bytes Bio Fs.

Open Scope Z_scope.

Definition NINODES : Z := 200.
Definition nbitmap : Z := FSSIZE / BPB + 1.
Definition ninodeblocks : Z := NINODES / IPB + 1.
Definition nlog : Z := LOGBLOCKS + 1.
Definition nmeta : Z := 2 + nlog + ninodeblocks + nbitmap.
Definition nblocks : Z := FSSIZE - nmeta.

(** The image file and the global variables. *)
Record mkfs := mkMkfs { m_img : list (list Z); m_sb : superblock; m_freeinode : Z; m_freeblock : Z }.

Definition set_img (f : list (list Z) -> list (list Z)) (m : mkfs) : mkfs := mkMkfs (f (m_img m)) (m_sb m) (m_freeinode m) (m_freeblock m).
Definition set_sb (sb : superblock) (m : mkfs) : mkfs := mkMkfs (m_img m) sb (m_freeinode m) (m_freeblock m).
Definition set_freeinode (i : Z) (m : mkfs) : mkfs := mkMkfs (m_img m) (m_sb m) i (m_freeblock m).
Definition set_freeblock (b : Z) (m : mkfs) : mkfs := mkMkfs (m_img m) (m_sb m) (m_freeinode m) b.

Notation H A := (M mkfs A).

Definition die {A} (msg : string) : H A := panic msg.
Definition assert_ (b : bool) : H unit := if b then skip else panic "assert".

(** The bytes stored through [a], read back as a number. *)
Definition xshort (x : Z) : Z := dec [uint8 x; uint8 (Z.shiftr x 8)].
Definition xint (x : Z) : Z := dec [uint8 x; uint8 (Z.shiftr x 8); uint8 (Z.shiftr x 16); uint8 (Z.shiftr x 24)].

(** ** Blocks of the image *)

(** lseek may move past the end of the file; a write there leaves zeros between. *)
Definition wsect (sec : Z) (buf : list Z) : H unit :=
  let i := Z.to_nat (uint32 (sec * BSIZE) / BSIZE) in
  modify (set_img (fun img =>
    if (i <? length img)%nat then <[i := buf]> img
    else img ++ replicate (i - length img) zero_block ++ [buf])).

Definition rsect (sec : Z) : H (list Z) :=
  let* m := get in
  match m_img m !! Z.to_nat (uint32 (sec * BSIZE) / BSIZE) with
  | Some buf => ret buf
  | None => die "read"
  end.

(** ** Inodes *)

(** [struct dinode] *)
Record dnode := mkDnode { dn_type : Z; dn_major : Z; dn_minor : Z; dn_nlink : Z; dn_size : Z; dn_addrs : list Z }.

Definition dnode_bytes (d : dnode) : list Z :=
  enc 2 (dn_type d) ++ enc 2 (dn_major d) ++ enc 2 (dn_minor d) ++ enc 2 (dn_nlink d) ++ enc 4 (dn_size d) ++ concat (map (enc 4) (dn_addrs d)).
Definition dnode_of (buf : list Z) (inum : Z) : dnode :=
  mkDnode (di_type buf inum) (di_major buf inum) (di_minor buf inum) (di_nlink buf inum) (di_size buf inum) (di_addrs buf inum).

Definition dnode0 : dnode := mkDnode 0 0 0 0 0 (replicate (Z.to_nat NDIRECT + 1) 0).
Definition set_size (n : Z) (d : dnode) : dnode := mkDnode (dn_type d) (dn_major d) (dn_minor d) (dn_nlink d) n (dn_addrs d).
Definition set_daddr (i v : Z) (d : dnode) : dnode :=
  mkDnode (dn_type d) (dn_major d) (dn_minor d) (dn_nlink d) (dn_size d) (<[Z.to_nat i := v]> (dn_addrs d)).
Definition daddr (d : dnode) (i : Z) : Z := default 0 (dn_addrs d !! Z.to_nat i).

Definition winode (inum : Z) (ip : dnode) : H unit :=
  let* sb := gets m_sb in
  let bn := IBLOCK inum sb in
  let* buf := rsect bn in
  wsect bn (splice buf (dip_off inum) (dnode_bytes ip)).

Definition rinode (inum : Z) : H dnode :=
  let* sb := gets m_sb in
  let bn := IBLOCK inum sb in
  let* buf := rsect bn in
  ret (dnode_of buf inum).

Definition mkfs_ialloc (type : Z) : H Z :=
  let* inum := gets m_freeinode in
  modify (set_freeinode (uint32 (inum + 1))) ;;;
  winode inum (mkDnode (xshort type) 0 0 (xshort 1) (xint 0) (dn_addrs dnode0)) ;;;
  ret inum.

(** [freeblock++] *)
Definition take_block : H Z :=
  let* b := gets m_freeblock in
  modify (set_freeblock (uint32 (b + 1))) ;;;
  ret b.

(** The bits of the first [used] blocks. *)
Fixpoint set_bits (n : nat) (i : Z) (buf : list Z) : list Z :=
  match n with
  | O => buf
  | S n' => set_bits n' (i + 1) (<[Z.to_nat (i / 8) := uint8 (Z.lor (byte_at buf (i / 8)) (Z.shiftl 1 (i mod 8)))]> buf)
  end.

Definition mkfs_balloc (used : Z) : H unit :=
  assert_ (used <? BPB) ;;;
  let buf := set_bits (Z.to_nat used) 0 zero_block in
  let* sb := gets m_sb in
  wsect (sb_bmapstart sb) buf.

(** ** Contents *)

(** The entry of block [fbn] in the indirect block [addr], allocated if it is new. *)
Definition iappend_indirect (addr fbn : Z) : H Z :=
  let* indirect := rsect addr in
  let* indirect :=
    (if ld32 indirect (4 * (fbn - NDIRECT)) =? 0 then
       let* b := take_block in
       let indirect := st32 indirect (4 * (fbn - NDIRECT)) (xint b) in
       wsect addr indirect ;;;
       ret indirect
     else ret indirect) in
  ret (xint (ld32 indirect (4 * (fbn - NDIRECT)))).

(** The address of block [fbn], allocated if it is new. *)
Definition iappend_block (din : dnode) (fbn : Z) : H (dnode * Z) :=
  if fbn <? NDIRECT then
    let* din :=
      (if xint (daddr din fbn) =? 0 then
         let* b := take_block in
         ret (set_daddr fbn (xint b) din)
       else ret din) in
    ret (din, xint (daddr din fbn))
  else
    let* din :=
      (if xint (daddr din NDIRECT) =? 0 then
         let* b := take_block in
         ret (set_daddr NDIRECT (xint b) din)
       else ret din) in
    let* x := iappend_indirect (xint (daddr din NDIRECT)) fbn in
    ret (din, x).

(** One turn of the loop of iappend: [din], the offset, what is left to append. *)
Definition iappend_turn (l : dnode * Z * list Z) : H (dnode * Z * list Z + dnode * Z) :=
  let '(din, off, p) := l in
  let n := Z.of_nat (length p) in
  if 0 <? n then
    let fbn := off / BSIZE in
    assert_ (fbn <? MAXFILE) ;;;
    let* r := iappend_block din fbn in
    let '(din, x) := r in
    let n1 := Z.min n ((fbn + 1) * BSIZE - off) in
    let* buf := rsect x in
    wsect x (splice buf (off - fbn * BSIZE) (take (Z.to_nat n1) p)) ;;;
    ret (inl (din, off + n1, drop (Z.to_nat n1) p))
  else ret (inr (din, off)).

(** Each turn but the first starts at a block, so there are at most [n / BSIZE + 2]
    that append something. *)
Definition iappend (inum : Z) (p : list Z) : H unit :=
  let* din := rinode inum in
  let off := xint (dn_size din) in
  let* r := while_loop (Z.to_nat (Z.of_nat (length p) / BSIZE + 3)) (din, off, p) iappend_turn in
  let '(din, off) := r in
  winode inum (set_size (xint off) din).

(** ** main *)

(** [strcpy] into a name that is all zeros. *)
Definition dirent_bytes (inum : Z) (name : list Z) : list Z := enc 2 (xshort inum) ++ lstrncpy (Z.to_nat DIRSIZ) name.

(** An argument, and what open and the reads of it return: nothing if it cannot be
    opened, else the pieces read. *)
Record hostfile := mkHostfile { hf_arg : list Z; hf_reads : option (list (list Z)) }.

Definition user_ : list Z := [117; 115; 101; 114; 47].
Definition underscore : Z := 95.
Definition shortname (arg : list Z) : list Z := if lstrncmp 5 arg user_ =? 0 then drop 5 arg else arg.
Definition skip_underscore (name : list Z) : list Z :=
  match name with c :: rest => if c =? underscore then rest else name | [] => name end.

Definition add_file (rootino : Z) (f : hostfile) : H unit :=
  let name := shortname (hf_arg f) in
  assert_ (bool_decide (slash ∉ name)) ;;;
  match hf_reads f with
  | None => die "open"
  | Some pieces =>
      let name := skip_underscore name in
      assert_ (Z.of_nat (length name) <=? DIRSIZ) ;;;
      let* inum := mkfs_ialloc T_FILE in
      iappend rootino (dirent_bytes inum name) ;;;
      for_all pieces (iappend inum)
  end.

Definition sb_bytes (sb : superblock) : list Z :=
  enc 4 (sb_magic sb) ++ enc 4 (sb_size sb) ++ enc 4 (sb_nblocks sb) ++ enc 4 (sb_ninodes sb) ++ enc 4 (sb_nlog sb)
  ++ enc 4 (sb_logstart sb) ++ enc 4 (sb_inodestart sb) ++ enc 4 (sb_bmapstart sb).

Definition sb_mkfs : superblock :=
  mkSuperblock FSMAGIC (xint FSSIZE) (xint nblocks) (xint NINODES) (xint nlog) (xint 2) (xint (2 + nlog)) (xint (2 + nlog + ninodeblocks)).

Definition dot : list Z := [46].
Definition dotdot : list Z := [46; 46].

Definition fix_root_size (rootino : Z) : H unit :=
  let* din := rinode rootino in
  let off := xint (dn_size din) in
  let off := (off / BSIZE + 1) * BSIZE in
  winode rootino (set_size (xint off) din).

Definition mkfs_main (files : list hostfile) : H unit :=
  modify (set_sb sb_mkfs) ;;;
  modify (set_freeblock nmeta) ;;;
  for_all (seqZ 0 FSSIZE) (fun i => wsect i zero_block) ;;;
  let* sb := gets m_sb in
  wsect 1 (splice zero_block 0 (sb_bytes sb)) ;;;
  let* rootino := mkfs_ialloc T_DIR in
  assert_ (rootino =? ROOTINO) ;;;
  iappend rootino (dirent_bytes rootino dot) ;;;
  iappend rootino (dirent_bytes rootino dotdot) ;;;
  for_all files (add_file rootino) ;;;
  fix_root_size rootino ;;;
  let* used := gets m_freeblock in
  mkfs_balloc used.

(** The image file truncated by open, and [freeinode = 1]. *)
Definition mkfs0 : mkfs := mkMkfs [] (mkSuperblock 0 0 0 0 0 0 0 0) 1 0.
