(* ===== verification/MkfsSpec.v ===== *)
(** * The image mkfs builds

    What an inode of an image holds, and the invariant of mkfs: the blocks from
    [nmeta] to [freeblock] belong each to one file, the others are zero. *)
From S2P Require Import Prelude State Bytes Bio Fs FsData Mkfs.

Open Scope Z_scope.

(** ** Files in an image *)

Record dfile := mkFile { f_type : Z; f_bytes : list Z; f_blocks : list Z; f_addrs : list Z }.

Definition f_ind (f : dfile) : Z := byte_at (f_addrs f) NDIRECT.
Definition f_len (f : dfile) : Z := Z.of_nat (length (f_bytes f)).
(** Its data blocks and its indirect block. *)
Definition f_owned (f : dfile) : list Z := f_blocks f ++ (if f_ind f =? 0 then [] else [f_ind f]).

Record file_ok (D : Z -> list Z) (f : dfile) : Prop := {
  fo_addrs : length (f_addrs f) = Z.to_nat (NDIRECT + 1);
  fo_map : forall k : nat, Z.of_nat k < MAXFILE -> faddr D (f_addrs f) (Z.of_nat k) = default 0 (f_blocks f !! k);
  fo_ind : f_ind f = 0 -> Z.of_nat (length (f_blocks f)) <= NDIRECT;
  fo_cover : f_len f <= BSIZE * Z.of_nat (length (f_blocks f));
  fo_max : Z.of_nat (length (f_blocks f)) <= MAXFILE;
  fo_data : forall k b, f_blocks f !! k = Some b -> D b = blockof (f_bytes f) (Z.of_nat k) }.

(** It has no block more than it needs. *)
Definition tight (f : dfile) : Prop :=
  Z.of_nat (length (f_blocks f)) = (f_len f + BSIZE - 1) / BSIZE /\ (Z.of_nat (length (f_blocks f)) <= NDIRECT -> f_ind f = 0).

Lemma file_ok_ext D D' f : (forall b, b ∈ f_owned f -> D' b = D b) -> file_ok D f -> file_ok D' f.
Proof.
  intros E [H1 H2 H3 H4 H5 H6]. constructor; try done.
  - intros k Hk. rewrite <- H2 by done. unfold faddr. destruct (Z.of_nat k <? NDIRECT); [done|]. fold (f_ind f).
    destruct (Z.eqb_spec (f_ind f) 0) as [|Hi]; [done|]. rewrite E; [done|]. unfold f_owned. rewrite (proj2 (Z.eqb_neq _ _) Hi). set_solver.
  - intros k b Hb. rewrite E; [by apply H6|]. apply elem_of_app. left. by eapply list_elem_of_lookup_2.
Qed.

(** ** The image *)
Definition blk (m : mkfs) (bn : Z) : list Z := default [] (m_img m !! Z.to_nat bn).

Lemma rsect_run sec m : 0 <= sec < Z.of_nat (length (m_img m)) -> Z.of_nat (length (m_img m)) <= 2 ^ 22 -> rsect sec m = Ret (blk m sec) m.
Proof.
  intros Hs Hl. unfold rsect, uint32. rewrite Z.mod_small by (unfold BSIZE; lia). rewrite Z.div_mul by done.
  erewrite bind_ret_eq by reflexivity. unfold blk. destruct (lookup_lt_is_Some_2 (m_img m) (Z.to_nat sec)) as [buf ->]; [lia|done].
Qed.

Definition wrote (sec : Z) (buf : list Z) (m : mkfs) : mkfs := set_img (insert (Z.to_nat sec) buf) m.

Lemma wsect_run sec buf m : 0 <= sec < Z.of_nat (length (m_img m)) -> Z.of_nat (length (m_img m)) <= 2 ^ 22 -> wsect sec buf m = Ret tt (wrote sec buf m).
Proof.
  intros Hs Hl. unfold wsect, uint32. rewrite Z.mod_small by (unfold BSIZE; lia). rewrite Z.div_mul by done.
  unfold modify, wrote, set_img. by rewrite (proj2 (Nat.ltb_lt _ _)) by lia.
Qed.

Lemma blk_wrote sec buf m bn : 0 <= sec < Z.of_nat (length (m_img m)) -> 0 <= bn -> blk (wrote sec buf m) bn = if bn =? sec then buf else blk m bn.
Proof.
  intros Hs Hb. unfold blk, wrote, set_img. cbn [m_img]. destruct (Z.eqb_spec bn sec) as [->|Hne].
  - by rewrite list_lookup_insert_eq by lia.
  - by rewrite list_lookup_insert_ne by lia.
Qed.

Lemma length_wrote sec buf m : length (m_img (wrote sec buf m)) = length (m_img m).
Proof. apply length_insert. Qed.

Lemma xint_id x : 0 <= x < 2 ^ 32 -> xint x = x.
Proof.
  intros H. change (xint x) with (dec [x mod 256; Z.shiftr x 8 mod 256; Z.shiftr x 16 mod 256; Z.shiftr x 24 mod 256]).
  rewrite !Z.shiftr_div_pow2 by lia. cbn [dec]. dlia.
Qed.

Lemma xshort_id x : 0 <= x < 2 ^ 16 -> xshort x = x.
Proof.
  intros H. change (xshort x) with (dec [x mod 256; Z.shiftr x 8 mod 256]). rewrite !Z.shiftr_div_pow2 by lia. cbn [dec]. dlia.
Qed.

(** ** The invariant *)
Definition owned_all (fs : list dfile) : list Z := concat (map f_owned fs).

(** The blocks of the files; the inodes on the image are described apart. *)
Record store_inv (m : mkfs) (fs : list dfile) : Prop := {
  si_len : Z.of_nat (length (m_img m)) = FSSIZE;
  si_sized : forall bn, 0 <= bn < FSSIZE -> length (blk m bn) = Z.to_nat BSIZE;
  si_sb : m_sb m = sb_mkfs;
  si_count : m_freeblock m = nmeta + Z.of_nat (length (owned_all fs));
  si_room : m_freeblock m <= FSSIZE;
  si_zero : forall bn, m_freeblock m <= bn < FSSIZE -> blk m bn = zero_block;
  si_range : forall b, b ∈ owned_all fs -> nmeta <= b < m_freeblock m;
  si_nodup : NoDup (owned_all fs);
  si_files : forall i f, fs !! i = Some f -> file_ok (blk m) f }.

Lemma owned_in fs i f b : fs !! i = Some f -> b ∈ f_owned f -> b ∈ owned_all fs.
Proof.
  intros Hi Hb. apply list_elem_of_In, in_concat. exists (f_owned f). split; [|by apply list_elem_of_In].
  apply in_map, list_elem_of_In. by eapply list_elem_of_lookup_2.
Qed.

Lemma owned_insert fs i f f' extra : fs !! i = Some f -> f_owned f' ≡ₚ f_owned f ++ extra -> owned_all (<[i := f']> fs) ≡ₚ owned_all fs ++ extra.
Proof.
  unfold owned_all. revert i. induction fs as [|g fs IH]; intros [|i] Hi HP; try done; cbn [insert list_insert map concat] in *.
  - injection Hi as ->. change (map f_owned (f' :: fs)) with (f_owned f' :: map f_owned fs). cbn [concat]. rewrite HP, <- !app_assoc.
    apply Permutation_app_head, Permutation_app_comm.
  - change (list_insert i f' fs) with (<[i := f']> fs). rewrite (IH i) by done. by rewrite app_assoc.
Qed.

Lemma owned_disjoint fs i j f g b : NoDup (owned_all fs) -> fs !! i = Some f -> fs !! j = Some g -> b ∈ f_owned f -> b ∈ f_owned g -> i = j.
Proof.
  unfold owned_all. revert i j. induction fs as [|h fs IH]; intros [|i] [|j] Hnd Hi Hj Hf Hg; try done; cbn [map concat] in *.
  - injection Hi as ->. apply NoDup_app in Hnd as (_ & Hd & _). by destruct (Hd b Hf (owned_in fs j _ _ Hj Hg)).
  - injection Hj as ->. apply NoDup_app in Hnd as (_ & Hd & _). by destruct (Hd b Hg (owned_in fs i _ _ Hi Hf)).
  - f_equal. apply NoDup_app in Hnd as (_ & _ & Hnd). by eapply IH.
Qed.

(** A file gets the next blocks, and only blocks of it are written. *)
Lemma store_update m fs i f m' f' extra : store_inv m fs -> fs !! i = Some f ->
  m_sb m' = m_sb m -> length (m_img m') = length (m_img m) -> (forall bn, 0 <= bn < FSSIZE -> length (blk m' bn) = Z.to_nat BSIZE) ->
  f_owned f' ≡ₚ f_owned f ++ extra -> extra = seqZ (m_freeblock m) (Z.of_nat (length extra)) ->
  m_freeblock m' = m_freeblock m + Z.of_nat (length extra) -> m_freeblock m' <= FSSIZE ->
  (forall bn, 0 <= bn -> bn ∉ f_owned f' -> blk m' bn = blk m bn) -> file_ok (blk m') f' -> store_inv m' (<[i := f']> fs).
Proof.
  intros [S1 S2 S3 S4 S5 S6 S7 S8 S9] Hi Hsb Hlen Hsz HP He Hfb Hroom Hsame Hok. pose proof (owned_insert _ _ _ _ _ Hi HP) as HQ.
  assert (forall b, b ∈ extra -> m_freeblock m <= b < m_freeblock m') as Hex by (intros b Hb; rewrite He in Hb; apply elem_of_seqZ in Hb; lia).
  assert (nmeta = 47) as En by done.
  constructor; try congruence; try done.
  - rewrite Hfb, S4, HQ, length_app. lia.
  - intros bn Hbn. rewrite Hsame; [apply S6; lia|lia|]. rewrite HP, elem_of_app. intros [Hb|Hb].
    + apply (owned_in _ _ _ _ Hi), S7 in Hb. lia.
    + apply Hex in Hb. lia.
  - intros b. rewrite HQ, elem_of_app. intros [Hb|Hb]; [apply S7 in Hb; lia|]. apply Hex in Hb. lia.
  - rewrite HQ. apply NoDup_app. split_and!; [done| |rewrite He; apply NoDup_seqZ]. intros b Hb Hb'. apply S7 in Hb. apply Hex in Hb'. lia.
  - intros j g Hg. destruct (decide (j = i)) as [->|Hne].
    + rewrite list_lookup_insert_eq in Hg by (by eapply lookup_lt_Some). by injection Hg as <-.
    + rewrite list_lookup_insert_ne in Hg by done. apply (file_ok_ext (blk m)); [|by eapply S9]. intros b Hb.
      assert (b ∈ owned_all fs) as Hb' by (by eapply owned_in). apply S7 in Hb' as Hr. apply Hsame; [lia|].
      rewrite HP, elem_of_app. intros [Hf|Hf]; [|apply Hex in Hf; lia]. apply Hne. by eapply (owned_disjoint fs j i g f b).
Qed.

(** ** What a turn of iappend does *)
Lemma owned_ind f : f_ind f <> 0 -> f_ind f ∈ f_owned f.
Proof. intros H. unfold f_owned. rewrite (proj2 (Z.eqb_neq _ _) H). set_solver. Qed.

Lemma fb_range m fs : store_inv m fs -> nmeta <= m_freeblock m /\ nmeta = 47.
Proof. intros S. rewrite (si_count _ _ S). split; [lia|done]. Qed.

Lemma fb_next m fs : store_inv m fs -> m_freeblock m < FSSIZE -> uint32 (m_freeblock m + 1) = m_freeblock m + 1.
Proof. intros S Hfb. pose proof (fb_range m fs S). apply uint32_small. unfold FSSIZE in *. lia. Qed.

Section Steps.
Context (m : mkfs) (fs : list dfile) (S : store_inv m fs) (i : nat) (f : dfile) (Hi : fs !! i = Some f).

Lemma file_here : file_ok (blk m) f.
Proof. by apply (si_files _ _ S i). Qed.

Lemma owned_range b : b ∈ f_owned f -> nmeta <= b < m_freeblock m.
Proof. intros Hb. by apply (si_range _ _ S), (owned_in _ _ _ _ Hi). Qed.

Lemma owned_nodup : NoDup (f_owned f).
Proof.
  pose proof (si_nodup _ _ S) as Hnd. clear -Hnd Hi. unfold owned_all in Hnd. revert i Hi Hnd.
  induction fs as [|g l IH]; intros [|j] Hj Hnd; try done; cbn [map concat] in Hnd; apply NoDup_app in Hnd as (H1 & _ & H2).
  - by injection Hj as ->.
  - by eapply IH.
Qed.

Let fb := m_freeblock m.
Let n := Z.of_nat (length (f_blocks f)).
Context (Hfb : fb < FSSIZE).

Lemma fb_blk : blk m fb = zero_block.
Proof. apply S. unfold fb in *. lia. Qed.

Definition next_block : mkfs := set_freeblock (fb + 1) m.

(** A data block reached from the inode. *)
Definition with_direct : dfile := mkFile (f_type f) (f_bytes f) (f_blocks f ++ [fb]) (<[Z.to_nat n := fb]> (f_addrs f)).

Lemma store_direct : n < NDIRECT -> f_len f <= BSIZE * n -> store_inv next_block (<[i := with_direct]> fs).
Proof.
  intros Hn Hlen. pose proof file_here as [O1 O2 O3 O4 O5 O6]. assert (NDIRECT = 12 /\ MAXFILE = 268) as [EN EM] by done. rewrite EN, EM in *.
  assert (Z.of_nat (length (f_addrs f)) = 13) as La by (rewrite O1; done). pose proof (fb_range m fs S) as [Hm1 Hm2]. fold fb in Hm1.
  assert (f_ind with_direct = f_ind f) as Ei.
  { unfold f_ind, with_direct. cbn [f_addrs]. rewrite byte_at_insert by lia. rewrite EN. by rewrite (proj2 (Z.eqb_neq 12 n)) by lia. }
  eapply (store_update m fs i f _ _ [fb] S Hi); try done.
  - apply S.
  - unfold f_owned. rewrite Ei. cbn [with_direct f_blocks]. rewrite <- !app_assoc. apply Permutation_app_head, Permutation_app_comm.
  - cbn. fold fb. lia.
  - constructor; cbn [with_direct f_addrs f_blocks f_bytes f_type].
    + by rewrite length_insert.
    + intros k Hk. unfold faddr. rewrite EN. destruct (Z.ltb_spec (Z.of_nat k) 12) as [Hk'|Hk'].
      * rewrite byte_at_insert by lia. destruct (Z.eqb_spec (Z.of_nat k) n) as [E|E].
        -- unfold n in E. by rewrite lookup_app_r, (proj2 (Nat.sub_0_le _ _)) by lia.
        -- pose proof (O2 k ltac:(lia)) as O. unfold faddr in O. rewrite EN, (proj2 (Z.ltb_lt _ _) Hk') in O. rewrite O.
           destruct (decide (k < length (f_blocks f))%nat); [by rewrite lookup_app_l|]. rewrite !lookup_ge_None_2; [done|rewrite length_app; simpl; lia|lia].
      * change (byte_at (<[Z.to_nat n:=fb]> (f_addrs f)) 12) with (f_ind with_direct). rewrite Ei. rewrite (lookup_ge_None_2 (_ ++ _)) by (rewrite length_app; simpl; lia). simpl.
        pose proof (O2 k ltac:(lia)) as O. unfold faddr in O. rewrite EN, (proj2 (Z.ltb_ge _ _) Hk') in O. fold (f_ind f) in O.
        rewrite (lookup_ge_None_2 (f_blocks f)) in O by lia. exact O.
    + rewrite length_app. simpl. lia.
    + rewrite length_app. unfold f_len, BSIZE in *. cbn [f_bytes with_direct length]. lia.
    + rewrite length_app, EM. simpl. lia.
    + intros k b Hb. change (blk next_block b) with (blk m b). apply lookup_app_Some in Hb as [Hb|[Hk Hb]]; [by apply O6|].
      apply list_lookup_singleton_Some in Hb as [Hk' <-]. rewrite fb_blk, blockof_past; [done|lia|]. unfold f_len, n, BSIZE in *. lia.
Qed.

(** The indirect block. *)
Definition with_ind : dfile := mkFile (f_type f) (f_bytes f) (f_blocks f) (<[Z.to_nat NDIRECT := fb]> (f_addrs f)).

Lemma store_ind : f_ind f = 0 -> store_inv next_block (<[i := with_ind]> fs).
Proof.
  intros H0. pose proof file_here as [O1 O2 O3 O4 O5 O6]. assert (NDIRECT = 12 /\ MAXFILE = 268) as [EN EM] by done.
  assert (Z.of_nat (length (f_addrs f)) = 13) as La by (rewrite O1; done). pose proof (fb_range m fs S) as [Hm1 Hm2]. fold fb in Hm1. specialize (O3 H0).
  assert (f_ind with_ind = fb) as Ei by (unfold f_ind, with_ind; cbn [f_addrs]; rewrite byte_at_insert by lia; by rewrite Z.eqb_refl).
  eapply (store_update m fs i f _ _ [fb] S Hi); try done.
  - apply S.
  - unfold f_owned. rewrite Ei, H0. cbn [with_ind f_blocks]. rewrite (proj2 (Z.eqb_neq fb 0)) by lia. by rewrite app_nil_r.
  - cbn. fold fb. lia.
  - constructor; cbn [with_ind f_addrs f_blocks f_bytes f_type]; try done; [by rewrite length_insert|].
    intros k Hk. rewrite <- O2 by done. unfold faddr. destruct (Z.ltb_spec (Z.of_nat k) NDIRECT) as [Hk'|Hk'].
    + rewrite byte_at_insert by lia. by rewrite (proj2 (Z.eqb_neq _ _)) by lia.
    + change (byte_at (<[Z.to_nat NDIRECT:=fb]> (f_addrs f)) NDIRECT) with (f_ind with_ind). rewrite Ei. fold (f_ind f). rewrite H0, (proj2 (Z.eqb_neq fb 0)) by lia.
      change (blk next_block fb) with (blk m fb). rewrite fb_blk. cbn [Z.eqb]. apply ld32_zero; unfold BSIZE; lia.
Qed.

(** A data block reached from the indirect block. *)
Definition with_indirect : dfile := mkFile (f_type f) (f_bytes f) (f_blocks f ++ [fb]) (f_addrs f).
Definition next_indirect : mkfs := wrote (f_ind f) (st32 (blk m (f_ind f)) (4 * (n - NDIRECT)) fb) next_block.

Lemma store_indirect : NDIRECT <= n < MAXFILE -> f_ind f <> 0 -> f_len f <= BSIZE * n -> store_inv next_indirect (<[i := with_indirect]> fs).
Proof.
  intros Hn H0 Hlen. pose proof file_here as [O1 O2 O3 O4 O5 O6]. assert (NDIRECT = 12 /\ MAXFILE = 268 /\ BSIZE = 1024 /\ FSSIZE = 2000) as (EN & EM & EB & EF) by done.
  pose proof (fb_range m fs S) as [Hm1 Hm2]. fold fb in Hm1. pose proof (owned_range _ (owned_ind f H0)) as Hr.
  assert (Z.of_nat (length (m_img m)) = 2000) as Li by (rewrite (si_len _ _ S); done).
  assert (length (blk m (f_ind f)) = Z.to_nat BSIZE) as Lb by (apply S; lia).
  assert (forall b, 0 <= b -> blk next_indirect b = if b =? f_ind f then st32 (blk m (f_ind f)) (4 * (n - NDIRECT)) fb else blk m b) as Ew.
  { intros b Hb. unfold next_indirect. rewrite blk_wrote; [done|cbn; lia|done]. }
  assert (forall k b, f_blocks f !! k = Some b -> b <> f_ind f /\ nmeta <= b < fb) as Hdist.
  { intros k b Hb%list_elem_of_lookup_2. pose proof owned_nodup as Hnd. split; [|apply owned_range; set_solver].
    intros ->. unfold f_owned in Hnd. rewrite (proj2 (Z.eqb_neq _ _) H0) in Hnd. apply NoDup_app in Hnd as (_ & Hd & _). apply (Hd _ Hb). set_solver. }
  eapply (store_update m fs i f _ _ [fb] S Hi); try done.
  - etransitivity; [apply length_wrote|done].
  - intros b Hb. rewrite Ew by lia. destruct (b =? f_ind f); [|by apply S]. unfold st32. rewrite st_length; lia.
  - unfold f_owned, f_ind. cbn [with_indirect f_blocks f_addrs]. rewrite <- !app_assoc. apply Permutation_app_head, Permutation_app_comm.
  - cbn. fold fb. lia.
  - intros b Hb Hnb. rewrite Ew by done. rewrite (proj2 (Z.eqb_neq b (f_ind f))); [done|]. intros ->. apply Hnb. unfold f_owned. rewrite elem_of_app. right.
    change (f_ind with_indirect) with (f_ind f). rewrite (proj2 (Z.eqb_neq _ _) H0). set_solver.
  - constructor; cbn [with_indirect f_addrs f_blocks f_bytes f_type]; try done.
    + intros k Hk. unfold faddr. change (byte_at (f_addrs f) NDIRECT) with (f_ind f). pose proof (O2 k Hk) as O. unfold faddr in O.
      change (byte_at (f_addrs f) NDIRECT) with (f_ind f) in O. rewrite (proj2 (Z.eqb_neq _ _) H0) in *. destruct (Z.ltb_spec (Z.of_nat k) NDIRECT) as [Hk'|Hk'].
      * rewrite O. rewrite lookup_app_l by lia. done.
      * rewrite Ew, Z.eqb_refl by lia. unfold ld32, st32 in *. destruct (decide (Z.of_nat k = n)) as [E|E].
        -- rewrite E, ld_st_eq, Z.mod_small by lia. rewrite lookup_app_r by lia. by replace (k - length (f_blocks f))%nat with 0%nat by lia.
        -- rewrite ld_st_ne by lia. rewrite O. destruct (decide (k < length (f_blocks f))%nat); [by rewrite lookup_app_l|].
           rewrite !lookup_ge_None_2; [done|rewrite length_app; simpl; lia|lia].
    + rewrite length_app. unfold f_len, BSIZE in *. cbn [f_bytes with_direct with_indirect length]. lia.
    + rewrite length_app. simpl. lia.
    + intros k b Hb. apply lookup_app_Some in Hb as [Hb|[Hk Hb]].
      * destruct (Hdist _ _ Hb) as [N1 N2]. rewrite Ew, (proj2 (Z.eqb_neq _ _) N1) by lia. by apply O6.
      * apply list_lookup_singleton_Some in Hb as [Hk' <-]. rewrite Ew, (proj2 (Z.eqb_neq _ _)) by lia. rewrite fb_blk, blockof_past; [done|lia|]. unfold f_len, n in *. lia.
Qed.
End Steps.

(** The bytes. *)
Section Bytes.
Context (m : mkfs) (fs : list dfile) (S : store_inv m fs) (i : nat) (f : dfile) (Hi : fs !! i = Some f).
Let fbn := f_len f / BSIZE.
Context (c : list Z) (x : Z) (Hx : f_blocks f !! Z.to_nat fbn = Some x) (Hc : f_len f + Z.of_nat (length c) <= BSIZE * (fbn + 1)).

Definition with_bytes : dfile := mkFile (f_type f) (f_bytes f ++ c) (f_blocks f) (f_addrs f).
Definition wrote_bytes : mkfs := wrote x (splice (blk m x) (f_len f - fbn * BSIZE) c) m.

Lemma x_range : nmeta <= x < m_freeblock m.
Proof. apply (owned_range m fs S i f Hi). apply elem_of_app. left. by eapply list_elem_of_lookup_2. Qed.

Lemma store_bytes : store_inv wrote_bytes (<[i := with_bytes]> fs).
Proof.
  pose proof (file_here m fs S i f Hi) as [O1 O2 O3 O4 O5 O6]. pose proof x_range as Hr. pose proof (si_room _ _ S) as Hroom.
  assert (nmeta = 47 /\ FSSIZE = 2000 /\ BSIZE = 1024) as (E1 & E2 & E3) by done. assert (0 <= fbn) as Hf by (unfold fbn, f_len, BSIZE; dlia).
  assert (Z.of_nat (length (m_img m)) = 2000) as Li by (rewrite (si_len _ _ S); done).
  assert (blk m x = blockof (f_bytes f) fbn) as Ex by (rewrite (O6 _ _ Hx); f_equal; lia).
  assert (forall b, 0 <= b -> blk wrote_bytes b = if b =? x then blockof (f_bytes f ++ c) fbn else blk m b) as Ew.
  { intros b Hb. unfold wrote_bytes. rewrite blk_wrote by lia. destruct (b =? x); [|done]. rewrite Ex. apply blockof_app_last. unfold fbn, f_len, BSIZE in *. lia. }
  assert (NoDup (f_blocks f)) as Hnd by (pose proof (owned_nodup m fs S i f Hi) as (? & _)%NoDup_app; done).
  assert (forall b, b ∈ f_blocks f -> b <> f_ind f \/ f_ind f = 0) as Hni.
  { intros b Hb. destruct (Z.eqb_spec (f_ind f) 0) as [|H0]; [by right|left]. intros ->. pose proof (owned_nodup m fs S i f Hi) as Hd.
    unfold f_owned in Hd. rewrite (proj2 (Z.eqb_neq _ _) H0) in Hd. apply NoDup_app in Hd as (_ & Hd & _). apply (Hd _ Hb). set_solver. }
  pose proof (list_elem_of_lookup_2 _ _ _ Hx) as Hxin.
  eapply (store_update m fs i f _ _ [] S Hi); try done.
  - apply length_wrote.
  - intros b Hb. rewrite Ew by lia. destruct (b =? x); [apply blockof_length|by apply S].
  - by rewrite app_nil_r.
  - unfold wrote_bytes, wrote, set_img. cbn. lia.
  - intros b Hb Hnb. rewrite Ew by done. rewrite (proj2 (Z.eqb_neq b x)); [done|]. intros ->. apply Hnb. apply elem_of_app. by left.
  - constructor; cbn [with_bytes f_addrs f_blocks f_bytes f_type]; try done.
    + intros k Hk. rewrite <- O2 by done. unfold faddr. destruct (Z.of_nat k <? NDIRECT); [done|]. fold (f_ind f).
      destruct (Z.eqb_spec (f_ind f) 0) as [|H0]; [done|]. pose proof (owned_range m fs S i f Hi _ (owned_ind f H0)). rewrite Ew by lia.
      destruct (Hni x Hxin) as [Hne|]; [|done]. by rewrite (proj2 (Z.eqb_neq _ _)) by done.
    + apply lookup_lt_Some in Hx. unfold f_len, BSIZE in *. cbn [f_bytes with_bytes]. rewrite length_app. lia.
    + intros k b Hb. assert (nmeta <= b < m_freeblock m) as Hbr by (apply (owned_range m fs S i f Hi), elem_of_app; left; by eapply list_elem_of_lookup_2).
      rewrite Ew by lia. destruct (Z.eqb_spec b x) as [->|Hne].
      * f_equal. assert (k = Z.to_nat fbn) as -> by (by eapply NoDup_lookup). lia.
      * rewrite (O6 _ _ Hb). symmetry. apply blockof_app_other; [lia| |unfold fbn, f_len, BSIZE in *; lia]. fold (f_len f). fold fbn. intros E. apply Hne.
        rewrite <- E, Nat2Z.id in Hx. congruence.
Qed.
End Bytes.

(** ** iappend *)

(** The blocks a file of [len] bytes takes. *)
Definition need (len : Z) : Z := let b := (len + BSIZE - 1) / BSIZE in b + (if NDIRECT <? b then 1 else 0).

Lemma tight_need D f : file_ok D f -> tight f -> Z.of_nat (length (f_owned f)) = need (f_len f).
Proof.
  intros [_ _ O3 _ _ _] [T1 T2]. unfold need, f_owned. rewrite <- T1, length_app. destruct (Z.ltb_spec NDIRECT (Z.of_nat (length (f_blocks f)))) as [Hlt|Hge].
  - rewrite (proj2 (Z.eqb_neq (f_ind f) 0)); [simpl; lia|]. intros H0. specialize (O3 H0). lia.
  - rewrite (T2 Hge). simpl. lia.
Qed.

Definition with_addrs (d : dnode) (addrs : list Z) : dnode := mkDnode (dn_type d) (dn_major d) (dn_minor d) (dn_nlink d) (dn_size d) addrs.

Lemma take_block_run m : uint32 (m_freeblock m + 1) = m_freeblock m + 1 -> take_block m = Ret (m_freeblock m) (next_block m).
Proof. intros E. unfold take_block. erewrite bind_ret_eq by reflexivity. rewrite E. reflexivity. Qed.

(** What the files share with the rest of the image is untouched. *)
Definition same_rest (m m' : mkfs) : Prop := m_freeinode m' = m_freeinode m /\ forall bn, 0 <= bn < nmeta -> blk m' bn = blk m bn.

Lemma same_rest_refl m : same_rest m m.
Proof. done. Qed.
Lemma same_rest_trans m1 m2 m3 : same_rest m1 m2 -> same_rest m2 m3 -> same_rest m1 m3.
Proof. intros [A1 A2] [B1 B2]. split; [congruence|]. intros bn H. by rewrite B2, A2. Qed.
Lemma same_rest_wrote b buf m : nmeta <= b < Z.of_nat (length (m_img m)) -> same_rest m (wrote b buf m).
Proof. intros H. assert (nmeta = 47) by done. split; [done|]. intros bn Hbn. rewrite blk_wrote by lia. by rewrite (proj2 (Z.eqb_neq _ _)) by lia. Qed.

(** The state after iappend_block: block [fbn] of the file is [x]. *)
Record block_ready (m : mkfs) (fs : list dfile) (i : nat) (f : dfile) (din : dnode) (fbn : Z) (m' : mkfs) (f' : dfile) (x : Z) : Prop := {
  br_run : iappend_block din fbn m = Ret (with_addrs din (f_addrs f'), x) m';
  br_inv : store_inv m' (<[i := f']> fs);
  br_same : f_bytes f' = f_bytes f /\ f_type f' = f_type f;
  br_x : f_blocks f' !! Z.to_nat fbn = Some x;
  br_len : Z.of_nat (length (f_blocks f')) = fbn + 1;
  br_ind : fbn + 1 <= NDIRECT -> f_ind f' = 0;
  br_rest : same_rest m m' }.

Section Block.
Context (m : mkfs) (fs : list dfile) (S : store_inv m fs) (i : nat) (f : dfile) (Hi : fs !! i = Some f).
Context (din : dnode) (Hdin : dn_addrs din = f_addrs f) (HT : tight f).
Let fbn := f_len f / BSIZE.
Let n := Z.of_nat (length (f_blocks f)).
Context (Hmax : fbn < MAXFILE).

Lemma consts : NDIRECT = 12 /\ MAXFILE = 268 /\ BSIZE = 1024 /\ FSSIZE = 2000 /\ nmeta = 47.
Proof. done. Qed.

Lemma addr_small b : b ∈ f_owned f -> xint b = b /\ b <> 0.
Proof.
  intros Hb. pose proof (owned_range m fs S i f Hi b Hb). pose proof (si_room _ _ S). destruct consts as (_ & _ & _ & E & E'). split; [apply xint_id; lia|lia].
Qed.

Lemma block_elem k b : f_blocks f !! k = Some b -> b ∈ f_owned f.
Proof. intros Hb. apply elem_of_app. left. by eapply list_elem_of_lookup_2. Qed.

Lemma with_same : with_addrs din (f_addrs f) = din.
Proof. rewrite <- Hdin. by destruct din. Qed.

(** The block is there. *)
Lemma block_old x : f_blocks f !! Z.to_nat fbn = Some x -> n = fbn + 1 -> block_ready m fs i f din fbn m f x.
Proof.
  intros Hx Hn. destruct (file_here m fs S i f Hi) as [O1 O2 O3 O4 O5 O6]. destruct consts as (EN & EM & EB & EF & EM').
  assert (0 <= fbn) as Hf by (unfold fbn, f_len, BSIZE; dlia). destruct (addr_small x (block_elem _ _ Hx)) as [Xx X0].
  pose proof (O2 (Z.to_nat fbn)) as O. rewrite Z2Nat.id, Hx in O by done. specialize (O Hmax). cbn [default from_option id] in O. unfold faddr in O.
  constructor; try done.
  - unfold iappend_block. destruct (Z.ltb_spec fbn NDIRECT) as [Hlt|Hge].
    + change (daddr din fbn) with (byte_at (dn_addrs din) fbn). rewrite Hdin, O, Xx, (proj2 (Z.eqb_neq x 0) X0).
      erewrite bind_ret_eq by reflexivity. change (daddr din fbn) with (byte_at (dn_addrs din) fbn). rewrite Hdin, O, Xx, with_same. reflexivity.
    + change (daddr din NDIRECT) with (byte_at (dn_addrs din) NDIRECT). rewrite Hdin. fold (f_ind f) in *.
      destruct (Z.eqb_spec (f_ind f) 0) as [H0|H0]; [by rewrite <- O in X0|]. destruct (addr_small _ (owned_ind f H0)) as [Xi _].
      rewrite Xi, (proj2 (Z.eqb_neq _ 0) H0). erewrite bind_ret_eq by reflexivity.
      change (daddr din NDIRECT) with (byte_at (dn_addrs din) NDIRECT). rewrite Hdin. fold (f_ind f). rewrite Xi.
      pose proof (owned_range m fs S i f Hi _ (owned_ind f H0)). pose proof (si_room _ _ S). pose proof (si_len _ _ S).
      erewrite bind_ret_eq; [rewrite with_same; reflexivity|]. unfold iappend_indirect.
      erewrite bind_ret_eq by (apply rsect_run; lia). rewrite O, (proj2 (Z.eqb_neq x 0) X0). erewrite bind_ret_eq by reflexivity.
      by rewrite O, Xx.
  - by rewrite list_insert_id.
  - intros Hle. apply HT. fold n. lia.
Qed.

Context (Hlen : f_len f = BSIZE * fbn) (Hn : n = fbn).
Let fb := m_freeblock m.

(** A new block of the inode. *)
Lemma block_direct : fbn < NDIRECT -> fb < FSSIZE -> block_ready m fs i f din fbn (next_block m) (with_direct m f) fb.
Proof.
  intros Hlt Hfb. destruct (file_here m fs S i f Hi) as [O1 O2 O3 O4 O5 O6]. destruct consts as (EN & EM & EB & EF & EM').
  assert (0 <= fbn) as Hf by lia. pose proof (fb_range m fs S) as [Hm _]. fold fb in Hm.
  pose proof (O2 (Z.to_nat fbn)) as O. rewrite Z2Nat.id in O by done. specialize (O Hmax). unfold faddr in O. rewrite (proj2 (Z.ltb_lt _ _) Hlt) in O.
  rewrite (lookup_ge_None_2 (f_blocks f)) in O by lia. cbn [default from_option id] in O.
  assert (xint fb = fb) as Xf by (apply xint_id; lia).
  constructor; try done.
  - unfold iappend_block. rewrite (proj2 (Z.ltb_lt _ _) Hlt). change (daddr din fbn) with (byte_at (dn_addrs din) fbn). rewrite Hdin, O.
    erewrite bind_ret_eq.
    2: { change (xint 0 =? 0) with true. cbn iota. erewrite bind_ret_eq by (apply take_block_run; by apply (fb_next m fs S)). reflexivity. }
    fold fb. rewrite Xf. unfold set_daddr, daddr. cbn [dn_addrs]. rewrite Hdin.
    assert (byte_at (<[Z.to_nat fbn := fb]> (f_addrs f)) fbn = fb) as Eb by (rewrite byte_at_insert by (rewrite ?O1; lia); by rewrite Z.eqb_refl).
    unfold byte_at in Eb. rewrite Eb, Xf. unfold with_direct. cbn [f_addrs]. fold n fb. rewrite Hn. reflexivity.
  - apply store_direct; try done; fold n; lia.
  - cbn [with_direct f_blocks]. by rewrite lookup_app_r, (proj2 (Nat.sub_0_le _ _)) by lia.
  - cbn [with_direct f_blocks]. rewrite length_app. cbn [length]. lia.
  - intros _. unfold f_ind, with_direct. cbn [f_addrs]. fold n. rewrite byte_at_insert by (rewrite ?O1; lia). rewrite (proj2 (Z.eqb_neq _ _)) by lia.
    apply HT. fold n. lia.
Qed.
End Block.

(** A new block of the indirect block. *)
Lemma indirect_new m fs i f (fbn := f_len f / BSIZE) (fb := m_freeblock m) : store_inv m fs -> fs !! i = Some f -> f_ind f <> 0 ->
  Z.of_nat (length (f_blocks f)) = fbn -> NDIRECT <= fbn < MAXFILE -> fb < FSSIZE ->
  iappend_indirect (f_ind f) fbn m = Ret fb (next_indirect m f) /\ same_rest m (next_indirect m f).
Proof.
  intros S Hi H0 Hn Hr Hfb. destruct consts as (EN & EM & EB & EF & EM'). destruct (file_here m fs S i f Hi) as [O1 O2 O3 O4 O5 O6].
  pose proof (owned_range m fs S i f Hi _ (owned_ind f H0)) as Hir. fold fb in Hir. pose proof (si_len _ _ S) as Hlen. pose proof (si_room _ _ S) as Hroom.
  assert (length (blk m (f_ind f)) = Z.to_nat BSIZE) as Lb by (apply S; unfold fb in *; lia).
  pose proof (O2 (Z.to_nat fbn)) as O. rewrite Z2Nat.id in O by lia. specialize (O ltac:(lia)). unfold faddr in O. fold (f_ind f) in O.
  rewrite (proj2 (Z.ltb_ge _ _)), (proj2 (Z.eqb_neq _ _) H0), (lookup_ge_None_2 (f_blocks f)) in O by lia. cbn [default from_option id] in O.
  assert (xint fb = fb) as Xf by (apply xint_id; lia). split.
  - unfold iappend_indirect. erewrite bind_ret_eq by (apply rsect_run; unfold fb in *; lia). rewrite O. change (0 =? 0) with true. cbn iota.
    erewrite bind_ret_eq.
    2: { erewrite bind_ret_eq by (apply take_block_run; by apply (fb_next m fs S)). fold fb. rewrite Xf.
         erewrite bind_ret_eq by (apply wsect_run; cbn; unfold fb in *; lia). reflexivity. }
    unfold ld32, st32 in *. rewrite ld_st_eq, Z.mod_small, Xf by lia. unfold next_indirect, st32. fold fb. by rewrite Hn.
  - apply (same_rest_trans _ (next_block m)); [done|]. apply same_rest_wrote. cbn. unfold fb in *. lia.
Qed.

Section BlockIndirect.
Context (m : mkfs) (fs : list dfile) (S : store_inv m fs) (i : nat) (f : dfile) (Hi : fs !! i = Some f).
Context (din : dnode) (Hdin : dn_addrs din = f_addrs f) (HT : tight f).
Let fbn := f_len f / BSIZE.
Let fb := m_freeblock m.
Context (Hlen : f_len f = BSIZE * fbn) (Hn : Z.of_nat (length (f_blocks f)) = fbn) (Hr : NDIRECT <= fbn < MAXFILE).

Lemma block_indirect : f_ind f <> 0 -> fb < FSSIZE -> block_ready m fs i f din fbn (next_indirect m f) (with_indirect m f) fb.
Proof.
  intros H0 Hfb. destruct (addr_small m fs S i f Hi _ (owned_ind f H0)) as [Xi _].
  destruct (indirect_new m fs i f S Hi H0 Hn Hr Hfb) as [E R]. fold fb in E. fold fbn in E.
  constructor; try done.
  - unfold iappend_block. rewrite (proj2 (Z.ltb_ge _ _)) by lia. change (daddr din NDIRECT) with (byte_at (dn_addrs din) NDIRECT). rewrite Hdin. fold (f_ind f).
    rewrite Xi, (proj2 (Z.eqb_neq _ _) H0). erewrite bind_ret_eq by reflexivity. change (daddr din NDIRECT) with (byte_at (dn_addrs din) NDIRECT). rewrite Hdin.
    fold (f_ind f). rewrite Xi. erewrite bind_ret_eq by exact E. cbn [with_indirect f_addrs]. by rewrite with_same.
  - apply (store_indirect m fs S i f Hi); [done|lia|done|lia].
  - cbn [with_indirect f_blocks]. by rewrite lookup_app_r, (proj2 (Nat.sub_0_le _ _)) by lia.
  - cbn [with_indirect f_blocks]. rewrite length_app. cbn [length]. lia.
  - lia.
Qed.

(** The first one: the indirect block too. *)
Lemma block_first_indirect : f_ind f = 0 -> fb + 1 < FSSIZE ->
  block_ready m fs i f din fbn (next_indirect (next_block m) (with_ind m f)) (with_indirect (next_block m) (with_ind m f)) (fb + 1).
Proof.
  intros H0 Hfb. destruct consts as (EN & EM & EB & EF & EM'). pose proof (fb_range m fs S) as [Hm _]. fold fb in Hm.
  set (m1 := next_block m). set (f1 := with_ind m f). assert (store_inv m1 (<[i := f1]> fs)) as S1 by (apply store_ind; try done; fold fb; lia).
  assert (<[i := f1]> fs !! i = Some f1) as Hi1 by (apply list_lookup_insert_eq; by eapply lookup_lt_Some).
  destruct (file_here m fs S i f Hi) as [O1 _ _ _ _ _].
  assert (f_ind f1 = fb) as Ei.
  { unfold f_ind, f1, with_ind. cbn [f_addrs]. rewrite byte_at_insert by (rewrite ?O1; lia). by rewrite Z.eqb_refl. }
  assert (f_ind f1 <> 0) as H1 by lia. destruct (indirect_new m1 (<[i := f1]> fs) i f1 S1 Hi1 H1 Hn Hr Hfb) as [E R].
  assert (xint fb = fb) as Xf by (apply xint_id; lia).
  constructor; try done.
  - unfold iappend_block. rewrite (proj2 (Z.ltb_ge _ _)) by lia. change (daddr din NDIRECT) with (byte_at (dn_addrs din) NDIRECT). rewrite Hdin. fold (f_ind f).
    rewrite H0. erewrite bind_ret_eq.
    2: { change (xint 0 =? 0) with true. cbn iota. erewrite bind_ret_eq by (apply take_block_run; apply (fb_next m fs S); fold fb; lia). reflexivity. }
    fold fb m1. rewrite Xf. unfold set_daddr. rewrite Hdin. change (daddr _ NDIRECT) with (f_ind f1). rewrite Ei, Xf. rewrite Ei in E.
    erewrite bind_ret_eq by exact E. reflexivity.
  - rewrite <- (list_insert_insert_eq fs i (with_indirect m1 f1) f1). apply (store_indirect m1 _ S1 i f1 Hi1); try done; change (m_freeblock m1) with (fb + 1); change (f_blocks f1) with (f_blocks f); change (f_len f1) with (f_len f); lia.
  - cbn [with_indirect f1 with_ind f_blocks]. by rewrite lookup_app_r, (proj2 (Nat.sub_0_le _ _)) by lia.
  - cbn [with_indirect f1 with_ind f_blocks]. rewrite length_app. cbn [length]. lia.
  - lia.
Qed.
End BlockIndirect.
