(* ===== verification/MkfsRun.v ===== *)
(** * Runs of mkfs *)
From S2P Require Import Prelude State Bytes Bio Fs FsData Mkfs MkfsSpec.

Open Scope Z_scope.

(** ** iappend *)
Lemma need_mono a b : 0 <= a <= b -> need a <= need b.
Proof. intros H. unfold need, NDIRECT, BSIZE. destruct (Z.ltb_spec 12 ((a + 1024 - 1) / 1024)), (Z.ltb_spec 12 ((b + 1024 - 1) / 1024)); dlia. Qed.

(** The appends within one block take what its first byte takes. *)
Lemma need_block len k : 0 <= len -> 0 < k -> len + k <= BSIZE * (len / BSIZE + 1) -> need (len + k) = need (len + 1).
Proof.
  intros H1 H2 H3. unfold need. replace ((len + k + BSIZE - 1) / BSIZE) with ((len + 1 + BSIZE - 1) / BSIZE); [done|]. unfold BSIZE in *. dlia.
Qed.

Lemma owned_insert_length fs i f f' : fs !! i = Some f ->
  (length (owned_all (<[i := f']> fs)) + length (f_owned f) = length (owned_all fs) + length (f_owned f'))%nat.
Proof.
  unfold owned_all. revert i. induction fs as [|g fs IH]; intros [|i] Hi; try done; cbn [insert list_insert map concat] in *.
  - injection Hi as ->. change (map f_owned (f' :: fs)) with (f_owned f' :: map f_owned fs). cbn [concat]. rewrite !length_app. lia.
  - specialize (IH i Hi). rewrite !length_app. unfold insert in *. lia.
Qed.

Lemma with_addrs_twice d a b : with_addrs (with_addrs d a) b = with_addrs d b.
Proof. done. Qed.

Lemma block_any m fs i f din : store_inv m fs -> fs !! i = Some f -> dn_addrs din = f_addrs f -> tight f -> f_len f / BSIZE < MAXFILE ->
  m_freeblock m + need (f_len f + 1) - need (f_len f) <= FSSIZE -> exists m' f' x, block_ready m fs i f din (f_len f / BSIZE) m' f' x.
Proof.
  intros S Hi Hdin HT Hmax Hroom. pose proof HT as [T1 _]. destruct consts as (EN & EM & EB & EF & EM'). assert (0 <= f_len f) as H0 by (unfold f_len; lia).
  assert (0 <= f_len f / BSIZE) as Hq by (unfold BSIZE; dlia).
  destruct (decide (f_len f mod BSIZE = 0)) as [Hal|Hal].
  2: { assert (Z.of_nat (length (f_blocks f)) = f_len f / BSIZE + 1) as Hn by (rewrite T1; unfold BSIZE in *; dlia).
       destruct (lookup_lt_is_Some_2 (f_blocks f) (Z.to_nat (f_len f / BSIZE))) as [x Hx]; [lia|]. exists m, f, x. by apply (block_old m fs S i f Hi). }
  assert (Z.of_nat (length (f_blocks f)) = f_len f / BSIZE) as Hn by (rewrite T1; unfold BSIZE in *; dlia).
  assert (f_len f = BSIZE * (f_len f / BSIZE)) as Hlen by (unfold BSIZE in *; dlia).
  unfold need in Hroom. replace ((f_len f + 1 + BSIZE - 1) / BSIZE) with (f_len f / BSIZE + 1) in Hroom by (unfold BSIZE in *; dlia).
  rewrite <- T1, Hn in Hroom. destruct (decide (f_len f / BSIZE < NDIRECT)) as [Hd|Hd].
  { eexists _, _, _. apply (block_direct m fs S i f Hi); try done. destruct (Z.ltb_spec NDIRECT (f_len f / BSIZE)), (Z.ltb_spec NDIRECT (f_len f / BSIZE + 1)); lia. }
  destruct (decide (f_ind f = 0)) as [Hz|Hz].
  - eexists _, _, _. apply (block_first_indirect m fs S i f Hi); try done; [lia|].
    destruct (file_here m fs S i f Hi) as [_ _ O3 _ _ _]. specialize (O3 Hz). destruct (Z.ltb_spec NDIRECT (f_len f / BSIZE)), (Z.ltb_spec NDIRECT (f_len f / BSIZE + 1)); lia.
  - eexists _, _, _. apply (block_indirect m fs S i f Hi); try done; [lia|].
    destruct (Z.ltb_spec NDIRECT (f_len f / BSIZE)), (Z.ltb_spec NDIRECT (f_len f / BSIZE + 1)); lia.
Qed.

(** The file [f] became [f'], with [c] appended. *)
Record appended (m : mkfs) (fs : list dfile) (i : nat) (f : dfile) (c : list Z) (m' : mkfs) (f' : dfile) : Prop := {
  ap_inv : store_inv m' (<[i := f']> fs);
  ap_bytes : f_bytes f' = f_bytes f ++ c;
  ap_type : f_type f' = f_type f;
  ap_tight : tight f';
  ap_rest : same_rest m m' }.

Lemma appended_len m fs i f c m' f' : appended m fs i f c m' f' -> f_len f' = f_len f + Z.of_nat (length c).
Proof. intros A. unfold f_len. rewrite (ap_bytes _ _ _ _ _ _ _ A), length_app. lia. Qed.

Lemma appended_at m fs i f c m' f' : fs !! i = Some f -> appended m fs i f c m' f' -> <[i := f']> fs !! i = Some f'.
Proof. intros Hi _. apply list_lookup_insert_eq. by eapply lookup_lt_Some. Qed.

Lemma appended_trans m fs i f c m1 f1 c' m2 f2 : fs !! i = Some f -> appended m fs i f c m1 f1 -> appended m1 (<[i := f1]> fs) i f1 c' m2 f2 ->
  appended m fs i f (c ++ c') m2 f2.
Proof.
  intros Hi [A1 A2 A3 A4 A5] [B1 B2 B3 B4 B5]. constructor; try done.
  - by rewrite list_insert_insert_eq in B1.
  - by rewrite B2, A2, app_assoc.
  - congruence.
  - by eapply same_rest_trans.
Qed.

Lemma appended_free m fs i f c m' f' : store_inv m fs -> fs !! i = Some f -> tight f -> appended m fs i f c m' f' ->
  m_freeblock m' = m_freeblock m + need (f_len f') - need (f_len f).
Proof.
  intros S Hi HT A. pose proof (appended_at _ _ _ _ _ _ _ Hi A) as Hi'. destruct A as [A1 A2 A3 A4 A5]. rewrite (si_count _ _ A1), (si_count _ _ S).
  pose proof (owned_insert_length fs i f f' Hi). rewrite <- (tight_need _ _ (file_here m fs S i f Hi) HT), <- (tight_need _ _ (file_here m' _ A1 i f' Hi') A4). lia.
Qed.

Lemma turn_run m fs i f din p : store_inv m fs -> fs !! i = Some f -> dn_addrs din = f_addrs f -> tight f -> p <> [] ->
  f_len f + Z.of_nat (length p) <= MAXFILE * BSIZE -> m_freeblock m + need (f_len f + Z.of_nat (length p)) - need (f_len f) <= FSSIZE ->
  exists m' f' k, iappend_turn (din, f_len f, p) m = Ret (inl (with_addrs din (f_addrs f'), f_len f', drop k p)) m'
  /\ appended m fs i f (take k p) m' f' /\ (0 < k <= length p)%nat /\ (k = length p \/ f_len f' mod BSIZE = 0).
Proof.
  intros S Hi Hdin HT Hp Hmax Hroom. destruct consts as (EN & EM & EB & EF & EM'). assert (0 <= f_len f) as H0 by (unfold f_len; lia).
  assert (0 < Z.of_nat (length p)) as Lp by (destruct p; simpl; [done|lia]).
  set (fbn := f_len f / BSIZE). assert (fbn < MAXFILE) as Hfbn by (unfold fbn, BSIZE in *; dlia).
  destruct (block_any m fs i f din S Hi Hdin HT Hfbn) as (m1 & f1 & x & [R1 R2 [R3 R3'] R4 R5 R6 R7]).
  { pose proof (need_mono (f_len f + 1) (f_len f + Z.of_nat (length p)) ltac:(lia)). lia. }
  fold fbn in R1, R4, R5, R6. assert (f_len f1 = f_len f) as El by (unfold f_len; by rewrite R3).
  set (n1 := Z.min (Z.of_nat (length p)) ((fbn + 1) * BSIZE - f_len f)). assert (0 < n1 <= Z.of_nat (length p)) as Hn1 by (unfold n1, fbn, BSIZE; dlia).
  assert (<[i := f1]> fs !! i = Some f1) as Hi1 by (apply list_lookup_insert_eq; by eapply lookup_lt_Some).
  set (c := take (Z.to_nat n1) p). assert (Z.of_nat (length c) = n1) as Lc by (unfold c; rewrite length_take; lia).
  assert (f_blocks f1 !! Z.to_nat (f_len f1 / BSIZE) = Some x) as Hx by (by rewrite El).
  assert (f_len f1 + Z.of_nat (length c) <= BSIZE * (f_len f1 / BSIZE + 1)) as Hc by (rewrite El, Lc; fold fbn; unfold n1; lia).
  pose proof (x_range m1 _ R2 i f1 Hi1 x Hx) as Hxr. pose proof (si_room _ _ R2) as Hr2. pose proof (si_len _ _ R2) as Hl2.
  exists (wrote_bytes m1 f1 c x), (with_bytes f1 c), (Z.to_nat n1).
  assert (f_len (with_bytes f1 c) = f_len f + n1) as El' by (unfold f_len, with_bytes in *; cbn [f_bytes] in *; rewrite length_app; lia).
  split_and!; try lia.
  - unfold iappend_turn. rewrite (proj2 (Z.ltb_lt _ _) Lp). fold fbn. rewrite (proj2 (Z.ltb_lt _ _) Hfbn). erewrite bind_ret_eq by reflexivity.
    erewrite bind_ret_eq by exact R1. cbv beta iota zeta. fold fbn n1. erewrite bind_ret_eq by (apply rsect_run; lia). erewrite bind_ret_eq by (apply wsect_run; lia).
    rewrite El'. unfold wrote_bytes. rewrite El. reflexivity.
  - constructor.
    + rewrite <- (list_insert_insert_eq fs i _ f1). by apply store_bytes.
    + cbn [with_bytes f_bytes]. by rewrite R3.
    + done.
    + split; cbn [with_bytes f_blocks]; [|intros Hle; apply R6; lia]. rewrite El', R5. unfold n1, fbn, BSIZE in *. dlia.
    + eapply same_rest_trans; [done|]. apply same_rest_wrote. lia.
  - rewrite El'. unfold n1, fbn, BSIZE. destruct (decide (Z.of_nat (length p) <= (f_len f / 1024 + 1) * 1024 - f_len f)); [left; lia|right; dlia].
Qed.

Lemma loop_run fuel m fs i f din p : store_inv m fs -> fs !! i = Some f -> dn_addrs din = f_addrs f -> tight f ->
  f_len f + Z.of_nat (length p) <= MAXFILE * BSIZE -> m_freeblock m + need (f_len f + Z.of_nat (length p)) - need (f_len f) <= FSSIZE ->
  (p = [] /\ (0 < fuel)%nat) \/ (f_len f mod BSIZE = 0 /\ (Z.of_nat (length p) + BSIZE - 1) / BSIZE < Z.of_nat fuel) \/ Z.of_nat (length p) / BSIZE + 2 < Z.of_nat fuel ->
  exists m' f', while_loop fuel (din, f_len f, p) iappend_turn m = Ret (with_addrs din (f_addrs f'), f_len f') m' /\ appended m fs i f p m' f'.
Proof.
  revert m fs f din p. induction fuel as [|fuel IH]; intros m fs f din p S Hi Hdin HT Hmax Hroom Hfuel; [unfold BSIZE in *; dlia|].
  destruct (decide (p = [])) as [->|Hp].
  { exists m, f. split; [|constructor; try done; [by rewrite list_insert_id|by rewrite app_nil_r]]. apply while_done. rewrite with_same by done. reflexivity. }
  destruct (turn_run m fs i f din p S Hi Hdin HT Hp Hmax Hroom) as (m1 & f1 & k & R & A & Hk & Hk').
  pose proof (appended_at _ _ _ _ _ _ _ Hi A) as Hi1. pose proof (appended_len _ _ _ _ _ _ _ A) as L1. pose proof (appended_free _ _ _ _ _ _ _ S Hi HT A) as F1.
  rewrite length_take in L1. pose proof A as [A1 _ _ A4 _].
  assert (0 <= f_len f) as H0 by (unfold f_len; lia).
  destruct (IH m1 (<[i := f1]> fs) f1 (with_addrs din (f_addrs f1)) (drop k p) A1 Hi1 eq_refl A4) as (m2 & f2 & R2 & A2).
  - rewrite length_drop. lia.
  - rewrite length_drop. replace (f_len f1 + Z.of_nat (length p - k)) with (f_len f + Z.of_nat (length p)) by lia. lia.
  - destruct Hk' as [->|Hal]; [left; rewrite drop_all; destruct Hfuel as [[? _]|Hf]; [done|]; split; [done|]; unfold BSIZE in *; dlia|].
    right. left. split; [done|]. rewrite length_drop. destruct Hfuel as [[? _]|[[Hf1 Hf2]|Hf]]; [done| |unfold BSIZE in *; dlia].
    assert (k = length p \/ 1024 <= Z.of_nat k) as [->|Hk1]; [|unfold BSIZE in *; dlia|unfold BSIZE in *; dlia].
    unfold BSIZE in *. dlia.
  - exists m2, f2. split.
    + erewrite while_next by exact R. rewrite R2. by rewrite with_addrs_twice.
    + rewrite <- (take_drop k p). by eapply appended_trans.
Qed.

(** ** Inodes of the image *)
Lemma splice_app l off a b : 0 <= off -> off + Z.of_nat (length a + length b) <= Z.of_nat (length l) ->
  splice l off (a ++ b) = splice (splice l off a) (off + Z.of_nat (length a)) b.
Proof.
  intros H1 H2. apply list_eq. intros j. rewrite !splice_lookup by (rewrite ?length_app, ?splice_length; lia). rewrite length_app.
  repeat case_decide; try lia; try done.
  - rewrite lookup_app_r by lia. f_equal. lia.
  - rewrite lookup_app_l by lia. done.
Qed.

Lemma splice_st n l off v rest : 0 <= off -> 0 <= n -> off + n + Z.of_nat (length rest) <= Z.of_nat (length l) ->
  splice l off (enc (Z.to_nat n) v ++ rest) = splice (st n l off v) (off + n) rest.
Proof. intros H1 H2 H3. rewrite splice_app by (rewrite ?enc_length; lia). rewrite enc_length, Z2Nat.id by done. done. Qed.

Lemma splice_addrs addrs : forall l off, 0 <= off -> off + 4 * Z.of_nat (length addrs) <= Z.of_nat (length l) ->
  splice l off (concat (map (enc 4) addrs)) = put_addrs l off addrs.
Proof.
  assert (forall l off, 0 <= off -> splice l off [] = l) as Hnil.
  { intros l off H. unfold splice. simpl. rewrite Nat.add_0_r. apply take_drop. }
  induction addrs as [|a addrs IH]; intros l off H1 H2; cbn [map concat put_addrs length] in *; [by apply Hnil|].
  assert (length (concat (map (enc 4) addrs)) = (4 * length addrs)%nat) as Lc.
  { clear. induction addrs as [|b l IH]; [done|]. cbn [map concat]. rewrite length_app, enc_length, IH. simpl. lia. }
  rewrite splice_app by (rewrite ?enc_length, ?Lc; lia). rewrite enc_length. apply IH; [lia|]. unfold st32. rewrite st_length; lia.
Qed.

(** The in-memory inode with the same fields. *)
Definition as_inode (d : dnode) : inode := mkInode 0 0 0 (mkSleeplock 0 0) 0 (dn_type d) (dn_major d) (dn_minor d) (dn_nlink d) (dn_size d) (dn_addrs d).

Lemma splice_dnode buf inum d : Z.of_nat (length buf) = BSIZE -> length (dn_addrs d) = Z.to_nat (NDIRECT + 1) ->
  splice buf (dip_off inum) (dnode_bytes d) = put_dinode buf inum (as_inode d).
Proof.
  intros Hb Ha. pose proof (dip_off_range inum) as [R1 R2]. change (Z.to_nat (NDIRECT + 1)) with 13%nat in Ha.
  assert (length (concat (map (enc 4) (dn_addrs d))) = 52%nat) as Lc.
  { assert (forall l, length (concat (map (enc 4) l)) = (4 * length l)%nat) as H.
    { induction l as [|b l IH]; [done|]. cbn [map concat]. rewrite length_app, enc_length, IH. simpl. lia. }
    by rewrite H, Ha. }
  unfold dnode_bytes, put_dinode. cbn [i_type i_major i_minor i_nlink i_size i_addrs as_inode].
  rewrite <- splice_addrs by (unfold st16, st32; rewrite ?Ha; field_side).
  change (enc 2) with (enc (Z.to_nat 2)). change (enc 4) with (enc (Z.to_nat 4)) at 1. unfold st16, st32.
  do 5 (rewrite splice_st by (try rewrite !length_app; rewrite ?enc_length; try change (enc (Z.to_nat 4)) with (enc 4); rewrite ?Lc; try lia; field_side)).
  by rewrite <- !Z.add_assoc.
Qed.

Definition inode_at (m : mkfs) (inum : Z) : dnode := dnode_of (blk m (IBLOCK inum sb_mkfs)) inum.

Lemma mk_iblock_range inum : 0 <= inum < 224 -> IBLOCK inum sb_mkfs = inum / IPB + 33 /\ 33 <= IBLOCK inum sb_mkfs < 47.
Proof.
  intros H. unfold IBLOCK. change (sb_inodestart sb_mkfs) with 33. change IPB with 16. rewrite uint32_small by dlia. split; [done|dlia].
Qed.

(** The inodes there are blocks for. *)
Lemma mk_iblock_low inum : 0 <= inum < 208 -> 33 <= IBLOCK inum sb_mkfs < 46.
Proof. intros H. destruct (mk_iblock_range inum) as [-> Hr]; [lia|]. change IPB with 16. dlia. Qed.

Record dnode_fits (d : dnode) : Prop := {
  df_fields : Forall (fun v => - 2 ^ 15 <= v < 2 ^ 15) [dn_type d; dn_major d; dn_minor d; dn_nlink d];
  df_size : 0 <= dn_size d < 2 ^ 32;
  df_len : length (dn_addrs d) = Z.to_nat (NDIRECT + 1);
  df_addrs : Forall (fun a => 0 <= a < 2 ^ 32) (dn_addrs d) }.

Lemma as_inode_fits d : dnode_fits d -> inode_fits (as_inode d).
Proof. intros [H1 H2 H3 H4]. rewrite !Forall_cons in H1. destruct H1 as (? & ? & ? & ? & _). by constructor. Qed.

Definition as_dnode (t : Z * Z * Z * Z * Z * list Z) : dnode := let '(a, b, c, d, e, l) := t in mkDnode a b c d e l.

(** A dnode is read from the fields [dinode] gives. *)
Lemma dnode_of_eq buf buf' inum : dinode buf inum = dinode buf' inum -> dnode_of buf inum = dnode_of buf' inum.
Proof. intros E. change (dnode_of ?buf inum) with (as_dnode (dinode buf inum)). by rewrite E. Qed.

Section Inodes.
Context (m : mkfs) (Hlen : Z.of_nat (length (m_img m)) = FSSIZE) (Hsb : m_sb m = sb_mkfs).
Context (Hsz : forall bn, 0 <= bn < FSSIZE -> length (blk m bn) = Z.to_nat BSIZE).
Context (inum : Z) (Hin : 0 <= inum < 224).
Let bn := IBLOCK inum sb_mkfs.

Lemma rinode_run : rinode inum m = Ret (inode_at m inum) m.
Proof.
  destruct (mk_iblock_range inum Hin) as [_ Hr]. unfold rinode. erewrite bind_ret_eq by reflexivity. rewrite Hsb.
  erewrite bind_ret_eq by (apply rsect_run; unfold FSSIZE in *; lia). reflexivity.
Qed.

Definition put_inode (d : dnode) : mkfs := wrote bn (put_dinode (blk m bn) inum (as_inode d)) m.

Context (d : dnode) (Hd : dnode_fits d).

Lemma bn_length : Z.of_nat (length (blk m bn)) = BSIZE.
Proof. destruct (mk_iblock_range inum Hin) as [_ Hr]. rewrite Hsz; [done|]. unfold bn, FSSIZE. lia. Qed.

Lemma winode_run : winode inum d m = Ret tt (put_inode d).
Proof.
  destruct (mk_iblock_range inum Hin) as [_ Hr]. unfold winode. erewrite bind_ret_eq by reflexivity. rewrite Hsb. fold bn; fold bn in Hr.
  erewrite bind_ret_eq by (apply rsect_run; unfold FSSIZE in *; lia). rewrite splice_dnode; [|apply bn_length|apply Hd].
  apply wsect_run; unfold FSSIZE in *; lia.
Qed.

Lemma put_inode_blk b : 0 <= b -> blk (put_inode d) b = if b =? bn then put_dinode (blk m bn) inum (as_inode d) else blk m b.
Proof. destruct (mk_iblock_range inum Hin) as [_ Hr]. intros Hb. apply blk_wrote; [unfold bn, FSSIZE in *; lia|done]. Qed.

Lemma put_inode_length : length (m_img (put_inode d)) = length (m_img m).
Proof. apply length_wrote. Qed.

Lemma put_inode_sized b : 0 <= b < FSSIZE -> length (blk (put_inode d) b) = Z.to_nat BSIZE.
Proof.
  intros Hb. rewrite put_inode_blk by lia. destruct (b =? bn); [|by apply Hsz]. apply Nat2Z.inj. rewrite put_dinode_length; [done|apply bn_length|by apply as_inode_fits].
Qed.

Lemma put_inode_same : inode_at (put_inode d) inum = d.
Proof.
  destruct (mk_iblock_range inum Hin) as [_ Hr]. unfold inode_at. fold bn; fold bn in Hr. rewrite put_inode_blk, Z.eqb_refl by lia.
  change (dnode_of ?buf inum) with (as_dnode (dinode buf inum)).
  rewrite (put_dinode_same (blk m bn) inum (as_inode d) bn_length (as_inode_fits d Hd)). by destruct d.
Qed.

Lemma put_inode_other j : 0 <= j < 224 -> j <> inum -> inode_at (put_inode d) j = inode_at m j.
Proof.
  intros Hj Hne. destruct (mk_iblock_range inum Hin) as [E Hr]. destruct (mk_iblock_range j Hj) as [E' Hr']. unfold inode_at. rewrite put_inode_blk by lia. unfold bn; fold bn in Hr.
  destruct (Z.eqb_spec (IBLOCK j sb_mkfs) (IBLOCK inum sb_mkfs)) as [Eb|]; [|done]. rewrite Eb. apply dnode_of_eq.
  apply put_dinode_other; [apply bn_length|by apply as_inode_fits|]. unfold dip_off. rewrite E, E' in Eb. change IPB with 16 in *. dlia.
Qed.
End Inodes.

(** ** The invariant of mkfs *)
Definition f_dnode (f : dfile) : dnode := mkDnode (f_type f) 0 0 1 (f_len f) (f_addrs f).

(** The blocks before the data that hold no inode. *)
Definition meta_ok (m : mkfs) : Prop :=
  blk m 0 = zero_block /\ blk m 1 = splice zero_block 0 (sb_bytes sb_mkfs) /\ forall bn, 2 <= bn < 33 -> blk m bn = zero_block.

(** Sixteen more inodes than there are blocks for: the bitmap block is written after them. *)
Record mk_inv (m : mkfs) (fs : list dfile) : Prop := {
  mi_store : store_inv m fs;
  mi_count : m_freeinode m = 1 + Z.of_nat (length fs);
  mi_max : Z.of_nat (length fs) <= 223;
  mi_inode : forall i f, fs !! i = Some f -> inode_at m (1 + Z.of_nat i) = f_dnode f;
  mi_tight : forall i f, fs !! i = Some f -> tight f /\ 0 <= f_type f < 2 ^ 15;
  mi_free : forall inum, 1 + Z.of_nat (length fs) <= inum < 224 -> inode_at m inum = dnode0;
  mi_meta : meta_ok m }.

Lemma inode_at_same m m' inum : same_rest m m' -> 0 <= inum < 224 -> inode_at m' inum = inode_at m inum.
Proof.
  intros [_ E] H. unfold inode_at. destruct (mk_iblock_range inum H) as [_ Hr]. rewrite E; [done|]. assert (nmeta = 47) by done. lia.
Qed.

Lemma meta_same m m' : same_rest m m' -> meta_ok m -> meta_ok m'.
Proof. intros [_ E] (H1 & H2 & H3). assert (nmeta = 47) by done. split_and!; [rewrite E by lia; done..|]. intros bn Hbn. rewrite E by lia. by apply H3. Qed.

(** Writing an inode keeps the files. *)
Lemma store_put_inode m fs inum d : store_inv m fs -> 0 <= inum < 224 -> dnode_fits d -> store_inv (put_inode m inum d) fs.
Proof.
  intros S Hin Hd. pose proof S as [S1 S2 S3 S4 S5 S6 S7 S8 S9]. destruct (mk_iblock_range inum Hin) as [_ Hr].
  assert (forall b, nmeta <= b -> blk (put_inode m inum d) b = blk m b) as E.
  { intros b Hb. assert (nmeta = 47) by done. rewrite put_inode_blk by (done || lia). by rewrite (proj2 (Z.eqb_neq _ _)) by lia. }
  constructor; try done.
  - by rewrite put_inode_length.
  - by apply put_inode_sized.
  - intros bn Hbn. change (m_freeblock (put_inode m inum d)) with (m_freeblock m) in Hbn. rewrite E; [by apply S6|]. pose proof (fb_range m fs S). lia.
  - intros i f Hi. apply (file_ok_ext (blk m)); [|by eapply S9]. intros b Hb. apply E. by apply S7, (owned_in _ _ _ _ Hi).
Qed.

Lemma f_dnode_fits m fs i f : store_inv m fs -> fs !! i = Some f -> 0 <= f_type f < 2 ^ 15 -> dnode_fits (f_dnode f).
Proof.
  intros S Hi Ht. destruct (file_here m fs S i f Hi) as [O1 O2 O3 O4 O5 O6]. destruct consts as (EN & EM & EB & EF & EM').
  assert (forall b, b ∈ f_owned f -> 0 <= b < 2 ^ 32) as Hown.
  { intros b Hb. pose proof (owned_range m fs S i f Hi b Hb). pose proof (si_room _ _ S). lia. }
  constructor; cbn [f_dnode dn_type dn_major dn_minor dn_nlink dn_size dn_addrs]; [repeat constructor; lia|unfold f_len in *; lia|done|].
  apply Forall_lookup. intros k a Ha. pose proof (lookup_lt_Some _ _ _ Ha) as Hk. rewrite O1 in Hk.
  assert (byte_at (f_addrs f) (Z.of_nat k) = a) as Ea by (unfold byte_at; by rewrite Nat2Z.id, Ha).
  destruct (decide (Z.of_nat k < NDIRECT)) as [Hlt|Hge].
  - pose proof (O2 k ltac:(lia)) as O. unfold faddr in O. rewrite (proj2 (Z.ltb_lt _ _) Hlt), Ea in O. rewrite O.
    destruct (f_blocks f !! k) as [b|] eqn:Eb; [|simpl; lia]. apply Hown, elem_of_app. left. by eapply list_elem_of_lookup_2.
  - assert (Z.of_nat k = NDIRECT) as E by lia. rewrite E in Ea. fold (f_ind f) in Ea. destruct (decide (f_ind f = 0)) as [H0|H0]; [lia|]. rewrite <- Ea. by apply Hown, owned_ind.
Qed.

(** iappend adds bytes to the end of a file. *)
Lemma iappend_run m fs i f p : mk_inv m fs -> fs !! i = Some f -> f_len f + Z.of_nat (length p) <= MAXFILE * BSIZE ->
  m_freeblock m + need (f_len f + Z.of_nat (length p)) - need (f_len f) <= FSSIZE ->
  exists m' f', iappend (1 + Z.of_nat i) p m = Ret tt m' /\ mk_inv m' (<[i := f']> fs) /\ f_bytes f' = f_bytes f ++ p /\ f_type f' = f_type f.
Proof.
  intros [S M1 M2 M3 M4 M5 M6] Hi Hmax Hroom. destruct (M4 _ _ Hi) as [HT Hty]. pose proof (lookup_lt_Some _ _ _ Hi) as Hlt.
  assert (0 <= 1 + Z.of_nat i < 224) as Hin by lia. destruct consts as (EN & EM & EB & EF & EM').
  assert (f_len f + Z.of_nat (length p) <= 274432) as Hm by (change (MAXFILE * BSIZE) with 274432 in Hmax; lia).
  destruct (loop_run (Z.to_nat (Z.of_nat (length p) / BSIZE + 3)) m fs i f (f_dnode f) p S Hi eq_refl HT Hmax Hroom) as (m1 & f1 & R & A); [right; right; dlia|].
  pose proof (appended_at _ _ _ _ _ _ _ Hi A) as Hi1. pose proof (appended_len _ _ _ _ _ _ _ A) as L1. destruct A as [A1 A2 A3 A4 A5].
  assert (dnode_fits (f_dnode f1)) as Hfit by (eapply f_dnode_fits; [done|done|by rewrite A3]).
  assert (0 <= f_len f) as H0 by (unfold f_len; lia).
  assert (set_size (xint (f_len f1)) (with_addrs (f_dnode f) (f_addrs f1)) = f_dnode f1) as Ed.
  { rewrite xint_id by lia. unfold set_size, with_addrs, f_dnode. cbn. by rewrite A3. }
  exists (put_inode m1 (1 + Z.of_nat i) (f_dnode f1)), f1. split_and!; try done.
  - unfold iappend. erewrite bind_ret_eq by (apply rinode_run; [apply S|apply S|done]). rewrite (M3 _ _ Hi). change (dn_size (f_dnode f)) with (f_len f).
    rewrite (xint_id (f_len f)) by lia. erewrite bind_ret_eq by exact R. cbv beta iota. rewrite Ed. apply winode_run; try done; apply A1.
  - constructor.
    + by apply store_put_inode.
    + rewrite length_insert. change (m_freeinode (put_inode m1 (1 + Z.of_nat i) (f_dnode f1))) with (m_freeinode m1). rewrite (proj1 A5). done.
    + by rewrite length_insert.
    + intros j g Hg. apply list_lookup_insert_Some in Hg as [(-> & <- & _)|[Hne Hg]].
      * apply put_inode_same; try done; apply A1.
      * pose proof (lookup_lt_Some _ _ _ Hg). rewrite put_inode_other; [|apply A1|apply A1|done|done|lia|lia]. rewrite (inode_at_same m m1); [by apply M3|done|lia].
    + intros j g Hg. apply list_lookup_insert_Some in Hg as [(-> & <- & _)|[Hne Hg]]; [by rewrite A3|by eapply M4].
    + intros j Hj. rewrite length_insert in Hj. rewrite put_inode_other; [|apply A1|apply A1|done|done|lia|lia]. rewrite (inode_at_same m m1); [by apply M5|done|lia].
    + destruct (mk_iblock_range _ Hin) as [_ Hr]. destruct (meta_same _ _ A5 M6) as (N1 & N2 & N3). pose proof (si_len _ _ A1).
      split_and!; [rewrite put_inode_blk by (done || lia); rewrite (proj2 (Z.eqb_neq _ _)) by lia; done..|].
      intros bn Hbn. rewrite put_inode_blk by (done || lia). rewrite (proj2 (Z.eqb_neq _ _)) by lia. by apply N3.
Qed.

(** ialloc makes an empty file. *)
Definition empty_file (type : Z) : dfile := mkFile type [] [] (dn_addrs dnode0).

Lemma empty_ok D type : file_ok D (empty_file type).
Proof.
  destruct consts as (EN & EM & EB & EF & EM').
  assert (forall k, byte_at (dn_addrs dnode0) k = 0) as Hz.
  { intros k. unfold byte_at, dnode0. cbn [dn_addrs]. destruct (replicate _ 0 !! _) eqn:E; [|done]. by apply lookup_replicate in E as [-> _]. }
  constructor; cbn [empty_file f_addrs f_blocks f_bytes]; try done.
  intros k Hk. unfold faddr. rewrite !Hz. by destruct (_ <? _).
Qed.

Lemma store_snoc m fs type : store_inv m fs -> store_inv m (fs ++ [empty_file type]).
Proof.
  intros [S1 S2 S3 S4 S5 S6 S7 S8 S9]. assert (owned_all (fs ++ [empty_file type]) = owned_all fs) as E.
  { unfold owned_all. rewrite map_app, concat_app. cbn [map concat empty_file]. change (f_owned (mkFile type [] [] (dn_addrs dnode0))) with (@nil Z). by rewrite !app_nil_r. }
  constructor; rewrite ?E; try done. intros i f Hf. apply lookup_app_Some in Hf as [Hf|[_ Hf]]; [by eapply S9|].
  apply list_lookup_singleton_Some in Hf as [_ <-]. apply empty_ok.
Qed.

Lemma ialloc_run m fs type : mk_inv m fs -> Z.of_nat (length fs) < 223 -> 0 <= type < 2 ^ 15 ->
  exists m', mkfs_ialloc type m = Ret (1 + Z.of_nat (length fs)) m' /\ mk_inv m' (fs ++ [empty_file type]) /\ m_freeblock m' = m_freeblock m.
Proof.
  intros [S M1 M2 M3 M4 M5 M6] Hlt Hty. set (inum := 1 + Z.of_nat (length fs)). assert (0 <= inum < 224) as Hin by lia.
  set (m1 := set_freeinode (inum + 1) m). assert (store_inv m1 fs) as S1 by (by destruct S).
  pose proof (store_snoc _ _ type S1) as S2. assert ((fs ++ [empty_file type]) !! length fs = Some (empty_file type)) as Hnew.
  { by rewrite lookup_app_r, Nat.sub_diag by lia. }
  assert (dnode_fits (f_dnode (empty_file type))) as Hfit by (by eapply f_dnode_fits).
  exists (put_inode m1 inum (f_dnode (empty_file type))). split_and!; [| |done].
  - unfold mkfs_ialloc. erewrite bind_ret_eq by reflexivity. rewrite M1. fold inum. rewrite uint32_small by lia. erewrite bind_ret_eq by reflexivity.
    fold m1. rewrite !xshort_id, xint_id by lia. erewrite bind_ret_eq by (apply (winode_run m1); [apply S|apply S|apply S|done|exact Hfit]). reflexivity.
  - constructor.
    + by apply store_put_inode.
    + rewrite length_app. cbn. lia.
    + rewrite length_app. cbn. lia.
    + intros j g Hg. apply lookup_app_Some in Hg as [Hg|[Hj Hg]].
      * pose proof (lookup_lt_Some _ _ _ Hg). rewrite put_inode_other; [|apply S|apply S|done|done|lia|lia]. by apply (M3 j).
      * apply list_lookup_singleton_Some in Hg as [Hj' <-]. replace (1 + Z.of_nat j) with inum by lia. apply put_inode_same; try done; apply S.
    + intros j g Hg. apply lookup_app_Some in Hg as [Hg|[_ Hg]]; [by eapply M4|]. by apply list_lookup_singleton_Some in Hg as [_ <-].
    + intros j Hj. rewrite length_app in Hj. cbn [length] in Hj. rewrite put_inode_other; [|apply S|apply S|done|done|lia|lia]. apply M5. lia.
    + destruct (mk_iblock_range _ Hin) as [_ Hr]. destruct M6 as (N1 & N2 & N3). pose proof (si_len _ _ S1).
      split_and!; [rewrite put_inode_blk by (done || lia); rewrite (proj2 (Z.eqb_neq _ _)) by lia; done..|].
      intros bn Hbn. rewrite put_inode_blk by (done || lia). rewrite (proj2 (Z.eqb_neq _ _)) by lia. by apply N3.
Qed.
