(* ===== verification/MkfsImage.v ===== *)
(** * The file system of the image *)
From S2P Require Import Prelude State Bytes Bio Fs FsData Mkfs MkfsSpec MkfsRun.

Open Scope Z_scope.

(** ** The empty image *)
Definition blank (i : Z) : mkfs := mkMkfs (replicate (Z.to_nat i) zero_block) sb_mkfs 1 nmeta.

Lemma blank_step i : 0 <= i < FSSIZE -> wsect i zero_block (blank i) = Ret tt (blank (i + 1)).
Proof.
  intros Hi. unfold wsect, uint32. rewrite Z.mod_small by (unfold BSIZE, FSSIZE in *; lia). rewrite Z.div_mul by done.
  unfold modify, blank, set_img. cbn [m_img m_sb m_freeinode m_freeblock]. rewrite length_replicate, (proj2 (Nat.ltb_ge _ _)), Nat.sub_diag by lia.
  do 2 f_equal. replace (Z.to_nat (i + 1)) with (S (Z.to_nat i)) by lia. by rewrite replicate_S_end.
Qed.

Lemma blank_all : for_all (seqZ 0 FSSIZE) (fun i => wsect i zero_block) (blank 0) = Ret tt (blank FSSIZE).
Proof.
  destruct (for_all_inv FSSIZE (fun i => wsect i zero_block) (fun i m => m = blank i) (blank 0)) as (m & E & ->); [done|done| |done].
  intros i m Hi ->. eexists. split; [by apply blank_step|done].
Qed.

Lemma dnode_zero inum : dnode_of zero_block inum = dnode0.
Proof.
  pose proof (dip_off_range inum) as [R1 R2]. unfold dnode_of, di_type, di_major, di_minor, di_nlink, di_size, di_addrs, ld16, ld32. rewrite !ld_zero by lia.
  unfold dnode0. f_equal. apply list_eq. intros k. rewrite list_lookup_fmap. change (NDIRECT + 1) with 13. change (Z.to_nat NDIRECT + 1)%nat with 13%nat.
  destruct (decide (k < 13)%nat) as [Hk|Hk].
  - rewrite lookup_seqZ_lt by lia. cbn [fmap option_fmap option_map]. rewrite ld_zero by lia. symmetry. by apply lookup_replicate_2.
  - rewrite lookup_seqZ_ge by lia. rewrite lookup_ge_None_2; [done|]. rewrite length_replicate. lia.
Qed.

Definition fresh_image : mkfs := wrote 1 (splice zero_block 0 (sb_bytes sb_mkfs)) (blank FSSIZE).

Lemma fresh_blk b : 0 <= b < FSSIZE -> blk fresh_image b = if b =? 1 then splice zero_block 0 (sb_bytes sb_mkfs) else zero_block.
Proof.
  intros Hb. assert (Z.of_nat (length (m_img (blank FSSIZE))) = FSSIZE) as El by (cbn [blank m_img]; by rewrite length_replicate).
  unfold fresh_image. rewrite blk_wrote by (rewrite ?El; unfold FSSIZE in *; lia). destruct (b =? 1); [done|].
  unfold blk, blank. cbn [m_img]. rewrite lookup_replicate_2; [done|]. lia.
Qed.

Lemma fresh_inv : mk_inv fresh_image [].
Proof.
  constructor; try done.
  - constructor; try done.
    + intros bn Hbn. rewrite fresh_blk by done. destruct (bn =? 1); [|apply length_replicate]. rewrite splice_length; [apply length_replicate|].
      change (length (sb_bytes sb_mkfs)) with 32%nat. unfold zero_block, BSIZE. rewrite length_replicate. lia.
    + intros bn Hbn. change (m_freeblock fresh_image) with 47 in Hbn. rewrite fresh_blk by lia. by rewrite (proj2 (Z.eqb_neq _ _)) by lia.
    + by intros b Hb%not_elem_of_nil.
    + constructor.
  - intros inum Hin. cbn [length] in Hin. unfold inode_at. destruct (mk_iblock_range inum) as [_ Hr]; [lia|]. rewrite fresh_blk by (unfold FSSIZE; lia).
    rewrite (proj2 (Z.eqb_neq _ _)) by lia. apply dnode_zero.
  - split_and!; try done. intros bn Hbn. rewrite fresh_blk by (unfold FSSIZE; lia). by rewrite (proj2 (Z.eqb_neq _ _)) by lia.
Qed.

(** ** Space *)
Definition total (fs : list dfile) : Z := foldr (fun f n => need (f_len f) + n) 0 fs.

Lemma free_total m fs : mk_inv m fs -> m_freeblock m = nmeta + total fs.
Proof.
  intros [S _ _ _ M4 _ _]. rewrite (si_count _ _ S). f_equal. pose proof (fun i f Hi => tight_need _ f (si_files _ _ S i f Hi) (proj1 (M4 i f Hi))) as H. clear -H.
  unfold owned_all. induction fs as [|f fs IH]; [done|]. cbn [map concat total foldr]. rewrite length_app, Nat2Z.inj_add, (H 0%nat f eq_refl). f_equal.
  apply IH. intros i g Hi. by apply (H (S i)).
Qed.

Lemma total_insert fs i f f' : fs !! i = Some f -> total (<[i := f']> fs) = total fs + need (f_len f') - need (f_len f).
Proof.
  revert i. induction fs as [|g fs IH]; intros [|i] Hi; try done; cbn in *; [injection Hi as ->; lia|]. specialize (IH i Hi). unfold total, insert in *. lia.
Qed.

Lemma total_app fs fs' : total (fs ++ fs') = total fs + total fs'.
Proof. induction fs as [|f fs IH]; cbn [app total foldr]; [done|]. unfold total in *. lia. Qed.

(** ** The files *)
Definition content (h : hostfile) : list Z := match hf_reads h with Some pieces => concat pieces | None => [] end.
Definition file_name (h : hostfile) : list Z := skip_underscore (shortname (hf_arg h)).

(** An argument mkfs accepts. *)
Definition host_ok (h : hostfile) : Prop :=
  hf_reads h <> None /\ slash ∉ shortname (hf_arg h) /\ Z.of_nat (length (file_name h)) <= DIRSIZ
  /\ Z.of_nat (length (content h)) <= MAXFILE * BSIZE.

(** The root directory with these names. *)
Definition root_entry (j : nat) (name : list Z) : list Z := dirent_bytes (2 + Z.of_nat j) name.
Definition root_bytes (names : list (list Z)) : list Z := dirent_bytes 1 dot ++ dirent_bytes 1 dotdot ++ concat (imap root_entry names).

Lemma dirent_bytes_length inum name : length (dirent_bytes inum name) = 16%nat.
Proof. unfold dirent_bytes. rewrite length_app, enc_length, lstrncpy_length. done. Qed.

Lemma root_bytes_length names : Z.of_nat (length (root_bytes names)) = 16 * (2 + Z.of_nat (length names)).
Proof.
  unfold root_bytes. rewrite !length_app, !dirent_bytes_length. enough (forall k, length (concat (imap (fun j => root_entry (k + j)) names)) = (16 * length names)%nat) as H.
  { specialize (H 0%nat). cbn [plus] in H. change (imap (fun j => root_entry j) names) with (imap root_entry names) in H. lia. }
  induction names as [|n names IH]; intros k; [done|]. cbn [imap concat]. rewrite length_app. unfold root_entry at 1. rewrite dirent_bytes_length.
  rewrite (imap_ext (((fun j => root_entry (k + j)) ∘ S)) (fun j => root_entry (S k + j)) names) by (intros j x _; simpl; f_equal; lia). rewrite IH. simpl. lia.
Qed.

Lemma root_bytes_snoc names name : root_bytes (names ++ [name]) = root_bytes names ++ dirent_bytes (2 + Z.of_nat (length names)) name.
Proof.
  unfold root_bytes. rewrite imap_app, concat_app. cbn [imap concat]. unfold root_entry at 2. unfold compose. rewrite Nat.add_0_r, app_nil_r, <- !app_assoc. done.
Qed.

(** The pieces of a file are appended one by one. *)
Lemma pieces_run pieces : forall m fs i f, mk_inv m fs -> fs !! i = Some f ->
  f_len f + Z.of_nat (length (concat pieces)) <= MAXFILE * BSIZE ->
  nmeta + total fs + need (f_len f + Z.of_nat (length (concat pieces))) - need (f_len f) <= FSSIZE ->
  exists m' f', for_all pieces (iappend (1 + Z.of_nat i)) m = Ret tt m' /\ mk_inv m' (<[i := f']> fs) /\ f_bytes f' = f_bytes f ++ concat pieces /\ f_type f' = f_type f.
Proof.
  induction pieces as [|p pieces IH]; intros m fs i f I Hi Hmax Hroom; cbn [concat for_all] in *.
  - exists m, f. rewrite list_insert_id, app_nil_r by done. done.
  - rewrite length_app in Hmax, Hroom. assert (0 <= f_len f) as H0 by (unfold f_len; lia).
    destruct (iappend_run m fs i f p I Hi) as (m1 & f1 & R1 & I1 & B1 & T1); [lia| |].
    { rewrite (free_total _ _ I). pose proof (need_mono (f_len f + Z.of_nat (length p)) (f_len f + Z.of_nat (length p + length (concat pieces))) ltac:(lia)). lia. }
    assert (f_len f1 = f_len f + Z.of_nat (length p)) as L1 by (unfold f_len; rewrite B1, length_app; lia).
    assert (<[i := f1]> fs !! i = Some f1) as Hi1 by (apply list_lookup_insert_eq; by eapply lookup_lt_Some).
    destruct (IH m1 (<[i := f1]> fs) i f1 I1 Hi1) as (m2 & f2 & R2 & I2 & B2 & T2).
    + lia.
    + rewrite (total_insert _ _ _ f1 Hi), L1. replace (f_len f + Z.of_nat (length p) + Z.of_nat (length (concat pieces))) with (f_len f + Z.of_nat (length p + length (concat pieces))) by lia. lia.
    + exists m2, f2. erewrite bind_ret_eq by exact R1. rewrite list_insert_insert_eq in I2. split_and!; [done|done| |congruence]. by rewrite B2, B1, app_assoc.
Qed.

(** The file of an argument, given what was added before. *)
Definition is_file (f : dfile) (h : hostfile) : Prop := f_type f = T_FILE /\ f_bytes f = content h.

(** mkfs after the arguments [hs]. *)
Record added (m : mkfs) (hs : list hostfile) (root : dfile) (fs : list dfile) : Prop := {
  ad_inv : mk_inv m (root :: fs);
  ad_root : f_type root = T_DIR /\ f_bytes root = root_bytes (map file_name hs);
  ad_files : Forall2 is_file fs hs }.

Definition space (hs : list hostfile) : Z := foldr (fun h n => need (Z.of_nat (length (content h))) + n) 0 hs.

Lemma space_app a b : space (a ++ b) = space a + space b.
Proof. induction a as [|h a IH]; cbn [app space foldr]; [done|]. unfold space in *. lia. Qed.

Lemma space_nonneg hs : 0 <= space hs.
Proof.
  induction hs as [|h hs IH]; cbn [space foldr]; [done|]. fold (space hs). pose proof (need_mono 0 (Z.of_nat (length (content h))) ltac:(lia)) as H. change (need 0) with 0 in H. lia.
Qed.

Lemma added_total m hs root fs : added m hs root fs -> total (root :: fs) = need (16 * (2 + Z.of_nat (length hs))) + space hs.
Proof.
  intros [_ [_ Hb] HF]. cbn [total foldr]. fold (total fs). assert (f_len root = 16 * (2 + Z.of_nat (length hs))) as ->.
  { unfold f_len. by rewrite Hb, root_bytes_length, length_map. }
  f_equal. clear Hb. induction HF as [|f h fs hs [_ E] _ IH]; [done|]. cbn [total foldr space]. fold (total fs). fold (space hs). rewrite IH.
  unfold f_len. by rewrite E.
Qed.

Lemma add_file_run m hs root fs h : added m hs root fs -> host_ok h -> Z.of_nat (length hs) < 222 ->
  nmeta + need (16 * (3 + Z.of_nat (length hs))) + space (hs ++ [h]) <= FSSIZE ->
  exists m' root' fs', add_file 1 h m = Ret tt m' /\ added m' (hs ++ [h]) root' fs'.
Proof.
  intros A (Hopen & Hslash & Hname & Hlen) Hmax Hroom. pose proof (added_total _ _ _ _ A) as Htot. destruct A as [I [Rt Rb] HF].
  pose proof (Forall2_length _ _ _ HF) as Lfs. destruct (hf_reads h) as [pieces|] eqn:Er; [|done].
  assert (content h = concat pieces) as Ec by (unfold content; by rewrite Er). rewrite Ec in Hlen.
  rewrite space_app in Hroom. cbn [space foldr] in Hroom. rewrite Ec, Z.add_0_r in Hroom.
  destruct (ialloc_run m (root :: fs) T_FILE I) as (m1 & R1 & I1 & _); [cbn [length]; lia|done|]. cbn [length app] in *.
  set (inum := 1 + Z.of_nat (S (length fs))) in *.
  pose proof (need_mono 0 (Z.of_nat (length (concat pieces))) ltac:(lia)) as Hn0. change (need 0) with 0 in Hn0.
  assert (f_len root = 16 * (2 + Z.of_nat (length hs))) as Lr by (unfold f_len; rewrite Rb, root_bytes_length, length_map; done).
  assert (total (root :: fs ++ [empty_file T_FILE]) = total (root :: fs)) as Et.
  { change (root :: fs ++ [empty_file T_FILE]) with ((root :: fs) ++ [empty_file T_FILE]). rewrite total_app. change (total [empty_file T_FILE]) with 0. lia. }
  destruct (iappend_run m1 (root :: fs ++ [empty_file T_FILE]) 0 root (dirent_bytes inum (file_name h)) I1 eq_refl) as (m2 & r2 & R2 & I2 & B2 & T2).
  { rewrite dirent_bytes_length, Lr. change (MAXFILE * BSIZE) with 274432. lia. }
  { rewrite (free_total _ _ I1), Et, Htot, dirent_bytes_length, Lr. replace (16 * (2 + Z.of_nat (length hs)) + Z.of_nat 16) with (16 * (3 + Z.of_nat (length hs))) by lia. lia. }
  cbn [insert list_insert] in I2.
  assert (f_len r2 = 16 * (3 + Z.of_nat (length hs))) as Lr2 by (unfold f_len in *; rewrite B2, length_app, dirent_bytes_length; lia).
  assert ((r2 :: fs ++ [empty_file T_FILE]) !! S (length fs) = Some (empty_file T_FILE)) as Hnew by (simpl; by rewrite lookup_app_r, Nat.sub_diag by lia).
  destruct (pieces_run pieces m2 (r2 :: fs ++ [empty_file T_FILE]) (S (length fs)) (empty_file T_FILE) I2 Hnew) as (m3 & f3 & R3 & I3 & B3 & T3).
  { change (f_len (empty_file T_FILE)) with 0. lia. }
  { change (f_len (empty_file T_FILE)) with 0. change (need 0) with 0. change (r2 :: fs ++ [empty_file T_FILE]) with (<[0%nat := r2]> (root :: fs ++ [empty_file T_FILE])).
    rewrite (total_insert _ 0%nat root), Et, Htot, Lr2, Lr by done. rewrite Z.add_0_l. lia. }
  exists m3, r2, (fs ++ [f3]). split.
  - unfold add_file. fold (file_name h). rewrite bool_decide_true by done. erewrite bind_ret_eq by reflexivity. rewrite Er. rewrite (proj2 (Z.leb_le _ _) Hname).
    erewrite bind_ret_eq by reflexivity. erewrite bind_ret_eq by exact R1. erewrite bind_ret_eq by exact R2. exact R3.
  - constructor.
    + replace (r2 :: fs ++ [f3]) with (<[S (length fs) := f3]> (r2 :: fs ++ [empty_file T_FILE])); [done|]. change (<[S (length fs) := f3]> (r2 :: ?l)) with (r2 :: <[length fs := f3]> l).
      by rewrite insert_app_r_alt, Nat.sub_diag by lia.
    + split; [congruence|]. rewrite B2, Rb, map_app. cbn [map]. rewrite root_bytes_snoc, length_map. do 2 f_equal. unfold inum. lia.
    + apply Forall2_app; [done|]. constructor; [|constructor]. split; [by rewrite T3|]. by rewrite B3, Ec.
Qed.

Lemma add_files_run todo : forall m hs root fs, added m hs root fs -> Forall host_ok todo -> Z.of_nat (length (hs ++ todo)) <= 222 ->
  nmeta + need (16 * (2 + Z.of_nat (length (hs ++ todo)))) + space (hs ++ todo) <= FSSIZE ->
  exists m' root' fs', for_all todo (add_file 1) m = Ret tt m' /\ added m' (hs ++ todo) root' fs'.
Proof.
  induction todo as [|h todo IH]; intros m hs root fs A Hok Hmax Hroom; cbn [for_all].
  - rewrite app_nil_r. eauto.
  - apply Forall_cons in Hok as [Hh Hok]. assert (hs ++ h :: todo = (hs ++ [h]) ++ todo) as E by (by rewrite <- app_assoc). rewrite E in *.
    destruct (add_file_run m hs root fs h A Hh) as (m1 & r1 & fs1 & R1 & A1).
    + rewrite !length_app in Hmax. cbn [length] in Hmax. lia.
    + rewrite space_app in Hroom. pose proof (space_nonneg todo). rewrite !length_app in Hroom. cbn [length] in Hroom.
      pose proof (need_mono (16 * (3 + Z.of_nat (length hs))) (16 * (2 + Z.of_nat (length hs + 1 + length todo))) ltac:(lia)). lia.
    + destruct (IH m1 (hs ++ [h]) r1 fs1 A1 Hok Hmax Hroom) as (m2 & r2 & fs2 & R2 & A2). exists m2, r2, fs2. split; [|done].
      by erewrite bind_ret_eq by exact R1.
Qed.

(** ** The bitmap *)
Lemma set_bits_length n : forall i buf, length (set_bits n i buf) = length buf.
Proof. induction n as [|n IH]; intros i buf; [done|]. cbn [set_bits]. by rewrite IH, length_insert. Qed.

Lemma set_bits_spec n : forall i buf b, 0 <= i -> i + Z.of_nat n <= 8 * Z.of_nat (length buf) -> 0 <= b ->
  bit (set_bits n i buf) b = bit buf b || ((i <=? b) && (b <? i + Z.of_nat n)).
Proof.
  induction n as [|n IH]; intros i buf b Hi Hl Hb; cbn [set_bits].
  - destruct (Z.leb_spec i b), (Z.ltb_spec b (i + Z.of_nat 0)); rewrite ?orb_false_r; try done; lia.
  - rewrite IH by (rewrite ?length_insert; lia). rewrite set_bit_spec by dlia. rewrite <- orb_assoc. f_equal.
    destruct (Z.eqb_spec b i), (Z.leb_spec (i + 1) b), (Z.ltb_spec b (i + 1 + Z.of_nat n)), (Z.leb_spec i b), (Z.ltb_spec b (i + Z.of_nat (S n))); try done; lia.
Qed.

(** Bits that are set later do not change the bytes before them. *)
Lemma set_bits_before n : forall i buf j, 0 <= j -> 8 * (j + 1) <= i -> byte_at (set_bits n i buf) j = byte_at buf j.
Proof.
  induction n as [|n IH]; intros i buf j Hj Hi; [done|]. cbn [set_bits]. rewrite IH by lia. unfold byte_at. rewrite list_lookup_insert_ne; [done|]. apply not_eq_sym. intros E. apply Z2Nat.inj in E; dlia.
Qed.
Lemma set_bits_add a : forall b i buf, set_bits (a + b) i buf = set_bits b (i + Z.of_nat a) (set_bits a i buf).
Proof. induction a as [|a IH]; intros b i buf; [by rewrite Z.add_0_r|]. cbn [set_bits Nat.add]. rewrite IH. f_equal. lia. Qed.

Lemma bit_zero b : bit zero_block b = false.
Proof. unfold bit, byte_at, zero_block. destruct (replicate _ 0 !! _) eqn:E; [apply lookup_replicate in E as [-> _]|]; apply Z.testbit_0_l. Qed.

(** The blocks of the files are those after the metadata, without a gap. *)
Lemma owned_perm m fs : store_inv m fs -> owned_all fs ≡ₚ seqZ nmeta (m_freeblock m - nmeta).
Proof.
  intros S. apply submseteq_length_Permutation.
  - apply NoDup_submseteq; [apply S|]. intros b Hb%(si_range _ _ S). apply elem_of_seqZ. lia.
  - rewrite length_seqZ, (si_count _ _ S). lia.
Qed.

(** ** The image *)
(** The size of the root directory after mkfs rounded it up. *)
Definition root_size (n : Z) : Z := (16 * (2 + n) / BSIZE + 1) * BSIZE.

(** What the blocks [D] of an image with the files [hs] contain: [root] and [fs]
    say where the root directory and the files are. *)
Record image (D : Z -> list Z) (hs : list hostfile) (root : dfile) (fs : list dfile) : Prop := {
  im_sb : sb_of (D 1) = mkSuperblock FSMAGIC 2000 1953 200 31 2 33 46;
  im_log : forall bn, 2 <= bn < 33 -> D bn = zero_block;
  im_root : dnode_of (D (IBLOCK 1 sb_mkfs)) 1 = mkDnode T_DIR 0 0 1 (root_size (Z.of_nat (length hs))) (f_addrs root);
  im_inode : forall j f, fs !! j = Some f -> dnode_of (D (IBLOCK (2 + Z.of_nat j) sb_mkfs)) (2 + Z.of_nat j) = f_dnode f;
  im_free : forall inum, 2 + Z.of_nat (length fs) <= inum < 208 -> dnode_of (D (IBLOCK inum sb_mkfs)) inum = dnode0;
  im_files : Forall (file_ok D) (root :: fs);
  im_entries : f_bytes root = root_bytes (map file_name hs);
  im_contents : Forall2 is_file fs hs;
  im_own : NoDup (owned_all (root :: fs)) /\ Forall (fun b => nmeta <= b < FSSIZE) (owned_all (root :: fs));
  im_bitmap : forall b, 0 <= b < FSSIZE -> bit (D 46) b = (b <? nmeta) || bool_decide (b ∈ owned_all (root :: fs));
  im_sized : forall bn, 0 <= bn < FSSIZE -> length (D bn) = Z.to_nat BSIZE }.

(** The last two steps of main. *)
Section Finish.
Context (m : mkfs) (hs : list hostfile) (root : dfile) (fs : list dfile) (A : added m hs root fs).

Let rsize := root_size (Z.of_nat (length hs)).
Let droot := mkDnode T_DIR 0 0 1 rsize (f_addrs root).
Definition sized_root : mkfs := put_inode m 1 droot.
Definition final : mkfs := wrote 46 (set_bits (Z.to_nat (m_freeblock m)) 0 zero_block) sized_root.

Lemma fin_count : Z.of_nat (length hs) <= 222.
Proof. pose proof (Forall2_length _ _ _ (ad_files _ _ _ _ A)). pose proof (mi_max _ _ (ad_inv _ _ _ _ A)). cbn [length] in *. lia. Qed.

Lemma fin_root_len : f_len root = 16 * (2 + Z.of_nat (length hs)).
Proof. unfold f_len. by rewrite (proj2 (ad_root _ _ _ _ A)), root_bytes_length, length_map. Qed.

Lemma droot_fits : dnode_fits droot.
Proof.
  pose proof (ad_inv _ _ _ _ A) as I. destruct (f_dnode_fits m (root :: fs) 0 root (mi_store _ _ I) eq_refl) as [_ _ H3 H4].
  { by rewrite (proj1 (ad_root _ _ _ _ A)). }
  pose proof fin_count. constructor; cbn [droot dn_type dn_major dn_minor dn_nlink dn_size dn_addrs]; try done; [repeat constructor; done|].
  unfold rsize, root_size, BSIZE. dlia.
Qed.

Lemma fin_store : store_inv sized_root (root :: fs).
Proof. apply store_put_inode; [apply A|lia|apply droot_fits]. Qed.

Lemma fix_root_run : fix_root_size 1 m = Ret tt sized_root.
Proof.
  pose proof (ad_inv _ _ _ _ A) as I. pose proof (mi_store _ _ I) as S. pose proof fin_count as Hc. unfold fix_root_size.
  erewrite bind_ret_eq by (apply rinode_run; [apply S|apply S|lia]). rewrite (mi_inode _ _ I 0%nat root eq_refl : inode_at m 1 = _).
  change (dn_size (f_dnode root)) with (f_len root). rewrite (xint_id (f_len root)) by (rewrite fin_root_len; lia). rewrite fin_root_len. fold rsize.
  assert (0 <= rsize < 2 ^ 32) as Hr by (unfold rsize, root_size, BSIZE; dlia). fold (root_size (Z.of_nat (length hs))). fold rsize. rewrite xint_id by done.
  replace (set_size rsize (f_dnode root)) with droot by (unfold set_size, f_dnode, droot; cbn; by rewrite (proj1 (ad_root _ _ _ _ A))).
  apply winode_run; [apply S|apply S|apply S|lia|apply droot_fits].
Qed.

Lemma bitmap_run : mkfs_balloc (m_freeblock m) sized_root = Ret tt final.
Proof.
  pose proof (mi_store _ _ (ad_inv _ _ _ _ A)) as S. pose proof (si_room _ _ S) as Hr. unfold FSSIZE in Hr. unfold mkfs_balloc. rewrite (proj2 (Z.ltb_lt _ _)) by (unfold BPB, BSIZE; lia).
  erewrite bind_ret_eq by reflexivity. erewrite bind_ret_eq by reflexivity. change (m_sb sized_root) with (m_sb m). rewrite (si_sb _ _ S).
  change (sb_bmapstart sb_mkfs) with 46. apply wsect_run; rewrite (si_len _ _ fin_store); unfold FSSIZE; lia.
Qed.

Lemma final_blk b : 0 <= b -> blk final b = if b =? 46 then set_bits (Z.to_nat (m_freeblock m)) 0 zero_block else blk sized_root b.
Proof. intros Hb. apply blk_wrote; [|done]. rewrite (si_len _ _ fin_store). unfold FSSIZE. lia. Qed.

Lemma final_inode inum : 0 <= inum < 208 -> dnode_of (blk final (IBLOCK inum sb_mkfs)) inum = if inum =? 1 then droot else inode_at m inum.
Proof.
  intros Hi. pose proof (mk_iblock_low inum Hi) as Hr. rewrite final_blk by lia. rewrite (proj2 (Z.eqb_neq _ 46)) by lia.
  fold (inode_at sized_root inum). pose proof (mi_store _ _ (ad_inv _ _ _ _ A)) as S.
  destruct (Z.eqb_spec inum 1) as [->|Hne]; [apply put_inode_same|apply put_inode_other]; try apply S; try apply droot_fits; lia.
Qed.

Lemma used_blocks : nmeta <= m_freeblock m <= FSSIZE.
Proof. pose proof (mi_store _ _ (ad_inv _ _ _ _ A)) as S. pose proof (fb_range _ _ S). pose proof (si_room _ _ S). lia. Qed.

(** The inodes past the inode blocks are bytes of the bitmap. *)
Lemma final_bitmap_inode : dn_type (dnode_of (blk final (IBLOCK 208 sb_mkfs)) 208) = -1.
Proof.
  change (IBLOCK 208 sb_mkfs) with 46. rewrite final_blk, Z.eqb_refl by done. pose proof used_blocks as [Hu _]. change nmeta with 47 in Hu.
  replace (Z.to_nat (m_freeblock m)) with (16 + (Z.to_nat (m_freeblock m) - 16))%nat by lia. rewrite set_bits_add.
  set (buf := set_bits (_ - 16) _ _). assert (byte_at buf 0 = 255 /\ byte_at buf 1 = 255) as [B0 B1] by (unfold buf; split; (rewrite set_bits_before by (cbn; lia); vm_compute; reflexivity)).
  assert (length buf = 1024%nat) as Hl by (unfold buf; rewrite !set_bits_length; apply length_replicate). clearbody buf.
  destruct buf as [|b0 [|b1 buf]]; [done..|]. change (b0 = 255) in B0. change (b1 = 255) in B1. rewrite B0, B1. cbn [dn_type dnode_of]. unfold di_type. change (dip_off 208) with 0. reflexivity.
Qed.

Lemma final_image : Z.of_nat (length hs) <= 206 -> image (blk final) hs root fs.
Proof.
  intros Hmax.
  pose proof (ad_inv _ _ _ _ A) as [S M1 M2 M3 M4 M5 (N1 & N2 & N3)]. pose proof fin_store as S'. destruct A as [_ [Rt Rb] HF]. pose proof (Forall2_length _ _ _ HF) as Hlen.
  assert (forall b, 0 <= b -> b <> 46 -> ~ 33 <= b < 46 -> blk final b = blk m b) as Esame.
  { intros b Hb H46 Hin. rewrite final_blk, (proj2 (Z.eqb_neq _ _) H46) by done. unfold sized_root. rewrite put_inode_blk; [|apply S|lia|done].
    destruct (mk_iblock_range 1) as [_ Hr]; [lia|]. by rewrite (proj2 (Z.eqb_neq _ _)) by lia. }
  pose proof (si_room _ _ S) as Hroom. pose proof (fb_range _ _ S) as [Hf1 Hf2]. cbn [length] in M2, M5.
  constructor; try done.
  - rewrite Esame, N2 by lia. vm_compute. reflexivity.
  - intros bn Hbn. rewrite Esame by lia. by apply N3.
  - rewrite final_inode by lia. done.
  - intros j f Hf. pose proof (lookup_lt_Some _ _ _ Hf). rewrite final_inode by lia. rewrite (proj2 (Z.eqb_neq _ _)) by lia.
    replace (2 + Z.of_nat j) with (1 + Z.of_nat (Datatypes.S j)) by lia. by apply M3.
  - intros inum Hin. rewrite final_inode by lia. rewrite (proj2 (Z.eqb_neq _ _)) by lia. apply M5. lia.
  - apply Forall_lookup. intros i f Hf. apply (file_ok_ext (blk sized_root)); [|by eapply (si_files _ _ S')]. intros b Hb.
    assert (b ∈ owned_all (root :: fs)) as Hb' by (by eapply owned_in). apply (si_range _ _ S) in Hb'. rewrite final_blk by lia. by rewrite (proj2 (Z.eqb_neq _ _)) by lia.
  - split; [apply S|]. apply Forall_forall. intros b Hb%(si_range _ _ S). lia.
  - intros b Hb. rewrite final_blk, Z.eqb_refl by lia. assert (length zero_block = 1024%nat) as Lz by (apply length_replicate). unfold FSSIZE in *.
    rewrite set_bits_spec by (rewrite ?Lz; lia). rewrite bit_zero. rewrite (proj2 (Z.leb_le 0 b)) by lia. cbn [orb andb]. rewrite Z.add_0_l, Z2Nat.id by lia.
    pose proof (owned_perm _ _ S) as HP. destruct (Z.ltb_spec b nmeta), (Z.ltb_spec b (m_freeblock m)); try done; try lia; symmetry; cbn [orb].
    + apply bool_decide_eq_true. rewrite HP. apply elem_of_seqZ. lia.
    + apply bool_decide_eq_false. rewrite HP, elem_of_seqZ. lia.
  - intros bn Hbn. rewrite final_blk by lia. destruct (bn =? 46); [rewrite set_bits_length; apply length_replicate|by apply S'].
Qed.
End Finish.

(** ** main *)

Lemma mkfs_files_run (hs : list hostfile) :
  Forall host_ok hs -> Z.of_nat (length hs) <= 222 ->
  nmeta + need (16 * (2 + Z.of_nat (length hs))) + space hs <= FSSIZE ->
  exists m root fs, mkfs_main hs mkfs0 = Ret tt (final m hs root) /\ added m hs root fs.
Proof.
  intros Hok Hmax Hroom.
  destruct (ialloc_run fresh_image [] T_DIR fresh_inv) as (m1 & R1 & I1 & _); [done|done|]. cbn [length app] in *.
  pose proof (free_total _ _ I1) as F1. change (total [empty_file T_DIR]) with 0 in F1.
  destruct (iappend_run m1 [empty_file T_DIR] 0 (empty_file T_DIR) (dirent_bytes 1 dot) I1 eq_refl) as (m2 & r2 & R2 & I2 & B2 & T2); [done|by rewrite F1|].
  pose proof (free_total _ _ I2) as F2. cbn in I2, F2. assert (f_len r2 = 16) as L2 by (unfold f_len; rewrite B2, length_app; done). rewrite L2 in F2.
  destruct (iappend_run m2 [r2] 0 r2 (dirent_bytes 1 dotdot) I2 eq_refl) as (m3 & r3 & R3 & I3 & B3 & T3); [by rewrite L2|by rewrite F2, L2|]. cbn in I3.
  assert (added m3 [] r3 []) as A3.
  { constructor; [done| |constructor]. split; [by rewrite T3, T2|]. by rewrite B3, B2. }
  destruct (add_files_run hs m3 [] r3 [] A3 Hok Hmax Hroom) as (m4 & r4 & fs & R4 & A4). cbn [app] in A4.
  exists m4, r4, fs. split; [|done].
  unfold mkfs_main. erewrite bind_ret_eq by reflexivity. erewrite bind_ret_eq by reflexivity. erewrite bind_ret_eq by exact blank_all.
  erewrite bind_ret_eq by reflexivity. erewrite bind_ret_eq by (apply wsect_run; cbn [blank m_img]; rewrite length_replicate; unfold FSSIZE; lia).
  erewrite bind_ret_eq by exact R1. erewrite bind_ret_eq by reflexivity. erewrite bind_ret_eq by exact R2. erewrite bind_ret_eq by exact R3.
  erewrite bind_ret_eq by exact R4. erewrite bind_ret_eq by (by eapply fix_root_run). erewrite bind_ret_eq by reflexivity.
  change (m_freeblock (sized_root m4 hs r4)) with (m_freeblock m4). by eapply bitmap_run.
Qed.

Lemma mkfs_run (hs : list hostfile) :
  Forall host_ok hs -> Z.of_nat (length hs) <= 206 ->
  nmeta + need (16 * (2 + Z.of_nat (length hs))) + space hs <= FSSIZE ->
  exists m root fs, mkfs_main hs mkfs0 = Ret tt m /\ image (blk m) hs root fs.
Proof. intros Hok Hmax Hroom. destruct (mkfs_files_run hs Hok ltac:(lia) Hroom) as (m & root & fs & E & A). exists (final m hs root), root, fs. split; [done|by apply final_image]. Qed.

(** C19: Given at most 206 files with names of at most 14 characters, none larger
    than MAXFILE blocks, that fit the disk, mkfs ends and its image is a file
    system: the superblock describes it, the log is empty, the root directory lists
    each file under its name, each inode leads to the bytes of its file, no block
    is used twice, and the bitmap marks exactly the blocks in use. *)
Theorem mkfs_builds_file_system (hs : list hostfile) :
  Forall host_ok hs -> Z.of_nat (length hs) <= 206 ->
  nmeta + need (16 * (2 + Z.of_nat (length hs))) + space hs <= FSSIZE ->
  exists m root fs, mkfs_main hs mkfs0 = Ret tt m /\ image (blk m) hs root fs.
Proof. apply mkfs_run. Qed.

Definition demo_files : list hostfile :=
  [mkHostfile [82; 69; 65; 68; 77; 69] (Some [[104; 105; 10]]); mkHostfile (user_ ++ [95; 99; 97; 116]) (Some [replicate 1024 7; replicate 100 8])].

Lemma mkfs_builds_file_system_witness : map file_name demo_files = [[82; 69; 65; 68; 77; 69]; [99; 97; 116]]
  /\ exists m root fs, mkfs_main demo_files mkfs0 = Ret tt m /\ image (blk m) demo_files root fs.
Proof.
  split; [reflexivity|]. apply (mkfs_builds_file_system demo_files).
  - repeat constructor; cbn; try done; intros H; repeat (apply elem_of_cons in H as [H|H]; [done|]); by apply not_elem_of_nil in H.
  - vm_compute. discriminate.
  - vm_compute. discriminate.
Defined.

(** C40: mkfs does not check that the inodes suffice.  Given 207 to 222 files with names of
    at most 14 characters, none larger than MAXFILE blocks, that fit the disk, it ends
    without an error; but the inode of the 207th file, number 208, is in the bitmap block,
    which is written after it, and on the image that inode has the type -1. *)
Theorem mkfs_inode_overflow (hs : list hostfile) :
  Forall host_ok hs -> 207 <= Z.of_nat (length hs) <= 222 ->
  nmeta + need (16 * (2 + Z.of_nat (length hs))) + space hs <= FSSIZE ->
  exists m, mkfs_main hs mkfs0 = Ret tt m /\ 2 + 206 < m_freeinode m /\ dn_type (dnode_of (blk m (IBLOCK 208 sb_mkfs)) 208) = -1.
Proof.
  intros Hok Hn Hroom. destruct (mkfs_files_run hs Hok ltac:(lia) Hroom) as (m & root & fs & E & A). exists (final m hs root). split_and!; [done| |by eapply final_bitmap_inode].
  change (m_freeinode (final m hs root)) with (m_freeinode m). rewrite (mi_count _ _ (ad_inv _ _ _ _ A)). cbn [length]. pose proof (Forall2_length _ _ _ (ad_files _ _ _ _ A)). lia.
Qed.

Definition host_check (h : hostfile) : bool :=
  bool_decide (hf_reads h <> None) && bool_decide (slash ∉ shortname (hf_arg h)) && (Z.of_nat (length (file_name h)) <=? DIRSIZ) && (Z.of_nat (length (content h)) <=? MAXFILE * BSIZE).
Lemma host_check_ok hs : forallb host_check hs = true -> Forall host_ok hs.
Proof.
  intros H. apply Forall_forall. intros h Hh%list_elem_of_In. rewrite forallb_forall in H. specialize (H h Hh). unfold host_check in H. rewrite !andb_true_iff, !bool_decide_eq_true, !Z.leb_le in H. unfold host_ok. tauto.
Qed.

(** The [n]-th of many empty files. *)
Definition nth_file (n : Z) : hostfile := mkHostfile [97 + n / 26; 97 + n mod 26] (Some []).

Lemma mkfs_inode_overflow_witness : exists m, mkfs_main (map nth_file (seqZ 0 207)) mkfs0 = Ret tt m /\ dn_type (dnode_of (blk m (IBLOCK 208 sb_mkfs)) 208) = -1.
Proof.
  destruct (mkfs_inode_overflow (map nth_file (seqZ 0 207))) as (m & E & _ & H).
  - apply host_check_ok. vm_compute. reflexivity.
  - rewrite length_map, length_seqZ. lia.
  - vm_compute. discriminate.
  - exists m. exact (conj E H).
Defined.
