(* ===== verification/FsImage.v ===== *)
(** * From mkfs to the kernel

    The image mkfs builds is a file system the kernel mounts, and the kernel finds
    in it the files that mkfs was given. *)
From S2P Require Import Prelude State CString Kalloc Vm Sched Printf Bytes Bio BioSpec Log LogSpec LogTxn Fs FsData Mkfs MkfsSpec MkfsRun MkfsImage FsOp FsAlloc FsMap FsRw FsInode FsDir FsName FsBoot FsFile.

Open Scope Z_scope.

(** The disk with the blocks of an image. *)
Definition image_disk (D : Z -> list Z) : list (Z * list Z) := map (fun bn => (bn, D bn)) (seqZ 0 FSSIZE).

Lemma disk_block_map D l bn : disk_block (map (fun b => (b, D b)) l) bn = if decide (bn ∈ l) then D bn else zero_block.
Proof.
  induction l as [|x l IH]; cbn [map disk_block]; [by rewrite decide_False by set_solver|]. destruct (Z.eqb_spec x bn) as [->|Hne].
  - by rewrite decide_True by set_solver.
  - rewrite IH. destruct (decide (bn ∈ l)); [by rewrite decide_True by set_solver|by rewrite decide_False by set_solver].
Qed.

Lemma image_block D bn : disk_block (image_disk D) bn = if decide (0 <= bn < FSSIZE) then D bn else zero_block.
Proof.
  unfold image_disk. rewrite disk_block_map. destruct (decide (0 <= bn < FSSIZE)) as [H|H]; [rewrite decide_True|rewrite decide_False]; try done; rewrite elem_of_seqZ; lia.
Qed.

#[local] Opaque image_disk.

Lemma sb_mkfs_eq : sb_mkfs = mkSuperblock FSMAGIC 2000 1953 200 31 2 33 46.
Proof. done. Qed.

Lemma mkfs_layout : layout sb_mkfs 2.
Proof. by constructor. Qed.

(** ** The entries of the root directory *)
Lemma concat_lookup (ls : list (list Z)) w e k : Forall (fun l => length l = w) ls -> (k < w)%nat -> concat ls !! (w * e + k)%nat = ls !! e ≫= (fun l => l !! k).
Proof.
  intros H Hk. revert e. induction H as [|l ls Hl H IH]; intros e; cbn [concat]; [by destruct e|]. destruct e as [|e]; cbn.
  - rewrite lookup_app_l by lia. f_equal. lia.
  - rewrite lookup_app_r by lia. rewrite <- IH. f_equal. lia.
Qed.

Definition root_entries (names : list (list Z)) : list (Z * list Z) := (1, dot) :: (1, dotdot) :: imap (fun j name => (2 + Z.of_nat j, name)) names.

Lemma root_bytes_entries names : root_bytes names = concat (map (fun e => dirent_bytes (fst e) (snd e)) (root_entries names)).
Proof. unfold root_bytes, root_entries. cbn [map concat fst snd]. do 3 f_equal. symmetry. apply fmap_imap. Qed.

Lemma root_entry_lookup names e : root_entries names !! (2 + e)%nat = (fun name => (2 + Z.of_nat e, name)) <$> names !! e.
Proof. change (root_entries names !! (2 + e)%nat) with (imap (fun j name => (2 + Z.of_nat j, name)) names !! e). by rewrite list_lookup_imap. Qed.

Lemma root_entries_length names : length (root_entries names) = (2 + length names)%nat.
Proof. cbn. by rewrite length_imap. Qed.

Lemma root_entries_inum names e x name : root_entries names !! e = Some (x, name) -> 0 < x < 2 + Z.of_nat (length names).
Proof.
  destruct e as [|[|e]]; [intros [= <- <-]; lia..|]. intros H. pose proof (root_entry_lookup names e) as E. change (2 + e)%nat with (S (S e)) in E. rewrite H in E. clear H. symmetry in E. rename E into H. apply fmap_Some in H as (nm & Hn & [= -> ->]). apply lookup_lt_Some in Hn. lia.
Qed.

Section Image.
Context (D : Z -> list Z) (hs : list hostfile) (root : dfile) (fs : list dfile) (I : image D hs root fs).
Context (Hcount : Z.of_nat (length hs) <= 197) (Hround : (2 + Z.of_nat (length hs)) mod 64 <> 0).
Let C := disk_block (image_disk D).
Notation sb := sb_mkfs.

Lemma im_length : length fs = length hs.
Proof. apply (Forall2_length _ _ _ (im_contents _ _ _ _ I)). Qed.

Lemma im_block bn : 0 <= bn < FSSIZE -> C bn = D bn.
Proof. intros H. unfold C. rewrite image_block. by rewrite decide_True. Qed.

Lemma im_sized_disk : sized (image_disk D).
Proof. intros bn. rewrite image_block. destruct (decide _) as [H|]; [by apply (im_sized _ _ _ _ I)|apply length_replicate]. Qed.

Lemma im_iblock x : 0 <= x < 200 -> C (iblock sb x) = D (IBLOCK x sb_mkfs) /\ 33 <= iblock sb x < 46.
Proof. intros Hx. pose proof (mk_iblock_low x ltac:(lia)) as Hr. unfold iblock. split; [|lia]. apply im_block. unfold FSSIZE. lia. Qed.

(** The inode of the [i]-th file, the root first. *)
Lemma im_dnode i f : (root :: fs) !! i = Some f -> let x := 1 + Z.of_nat i in 0 < x < 200
  /\ type_of sb C x = (if decide (i = 0%nat) then T_DIR else T_FILE) /\ nlink_of sb C x = 1 /\ addrs_of sb C x = f_addrs f
  /\ size_of sb C x = (if decide (i = 0%nat) then root_size (Z.of_nat (length hs)) else f_len f).
Proof.
  intros Hf x. pose proof im_length as Hl. pose proof (lookup_lt_Some _ _ _ Hf) as Hlt. cbn [length] in Hlt. assert (0 < x < 200) as Hx by lia. split; [done|].
  destruct (im_iblock x ltac:(lia)) as [E _]. unfold type_of, nlink_of, addrs_of, size_of. rewrite !E. destruct i as [|i].
  - injection Hf as <-. pose proof (im_root _ _ _ _ I) as H. exact (conj (f_equal dn_type H) (conj (f_equal dn_nlink H) (conj (f_equal dn_addrs H) (f_equal dn_size H)))).
  - cbn in Hf. pose proof (im_inode _ _ _ _ I i f Hf) as H. replace (2 + Z.of_nat i) with x in H by lia. refine (conj (eq_trans (f_equal dn_type H) _) (conj (f_equal dn_nlink H) (conj (f_equal dn_addrs H) (f_equal dn_size H)))).
    destruct (Forall2_lookup_l _ _ _ _ _ (im_contents _ _ _ _ I) Hf) as (h & _ & [Ht _]). exact Ht.
Qed.

Lemma im_no_inode x : 2 + Z.of_nat (length fs) <= x < 200 -> type_of sb C x = 0.
Proof. intros Hx. destruct (im_iblock x ltac:(lia)) as [E _]. unfold type_of. rewrite E. pose proof (im_free _ _ _ _ I x ltac:(lia)) as H. exact (f_equal dn_type H). Qed.

(** Which file an inode is. *)
Lemma im_which x : 0 < x < 200 -> type_of sb C x <> 0 -> exists i f, (root :: fs) !! i = Some f /\ x = 1 + Z.of_nat i.
Proof.
  intros Hx Ht. destruct (decide (2 + Z.of_nat (length fs) <= x)) as [Hge|Hlt]; [by rewrite im_no_inode in Ht by lia|].
  destruct (lookup_lt_is_Some_2 (root :: fs) (Z.to_nat (x - 1))) as [f Hf]; [cbn [length]; lia|]. exists (Z.to_nat (x - 1)), f. split; [done|lia].
Qed.

(** ** The blocks of a file *)
Section OneFile.
Context (i : nat) (f : dfile) (Hf : (root :: fs) !! i = Some f).

Lemma im_owned b : b ∈ f_owned f -> in_use sb C b.
Proof.
  intros Hb. pose proof (owned_in _ _ _ _ Hf Hb) as Ho. pose proof (proj2 (im_own _ _ _ _ I)) as Hr. rewrite Forall_forall in Hr. specialize (Hr b Ho). unfold FSSIZE in Hr. change nmeta with 47 in Hr.
  split; [change (sb_bmapstart sb) with 46; change (sb_size sb) with 2000; lia|]. change (sb_bmapstart sb) with 46. rewrite im_block by (unfold FSSIZE; lia).
  rewrite (im_bitmap _ _ _ _ I) by (unfold FSSIZE; lia). by rewrite (bool_decide_true _ Ho), orb_true_r.
Qed.

Lemma im_file_ok : file_ok C f.
Proof.
  apply (file_ok_ext D).
  - intros b Hb. apply im_owned in Hb as [Hr _]. change (sb_bmapstart sb) with 46 in Hr. change (sb_size sb) with 2000 in Hr. apply im_block. unfold FSSIZE. lia.
  - pose proof (im_files _ _ _ _ I) as H. rewrite Forall_lookup in H. by eapply H.
Qed.

Lemma im_faddr k : 0 <= k < MAXFILE -> faddr C (f_addrs f) k = default 0 (f_blocks f !! Z.to_nat k).
Proof. intros Hk. rewrite <- (fo_map _ _ im_file_ok) by lia. f_equal. lia. Qed.

Lemma im_in_blocks k : 0 <= k < MAXFILE -> faddr C (f_addrs f) k <> 0 -> f_blocks f !! Z.to_nat k = Some (faddr C (f_addrs f) k).
Proof. intros Hk. rewrite im_faddr by done. by destruct (f_blocks f !! Z.to_nat k). Qed.

Lemma im_nodup : NoDup (f_owned f).
Proof.
  pose proof (proj1 (im_own _ _ _ _ I)) as H. unfold owned_all in H. rewrite <- (take_drop_middle _ _ _ Hf), map_app, concat_app in H.
  cbn [map concat] in H. by apply NoDup_app in H as (_ & _ & [H _]%NoDup_app).
Qed.

Lemma im_file_wf : file_wf sb C (f_addrs f).
Proof.
  pose proof im_nodup as Hn. unfold f_owned in Hn. apply NoDup_app in Hn as (Hn1 & Hn2 & _). constructor.
  - apply (fo_addrs _ _ im_file_ok).
  - intros k Hk Ha. apply im_owned. apply elem_of_app. left. eapply list_elem_of_lookup_2. by apply im_in_blocks.
  - intros Hi. by apply im_owned, owned_ind.
  - intros k j Hk Hj Ha E. pose proof (im_in_blocks k Hk Ha) as E1. rewrite E in Ha. pose proof (im_in_blocks j Hj Ha) as E2. rewrite <- E in E2. pose proof (NoDup_lookup _ _ _ _ Hn1 E1 E2). lia.
  - intros k Hk Ha E. apply (Hn2 (faddr C (f_addrs f) k)); [eapply list_elem_of_lookup_2; by apply im_in_blocks|]. change (byte_at (f_addrs f) NDIRECT) with (f_ind f) in E. unfold ind_of in E. fold (f_ind f) in E.
    rewrite E in *. rewrite (proj2 (Z.eqb_neq _ _) Ha). by apply list_elem_of_singleton.
Qed.

(** The bytes of the file, and zeros up to the end of its last block. *)
Lemma im_fbyte j : 0 <= j < BSIZE * Z.of_nat (length (f_blocks f)) -> fbyte C (f_addrs f) j = default 0 (f_bytes f !! Z.to_nat j) /\ faddr C (f_addrs f) (j / BSIZE) <> 0.
Proof.
  intros Hj. pose proof (fo_max _ _ im_file_ok) as Hmax. assert (0 <= j / BSIZE < Z.of_nat (length (f_blocks f))) as Hk by (unfold BSIZE in *; dlia).
  destruct (lookup_lt_is_Some_2 (f_blocks f) (Z.to_nat (j / BSIZE))) as [b Hb]; [lia|]. assert (faddr C (f_addrs f) (j / BSIZE) = b) as E by (rewrite im_faddr by lia; by rewrite Hb).
  assert (b <> 0) as Hb0. { destruct (im_owned b) as [Hr _]; [apply elem_of_app; left; by eapply list_elem_of_lookup_2|]. change (sb_bmapstart sb) with 46 in Hr. lia. }
  split; [|by rewrite E]. unfold fbyte. rewrite E, (proj2 (Z.eqb_neq _ _) Hb0), (fo_data _ _ im_file_ok _ _ Hb). assert (0 <= j mod BSIZE < BSIZE) as Hm by (by apply Z.mod_pos_bound).
  unfold byte_at. rewrite blockof_lookup by lia. cbn [default id]. rewrite Z2Nat.id by lia.
  replace (Z.to_nat (BSIZE * (j / BSIZE)) + Z.to_nat (j mod BSIZE))%nat with (Z.to_nat j) by (unfold BSIZE in *; dlia). done.
Qed.
End OneFile.

(** ** The root directory *)
Lemma im_root_file : (root :: fs) !! 0%nat = Some root.
Proof. done. Qed.

Let n := Z.of_nat (length hs).
Let names := map file_name hs.

Lemma root_covered : root_size n <= BSIZE * Z.of_nat (length (f_blocks root)) /\ 16 * (2 + n) <= root_size n <= 4096 /\ root_size n mod 16 = 0.
Proof.
  pose proof (fo_cover _ _ (im_file_ok 0 root im_root_file)) as Hc. unfold f_len in Hc. rewrite (im_entries _ _ _ _ I), root_bytes_length, length_map in Hc. fold n in Hc. unfold root_size, n, BSIZE in *. dlia.
Qed.

(** Entry [e] of the root directory. *)
Lemma im_dirent e : 16 * (Z.of_nat e + 1) <= root_size n ->
  dirent_at sb C 1 (16 * Z.of_nat e) = match root_entries names !! e with Some (x, name) => dirent_bytes x name | None => replicate 16 0 end.
Proof.
  intros He. destruct root_covered as [Hcov _]. destruct (im_dnode 0 root im_root_file) as (_ & _ & _ & Ea & _). change (1 + Z.of_nat 0) with 1 in Ea. unfold dirent_at. rewrite Ea. change DIRENT with 16.
  assert (Forall (fun l => length l = 16%nat) (map (fun e => dirent_bytes (fst e) (snd e)) (root_entries names))) as Hl by (apply Forall_map, Forall_forall; intros [x nm] _; apply dirent_bytes_length).
  apply list_eq. intros k. destruct (decide (k < 16)%nat) as [Hk|Hk].
  - rewrite fbytes_lookup by lia. rewrite (proj1 (im_fbyte 0 root im_root_file (16 * Z.of_nat e + Z.of_nat k) ltac:(lia))). rewrite (im_entries _ _ _ _ I), root_bytes_entries. fold names.
    replace (Z.to_nat (16 * Z.of_nat e + Z.of_nat k)) with (16 * e + k)%nat by lia. rewrite (concat_lookup _ 16) by done. rewrite list_lookup_fmap. destruct (root_entries names !! e) as [[x nm]|]; cbn [fmap option_fmap option_map mbind option_bind fst snd].
    + destruct (lookup_lt_is_Some_2 (dirent_bytes x nm) k) as [v Hv]; [by rewrite dirent_bytes_length|]. by rewrite Hv.
    + by rewrite lookup_replicate_2.
  - rewrite !lookup_ge_None_2; [done| |rewrite fbytes_length; lia]. destruct (root_entries names !! e) as [[x nm]|]; [rewrite dirent_bytes_length|rewrite length_replicate]; lia.
Qed.

Lemma dirent_bytes_of x name : 0 <= x < 2 ^ 16 -> dirent_bytes x name = dirent_of name x.
Proof. intros Hx. unfold dirent_bytes, dirent_of. by rewrite xshort_id. Qed.

Lemma im_entry e : 16 * (Z.of_nat e + 1) <= root_size n -> let de := dirent_at sb C 1 (16 * Z.of_nat e) in
  match root_entries names !! e with
  | Some (x, name) => de_inum de = x /\ forall nm, namecmp nm (de_name de) = 0 <-> name_of nm = name_of name
  | None => de_inum de = 0
  end.
Proof.
  intros He de. unfold de. rewrite im_dirent by done. destruct (root_entries names !! e) as [[x nm]|] eqn:E; [|done].
  apply root_entries_inum in E. unfold names in E. rewrite length_map in E. rewrite dirent_bytes_of by lia.
  split; [apply (dirent_lookup nm nm); lia|]. intros nm'. apply dirent_lookup. lia.
Qed.

(** ** The file system of the image *)
Lemma im_inode_ok i f : (root :: fs) !! i = Some f -> inode_ok sb C (1 + Z.of_nat i).
Proof.
  intros Hf. destruct (im_dnode i f Hf) as (Hx & Ht & Hn & Ea & Es). destruct root_covered as (R1 & R2 & _). pose proof (fo_cover _ _ (im_file_ok i f Hf)) as Hc. pose proof (fo_max _ _ (im_file_ok i f Hf)) as Hm.
  change MAXFILE with 268 in *.
  assert (0 <= size_of sb C (1 + Z.of_nat i) <= BSIZE * Z.of_nat (length (f_blocks f)) ) as Hs.
  { rewrite Es. destruct (decide (i = 0%nat)) as [->|]; [injection Hf as <-; fold n; lia|]. unfold f_len in *. lia. }
  constructor; rewrite ?Ea, ?Hn; try done.
  - by eapply im_file_wf.
  - change MAXFILE with 268. unfold BSIZE in *. lia.
  - intros k Hk Hlt. pose proof (proj2 (im_fbyte i f Hf (k * BSIZE) ltac:(unfold BSIZE in *; lia))) as H. by rewrite Z.div_mul in H.
Qed.

Lemma im_dir_ok : dir_ok sb C 1.
Proof.
  destruct (im_dnode 0 root im_root_file) as (_ & _ & _ & _ & Es). change (1 + Z.of_nat 0) with 1 in Es. rewrite decide_True in Es by done. fold n in Es. destruct root_covered as (_ & R2 & R3). constructor; rewrite ?Es; [done|].
  intros off Ho Hal y. change DIRENT with 16 in Hal. assert (off = 16 * Z.of_nat (Z.to_nat (off / 16))) as Eo by dlia. unfold y. rewrite Eo.
  pose proof (im_entry (Z.to_nat (off / 16)) ltac:(dlia)) as He. cbv zeta in He. destruct (root_entries names !! Z.to_nat (off / 16)) as [[x nm]|] eqn:E; [|by left]. destruct He as [-> _]. right.
  apply root_entries_inum in E. unfold names in E. rewrite length_map in E. pose proof im_length as Hl. change (sb_ninodes sb) with 200. split; [lia|].
  destruct (lookup_lt_is_Some_2 (root :: fs) (Z.to_nat (x - 1))) as [f Hf]; [cbn [length]; lia|]. destruct (im_dnode _ _ Hf) as (_ & Ht & _). replace (1 + Z.of_nat (Z.to_nat (x - 1))) with x in Ht by lia. rewrite Ht. by destruct (decide _).
Qed.

Lemma im_owns i f b : (root :: fs) !! i = Some f -> owns C (addrs_of sb C (1 + Z.of_nat i)) b -> b ∈ f_owned f.
Proof.
  intros Hf [Hb H]. destruct (im_dnode i f Hf) as (_ & _ & _ & Ea & _). rewrite Ea in H. unfold f_owned. apply elem_of_app. destruct H as [->|(k & Hk & <-)].
  - right. unfold ind_of in *. fold (f_ind f) in *. rewrite (proj2 (Z.eqb_neq _ _) Hb). by apply list_elem_of_singleton.
  - left. eapply list_elem_of_lookup_2. by eapply im_in_blocks.
Qed.

Lemma im_fs_ok : fs_ok sb C.
Proof.
  constructor.
  - intros b Hb. change (sb_bmapstart sb) with 46 in *. rewrite im_block by (unfold FSSIZE; lia). rewrite (im_bitmap _ _ _ _ I) by (unfold FSSIZE; lia). change nmeta with 47. by rewrite (proj2 (Z.ltb_lt b 47)) by lia.
  - split; [done|]. destruct (im_dnode 0 root im_root_file) as (_ & Ht & _). exact Ht.
  - intros x Hx Ht. destruct (im_which x Hx Ht) as (i & f & Hf & ->). by eapply im_inode_ok.
  - intros x Hx Ht. destruct (im_which x Hx ltac:(by rewrite Ht)) as (i & f & Hf & ->). destruct (im_dnode i f Hf) as (_ & Ht' & _). rewrite Ht' in Ht. destruct (decide (i = 0%nat)) as [->|]; [apply im_dir_ok|done].
  - intros x y b Hx Hy Tx Ty Ox Oy. destruct (im_which x Hx Tx) as (i & f & Hf & ->). destruct (im_which y Hy Ty) as (j & g & Hg & ->). f_equal. f_equal.
    eapply owned_disjoint; [apply (im_own _ _ _ _ I)|exact Hf|exact Hg|by eapply im_owns|by eapply im_owns].
Qed.

(** ** Looking up a file *)

(** No entry of the name from [e] up to [t], and one at [t]. *)
Lemma im_scan_hit nm m t x name e : name_of nm = name_of name -> root_entries names !! t = Some (x, name) -> (e <= t < e + m)%nat -> 16 * (Z.of_nat t + 1) <= root_size n ->
  (forall e' x' name', (e <= e' < t)%nat -> root_entries names !! e' = Some (x', name') -> name_of nm <> name_of name') ->
  dir_scan sb C 1 nm m (16 * Z.of_nat e) = Some (x, 16 * Z.of_nat t).
Proof.
  intros Hnm Ht. revert e. induction m as [|m IH]; intros e He Hsz Hno; [lia|]. cbn [dir_scan]. pose proof (im_entry e ltac:(lia)) as H. cbv zeta in H. change DIRENT with 16.
  destruct (decide (e = t)) as [->|Hne].
  - rewrite Ht in H. destruct H as [-> H]. pose proof (root_entries_inum _ _ _ _ Ht). rewrite (proj2 (Z.eqb_neq x 0)) by lia. by rewrite (proj2 (Z.eqb_eq _ 0) (proj2 (H nm) Hnm)).
  - replace (16 * Z.of_nat e + 16) with (16 * Z.of_nat (S e)) by lia. rewrite (IH (S e)); [|lia|done|intros e' x' n' He'; apply Hno; lia].
    destruct (root_entries names !! e) as [[x' n']|] eqn:E; [|by rewrite H]. destruct H as [_ H]. rewrite (proj2 (Z.eqb_neq (namecmp _ _) 0)); [by destruct (_ =? 0)|]. rewrite H. eapply Hno; [|exact E]. lia.
Qed.


Context (Hnames : NoDup (dot :: dotdot :: names)).

Lemma entries_names e x name : root_entries names !! e = Some (x, name) -> (dot :: dotdot :: names) !! e = Some name.
Proof.
  destruct e as [|[|e]]; [by intros [= <- <-]..|]. intros H. pose proof (root_entry_lookup names e) as E. change (2 + e)%nat with (S (S e)) in E. rewrite H in E. symmetry in E. apply fmap_Some in E as (nm & Hn & [= -> ->]). exact Hn.
Qed.

(** Names as the directory keeps them. *)
Definition plain (name : list Z) : Prop := name_of name = name.

Lemma plain_name name : 0 ∉ name -> (length name <= 14)%nat -> plain name.
Proof. intros H0 Hl. unfold plain, name_of. rewrite cstr_id by done. by apply take_ge. Qed.

Lemma im_find j name : Forall plain names -> names !! j = Some name -> dir_find sb C 1 name = Some (2 + Z.of_nat j, 16 * (2 + Z.of_nat j)).
Proof.
  intros Hp Hj. destruct (im_dnode 0 root im_root_file) as (_ & _ & _ & _ & Es). change (1 + Z.of_nat 0) with 1 in Es. rewrite decide_True in Es by done. fold n in Es. destruct root_covered as (_ & R2 & R3).
  pose proof (root_entry_lookup names j) as Ht. rewrite Hj in Ht. cbn [fmap option_fmap option_map] in Ht. pose proof (lookup_lt_Some _ _ _ Hj) as Hlt. unfold names in Hlt. rewrite length_map in Hlt.
  unfold dir_find. rewrite Es. change DIRENT with 16. change 0 with (16 * Z.of_nat 0). rewrite (im_scan_hit name _ (2 + j) _ name 0 eq_refl Ht); [do 2 f_equal; lia|dlia|lia|].
  intros e x' name' He Ee E. assert (plain name') as Hp'.
  { pose proof (entries_names _ _ _ Ee) as Hn. destruct e as [|[|e]]; [by injection Hn as <-..|]. rewrite Forall_lookup in Hp. by eapply Hp. }
  assert (plain name) as Hpn by (rewrite Forall_lookup in Hp; by eapply Hp). rewrite Hp', Hpn in E. subst name'.
  pose proof (NoDup_lookup _ e (2 + j) name Hnames (entries_names _ _ _ Ee) (entries_names _ _ _ Ht)). lia.
Qed.


End Image.

(** ** Paths of one element *)
Lemma split_none sep l : sep ∉ l -> split_at sep l = [l].
Proof. induction l as [|c l IH]; intros H; [done|]. cbn [split_at]. rewrite (proj2 (Z.eqb_neq c sep)) by (intros ->; set_solver). by rewrite IH by set_solver. Qed.

Lemma elems_single name : name <> [] -> slash ∉ name -> elems (slash :: name) = [name].
Proof. intros Hn Hs. unfold elems. cbn [split_at]. rewrite Z.eqb_refl. rewrite filter_cons_False by (intros H; by apply H). rewrite split_none by done. by rewrite filter_cons_True. Qed.

Lemma file_name_no_slash h : host_ok h -> slash ∉ file_name h.
Proof. intros (_ & H & _ & _). unfold file_name, skip_underscore. destruct (shortname (hf_arg h)) as [|c r]; [done|]. destruct (c =? underscore); set_solver. Qed.


Record files_ok (hs : list hostfile) : Prop := {
  fk_host : Forall host_ok hs;
  fk_count : Z.of_nat (length hs) <= 197;
  fk_round : (2 + Z.of_nat (length hs)) mod 64 <> 0;
  fk_room : nmeta + need (16 * (2 + Z.of_nat (length hs))) + space hs <= FSSIZE;
  fk_names : NoDup (dot :: dotdot :: map file_name hs) /\ Forall (fun h => file_name h <> [] /\ 0 ∉ file_name h) hs }.

Lemma files_plain hs : files_ok hs -> Forall plain (map file_name hs).
Proof.
  intros [F1 _ _ _ [_ F2]]. apply Forall_map, Forall_lookup. intros i h Hh. rewrite Forall_lookup in F1, F2. destruct (F1 i h Hh) as (_ & _ & Hl & _). change DIRSIZ with 14 in Hl. apply plain_name; [by apply (F2 i)|cbn; lia].
Qed.

(** The machine mounts the image. *)
Lemma image_mount fuel pid s D hs root fs : image D hs root fs -> files_ok hs -> powered s pid (image_disk D) ->
  exists s' D', mount fuel s = Ret tt s' /\ mounted pid 2 sb_mkfs s' D' (fun _ => 0) /\ same_data 2 (disk_block (image_disk D)) D'.
Proof.
  intros I [F1 F2 F3 F4 F5] P. set (C := disk_block (image_disk D)).
  assert (forall bn, 0 <= bn < FSSIZE -> C bn = D bn) as EC by (intros bn Hbn; unfold C; rewrite image_block; by rewrite decide_True).
  assert (reads_as 2 C (image_disk D)) as Rd.
  { apply reads_empty; [by eapply im_sized_disk| |done]. fold C. rewrite EC by done. rewrite (im_log _ _ _ _ I 2) by lia. done. }
  assert (sb_of (C 1) = sb_mkfs) as Esb by (rewrite EC by done; rewrite (im_sb _ _ _ _ I); done). assert (fs_ok sb_mkfs C) as FC by (by eapply im_fs_ok).
  assert (0 <= 2 /\ 2 + LOGBLOCKS < 2 ^ 31) as Hr by done.
  destruct (mount_run fuel pid 2 sb_mkfs mkfs_layout s (image_disk D) C P Rd Esb eq_refl Hr FC) as (s' & D' & E & Id & HD & Hsb & T & _).
  exists s', D'. split; [done|]. split; [by constructor|done].
Qed.

Lemma two_free : room (fun _ => 0).
Proof. exists 0%nat, 1%nat. change (Z.to_nat NINODE) with 50%nat. split_and!; try done; lia. Qed.


(** A path of one element leads to its file. *)
Lemma image_walk D hs root fs j h : image D hs root fs -> files_ok hs -> hs !! j = Some h ->
  path_walk sb_mkfs (disk_block (image_disk D)) false ROOTINO (elems (slash :: file_name h)) = Some (2 + Z.of_nat j).
Proof.
  intros I F Hj. pose proof F as [F1 F2 F3 F4 [F5 F6]]. pose proof (files_plain hs F) as Fp. rewrite Forall_lookup in F1, F6. destruct (F6 j h Hj) as [Hn H0]. pose proof (F1 j h Hj) as Hok.
  destruct (fo_root sb_mkfs _ (im_fs_ok D hs root fs I F2 F3)) as [_ Ht].
  rewrite (elems_single _ Hn (file_name_no_slash h Hok)). cbn [path_walk]. rewrite Ht, Z.eqb_refl. cbn [andb]. destruct Hok as (_ & _ & Hl & _). change DIRSIZ with 14 in Hl. rewrite take_ge by (change (Z.to_nat DIRSIZ) with 14%nat; lia).
  change ROOTINO with 1. rewrite (im_find D hs root fs I F2 F3 F5 j (file_name h) Fp) by (by rewrite list_lookup_fmap, Hj). reflexivity.
Qed.

(** A reference to the inode of a file of the image. *)
Lemma image_open pid s D hs root fs j h : image D hs root fs -> files_ok hs -> powered s pid (image_disk D) -> hs !! j = Some h ->
  exists s' D' R i, mounted pid 2 sb_mkfs s' D' R /\ fs_ok sb_mkfs D' /\ (i < Z.to_nat NINODE)%nat /\ R = radd (fun _ => 0) i 1 /\ i_inum (getinode s' i) = 2 + Z.of_nat j
  /\ type_of sb_mkfs D' (2 + Z.of_nat j) = T_FILE /\ size_of sb_mkfs D' (2 + Z.of_nat j) = Z.of_nat (length (content h)).
Proof.
  intros I F P Hj. pose proof F as [F1 F2 F3 F4 [F5 F6]]. set (C := disk_block (image_disk D)). assert (fs_ok sb_mkfs C) as FC by (by eapply im_fs_ok).
  destruct (image_mount 0 pid s D hs root fs I F P) as (s1 & D1 & E1 & M1 & HD). pose proof (fs_ok_same 2 sb_mkfs mkfs_layout C D1 HD FC) as FD.
  destruct (op_begin 0 pid 2 sb_mkfs s1 D1 _ M1) as (s2 & E2 & R2 & S2). assert (size (∅ : gset Z) < bhead)%nat as Hsz by (rewrite size_empty; change bhead with 30%nat; lia).
  destruct (namex_run 0 pid 2 sb_mkfs mkfs_layout false 1 s2 D1 ∅ _ (slash :: file_name h) name0 ROOTINO R2 FD eq_refl (root_typed sb_mkfs D1 FD) two_free Hsz eq_refl) as (v & nm & s3 & E3 & Hn & _).
  rewrite (same_walk 2 sb_mkfs mkfs_layout C D1 HD false ROOTINO _ FC (root_typed sb_mkfs C FC)) in Hn. unfold C in Hn. rewrite (image_walk D hs root fs j h I F Hj) in Hn.
  unfold named in Hn. destruct v as [i|]; [|destruct Hn]. destruct Hn as (Hi & Hino & R3). destruct (op_end 0 pid 2 sb_mkfs mkfs_layout s3 D1 ∅ _ R3 Hsz) as (s4 & D4 & E4 & M4 & HD4 & _ & V4).
  assert (same_data 2 C D4) as HC4 by (intros bn Hbn; rewrite HD4 by done; by apply HD). pose proof (fs_ok_same 2 sb_mkfs mkfs_layout C D4 HC4 FC) as F4'.
  destruct (Forall2_lookup_r _ _ _ _ _ (im_contents _ _ _ _ I) Hj) as (f & Hf & [_ Hb]). destruct (im_dnode D hs root fs I F2 (S j) f Hf) as (Hx & Et & _ & _ & Es).
  replace (1 + Z.of_nat (S j)) with (2 + Z.of_nat j) in * by lia. destruct (same_inode 2 sb_mkfs mkfs_layout C D4 HC4 _ Hx) as (Q1 & _ & Q3 & _).
  exists s4, D4, (radd (fun _ => 0) i 1), i. split_and!; [exact M4|exact F4'|exact Hi|reflexivity| | |].
  - injection V4 as V41 V42 V43 V44 V45. unfold getinode in *. rewrite V44. exact Hino.
  - rewrite Q1. exact Et.
  - rewrite Q3. etransitivity; [exact Es|]. change (Z.of_nat (length (f_bytes f)) = Z.of_nat (length (content h))). by rewrite Hb.
Qed.

(** ** Theorems *)



Lemma demo_files_ok : files_ok demo_files.
Proof.
  constructor; [|by vm_compute..|].
  - repeat constructor; cbn; try done; intros H; repeat (apply elem_of_cons in H as [H|H]; [done|]); by apply not_elem_of_nil in H.
  - split; [apply (bool_decide_unpack (NoDup (dot :: dotdot :: map file_name demo_files))); vm_compute; exact Logic.I|]. repeat constructor; cbn; try done; intros H; repeat (apply elem_of_cons in H as [H|H]; [done|]); by apply not_elem_of_nil in H.
Qed.

Lemma fresh_powered d : powered (fresh_machine d) 0 d.
Proof. destruct (fresh_boots d) as [B1 B2 _ _ B5 B6]. by constructor. Qed.


(** C18: namei and nameiparent walk.  On a mounted file system whose directories are
    well formed, namex follows the elements of the path from the root or the current
    directory: it returns a reference to the inode the walk ends at (to the last
    directory, with the last name, for nameiparent) or nothing when an element is
    missing or is not in a directory; it takes no other reference and holds no lock. *)
Theorem namex_walks fuel pid start sb parent s D R path name x :
  layout sb start -> mounted pid start sb s D R -> fs_ok sb D -> starts_at s R path x -> typed sb D x -> room R -> length name = Z.to_nat DIRSIZ ->
  exists v nm s', (begin_op (S fuel) ;;; namex (S fuel) path parent name) s = Ret (v, nm) s'
  /\ named pid start sb 1 D ∅ R (path_walk sb D parent x (elems path)) v s'
  /\ (v <> None -> parent = true -> exists e, last (elems path) = Some e /\ is_name nm e).
Proof.
  intros L M F Hst Hty Hroom Hname. destruct (op_begin fuel pid start sb s D R M) as (s1 & E1 & R1 & S1).
  assert (starts_at s1 R path x) as Hst1. { destruct (same_sb _ _ S1) as (_ & B2 & B3 & B4). unfold starts_at, getproc, getinode in *. by rewrite B2, B3, B4. }
  destruct (namex_run fuel pid start sb L parent 1 s1 D ∅ R path name x R1 F Hst1 Hty Hroom) as (v & nm & s2 & E2 & H); [rewrite size_empty; change bhead with 30%nat; lia|done|].
  exists v, nm, s2. split; [by erewrite bind_ret_eq by exact E1|done].
Qed.

(** /README is walked to from the root of the mounted image. *)
Lemma namex_walks_witness : exists s s' D j nm, mounted 0 2 sb_mkfs s D (fun _ => 0) /\ (begin_op 1 ;;; namex 1 [47; 82; 69; 65; 68; 77; 69] false name0) s = Ret (Some j, nm) s'
  /\ i_inum (getinode s' j) = 2.
Proof.
  pose proof demo_files_ok as F. pose proof F as [F1 F2 F3 F4 _]. destruct (mkfs_run demo_files F1 ltac:(vm_compute; discriminate) F4) as (m & root & fs & Em & I).
  destruct (image_mount 0 0 _ (blk m) demo_files root fs I F (fresh_powered _)) as (s & D & _ & M & HD). pose proof (im_fs_ok (blk m) demo_files root fs I F2 F3) as FC.
  pose proof (fs_ok_same 2 sb_mkfs mkfs_layout _ D HD FC) as FD.
  destruct (namex_walks 0 0 2 sb_mkfs false s D (fun _ => 0) [47; 82; 69; 65; 68; 77; 69] name0 ROOTINO mkfs_layout M FD eq_refl (root_typed sb_mkfs D FD) two_free eq_refl) as (v & nm & s' & E & Hn & _).
  rewrite (same_walk 2 sb_mkfs mkfs_layout _ D HD false ROOTINO _ FC (root_typed sb_mkfs _ FC)) in Hn. pose proof (image_walk (blk m) demo_files root fs 0 _ I F eq_refl) as Ew.
  change (elems _) with (elems [47; 82; 69; 65; 68; 77; 69]) in Ew. rewrite Ew in Hn. unfold named in Hn. destruct v as [j|]; [|destruct Hn]. destruct Hn as (_ & Hino & _). exists s, s', D, j, nm. exact (conj M (conj E Hino)).
Defined.

(** C16: A write is atomic and in place.  Take the calls filewrite makes for a piece of at
    most three blocks, for a regular file of a well-formed file system with no other
    operation under way, at an offset at or before the end of the file, such that the piece
    ends within the largest file, and with the bytes in a variable of the kernel, so that
    they can be read.  The calls return; a first part of the bytes is in the file, all of
    them unless no block of the disk is left free; every other byte of the file and every
    other file is as it was; the file system is well formed; and a machine that stops at
    any moment of the calls has a disk that recovers to the file system before it or to the
    one after it. *)
Theorem write_is_atomic fuel pid start sb s D R i off l (x := i_inum (getinode s i)) :
  layout sb start -> mounted pid start sb s D R -> fs_ok sb D -> (i < Z.to_nat NINODE)%nat -> 0 < R i -> type_of sb D x = T_FILE ->
  0 <= off <= size_of sb D x -> off + Z.of_nat (length l) <= MAXFILE * BSIZE -> Z.of_nat (length l) <= 3 * BSIZE ->
  exists k s' D', write_inode fuel i (SLocal l) off (Z.of_nat (length l)) s = Ret (Z.of_nat k) s' /\ (k <= length l)%nat /\ (k = length l \/ none_free sb (D' (sb_bmapstart sb))) /\ mounted pid start sb s' D' R
  /\ file_written sb D x off (take k l) D' /\ at_every_crash (k_disk s) (k_disk s') (fun d => reads_as start D d \/ reads_as start D' d).
Proof. intros L M F Hi HR Hty Hoff Hmax Hlen. by apply write_inode_run. Qed.

(** Two bytes are written over the second and third of /README. *)
Lemma write_is_atomic_witness : exists s D R i k s' D', mounted 0 2 sb_mkfs s D R /\ i_inum (getinode s i) = 2 /\ write_inode 0 i (SLocal [111; 33]) 1 2 s = Ret (Z.of_nat k) s'
  /\ file_written sb_mkfs D 2 1 (take k [111; 33]) D'.
Proof.
  pose proof demo_files_ok as F. pose proof F as [F1 F2 F3 F4 _]. destruct (mkfs_run demo_files F1 ltac:(vm_compute; discriminate) F4) as (m & root & fs & Em & I).
  destruct (image_open 0 _ (blk m) demo_files root fs 0 _ I F (fresh_powered _) eq_refl) as (s & D & R & i & M & FD & Hi & HR & Hino & Hty & Hsz).
  assert (0 < R i) as HR' by (rewrite HR, radd_eq; lia).
  pose proof (write_is_atomic 0 0 2 sb_mkfs s D R i 1 [111; 33] mkfs_layout M FD Hi HR') as H. cbv zeta in H. rewrite Hino in H.
  destruct (H Hty) as (k & s' & D' & E & _ & _ & _ & W & _); [rewrite Hsz; vm_compute; split; discriminate|vm_compute; discriminate..|].
  exists s, D, R, i, k, s', D'. exact (conj M (conj Hino (conj E W))).
Defined.
