(* ===== verification/File.v ===== *)
(** * Open files: file.c, and [pipealloc] of pipe.c *)
From S2P Require Import Prelude State CString Kalloc Vm Sched Printf Ring Pipe Console Bytes Bio Log Fs.

Open Scope Z_scope.

Definition file0 : file := mkFile FD_NONE 0 0 0 0 None 0 0.
Definition getfile (s : kernel) (f : nat) : file := default file0 (k_files s !! f).
Definition get_file (f : nat) : K file := gets (fun s => getfile s f).
Definition upd_file (f : nat) (g : file -> file) (s : kernel) : kernel :=
  set_k_files (alter g f (k_files s)) s.
Definition mod_file (f : nat) (g : file -> file) : K unit := modify (upd_file f g).

Definition ftable : list nat := seq 0 (Z.to_nat NFILE).

Definition filealloc : K (option nat) :=
  acquire LFtable ;;;
  let* r := for_each ftable (fun f =>
    let* v := get_file f in
    if f_ref v =? 0 then
      mod_file f (set_f_ref 1) ;;;
      release LFtable ;;;
      ret (Some f)
    else ret None) in
  match r with
  | Some f => ret (Some f)
  | None => release LFtable ;;; ret None
  end.

Definition filedup (f : nat) : K nat :=
  acquire LFtable ;;;
  let* v := get_file f in
  if f_ref v <? 1 then panic "filedup" else
  mod_file f (set_f_ref (f_ref v + 1)) ;;;
  release LFtable ;;;
  ret f.

(** The inode of a file of type FD_INODE or FD_DEVICE. *)
Definition with_ip {A} (v : file) (k : nat -> K A) : K A :=
  match f_ip v with
  | Some ip => k ip
  | None => panic "kerneltrap"
  end.

Section Fuel.
Context (fuel : nat).

Definition fileclose (f : nat) : K unit :=
  acquire LFtable ;;;
  let* v := get_file f in
  if f_ref v <? 1 then panic "fileclose" else
  mod_file f (set_f_ref (f_ref v - 1)) ;;;
  if 0 <? f_ref v - 1 then release LFtable else
  let* ff := get_file f in
  mod_file f (set_f_ref 0) ;;;
  mod_file f (set_f_type FD_NONE) ;;;
  release LFtable ;;;
  match f_type ff with
  | FD_PIPE => pipeclose (f_pipe ff) (f_writable ff)
  | FD_INODE | FD_DEVICE =>
      begin_op fuel ;;;
      with_ip ff (iput fuel) ;;;
      end_op fuel
  | FD_NONE => skip
  end.

Definition filestat (f : nat) (addr : Z) : K Z :=
  let* p := this_proc in
  let* v := get_file f in
  match f_type v with
  | FD_INODE | FD_DEVICE =>
      with_ip v (fun ip =>
        ilock fuel ip ;;;
        let* iv := get_inode ip in
        iunlock ip ;;;
        let* pr := get_proc p in
        let* e := copyout (p_pagetable pr) addr (stati iv) in
        if e <? 0 then ret (-1) else ret 0)
  | _ => ret (-1)
  end.

Definition fileread (f : nat) (addr n : Z) : K Z :=
  let* v := get_file f in
  if f_readable v =? 0 then ret (-1) else
  match f_type v with
  | FD_PIPE => piperead fuel (f_pipe v) addr n
  | FD_DEVICE =>
      if (f_major v <? 0) || (NDEV <=? f_major v) then ret (-1) else
      match devsw_read fuel (f_major v) with
      | None => ret (-1)
      | Some read => read (User addr) n
      end
  | FD_INODE =>
      with_ip v (fun ip =>
        ilock fuel ip ;;;
        let* v := get_file f in
        let* r := readi fuel ip (User addr) (f_off v) (uint32 n) in
        (if 0 <? fst r then mod_file f (fun v => set_f_off (uint32 (f_off v + fst r)) v) else skip) ;;;
        iunlock ip ;;;
        ret (fst r))
  | FD_NONE => panic "fileread"
  end.

(** The bytes written in one transaction. *)
Definition filewrite_max : Z := (MAXOPBLOCKS - 1 - 1 - 2) / 2 * BSIZE.

Definition filewrite (f : nat) (addr n : Z) : K Z :=
  let* v := get_file f in
  if f_writable v =? 0 then ret (-1) else
  match f_type v with
  | FD_PIPE => pipewrite fuel (f_pipe v) addr n
  | FD_DEVICE =>
      if (f_major v <? 0) || (NDEV <=? f_major v) then ret (-1) else
      match devsw_write fuel (f_major v) with
      | None => ret (-1)
      | Some write => write (SUser addr) n
      end
  | FD_INODE =>
      with_ip v (fun ip =>
        let* i := while_loop (Z.to_nat (n / filewrite_max + 2)) 0 (fun i =>
          if n <=? i then ret (inr i) else
          let n1 := Z.min (n - i) filewrite_max in
          begin_op fuel ;;;
          ilock fuel ip ;;;
          let* v := get_file f in
          let* r := writei fuel ip (SUser (wrap64 (addr + i))) (f_off v) n1 in
          (if 0 <? r then mod_file f (fun v => set_f_off (uint32 (f_off v + r)) v) else skip) ;;;
          iunlock ip ;;;
          end_op fuel ;;;
          if negb (r =? n1) then ret (inr i) else ret (inl (i + r))) in
        ret (if i =? n then n else -1))
  | FD_NONE => panic "filewrite"
  end.

(** [pipealloc]: the read end and the write end, or nothing. *)
Definition pipealloc : K (option (nat * nat)) :=
  let* f0 := filealloc in
  match f0 with
  | None => ret None
  | Some f0 =>
      let* f1 := filealloc in
      match f1 with
      | None => fileclose f0 ;;; ret None
      | Some f1 =>
          let* pi := kalloc in
          if is_null pi then fileclose f0 ;;; fileclose f1 ;;; ret None else
          mod_pipe pi (fun p => set_pi_nread 0 (set_pi_nwrite 0 (set_pi_writeopen 1 (set_pi_readopen 1 p)))) ;;;
          mod_file f0 (fun v => set_f_pipe pi (set_f_writable 0 (set_f_readable 1 (set_f_type FD_PIPE v)))) ;;;
          mod_file f1 (fun v => set_f_pipe pi (set_f_writable 1 (set_f_readable 0 (set_f_type FD_PIPE v)))) ;;;
          ret (Some (f0, f1))
      end
  end.
End Fuel.
