(* ===== verification/Proc.v ===== *)
(** * Processes, threads and shared memory: the rest of proc.c *)
From S2P Require Import Prelude State CString Kalloc Vm Sched Printf Bytes Bio Log Fs File.

Open Scope Z_scope.

(** ** Shared memory segments *)
Definition shmseg0 : shmseg := mkShmseg 0 0.
Definition getshm (s : kernel) (key : nat) : shmseg := default shmseg0 (k_shm s !! key).
Definition get_shm (key : nat) : K shmseg := gets (fun s => getshm s key).
Definition upd_shm (key : nat) (f : shmseg -> shmseg) (s : kernel) : kernel :=
  set_k_shm (alter f key (k_shm s)) s.
Definition mod_shm (key : nat) (f : shmseg -> shmseg) : K unit := modify (upd_shm key f).

Definition shm_keys : list nat := seq 0 (Z.to_nat SHM_PAGES).
Definition shm_va (key : nat) : Z := SHMBASE + Z.of_nat key * PGSIZE.
(** [1U << key] *)
Definition shm_bit (key : nat) : Z := Z.shiftl 1 (Z.of_nat key).
Definition shm_attached (mask : Z) (key : nat) : bool := negb (Z.land mask (shm_bit key) =? 0).

Definition shminit : K unit :=
  for_all shm_keys (fun key => mod_shm key (fun _ => mkShmseg 0 0)).

(** Dropping one reference to a segment, as [shmcleanup] and [kshmdt] do. *)
Definition shm_put (key : nat) : K unit :=
  acquire (LShm key) ;;;
  mod_shm key (fun x => mkShmseg (shm_pa x) (int32 (shm_refcnt x - 1))) ;;;
  let* x := get_shm key in
  (if shm_refcnt x =? 0 then
     kfree (shm_pa x) ;;;
     mod_shm key (fun x => mkShmseg 0 (shm_refcnt x))
   else skip) ;;;
  release (LShm key).

Definition shmcleanup (p : nat) : K unit :=
  for_all shm_keys (fun key =>
    let* pr := get_proc p in
    if negb (shm_attached (p_shm_mask pr) key) then skip else
    (if negb (is_null (p_pagetable pr)) then uvmunmap (p_pagetable pr) (shm_va key) 1 false else skip) ;;;
    shm_put key) ;;;
  mod_proc p (set_p_shm_mask 0).

Definition shm_perm : Z := Z.lor (Z.lor PTE_R PTE_W) PTE_U.

Definition kshmget (key : Z) : K Z :=
  let* p := this_proc in
  let* pr := get_proc p in
  if (key <? 0) || (SHM_PAGES <=? key) then ret 0 else
  let k := Z.to_nat key in
  if shm_attached (p_shm_mask pr) k then ret (shm_va k) else
  acquire (LShm k) ;;;
  let* x := get_shm k in
  let* newpage :=
    (if is_null (shm_pa x) then
       let* pa := kalloc in
       mod_shm k (fun x => mkShmseg pa (shm_refcnt x)) ;;;
       if is_null pa then release (LShm k) ;;; ret None
       else memsetK pa 0 PGSIZE ;;; ret (Some true)
     else ret (Some false)) in
  match newpage with
  | None => ret 0
  | Some newpage =>
      let* x := get_shm k in
      let* e := mappages (p_pagetable pr) (shm_va k) PGSIZE (shm_pa x) shm_perm in
      if e <? 0 then
        (if (newpage : bool) then kfree (shm_pa x) ;;; mod_shm k (fun x => mkShmseg 0 (shm_refcnt x)) else skip) ;;;
        release (LShm k) ;;;
        ret 0
      else
        mod_shm k (fun x => mkShmseg (shm_pa x) (int32 (shm_refcnt x + 1))) ;;;
        mod_proc p (fun x => set_p_shm_mask (Z.lor (p_shm_mask x) (shm_bit k)) x) ;;;
        release (LShm k) ;;;
        ret (shm_va k)
  end.

Definition kshmdt (key : Z) : K Z :=
  let* p := this_proc in
  let* pr := get_proc p in
  if (key <? 0) || (SHM_PAGES <=? key) then ret (-1) else
  let k := Z.to_nat key in
  if negb (shm_attached (p_shm_mask pr) k) then ret (-1) else
  uvmunmap (p_pagetable pr) (shm_va k) 1 false ;;;
  mod_proc p (fun x => set_p_shm_mask (Z.land (p_shm_mask x) (uint32 (Z.lnot (shm_bit k)))) x) ;;;
  shm_put k ;;;
  ret 0.

(** ** The process table *)
Definition procinit : K unit :=
  shminit ;;;
  for_all proc_table (fun p =>
    mod_proc p (set_p_state UNUSED) ;;;
    mod_proc p (set_p_kstack (KSTACK (Z.of_nat p)))).

Definition proc_pagetable (p : nat) : K Z :=
  let* sym := gets k_sym in
  let* pagetable := uvmcreate in
  if is_null pagetable then ret 0 else
  let* e := mappages pagetable TRAMPOLINE PGSIZE (sym_trampoline sym) (Z.lor PTE_R PTE_X) in
  if e <? 0 then uvmfree pagetable 0 ;;; ret 0 else
  let* pr := get_proc p in
  let* e := mappages pagetable TRAPFRAME PGSIZE (p_trapframe pr) (Z.lor PTE_R PTE_W) in
  if e <? 0 then
    uvmunmap pagetable TRAMPOLINE 1 false ;;;
    uvmfree pagetable 0 ;;;
    ret 0
  else ret pagetable.

Definition proc_freepagetable (pagetable sz : Z) : K unit :=
  uvmunmap pagetable TRAMPOLINE 1 false ;;;
  uvmunmap pagetable TRAPFRAME 1 false ;;;
  uvmfree pagetable sz.

Definition freeproc (p : nat) : K unit :=
  let* pr := get_proc p in
  (if negb (is_null (p_trapframe pr)) then kfree (p_trapframe pr) else skip) ;;;
  mod_proc p (set_p_trapframe 0) ;;;
  (if negb (is_null (p_pagetable pr)) then
     shmcleanup p ;;;
     (if negb (p_is_thread pr =? 0) then thread_freepagetable (p_pagetable pr) (p_sz pr)
      else proc_freepagetable (p_pagetable pr) (p_sz pr))
   else skip) ;;;
  mod_proc p (set_p_pagetable 0) ;;;
  mod_proc p (set_p_sz 0) ;;;
  mod_proc p (set_p_pid 0) ;;;
  mod_proc p (set_p_parent None) ;;;
  mod_proc p (fun x => set_p_name (<[0%nat := 0]> (p_name x)) x) ;;;
  mod_proc p (set_p_chan CNull) ;;;
  mod_proc p (set_p_killed 0) ;;;
  mod_proc p (set_p_xstate 0) ;;;
  mod_proc p (set_p_priority 0) ;;;
  mod_proc p (set_p_state UNUSED) ;;;
  mod_proc p (set_p_is_thread 0) ;;;
  mod_proc p (set_p_tgid 0).

(** The scan of [allocproc]: the lock of the slot found is held. *)
Definition find_unused : K (option nat) :=
  for_each proc_table (fun p =>
    acquire (LProc p) ;;;
    let* pr := get_proc p in
    if decide (p_state pr = UNUSED) then ret (Some p)
    else release (LProc p) ;;; ret None).

Definition allocproc : K (option nat) :=
  let* r := find_unused in
  match r with
  | None => ret None
  | Some p =>
      let* pid := allocpid in
      mod_proc p (set_p_pid pid) ;;;
      mod_proc p (set_p_state USED) ;;;
      mod_proc p (set_p_shm_mask 0) ;;;
      mod_proc p (set_p_priority 10) ;;;
      mod_proc p (set_p_is_thread 0) ;;;
      mod_proc p (set_p_tgid 0) ;;;
      let* tf := kalloc in
      mod_proc p (set_p_trapframe tf) ;;;
      if is_null tf then freeproc p ;;; release (LProc p) ;;; ret None else
      let* pagetable := proc_pagetable p in
      mod_proc p (set_p_pagetable pagetable) ;;;
      if is_null pagetable then freeproc p ;;; release (LProc p) ;;; ret None else
      let* sym := gets k_sym in
      mod_proc p (fun x => set_p_context
        (mkContext (sym_forkret sym) (p_kstack x + PGSIZE) (replicate 12 0)) x) ;;;
      ret (Some p)
  end.

Definition growproc (n : Z) : K Z :=
  let* p := this_proc in
  let* pr := get_proc p in
  let sz := p_sz pr in
  if 0 <? n then
    if TRAPFRAME <? wrap64 (sz + n) then ret (-1) else
    let* sz := uvmalloc (p_pagetable pr) sz (wrap64 (sz + n)) PTE_W in
    if sz =? 0 then ret (-1) else
    mod_proc p (set_p_sz sz) ;;; ret 0
  else if n <? 0 then
    let* sz := uvmdealloc (p_pagetable pr) sz (wrap64 (sz + n)) in
    mod_proc p (set_p_sz sz) ;;; ret 0
  else
    mod_proc p (set_p_sz sz) ;;; ret 0.

(** ** The trapframe, in its page *)
Definition TF_EPC : Z := 24.
Definition TF_SP : Z := 48.
Definition TF_A0 : Z := 112.
Definition TF_A1 : Z := 120.
Definition TF_A7 : Z := 168.
(** [sizeof(struct trapframe)] *)
Definition TF_SIZE : Z := 288.
Definition tf_load (p : nat) (off : Z) : K Z :=
  let* pr := get_proc p in load64K (p_trapframe pr + off).
Definition tf_store (p : nat) (off v : Z) : K unit :=
  let* pr := get_proc p in store64K (p_trapframe pr + off) (wrap64 v).

(** [safestrcpy(np->name, p->name, 16)] *)
Fixpoint safe_prefix (n : nat) (l : list Z) : list Z :=
  match n, l with
  | S n', c :: l' => if c =? 0 then [] else c :: safe_prefix n' l'
  | _, _ => []
  end.
Definition copy_name (dst src : list Z) : list Z := splice dst 0 (safe_prefix 15 src ++ [0]).

(** The descriptors and the current directory are duplicated. *)
Definition dup_files (p np : nat) : K unit :=
  for_all (seq 0 (Z.to_nat NOFILE)) (fun i =>
    let* pr := get_proc p in
    match default None (p_ofile pr !! i) with
    | Some f =>
        let* f' := filedup f in
        mod_proc np (fun x => set_p_ofile (<[i := Some f']> (p_ofile x)) x)
    | None => skip
    end) ;;;
  let* pr := get_proc p in
  match p_cwd pr with
  | Some c => let* c' := idup c in mod_proc np (set_p_cwd (Some c'))
  | None => panic "kerneltrap"
  end.

(** The end of [kfork] and [kthread_create]: the child gets its name and parent
    and becomes runnable. *)
Definition start_child (p np : nat) : K Z :=
  let* pr := get_proc p in
  mod_proc np (fun x => set_p_name (copy_name (p_name x) (p_name pr)) x) ;;;
  let* npr := get_proc np in
  let pid := p_pid npr in
  release (LProc np) ;;;
  acquire LWait ;;;
  mod_proc np (set_p_parent (Some p)) ;;;
  release LWait ;;;
  acquire (LProc np) ;;;
  mod_proc np (set_p_state RUNNABLE) ;;;
  release (LProc np) ;;;
  ret pid.

Definition kfork : K Z :=
  let* p := this_proc in
  let* np := allocproc in
  match np with
  | None => ret (-1)
  | Some np =>
      let* pr := get_proc p in
      let* npr := get_proc np in
      let* e := uvmcopy (p_pagetable pr) (p_pagetable npr) (p_sz pr) in
      if e <? 0 then freeproc np ;;; release (LProc np) ;;; ret (-1) else
      mod_proc np (set_p_sz (p_sz pr)) ;;;
      memmoveK (p_trapframe npr) (p_trapframe pr) TF_SIZE ;;;
      tf_store np TF_A0 0 ;;;
      dup_files p np ;;;
      start_child p np
  end.

(** The loop of [kthread_create] over the segments of the parent. *)
Definition thread_shm (p np : nat) : K bool :=
  let* r := for_each shm_keys (fun key =>
    let* pr := get_proc p in
    if negb (shm_attached (p_shm_mask pr) key) then ret None else
    acquire (LShm key) ;;;
    let* x := get_shm key in
    if is_null (shm_pa x) then
      let* _ := printf ("kthread_create: shm key %d has null pa" +:+ nl) [AInt (Z.of_nat key)] in
      release (LShm key) ;;; freeproc np ;;; release (LProc np) ;;; ret (Some tt)
    else
    let* npr := get_proc np in
    let* e := mappages (p_pagetable npr) (shm_va key) PGSIZE (shm_pa x) shm_perm in
    if negb (e =? 0) then
      let* _ := printf ("kthread_create: shm remap failed for key %d" +:+ nl) [AInt (Z.of_nat key)] in
      release (LShm key) ;;; freeproc np ;;; release (LProc np) ;;; ret (Some tt)
    else
      mod_shm key (fun x => mkShmseg (shm_pa x) (int32 (shm_refcnt x + 1))) ;;;
      mod_proc np (fun x => set_p_shm_mask (Z.lor (p_shm_mask x) (shm_bit key)) x) ;;;
      release (LShm key) ;;;
      ret None) in
  ret (match r with None => true | Some _ => false end).

Definition kthread_create (fcn arg stack : Z) : K Z :=
  let* p := this_proc in
  if stack =? 0 then
    let* _ := printf ("kthread_create: null stack" +:+ nl) [] in ret (-1)
  else
  let* np := allocproc in
  match np with
  | None => let* _ := printf ("kthread_create: allocproc failed" +:+ nl) [] in ret (-1)
  | Some np =>
      let* pr := get_proc p in
      let* npr := get_proc np in
      let* e := uvmshare (p_pagetable pr) (p_pagetable npr) (p_sz pr) in
      if e <? 0 then
        let* _ := printf ("kthread_create: uvmshare failed" +:+ nl) [] in
        freeproc np ;;; release (LProc np) ;;; ret (-1)
      else
      mod_proc np (set_p_sz (p_sz pr)) ;;;
      let* ok := thread_shm p np in
      if negb (ok : bool) then ret (-1) else
      memmoveK (p_trapframe npr) (p_trapframe pr) TF_SIZE ;;;
      tf_store np TF_EPC fcn ;;;
      tf_store np TF_A0 arg ;;;
      tf_store np TF_SP (stack + 4096) ;;;
      mod_proc np (set_p_is_thread 1) ;;;
      mod_proc np (set_p_tgid (if negb (p_is_thread pr =? 0) then p_tgid pr else p_pid pr)) ;;;
      mod_proc np (set_p_priority (p_priority pr)) ;;;
      dup_files p np ;;;
      let* pid := start_child p np in
      let* _ := printf ("kthread_create: success tid=%d" +:+ nl) [AInt pid] in
      ret pid
  end.

Definition kthread_id : K Z :=
  let* p := this_proc in
  let* pr := get_proc p in
  ret (p_pid pr).

(** ** Exit and wait *)
Definition chan_of (p : option nat) : chanid := match p with Some i => CProc i | None => CNull end.

Definition reparent (p : nat) : K unit :=
  for_all proc_table (fun pp =>
    let* x := get_proc pp in
    if decide (p_parent x = Some p) then
      let* init := gets k_initproc in
      mod_proc pp (set_p_parent init) ;;;
      wakeup (chan_of init)
    else skip).

(** [wait] and its relatives scan the table for a child that passes [mine];
    [done] is what happens to a zombie found with both locks held.  The result
    is whether a child was seen, or the value to return (both locks released). *)
Definition scan_children (p : nat) (mine : proc -> bool) (done : nat -> K Z) : K (bool + Z) :=
  fold_each proc_table (inl false : bool + Z) (fun pp acc =>
    match acc with
    | inr _ => ret acc
    | inl have =>
        let* x := get_proc pp in
        if bool_decide (p_parent x = Some p) && mine x then
          acquire (LProc pp) ;;;
          let* x := get_proc pp in
          if decide (p_state x = ZOMBIE) then
            let* r := done pp in
            ret (inr r)
          else
            release (LProc pp) ;;;
            ret (inl true)
        else ret (inl have)
    end).

Section Fuel.
Context (fuel : nat).

(** The common loop of [kwait], [kwaitpid] and [kthread_join]. *)
Definition wait_loop (p : nat) (mine : proc -> bool) (done : nat -> K Z) : K Z :=
  acquire LWait ;;;
  while_loop fuel tt (fun _ =>
    let* r := scan_children p mine done in
    match r with
    | inr v => ret (inr v)
    | inl have =>
        let* k := (if (have : bool) then killed p else ret 1) in
        if negb (k =? 0) then release LWait ;;; ret (inr (-1))
        else sleep (CProc p) LWait ;;; ret (inl tt)
    end).

(** A zombie found by [kwait]/[kwaitpid]: its status goes to user memory. *)
Definition reap (p : nat) (addr : Z) (pp : nat) : K Z :=
  let* x := get_proc pp in
  let pid := p_pid x in
  let* pr := get_proc p in
  let* e := (if negb (addr =? 0) then copyout (p_pagetable pr) addr (enc 4 (p_xstate x)) else ret 0) in
  if e <? 0 then
    release (LProc pp) ;;; release LWait ;;; ret (-1)
  else
    freeproc pp ;;; release (LProc pp) ;;; release LWait ;;; ret pid.

Definition kwait (addr : Z) : K Z :=
  let* p := this_proc in
  wait_loop p (fun _ => true) (reap p addr).

Definition kwaitpid (wanted_pid addr : Z) : K Z :=
  let* p := this_proc in
  wait_loop p (fun x => p_pid x =? wanted_pid) (reap p addr).

Definition kthread_join (tid : Z) : K Z :=
  let* p := this_proc in
  wait_loop p (fun x => (p_pid x =? tid) && negb (p_is_thread x =? 0)) (fun pp =>
    let* x := get_proc pp in
    freeproc pp ;;; release (LProc pp) ;;; release LWait ;;; ret (p_xstate x)).

(** The end of [kexit] and [kthread_exit]: from [begin_op] on. *)
Definition exit_tail (p : nat) (status : Z) (msg : string) : K unit :=
  begin_op fuel ;;;
  let* pr := get_proc p in
  match p_cwd pr with Some c => iput fuel c | None => panic "kerneltrap" end ;;;
  end_op fuel ;;;
  mod_proc p (set_p_cwd None) ;;;
  acquire LWait ;;;
  reparent p ;;;
  let* pr := get_proc p in
  wakeup (chan_of (p_parent pr)) ;;;
  acquire (LProc p) ;;;
  mod_proc p (set_p_xstate status) ;;;
  mod_proc p (set_p_state ZOMBIE) ;;;
  release LWait ;;;
  sched ;;;
  panic msg.

Definition kexit (status : Z) : K unit :=
  let* p := this_proc in
  let* init := gets k_initproc in
  if decide (init = Some p) then panic "init exiting" else
  for_all (seq 0 (Z.to_nat NOFILE)) (fun fd =>
    let* pr := get_proc p in
    match default None (p_ofile pr !! fd) with
    | Some f => fileclose fuel f ;;; mod_proc p (fun x => set_p_ofile (<[fd := None]> (p_ofile x)) x)
    | None => skip
    end) ;;;
  exit_tail p status "zombie exit".

Definition kthread_exit (status : Z) : K unit :=
  let* p := this_proc in
  let* pr := get_proc p in
  (if p_is_thread pr =? 0 then kexit status else skip) ;;;
  for_all (seq 0 (Z.to_nat NOFILE)) (fun fd =>
    let* pr := get_proc p in
    match default None (p_ofile pr !! fd) with
    | Some f => mod_proc p (fun x => set_p_ofile (<[fd := None]> (p_ofile x)) x) ;;; fileclose fuel f
    | None => skip
    end) ;;;
  exit_tail p status "zombie thread_exit".

Definition userinit : K unit :=
  let* p := allocproc in
  modify (set_k_initproc p) ;;;
  match p with
  | None => panic "kerneltrap"
  | Some p =>
      let* c := namei fuel [47] in
      mod_proc p (set_p_cwd c) ;;;
      mod_proc p (set_p_state RUNNABLE) ;;;
      release (LProc p)
  end.
End Fuel.
