(* ===== verification/ShmSpec.v ===== *)
(** * Shared memory segments: [kshmget], [kshmdt], [shmcleanup]

    The reference count of a segment is the number of processes attached to it,
    its page exists exactly while it is positive, and attaching maps that page. *)
From S2P Require Import Prelude State CString Kalloc Vm PageTable VmSpec VmAlloc VmFrame Sched Printf Bytes Bio Log Fs File Proc.

Open Scope Z_scope.

(** ** The mask of attached segments *)
Definition is_key (key : nat) : Prop := (key < Z.to_nat SHM_PAGES)%nat.

Lemma shm_bit_testbit key j : 0 <= j -> Z.testbit (shm_bit key) j = bool_decide (j = Z.of_nat key).
Proof.
  intros Hj. unfold shm_bit. rewrite Z.shiftl_1_l, Z.pow2_bits_eqb by lia.
  destruct (Z.eqb_spec (Z.of_nat key) j); symmetry; [by apply bool_decide_eq_true|apply bool_decide_eq_false; lia].
Qed.

Lemma land_bit_eq mask key : Z.land mask (shm_bit key) = if Z.testbit mask (Z.of_nat key) then shm_bit key else 0.
Proof.
  apply Z.bits_inj'. intros j Hj. rewrite Z.land_spec, shm_bit_testbit by done.
  case_bool_decide as E; [subst j|]; destruct (Z.testbit mask (Z.of_nat key)) eqn:T; rewrite ?andb_true_r, ?andb_false_r.
  - by rewrite shm_bit_testbit, bool_decide_eq_true_2.
  - by rewrite Z.testbit_0_l.
  - by rewrite shm_bit_testbit, bool_decide_eq_false_2.
  - by rewrite Z.testbit_0_l.
Qed.

Lemma shm_attached_testbit mask key : shm_attached mask key = Z.testbit mask (Z.of_nat key).
Proof.
  unfold shm_attached. rewrite land_bit_eq. destruct (Z.testbit mask (Z.of_nat key)); [|done].
  destruct (Z.eqb_spec (shm_bit key) 0) as [E|]; [|done].
  pose proof (shm_bit_testbit key (Z.of_nat key) ltac:(lia)) as H. rewrite E, Z.testbit_0_l in H.
  by rewrite bool_decide_eq_true_2 in H.
Qed.

Lemma attached_set mask key j : shm_attached (Z.lor mask (shm_bit key)) j = bool_decide (j = key) || shm_attached mask j.
Proof.
  rewrite !shm_attached_testbit, Z.lor_spec, shm_bit_testbit by lia. rewrite orb_comm. f_equal.
  repeat case_bool_decide; done || lia.
Qed.

Lemma attached_clear mask key j :
  is_key key -> is_key j ->
  shm_attached (Z.land mask (uint32 (Z.lnot (shm_bit key)))) j = negb (bool_decide (j = key)) && shm_attached mask j.
Proof.
  unfold is_key. change (Z.to_nat SHM_PAGES) with 8%nat. intros Hk Hj.
  rewrite !shm_attached_testbit, Z.land_spec, andb_comm. f_equal.
  unfold uint32. rewrite Z.mod_pow2_bits_low by lia. rewrite Z.lnot_spec, shm_bit_testbit by lia. f_equal.
  repeat case_bool_decide; done || lia.
Qed.

Lemma attached_0 key : shm_attached 0 key = false.
Proof. by rewrite shm_attached_testbit, Z.testbit_0_l. Qed.

(** ** The invariant *)

(** The number of processes attached to a segment. *)
Definition attached_to (key : nat) (x : proc) : bool := shm_attached (p_shm_mask x) key.
Definition nattached (ps : list proc) (key : nat) : Z := Z.of_nat (length (List.filter (attached_to key) ps)).

Record shm_inv (s : kernel) (l : list Z) : Prop := {
  sh_len : length (k_shm s) = Z.to_nat SHM_PAGES;
  sh_procs : length (k_procs s) = Z.to_nat NPROC;
  sh_count : forall key, is_key key -> shm_refcnt (getshm s key) = nattached (k_procs s) key;
  sh_null : forall key, is_key key -> shm_pa (getshm s key) = 0 <-> shm_refcnt (getshm s key) = 0;
  sh_page : forall key, is_key key -> shm_pa (getshm s key) <> 0 ->
    valid_page (k_sym s) (shm_pa (getshm s key)) /\ shm_pa (getshm s key) ∉ l;
  sh_inj : forall key key', is_key key -> is_key key' -> shm_pa (getshm s key) <> 0 ->
    shm_pa (getshm s key) = shm_pa (getshm s key') -> key = key'
}.

Definition b2n (b : bool) : Z := if b then 1 else 0.
Lemma nattached_alter ps p x f key :
  ps !! p = Some x ->
  nattached (alter f p ps) key = nattached ps key - b2n (attached_to key x) + b2n (attached_to key (f x)).
Proof.
  unfold nattached. revert p. induction ps as [|y ps IH]; intros [|p] E; simplify_eq/=.
  - destruct (attached_to key x), (attached_to key (f x)); simpl; lia.
  - specialize (IH p E). destruct (attached_to key y); simpl; lia.
Qed.

Lemma nattached_le ps key : nattached ps key <= Z.of_nat (length ps).
Proof. unfold nattached. pose proof (List.filter_length_le (attached_to key) ps). lia. Qed.

Lemma nattached_pos ps p x key : ps !! p = Some x -> attached_to key x = true -> 0 < nattached ps key.
Proof.
  unfold nattached. revert p. induction ps as [|y ps IH]; intros [|p] E H; simplify_eq/=.
  - rewrite H. simpl. lia.
  - specialize (IH p E H). destruct (attached_to key y); simpl; lia.
Qed.

Lemma getshm_upd key j f s :
  is_key key -> length (k_shm s) = Z.to_nat SHM_PAGES ->
  getshm (upd_shm key f s) j = if decide (j = key) then f (getshm s j) else getshm s j.
Proof.
  intros Hk Hl. unfold getshm, upd_shm. simpl. case_decide as E.
  - subst. rewrite list_lookup_alter_eq. destruct (lookup_lt_is_Some_2 (k_shm s) key) as [x ->]; [|done].
    unfold is_key in Hk. lia.
  - by rewrite list_lookup_alter_ne.
Qed.

(** The page-table facts of a state only depend on the memory. *)
Lemma uvm_ext s s' l root lim :
  k_sym s' = k_sym s -> k_mem s' = k_mem s -> k_freelist s' = k_freelist s -> LKmem ∉ k_held s' ->
  uvm s l root lim -> uvm s' l root lim.
Proof.
  intros Es Em Ef Hh [[[F1 F2 F3] W _] U2 U3]. constructor; [|by rewrite Es, Em|by rewrite Em].
  constructor; [constructor|by rewrite Es, Em|done]; [by rewrite Em, Ef|done|by rewrite Es].
Qed.

(** ** Other page tables are left alone *)
Section Outside.
Context {sym : symbols} {m m' : gmap Z Z} {l : list Z} {root : Z} {P : Z -> Prop}.
Context (W : pt_wf sym m l root) (Ho : same_outside P m m').
Context (HP : forall a, P a -> valid_page sym a /\ ~ pt_page m root a).

Lemma outside_ent π p i : dpath π -> page m root π = Some p -> 0 <= i < 512 -> ent m' p i = ent m p i.
Proof.
  intros Hd Hp Hi. destruct (pw_valid _ _ _ _ W π p Hd Hp) as [Vp _]. unfold ent. apply load64_agree.
  intros b Hb. apply Ho. intros a Ha Hab. destruct (HP a Ha) as [Va Na].
  assert (a <> p) as Hne by (intros ->; apply Na; by exists π).
  destruct (valid_page_disjoint sym a p Va Vp Hne); unfold PGSIZE in *; lia.
Qed.

Lemma outside_page π : dpath π -> page m' root π = page m root π.
Proof.
  intros Hd. apply page_frame; [done|]. intros π' i p Hd' Hp.
  apply dpath_snoc in Hd' as (? & ? & _). by eapply outside_ent.
Qed.

Lemma outside_lookup va : pt_lookup m' root va = pt_lookup m root va.
Proof.
  unfold pt_lookup, leaf_page. rewrite outside_page by auto with kernel.
  destruct (page m root [PX 2 va; PX 1 va]) as [p|] eqn:E; [|done].
  eapply (outside_ent [PX 2 va; PX 1 va]); [auto with kernel|done|by apply PX_range].
Qed.

Lemma outside_wf l' : (forall x, x ∈ l' -> ~ pt_page m root x) -> pt_wf sym m' l' root.
Proof.
  intros Hl. destruct W as [W1 W2 W3] eqn:EW. constructor.
  - intros π π' x Hd Hd'. rewrite !outside_page by done. by apply W1.
  - intros π x Hd. rewrite outside_page by done. intros Hp. split; [by eapply W2|].
    intros Hx. apply (Hl x Hx). by exists π.
  - intros π p i Hd Hp Hv. destruct (dpath_snoc _ _ Hd) as (Hd' & Hi & _).
    rewrite outside_page in Hp by done. erewrite outside_ent in Hv |- * by done. by eapply W3.
Qed.
End Outside.

(** A table that shares no page with the one at [root]. *)
Definition apart (s : kernel) (l : list Z) (root root2 : Z) : Prop :=
  pt_wf (k_sym s) (k_mem s) l root2 /\ forall x, pt_page (k_mem s) root2 x -> ~ pt_page (k_mem s) root x.

Lemma pt_frame_other s l s' l' root root2 :
  pt_state s l root -> pt_frame s l s' l' root -> apart s l root root2 ->
  forall va, pt_lookup (k_mem s') root2 va = pt_lookup (k_mem s) root2 va.
Proof.
  intros Hs [_ _ (used & -> & Ho & _) _] [W2 Hd]. apply (outside_lookup W2 Ho).
  intros a [(π & Hπ & Hp)|Hu].
  - split; [by apply (pw_valid _ _ _ _ (ps_wf _ _ _ Hs) π a)|]. intros H. apply (Hd a H). by exists π.
  - split.
    + destruct (ps_free _ _ _ Hs) as [_ _ Hv]. rewrite Forall_app in Hv. destruct Hv as [Hv _]. rewrite Forall_forall in Hv. by apply Hv.
    + intros (π & Hπ & Hp). destruct (pw_valid _ _ _ _ W2 π a Hπ Hp) as [_ []]. set_solver.
Qed.

(** ** Attaching *)

(** The state after a successful [kshmget]: the count and the mask are updated
    and nothing else but memory. *)
Definition attach (p key : nat) (pa : Z) (s : kernel) : kernel :=
  upd_proc p (fun x => set_p_shm_mask (Z.lor (p_shm_mask x) (shm_bit key)) x)
    (upd_shm key (fun x => mkShmseg pa (int32 (shm_refcnt x + 1))) s).

Lemma shm_va_ok key : is_key key -> va_ok (shm_va key) /\ shm_va key < TRAPFRAME.
Proof.
  unfold is_key, va_ok, shm_va. change (Z.to_nat SHM_PAGES) with 8%nat. intros H. kconst.
  split; [split; [lia|]|lia]. replace 274877865984 with (67108854 * 4096) by lia.
  rewrite <- Z.mul_add_distr_r. apply Z.mod_mul. lia.
Qed.

Lemma shm_perm_range : 0 <= shm_perm < 1024.
Proof. vm_compute. split; congruence. Qed.

(** The invariant over a state that differs only in memory and locks. *)
Lemma shm_inv_ext s s' l l' :
  k_sym s' = k_sym s -> k_shm s' = k_shm s -> k_procs s' = k_procs s -> (forall a, a ∈ l' -> a ∈ l) ->
  shm_inv s l -> shm_inv s' l'.
Proof.
  intros E1 E2 E3 Hl [I1 I2 I3 I4 I5 I6].
  assert (forall key, getshm s' key = getshm s key) as Eg by (intros; unfold getshm; by rewrite E2).
  constructor; rewrite ?E1, ?E2, ?E3; try done; try (by intros key; rewrite Eg; auto).
  - intros key. rewrite Eg. intros Hk Hp. destruct (I5 key Hk Hp). split; [done|auto].
  - intros key key'. rewrite !Eg. auto.
Qed.

Lemma attach_inv s l p key pa :
  shm_inv s l -> is_key key -> (p < Z.to_nat NPROC)%nat -> attached_to key (getproc s p) = false ->
  valid_page (k_sym s) pa -> pa ∉ l ->
  (forall j, is_key j -> j <> key -> shm_pa (getshm s j) <> pa) ->
  shm_inv (attach p key pa s) l.
Proof.
  intros [I1 I2 I3 I4 I5 I6] Hk Hp Hna Hv Hl Hd.
  destruct (lookup_lt_is_Some_2 (k_procs s) p) as [x Hx]; [lia|].
  rewrite (getproc_lookup _ _ _ Hx) in Hna.
  assert (forall j, nattached (k_procs (attach p key pa s)) j = nattached (k_procs s) j + b2n (bool_decide (j = key))) as Hn.
  { intros j. unfold attach, upd_proc, upd_shm. simpl. rewrite (nattached_alter _ _ x) by done.
    unfold attached_to at 2. simpl. rewrite attached_set. fold (attached_to j x).
    case_bool_decide as E; [subst j; rewrite Hna; simpl; lia|simpl; lia]. }
  assert (forall j, getshm (attach p key pa s) j =
    if decide (j = key) then mkShmseg pa (shm_refcnt (getshm s key) + 1) else getshm s j) as Eg.
  { intros j. change (getshm (attach p key pa s) j) with (getshm (upd_shm key (fun x => mkShmseg pa (int32 (shm_refcnt x + 1))) s) j).
    rewrite getshm_upd by done. case_decide; [subst j|done]. f_equal. apply int32_small.
    rewrite I3 by done. pose proof (nattached_le (k_procs s) key) as Hle. rewrite I2 in Hle.
    change (Z.of_nat (Z.to_nat NPROC)) with 64 in Hle. unfold nattached in *. lia. }
  assert (0 < pa) as Hpa0 by (destruct Hv as (_ & _ & ?); lia).
  constructor.
  - unfold attach. simpl. by rewrite length_alter.
  - unfold attach. simpl. by rewrite length_alter.
  - intros j Hj. rewrite Hn, Eg. case_decide as E; [subst j; rewrite bool_decide_eq_true_2 by done|rewrite bool_decide_eq_false_2 by done]; simpl; rewrite I3 by done; lia.
  - intros j Hj. rewrite Eg. case_decide; [|by apply I4]. simpl. rewrite I3 by done. unfold nattached. lia.
  - intros j Hj. rewrite Eg. case_decide; [done|]. by apply I5.
  - intros j j' Hj Hj'. rewrite !Eg. repeat case_decide; subst; simpl; try done; [|by intros Hz E; destruct (Hd j Hj)| by apply I6].
    intros _ E. by destruct (Hd j' Hj').
Qed.

(** A state inside [kshmget]: locks, the segment and memory changed. *)
Definition stage (key : nat) (h : list lockid) (f : shmseg -> shmseg) (m : gmap Z Z) (fl : Z) (s : kernel) : kernel :=
  set_k_held h (upd_shm key f (with_mem m fl s)).

Lemma stage_mem key h f m fl s s' :
  mem_only (stage key h f m fl s) s' -> s' = stage key h f (k_mem s') (k_freelist s') s.
Proof. unfold mem_only. intros ->. by destruct s. Qed.

Lemma upd_shm_twice key f g s : upd_shm key f (upd_shm key g s) = upd_shm key (fun x => f (g x)) s.
Proof.
  unfold upd_shm. destruct s. unfold set_k_shm. simpl. f_equal. apply list_eq. intros j.
  destruct (decide (key = j)) as [->|]; [|by rewrite !list_lookup_alter_ne].
  rewrite !list_lookup_alter_eq. by destruct (_ !! j).
Qed.

Lemma stage_upd key h f g m fl s : upd_shm key g (stage key h f m fl s) = stage key h (fun x => g (f x)) m fl s.
Proof.
  transitivity (set_k_held h (upd_shm key g (upd_shm key f (with_mem m fl s)))); [by destruct s|].
  by rewrite upd_shm_twice.
Qed.

Lemma upd_shm_id key f s : f (getshm s key) = getshm s key -> upd_shm key f s = s.
Proof.
  intros H. unfold upd_shm, getshm in *. destruct s. unfold set_k_shm. simpl in *. f_equal.
  apply list_eq. intros j. destruct (decide (key = j)) as [->|]; [|by rewrite list_lookup_alter_ne].
  rewrite list_lookup_alter_eq. destruct (_ !! j); simpl in *; [by rewrite H|done].
Qed.

Lemma stage_release key h f m fl s lk :
  release lk (stage key (lk :: h) f m fl s) = Ret tt (stage key h f m fl s).
Proof. erewrite release_top by reflexivity. by destruct s. Qed.

Lemma stage_id key s : stage key (k_held s) (fun x => x) (k_mem s) (k_freelist s) s = s.
Proof.
  unfold stage. rewrite upd_shm_id by done. unfold with_mem. by destruct s.
Qed.

Lemma stage_attach p key m fl s pa f :
  (forall x, f x = mkShmseg pa (shm_refcnt x)) ->
  (let* _ := mod_shm key (fun x => mkShmseg (shm_pa x) (int32 (shm_refcnt x + 1))) in
   mod_proc p (fun x => set_p_shm_mask (Z.lor (p_shm_mask x) (shm_bit key)) x) ;;;
   release (LShm key) ;;; ret (shm_va key)) (stage key (LShm key :: k_held s) f m fl s)
  = Ret (shm_va key) (attach p key pa (with_mem m fl s)).
Proof.
  intros Hf. erewrite bind_ret_eq by reflexivity. rewrite stage_upd.
  erewrite bind_ret_eq by reflexivity. erewrite bind_ret_eq by (by apply release_top). unfold ret. f_equal.
  unfold attach, stage. transitivity (upd_proc p (fun x => set_p_shm_mask (Z.lor (p_shm_mask x) (shm_bit key)) x)
    (upd_shm key (fun x => mkShmseg (shm_pa (f x)) (int32 (shm_refcnt (f x) + 1))) (with_mem m fl s))); [by destruct s|].
  f_equal. unfold upd_shm. f_equal. apply list_eq. intros j.
  destruct (decide (key = j)) as [->|]; [|by rewrite !list_lookup_alter_ne].
  rewrite !list_lookup_alter_eq. destruct (k_shm (with_mem m fl s) !! j); simpl; [|done]. by rewrite Hf.
Qed.

(** ** What [kshmget] does to memory *)
Record shm_mem (s : kernel) (l : list Z) (root : Z) (m : gmap Z Z) (fl : Z) (l' : list Z) : Prop := {
  sm_state : pt_state (with_mem m fl s) l' root;
  sm_pool : forall a, a ∈ l' -> a ∈ l;
  sm_tree : forall x, pt_page m root x -> pt_page (k_mem s) root x \/ x ∈ l;
  sm_outside : same_outside (fun a => pt_page (k_mem s) root a \/ a ∈ l) (k_mem s) m
}.

Inductive shmget_result (s : kernel) (l : list Z) (p key : nat) (root : Z) : run kernel Z -> Prop :=
| shmget_no m fl l' : shm_mem s l root m fl l' -> (length l <= 2)%nat ->
    (forall a, va_ok a -> pt_lookup m root a = pt_lookup (k_mem s) root a) ->
    shmget_result s l p key root (Ret 0 (with_mem m fl s))
| shmget_yes pa m fl l' : shm_mem s l root m fl l' -> mapped (k_mem s) m root (shm_va key) pa shm_perm 1 ->
    valid_page (k_sym s) pa -> pa ∉ l' -> ~ pt_page m root pa ->
    (shm_pa (getshm s key) <> 0 -> pa = shm_pa (getshm s key)) ->
    (shm_pa (getshm s key) = 0 -> pa ∈ l /\ forall i, 0 <= i < PGSIZE -> load8 m (pa + i) = 0) ->
    shmget_result s l p key root (Ret (shm_va key) (attach p key pa (with_mem m fl s))).

Lemma uvm_pt s l root : pt_state s l root -> uvm s l root 0.
Proof. intros Hs. constructor; [done|unfold va_ok; lia|unfold va_ok; lia]. Qed.

Lemma pt_state_ext s s' l root :
  k_sym s' = k_sym s -> k_mem s' = k_mem s -> k_freelist s' = k_freelist s -> LKmem ∉ k_held s' ->
  pt_state s l root -> pt_state s' l root.
Proof.
  intros Es Em Ef Hh Hs. refine (uv_pt _ _ _ 0 (uvm_ext s s' l root 0 Es Em Ef Hh _)). by apply uvm_pt.
Qed.

(** [kshmget] once the segment has a page. *)
Definition get_rest (p : nat) (root : Z) (k : nat) (newpage : bool) : K Z :=
  let* x := get_shm k in
  let* e := mappages root (shm_va k) PGSIZE (shm_pa x) shm_perm in
  if e <? 0 then
    (if newpage then kfree (shm_pa x) ;;; mod_shm k (fun x => mkShmseg 0 (shm_refcnt x)) else skip) ;;;
    release (LShm k) ;;;
    ret 0
  else
    mod_shm k (fun x => mkShmseg (shm_pa x) (int32 (shm_refcnt x + 1))) ;;;
    mod_proc p (fun x => set_p_shm_mask (Z.lor (p_shm_mask x) (shm_bit k)) x) ;;;
    release (LShm k) ;;;
    ret (shm_va k).

Section Get.
Context (s : kernel) (l : list Z) (p key : nat) (root : Z).
Context (Hs : pt_state s l root) (Hk : is_key key) (Hlk : LShm key ∉ k_held s).
Context (Hno : has (pt_lookup (k_mem s) root (shm_va key)) PTE_V = false).
Let h : list lockid := LShm key :: k_held s.
Let f (pa : Z) (x : shmseg) : shmseg := mkShmseg pa (shm_refcnt x).

Lemma held_kmem : LKmem ∉ h.
Proof. unfold h. pose proof (ps_lock _ _ _ Hs). set_solver. Qed.

Lemma stage_state m fl l' g : pt_state (with_mem m fl s) l' root -> pt_state (stage key h g m fl s) l' root.
Proof. apply pt_state_ext; try (by destruct s). apply held_kmem. Qed.

Lemma stage_frame m fl g s' l' l0 :
  pt_state (with_mem m fl s) l0 root -> pt_frame (stage key h g m fl s) l0 s' l' root ->
  exists m' fl', s' = stage key h g m' fl' s /\ pt_frame (with_mem m fl s) l0 (with_mem m' fl' s) l' root.
Proof.
  intros Hs0 [F1 F2 F3 F4]. pose proof (stage_mem _ _ _ _ _ _ _ F2) as E.
  exists (k_mem s'), (k_freelist s'). split; [done|].
  constructor; simpl; [|by destruct s|done|done].
  destruct (mem_only_fields _ _ F2) as (Es & _).
  apply (pt_state_ext s'); [by rewrite Es; destruct s|by destruct s|by destruct s|apply Hs|done].
Qed.

(** The last part: mapping the page and counting. *)
Lemma shmget_map m fl l0 pa :
  pt_state (with_mem m fl s) l0 root -> valid_page (k_sym s) pa ->
  (forall a, va_ok a -> pt_lookup m root a = pt_lookup (k_mem s) root a) ->
  exists rc m' fl' l', mappages root (shm_va key) PGSIZE pa shm_perm (stage key h (f pa) m fl s)
    = Ret rc (stage key h (f pa) m' fl' s)
  /\ pt_frame (with_mem m fl s) l0 (with_mem m' fl' s) l' root
  /\ ((rc = 0 /\ mapped (k_mem s) m' root (shm_va key) pa shm_perm 1)
      \/ (rc = -1 /\ (l' = [] /\ (length l0 <= 1)%nat) /\ forall a, va_ok a -> pt_lookup m' root a = pt_lookup (k_mem s) root a)).
Proof.
  intros Hs0 (Va1 & Va2 & Va3) Hlk0. destruct (shm_va_ok key Hk) as [Hva Hvb].
  destruct (mappages_spec (stage key h (f pa) m fl s) l0 root (shm_va key) PGSIZE pa shm_perm)
    as (rc & j & s' & l' & E & F & Mp & Hrc);
    try (unfold va_ok in Hva; done || (kconst; unfold PGSIZE in *; dlia)).
  - by apply stage_state.
  - intros a Ha Hr. assert (a = shm_va key) as -> by (unfold va_ok, PGSIZE in *; dlia). simpl. by rewrite Hlk0.
  - destruct (stage_frame m fl (f pa) s' l' l0 Hs0 F) as (m' & fl' & -> & F'). exists rc, m', fl', l'.
    split; [done|]. split; [done|]. change (PGSIZE / PGSIZE) with 1 in Hrc. simpl in Mp.
    destruct Hrc as [[-> ->]|(-> & Hj & ->)]; [left|right]; (split; [done|]).
    + intros a Ha. rewrite (Mp a Ha). case_decide; [done|]. by apply Hlk0.
    + split; [split; [done|lia]|]. assert (j = 0) as -> by lia. intros a Ha. rewrite (Mp a Ha), decide_False by lia. by apply Hlk0.
Qed.

Lemma shm_mem_frame m fl m' fl' l0 l' :
  shm_mem s l root m fl l0 -> pt_frame (with_mem m fl s) l0 (with_mem m' fl' s) l' root ->
  shm_mem s l root m' fl' l'.
Proof.
  intros [M1 M2 Ht M3] [F1 _ (used & E & Ho & Hp & _) _]. simpl in Ho, Hp. constructor; [done| | |].
  - intros a Ha. apply M2. rewrite E. set_solver.
  - intros x [Hx|Hx]%Hp; [by apply Ht|]. right. apply M2. rewrite E. set_solver.
  - intros b Hb. rewrite Ho, M3; [done| |].
    + intros a Ha. by apply Hb.
    + intros a [Ha|Ha]; apply Hb; [by apply Ht|]. right. apply M2. rewrite E. set_solver.
Qed.

(** The segment has its page already. *)
Lemma shmget_old :
  shm_inv s l -> shm_pa (getshm s key) <> 0 -> ~ pt_page (k_mem s) root (shm_pa (getshm s key)) ->
  shmget_result s l p key root (get_rest p root key false (set_k_held h s)).
Proof.
  intros Inv Hpa Htr. set (pa := shm_pa (getshm s key)) in *.
  destruct (sh_page s l Inv key Hk Hpa) as [Vp Np]. fold pa in Vp, Np.
  assert (shm_mem s l root (k_mem s) (k_freelist s) l) as M0.
  { constructor; [by rewrite with_mem_id|done|by left|]. intros b _. done. }
  unfold get_rest. erewrite bind_ret_eq by reflexivity.
  change (getshm (set_k_held h s) key) with (getshm s key). fold pa.
  assert (set_k_held h s = stage key h (f pa) (k_mem s) (k_freelist s) s) as ->.
  { unfold stage. rewrite upd_shm_id; [by destruct s|]. change (f pa (getshm s key) = getshm s key). unfold f, pa.
    by destruct (getshm s key). }
  destruct (shmget_map (k_mem s) (k_freelist s) l pa) as (rc & m' & fl' & l' & E & F & Hrc);
    [by rewrite with_mem_id|done|done|].
  pose proof (shm_mem_frame _ _ _ _ _ _ M0 F) as M1. erewrite bind_ret_eq by exact E.
  destruct Hrc as [[-> Mp]|(-> & [-> Hlen] & Hl)]; simpl.
  - rewrite (stage_attach p key m' fl' s pa) by done. eapply shmget_yes; try done.
    + intros Hl'. apply Np. by apply (sm_pool _ _ _ _ _ _ M1).
    + intros [?|?]%(sm_tree _ _ _ _ _ _ M1); done.
  - erewrite bind_ret_eq by reflexivity. erewrite bind_ret_eq by apply stage_release. unfold ret, stage. rewrite upd_shm_id.
    + replace (set_k_held (k_held s) (with_mem m' fl' s)) with (with_mem m' fl' s) by by destruct s.
      eapply shmget_no; [exact M1|lia|done].
    + change (f pa (getshm s key) = getshm s key). unfold f, pa. by destruct (getshm s key).
Qed.

(** The new page [r] cannot be mapped and goes back to the pool. *)
Lemma shmget_back m fl r :
  shm_mem s l root m fl [] -> fresh_page (with_mem m fl s) [] root 0 r -> r ∈ l -> (length l <= 2)%nat ->
  (forall a, va_ok a -> pt_lookup m root a = pt_lookup (k_mem s) root a) ->
  shm_pa (getshm s key) = 0 ->
  shmget_result s l p key root
    (((kfree r ;;; mod_shm key (fun x => mkShmseg 0 (shm_refcnt x))) ;;; release (LShm key) ;;; ret 0)
       (stage key h (f r) m fl s)).
Proof.
  intros [M1 M2 Ht M3] Hf Hr Hlen Hl0 Hpa.
  destruct (kfree_fresh (stage key h (f r) m fl s) [] root 0 r) as (s' & E & U & Sh & L).
  { apply uvm_pt. by apply stage_state. }
  { destruct Hf as [F1 F2 F3 F4]. constructor; [by destruct s|done|by destruct s|by destruct s]. }
  pose proof (stage_mem _ _ _ _ _ _ _ (sh_mem _ _ _ _ Sh)) as Es.
  erewrite bind_ret_eq by (erewrite bind_ret_eq by exact E; reflexivity).
  set (m' := k_mem s') in *. set (fl' := k_freelist s') in *. rewrite Es, stage_upd.
  erewrite bind_ret_eq by apply stage_release. unfold ret, stage. rewrite upd_shm_id.
  2: { change (mkShmseg 0 (shm_refcnt (f r (getshm s key))) = getshm s key). unfold f. simpl. rewrite <- Hpa.
       by destruct (getshm s key). }
  replace (set_k_held (k_held s) (with_mem m' fl' s)) with (with_mem m' fl' s) by by destruct s.
  apply (shmget_no s l p key root m' fl' [r]); [|done|].
  - constructor; [|set_solver| |].
    + apply (pt_state_ext s'); [|done|done|apply Hs|apply U].
      destruct (mem_only_fields _ _ (sh_mem _ _ _ _ Sh)) as (Ey & _). rewrite Ey. by destruct s.
    + intros x Hx. apply Ht. by apply (shrinks_pt_page _ _ _ _ _ Sh).
    + intros b Hb. unfold m'. rewrite (sh_outside _ _ _ _ Sh); [by apply M3|].
      intros a [Ha|Ha]; apply Hb; [by apply Ht|right; set_solver].
  - intros a Ha. unfold m'. rewrite L. by apply Hl0.
Qed.

(** The rest of [kshmget] with a fresh zeroed page [r]. *)
Lemma shmget_fresh m fl r l0 :
  shm_inv s l -> l = r :: l0 -> shm_pa (getshm s key) = 0 -> same_but r (k_mem s) m -> fl = load64 (k_mem s) r ->
  (forall i, 0 <= i < PGSIZE -> load8 m (r + i) = 0) ->
  shmget_result s l p key root (get_rest p root key true (stage key h (f r) m fl s)).
Proof.
  intros Inv El Hpa Hsb -> Hz. pose proof (uvm_pt s l root Hs) as U0. rewrite El in U0.
  destruct (take_page s r l0 root 0 m U0 Hsb) as (U & L & T). set (fl := load64 (k_mem s) r) in *.
  pose proof (take_page_fresh s r l0 root 0 m U0 Hsb) as Fr. fold fl in Fr.
  pose proof (pool_step_take root 0 s r l0 m U0 Hsb) as St. fold fl in St. rewrite <- El in St.
  assert (shm_mem s l root m fl l0) as M0 by (constructor; [apply U|set_solver|apply St..]).
  unfold get_rest. erewrite bind_ret_eq by reflexivity.
  assert (shm_pa (getshm (stage key h (f r) m fl s) key) = r) as ->.
  { change (shm_pa (getshm (upd_shm key (f r) (with_mem m fl s)) key) = r).
    rewrite getshm_upd by (done || apply Inv). by rewrite decide_True. }
  destruct (shmget_map m fl l0 r) as (rc & m' & fl' & l' & E & F & Hrc); [apply U|apply Fr|intros; apply L|].
  pose proof (shm_mem_frame _ _ _ _ _ _ M0 F) as M1. erewrite bind_ret_eq by exact E.
  pose proof (pool_step_frame _ _ _ _ _ F) as St'.
  destruct Hrc as [[-> Mp]|(-> & [-> Hlen] & Hl)]; simpl.
  - rewrite (stage_attach p key m' fl' s r) by done. eapply shmget_yes; try done; [apply Fr| | |].
    + intros Hl'. apply (fp_notfree _ _ _ _ _ Fr). destruct F as [_ _ (used & -> & _) _]. set_solver.
    + destruct F as [_ _ (used & -> & _ & Hp & _) _]. destruct Fr as [_ Hn1 Hn2 _].
      intros [?|?]%Hp; [done|set_solver].
    + intros _. split; [set_solver|]. intros i Hi.
      pose proof (pool_step_byte root 0 0 ltac:(by vm_compute) _ _ _ r i St' U (fp_valid _ _ _ _ _ Fr)
        (fp_notfree _ _ _ _ _ Fr) (fp_nottree _ _ _ _ _ Fr) Hi) as Hb. simpl in Hb. rewrite Hb. by apply Hz.
  - apply shmget_back; try done; [|set_solver|rewrite El; simpl; lia].
    eapply (fresh_page_frame _ _ _ _ _ _ _ Fr F). simpl. intros a Ha. by rewrite Hl, L.
Qed.

(** The segment has no page: one is taken from the pool. *)
Lemma shmget_alloc :
  shm_inv s l -> shm_pa (getshm s key) = 0 ->
  shmget_result s l p key root
    ((let* newpage := (let* pa := kalloc in
        mod_shm key (fun x => mkShmseg pa (shm_refcnt x)) ;;;
        if pa =? 0 then release (LShm key) ;;; ret None else memsetK pa 0 PGSIZE ;;; ret (Some true)) in
      match newpage with None => ret 0 | Some newpage => get_rest p root key newpage end) (set_k_held h s)).
Proof.
  intros Inv Hpa. set (s1 := set_k_held h s).
  assert (pt_state s1 l root) as Hs1 by (apply (pt_state_ext s); [done..|apply held_kmem|done]).
  pose proof (ps_free _ _ _ Hs1) as Hfi. pose proof (ps_lock _ _ _ Hs1) as Hkm.
  assert (l = [] \/ exists r l0, l = r :: l0) as [El|(r & l0 & El)] by (destruct l; eauto).
  - assert (forall x, mkShmseg 0 (shm_refcnt (getshm s key)) = x -> getshm s key = x) as Hid.
    { intros x <-. rewrite <- Hpa. by destruct (getshm s key). }
    rewrite El in Hfi. erewrite bind_ret_eq.
    2: { erewrite bind_ret_eq by (by apply kalloc_nil). erewrite bind_ret_eq by reflexivity. simpl.
         rewrite upd_shm_id by (symmetry; by apply Hid).
         erewrite bind_ret_eq by (by apply release_top). reflexivity. }
    unfold ret. replace (set_k_held _ s1) with (with_mem (k_mem s) (k_freelist s) s) by by destruct s.
    apply (shmget_no s l p key root _ _ l); [|rewrite El; simpl; lia|done].
    constructor; [by rewrite with_mem_id|done|by left|done].
  - rewrite El in Hfi. destruct (kalloc_cons _ r l0 Hfi Hkm) as [E _].
    assert (r =? 0 = false) as Hr0.
    { destruct Hfi as [_ _ Hv]. apply Forall_cons in Hv as [(_ & _ & ?) _]. lia. }
    erewrite bind_ret_eq.
    2: { erewrite bind_ret_eq by exact E. erewrite bind_ret_eq by reflexivity. rewrite Hr0.
         erewrite bind_ret_eq by reflexivity. reflexivity. }
    set (m := memset (memset (k_mem s) r 5 PGSIZE) r 0 PGSIZE).
    match goal with |- shmget_result _ _ _ _ _ (_ ?st) =>
      replace st with (stage key h (f r) m (load64 (k_mem s) r) s) by by destruct s end.
    apply (shmget_fresh m _ r l0); try done.
    + eapply same_but_trans; apply same_but_memset.
    + intros i Hi. unfold m. rewrite load8_memset, decide_True by (unfold PGSIZE in *; lia). done.
Qed.

Lemma kshmget_result :
  shm_inv s l -> k_cur s = Some p -> attached_to key (getproc s p) = false -> p_pagetable (getproc s p) = root ->
  (shm_pa (getshm s key) <> 0 -> ~ pt_page (k_mem s) root (shm_pa (getshm s key))) ->
  shmget_result s l p key root (kshmget (Z.of_nat key) s).
Proof.
  intros Inv Hc Ha Hr Hseg. unfold kshmget. erewrite bind_ret_eq by (by apply this_proc_ret).
  erewrite bind_ret_eq by reflexivity. unfold attached_to in Ha. rewrite Nat2Z.id, Ha, Hr.
  rewrite (proj2 (Z.ltb_ge _ _)) by lia. rewrite (proj2 (Z.leb_gt _ _)) by (unfold is_key in Hk; lia). cbn [orb].
  erewrite bind_ret_eq by (by apply acquire_ok). fold h. erewrite bind_ret_eq by reflexivity.
  change (getshm (set_k_held h s) key) with (getshm s key). unfold is_null. destruct (Z.eqb_spec (shm_pa (getshm s key)) 0) as [Hz|Hz].
  - by apply shmget_alloc.
  - erewrite bind_ret_eq by reflexivity. apply shmget_old; auto.
Qed.
End Get.
