(* ===== verification/ShmSys.v ===== *)
(** * Shared memory as a whole

    The invariant of all processes' page tables and segments together, that
    [kshmget] and [kshmdt] by any process keep it, and what it says about every
    sequence of calls. *)
From S2P Require Import Prelude State CString Kalloc Vm PageTable VmSpec VmAlloc VmFrame Sched Printf Bytes Bio Log Fs File Proc ShmSpec.

Open Scope Z_scope.

(** ** The invariant *)
Definition has_table (s : kernel) (q : nat) (root : Z) : Prop :=
  (q < Z.to_nat NPROC)%nat /\ p_pagetable (getproc s q) = root /\ root <> 0.

(** What process [q] sees at the addresses of the segments: the segment's page,
    readable and writable from user mode, where it is attached; nothing elsewhere. *)
Definition shm_view (s : kernel) (q : nat) (root : Z) : Prop :=
  forall key, is_key key ->
  if attached_to key (getproc s q)
  then pt_lookup (k_mem s) root (shm_va key) = mk_pte (shm_pa (getshm s key)) shm_perm
  else has (pt_lookup (k_mem s) root (shm_va key)) PTE_V = false.

Record shm_sys (s : kernel) (l : list Z) : Prop := {
  ss_inv : shm_inv s l;
  ss_free : free_inv s l;
  ss_lock : LKmem ∉ k_held s;
  ss_wf : forall q root, has_table s q root -> pt_wf (k_sym s) (k_mem s) l root;
  ss_view : forall q root, has_table s q root -> shm_view s q root;
  ss_apart : forall q q' root root' x, has_table s q root -> has_table s q' root' -> q <> q' ->
    pt_page (k_mem s) root x -> ~ pt_page (k_mem s) root' x;
  ss_segs : forall q root key, has_table s q root -> is_key key -> shm_pa (getshm s key) <> 0 ->
    ~ pt_page (k_mem s) root (shm_pa (getshm s key))
}.

(** Pages of the pool and of the segments. *)
Definition own (s : kernel) (l : list Z) (a : Z) : Prop :=
  a ∈ l \/ exists key, is_key key /\ a = shm_pa (getshm s key) /\ a <> 0.

Section Step.
Context (s : kernel) (l : list Z) (p : nat) (root : Z).
Context (Sys : shm_sys s l) (Hp : has_table s p root).

Lemma sys_pt_state q r : has_table s q r -> pt_state s l r.
Proof. intros H. constructor; [apply Sys|by apply (ss_wf _ _ Sys q)|apply Sys]. Qed.

Lemma own_valid a : own s l a -> valid_page (k_sym s) a.
Proof.
  intros [Ha|(key & Hk & -> & Hz)].
  - destruct (ss_free _ _ Sys) as [_ _ Hv]. rewrite Forall_forall in Hv. by apply Hv.
  - by apply (sh_page _ _ (ss_inv _ _ Sys) key).
Qed.

Lemma own_apart q r a : has_table s q r -> own s l a -> ~ pt_page (k_mem s) r a.
Proof.
  intros Hq [Ha|(key & Hk & -> & Hz)].
  - eapply pt_page_free; [by eapply sys_pt_state|done].
  - by apply (ss_segs _ _ Sys q).
Qed.

Lemma tree_valid q r a : has_table s q r -> pt_page (k_mem s) r a -> valid_page (k_sym s) a.
Proof. intros Hq (π & Hd & E). by apply (pw_valid _ _ _ _ (ss_wf _ _ Sys q r Hq) π). Qed.

(** A step of process [p] that writes to its own tree, to pages of the pool and
    to segments. *)
Context (s' : kernel) (l' : list Z).
Context (Hsym : k_sym s' = k_sym s) (Hlock : LKmem ∉ k_held s').
Context (Hpt : forall q, p_pagetable (getproc s' q) = p_pagetable (getproc s q)).
Context (Hout : same_outside (fun a => pt_page (k_mem s) root a \/ own s l a) (k_mem s) (k_mem s')).

Lemma step_has_table q r : has_table s' q r <-> has_table s q r.
Proof. unfold has_table. by rewrite Hpt. Qed.

Lemma step_other q r a :
  has_table s q r -> q <> p -> pt_page (k_mem s) root a \/ own s l a ->
  valid_page (k_sym s) a /\ ~ pt_page (k_mem s) r a.
Proof.
  intros Hq Hne [Ha|Ha].
  - split; [by apply (tree_valid p root)|]. apply (ss_apart _ _ Sys p q root r); auto.
  - split; [by apply own_valid|by apply (own_apart q)].
Qed.

Lemma step_lookup q r va :
  has_table s q r -> q <> p -> pt_lookup (k_mem s') r va = pt_lookup (k_mem s) r va.
Proof.
  intros Hq Hne. eapply (outside_lookup (ss_wf _ _ Sys q r Hq) Hout). intros a Ha. by apply (step_other q).
Qed.

Lemma step_pages q r x :
  has_table s q r -> q <> p -> pt_page (k_mem s') r x <-> pt_page (k_mem s) r x.
Proof.
  intros Hq Hne. unfold pt_page.
  assert (forall π, dpath π -> page (k_mem s') r π = page (k_mem s) r π) as E.
  { intros π. eapply (outside_page (ss_wf _ _ Sys q r Hq) Hout). intros a Ha. by apply (step_other q). }
  split; intros (π & Hd & Hx); exists π; (split; [done|]); [by rewrite <- E|by rewrite E].
Qed.

Context (Hpool : forall a, a ∈ l' -> own s l a).

Lemma step_wf q r : has_table s q r -> q <> p -> pt_wf (k_sym s') (k_mem s') l' r.
Proof.
  intros Hq Hne. rewrite Hsym. eapply (outside_wf (ss_wf _ _ Sys q r Hq) Hout).
  - intros a Ha. by apply (step_other q).
  - intros x Hx. apply (own_apart q); auto.
Qed.

Context (Hinv : shm_inv s' l') (Hst : pt_state s' l' root).
Context (Htree : forall x, pt_page (k_mem s') root x -> pt_page (k_mem s) root x \/ x ∈ l).
Context (Hmask : forall q, q <> p -> p_shm_mask (getproc s' q) = p_shm_mask (getproc s q)).
Context (Hview : shm_view s' p root).
Context (Hseg : forall q key, is_key key -> (q < Z.to_nat NPROC)%nat -> q <> p ->
  attached_to key (getproc s q) = true -> shm_pa (getshm s' key) = shm_pa (getshm s key)).
Context (Hsegs : forall key, is_key key -> shm_pa (getshm s' key) <> 0 ->
  own s l (shm_pa (getshm s' key)) /\ ~ pt_page (k_mem s') root (shm_pa (getshm s' key))).

Lemma step_sys : shm_sys s' l'.
Proof.
  assert (forall q r x, has_table s q r -> q <> p -> pt_page (k_mem s') root x -> ~ pt_page (k_mem s') r x) as Hap.
  { intros q r x Hq Hne Hx. rewrite (step_pages q) by done. destruct (Htree x Hx) as [Ht|Ht].
    - apply (ss_apart _ _ Sys p q root r); auto.
    - apply (own_apart q); [done|by left]. }
  assert (forall r, has_table s p r -> r = root) as Hr by (intros r (_ & <- & _); apply Hp).
  constructor; [done|apply Hst|done| | | |].
  - intros q r Hq%step_has_table. destruct (decide (q = p)) as [->|Hne]; [|by apply (step_wf q)].
    rewrite (Hr _ Hq). apply Hst.
  - intros q r Hq%step_has_table. destruct (decide (q = p)) as [->|Hne]; [by rewrite (Hr _ Hq)|].
    intros key Hk. rewrite (step_lookup q) by done. pose proof (ss_view _ _ Sys q r Hq key Hk) as Hv.
    unfold attached_to in *. rewrite Hmask by done. destruct (shm_attached (p_shm_mask (getproc s q)) key) eqn:E; [|done].
    rewrite Hv. by rewrite (Hseg q) by (done || apply Hq).
  - intros q q' r r' x Hq%step_has_table Hq'%step_has_table Hne Hx.
    destruct (decide (q = p)) as [->|Hqp]; [rewrite (Hr _ Hq) in Hx; apply (Hap q'); auto|].
    destruct (decide (q' = p)) as [->|Hqp']; [rewrite (Hr _ Hq'); intros Hx'; by apply (Hap q r x)|].
    rewrite (step_pages q') by done. rewrite (step_pages q) in Hx by done. by apply (ss_apart _ _ Sys q q' r r').
  - intros q r key Hq%step_has_table Hk Hz. destruct (Hsegs key Hk Hz) as [Ho Hn].
    destruct (decide (q = p)) as [->|Hne]; [by rewrite (Hr _ Hq)|].
    rewrite (step_pages q) by done. by apply (own_apart q).
Qed.
End Step.

(** ** kshmget *)
Inductive get_outcome (s : kernel) (l : list Z) (p : nat) (root key : Z) : Z -> kernel -> list Z -> Prop :=
| get_bad : ~ (0 <= key < SHM_PAGES) -> get_outcome s l p root key 0 s l
| get_again : 0 <= key < SHM_PAGES -> attached_to (Z.to_nat key) (getproc s p) = true ->
    get_outcome s l p root key (shm_va (Z.to_nat key)) s l
| get_nomem s' l' : 0 <= key < SHM_PAGES -> attached_to (Z.to_nat key) (getproc s p) = false ->
    mem_only s s' -> (length l <= 2)%nat ->
    (forall a, va_ok a -> pt_lookup (k_mem s') root a = pt_lookup (k_mem s) root a) ->
    get_outcome s l p root key 0 s' l'
| get_new pa m fl l' : 0 <= key < SHM_PAGES -> attached_to (Z.to_nat key) (getproc s p) = false ->
    mapped (k_mem s) m root (shm_va (Z.to_nat key)) pa shm_perm 1 ->
    (shm_refcnt (getshm s (Z.to_nat key)) <> 0 -> pa = shm_pa (getshm s (Z.to_nat key))) ->
    (shm_refcnt (getshm s (Z.to_nat key)) = 0 -> pa ∈ l /\ forall i, 0 <= i < PGSIZE -> load8 m (pa + i) = 0) ->
    get_outcome s l p root key (shm_va (Z.to_nat key)) (attach p (Z.to_nat key) pa (with_mem m fl s)) l'.

Lemma getproc_attach p key pa s q :
  (p < length (k_procs s))%nat ->
  getproc (attach p key pa s) q
  = if decide (p = q) then set_p_shm_mask (Z.lor (p_shm_mask (getproc s q)) (shm_bit key)) (getproc s q) else getproc s q.
Proof. intros Hp. unfold attach. by rewrite getproc_upd. Qed.

Lemma getshm_attach p key pa s j :
  is_key key -> length (k_shm s) = Z.to_nat SHM_PAGES ->
  shm_pa (getshm (attach p key pa s) j) = if decide (j = key) then pa else shm_pa (getshm s j).
Proof.
  intros Hk Hl.
  change (getshm (attach p key pa s) j) with (getshm (upd_shm key (fun x => mkShmseg pa (int32 (shm_refcnt x + 1))) s) j).
  rewrite getshm_upd by done. by case_decide.
Qed.

Section Attach.
Context (s : kernel) (l : list Z) (p : nat) (root : Z) (key : nat).
Context (Sys : shm_sys s l) (Hp : has_table s p root) (Hk : is_key key).
Context (Hna : attached_to key (getproc s p) = false).

Lemma shm_mem_outside m fl l' :
  shm_mem s l root m fl l' -> same_outside (fun a => pt_page (k_mem s) root a \/ own s l a) (k_mem s) m.
Proof.
  intros [_ _ _ Ho] b Hb. apply Ho. intros a [Ha|Ha]; apply Hb; [by left|right; by left].
Qed.

Lemma attach_view m fl pa :
  mapped (k_mem s) m root (shm_va key) pa shm_perm 1 -> shm_view (attach p key pa (with_mem m fl s)) p root.
Proof.
  intros Hm j Hj. pose proof (ss_inv _ _ Sys) as I. destruct (shm_va_ok j Hj) as [Hv _].
  unfold attached_to. rewrite getproc_attach by (simpl; rewrite (sh_procs _ _ I); apply Hp).
  rewrite decide_True by done. simpl p_shm_mask. rewrite attached_set, getshm_attach by (done || apply I).
  change (k_mem (attach p key pa (with_mem m fl s))) with m. rewrite (Hm _ Hv).
  case_bool_decide as E.
  - subst j. simpl. rewrite !decide_True by (done || (unfold PGSIZE; lia)). f_equal. lia.
  - simpl. rewrite (decide_False (P := j = key)) by done. rewrite decide_False.
    + apply (ss_view _ _ Sys p root Hp j Hj).
    + unfold shm_va. unfold PGSIZE. lia.
Qed.

Lemma attach_sys m fl l' pa :
  shm_mem s l root m fl l' -> mapped (k_mem s) m root (shm_va key) pa shm_perm 1 ->
  valid_page (k_sym s) pa -> pa ∉ l' -> ~ pt_page m root pa ->
  (shm_pa (getshm s key) <> 0 -> pa = shm_pa (getshm s key)) ->
  (shm_pa (getshm s key) = 0 -> pa ∈ l) ->
  shm_sys (attach p key pa (with_mem m fl s)) l'.
Proof.
  intros M Hm Hv Hl Ht H1 H2. pose proof (ss_inv _ _ Sys) as I. pose proof (sh_procs _ _ I) as Il. pose proof (sh_len _ _ I) as Ik.
  assert (own s l pa) as Hown.
  { destruct (decide (shm_pa (getshm s key) = 0)); [left; auto|right]. exists key. destruct Hv as (_ & _ & ?).
    split_and!; [done|auto|lia]. }
  assert (forall q, getproc (attach p key pa (with_mem m fl s)) q = if decide (p = q)
    then set_p_shm_mask (Z.lor (p_shm_mask (getproc s q)) (shm_bit key)) (getproc s q) else getproc s q) as Eg.
  { intros q. rewrite getproc_attach by (simpl; rewrite Il; apply Hp). reflexivity. }
  pose proof (fun j => getshm_attach p key pa (with_mem m fl s) j Hk Ik) as Es.
  apply (step_sys s l p root Sys Hp); try done; [apply Sys| |by eapply shm_mem_outside| | | | | |by apply attach_view| |].
  - intros q. rewrite Eg. by case_decide.
  - intros a Ha. left. by apply (sm_pool _ _ _ _ _ _ M).
  - apply attach_inv; try done; [|apply Hp|].
    + apply (shm_inv_ext s _ l); [done..| |done]. apply M.
    + intros j Hj Hne. change (shm_pa (getshm s j) <> pa). intros E.
      destruct (decide (shm_pa (getshm s key) = 0)) as [Hz|Hz].
      * destruct (sh_page _ _ I j Hj) as [_ []]; [destruct Hv as (_ & _ & ?); lia|]. rewrite E. auto.
      * apply Hne. apply (sh_inj _ _ I j key); [done..|rewrite E; destruct Hv as (_ & _ & ?); lia|]. rewrite E. auto.
  - apply (pt_state_ext (with_mem m fl s)); [done..|apply Sys|apply M].
  - intros x. apply M.
  - intros q Hq. rewrite Eg. by rewrite decide_False.
  - intros q j Hj Hq Hne Ha. rewrite Es. case_decide; [subst j|done]. apply H1. intros Hz.
    apply (sh_null _ _ I key Hk) in Hz. rewrite (sh_count _ _ I key Hk) in Hz.
    destruct (lookup_lt_is_Some_2 (k_procs s) q) as [x Hx]; [lia|].
    rewrite (getproc_lookup _ _ _ Hx) in Ha. pose proof (nattached_pos _ _ _ _ Hx Ha). lia.
  - intros j Hj. rewrite Es. case_decide as E; [done|]. intros Hz. split.
    + right. exists j. done.
    + intros [Hx|Hx]%(sm_tree _ _ _ _ _ _ M); [by apply (ss_segs _ _ Sys p root j Hp Hj Hz)|].
      by apply (sh_page _ _ I j Hj Hz).
Qed.
End Attach.

Lemma kshmget_sys s l p root key :
  shm_sys s l -> k_cur s = Some p -> has_table s p root -> LShm (Z.to_nat key) ∉ k_held s ->
  exists r s' l', kshmget key s = Ret r s' /\ shm_sys s' l' /\ get_outcome s l p root key r s' l'.
Proof.
  intros Sys Hc Hp Hlk.
  destruct (decide (0 <= key < SHM_PAGES)) as [Hr|Hr].
  2: { exists 0, s, l. split_and!; [|done|by apply get_bad]. unfold kshmget.
       erewrite bind_ret_eq by (by apply this_proc_ret). erewrite bind_ret_eq by reflexivity.
       destruct (Z.ltb_spec key 0); [done|]. destruct (Z.leb_spec SHM_PAGES key); [done|lia]. }
  assert (is_key (Z.to_nat key)) as Hk by (unfold is_key; lia).
  destruct (attached_to (Z.to_nat key) (getproc s p)) eqn:Ha.
  { exists (shm_va (Z.to_nat key)), s, l. split_and!; [|done|by apply get_again]. unfold kshmget.
    erewrite bind_ret_eq by (by apply this_proc_ret). erewrite bind_ret_eq by reflexivity.
    rewrite (proj2 (Z.ltb_ge _ _)) by lia. rewrite (proj2 (Z.leb_gt _ _)) by lia. cbn [orb].
    unfold attached_to in Ha. by rewrite Ha. }
  pose proof (ss_view _ _ Sys p root Hp _ Hk) as Hno. rewrite Ha in Hno.
  pose proof (kshmget_result s l p (Z.to_nat key) root (sys_pt_state s l Sys p root Hp) Hk Hlk Hno
    (ss_inv _ _ Sys) Hc Ha ltac:(apply Hp) (ss_segs _ _ Sys p root _ Hp Hk)) as R.
  pose proof (sh_null _ _ (ss_inv _ _ Sys) _ Hk) as Hn. rewrite Z2Nat.id in R by lia.
  inversion R as [m fl l' M Hl Hlu E|pa m fl l' M Hm Hv Hl Ht H1 H2 E].
  - exists 0, (with_mem m fl s), l'. split_and!; [done| |apply get_nomem; try done; apply mem_only_with].
    apply (step_sys s l p root Sys Hp); try done; try apply Sys.
    + by eapply shm_mem_outside.
    + intros a Ha'. left. by apply (sm_pool _ _ _ _ _ _ M).
    + apply (shm_inv_ext s _ l); [done..|apply M|apply Sys].
    + apply M.
    + apply M.
    + intros j Hj. change (k_mem (with_mem m fl s)) with m. rewrite Hlu by (by apply shm_va_ok).
      by apply (ss_view _ _ Sys p root Hp).
    + intros j Hj Hz. split; [right; by exists j|].
      intros [Hx|Hx]%(sm_tree _ _ _ _ _ _ M); [by apply (ss_segs _ _ Sys p root j Hp Hj Hz)|].
      by apply (sh_page _ _ (ss_inv _ _ Sys) j Hj Hz).
  - exists (shm_va (Z.to_nat key)), (attach p (Z.to_nat key) pa (with_mem m fl s)), l'. split_and!; [done| |].
    + eapply attach_sys; try done. intros Hz. by apply H2.
    + apply get_new; try done; rewrite <- Hn; auto.
Qed.

(** ** kshmdt *)
Definition detach (p key : nat) (last : bool) (s : kernel) : kernel :=
  upd_shm key (fun x => mkShmseg (if last then 0 else shm_pa x) (int32 (shm_refcnt x - 1)))
    (upd_proc p (fun x => set_p_shm_mask (Z.land (p_shm_mask x) (uint32 (Z.lnot (shm_bit key)))) x) s).

Lemma free_inv_ext s s' l :
  k_sym s' = k_sym s -> k_mem s' = k_mem s -> k_freelist s' = k_freelist s -> free_inv s l -> free_inv s' l.
Proof. intros E1 E2 E3 [F1 F2 F3]. constructor; [by rewrite E2, E3|done|by rewrite E1]. Qed.

Lemma shm_put_spec key s l :
  is_key key -> length (k_shm s) = Z.to_nat SHM_PAGES -> 0 < shm_refcnt (getshm s key) < 2 ^ 31 ->
  LShm key ∉ k_held s -> LKmem ∉ k_held s -> free_inv s l ->
  valid_page (k_sym s) (shm_pa (getshm s key)) -> shm_pa (getshm s key) ∉ l ->
  let pa := shm_pa (getshm s key) in
  if shm_refcnt (getshm s key) =? 1
  then exists m, same_but pa (k_mem s) m /\ free_inv (with_mem m pa s) (pa :: l)
    /\ shm_put key s = Ret tt (upd_shm key (fun x => mkShmseg 0 (int32 (shm_refcnt x - 1))) (with_mem m pa s))
  else shm_put key s = Ret tt (upd_shm key (fun x => mkShmseg (shm_pa x) (int32 (shm_refcnt x - 1))) s).
Proof.
  intros Hk Hlen Hrc Hlk Hkm Hf Hv Hl pa. unfold shm_put.
  set (g := fun x => mkShmseg (shm_pa x) (int32 (shm_refcnt x - 1))).
  set (h := LShm key :: k_held s).
  assert (getshm (upd_shm key g (set_k_held h s)) key = g (getshm s key)) as Eg.
  { rewrite getshm_upd by done. by rewrite decide_True. }
  assert (shm_refcnt (g (getshm s key)) = shm_refcnt (getshm s key) - 1) as Erc.
  { unfold g. simpl. apply int32_small. lia. }
  destruct (Z.eqb_spec (shm_refcnt (getshm s key)) 1) as [E1|E1].
  - destruct (kfree_ok (upd_shm key g (set_k_held h s)) pa l) as [E Hf']; [by apply (free_inv_ext s)|simpl; set_solver|done|done|].
    set (m := store64 _ _ _) in *. exists m. split_and!; [by apply same_but_freed|by eapply free_inv_ext; [..|exact Hf']|].
    erewrite bind_ret_eq by (by apply acquire_ok). fold h. erewrite bind_ret_eq by reflexivity.
    erewrite bind_ret_eq by reflexivity. rewrite Eg, Erc, E1. simpl Z.eqb. cbv iota.
    erewrite bind_ret_eq by (erewrite bind_ret_eq by exact E; reflexivity).
    erewrite release_top by reflexivity. f_equal.
    change (upd_shm key (fun x => mkShmseg 0 (shm_refcnt x)) (upd_shm key g (with_mem m pa s))
      = upd_shm key (fun x => mkShmseg 0 (int32 (shm_refcnt x - 1))) (with_mem m pa s)).
    by rewrite upd_shm_twice.
  - erewrite bind_ret_eq by (by apply acquire_ok). fold h. erewrite bind_ret_eq by reflexivity.
    erewrite bind_ret_eq by reflexivity. rewrite Eg, Erc. rewrite (proj2 (Z.eqb_neq _ _)) by lia.
    erewrite bind_ret_eq by reflexivity. erewrite release_top by reflexivity. reflexivity.
Qed.

Section Detach.
Context (s : kernel) (l : list Z) (p key : nat).
Context (Inv : shm_inv s l) (Hk : is_key key) (Hp : (p < Z.to_nat NPROC)%nat).
Context (Ha : attached_to key (getproc s p) = true).
Let last := shm_refcnt (getshm s key) =? 1.
Let pa := shm_pa (getshm s key).

Lemma detach_refcnt : 0 < shm_refcnt (getshm s key) < 2 ^ 31.
Proof.
  rewrite (sh_count _ _ Inv key Hk). destruct (lookup_lt_is_Some_2 (k_procs s) p) as [x Hx].
  { by rewrite (sh_procs _ _ Inv). }
  rewrite (getproc_lookup _ _ _ Hx) in Ha. pose proof (nattached_pos _ _ _ _ Hx Ha).
  pose proof (nattached_le (k_procs s) key) as Hle. rewrite (sh_procs _ _ Inv) in Hle.
  change (Z.of_nat (Z.to_nat NPROC)) with 64 in Hle. lia.
Qed.

Lemma detach_pa : pa <> 0.
Proof. unfold pa. rewrite (sh_null _ _ Inv key Hk). pose proof detach_refcnt. lia. Qed.

Lemma getproc_detach q :
  getproc (detach p key last s) q = if decide (p = q)
    then set_p_shm_mask (Z.land (p_shm_mask (getproc s q)) (uint32 (Z.lnot (shm_bit key)))) (getproc s q) else getproc s q.
Proof.
  unfold detach. change (getproc (upd_shm ?k ?f ?s0) q) with (getproc s0 q). rewrite getproc_upd; [done|].
  by rewrite (sh_procs _ _ Inv).
Qed.

Lemma getshm_detach j :
  getshm (detach p key last s) j
  = if decide (j = key) then mkShmseg (if last then 0 else pa) (shm_refcnt (getshm s key) - 1) else getshm s j.
Proof.
  unfold detach. rewrite getshm_upd; [|done|simpl; apply Inv]. case_decide; [subst j|done].
  change (getshm (upd_proc ?k ?f s) key) with (getshm s key). f_equal. apply int32_small.
  pose proof detach_refcnt. lia.
Qed.

Lemma nattached_detach j :
  is_key j -> nattached (k_procs (detach p key last s)) j = nattached (k_procs s) j - b2n (bool_decide (j = key)).
Proof.
  intros Hj. destruct (lookup_lt_is_Some_2 (k_procs s) p) as [x Hx]; [by rewrite (sh_procs _ _ Inv)|].
  unfold detach, upd_proc, upd_shm. simpl. rewrite (nattached_alter _ _ x) by done.
  pose proof Ha as Ha'. rewrite (getproc_lookup _ _ _ Hx) in Ha'.
  unfold attached_to at 2. simpl. rewrite attached_clear by done. fold (attached_to j x).
  case_bool_decide as E; [subst j; rewrite Ha'; simpl; lia|simpl; lia].
Qed.

Lemma detach_inv : shm_inv (detach p key last s) (if last then pa :: l else l).
Proof.
  pose proof detach_pa as Hpa. pose proof detach_refcnt as Hrc.
  assert (last = true <-> shm_refcnt (getshm s key) = 1) as Hlast by apply Z.eqb_eq.
  constructor.
  - unfold detach. simpl. rewrite length_alter. apply Inv.
  - unfold detach. simpl. rewrite length_alter. apply Inv.
  - intros j Hj. rewrite nattached_detach, getshm_detach by done. rewrite <- (sh_count _ _ Inv j Hj).
    case_decide as E; [subst j; rewrite bool_decide_eq_true_2 by done|rewrite bool_decide_eq_false_2 by done]; simpl; lia.
  - intros j Hj. rewrite getshm_detach. case_decide; [|by apply Inv]. simpl. destruct last; intuition lia.
  - intros j Hj. rewrite getshm_detach. case_decide as E.
    + simpl. subst j. destruct last; [done|]. intros _. by apply Inv.
    + intros Hz. destruct (sh_page _ _ Inv j Hj Hz) as [H1 H2]. split; [done|]. destruct last; [|done].
      intros [Hx|Hx]%elem_of_cons; [|done]. apply E. by apply (sh_inj _ _ Inv).
  - intros j j' Hj Hj'. rewrite !getshm_detach. repeat case_decide; subst; simpl; try done; destruct last;
      first [done | intros Hz E; exfalso; congruence | intros Hz E; by apply (sh_inj _ _ Inv)].
Qed.
End Detach.

Inductive dt_outcome (s : kernel) (l : list Z) (p : nat) (root key : Z) : Z -> kernel -> list Z -> Prop :=
| dt_bad : ~ (0 <= key < SHM_PAGES) \/ attached_to (Z.to_nat key) (getproc s p) = false ->
    dt_outcome s l p root key (-1) s l
| dt_ok m fl : 0 <= key < SHM_PAGES -> attached_to (Z.to_nat key) (getproc s p) = true ->
    (forall a, va_ok a -> pt_lookup m root a =
      if decide (a = shm_va (Z.to_nat key)) then 0 else pt_lookup (k_mem s) root a) ->
    dt_outcome s l p root key 0
      (detach p (Z.to_nat key) (shm_refcnt (getshm s (Z.to_nat key)) =? 1) (with_mem m fl s))
      (if shm_refcnt (getshm s (Z.to_nat key)) =? 1 then shm_pa (getshm s (Z.to_nat key)) :: l else l).

Lemma two_attached ps p q key :
  (p < length ps)%nat -> (q < length ps)%nat -> p <> q ->
  attached_to key (default proc0 (ps !! p)) = true -> attached_to key (default proc0 (ps !! q)) = true ->
  nattached ps key <> 1.
Proof.
  unfold nattached. revert p q. induction ps as [|x ps IH]; intros p q Hp Hq Hne Ap Aq; simpl in *; [lia|].
  assert (forall i, (i < length ps)%nat -> attached_to key (default proc0 (ps !! i)) = true ->
    0 < Z.of_nat (length (List.filter (attached_to key) ps))) as Hpos.
  { intros i Hi Hat. destruct (lookup_lt_is_Some_2 ps i Hi) as [y Hy].
    apply (nattached_pos ps i y key Hy). by rewrite Hy in Hat. }
  destruct p as [|p], q as [|q]; simpl in *; [done|rewrite Ap|rewrite Aq|]; simpl.
  - specialize (Hpos q ltac:(lia) Aq). lia.
  - specialize (Hpos p ltac:(lia) Ap). lia.
  - specialize (IH p q ltac:(lia) ltac:(lia) ltac:(lia) Ap Aq). specialize (Hpos p ltac:(lia) Ap).
    destruct (attached_to key x); simpl; lia.
Qed.

Section Detach_sys.
Context (s : kernel) (l : list Z) (p : nat) (root : Z) (key : nat).
Context (Sys : shm_sys s l) (Hp : has_table s p root) (Hk : is_key key).
Context (Ha : attached_to key (getproc s p) = true).
Let last := shm_refcnt (getshm s key) =? 1.
Let pa := shm_pa (getshm s key).
Let l' := if last then pa :: l else l.

Lemma own_pa : own s l pa.
Proof. right. exists key. split_and!; [done|done|]. eapply detach_pa; try done; [apply Sys|apply Hp]. Qed.

Lemma detach_sys m fl :
  pt_state (with_mem m fl s) l' root ->
  same_outside (fun a => pt_page (k_mem s) root a \/ own s l a) (k_mem s) m ->
  (forall x, pt_page m root x -> pt_page (k_mem s) root x) ->
  (forall a, va_ok a -> pt_lookup m root a = if decide (a = shm_va key) then 0 else pt_lookup (k_mem s) root a) ->
  shm_sys (detach p key last (with_mem m fl s)) l'.
Proof.
  intros Hst Hout Ht Hlu. pose proof (ss_inv _ _ Sys) as I. assert (shm_inv (with_mem m fl s) l) as I' by by apply (shm_inv_ext s _ l).
  pose proof (getproc_detach (with_mem m fl s) l p key I' ltac:(apply Hp)) as Eg.
  pose proof (getshm_detach (with_mem m fl s) l p key I' Hk ltac:(apply Hp) Ha) as Es.
  change (shm_refcnt (getshm (with_mem m fl s) key) =? 1) with last in Eg, Es.
  apply (step_sys s l p root Sys Hp); try done; [apply Sys| | | | | | | | |].
  - intros q. rewrite (Eg q). by case_decide.
  - intros a. unfold l'. destruct last; [intros [->|Hx]%elem_of_cons; [apply own_pa|by left]|by left].
  - apply (detach_inv (with_mem m fl s) l p key); try done. apply Hp.
  - apply (pt_state_ext (with_mem m fl s)); [done..|apply Sys|done].
  - intros x Hx. left. by apply Ht.
  - intros q Hq. rewrite (Eg q). by rewrite decide_False.
  - intros j Hj. unfold attached_to. rewrite (Eg p), decide_True by done. simpl p_shm_mask.
    rewrite attached_clear by done. change (k_mem (detach p key last (with_mem m fl s))) with m.
    rewrite (Es j), Hlu by (by apply shm_va_ok). case_bool_decide as E.
    + subst j. by rewrite decide_True.
    + rewrite (decide_False (P := j = key)) by done. rewrite decide_False; [by apply (ss_view _ _ Sys p root Hp)|].
      unfold shm_va, PGSIZE. lia.
  - intros q j Hj Hq Hne Hat. rewrite (Es j). case_decide; [subst j|done]. simpl.
    change (getshm (with_mem m fl s) key) with (getshm s key). unfold last.
    destruct (Z.eqb_spec (shm_refcnt (getshm s key)) 1) as [E1|]; [|done].
    exfalso. rewrite (sh_count _ _ I key Hk) in E1.
    apply (two_attached (k_procs s) p q key) in E1; [done|rewrite (sh_procs _ _ I); apply Hp|by rewrite (sh_procs _ _ I)|done..].
  - intros j Hj. rewrite (Es j). change (getshm (with_mem m fl s) j) with (getshm s j).
    assert (forall i, is_key i -> shm_pa (getshm s i) <> 0 -> own s l (shm_pa (getshm s i)) /\ ~ pt_page m root (shm_pa (getshm s i))) as Hall.
    { intros i Hi Hz. split; [right; by exists i|]. intros Hx%Ht. by apply (ss_segs _ _ Sys p root i Hp Hi Hz). }
    case_decide; [|by apply Hall]. simpl. destruct last; [done|]. by apply Hall.
Qed.
End Detach_sys.

(** The page of a segment whose last process detaches goes back to the pool. *)
Lemma freed_state s l root m1 fl1 pa m :
  pt_state (with_mem m1 fl1 s) l root -> same_but pa m1 m -> valid_page (k_sym s) pa -> ~ pt_page m1 root pa ->
  free_inv (with_mem m pa s) (pa :: l) ->
  pt_state (with_mem m pa s) (pa :: l) root.
Proof.
  intros Hs Hsb Hv Hn Hf. constructor; [done| |apply Hs]. simpl.
  eapply (other_wf (ps_wf _ _ _ Hs) Hv Hn Hsb). intros x [->|Hx]%elem_of_cons; [done|by eapply (pt_page_free _ _ _ _ Hs)].
Qed.

Section Dt.
Context (s : kernel) (l : list Z) (p : nat) (root key : Z).
Context (Sys : shm_sys s l) (Hc : k_cur s = Some p) (Hp : has_table s p root).
Context (Hlk : LShm (Z.to_nat key) ∉ k_held s) (Hr : 0 <= key < SHM_PAGES).
Let k := Z.to_nat key.
Context (Ha : attached_to k (getproc s p) = true).

Lemma dt_key : is_key k.
Proof. unfold is_key, k. lia. Qed.

(** The state of memory once the page is unmapped. *)
Lemma dt_unmap : exists m fl,
  uvmunmap root (shm_va k) 1 false s = Ret tt (with_mem m fl s)
  /\ pt_state (with_mem m fl s) l root
  /\ same_outside (fun a => pt_page (k_mem s) root a) (k_mem s) m
  /\ (forall x, pt_page m root x -> pt_page (k_mem s) root x)
  /\ (forall a, va_ok a -> pt_lookup m root a = if decide (a = shm_va k) then 0 else pt_lookup (k_mem s) root a).
Proof.
  destruct (shm_va_ok k dt_key) as [[Hv1 Hv2] Hv3].
  destruct (uvmunmap_keep s l root (shm_va k) 1) as (s1 & E & F & U);
    [by eapply sys_pt_state|lia|lia|done|kconst; unfold PGSIZE in *; lia|].
  destruct F as [F1 F2 (used & El & Ho & Ht & _) _].
  assert (used = []) as -> by (apply (f_equal length) in El; rewrite length_app in El; destruct used; [done|simpl in El; lia]).
  assert (s1 = with_mem (k_mem s1) (k_freelist s1) s) as Es by exact F2. rewrite Es in E, F1.
  exists (k_mem s1), (k_freelist s1). split_and!; [done|done| | |].
  - intros b Hb. apply Ho. intros a [Hx|Hx]; [by apply Hb|set_solver].
  - intros x [Hx|Hx]%Ht; [done|set_solver].
  - intros a Hva. rewrite (U a Hva). case_decide as D1; case_decide as D2; try done.
    + exfalso. apply D2. unfold va_ok, PGSIZE in *. dlia.
    + subst a. exfalso. apply D1. split; [unfold PGSIZE; lia|].
      pose proof (ss_view _ _ Sys p root Hp _ dt_key) as Hv. rewrite Ha in Hv. rewrite Hv.
      unfold mk_pte. by rewrite entry_valid.
Qed.

Lemma dt_run : exists r s' l', kshmdt key s = Ret r s' /\ shm_sys s' l' /\ dt_outcome s l p root key r s' l'.
Proof.
  destruct dt_unmap as (m & fl & E & Hst & Ho & Ht & Hlu). pose proof dt_key as Hk. pose proof (ss_inv _ _ Sys) as I.
  set (clear := fun x => set_p_shm_mask (Z.land (p_shm_mask x) (uint32 (Z.lnot (shm_bit k)))) x).
  pose proof (detach_pa s l p k I Hk (proj1 Hp) Ha) as Hz. destruct (sh_page _ _ I k Hk Hz) as [Hv Hn].
  pose proof (shm_put_spec k (upd_proc p clear (with_mem m fl s)) l Hk (sh_len _ _ I)
    (detach_refcnt s l p k I Hk (proj1 Hp) Ha) Hlk (ss_lock _ _ Sys)
    (free_inv_ext (with_mem m fl s) (upd_proc p clear (with_mem m fl s)) l eq_refl eq_refl eq_refl (ps_free _ _ _ Hst)) Hv Hn) as Hput.
  change (getshm (upd_proc p clear (with_mem m fl s)) k) with (getshm s k) in Hput. cbv zeta in Hput.
  assert (exists m' fl', shm_put k (upd_proc p clear (with_mem m fl s))
      = Ret tt (detach p k (shm_refcnt (getshm s k) =? 1) (with_mem m' fl' s))
    /\ pt_state (with_mem m' fl' s) (if shm_refcnt (getshm s k) =? 1 then shm_pa (getshm s k) :: l else l) root
    /\ same_outside (fun a => pt_page (k_mem s) root a \/ own s l a) (k_mem s) m'
    /\ (forall x, pt_page m' root x -> pt_page (k_mem s) root x)
    /\ (forall a, va_ok a -> pt_lookup m' root a = if decide (a = shm_va k) then 0 else pt_lookup (k_mem s) root a))
    as (m' & fl' & E' & Hst' & Ho' & Ht' & Hlu').
  { destruct (shm_refcnt (getshm s k) =? 1).
    - destruct Hput as (m' & Hsb & Hf & E'). exists m', (shm_pa (getshm s k)).
      assert (~ pt_page m root (shm_pa (getshm s k))) as Hnt.
      { intros Hx%Ht. by apply (ss_segs _ _ Sys p root k Hp Hk Hz). }
      split_and!; [exact E'| | | |].
      + eapply freed_state; try done. by eapply free_inv_ext; [..|exact Hf].
      + intros b Hb. rewrite Hsb; [apply Ho; auto|]. apply Hb. right. by apply own_pa with (p := p) (root := root).
      + intros x Hx. apply Ht. by apply (other_pt_page (ps_wf _ _ _ Hst) Hv Hnt Hsb).
      + intros a Hva. rewrite (other_lookup (ps_wf _ _ _ Hst) Hv Hnt Hsb). by apply Hlu.
    - exists m, fl. split_and!; [exact Hput|done| |done|done]. intros b Hb. apply Ho. auto. }
  exists 0. do 2 eexists. split; [|split; [by apply (detach_sys s l p root k Sys Hp Hk Ha m' fl')|by apply dt_ok]].
  unfold kshmdt. erewrite bind_ret_eq by (by apply this_proc_ret). erewrite bind_ret_eq by reflexivity.
  rewrite (proj2 (Z.ltb_ge _ _)), (proj2 (Z.leb_gt _ _)) by lia. cbn [orb]. fold k.
  unfold attached_to in Ha. rewrite Ha. cbn [negb].
  assert (p_pagetable (getproc s p) = root) as -> by apply Hp.
  erewrite bind_ret_eq by exact E. erewrite bind_ret_eq by reflexivity. by erewrite bind_ret_eq by exact E'.
Qed.
End Dt.

Lemma kshmdt_sys s l p root key :
  shm_sys s l -> k_cur s = Some p -> has_table s p root -> LShm (Z.to_nat key) ∉ k_held s ->
  exists r s' l', kshmdt key s = Ret r s' /\ shm_sys s' l' /\ dt_outcome s l p root key r s' l'.
Proof.
  intros Sys Hc Hp Hlk.
  destruct (decide (0 <= key < SHM_PAGES)) as [Hr|Hr].
  - destruct (attached_to (Z.to_nat key) (getproc s p)) eqn:Ha; [by apply dt_run|].
    exists (-1), s, l. split_and!; [|done|apply dt_bad; auto]. unfold kshmdt.
    erewrite bind_ret_eq by (by apply this_proc_ret). erewrite bind_ret_eq by reflexivity.
    rewrite (proj2 (Z.ltb_ge _ _)), (proj2 (Z.leb_gt _ _)) by lia. cbn [orb].
    unfold attached_to in Ha. by rewrite Ha.
  - exists (-1), s, l. split_and!; [|done|apply dt_bad; auto]. unfold kshmdt.
    erewrite bind_ret_eq by (by apply this_proc_ret). erewrite bind_ret_eq by reflexivity.
    destruct (Z.ltb_spec key 0); [done|]. destruct (Z.leb_spec SHM_PAGES key); [done|lia].
Qed.

(** ** Sequences of calls *)
Inductive shm_op := ShmGet (key : Z) | ShmDt (key : Z).

(** Process [q] runs and makes a call. *)
Definition shm_call (c : nat * shm_op) : K unit :=
  modify (set_k_cur (Some c.1)) ;;;
  let* _ := match c.2 with ShmGet key => kshmget key | ShmDt key => kshmdt key end in
  skip.

Definition shm_calls (cs : list (nat * shm_op)) : K unit := for_all cs shm_call.

Lemma getproc_cur c s q : getproc (set_k_cur c s) q = getproc s q.
Proof. done. Qed.

Lemma shm_sys_cur s l c : shm_sys s l -> shm_sys (set_k_cur c s) l.
Proof.
  intros [H1 H2 H3 H4 H5 H6 H7]. constructor; [by apply (shm_inv_ext s _ l)|by apply (free_inv_ext s)|done..].
Qed.

Lemma get_outcome_frame s l p root key r s' l' :
  has_table s p root -> shm_inv s l -> get_outcome s l p root key r s' l' ->
  k_held s' = k_held s /\ forall q, p_pagetable (getproc s' q) = p_pagetable (getproc s q).
Proof.
  intros Hp I H. inversion H as [| |s1 l1 _ _ Hm _ _|pa m fl l1 Hr _ _ _ _]; subst; try done.
  - destruct (mem_only_fields _ _ Hm) as (E1 & E2 & E3). rewrite Hm. done.
  - split; [done|]. intros q. rewrite getproc_attach by (simpl; rewrite (sh_procs _ _ I); apply Hp). by case_decide.
Qed.

Lemma dt_outcome_frame s l p root key r s' l' :
  has_table s p root -> shm_inv s l -> dt_outcome s l p root key r s' l' ->
  k_held s' = k_held s /\ forall q, p_pagetable (getproc s' q) = p_pagetable (getproc s q).
Proof.
  intros Hp I H. inversion H as [|m fl Hr _ _]; subst; [done|].
  split; [done|]. intros q. unfold detach. change (getproc (upd_shm ?k ?f ?s0) q) with (getproc s0 q).
  rewrite getproc_upd by (simpl; rewrite (sh_procs _ _ I); apply Hp). by case_decide.
Qed.

Definition runnable (s : kernel) (q : nat) : Prop := exists root, has_table s q root.

Lemma shm_call_sys s l c :
  shm_sys s l -> (forall key, LShm key ∉ k_held s) -> runnable s c.1 ->
  exists s' l', shm_call c s = Ret tt s' /\ shm_sys s' l'
  /\ k_held s' = k_held s /\ (forall q, runnable s' q <-> runnable s q).
Proof.
  intros Sys Hlk [root Hq]. destruct c as [q op]. simpl in Hq.
  pose proof (shm_sys_cur s l (Some q) Sys) as Sys1. set (s1 := set_k_cur (Some q) s) in *.
  assert (has_table s1 q root) as Hq1 by exact Hq.
  assert (forall s', (forall q', p_pagetable (getproc s' q') = p_pagetable (getproc s1 q')) ->
    forall q', runnable s' q' <-> runnable s q') as Hrun.
  { intros s' Hs' q'. unfold runnable, has_table. by rewrite Hs'. }
  unfold shm_call. erewrite bind_ret_eq by reflexivity. simpl. fold s1. destruct op as [key|key].
  - destruct (kshmget_sys s1 l q root key Sys1 eq_refl Hq1 (Hlk _)) as (r & s' & l' & E & Sys' & O).
    destruct (get_outcome_frame _ _ _ _ _ _ _ _ Hq1 (ss_inv _ _ Sys1) O) as [Eh Ep].
    exists s', l'. split_and!; [by erewrite bind_ret_eq by exact E|done|done|by apply Hrun].
  - destruct (kshmdt_sys s1 l q root key Sys1 eq_refl Hq1 (Hlk _)) as (r & s' & l' & E & Sys' & O).
    destruct (dt_outcome_frame _ _ _ _ _ _ _ _ Hq1 (ss_inv _ _ Sys1) O) as [Eh Ep].
    exists s', l'. split_and!; [by erewrite bind_ret_eq by exact E|done|done|by apply Hrun].
Qed.

Lemma shm_calls_sys cs s l :
  shm_sys s l -> (forall key, LShm key ∉ k_held s) -> Forall (fun c => runnable s c.1) cs ->
  exists s' l', shm_calls cs s = Ret tt s' /\ shm_sys s' l'.
Proof.
  revert s l. induction cs as [|c cs IH]; intros s l Sys Hlk Hcs; [by exists s, l|].
  apply Forall_cons in Hcs as [Hc Hcs].
  destruct (shm_call_sys s l c Sys Hlk Hc) as (s1 & l1 & E & Sys1 & Eh & Hr).
  destruct (IH s1 l1 Sys1) as (s2 & l2 & E2 & Sys2); [by rewrite Eh| |].
  - eapply Forall_impl; [done|]. intros c' Hc'. by apply Hr.
  - exists s2, l2. split; [|done]. unfold shm_calls. simpl. by erewrite bind_ret_eq by exact E.
Qed.

Lemma new_table_inv s r l q :
  shm_inv s (r :: l) -> (q < Z.to_nat NPROC)%nat -> p_shm_mask (getproc s q) = 0 ->
  shm_inv (upd_proc q (set_p_pagetable r) s) l.
Proof.
  intros [I1 I2 I3 I4 I5 I6] Hq Hmask. destruct (lookup_lt_is_Some_2 (k_procs s) q) as [x Hx]; [lia|].
  constructor; try done.
  - simpl. by rewrite length_alter.
  - intros key Hk. simpl. rewrite (nattached_alter _ _ x) by done. change (attached_to key (set_p_pagetable r x)) with (attached_to key x).
    rewrite <- I3 by done. change (getshm (upd_proc q (set_p_pagetable r) s) key) with (getshm s key). lia.
  - intros key Hk Hp. destruct (I5 key Hk Hp) as [H1 H2]. split; [done|set_solver].
Qed.

(** A process with a new empty page table. *)
Lemma new_table s r l q :
  shm_sys s (r :: l) -> (q < Z.to_nat NPROC)%nat -> p_pagetable (getproc s q) = 0 -> p_shm_mask (getproc s q) = 0 ->
  exists s1, uvmcreate s = Ret r s1 /\ shm_sys (upd_proc q (set_p_pagetable r) s1) l
  /\ (forall q', getproc (upd_proc q (set_p_pagetable r) s1) q'
        = if decide (q = q') then set_p_pagetable r (getproc s q') else getproc s q')
  /\ k_held s1 = k_held s /\ r <> 0.
Proof.
  intros Sys Hq Hpt Hmask. pose proof (ss_inv _ _ Sys) as I.
  destruct (uvmcreate_spec s r l (ss_free _ _ Sys) (ss_lock _ _ Sys)) as (s1 & E & Hs1 & Hm & Hsb & Hz & Hpg).
  exists s1. split; [done|]. set (s2 := upd_proc q (set_p_pagetable r) s1).
  assert (s1 = with_mem (k_mem s1) (k_freelist s1) s) as Es by exact Hm.
  assert (k_sym s1 = k_sym s /\ k_held s1 = k_held s /\ k_shm s1 = k_shm s /\ k_procs s1 = k_procs s)
    as (Ey & Eh & Ek & Ep) by (rewrite Es; done).
  assert (forall q', getproc s2 q' = if decide (q = q') then set_p_pagetable r (getproc s q') else getproc s q') as Eg.
  { intros q'. unfold s2. rewrite getproc_upd by (rewrite Ep, (sh_procs _ _ I); done).
    unfold getproc. by rewrite Ep. }
  assert (forall key, getshm s2 key = getshm s key) as Esh by (intros; unfold getshm, s2; simpl; by rewrite Ek).
  assert (valid_page (k_sym s) r) as Hv.
  { destruct (ss_free _ _ Sys) as [_ _ Hf]. by apply Forall_cons in Hf as [? _]. }
  assert (r <> 0) as Hr0 by (destruct Hv as (_ & _ & ?); lia).
  assert (forall q' r', has_table s2 q' r' -> (q' = q /\ r' = r) \/ (q' <> q /\ has_table s q' r')) as Htab.
  { intros q' r' (H1 & H2 & H3). rewrite Eg in H2. case_decide; subst; [by left|right]. split; [auto|]. by split_and!. }
  assert (forall q' r', has_table s q' r' -> ~ pt_page (k_mem s) r' r) as Hnr.
  { intros q' r' H. eapply pt_page_free; [by eapply sys_pt_state|by left]. }
  assert (forall q' r' x, has_table s q' r' -> pt_page (k_mem s1) r' x <-> pt_page (k_mem s) r' x) as Hpp.
  { intros q' r' x H. by apply (other_pt_page (ss_wf _ _ Sys _ _ H) Hv (Hnr _ _ H) Hsb). }
  assert (forall x, pt_page (k_mem s1) r x -> x = r) as Hone by (intros x (π & Hd & Hx); by eapply Hpg).
  split_and!; [|done|done|done].
  constructor.
  - apply (shm_inv_ext (upd_proc q (set_p_pagetable r) s) s2 l l); [done..| |done|by apply new_table_inv].
    unfold s2, upd_proc. simpl. by rewrite Ep.
  - apply (free_inv_ext s1); [done..|apply Hs1].
  - simpl. rewrite Eh. apply Sys.
  - intros q' r' [[-> ->]|[Hne H]]%Htab; [apply Hs1|]. simpl. rewrite Ey.
    apply (other_wf (ss_wf _ _ Sys _ _ H) Hv (Hnr _ _ H) Hsb).
    intros x Hx. eapply pt_page_free; [by eapply sys_pt_state|by right].
  - intros q' r' [[-> ->]|[Hne H]]%Htab key Hk; rewrite Eg; case_decide; try done; simpl.
    + unfold attached_to. simpl. rewrite Hmask, attached_0, Hz. done.
    + rewrite (other_lookup (ss_wf _ _ Sys _ _ H) Hv (Hnr _ _ H) Hsb), Esh. by apply (ss_view _ _ Sys _ _ H).
  - intros q1 q2 r1 r2 x [[-> ->]|[Hne1 H1]]%Htab [[-> ->]|[Hne2 H2]]%Htab Hne; simpl; [done| | |].
    + intros ->%Hone. rewrite (Hpp _ _ _ H2). by apply (Hnr q2).
    + intros Hx ->%Hone. rewrite (Hpp _ _ _ H1) in Hx. by apply (Hnr q1 r1).
    + rewrite (Hpp _ _ _ H1), (Hpp _ _ _ H2). by apply (ss_apart _ _ Sys q1 q2).
  - intros q' r' key H Hk. rewrite Esh. intros Hpa. simpl. destruct (sh_page _ _ I key Hk Hpa) as [_ Hnl].
    apply Htab in H as [[-> ->]|[Hne H]].
    + intros Hx%Hone. set_solver.
    + rewrite (Hpp _ _ _ H). by apply (ss_segs _ _ Sys q').
Qed.

(** A segment's address that is already mapped. *)
Lemma walk_present s root va alloc p :
  va < MAXVA -> leaf_page (k_mem s) root va = Some p -> walk root va alloc s = Ret (p + 8 * PX 0 va) s.
Proof.
  intros Hva. unfold walk. destruct (Z.leb_spec MAXVA va); [lia|].
  unfold leaf_page. cbn [walk_levels page]. unfold load64K. ksimpl.
  unfold sub, ent. destruct (has (load64 (k_mem s) (root + 8 * PX 2 va)) PTE_V); simpl; [|done].
  destruct (has _ PTE_V); simpl; [|done]. by intros [= <-].
Qed.

Lemma mappages_remap s l root va pa perm :
  pt_state s l root -> va_ok va -> has (pt_lookup (k_mem s) root va) PTE_V = true ->
  mappages root va PGSIZE pa perm s = Panic "mappages: remap".
Proof.
  intros Hs [Hva Hal] Hv. unfold mappages. rewrite Hal. change (PGSIZE mod PGSIZE) with 0. change (Z.to_nat (PGSIZE / PGSIZE)) with 1%nat.
  cbn [Z.eqb negb mappages_loop]. change (PGSIZE =? 0) with false. cbv iota. unfold pt_lookup in Hv.
  destruct (leaf_page (k_mem s) root va) as [p|] eqn:Ep; [|done].
  erewrite bind_ret_eq by (apply walk_present; [lia|done]).
  rewrite (is_null_leaf s l root va p) by done. unfold load64K. erewrite bind_ret_eq by reflexivity.
  unfold ent in Hv. by rewrite Hv.
Qed.

(** What a process reads through its page table at a segment's address. *)
Lemma view_walkaddr s l q root key :
  shm_sys s l -> has_table s q root -> is_key key ->
  walkaddr root (shm_va key) s = Ret (if attached_to key (getproc s q) then shm_pa (getshm s key) else 0) s.
Proof.
  intros Sys Hq Hk. destruct (shm_va_ok key Hk) as [Hva _].
  rewrite (walkaddr_spec s l) by (done || (by eapply sys_pt_state) || (unfold va_ok in Hva; lia)). cbv zeta.
  pose proof (ss_view _ _ Sys q root Hq key Hk) as Hv. pose proof (ss_inv _ _ Sys) as I.
  destruct (attached_to key (getproc s q)) eqn:Ha; [|by rewrite Hv].
  rewrite Hv. destruct (sh_page _ _ I key Hk) as [(V1 & V2 & V3) _].
  { eapply detach_pa; try done. apply Hq. }
  unfold mk_pte. rewrite entry_valid, entry_has, entry_pa by (done || lia || (vm_compute; split; congruence)). done.
Qed.

(** ** What the system calls promise *)

(** C23: Whatever sequence of shmget and shmdt calls the processes make, none
    of them panics or runs out of steps, and afterwards every segment counts the
    processes attached to it, has a page exactly when that count is not zero, its
    page is not in the free list of kalloc.c, and all processes attached to it
    see the same physical page at its address. *)
Theorem shm_calls_correct cs s l :
  shm_sys s l -> (forall key, LShm key ∉ k_held s) -> Forall (fun c => runnable s c.1) cs ->
  exists s' l', shm_calls cs s = Ret tt s' /\ free_inv s' l' /\
  forall key, is_key key ->
    shm_refcnt (getshm s' key) = nattached (k_procs s') key
    /\ (shm_pa (getshm s' key) = 0 <-> nattached (k_procs s') key = 0)
    /\ shm_pa (getshm s' key) ∉ l'
    /\ forall q root, has_table s' q root ->
         walkaddr root (shm_va key) s'
         = Ret (if attached_to key (getproc s' q) then shm_pa (getshm s' key) else 0) s'.
Proof.
  intros Sys Hlk Hcs. destruct (shm_calls_sys cs s l Sys Hlk Hcs) as (s' & l' & E & Sys').
  exists s', l'. split; [done|]. split; [apply Sys'|]. intros key Hk. pose proof (ss_inv _ _ Sys') as I.
  split_and!; [by apply I|rewrite <- (sh_count _ _ I key Hk); by apply I| |].
  - destruct (decide (shm_pa (getshm s' key) = 0)) as [->|Hz]; [|by apply I].
    intros H0. pose proof (own_valid s' l' Sys' 0 (or_introl H0)) as (_ & _ & ?). lia.
  - intros q root Hq. by apply (view_walkaddr s' l').
Qed.

(** shmget with a valid key either returns the segment's address, and the
    caller is then attached and sees the segment's page there, zero-filled when
    nobody was attached before and otherwise the page the others see, with all
    its other mappings as they were; or fewer than three pages are free, and it returns 0 with
    the caller's mappings, the segments and the process table unchanged. *)
Theorem kshmget_correct s l p root key :
  shm_sys s l -> k_cur s = Some p -> has_table s p root -> LShm (Z.to_nat key) ∉ k_held s -> 0 <= key < SHM_PAGES ->
  let k := Z.to_nat key in
  exists r s' l', kshmget key s = Ret r s' /\ shm_sys s' l' /\
  (forall a, va_ok a -> a <> shm_va k -> pt_lookup (k_mem s') root a = pt_lookup (k_mem s) root a) /\
  ((r = shm_va k /\ attached_to k (getproc s' p) = true
     /\ walkaddr root (shm_va k) s' = Ret (shm_pa (getshm s' k)) s'
     /\ (shm_refcnt (getshm s k) <> 0 -> shm_pa (getshm s' k) = shm_pa (getshm s k))
     /\ (shm_refcnt (getshm s k) = 0 ->
         forall i, 0 <= i < PGSIZE -> load8 (k_mem s') (shm_pa (getshm s' k) + i) = 0))
   \/ (r = 0 /\ k_procs s' = k_procs s /\ k_shm s' = k_shm s /\ (length l <= 2)%nat)).
Proof.
  intros Sys Hc Hp Hlk Hr k. assert (is_key k) as Hk by (unfold is_key, k; lia). pose proof (ss_inv _ _ Sys) as I.
  destruct (kshmget_sys s l p root key Sys Hc Hp Hlk) as (r & s' & l' & E & Sys' & O).
  exists r, s', l'. split; [done|]. split; [done|].
  inversion O as [H|_ Ha|s1 l1 _ Ha Hm Hl Hlu|pa m fl l1 _ Ha Hmp H1 H2]; subst r s' l'; [done| | |].
  - fold k in Ha. split; [done|]. left. rewrite (view_walkaddr s l p) by done. rewrite Ha. split_and!; [done..|].
    intros Hz. pose proof (detach_refcnt s l p k I Hk (proj1 Hp) Ha). lia.
  - split; [auto|]. right. rewrite Hm. done.
  - fold k in Ha, Hmp, H1, H2, Sys' |- *.
    assert (attached_to k (getproc (attach p k pa (with_mem m fl s)) p) = true) as Ha'.
    { unfold attached_to. rewrite getproc_attach by (simpl; rewrite (sh_procs _ _ I); apply Hp).
      rewrite decide_True by done. simpl. rewrite attached_set, bool_decide_eq_true_2; done. }
    assert (has_table (attach p k pa (with_mem m fl s)) p root) as Hp'.
    { destruct Hp as (P1 & P2 & P3). split_and!; [done| |done].
      rewrite getproc_attach by (simpl; rewrite (sh_procs _ _ I); done). by case_decide. }
    assert (shm_pa (getshm (attach p k pa (with_mem m fl s)) k) = pa) as Epa.
    { rewrite getshm_attach by (done || apply I). by rewrite decide_True. }
    split.
    + intros a Hva Hne. change (k_mem (attach p k pa (with_mem m fl s))) with m. rewrite (Hmp a Hva), decide_False; [done|].
      destruct (shm_va_ok k Hk) as [[Hs1 Hs2] _]. unfold va_ok, PGSIZE in *. dlia.
    + left. rewrite (view_walkaddr _ l1 p) by done. rewrite Ha', Epa. split_and!; [done..|]. intros Hz. by apply H2.
Qed.

(** shmdt of an attached segment takes the page out of the caller's page
    table and nothing else, and gives the page back to kalloc.c exactly when the
    caller was the last process attached; of any other key it fails and changes
    nothing. *)
Theorem kshmdt_correct s l p root key :
  shm_sys s l -> k_cur s = Some p -> has_table s p root -> LShm (Z.to_nat key) ∉ k_held s ->
  let k := Z.to_nat key in
  exists r s' l', kshmdt key s = Ret r s' /\ shm_sys s' l' /\
  if bool_decide (0 <= key < SHM_PAGES) && attached_to k (getproc s p)
  then r = 0 /\ attached_to k (getproc s' p) = false
    /\ walkaddr root (shm_va k) s' = Ret 0 s'
    /\ (forall a, va_ok a -> a <> shm_va k -> pt_lookup (k_mem s') root a = pt_lookup (k_mem s) root a)
    /\ (forall q, q <> p -> getproc s' q = getproc s q)
    /\ shm_refcnt (getshm s' k) = shm_refcnt (getshm s k) - 1
    /\ (shm_refcnt (getshm s k) = 1 -> l' = shm_pa (getshm s k) :: l /\ shm_pa (getshm s' k) = 0)
    /\ (shm_refcnt (getshm s k) <> 1 -> l' = l /\ shm_pa (getshm s' k) = shm_pa (getshm s k))
  else r = -1 /\ s' = s /\ l' = l.
Proof.
  intros Sys Hc Hp Hlk k. pose proof (ss_inv _ _ Sys) as I.
  destruct (kshmdt_sys s l p root key Sys Hc Hp Hlk) as (r & s' & l' & E & Sys' & O).
  exists r, s', l'. split; [done|]. split; [done|].
  inversion O as [[H|H]|m fl Hr Ha Hlu]; subst r s' l'.
  - by rewrite bool_decide_eq_false_2.
  - fold k in H. by rewrite H, andb_false_r.
  - fold k in Ha, Hlu |- *. rewrite bool_decide_eq_true_2, Ha by done. assert (is_key k) as Hk by (unfold is_key, k; lia). simpl andb. cbv iota.
    assert (shm_inv (with_mem m fl s) l) as I' by by apply (shm_inv_ext s _ l).
    pose proof (getproc_detach (with_mem m fl s) l p k I' (proj1 Hp)) as Eg.
    pose proof (getshm_detach (with_mem m fl s) l p k I' Hk (proj1 Hp) Ha k) as Es. rewrite decide_True in Es by done.
    change (getshm (with_mem m fl s) k) with (getshm s k) in Eg, Es. set (s' := detach _ _ _ _) in *.
    assert (attached_to k (getproc s' p) = false) as Ha'.
    { unfold attached_to. rewrite Eg, decide_True by done. simpl. by rewrite attached_clear, bool_decide_eq_true_2. }
    assert (has_table s' p root) as Hp'.
    { destruct Hp as (P1 & P2 & P3). split_and!; [done| |done]. rewrite Eg. by case_decide. }
    rewrite (view_walkaddr s' _ p root k Sys' Hp' Hk), Ha', Es. split_and!; [done..| | |done| |].
    + intros a Hva Hne. change (k_mem s') with m. rewrite (Hlu a Hva). by rewrite decide_False.
    + intros q Hq. rewrite Eg. by rewrite decide_False.
    + intros ->. done.
    + intros Hne. by rewrite (proj2 (Z.eqb_neq _ _)).
Qed.

(** shmget panics the kernel when the caller already has a page at the
    segment's address, which is below the limit sbrk enforces. *)
Theorem kshmget_remap s l p root key :
  shm_inv s l -> pt_state s l root -> k_cur s = Some p -> p_pagetable (getproc s p) = root ->
  LShm (Z.to_nat key) ∉ k_held s -> 0 <= key < SHM_PAGES ->
  attached_to (Z.to_nat key) (getproc s p) = false -> shm_pa (getshm s (Z.to_nat key)) <> 0 ->
  has (pt_lookup (k_mem s) root (shm_va (Z.to_nat key))) PTE_V = true ->
  kshmget key s = Panic "mappages: remap" /\ shm_va (Z.to_nat key) + PGSIZE <= TRAPFRAME.
Proof.
  intros I Hs Hc Hroot Hlk Hr Ha Hz Hv. assert (is_key (Z.to_nat key)) as Hk by (unfold is_key; lia).
  destruct (shm_va_ok _ Hk) as [Hva Hlt]. split.
  - unfold kshmget. erewrite bind_ret_eq by (by apply this_proc_ret). erewrite bind_ret_eq by reflexivity.
    rewrite (proj2 (Z.ltb_ge _ _)), (proj2 (Z.leb_gt _ _)) by lia. cbn [orb].
    unfold attached_to in Ha. rewrite Ha, Hroot. erewrite bind_ret_eq by (by apply acquire_ok).
    erewrite bind_ret_eq by reflexivity. unfold is_null.
    change (getshm (set_k_held _ s) (Z.to_nat key)) with (getshm s (Z.to_nat key)).
    rewrite (proj2 (Z.eqb_neq _ _)) by done. erewrite bind_ret_eq by reflexivity. cbv iota.
    erewrite bind_ret_eq by reflexivity.
    erewrite bind_panic_eq; [done|]. eapply mappages_remap; [|done|done].
    apply (pt_state_ext s); [done..| |done]. pose proof (ps_lock _ _ _ Hs). simpl. set_solver.
  - unfold va_ok, PGSIZE in *. kconst. dlia.
Qed.

(** ** A machine with two processes *)
Lemma small_shm : exists s l, shm_sys s l /\ k_held s = [] /\ k_cur s = None
  /\ (forall q, (q < Z.to_nat NPROC)%nat -> getproc s q = proc0) /\ length l = 8%nat.
Proof.
  destruct small_boot as (s & l & _ & Hi & Hm & El). exists s, l.
  assert (s = with_mem (k_mem s) (k_freelist s) small) as Es by exact Hm.
  assert (forall q, getproc s q = proc0) as Hp0.
  { intros q. rewrite Es. change (default proc0 (replicate (Z.to_nat NPROC) proc0 !! q) = proc0).
    destruct (replicate (Z.to_nat NPROC) proc0 !! q) as [x|] eqn:E; [|done]. by apply lookup_replicate in E as [-> _]. }
  assert (forall key, shm_pa (getshm s key) = 0 /\ shm_refcnt (getshm s key) = 0) as Hs0.
  { intros key. rewrite Es. unfold getshm.
    change (k_shm (with_mem (k_mem s) (k_freelist s) small)) with (replicate (Z.to_nat SHM_PAGES) (mkShmseg 0 0)).
    destruct (replicate _ (mkShmseg 0 0) !! key) as [x|] eqn:E; [|done]. by apply lookup_replicate in E as [-> _]. }
  split_and!; [|by rewrite Es|by rewrite Es|auto|by rewrite El].
  assert (forall q r, ~ has_table s q r) as Hnt by (intros q r (_ & H & H'); rewrite Hp0 in H; by apply H').
  split; [|done|rewrite Es; apply not_elem_of_nil|by intros q r H; destruct (Hnt q r H)|by intros q r H; destruct (Hnt q r H)
    |by intros q q' r r' x H; destruct (Hnt q r H)|by intros q r key H; destruct (Hnt q r H)].
  assert (forall key, nattached (k_procs s) key = 0) as Hn0.
  { intros key. rewrite Es. unfold nattached.
    change (k_procs (with_mem (k_mem s) (k_freelist s) small)) with (replicate (Z.to_nat NPROC) proc0).
    induction (Z.to_nat NPROC) as [|n IH]; [done|]. cbn [replicate List.filter].
    assert (attached_to key proc0 = false) as -> by apply attached_0. done. }
  split; [by rewrite Es|by rewrite Es|..]; intros key;
    destruct (Hs0 key) as [E1 E2]; rewrite ?E1, ?E2, ?Hn0; by intros.
Qed.

Lemma two_tables : exists s l r0 r1, shm_sys s l /\ k_held s = [] /\ has_table s 0 r0 /\ has_table s 1 r1
  /\ (2 < length l)%nat /\ forall q, (q < Z.to_nat NPROC)%nat -> p_shm_mask (getproc s q) = 0.
Proof.
  destruct small_shm as (s & l & Sys & Hh & Hc & Hp & Hl). destruct l as [|r0 [|r1 l]]; [simpl in Hl; lia..|].
  destruct (new_table s r0 (r1 :: l) 0 Sys) as (s1 & _ & Sys1 & Eg1 & Eh1 & Hr0); [vm_compute; lia|by rewrite Hp by (vm_compute; lia)..|].
  set (t1 := upd_proc 0 (set_p_pagetable r0) s1) in *.
  destruct (new_table t1 r1 l 1 Sys1) as (s2 & _ & Sys2 & Eg2 & Eh2 & Hr1);
    [vm_compute; lia|by rewrite Eg1, decide_False, Hp by (done || (vm_compute; lia))..|].
  eexists _, l, r0, r1. split; [exact Sys2|]. split_and!; [| | |simpl in Hl; lia|].
  - change (k_held s2 = []). rewrite Eh2. change (k_held s1 = []). by rewrite Eh1.
  - split_and!; [vm_compute; lia| |done]. by rewrite Eg2, decide_False, Eg1, decide_True.
  - split_and!; [vm_compute; lia| |done]. by rewrite Eg2, decide_True.
  - intros q Hq. rewrite Eg2, Eg1, Hp by done. by repeat case_decide.
Qed.

Lemma shm_calls_correct_witness : exists s l s' cs, shm_sys s l /\ shm_calls cs s = Ret tt s'
  /\ cs = [(0%nat, ShmGet 3); (1%nat, ShmGet 3); (0%nat, ShmDt 3)].
Proof.
  destruct two_tables as (s & l & r0 & r1 & Sys & Hh & H0 & H1 & _).
  destruct (shm_calls_correct [(0%nat, ShmGet 3); (1%nat, ShmGet 3); (0%nat, ShmDt 3)] s l) as (s' & l' & E & _).
  - exact Sys.
  - intros key. rewrite Hh. apply not_elem_of_nil.
  - repeat constructor; simpl; [by exists r0|by exists r1|by exists r0].
  - exists s, l, s', [(0%nat, ShmGet 3); (1%nat, ShmGet 3); (0%nat, ShmDt 3)]. split; [exact Sys|split; [exact E|reflexivity]].
Defined.

Lemma kshmget_correct_witness : exists s l r s', shm_sys s l /\ kshmget 3 s = Ret r s'.
Proof.
  destruct two_tables as (s & l & r0 & r1 & Sys & Hh & H0 & H1 & _).
  pose proof (shm_sys_cur s l (Some 0%nat) Sys) as Sys1.
  destruct (kshmget_correct (set_k_cur (Some 0%nat) s) l 0 r0 3) as (r & s' & l' & E & _).
  - exact Sys1.
  - reflexivity.
  - exact H0.
  - simpl. rewrite Hh. apply not_elem_of_nil.
  - vm_compute. split; [discriminate|reflexivity].
  - exists (set_k_cur (Some 0%nat) s), l, r, s'. split; [exact Sys1|exact E].
Defined.

(** Process 0 attaches segment 3, and detaches it. *)
Lemma one_attached : exists s l r0, shm_sys s l /\ k_held s = [] /\ k_cur s = Some 0%nat
  /\ has_table s 0 r0 /\ attached_to 3 (getproc s 0) = true.
Proof.
  destruct two_tables as (s & l & r0 & r1 & Sys & Hh & H0 & H1 & Hl & Hmask).
  apply (shm_sys_cur s l (Some 0%nat)) in Sys. set (s0 := set_k_cur (Some 0%nat) s) in *.
  assert (has_table s0 0 r0) as H0' by exact H0.
  destruct (kshmget_sys s0 l 0 r0 3 Sys) as (r & s1 & l1 & E & Sys2 & O);
    [done|done|simpl; rewrite Hh; apply not_elem_of_nil|].
  destruct (get_outcome_frame _ _ _ _ _ _ _ _ H0' (ss_inv _ _ Sys) O) as [Eh Ep].
  apply (shm_sys_cur s1 l1 (Some 0%nat)) in Sys2. exists (set_k_cur (Some 0%nat) s1), l1, r0. split_and!; [done| |done| |].
  - simpl. by rewrite Eh.
  - destruct H0' as (P1 & P2 & P3). split_and!; [done| |done]. by rewrite getproc_cur, Ep.
  - rewrite getproc_cur. inversion O as [Hr|_ Ha|s2 l2 _ _ _ Hl2 _|pa m fl l2 _ _ _ _ _]; subst; [|done|lia|].
    + destruct Hr. vm_compute. split; congruence.
    + unfold attached_to. rewrite getproc_attach by (simpl; pose proof (sh_procs _ _ (ss_inv _ _ Sys)) as Hn; simpl in Hn; rewrite Hn; apply H0).
      rewrite decide_True by done. simpl. by rewrite attached_set.
Qed.

Lemma kshmdt_correct_witness : exists s l s', shm_sys s l /\ kshmdt 3 s = Ret 0 s'.
Proof.
  destruct one_attached as (s & l & r0 & Sys & Hh & Hc & H0 & Ha).
  destruct (kshmdt_correct s l 0 r0 3) as (r & s' & l' & E & _ & Hd).
  - exact Sys.
  - exact Hc.
  - exact H0.
  - rewrite Hh. apply not_elem_of_nil.
  - change (Z.to_nat 3) with 3%nat in Hd. rewrite Ha in Hd. destruct Hd as [-> _].
    exists s, l, s'. split; [exact Sys|exact E].
Defined.

(** Process 1 has a page where segment 3, to which process 0 is attached, would go. *)
Lemma mapped_before : exists s l root, shm_inv s l /\ pt_state s l root /\ k_cur s = Some 1%nat /\ k_held s = []
  /\ p_pagetable (getproc s 1) = root /\ attached_to 3 (getproc s 1) = false /\ shm_pa (getshm s 3) <> 0
  /\ has (pt_lookup (k_mem s) root (shm_va 3)) PTE_V = true.
Proof.
  destruct two_tables as (s & l & r0 & r1 & Sys & Hh & H0 & H1 & Hl & Hmask). pose proof (ss_inv _ _ Sys) as I.
  assert (is_key 3) as Hk by (unfold is_key; vm_compute; lia). destruct (shm_va_ok 3 Hk) as [Hva Hlt].
  destruct (pw_valid _ _ _ _ (ss_wf _ _ Sys 0 r0 H0) [] r0) as [Hv0 Hn0]; [split; [simpl; lia|constructor]|done|].
  assert (forall j, is_key j -> attached_to j (getproc s 1) = false) as Hna.
  { intros j Hj. unfold attached_to. rewrite Hmask by (vm_compute; lia). apply attached_0. }
  destruct Hv0 as (Z1 & Z2 & Z3).
  destruct (mappages_spec s l r1 (shm_va 3) PGSIZE r0 shm_perm) as (rc & j & s1 & l1 & E & F & Mp & Hrc);
    try (unfold va_ok in Hva; done || (kconst; unfold PGSIZE in *; dlia)).
  { by apply (sys_pt_state s l Sys 1). }
  { intros a Ha Hr. assert (a = shm_va 3) as -> by (unfold va_ok, PGSIZE in *; dlia).
    pose proof (ss_view _ _ Sys 1 r1 H1 3%nat Hk) as Hv. by rewrite Hna in Hv. }
  destruct Hrc as [[-> ->]|(-> & [_ Hlen] & _)]; [|change (PGSIZE / PGSIZE) with 1 in Hlen; lia].
  destruct F as [Hs1 Hm (used & El & _) _].
  assert (s1 = with_mem (k_mem s1) (k_freelist s1) s) as Es by exact Hm. rewrite Es in Hs1.
  set (m1 := k_mem s1) in *. set (fl1 := k_freelist s1) in *.
  assert (shm_inv (with_mem m1 fl1 s) l1) as I1 by (apply (shm_inv_ext s _ l); [done..|set_solver|done]).
  exists (set_k_cur (Some 1%nat) (attach 0 3 r0 (with_mem m1 fl1 s))), l1, r1. split_and!; [| |done|done| | | |].
  - apply (shm_inv_ext (attach 0 3 r0 (with_mem m1 fl1 s)) _ l1); [done..|].
    apply attach_inv; try done; [apply H0| |set_solver|].
    + change (attached_to 3 (getproc s 0) = false). unfold attached_to. rewrite Hmask by apply H0. apply attached_0.
    + intros i Hi _ E0. change (shm_pa (getshm s i) = r0) in E0.
      apply (ss_segs _ _ Sys 0 r0 i H0 Hi); rewrite E0; [lia|]. exists []. split; [|done]. split; [simpl; lia|constructor].
  - apply (pt_state_ext (with_mem m1 fl1 s)); [done..| |done]. simpl. rewrite Hh. apply not_elem_of_nil.
  - rewrite getproc_cur, getproc_attach by (simpl; rewrite (sh_procs _ _ I); apply H0). apply H1.
  - rewrite getproc_cur, getproc_attach by (simpl; rewrite (sh_procs _ _ I); apply H0). by apply Hna.
  - change (shm_pa (getshm (attach 0 3 r0 (with_mem m1 fl1 s)) 3) <> 0).
    rewrite getshm_attach by (done || apply I). rewrite decide_True by done. lia.
  - change (has (pt_lookup m1 r1 (shm_va 3)) PTE_V = true). rewrite (Mp _ Hva).
    change (PGSIZE / PGSIZE * PGSIZE) with 4096. rewrite decide_True by lia. unfold mk_pte. by rewrite entry_valid.
Qed.

Lemma kshmget_remap_witness : exists s, kshmget 3 s = Panic "mappages: remap".
Proof.
  destruct mapped_before as (s & l & root & I & Hs & Hc & Hh & Hr & Ha & Hz & Hv).
  exists s. apply (kshmget_remap s l 1 root 3).
  - exact I.
  - exact Hs.
  - exact Hc.
  - exact Hr.
  - rewrite Hh. apply not_elem_of_nil.
  - vm_compute. split; [discriminate|reflexivity].
  - exact Ha.
  - exact Hz.
  - exact Hv.
Defined.
