(* ===== verification/SysArg.v ===== *)
(** * System call arguments: the first half of syscall.c *)
From S2P Require Import Prelude State CString Kalloc Vm Sched Bytes Bio Log Fs File Proc.

Open Scope Z_scope.

(** The word read, when the result is 0. *)
Definition fetchaddr (addr : Z) : K (Z * Z) :=
  let* p := this_proc in
  let* pr := get_proc p in
  if (p_sz pr <=? addr) || (p_sz pr <? wrap64 (addr + 8)) then ret (-1, 0) else
  let* r := copyin (p_pagetable pr) addr 8 in
  if negb (fst r =? 0) then ret (-1, 0) else ret (0, dec (snd r)).

(** [strlen] of a buffer holding a nul-terminated string. *)
Fixpoint lstrlen (l : list Z) : Z :=
  match l with
  | c :: l' => if c =? 0 then 0 else 1 + lstrlen l'
  | [] => 0
  end.

(** The length, or -1, and the bytes stored in the buffer. *)
Definition fetchstr (addr max : Z) : K (Z * list Z) :=
  let* p := this_proc in
  let* pr := get_proc p in
  let* r := copyinstr (p_pagetable pr) addr max in
  if fst r <? 0 then ret (-1, snd r) else ret (lstrlen (snd r), snd r).

Definition argraw (n : Z) : K Z :=
  let* p := this_proc in
  if (0 <=? n) && (n <=? 5) then tf_load p (TF_A0 + 8 * n) else panic "argraw".

Definition argint (n : Z) : K Z := let* v := argraw n in ret (int32 v).
Definition argaddr (n : Z) : K Z := argraw n.

(** The result and the string without its nul. *)
Definition argstr (n max : Z) : K (Z * list Z) :=
  let* addr := argaddr n in
  let* r := fetchstr addr max in
  ret (fst r, take (Z.to_nat (fst r)) (snd r)).
