(* ===== verification/Exec.v ===== *)
(** * exec.c *)
From S2P Require Import Prelude State CString Kalloc Vm Sched Printf Bytes Bio Log Fs File Proc SysArg.

Open Scope Z_scope.

(** ** elf.h *)
Definition ELF_MAGIC : Z := 1179403647.
Definition ELF_PROG_LOAD : Z := 1.
(** [sizeof(struct elfhdr)], [sizeof(struct proghdr)] *)
Definition ELFHDR : Z := 64.
Definition PROGHDR : Z := 56.
Definition elf_magic (d : list Z) : Z := ld32 d 0.
Definition elf_entry (d : list Z) : Z := ld64 d 24.
Definition elf_phoff (d : list Z) : Z := ld64 d 32.
Definition elf_phnum (d : list Z) : Z := ld16 d 56.
Definition ph_type (d : list Z) : Z := ld32 d 0.
Definition ph_flags (d : list Z) : Z := ld32 d 4.
Definition ph_off (d : list Z) : Z := ld64 d 8.
Definition ph_vaddr (d : list Z) : Z := ld64 d 16.
Definition ph_filesz (d : list Z) : Z := ld64 d 32.
Definition ph_memsz (d : list Z) : Z := ld64 d 40.

Definition flags2perm (flags : Z) : Z :=
  let perm := if has flags 1 then PTE_X else 0 in
  if has flags 2 then Z.lor perm PTE_W else perm.

(** [last] of [kexec]: what follows the last slash. *)
Fixpoint last_elem (last path : list Z) : list Z :=
  match path with
  | [] => last
  | c :: path' => last_elem (if c =? slash then path' else last) path'
  end.

Section Fuel.
Context (fuel : nat).

Definition loadseg (pagetable va : Z) (ip : nat) (offset sz : Z) : K Z :=
  let* r := for_loop (Z.to_nat (sz / PGSIZE + 1)) 0 (fun i => i <? sz) (fun i => uint32 (i + PGSIZE)) (fun i =>
    let* pa := walkaddr pagetable (wrap64 (va + i)) in
    if is_null pa then panic "loadseg: address should exist" else
    let n := if sz - i <? PGSIZE then sz - i else PGSIZE in
    let* r := readi fuel ip (Kernel pa) (uint32 (offset + i)) n in
    if negb (fst r =? n) then ret (Some (-1)) else ret None) in
  ret (default 0 r).

(** The loop over the program headers: whether it succeeded, and [sz]. *)
Definition exec_load (pagetable : Z) (ip : nat) (elf : list Z) : K (bool * Z) :=
  while_loop (S (Z.to_nat (elf_phnum elf))) (0, int32 (elf_phoff elf), 0) (fun '(i, off, sz) =>
    if elf_phnum elf <=? i then ret (inr (true, sz)) else
    let* r := readi fuel ip Local (uint32 off) PROGHDR in
    let '(e, ph) := r in
    if negb (e =? PROGHDR) then ret (inr (false, sz)) else
    let next sz := inl (i + 1, int32 (off + PROGHDR), sz) in
    if negb (ph_type ph =? ELF_PROG_LOAD) then ret (next sz) else
    if ph_memsz ph <? ph_filesz ph then ret (inr (false, sz)) else
    if wrap64 (ph_vaddr ph + ph_memsz ph) <? ph_vaddr ph then ret (inr (false, sz)) else
    if negb (ph_vaddr ph mod PGSIZE =? 0) then ret (inr (false, sz)) else
    let* sz1 := uvmalloc pagetable sz (wrap64 (ph_vaddr ph + ph_memsz ph)) (flags2perm (ph_flags ph)) in
    if sz1 =? 0 then ret (inr (false, sz)) else
    let* e := loadseg pagetable (ph_vaddr ph) ip (uint32 (ph_off ph)) (uint32 (ph_filesz ph)) in
    if e <? 0 then ret (inr (false, sz1)) else ret (next sz1)).

(** The argument strings: [sp] and [ustack] after they have been pushed. *)
Definition exec_args (pagetable stackbase sp : Z) (argv : list (list Z)) : K (option (Z * list Z)) :=
  while_loop (S (length argv)) (argv, sp, []) (fun '(argv, sp, ustack) =>
    match argv with
    | [] => ret (inr (Some (sp, ustack)))
    | a :: argv' =>
        if MAXARG <=? Z.of_nat (length ustack) then ret (inr None) else
        let sp := wrap64 (sp - (Z.of_nat (length a) + 1)) in
        let sp := sp - sp mod 16 in
        if sp <? stackbase then ret (inr None) else
        let* e := copyout pagetable sp (a ++ [0]) in
        if e <? 0 then ret (inr None) else ret (inl (argv', sp, ustack ++ [sp]))
    end).

(** The stack of the new image: the final [sz], [argc] and [sp]; on failure the
    [sz] the page table has to be freed with. *)
Definition exec_stack (pagetable sz : Z) (argv : list (list Z)) : K (Z + Z * Z * Z) :=
  let sz := PGROUNDUP sz in
  let* sz1 := uvmalloc pagetable sz (wrap64 (sz + (USERSTACK + 1) * PGSIZE)) PTE_W in
  if sz1 =? 0 then ret (inl sz) else
  let sz := sz1 in
  uvmclear pagetable (wrap64 (sz - (USERSTACK + 1) * PGSIZE)) ;;;
  let stackbase := wrap64 (sz - USERSTACK * PGSIZE) in
  let* r := exec_args pagetable stackbase sz argv in
  match r with
  | None => ret (inl sz)
  | Some (sp, ustack) =>
      let argc := Z.of_nat (length ustack) in
      let sp := wrap64 (sp - (argc + 1) * 8) in
      let sp := sp - sp mod 16 in
      if sp <? stackbase then ret (inl sz) else
      let* e := copyout pagetable sp (concat (enc 8 <$> (ustack ++ [0]))) in
      if e <? 0 then ret (inl sz) else ret (inr (sz, argc, sp))
  end.

(** The label [bad]. *)
Definition exec_bad (pagetable sz : Z) (ip : option nat) : K Z :=
  (if negb (is_null pagetable) then proc_freepagetable pagetable sz else skip) ;;;
  match ip with
  | Some ip => iunlockput fuel ip ;;; end_op fuel
  | None => skip
  end ;;;
  ret (-1).

Definition kexec (path : list Z) (argv : list (list Z)) : K Z :=
  let* p := this_proc in
  begin_op fuel ;;;
  let* ip := namei fuel path in
  match ip with
  | None => end_op fuel ;;; ret (-1)
  | Some ip =>
      ilock fuel ip ;;;
      let* r := readi fuel ip Local 0 ELFHDR in
      let '(e, elf) := r in
      if negb (e =? ELFHDR) then exec_bad 0 0 (Some ip) else
      if negb (elf_magic elf =? ELF_MAGIC) then exec_bad 0 0 (Some ip) else
      let* pagetable := proc_pagetable p in
      if is_null pagetable then exec_bad 0 0 (Some ip) else
      let* r := exec_load pagetable ip elf in
      let '(ok, sz) := r in
      if negb ok then exec_bad pagetable sz (Some ip) else
      iunlockput fuel ip ;;;
      end_op fuel ;;;
      let* pr := get_proc p in
      let oldsz := p_sz pr in
      let* r := exec_stack pagetable sz argv in
      match r with
      | inl sz => exec_bad pagetable sz None
      | inr (sz, argc, sp) =>
          tf_store p TF_A1 sp ;;;
          mod_proc p (fun x => set_p_name (copy_name (p_name x) (last_elem path path)) x) ;;;
          let* pr := get_proc p in
          let oldpagetable := p_pagetable pr in
          mod_proc p (set_p_pagetable pagetable) ;;;
          mod_proc p (set_p_sz sz) ;;;
          tf_store p TF_EPC (elf_entry elf) ;;;
          tf_store p TF_SP sp ;;;
          proc_freepagetable oldpagetable oldsz ;;;
          ret argc
      end
  end.
End Fuel.
