(* ===== verification/Sysproc.v ===== *)
(** * sysproc.c: system calls on processes, shared memory, mutexes and semaphores *)
From S2P Require Import Prelude State CString Kalloc Vm Sched Printf Bytes Bio Log Fs File Proc SysArg.

Open Scope Z_scope.

Definition NKMUTEX : Z := 16.
Definition NKSEM : Z := 16.
Definition SBRK_EAGER : Z := 1.

Definition getmutex (s : kernel) (id : nat) : kmutex := default (mkKmutex 0 0) (k_mutexes s !! id).
Definition get_mutex (id : nat) : K kmutex := gets (fun s => getmutex s id).
Definition upd_mutex (id : nat) (f : kmutex -> kmutex) (s : kernel) : kernel :=
  set_k_mutexes (alter f id (k_mutexes s)) s.
Definition mod_mutex (id : nat) (f : kmutex -> kmutex) : K unit := modify (upd_mutex id f).

Definition getsem (s : kernel) (id : nat) : ksem := default (mkKsem 0 0) (k_sems s !! id).
Definition get_sem (id : nat) : K ksem := gets (fun s => getsem s id).
Definition upd_sem (id : nat) (f : ksem -> ksem) (s : kernel) : kernel :=
  set_k_sems (alter f id (k_sems s)) s.
Definition mod_sem (id : nat) (f : ksem -> ksem) : K unit := modify (upd_sem id f).

(** ** Processes *)
Definition sys_getpid : K Z :=
  let* p := this_proc in
  let* pr := get_proc p in
  ret (p_pid pr).

Definition sys_fork : K Z := kfork.

Definition sys_sbrk : K Z :=
  let* n := argint 0 in
  let* t := argint 1 in
  let* p := this_proc in
  let* pr := get_proc p in
  let addr := p_sz pr in
  if (t =? SBRK_EAGER) || (n <? 0) then
    let* e := growproc n in
    if e <? 0 then ret (-1) else ret addr
  else
    if wrap64 (addr + n) <? addr then ret (-1) else
    if TRAPFRAME <? wrap64 (addr + n) then ret (-1) else
    mod_proc p (fun x => set_p_sz (wrap64 (p_sz x + n)) x) ;;;
    ret addr.

Definition sys_kill : K Z := let* pid := argint 0 in kkill pid.

Definition sys_uptime : K Z :=
  acquire LTicks ;;;
  let* xticks := gets k_ticks in
  release LTicks ;;;
  ret xticks.

Definition sys_shmget : K Z := let* key := argint 0 in kshmget key.
Definition sys_shmdt : K Z := let* key := argint 0 in kshmdt key.

Definition sys_setp : K Z :=
  let* pid := argint 0 in
  let* priority := argint 1 in
  setpriority pid priority.

Definition sys_ismyear : K Z := ret 1926.

Definition sys_thread_create : K Z :=
  let* fcn := argaddr 0 in
  let* arg := argaddr 1 in
  let* stack := argaddr 2 in
  let* _ := printf ("sys_thread_create: fcn=%lx arg=%lx stack=%lx" +:+ nl) [AInt fcn; AInt arg; AInt stack] in
  kthread_create fcn arg stack.

Definition sys_thread_id : K Z := kthread_id.

(** ** Mutexes and semaphores; the [m_] and [s_] operations are the bodies after
    the argument [id] has been fetched and found in range *)
Definition m_init (id : nat) : K Z :=
  let* m := get_mutex id in
  (if km_used m =? 0 then mod_mutex id (fun m => mkKmutex 1 (km_locked m)) else skip) ;;;
  acquire (LMutex id) ;;;
  mod_mutex id (fun m => mkKmutex (km_used m) 0) ;;;
  release (LMutex id) ;;;
  ret 0.

Definition sys_mutex_init : K Z :=
  let* id := argint 0 in
  if (id <? 0) || (NKMUTEX <=? id) then ret (-1) else m_init (Z.to_nat id).

Definition m_release (id : nat) : K Z :=
  let* m := get_mutex id in
  if km_used m =? 0 then ret (-1) else
  acquire (LMutex id) ;;;
  let* m := get_mutex id in
  if km_locked m =? 0 then release (LMutex id) ;;; ret (-1) else
  mod_mutex id (fun m => mkKmutex (km_used m) 0) ;;;
  wakeup (CMutex id) ;;;
  release (LMutex id) ;;;
  ret 0.

Definition sys_mutex_release : K Z :=
  let* id := argint 0 in
  if (id <? 0) || (NKMUTEX <=? id) then ret (-1) else m_release (Z.to_nat id).

Definition s_init (id : nat) (value : Z) : K Z :=
  let* x := get_sem id in
  (if ks_used x =? 0 then mod_sem id (fun x => mkKsem 1 (ks_count x)) else skip) ;;;
  acquire (LSem id) ;;;
  mod_sem id (fun x => mkKsem (ks_used x) value) ;;;
  release (LSem id) ;;;
  ret 0.

Definition sys_sem_init : K Z :=
  let* id := argint 0 in
  let* value := argint 1 in
  if (id <? 0) || (NKSEM <=? id) || (value <? 0) then ret (-1) else s_init (Z.to_nat id) value.

Definition s_post (id : nat) : K Z :=
  let* x := get_sem id in
  if ks_used x =? 0 then ret (-1) else
  acquire (LSem id) ;;;
  mod_sem id (fun x => mkKsem (ks_used x) (int32 (ks_count x + 1))) ;;;
  wakeup (CSem id) ;;;
  release (LSem id) ;;;
  ret 0.

Definition sys_sem_post : K Z :=
  let* id := argint 0 in
  if (id <? 0) || (NKSEM <=? id) then ret (-1) else s_post (Z.to_nat id).

Section Fuel.
Context (fuel : nat).

Definition sys_exit : K Z :=
  let* n := argint 0 in
  kexit fuel n ;;;
  ret 0.

Definition sys_wait : K Z := let* p := argaddr 0 in kwait fuel p.

Definition sys_waitpid : K Z :=
  let* pid := argint 0 in
  let* addr := argaddr 1 in
  kwaitpid fuel pid addr.

Definition sys_pause : K Z :=
  let* n := argint 0 in
  let n := if n <? 0 then 0 else n in
  acquire LTicks ;;;
  let* ticks0 := gets k_ticks in
  while_loop fuel tt (fun _ =>
    let* ticks := gets k_ticks in
    if negb (uint32 (ticks - ticks0) <? n) then release LTicks ;;; ret (inr 0) else
    let* p := this_proc in
    let* k := killed p in
    if negb (k =? 0) then release LTicks ;;; ret (inr (-1))
    else sleep CTicks LTicks ;;; ret (inl tt)).

(** One turn of the loop of [sys_mutex_acquire]. *)
Definition m_turn (id : nat) : K (unit + Z) :=
  let* m := get_mutex id in
  if negb (km_locked m =? 0) then
    let* p := this_proc in
    let* k := killed p in
    if negb (k =? 0) then release (LMutex id) ;;; ret (inr (-1))
    else sleep (CMutex id) (LMutex id) ;;; ret (inl tt)
  else
    mod_mutex id (fun m => mkKmutex (km_used m) 1) ;;;
    release (LMutex id) ;;;
    ret (inr 0).

Definition m_acquire (id : nat) : K Z :=
  let* m := get_mutex id in
  if km_used m =? 0 then ret (-1) else
  acquire (LMutex id) ;;;
  while_loop fuel tt (fun _ => m_turn id).

Definition sys_mutex_acquire : K Z :=
  let* id := argint 0 in
  if (id <? 0) || (NKMUTEX <=? id) then ret (-1) else m_acquire (Z.to_nat id).

(** One turn of the loop of [sys_sem_wait]. *)
Definition s_turn (id : nat) : K (unit + Z) :=
  let* x := get_sem id in
  if ks_count x =? 0 then
    let* p := this_proc in
    let* k := killed p in
    if negb (k =? 0) then release (LSem id) ;;; ret (inr (-1))
    else sleep (CSem id) (LSem id) ;;; ret (inl tt)
  else
    mod_sem id (fun x => mkKsem (ks_used x) (int32 (ks_count x - 1))) ;;;
    release (LSem id) ;;;
    ret (inr 0).

Definition s_wait (id : nat) : K Z :=
  let* x := get_sem id in
  if ks_used x =? 0 then ret (-1) else
  acquire (LSem id) ;;;
  while_loop fuel tt (fun _ => s_turn id).

Definition sys_sem_wait : K Z :=
  let* id := argint 0 in
  if (id <? 0) || (NKSEM <=? id) then ret (-1) else s_wait (Z.to_nat id).

Definition sys_thread_join : K Z := let* tid := argint 0 in kthread_join fuel tid.

Definition sys_thread_exit : K Z :=
  let* status := argint 0 in
  kthread_exit fuel status ;;;
  ret 0.
End Fuel.
