(* ===== verification/Sync.v ===== *)
(** * Mutexes and semaphores under interleaving

    Threads call the mutex and semaphore operations of sysproc.c in any order;
    a thread is cut where the code gives up the CPU, in [sleep].  Both
    primitives are the same loop over a resource with a number of free units:
    wait until a unit is free and take it; give a unit back and wake the
    sleepers.  The loop is studied once and instantiated twice. *)
From S2P Require Import Prelude State CString Kalloc Vm Sched Printf Bytes Bio Log Fs File Proc SysArg Sysproc.

Open Scope Z_scope.

(** ** The waiting loop *)
Section Wait.
(** The spin lock and the wait channel of the resource; whether no unit is free;
    what taking a unit does. *)
Context (lk : lockid) (chan : chanid) (blocked : kernel -> bool) (take : kernel -> kernel).

Definition wait_turn : K (unit + Z) :=
  let* b := gets blocked in
  if (b : bool) then
    let* p := this_proc in
    let* k := killed p in
    if negb (k =? 0) then release lk ;;; ret (inr (-1))
    else sleep chan lk ;;; ret (inl tt)
  else
    modify take ;;;
    release lk ;;;
    ret (inr 0).
Definition wait_while (fuel : nat) : K Z := while_loop fuel tt (fun _ => wait_turn).

(** A thread in the loop, holding the lock. *)
Definition in_loop (t : nat) (s : kernel) : Prop :=
  k_cur s = Some t /\ k_held s = [lk] /\ (t < length (k_procs s))%nat.

Context (Hlk : forall t, lk <> LProc t).
Context (Htake : forall s, k_held (take s) = k_held s).

(** What happens from the head of the loop to its end or to the next switch. *)
Inductive wait_outcome (t f : nat) (s : kernel) : run kernel Z -> Prop :=
| wait_took : blocked s = false -> wait_outcome t f s (Ret 0 (set_k_held [] (take s)))
| wait_killed : blocked s = true -> p_killed (getproc s t) <> 0 ->
    wait_outcome t f s (Ret (-1) (set_k_held [] s))
| wait_sleeps k : blocked s = true -> p_killed (getproc s t) = 0 ->
    (forall s1, k_held s1 = [LProc t] -> k s1 = wait_while f (awake t lk s1)) ->
    wait_outcome t f s (Yield (asleep t chan s) k).

Lemma wait_while_outcome t f s : in_loop t s -> wait_outcome t f s (wait_while (S f) s).
Proof.
  intros (Hc & Hh & Ht). unfold wait_while. cbn [while_loop]. fold (wait_while f).
  destruct (blocked s) eqn:B.
  - assert (LProc t ∉ k_held s) as Hn by (rewrite Hh; specialize (Hlk t); set_solver).
    destruct (Z.eq_dec (p_killed (getproc s t)) 0) as [E|E].
    + destruct (sleep_yields chan lk t s) as (k & Ek & Hk); try done.
      assert (wait_turn s = Yield (asleep t chan s) (fun s1 => run_bind (k s1) (fun _ => ret (inl tt)))) as ET.
      { unfold wait_turn. erewrite bind_ret_eq by reflexivity. rewrite B.
        erewrite bind_ret_eq by (by apply this_proc_ret). erewrite bind_ret_eq by (by apply killed_eq).
        rewrite E. simpl. by erewrite bind_yield_eq by exact Ek. }
      erewrite bind_yield_eq by exact ET. apply wait_sleeps; [done|done|].
      intros s1 Hs1. cbn [run_bind]. by rewrite Hk.
    + assert (wait_turn s = Ret (inr (-1)) (set_k_held [] s)) as ET.
      { unfold wait_turn. erewrite bind_ret_eq by reflexivity. rewrite B.
        erewrite bind_ret_eq by (by apply this_proc_ret). erewrite bind_ret_eq by (by apply killed_eq).
        rewrite (proj2 (Z.eqb_neq _ _) E). simpl. by erewrite bind_ret_eq by (by apply release_top). }
      erewrite bind_ret_eq by exact ET. by apply wait_killed.
  - assert (wait_turn s = Ret (inr 0) (set_k_held [] (take s))) as ET.
    { unfold wait_turn. erewrite bind_ret_eq by reflexivity. rewrite B. erewrite bind_ret_eq by reflexivity.
      by erewrite bind_ret_eq by (apply release_top; rewrite Htake; done). }
    erewrite bind_ret_eq by exact ET. by apply wait_took.
Qed.

(** ** Threads sharing the resource *)

(** Where a thread is: outside the operations; switched out in [sleep]; between
    taking a unit and giving it back, when the resource is one that is handed
    back by its holder; or woken more often than the fuel of its call allows. *)
Inductive tpc := TIdle | TWait (k : kernel -> run kernel Z) | THas | TSpin.

Record sys := mkSys {
  y_s : kernel;
  y_pc : list tpc;
  y_taken : Z;   (* units taken and given back so far *)
  y_given : Z;
}.

Definition as_thread (t : nat) (s : kernel) : kernel := set_k_held [] (set_k_cur (Some t) s).
(** The scheduler hands the CPU and the process lock to [t]. *)
Definition resumed (t : nat) (s : kernel) : kernel :=
  upd_proc t (set_p_state RUNNING) (set_k_held [LProc t] (set_k_cur (Some t) s)).

(** The code of the two operations; whether the holder has to give back; when
    giving is attempted; the part of the state the resource lives in; the
    number of free units, at the start [init]. *)
Context (take_op : nat -> K Z) (give_op : K Z) (holds : bool) (guard : kernel -> Prop).
Context {R : Type} (res : kernel -> R) (avail : kernel -> Z) (init : Z).
Definition pc_took : tpc := if holds then THas else TIdle.

(** What a call of [take_op], or its continuation, leads to; None is a panic. *)
Definition settle (c : sys) (t : nat) (r : run kernel Z) : option sys :=
  match r with
  | Ret v s' =>
      Some (if v =? 0 then mkSys s' (<[t := pc_took]> (y_pc c)) (y_taken c + 1) (y_given c)
            else mkSys s' (<[t := TIdle]> (y_pc c)) (y_taken c) (y_given c))
  | Yield s' k => Some (mkSys s' (<[t := TWait k]> (y_pc c)) (y_taken c) (y_given c))
  | Fuel => Some (mkSys (y_s c) (<[t := TSpin]> (y_pc c)) (y_taken c) (y_given c))
  | Panic _ => None
  end.
(** [give_op] is expected to return 0. *)
Definition settle_give (c : sys) (t : nat) (r : run kernel Z) : option sys :=
  match r with
  | Ret v s' => if v =? 0 then Some (mkSys s' (<[t := TIdle]> (y_pc c)) (y_taken c) (y_given c + 1)) else None
  | _ => None
  end.

(** The rest of the system: it leaves the resource alone and may wake sleepers
    (for instance by [kkill]). *)
Definition others (c : sys) (s' : kernel) : Prop :=
  res s' = res (y_s c) /\ length (k_procs s') = length (k_procs (y_s c)) /\ forall t k, y_pc c !! t = Some (TWait k) ->
    p_state (getproc s' t) = RUNNABLE \/
    p_state (getproc s' t) = p_state (getproc (y_s c) t) /\ p_chan (getproc s' t) = p_chan (getproc (y_s c) t).

Inductive sys_step (c : sys) : option sys -> Prop :=
| y_call t fuel : y_pc c !! t = Some TIdle ->
    sys_step c (settle c t (take_op fuel (as_thread t (y_s c))))
| y_resume t k : y_pc c !! t = Some (TWait k) -> p_state (getproc (y_s c) t) = RUNNABLE ->
    sys_step c (settle c t (k (resumed t (y_s c))))
| y_give t : y_pc c !! t = Some pc_took -> guard (y_s c) ->
    sys_step c (settle_give c t (give_op (as_thread t (y_s c))))
| y_others s' : others c s' -> sys_step c (Some (mkSys s' (y_pc c) (y_taken c) (y_given c))).

Inductive sys_reach (c0 : sys) : sys -> Prop :=
| reach_init : sys_reach c0 c0
| reach_step c c' : sys_reach c0 c -> sys_step c (Some c') -> sys_reach c0 c'.

Definition is_has (p : tpc) : bool := match p with THas => true | _ => false end.
Definition holders (l : list tpc) : Z := Z.of_nat (length (List.filter is_has l)).

(** At the start no thread is inside. *)
Definition sys_start (s : kernel) : sys := mkSys s (replicate (Z.to_nat NPROC) TIdle) 0 0.

(** *** What is asked of the two operations *)
Context (ok give_ok : kernel -> Prop) (give : kernel -> kernel).
Record resource_laws : Prop := {
  law_held : forall h s, res (set_k_held h s) = res s;
  law_cur : forall c s, res (set_k_cur c s) = res s;
  law_procs : forall p s, res (set_k_procs p s) = res s;
  law_avail : forall s s', res s = res s' -> avail s = avail s';
  law_ok : forall s s', res s = res s' -> ok s -> ok s';
  law_blocked : forall s, blocked s = (avail s =? 0);
  law_take : forall s, ok s -> 0 < avail s -> avail (take s) = avail s - 1 /\ ok (take s);
  law_take_procs : forall s, k_procs (take s) = k_procs s;
  law_give : forall s, ok s -> give_ok s -> avail (give s) = avail s + 1 /\ ok (give s);
  law_give_procs : forall s, k_procs (give s) = k_procs s /\ k_cur (give s) = k_cur s;
  law_guard : forall s, ok s -> 0 <= avail s -> (if holds then avail s < init else guard s) -> give_ok s;
  law_take_op : forall fuel s, ok s -> k_held s = [] -> take_op fuel s = wait_while fuel (set_k_held [lk] s);
  law_give_op : forall s, ok s -> k_held s = [] -> give_ok s -> (length (k_procs s) <= Z.to_nat NPROC)%nat ->
    give_op s = Ret 0 (woken chan (give s));
}.
Context (L : resource_laws).
Context (guard_agrees : forall s s', res s' = res s -> guard s -> guard s').

Record sys_inv (c : sys) : Prop := {
  y_len : length (y_pc c) = Z.to_nat NPROC;
  y_procs : length (k_procs (y_s c)) = Z.to_nat NPROC;
  y_ok : ok (y_s c);
  y_units : avail (y_s c) = init + y_given c - y_taken c;
  y_nonneg : 0 <= avail (y_s c);
  y_holders : holds = true -> y_taken c - y_given c = holders (y_pc c);
  y_waits : forall t k, y_pc c !! t = Some (TWait k) ->
    (exists f, forall s1, k_held s1 = [LProc t] -> k s1 = wait_while f (awake t lk s1))
    /\ (p_state (getproc (y_s c) t) = RUNNABLE \/
        p_state (getproc (y_s c) t) = SLEEPING /\ p_chan (getproc (y_s c) t) = chan);
  y_awake : 0 < avail (y_s c) -> forall t k, y_pc c !! t = Some (TWait k) ->
    p_state (getproc (y_s c) t) <> SLEEPING;
}.

Definition one (b : bool) : Z := if b then 1 else 0.
Lemma holders_insert l t x y :
  l !! t = Some x -> holders (<[t := y]> l) = holders l - one (is_has x) + one (is_has y).
Proof.
  unfold holders. revert t. induction l as [|z l IH]; intros [|t] E; simplify_eq/=.
  - destruct (is_has x), (is_has y); simpl; lia.
  - specialize (IH t E). destruct (is_has z); simpl; lia.
Qed.
Lemma holders_pos l t : l !! t = Some THas -> 0 < holders l.
Proof.
  unfold holders. revert t. induction l as [|z l IH]; intros [|t] E; simplify_eq/=; [lia|].
  specialize (IH t E). destruct (is_has z); simpl; lia.
Qed.

(** The state a thread runs in agrees with the state of the system on all that
    the invariant looks at in the other threads. *)
Definition agrees (t : nat) (s1 s : kernel) : Prop :=
  res s1 = res s /\ length (k_procs s1) = length (k_procs s) /\
  forall u, u <> t -> getproc s1 u = getproc s u.

Lemma pc_update l t u (x y : tpc) : (<[t := x]> l : list tpc) !! u = Some y -> u = t /\ y = x \/ u <> t /\ l !! u = Some y.
Proof. intros [(-> & -> & _)|[? H]]%list_lookup_insert_Some; [by left|by right]. Qed.

Definition waits (t : nat) (k : kernel -> run kernel Z) (s : kernel) : Prop :=
  (exists f, forall s1, k_held s1 = [LProc t] -> k s1 = wait_while f (awake t lk s1))
  /\ (p_state (getproc s t) = RUNNABLE \/ p_state (getproc s t) = SLEEPING /\ p_chan (getproc s t) = chan).

(** One thread moved, the others are as before, and no unit became free. *)
Lemma inv_update c t x s' pc taken given :
  sys_inv c -> y_pc c !! t = Some x -> is_has x = false ->
  length (k_procs s') = Z.to_nat NPROC -> ok s' -> (forall u, u <> t -> getproc s' u = getproc (y_s c) u) ->
  avail s' = init + given - taken -> 0 <= avail s' <= avail (y_s c) ->
  (holds = true -> taken - given = holders (y_pc c) + one (is_has pc)) ->
  (forall k, pc = TWait k -> waits t k s' /\ avail s' = 0) ->
  sys_inv (mkSys s' (<[t := pc]> (y_pc c)) taken given).
Proof.
  intros [I1 I2 I3 I4 I5 I6 I7 I8] Hx Hxh Hlen Hok Hu Ha Hn Hh Hk. constructor; simpl; try done.
  - by rewrite length_insert.
  - lia.
  - intros E. rewrite (holders_insert _ _ x) by done. rewrite Hxh, (Hh E). simpl. lia.
  - intros u k [[-> E]|[Hne E]]%pc_update; [by apply (Hk k)|]. rewrite Hu by done. by apply I7.
  - intros Hpos u k [[-> E]|[Hne E]]%pc_update; [destruct (Hk k (eq_sym E)); lia|].
    rewrite Hu by done. apply (I8 ltac:(lia) u k E).
Qed.

Lemma avail_asleep t s : avail (asleep t chan s) = avail s.
Proof. apply (law_avail L). unfold asleep. rewrite (law_held L). apply (law_procs L). Qed.

(** Giving a unit back wakes every waiting thread. *)
Lemma woken_getproc t u s :
  k_cur s = Some t -> t <> u -> p_state (getproc s u) = RUNNABLE \/
    p_state (getproc s u) = SLEEPING /\ p_chan (getproc s u) = chan ->
  p_state (getproc (woken chan s) u) = RUNNABLE.
Proof.
  intros Hc Hne H. unfold getproc, woken in *. simpl. rewrite list_lookup_imap.
  destruct (k_procs s !! u) as [x|]; simpl in *; [|by destruct H as [?|[? _]]]. unfold wake. rewrite Hc.
  destruct H as [H|[H1 H2]]; [rewrite decide_False; [done|intros (_ & ? & _); congruence]|].
  rewrite decide_True; [done|]. split; [congruence|done].
Qed.

Lemma step_give c t :
  sys_inv c -> y_pc c !! t = Some pc_took -> guard (y_s c) ->
  exists c', settle_give c t (give_op (as_thread t (y_s c))) = Some c' /\ sys_inv c'.
Proof.
  intros I Hpc Hg. set (s1 := as_thread t (y_s c)).
  assert (res s1 = res (y_s c)) as Hres by (unfold s1, as_thread; by rewrite (law_held L), (law_cur L)).
  assert (ok s1) as Hok by (apply (law_ok L (y_s c)); [done|apply (y_ok c I)]).
  assert (avail s1 = avail (y_s c)) as Ha by (by apply (law_avail L)).
  pose proof (y_nonneg c I). pose proof (y_units c I). pose proof (y_procs c I) as Hl.
  assert (give_ok s1) as Hgive.
  { apply (law_guard L); [done|lia|]. destruct holds eqn:E; [|by apply (guard_agrees (y_s c))].
    pose proof (y_holders c I E). unfold pc_took in Hpc. rewrite E in Hpc.
    pose proof (holders_pos _ _ Hpc). lia. }
  destruct (law_give L s1 Hok Hgive) as [G1 G2]. destruct (law_give_procs L s1) as [G3 G4].
  assert (res (woken chan (give s1)) = res (give s1)) as Hw by apply (law_procs L).
  rewrite (law_give_op L s1) by (done || (change (k_procs s1) with (k_procs (y_s c)); lia)). simpl.
  eexists. split; [reflexivity|]. constructor; simpl.
  - rewrite length_insert. apply I.
  - rewrite length_imap, G3. done.
  - by apply (law_ok L (give s1)).
  - rewrite (law_avail L _ _ Hw), G1. lia.
  - rewrite (law_avail L _ _ Hw), G1. lia.
  - intros E. rewrite (holders_insert _ _ pc_took) by done. pose proof (y_holders c I E).
    unfold pc_took. rewrite E. simpl. lia.
  - intros u k [[_ E]|[Hne E]]%pc_update; [done|]. destruct (y_waits c I u k E) as [Hf Hs].
    split; [done|]. left. apply (woken_getproc t); [by rewrite G4|done|]. unfold getproc. rewrite G3. apply Hs.
  - intros _ u k [[_ E]|[Hne E]]%pc_update; [done|]. destruct (y_waits c I u k E) as [Hf Hs].
    rewrite (woken_getproc t); [done|by rewrite G4|done|]. unfold getproc. rewrite G3. apply Hs.
Qed.

Lemma step_others c s' :
  sys_inv c -> others c s' ->
  exists c', Some (mkSys s' (y_pc c) (y_taken c) (y_given c)) = Some c' /\ sys_inv c'.
Proof.
  intros I (Hres & Hl & Hp). eexists. split; [reflexivity|].
  assert (avail s' = avail (y_s c)) as Ha by (by apply (law_avail L)).
  constructor; simpl; try apply I.
  - rewrite Hl. apply I.
  - apply (law_ok L (y_s c)); [done|apply I].
  - rewrite Ha. apply I.
  - rewrite Ha. apply I.
  - intros t k E. destruct (y_waits c I t k E) as [Hf Hs]. split; [done|].
    destruct (Hp t k E) as [->|[-> ->]]; [by left|done].
  - rewrite Ha. intros Hpos t k E. pose proof (y_awake c I Hpos t k E). destruct (Hp t k E) as [->|[-> _]]; done.
Qed.

(** A thread leaves the loop or goes to sleep: the invariant survives. *)
Lemma settle_outcome c t x f s1 r :
  sys_inv c -> y_pc c !! t = Some x -> is_has x = false ->
  agrees t s1 (y_s c) -> wait_outcome t f s1 r -> exists c', settle c t r = Some c' /\ sys_inv c'.
Proof.
  intros I Hx Hxh (Hres & Hlen & Hu) O.
  pose proof (y_procs c I). pose proof (y_units c I). pose proof (y_nonneg c I). pose proof (y_holders c I) as Hh.
  assert (t < length (k_procs s1))%nat as Ht1.
  { apply lookup_lt_Some in Hx. rewrite (y_len c I) in Hx. lia. }
  assert (avail s1 = avail (y_s c)) as Ha by (by apply (law_avail L)).
  assert (ok s1) as Hok by (apply (law_ok L (y_s c)); [done|apply (y_ok c I)]).
  assert (forall h s, avail (set_k_held h s) = avail s) as Ah by (intros; apply (law_avail L), (law_held L)).
  assert (forall h s, ok s -> ok (set_k_held h s)) as Oh by (intros h s; apply (law_ok L); symmetry; apply (law_held L)).
  destruct O as [B|B K|k B K Hk]; rewrite (law_blocked L) in B; simpl; eexists; (split; [reflexivity|]);
    eapply inv_update; try done; try (by rewrite Ah; lia); try (by apply Oh).
  - simpl. rewrite (law_take_procs L). lia.
  - apply Oh, (law_take L); [done|lia].
  - intros u Hne. rewrite getproc_held, <- Hu by done. unfold getproc. by rewrite (law_take_procs L).
  - rewrite Ah. destruct (law_take L s1) as [-> _]; [done|lia|]. lia.
  - rewrite Ah. destruct (law_take L s1) as [-> _]; [done|lia|]. lia.
  - intros E. rewrite <- (Hh E). unfold pc_took. rewrite E. simpl. lia.
  - unfold pc_took. by destruct holds.
  - simpl. lia.
  - intros E. rewrite <- (Hh E). simpl. lia.
  - simpl. rewrite length_alter. lia.
  - apply Oh, (law_ok L s1); [symmetry; apply (law_procs L)|done].
  - intros u Hne. unfold asleep. rewrite getproc_held, getproc_upd, decide_False by done. by apply Hu.
  - rewrite avail_asleep. lia.
  - rewrite avail_asleep. lia.
  - intros E. rewrite <- (Hh E). simpl. lia.
  - intros k' [= <-]. rewrite avail_asleep. apply Z.eqb_eq in B. split; [|lia].
    unfold waits, asleep. rewrite getproc_held, getproc_upd, decide_True by done. split; [by exists f|]. by right.
Qed.

Lemma agrees_resumed t s : (t < length (k_procs s))%nat -> agrees t (awake t lk (resumed t s)) s.
Proof.
  intros Ht. unfold awake, resumed. split; [|split].
  - rewrite (law_held L). unfold upd_proc. by rewrite !(law_procs L), (law_held L), (law_cur L).
  - simpl. by rewrite !length_alter.
  - intros u Hu. rewrite getproc_held, getproc_upd by (simpl; by rewrite length_alter).
    rewrite decide_False by done. rewrite getproc_upd by done. by rewrite decide_False.
Qed.

(** The loop entered in any state that agrees with the system's. *)
Lemma settle_loop c t x f s1 :
  sys_inv c -> y_pc c !! t = Some x -> is_has x = false -> agrees t s1 (y_s c) -> in_loop t s1 ->
  exists c', settle c t (wait_while f s1) = Some c' /\ sys_inv c'.
Proof.
  intros I Hx Hxh Ag Il. destruct f as [|f].
  - simpl. eexists. split; [reflexivity|]. eapply inv_update; try done; try apply I.
    + pose proof (y_nonneg c I). lia.
    + intros E. rewrite (y_holders c I E). simpl. lia.
  - eapply settle_outcome; try done. by apply wait_while_outcome.
Qed.

Lemma step_inv c o : sys_inv c -> sys_step c o -> exists c', o = Some c' /\ sys_inv c'.
Proof.
  intros I St. assert (forall t x, y_pc c !! t = Some x -> t < length (k_procs (y_s c)))%nat as Lt.
  { intros t x Hx. apply lookup_lt_Some in Hx. rewrite (y_len c I) in Hx. by rewrite (y_procs c I). }
  destruct St as [t fuel Hpc|t k Hpc Hr|t Hpc Hg|s' Ho].
  - assert (ok (as_thread t (y_s c))) as Hok.
    { apply (law_ok L (y_s c)); [|apply (y_ok c I)]. unfold as_thread. by rewrite (law_held L), (law_cur L). }
    rewrite (law_take_op L) by done. eapply settle_loop; try done.
    + split; [|done]. unfold as_thread. by rewrite !(law_held L), (law_cur L).
    + repeat split. by apply (Lt t TIdle).
  - destruct (y_waits c I t k Hpc) as [[f Hk] _]. rewrite Hk by done. eapply settle_loop; try done.
    + by apply agrees_resumed, (Lt t (TWait k)).
    + repeat split. simpl. rewrite !length_alter. by apply (Lt t (TWait k)).
  - by apply step_give.
  - by apply step_others.
Qed.
End Wait.

(** The invariant holds wherever the threads can get. *)
Section Reach.
Context {lk : lockid} {chan : chanid} {blocked : kernel -> bool} {take : kernel -> kernel}.
Context {take_op : nat -> K Z} {give_op : K Z} {holds : bool} {guard : kernel -> Prop}.
Context {R : Type} {res : kernel -> R} {avail : kernel -> Z} {init : Z}.
Context {ok give_ok : kernel -> Prop} {give : kernel -> kernel}.
Context (Hlk : forall t, lk <> LProc t) (Htake : forall s, k_held (take s) = k_held s).
Context (L : resource_laws lk chan blocked take take_op give_op holds guard res avail init ok give_ok give).
Context (guard_agrees : forall s s', res s' = res s -> guard s -> guard s').

Lemma reach_inv s0 c :
  ok s0 -> 0 <= avail s0 -> init = avail s0 -> length (k_procs s0) = Z.to_nat NPROC ->
  sys_reach take_op give_op holds guard res (sys_start s0) c ->
  sys_inv lk chan blocked take holds avail init ok c.
Proof.
  intros Hok Hn Hi Hl H. induction H as [|c c' _ IH St].
  - constructor; cbn [y_s y_pc y_taken y_given sys_start]; try done; try lia.
    + by intros t k [? _]%lookup_replicate.
    + by intros _ t k [? _]%lookup_replicate.
  - destruct (step_inv _ _ _ _ Hlk Htake _ _ _ _ _ _ _ _ _ _ L guard_agrees c (Some c') IH St) as (? & [= ->] & ?). done.
Qed.

Lemma reach_no_panic s0 c :
  ok s0 -> 0 <= avail s0 -> init = avail s0 -> length (k_procs s0) = Z.to_nat NPROC ->
  sys_reach take_op give_op holds guard res (sys_start s0) c -> ~ sys_step take_op give_op holds guard res c None.
Proof.
  intros Hok Hn Hi Hl H St. pose proof (reach_inv s0 c Hok Hn Hi Hl H) as I.
  by destruct (step_inv _ _ _ _ Hlk Htake _ _ _ _ _ _ _ _ _ _ L guard_agrees c None I St) as (? & ? & _).
Qed.
End Reach.

Lemma holders_unique l t u : holders l <= 1 -> l !! t = Some THas -> l !! u = Some THas -> t = u.
Proof.
  intros Hl Ht Hu. destruct (decide (t = u)) as [|Hne]; [done|].
  pose proof (holders_insert l t THas TIdle Ht) as E. simpl in E.
  pose proof (holders_pos (<[t := TIdle]> l) u) as P. rewrite list_lookup_insert_ne in P by done. specialize (P Hu). lia.
Qed.

Lemma holders_ex l : 0 < holders l -> exists t, l !! t = Some THas.
Proof.
  unfold holders. induction l as [|x l IH]; simpl; [lia|]. destruct x; simpl; intros H;
    try (by exists 0%nat); destruct (IH H) as [t Ht]; by exists (S t).
Qed.

(** ** Mutexes *)
Section Mutex.
Context (id : nat).
Definition mutex_locked (s : kernel) : bool := negb (km_locked (getmutex s id) =? 0).
Definition mutex_set (v : Z) : kernel -> kernel := upd_mutex id (fun m => mkKmutex (km_used m) v).
Definition mutex_avail (s : kernel) : Z := if mutex_locked s then 0 else 1.
Definition mutex_ok (s : kernel) : Prop := (id < length (k_mutexes s))%nat /\ km_used (getmutex s id) <> 0.

Lemma getmutex_set v s :
  (id < length (k_mutexes s))%nat -> getmutex (mutex_set v s) id = mkKmutex (km_used (getmutex s id)) v.
Proof.
  intros H. unfold getmutex, mutex_set, upd_mutex. simpl. rewrite list_lookup_alter_eq.
  by destruct (lookup_lt_is_Some_2 _ _ H) as [m ->].
Qed.

Lemma mutex_set_ok v s : mutex_ok s -> mutex_ok (mutex_set v s).
Proof. intros [H1 H2]. unfold mutex_ok. rewrite getmutex_set by done. simpl. by rewrite length_alter. Qed.

Lemma getmutex_res s s' : k_mutexes s = k_mutexes s' -> getmutex s id = getmutex s' id.
Proof. unfold getmutex. by intros ->. Qed.

Lemma m_acquire_loop fuel s :
  mutex_ok s -> k_held s = [] ->
  m_acquire fuel id s = wait_while (LMutex id) (CMutex id) mutex_locked (mutex_set 1) fuel (set_k_held [LMutex id] s).
Proof.
  intros [_ Hu] Hh. unfold m_acquire. erewrite bind_ret_eq by reflexivity.
  rewrite (proj2 (Z.eqb_neq _ _) Hu). erewrite bind_ret_eq by (apply acquire_ok; rewrite Hh; set_solver).
  by rewrite Hh.
Qed.

Lemma m_release_eq s :
  mutex_ok s -> k_held s = [] -> mutex_locked s = true -> (length (k_procs s) <= Z.to_nat NPROC)%nat ->
  m_release id s = Ret 0 (woken (CMutex id) (mutex_set 0 s)).
Proof.
  intros [_ Hu] Hh Hl Hp. unfold m_release. erewrite bind_ret_eq by reflexivity.
  rewrite (proj2 (Z.eqb_neq _ _) Hu). erewrite bind_ret_eq by (apply acquire_ok; rewrite Hh; set_solver).
  erewrite bind_ret_eq by reflexivity. unfold mutex_locked in Hl. apply negb_true_iff in Hl.
  change (getmutex (set_k_held _ s) id) with (getmutex s id). rewrite Hl.
  erewrite bind_ret_eq by reflexivity. erewrite bind_ret_eq.
  2: { apply wakeup_spec; [|done]. intros p. simpl. rewrite Hh. set_solver. }
  erewrite bind_ret_eq by (by apply release_top). unfold ret. destruct s. simpl in Hh. by subst.
Qed.

Lemma mutex_laws :
  resource_laws (LMutex id) (CMutex id) mutex_locked (mutex_set 1) (fun fuel => m_acquire fuel id) (m_release id)
    true (fun _ => True) k_mutexes mutex_avail 1 mutex_ok (fun s => mutex_locked s = true) (mutex_set 0).
Proof.
  constructor; try done.
  - intros s s' E. unfold mutex_avail, mutex_locked. by rewrite (getmutex_res s s' E).
  - intros s s' E. unfold mutex_ok. by rewrite (getmutex_res s s' E), E.
  - intros s. unfold mutex_avail. by destruct (mutex_locked s).
  - intros s Hok Ha. split; [|by apply mutex_set_ok]. unfold mutex_avail in *. destruct (mutex_locked s); [lia|].
    unfold mutex_locked. rewrite getmutex_set by apply Hok. done.
  - intros s Hok Hl. split; [|by apply mutex_set_ok]. unfold mutex_avail. rewrite Hl.
    unfold mutex_locked. rewrite getmutex_set by apply Hok. done.
  - intros s Hok H1 H2. unfold mutex_avail in H2. destruct (mutex_locked s); [done|lia].
  - apply m_acquire_loop.
  - apply m_release_eq.
Qed.

Lemma mutex_lk t : LMutex id <> LProc t.
Proof. done. Qed.
Lemma mutex_set_held v s : k_held (mutex_set v s) = k_held s.
Proof. done. Qed.

(** Any number of threads acquiring and releasing the mutex. *)
Definition mutex_reach := sys_reach (fun fuel => m_acquire fuel id) (m_release id) true (fun _ => True) k_mutexes.
Definition mutex_step := sys_step (fun fuel => m_acquire fuel id) (m_release id) true (fun _ => True) k_mutexes.
End Mutex.

(** C24: For an initialised, free mutex and any interleaving of threads that call
    [mutex_acquire] and, holding the mutex, [mutex_release], while the rest of
    the system kills and wakes as it likes: at most one thread holds the mutex;
    it is marked locked exactly when a thread holds it; no thread sleeps on a
    free mutex; and no operation panics or fails to release. *)
Theorem mutex_mutual_exclusion id s0 c :
  mutex_ok id s0 -> km_locked (getmutex s0 id) = 0 -> length (k_procs s0) = Z.to_nat NPROC ->
  mutex_reach id (sys_start s0) c ->
  (forall t u, y_pc c !! t = Some THas -> y_pc c !! u = Some THas -> t = u)
  /\ (km_locked (getmutex (y_s c) id) <> 0 <-> exists t, y_pc c !! t = Some THas)
  /\ (km_locked (getmutex (y_s c) id) = 0 ->
      forall t k, y_pc c !! t = Some (TWait k) -> p_state (getproc (y_s c) t) <> SLEEPING)
  /\ ~ mutex_step id c None.
Proof.
  intros Hok Hfree Hl H. assert (mutex_avail id s0 = 1) as Ha.
  { unfold mutex_avail, mutex_locked. by rewrite Hfree. }
  pose proof (reach_inv (mutex_lk id) (mutex_set_held id 1) (mutex_laws id) (fun _ _ _ _ => I) s0 c Hok ltac:(lia) (eq_sym Ha) Hl H) as Inv.
  pose proof (y_units _ _ _ _ _ _ _ _ _ Inv) as U. pose proof (y_nonneg _ _ _ _ _ _ _ _ _ Inv) as N.
  pose proof (y_holders _ _ _ _ _ _ _ _ _ Inv eq_refl) as Ho.
  assert (mutex_avail id (y_s c) = 1 - holders (y_pc c)) as E by lia.
  assert (km_locked (getmutex (y_s c) id) <> 0 <-> 0 < holders (y_pc c)) as Lk.
  { rewrite <- Z.eqb_neq. unfold mutex_avail, mutex_locked in E.
    destruct (km_locked (getmutex (y_s c) id) =? 0); simpl in E; split; (done || lia). }
  split; [|split; [|split]].
  - intros t u. apply holders_unique. lia.
  - rewrite Lk. split; [apply holders_ex|]. by intros [t Ht%holders_pos].
  - intros Hz. apply (y_awake _ _ _ _ _ _ _ _ _ Inv). rewrite E. destruct (Z.lt_decidable 0 (holders (y_pc c))) as [P|]; [by apply Lk in P|].
    unfold holders in *. lia.
  - apply (reach_no_panic (mutex_lk id) (mutex_set_held id 1) (mutex_laws id) (fun _ _ _ _ => I) s0 c Hok ltac:(lia) (eq_sym Ha) Hl H).
Qed.

(** Mutex 0 initialised and free; thread 1 takes it and thread 2 has to wait. *)
Definition demo_mutex : kernel := mutex_set 0 0 (upd_mutex 0 (fun m => mkKmutex 1 0) (kernel0 (mkSymbols PHYSTOP 0 0 0 0 0))).
Definition demo1 : option sys :=
  settle true (sys_start demo_mutex) 1 (m_acquire 9 0 (as_thread 1 (y_s (sys_start demo_mutex)))).
Definition demo2 (c : sys) : option sys := settle true c 2 (m_acquire 9 0 (as_thread 2 (y_s c))).

Definition demo_check : bool :=
  match demo1 with
  | Some c1 =>
      match y_pc c1 !! 2%nat, demo2 c1 with
      | Some TIdle, Some c2 => match y_pc c2 !! 1%nat with Some THas => true | _ => false end
      | _, _ => false
      end
  | None => false
  end.

Lemma mutex_mutual_exclusion_witness : exists c,
  mutex_reach 0 (sys_start demo_mutex) c
  /\ km_locked (getmutex (y_s c) 0) <> 0 /\ (forall t, y_pc c !! t = Some THas -> t = 1%nat).
Proof.
  assert (demo_check = true) as C by (vm_compute; reflexivity). unfold demo_check in C.
  destruct demo1 as [c1|] eqn:E1; [|discriminate]. destruct (y_pc c1 !! 2%nat) as [[]|] eqn:P1; try discriminate.
  destruct (demo2 c1) as [c2|] eqn:E2; [|discriminate].
  assert (y_pc c2 !! 1%nat = Some THas) as Ho by (destruct (y_pc c2 !! 1%nat) as [[]|]; (discriminate || reflexivity)).
  assert (mutex_reach 0 (sys_start demo_mutex) c2) as H.
  { eapply reach_step; [eapply reach_step; [apply reach_init|]|].
    - rewrite <- E1. by apply (y_call (fun fuel => m_acquire fuel 0) (m_release 0) true (fun _ => True) k_mutexes _ 1 9).
    - rewrite <- E2. by apply (y_call (fun fuel => m_acquire fuel 0) (m_release 0) true (fun _ => True) k_mutexes _ 2 9). }
  destruct (mutex_mutual_exclusion 0 demo_mutex c2) as (H1 & H2 & _ & _); try done; [split; [by vm_compute; lia|done]|].
  exists c2. split; [done|]. split; [apply H2; by exists 1%nat|]. intros t Ht. by apply (H1 t 1%nat).
Defined.

(** C30: A mutex a thread holds is freed by [mutex_init] from any other thread,
    which returns 0 and wakes nobody; the next [mutex_acquire] then succeeds
    although the first thread still holds the mutex. *)
Theorem mutex_init_frees_held id s fuel :
  mutex_ok id s -> km_locked (getmutex s id) <> 0 -> k_held s = [] ->
  exists s1 s2, m_init id s = Ret 0 s1 /\ km_locked (getmutex s1 id) = 0 /\ k_procs s1 = k_procs s
  /\ m_acquire (S fuel) id s1 = Ret 0 s2 /\ km_locked (getmutex s2 id) = 1.
Proof.
  intros Hok Hl Hh. exists (mutex_set id 0 s), (mutex_set id 1 (mutex_set id 0 s)).
  assert (m_init id s = Ret 0 (mutex_set id 0 s)) as Ei.
  { unfold m_init. erewrite bind_ret_eq by reflexivity. destruct Hok as [_ Hu].
    rewrite (proj2 (Z.eqb_neq _ _) Hu). erewrite bind_ret_eq by reflexivity.
    erewrite bind_ret_eq by (apply acquire_ok; rewrite Hh; set_solver). erewrite bind_ret_eq by reflexivity.
    erewrite bind_ret_eq by (by apply release_top). unfold ret. rewrite Hh. destruct s. simpl in Hh. by subst. }
  assert (mutex_ok id (mutex_set id 0 s)) as Hok1 by (by apply mutex_set_ok).
  rewrite getmutex_set by apply Hok. split; [done|]. split; [done|]. split; [done|].
  rewrite getmutex_set by apply Hok1. split; [|done].
  rewrite m_acquire_loop by done. unfold wait_while. cbn [while_loop]. erewrite bind_ret_eq.
  2: { unfold wait_turn. erewrite bind_ret_eq by reflexivity. unfold mutex_locked.
       change (getmutex (set_k_held _ (mutex_set id 0 s)) id) with (getmutex (mutex_set id 0 s) id).
       rewrite getmutex_set by apply Hok. simpl. erewrite bind_ret_eq by reflexivity.
       by erewrite bind_ret_eq by (by apply release_top). }
  unfold ret. destruct s. simpl in Hh. by subst.
Qed.

Lemma mutex_init_frees_held_witness : exists s1 s2,
  m_init 0 (mutex_set 0 1 demo_mutex) = Ret 0 s1 /\ m_acquire 1 0 s1 = Ret 0 s2.
Proof.
  destruct (mutex_init_frees_held 0 (mutex_set 0 1 demo_mutex) 0) as (s1 & s2 & H1 & _ & _ & H2 & _); try done.
  - split; [by vm_compute; lia|done].
  - by exists s1, s2.
Defined.

(** ** Semaphores *)
Section Sem.
Context (id : nat).
Definition sem_count (s : kernel) : Z := ks_count (getsem s id).
Definition sem_add (d : Z) : kernel -> kernel := upd_sem id (fun x => mkKsem (ks_used x) (int32 (ks_count x + d))).
Definition sem_ok (s : kernel) : Prop :=
  (id < length (k_sems s))%nat /\ ks_used (getsem s id) <> 0 /\ 0 <= sem_count s < 2 ^ 31.
(** A post does not overflow the count. *)
Definition sem_room (s : kernel) : Prop := sem_count s < 2 ^ 31 - 1.

Lemma getsem_add d s :
  (id < length (k_sems s))%nat ->
  getsem (sem_add d s) id = mkKsem (ks_used (getsem s id)) (int32 (sem_count s + d)).
Proof.
  intros H. unfold sem_count, getsem, sem_add, upd_sem. simpl. rewrite list_lookup_alter_eq.
  by destruct (lookup_lt_is_Some_2 _ _ H) as [x ->].
Qed.

Lemma sem_add_ok d s :
  sem_ok s -> 0 <= sem_count s + d < 2 ^ 31 -> sem_count (sem_add d s) = sem_count s + d /\ sem_ok (sem_add d s).
Proof.
  intros (H1 & H2 & H3) H. assert (sem_count (sem_add d s) = sem_count s + d) as E.
  { unfold sem_count at 1. rewrite getsem_add by done. simpl. apply int32_small. lia. }
  split; [done|]. unfold sem_ok. rewrite E, getsem_add by done. simpl. by rewrite length_alter.
Qed.

Lemma getsem_res s s' : k_sems s = k_sems s' -> getsem s id = getsem s' id.
Proof. unfold getsem. by intros ->. Qed.

Lemma s_wait_loop fuel s :
  sem_ok s -> k_held s = [] ->
  s_wait fuel id s
  = wait_while (LSem id) (CSem id) (fun s => sem_count s =? 0) (sem_add (-1)) fuel (set_k_held [LSem id] s).
Proof.
  intros (_ & Hu & _) Hh. unfold s_wait. erewrite bind_ret_eq by reflexivity.
  rewrite (proj2 (Z.eqb_neq _ _) Hu). erewrite bind_ret_eq by (apply acquire_ok; rewrite Hh; set_solver).
  by rewrite Hh.
Qed.

Lemma s_post_eq s :
  sem_ok s -> k_held s = [] -> (length (k_procs s) <= Z.to_nat NPROC)%nat ->
  s_post id s = Ret 0 (woken (CSem id) (sem_add 1 s)).
Proof.
  intros (_ & Hu & _) Hh Hp. unfold s_post. erewrite bind_ret_eq by reflexivity.
  rewrite (proj2 (Z.eqb_neq _ _) Hu). erewrite bind_ret_eq by (apply acquire_ok; rewrite Hh; set_solver).
  erewrite bind_ret_eq by reflexivity. erewrite bind_ret_eq.
  2: { apply wakeup_spec; [|done]. intros p. simpl. rewrite Hh. set_solver. }
  erewrite bind_ret_eq by (by apply release_top). unfold ret. destruct s. simpl in Hh. by subst.
Qed.

Lemma sem_laws init :
  resource_laws (LSem id) (CSem id) (fun s => sem_count s =? 0) (sem_add (-1)) (fun fuel => s_wait fuel id) (s_post id)
    false sem_room k_sems sem_count init sem_ok sem_room (sem_add 1).
Proof.
  constructor; try done.
  - intros s s' E. unfold sem_count. by rewrite (getsem_res s s' E).
  - intros s s' E. unfold sem_ok, sem_count. by rewrite (getsem_res s s' E), E.
  - intros s Hok Ha. replace (sem_count s - 1) with (sem_count s + -1) by lia.
    apply sem_add_ok; [done|]. destruct Hok as (_ & _ & ?). lia.
  - intros s Hok Ha. apply sem_add_ok; [done|]. unfold sem_room in Ha. destruct Hok as (_ & _ & ?). lia.
  - apply s_wait_loop.
  - intros s Hok Hh _. by apply s_post_eq.
Qed.

Lemma sem_lk t : LSem id <> LProc t.
Proof. done. Qed.
Lemma sem_add_held d s : k_held (sem_add d s) = k_held s.
Proof. done. Qed.
Lemma sem_room_agrees s s' : k_sems s' = k_sems s -> sem_room s -> sem_room s'.
Proof. intros E. unfold sem_room, sem_count. by rewrite (getsem_res s' s E). Qed.

(** Any number of threads waiting and posting; a post is made in states [may_post] allows. *)
Definition sem_reach (may_post : kernel -> Prop) := sys_reach (fun fuel => s_wait fuel id) (s_post id) false may_post k_sems.
Definition sem_step (may_post : kernel -> Prop) := sys_step (fun fuel => s_wait fuel id) (s_post id) false may_post k_sems.

(** At the largest [int] a post makes the count negative. *)
Lemma s_post_overflow s : sem_ok s -> k_held s = [] -> (length (k_procs s) <= Z.to_nat NPROC)%nat -> sem_count s = 2 ^ 31 - 1 ->
  exists s', s_post id s = Ret 0 s' /\ sem_count s' = - 2 ^ 31.
Proof.
  intros Hok Hh Hp Hc. eexists. split; [by apply s_post_eq|].
  change (sem_count (woken (CSem id) (sem_add 1 s))) with (sem_count (sem_add 1 s)). unfold sem_count at 1. rewrite getsem_add by apply Hok. rewrite Hc. reflexivity.
Qed.
End Sem.

(** C25: For an initialised semaphore whose count is not negative, and any interleaving of
    [sem_wait] and [sem_post] by any number of threads, with kills and other wakeups in
    between, in which every post is made while the count is below the largest [int]: the
    count is the initial value plus the posts made minus the waits that succeeded, and
    never negative; no thread sleeps while the count is positive; no operation panics and
    every post returns 0.  The condition on the posts is needed: one made at the largest
    [int] also returns 0 and leaves the count at the smallest. *)
Theorem semaphore_counts id s0 c :
  sem_ok id s0 -> length (k_procs s0) = Z.to_nat NPROC ->
  sem_reach id (fun s => sem_count id s < 2 ^ 31 - 1) (sys_start s0) c ->
  sem_count id (y_s c) = sem_count id s0 + y_given c - y_taken c
  /\ 0 <= sem_count id (y_s c)
  /\ (0 < sem_count id (y_s c) ->
      forall t k, y_pc c !! t = Some (TWait k) -> p_state (getproc (y_s c) t) <> SLEEPING)
  /\ ~ sem_step id (fun s => sem_count id s < 2 ^ 31 - 1) c None
  /\ (forall s, sem_ok id s -> k_held s = [] -> (length (k_procs s) <= Z.to_nat NPROC)%nat -> sem_count id s = 2 ^ 31 - 1 ->
      exists s', s_post id s = Ret 0 s' /\ sem_count id s' = - 2 ^ 31).
Proof.
  intros Hok Hl H. assert (0 <= sem_count id s0) as Hn by (destruct Hok as (_ & _ & ?); lia).
  pose proof (reach_inv (sem_lk id) (sem_add_held id (-1)) (sem_laws id _) (sem_room_agrees id) s0 c Hok Hn eq_refl Hl H) as Inv.
  pose proof (y_units _ _ _ _ _ _ _ _ _ Inv) as U. pose proof (y_nonneg _ _ _ _ _ _ _ _ _ Inv) as N.
  split; [done|]. split; [done|]. split; [apply (y_awake _ _ _ _ _ _ _ _ _ Inv)|]. split; [|apply s_post_overflow].
  apply (reach_no_panic (sem_lk id) (sem_add_held id (-1)) (sem_laws id _) (sem_room_agrees id) s0 c Hok Hn eq_refl Hl H).
Qed.

(** A semaphore with one unit: thread 1 takes it, thread 2 posts another. *)
Definition demo_sem : kernel := upd_sem 0 (fun _ => mkKsem 1 1) (kernel0 (mkSymbols PHYSTOP 0 0 0 0 0)).
Definition demo_sem1 : option sys :=
  settle false (sys_start demo_sem) 1 (s_wait 9 0 (as_thread 1 (y_s (sys_start demo_sem)))).

Lemma semaphore_counts_witness : exists c,
  sem_reach 0 (fun s => sem_count 0 s < 2 ^ 31 - 1) (sys_start demo_sem) c /\ y_taken c = 1 /\ sem_count 0 (y_s c) = 0.
Proof.
  destruct demo_sem1 as [c|] eqn:E; [|by vm_compute in E]. exists c.
  assert (sem_reach 0 (fun s => sem_count 0 s < 2 ^ 31 - 1) (sys_start demo_sem) c) as H.
  { eapply reach_step; [apply reach_init|]. rewrite <- E. by apply (y_call (fun fuel => s_wait fuel 0) (s_post 0) false (sem_room 0) k_sems _ 1 9). }
  destruct (semaphore_counts 0 demo_sem c) as (H1 & _); try done.
  - split; [by vm_compute; lia|]. split; [done|]. split; by vm_compute.
  - assert (y_taken c = 1 /\ y_given c = 0) as [T G] by (vm_compute in E; by injection E as <-).
    split; [done|]. split; [done|]. rewrite H1, T, G. reflexivity.
Defined.
