(* ===== verification/Sysfile.v ===== *)
(** * sysfile.c: system calls on files *)
From S2P Require Import Prelude State CString Kalloc Vm Sched Printf Bytes Bio Log Fs File Proc SysArg Exec.

Open Scope Z_scope.

(** ** fcntl.h *)
Definition O_RDONLY : Z := 0.
Definition O_WRONLY : Z := 1.
Definition O_RDWR : Z := 2.
Definition O_CREATE : Z := 512.
Definition O_TRUNC : Z := 1024.

Definition dot : list Z := [46].
Definition dotdot : list Z := [46; 46].

(** ** Descriptors *)
Definition fd_slots : list nat := seq 0 (Z.to_nat NOFILE).
Definition get_fd (x : proc) (fd : nat) : option nat := default None (p_ofile x !! fd).
Definition set_fd (fd : nat) (f : option nat) (x : proc) : proc := set_p_ofile (<[fd := f]> (p_ofile x)) x.

(** The descriptor and the file. *)
Definition argfd (n : Z) : K (option (nat * nat)) :=
  let* fd := argint n in
  if (fd <? 0) || (NOFILE <=? fd) then ret None else
  let* p := this_proc in
  let* pr := get_proc p in
  match get_fd pr (Z.to_nat fd) with
  | None => ret None
  | Some f => ret (Some (Z.to_nat fd, f))
  end.

(** The descriptor, or nothing where the code returns -1. *)
Definition fdalloc (f : nat) : K (option nat) :=
  let* p := this_proc in
  for_each fd_slots (fun fd =>
    let* pr := get_proc p in
    match get_fd pr fd with
    | None => mod_proc p (set_fd fd (Some f)) ;;; ret (Some fd)
    | Some _ => ret None
    end).

Definition sys_dup : K Z :=
  let* a := argfd 0 in
  match a with
  | None => ret (-1)
  | Some (_, f) =>
      let* fd := fdalloc f in
      match fd with
      | None => ret (-1)
      | Some fd => let* _ := filedup f in ret (Z.of_nat fd)
      end
  end.

Section Fuel.
Context (fuel : nat).

Definition sys_read : K Z :=
  let* p := argaddr 1 in
  let* n := argint 2 in
  let* a := argfd 0 in
  match a with
  | None => ret (-1)
  | Some (_, f) => fileread fuel f p n
  end.

Definition sys_write : K Z :=
  let* p := argaddr 1 in
  let* n := argint 2 in
  let* a := argfd 0 in
  match a with
  | None => ret (-1)
  | Some (_, f) => filewrite fuel f p n
  end.

Definition sys_close : K Z :=
  let* a := argfd 0 in
  match a with
  | None => ret (-1)
  | Some (fd, f) =>
      let* p := this_proc in
      mod_proc p (set_fd fd None) ;;;
      fileclose fuel f ;;;
      ret 0
  end.

Definition sys_fstat : K Z :=
  let* st := argaddr 1 in
  let* a := argfd 0 in
  match a with
  | None => ret (-1)
  | Some (_, f) => filestat fuel f st
  end.

(** ** Names *)
Definition add_nlink (d : Z) (x : inode) : inode := set_i_nlink (int16 (i_nlink x + d)) x.

(** The label [bad] of [sys_link]. *)
Definition link_bad (ip : nat) : K Z :=
  ilock fuel ip ;;;
  mod_inode ip (add_nlink (-1)) ;;;
  iupdate fuel ip ;;;
  iunlockput fuel ip ;;;
  end_op fuel ;;;
  ret (-1).

Definition sys_link : K Z :=
  let* a := argstr 0 MAXPATH in
  if fst a <? 0 then ret (-1) else
  let* b := argstr 1 MAXPATH in
  if fst b <? 0 then ret (-1) else
  begin_op fuel ;;;
  let* ip := namei fuel (snd a) in
  match ip with
  | None => end_op fuel ;;; ret (-1)
  | Some ip =>
      ilock fuel ip ;;;
      let* x := get_inode ip in
      if i_type x =? T_DIR then iunlockput fuel ip ;;; end_op fuel ;;; ret (-1) else
      mod_inode ip (add_nlink 1) ;;;
      iupdate fuel ip ;;;
      iunlock ip ;;;
      let* r := nameiparent fuel (snd b) in
      let '(dp, name) := r in
      match dp with
      | None => link_bad ip
      | Some dp =>
          ilock fuel dp ;;;
          let* d := get_inode dp in
          let* x := get_inode ip in
          let* e := (if negb (i_dev d =? i_dev x) then ret (-1) else dirlink fuel dp name (i_inum x)) in
          if e <? 0 then iunlockput fuel dp ;;; link_bad ip else
          iunlockput fuel dp ;;;
          iput fuel ip ;;;
          end_op fuel ;;;
          ret 0
      end
  end.

Definition isdirempty (dp : nat) : K bool :=
  let* d := get_inode dp in
  let* r := for_loop (Z.to_nat (i_size d / DIRENT + 1)) (2 * DIRENT) (fun off => off <? i_size d)
    (fun off => off + DIRENT) (fun off =>
      let* r := readi fuel dp Local off DIRENT in
      let '(e, de) := r in
      if negb (e =? DIRENT) then panic "isdirempty: readi" else
      if negb (de_inum de =? 0) then ret (Some tt) else ret None) in
  ret (match r with Some _ => false | None => true end).

(** The label [bad] of [sys_unlink]. *)
Definition unlink_bad (dp : nat) : K Z :=
  iunlockput fuel dp ;;;
  end_op fuel ;;;
  ret (-1).

Definition sys_unlink : K Z :=
  let* a := argstr 0 MAXPATH in
  if fst a <? 0 then ret (-1) else
  begin_op fuel ;;;
  let* r := nameiparent fuel (snd a) in
  let '(dp, name) := r in
  match dp with
  | None => end_op fuel ;;; ret (-1)
  | Some dp =>
      ilock fuel dp ;;;
      if (namecmp name dot =? 0) || (namecmp name dotdot =? 0) then unlink_bad dp else
      let* r := dirlookup fuel dp name in
      match r with
      | None => unlink_bad dp
      | Some (ip, off) =>
          ilock fuel ip ;;;
          let* x := get_inode ip in
          if i_nlink x <? 1 then panic "unlink: nlink < 1" else
          let* empty := (if i_type x =? T_DIR then isdirempty ip else ret true) in
          if negb (empty : bool) then iunlockput fuel ip ;;; unlink_bad dp else
          let* e := writei fuel dp (SLocal (replicate (Z.to_nat DIRENT) 0)) off DIRENT in
          if negb (e =? DIRENT) then panic "unlink: writei" else
          let* x := get_inode ip in
          (if i_type x =? T_DIR then mod_inode dp (add_nlink (-1)) ;;; iupdate fuel dp else skip) ;;;
          iunlockput fuel dp ;;;
          mod_inode ip (add_nlink (-1)) ;;;
          iupdate fuel ip ;;;
          iunlockput fuel ip ;;;
          end_op fuel ;;;
          ret 0
      end
  end.

(** The label [fail] of [create]. *)
Definition create_fail (dp ip : nat) : K (option nat) :=
  mod_inode ip (set_i_nlink 0) ;;;
  iupdate fuel ip ;;;
  iunlockput fuel ip ;;;
  iunlockput fuel dp ;;;
  ret None.

(** The inode returned is locked. *)
Definition create (path : list Z) (type major minor : Z) : K (option nat) :=
  let* r := nameiparent fuel path in
  let '(dp, name) := r in
  match dp with
  | None => ret None
  | Some dp =>
      ilock fuel dp ;;;
      let* r := dirlookup fuel dp name in
      match r with
      | Some (ip, _) =>
          iunlockput fuel dp ;;;
          ilock fuel ip ;;;
          let* x := get_inode ip in
          if (type =? T_FILE) && ((i_type x =? T_FILE) || (i_type x =? T_DEVICE)) then ret (Some ip) else
          iunlockput fuel ip ;;;
          ret None
      | None =>
          let* d := get_inode dp in
          let* ip := ialloc fuel (i_dev d) type in
          match ip with
          | None => iunlockput fuel dp ;;; ret None
          | Some ip =>
              ilock fuel ip ;;;
              mod_inode ip (fun x => set_i_nlink 1 (set_i_minor minor (set_i_major major x))) ;;;
              iupdate fuel ip ;;;
              let* x := get_inode ip in
              let* e :=
                (if type =? T_DIR then
                   let* e := dirlink fuel ip dot (i_inum x) in
                   if e <? 0 then ret e else
                   let* d := get_inode dp in
                   dirlink fuel ip dotdot (i_inum d)
                 else ret 0) in
              if e <? 0 then create_fail dp ip else
              let* e := dirlink fuel dp name (i_inum x) in
              if e <? 0 then create_fail dp ip else
              (if type =? T_DIR then mod_inode dp (add_nlink 1) ;;; iupdate fuel dp else skip) ;;;
              iunlockput fuel dp ;;;
              ret (Some ip)
          end
      end
  end.

Definition b2z (b : bool) : Z := if b then 1 else 0.

(** [sys_open] after [begin_op]: the locked inode, or nothing (after [end_op]). *)
Definition open_ip (path : list Z) (omode : Z) : K (option nat) :=
  if has omode O_CREATE then
    let* ip := create path T_FILE 0 0 in
    match ip with
    | None => end_op fuel ;;; ret None
    | Some ip => ret (Some ip)
    end
  else
    let* ip := namei fuel path in
    match ip with
    | None => end_op fuel ;;; ret None
    | Some ip =>
        ilock fuel ip ;;;
        let* x := get_inode ip in
        if (i_type x =? T_DIR) && negb (omode =? O_RDONLY) then
          iunlockput fuel ip ;;; end_op fuel ;;; ret None
        else ret (Some ip)
    end.

(** The fields of the new [struct file]. *)
Definition open_file (x : inode) (ip : nat) (omode : Z) (v : file) : file :=
  let v := if i_type x =? T_DEVICE then set_f_major (i_major x) (set_f_type FD_DEVICE v)
           else set_f_off 0 (set_f_type FD_INODE v) in
  set_f_writable (b2z (has omode O_WRONLY || has omode O_RDWR))
    (set_f_readable (b2z (negb (has omode O_WRONLY))) (set_f_ip (Some ip) v)).

Definition sys_open : K Z :=
  let* omode := argint 1 in
  let* a := argstr 0 MAXPATH in
  if fst a <? 0 then ret (-1) else
  begin_op fuel ;;;
  let* ip := open_ip (snd a) omode in
  match ip with
  | None => ret (-1)
  | Some ip =>
      let* x := get_inode ip in
      if (i_type x =? T_DEVICE) && ((i_major x <? 0) || (NDEV <=? i_major x)) then
        iunlockput fuel ip ;;; end_op fuel ;;; ret (-1)
      else
      let* f := filealloc in
      let* fd := match f with None => ret None | Some f => fdalloc f end in
      match f, fd with
      | Some f, Some fd =>
          mod_file f (open_file x ip omode) ;;;
          (if has omode O_TRUNC && (i_type x =? T_FILE) then itrunc fuel ip else skip) ;;;
          iunlock ip ;;;
          end_op fuel ;;;
          ret (Z.of_nat fd)
      | _, _ =>
          match f with Some f => fileclose fuel f | None => skip end ;;;
          iunlockput fuel ip ;;;
          end_op fuel ;;;
          ret (-1)
      end
  end.

Definition sys_mkdir : K Z :=
  begin_op fuel ;;;
  let* a := argstr 0 MAXPATH in
  let* ip := (if fst a <? 0 then ret None else create (snd a) T_DIR 0 0) in
  match ip with
  | None => end_op fuel ;;; ret (-1)
  | Some ip => iunlockput fuel ip ;;; end_op fuel ;;; ret 0
  end.

Definition sys_mknod : K Z :=
  begin_op fuel ;;;
  let* major := argint 1 in
  let* minor := argint 2 in
  let* a := argstr 0 MAXPATH in
  let* ip := (if fst a <? 0 then ret None else create (snd a) T_DEVICE (int16 major) (int16 minor)) in
  match ip with
  | None => end_op fuel ;;; ret (-1)
  | Some ip => iunlockput fuel ip ;;; end_op fuel ;;; ret 0
  end.

Definition sys_chdir : K Z :=
  let* p := this_proc in
  begin_op fuel ;;;
  let* a := argstr 0 MAXPATH in
  let* ip := (if fst a <? 0 then ret None else namei fuel (snd a)) in
  match ip with
  | None => end_op fuel ;;; ret (-1)
  | Some ip =>
      ilock fuel ip ;;;
      let* x := get_inode ip in
      if negb (i_type x =? T_DIR) then iunlockput fuel ip ;;; end_op fuel ;;; ret (-1) else
      iunlock ip ;;;
      let* pr := get_proc p in
      match p_cwd pr with Some c => iput fuel c | None => panic "kerneltrap" end ;;;
      end_op fuel ;;;
      mod_proc p (set_p_cwd (Some ip)) ;;;
      ret 0
  end.

(** ** exec and pipe *)

(** The argument vector of [sys_exec]: whether it was fetched whole, the pages
    allocated and the strings in them. *)
Definition fetch_argv (uargv : Z) : K (bool * list Z * list (list Z)) :=
  while_loop (S (Z.to_nat MAXARG)) (0, [], []) (fun '(i, pages, argv) =>
    if MAXARG <=? i then ret (inr (false, pages, argv)) else
    let* r := fetchaddr (wrap64 (uargv + 8 * i)) in
    let '(e, uarg) := r in
    if e <? 0 then ret (inr (false, pages, argv)) else
    if uarg =? 0 then ret (inr (true, pages, argv)) else
    let* page := kalloc in
    if is_null page then ret (inr (false, pages, argv)) else
    let* r := fetchstr uarg PGSIZE in
    let '(n, bytes) := r in
    modify (fun s => set_k_mem (write_bytes (k_mem s) page bytes) s) ;;;
    if n <? 0 then ret (inr (false, pages ++ [page], argv)) else
    ret (inl (i + 1, pages ++ [page], argv ++ [take (Z.to_nat n) bytes]))).

Definition sys_exec : K Z :=
  let* uargv := argaddr 1 in
  let* a := argstr 0 MAXPATH in
  if fst a <? 0 then ret (-1) else
  let* r := fetch_argv uargv in
  let '(ok, pages, argv) := r in
  if (ok : bool) then
    let* v := kexec fuel (snd a) argv in
    for_all pages kfree ;;;
    ret v
  else
    for_all pages kfree ;;;
    ret (-1).

Definition sys_pipe : K Z :=
  let* p := this_proc in
  let* fdarray := argaddr 0 in
  let* r := pipealloc fuel in
  match r with
  | None => ret (-1)
  | Some (rf, wf) =>
      let* fd0 := fdalloc rf in
      let* fd1 := match fd0 with None => ret None | Some _ => fdalloc wf end in
      match fd0, fd1 with
      | Some fd0, Some fd1 =>
          let* pr := get_proc p in
          let* e := copyout (p_pagetable pr) fdarray (enc 4 (Z.of_nat fd0)) in
          let* e := (if e <? 0 then ret e
                     else copyout (p_pagetable pr) (wrap64 (fdarray + 4)) (enc 4 (Z.of_nat fd1))) in
          if e <? 0 then
            mod_proc p (set_fd fd0 None) ;;;
            mod_proc p (set_fd fd1 None) ;;;
            fileclose fuel rf ;;;
            fileclose fuel wf ;;;
            ret (-1)
          else ret 0
      | _, _ =>
          match fd0 with Some fd0 => mod_proc p (set_fd fd0 None) | None => skip end ;;;
          fileclose fuel rf ;;;
          fileclose fuel wf ;;;
          ret (-1)
      end
  end.
End Fuel.
