(* ===== verification/Syscall.v ===== *)
(** * The system call table: the second half of syscall.c *)
From S2P Require Import Prelude State CString Kalloc Vm Sched Printf Console Bytes Bio Log Fs File Proc SysArg Exec Sysproc Sysfile.

Open Scope Z_scope.

(** ** syscall.h *)
Inductive sysno :=
| SYS_fork | SYS_exit | SYS_wait | SYS_pipe | SYS_read | SYS_kill | SYS_exec | SYS_fstat
| SYS_chdir | SYS_dup | SYS_getpid | SYS_sbrk | SYS_pause | SYS_uptime | SYS_open | SYS_write
| SYS_mknod | SYS_unlink | SYS_link | SYS_mkdir | SYS_close | SYS_waitpid | SYS_shmget
| SYS_shmdt | SYS_mutex_init | SYS_mutex_acquire | SYS_mutex_release | SYS_sem_init
| SYS_sem_wait | SYS_sem_post | SYS_setp | SYS_ismyear | SYS_thread_create | SYS_thread_join
| SYS_thread_exit | SYS_thread_id.
#[global] Instance sysno_eq_dec : EqDecision sysno.
Proof. solve_decision. Defined.

(** In the order of their numbers, from 1. *)
Definition sysnos : list sysno :=
  [SYS_fork; SYS_exit; SYS_wait; SYS_pipe; SYS_read; SYS_kill; SYS_exec; SYS_fstat;
   SYS_chdir; SYS_dup; SYS_getpid; SYS_sbrk; SYS_pause; SYS_uptime; SYS_open; SYS_write;
   SYS_mknod; SYS_unlink; SYS_link; SYS_mkdir; SYS_close; SYS_waitpid; SYS_shmget;
   SYS_shmdt; SYS_mutex_init; SYS_mutex_acquire; SYS_mutex_release; SYS_sem_init;
   SYS_sem_wait; SYS_sem_post; SYS_setp; SYS_ismyear; SYS_thread_create; SYS_thread_join;
   SYS_thread_exit; SYS_thread_id].

Section Fuel.
Context (fuel : nat).

Definition handler (n : sysno) : K Z :=
  match n with
  | SYS_fork => sys_fork
  | SYS_exit => sys_exit fuel
  | SYS_wait => sys_wait fuel
  | SYS_waitpid => sys_waitpid fuel
  | SYS_pipe => sys_pipe fuel
  | SYS_read => sys_read fuel
  | SYS_kill => sys_kill
  | SYS_exec => sys_exec fuel
  | SYS_fstat => sys_fstat fuel
  | SYS_chdir => sys_chdir fuel
  | SYS_dup => sys_dup
  | SYS_getpid => sys_getpid
  | SYS_sbrk => sys_sbrk
  | SYS_pause => sys_pause fuel
  | SYS_uptime => sys_uptime
  | SYS_open => sys_open fuel
  | SYS_write => sys_write fuel
  | SYS_mknod => sys_mknod fuel
  | SYS_unlink => sys_unlink fuel
  | SYS_link => sys_link fuel
  | SYS_mkdir => sys_mkdir fuel
  | SYS_close => sys_close fuel
  | SYS_shmget => sys_shmget
  | SYS_shmdt => sys_shmdt
  | SYS_mutex_init => sys_mutex_init
  | SYS_mutex_acquire => sys_mutex_acquire fuel
  | SYS_mutex_release => sys_mutex_release
  | SYS_sem_init => sys_sem_init
  | SYS_sem_wait => sys_sem_wait fuel
  | SYS_sem_post => sys_sem_post
  | SYS_setp => sys_setp
  | SYS_ismyear => sys_ismyear
  | SYS_thread_create => sys_thread_create
  | SYS_thread_join => sys_thread_join fuel
  | SYS_thread_exit => sys_thread_exit fuel
  | SYS_thread_id => sys_thread_id
  end.

(** [syscalls[num]], with its bounds. *)
Definition syscalls (num : Z) : option (K Z) :=
  if (0 <? num) && (num <? Z.of_nat (S (length sysnos)))
  then handler <$> (sysnos !! Z.to_nat (num - 1)) else None.

Definition syscall : K unit :=
  let* p := this_proc in
  let* a7 := tf_load p TF_A7 in
  let num := int32 a7 in
  match syscalls num with
  | Some f =>
      let* r := f in
      tf_store p TF_A0 r
  | None =>
      let* pr := get_proc p in
      let* _ := printf ("%d %s: unknown sys call %d" +:+ nl)
                  [AInt (p_pid pr); AStr (Some (cstr (p_name pr))); AInt num] in
      tf_store p TF_A0 (-1)
  end.
End Fuel.
