(* ===== verification/Trap.v ===== *)
(** * Traps: trap.c, [forkret] of proc.c and the boot sequence of main.c

    The control registers of a hart are a record given to the handlers; the
    driver of the disk, whose requests [Bio] completes at once, and the
    interrupt controller are parameters. *)
From S2P Require Import Prelude State CString Kalloc Vm Sched Printf Console Bytes Bio Log Fs File Proc SysArg Exec Syscall.

Open Scope Z_scope.

Record hart := mkHart {
  r_tp : Z;
  r_sstatus : Z;
  r_sepc : Z;
  r_scause : Z;
  r_stval : Z;
  r_stvec : Z;
  r_satp : Z;
  r_time : Z;
  r_stimecmp : Z;
}.

Definition SSTATUS_SPP : Z := Z.shiftl 1 8.
Definition SSTATUS_SPIE : Z := Z.shiftl 1 5.
Definition SSTATUS_SIE : Z := Z.shiftl 1 1.
Definition UART0_IRQ : Z := 10.
Definition VIRTIO0_IRQ : Z := 1.
Definition scause_external : Z := 9223372036854775817.
Definition scause_timer : Z := 9223372036854775813.

Definition w_sstatus (v : Z) (h : hart) : hart :=
  mkHart (r_tp h) v (r_sepc h) (r_scause h) (r_stval h) (r_stvec h) (r_satp h) (r_time h) (r_stimecmp h).
Definition w_sepc (v : Z) (h : hart) : hart :=
  mkHart (r_tp h) (r_sstatus h) v (r_scause h) (r_stval h) (r_stvec h) (r_satp h) (r_time h) (r_stimecmp h).
Definition w_stvec (v : Z) (h : hart) : hart :=
  mkHart (r_tp h) (r_sstatus h) (r_sepc h) (r_scause h) (r_stval h) v (r_satp h) (r_time h) (r_stimecmp h).
Definition w_stimecmp (v : Z) (h : hart) : hart :=
  mkHart (r_tp h) (r_sstatus h) (r_sepc h) (r_scause h) (r_stval h) (r_stvec h) (r_satp h) (r_time h) v.
Definition clear_bits (v m : Z) : Z := Z.land v (wrap64 (Z.lnot m)).
Definition hart_intr_off (h : hart) : hart := w_sstatus (clear_bits (r_sstatus h) SSTATUS_SIE) h.
Definition hart_intr_on (h : hart) : hart := w_sstatus (Z.lor (r_sstatus h) SSTATUS_SIE) h.
Definition hart_intr_get (h : hart) : bool := has (r_sstatus h) SSTATUS_SIE.

Definition TF_KERNEL_SATP : Z := 0.
Definition TF_KERNEL_SP : Z := 8.
Definition TF_KERNEL_TRAP : Z := 16.
Definition TF_KERNEL_HARTID : Z := 32.

Definition clockintr (h : hart) : K hart :=
  (if r_tp h =? 0 then
     acquire LTicks ;;;
     modify (fun s => set_k_ticks (uint32 (k_ticks s + 1)) s) ;;;
     wakeup CTicks ;;;
     release LTicks
   else skip) ;;;
  ret (w_stimecmp (wrap64 (r_time h + 1000000)) h).

Definition prepare_return (h : hart) : K hart :=
  let* p := this_proc in
  let* sym := gets k_sym in
  let* pr := get_proc p in
  let h := hart_intr_off h in
  let h := w_stvec (wrap64 (TRAMPOLINE + (sym_uservec sym - sym_trampoline sym))) h in
  tf_store p TF_KERNEL_SATP (r_satp h) ;;;
  tf_store p TF_KERNEL_SP (p_kstack pr + PGSIZE) ;;;
  tf_store p TF_KERNEL_TRAP (sym_usertrap sym) ;;;
  tf_store p TF_KERNEL_HARTID (r_tp h) ;;;
  let x := clear_bits (r_sstatus h) SSTATUS_SPP in
  let h := w_sstatus (Z.lor x SSTATUS_SPIE) h in
  let* epc := tf_load p TF_EPC in
  ret (w_sepc epc h).

Section Devices.
(** What the disk driver does on its interrupt; [plic_claim], which answers 0 when no
    interrupt waits, and [plic_complete]; whether the uart's transmitter is idle. *)
Context (virtio_disk_intr : K unit) (plic_claim : K Z) (plic_complete : Z -> K unit) (tx_idle : bool).

(** [which_dev], and the hart with the timer set again. *)
Definition devintr (h : hart) : K (Z * hart) :=
  if r_scause h =? scause_external then
    let* irq := plic_claim in
    (if irq =? UART0_IRQ then uartintr tx_idle
     else if irq =? VIRTIO0_IRQ then virtio_disk_intr
     else if negb (irq =? 0) then
       let* _ := printf ("unexpected interrupt irq=%d" +:+ nl) [AInt irq] in skip
     else skip) ;;;
    (if negb (irq =? 0) then plic_complete irq else skip) ;;;
    ret (1, h)
  else if r_scause h =? scause_timer then
    let* h := clockintr h in
    ret (2, h)
  else ret (0, h).

Section Fuel.
Context (fuel : nat).

(** [if(killed(p)) kexit(-1);] *)
Definition exit_if_killed (p : nat) : K unit :=
  let* k := killed p in
  if negb (k =? 0) then kexit fuel (-1) else skip.

(** The cases of [usertrap]: [which_dev], and the hart as they leave it. *)
Definition usertrap_cause (p : nat) (h : hart) : K (Z * hart) :=
  if r_scause h =? 8 then
    exit_if_killed p ;;;
    let* epc := tf_load p TF_EPC in
    tf_store p TF_EPC (epc + 4) ;;;
    let h := hart_intr_on h in
    syscall fuel ;;;
    ret (0, h)
  else
    let* r := devintr h in
    let '(which_dev, h) := r in
    if negb (which_dev =? 0) then ret (which_dev, h) else
    let* pr := get_proc p in
    let* a := (if (r_scause h =? 15) || (r_scause h =? 13)
               then vmfault (p_pagetable pr) (r_stval h) (r_scause h =? 13) else ret 0) in
    if negb (a =? 0) then ret (0, h) else
    let* _ := printf ("usertrap(): unexpected scause 0x%lx pid=%d" +:+ nl) [AInt (r_scause h); AInt (p_pid pr)] in
    let* _ := printf ("            sepc=0x%lx stval=0x%lx" +:+ nl) [AInt (r_sepc h); AInt (r_stval h)] in
    setkilled p ;;;
    ret (0, h).

(** [h] is the hart that takes the trap.  The process may have slept, yielded or been
    interrupted before it returns: [moved] is what the hart it goes on with then holds, for
    what the one it was on held.  [kernelvec] is the address of kernelvec.S. *)
Definition usertrap (kernelvec : Z) (moved : hart -> hart) (h : hart) : K (Z * hart) :=
  if has (r_sstatus h) SSTATUS_SPP then panic "usertrap: not from user mode" else
  let h := w_stvec kernelvec h in
  let* p := this_proc in
  tf_store p TF_EPC (r_sepc h) ;;;
  let* r := usertrap_cause p h in
  let '(which_dev, h) := r in
  exit_if_killed p ;;;
  (if which_dev =? 2 then yield else skip) ;;;
  let* h := prepare_return (moved h) in
  let* pr := get_proc p in
  ret (MAKE_SATP (p_pagetable pr), h).

(** [h'] is the hart after [yield]: its [sepc] and [sstatus] are restored. *)
Definition kerneltrap (h h' : hart) : K hart :=
  let sepc := r_sepc h in
  let sstatus := r_sstatus h in
  if negb (has sstatus SSTATUS_SPP) then panic "kerneltrap: not from supervisor mode" else
  if hart_intr_get h then panic "kerneltrap: interrupts enabled" else
  let* r := devintr h in
  let which_dev := fst r in
  if which_dev =? 0 then
    let* _ := printf ("scause=0x%lx sepc=0x%lx stval=0x%lx" +:+ nl)
                [AInt (r_scause h); AInt (r_sepc h); AInt (r_stval h)] in
    panic "kerneltrap"
  else
  let* cur := gets k_cur in
  (if (which_dev =? 2) && (match cur with Some _ => true | None => false end) then yield else skip) ;;;
  ret (w_sstatus sstatus (w_sepc sepc h')).

Definition init_path : list Z := str "/init".

(** The satp and the hart handed to the trampoline. *)
Definition forkret (h : hart) : K (Z * hart) :=
  let* p := this_proc in
  release (LProc p) ;;;
  let* first := gets k_first in
  (if negb (first =? 0) then
     fsinit fuel ROOTDEV ;;;
     modify (set_k_first 0) ;;;
     let* r := kexec fuel init_path [init_path] in
     tf_store p TF_A0 r ;;;
     let* a0 := tf_load p TF_A0 in
     if a0 =? wrap64 (-1) then panic "exec" else skip
   else skip) ;;;
  let* h := prepare_return h in
  let* pr := get_proc p in
  ret (MAKE_SATP (p_pagetable pr), h).

(** The first hart's part of [main], up to the scheduler; the device
    initialisations are not part of the state. *)
Definition boot (virtio_disk_init : K unit) : K unit :=
  let* _ := printf nl [] in
  let* _ := printf ("xv6 kernel is booting" +:+ nl) [] in
  let* _ := printf nl [] in
  kinit ;;;
  kvminit ;;;
  procinit ;;;
  binit ;;;
  iinit ;;;
  virtio_disk_init ;;;
  userinit fuel.
End Fuel.
End Devices.
