(* ===== verification/Riscv.v ===== *)
(** * The RISC-V hart

    The part of the instruction set the kernel is written for: the registers, the
    control registers that start.c, trap.c and the assembly files use, translation
    of addresses through the page table of satp, traps and returns from them, and
    the instructions of the assembly files.  riscv.h wraps single instructions
    that read and write control registers; they are functions here.

    Physical memory is the byte map of [State].  The accessed and dirty bits of
    page-table entries, interrupts between two instructions and the caches are not
    part of the model. *)
From S2P Require Import Prelude State.

Open Scope Z_scope.

(** ** Registers *)
Module Reg.
Inductive reg :=
  | zero | ra | sp | gp | tp | t0 | t1 | t2 | s0 | s1 | a0 | a1 | a2 | a3 | a4 | a5 | a6 | a7
  | s2 | s3 | s4 | s5 | s6 | s7 | s8 | s9 | s10 | s11 | t3 | t4 | t5 | t6.
#[global] Instance reg_eq_dec : EqDecision reg.
Proof. solve_decision. Defined.
End Reg.
Notation reg := Reg.reg.

Inductive mode := User | Supervisor | Machine.
#[global] Instance mode_eq_dec : EqDecision mode.
Proof. solve_decision. Defined.

Inductive csr :=
  | Mhartid | Mstatus | Mepc | Medeleg | Mideleg | Mie | Mip | Menvcfg | Mcounteren | Pmpcfg0 | Pmpaddr0
  | Sstatus | Sie | Sip | Sepc | Stvec | Scause | Stval | Satp | Sscratch | Stimecmp | Time.
#[global] Instance csr_eq_dec : EqDecision csr.
Proof. solve_decision. Defined.

Record machine := mkMachine {
  x_of : reg -> Z;
  pc_of : Z;
  mode_of : mode;
  csrs : csr -> Z;
  mem_of : gmap Z Z;
}.

Definition set_x (r : reg) (v : Z) (h : machine) : machine :=
  mkMachine (fun q => if decide (q = r) then (if decide (r = Reg.zero) then 0 else wrap64 v) else x_of h q) (pc_of h) (mode_of h) (csrs h) (mem_of h).
Definition set_pc (v : Z) (h : machine) : machine := mkMachine (x_of h) (wrap64 v) (mode_of h) (csrs h) (mem_of h).
Definition set_mode (v : mode) (h : machine) : machine := mkMachine (x_of h) (pc_of h) v (csrs h) (mem_of h).
Definition set_csr (c : csr) (v : Z) (h : machine) : machine :=
  mkMachine (x_of h) (pc_of h) (mode_of h) (fun d => if decide (d = c) then wrap64 v else csrs h d) (mem_of h).
Definition set_mem (m : gmap Z Z) (h : machine) : machine := mkMachine (x_of h) (pc_of h) (mode_of h) (csrs h) m.

(** ** Fields of the control registers *)
Definition MSTATUS_MPP_MASK : Z := Z.shiftl 3 11.
Definition MSTATUS_MPP_M : Z := Z.shiftl 3 11.
Definition MSTATUS_MPP_S : Z := Z.shiftl 1 11.
Definition MSTATUS_MPP_U : Z := Z.shiftl 0 11.
Definition SSTATUS_UPIE : Z := Z.shiftl 1 4.
Definition SSTATUS_UIE : Z := Z.shiftl 1 0.
Definition SIE_SEIE : Z := Z.shiftl 1 9.
Definition SIE_STIE : Z := Z.shiftl 1 5.
Definition MIE_STIE : Z := Z.shiftl 1 5.
Definition SATP_SV39 : Z := Z.shiftl 8 60.

(** Bit numbers of mstatus. *)
Definition bit_sie : Z := 1.
Definition bit_mie : Z := 3.
Definition bit_spie : Z := 5.
Definition bit_mpie : Z := 7.
Definition bit_spp : Z := 8.
Definition bit_mprv : Z := 17.
Definition put_bit (v i : Z) (b : bool) : Z := if b then Z.setbit v i else Z.clearbit v i.

(** The bits of mstatus that sstatus shows: SD, UXL, MXR, SUM, XS, FS, VS, SPP, UBE,
    SPIE and SIE. *)
Definition sstatus_bits : Z := 0x80000003000de762.

(** What an implementation may choose: the bits of each register that can be
    written.  The others read as zero. *)
Class hardware := { writable : csr -> Z }.

(** The part of [old] outside the mask and of [v] inside it. *)
Definition merge (mask old v : Z) : Z := Z.lor (Z.land old (wrap64 (Z.lnot mask))) (Z.land v mask).

Section Hart.
Context {hw : hardware}.

Definition csr_read (c : csr) (h : machine) : Z :=
  match c with
  | Sstatus => Z.land (csrs h Mstatus) sstatus_bits
  | Sie => Z.land (csrs h Mie) (csrs h Mideleg)
  | Sip => Z.land (csrs h Mip) (csrs h Mideleg)
  | _ => csrs h c
  end.

Definition csr_write (c : csr) (v : Z) (h : machine) : machine :=
  match c with
  | Sstatus => set_csr Mstatus (Z.land (merge sstatus_bits (csrs h Mstatus) v) (writable Mstatus)) h
  | Sie => set_csr Mie (Z.land (merge (csrs h Mideleg) (csrs h Mie) v) (writable Mie)) h
  | Sip => set_csr Mip (Z.land (merge (csrs h Mideleg) (csrs h Mip) v) (writable Mip)) h
  | _ => set_csr c (Z.land v (writable c)) h
  end.

(** Whether a register may be used: by its number from the mode it belongs to up,
    the time and its comparison from supervisor mode when mcounteren and menvcfg
    allow it. *)
Definition csr_ok (c : csr) (h : machine) : bool :=
  match mode_of h with
  | Machine => true
  | User => false
  | Supervisor =>
      match c with
      | Mhartid | Mstatus | Mepc | Medeleg | Mideleg | Mie | Mip | Menvcfg | Mcounteren | Pmpcfg0 | Pmpaddr0 => false
      | Time => Z.testbit (csrs h Mcounteren) 1
      | Stimecmp => Z.testbit (csrs h Mcounteren) 1 && Z.testbit (csrs h Menvcfg) 63
      | _ => true
      end
  end.

(** ** The accessors of riscv.h *)
Definition r_mhartid (h : machine) : Z := csr_read Mhartid h.
Definition r_mstatus (h : machine) : Z := csr_read Mstatus h.
Definition w_mstatus (x : Z) (h : machine) : machine := csr_write Mstatus x h.
Definition w_mepc (x : Z) (h : machine) : machine := csr_write Mepc x h.
Definition r_sstatus (h : machine) : Z := csr_read Sstatus h.
Definition w_sstatus (x : Z) (h : machine) : machine := csr_write Sstatus x h.
Definition r_sip (h : machine) : Z := csr_read Sip h.
Definition w_sip (x : Z) (h : machine) : machine := csr_write Sip x h.
Definition r_sie (h : machine) : Z := csr_read Sie h.
Definition w_sie (x : Z) (h : machine) : machine := csr_write Sie x h.
Definition r_mie (h : machine) : Z := csr_read Mie h.
Definition w_mie (x : Z) (h : machine) : machine := csr_write Mie x h.
Definition w_sepc (x : Z) (h : machine) : machine := csr_write Sepc x h.
Definition r_sepc (h : machine) : Z := csr_read Sepc h.
Definition r_medeleg (h : machine) : Z := csr_read Medeleg h.
Definition w_medeleg (x : Z) (h : machine) : machine := csr_write Medeleg x h.
Definition r_mideleg (h : machine) : Z := csr_read Mideleg h.
Definition w_mideleg (x : Z) (h : machine) : machine := csr_write Mideleg x h.
Definition w_stvec (x : Z) (h : machine) : machine := csr_write Stvec x h.
Definition r_stvec (h : machine) : Z := csr_read Stvec h.
Definition r_stimecmp (h : machine) : Z := csr_read Stimecmp h.
Definition w_stimecmp (x : Z) (h : machine) : machine := csr_write Stimecmp x h.
Definition r_menvcfg (h : machine) : Z := csr_read Menvcfg h.
Definition w_menvcfg (x : Z) (h : machine) : machine := csr_write Menvcfg x h.
Definition w_pmpcfg0 (x : Z) (h : machine) : machine := csr_write Pmpcfg0 x h.
Definition w_pmpaddr0 (x : Z) (h : machine) : machine := csr_write Pmpaddr0 x h.
Definition w_satp (x : Z) (h : machine) : machine := csr_write Satp x h.
Definition r_satp (h : machine) : Z := csr_read Satp h.
Definition r_scause (h : machine) : Z := csr_read Scause h.
Definition r_stval (h : machine) : Z := csr_read Stval h.
Definition w_mcounteren (x : Z) (h : machine) : machine := csr_write Mcounteren x h.
Definition r_mcounteren (h : machine) : Z := csr_read Mcounteren h.
Definition r_time (h : machine) : Z := csr_read Time h.
Definition r_sp (h : machine) : Z := x_of h Reg.sp.
Definition r_tp (h : machine) : Z := x_of h Reg.tp.
Definition w_tp (x : Z) (h : machine) : machine := set_x Reg.tp x h.
Definition r_ra (h : machine) : Z := x_of h Reg.ra.

(** ** Memory accesses *)
Inductive access := Read | Write | Fetch.

(** The walk of the Sv39 hardware: the leaf entry of [va] and its physical address. *)
Fixpoint sv39 (m : gmap Z Z) (levels : list Z) (pt va : Z) : option (Z * Z) :=
  match levels with
  | [] => None
  | level :: levels' =>
      let pte := load64 m (pt + 8 * PX level va) in
      if negb (has pte PTE_V) || (negb (has pte PTE_R) && has pte PTE_W) || (2 ^ 54 <=? pte) then None
      else if has pte PTE_R || has pte PTE_X then
        let size := 2 ^ PXSHIFT level in
        if PTE2PA pte mod size =? 0 then Some (pte, PTE2PA pte + va mod size) else None
      else sv39 m levels' (PTE2PA pte) va
  end.

Definition canonical (va : Z) : bool := (0 <=? va) && (va <? 2 ^ 38) || (2 ^ 64 - 2 ^ 38 <=? va) && (va <? 2 ^ 64).

(** Whether a leaf entry lets the mode do the access (mstatus.MXR is bit 19, SUM bit 18). *)
Definition permits (h : machine) (acc : access) (pte : Z) : bool :=
  match acc with
  | Read => has pte PTE_R || (Z.testbit (csrs h Mstatus) 19 && has pte PTE_X)
  | Write => has pte PTE_W
  | Fetch => has pte PTE_X
  end
  && match mode_of h with
     | User => has pte PTE_U
     | _ => negb (has pte PTE_U) || match acc with Fetch => false | _ => Z.testbit (csrs h Mstatus) 18 end
     end.

Definition satp_root (satp : Z) : Z := (satp mod 2 ^ 44) * PGSIZE.

Definition translate (h : machine) (acc : access) (va : Z) : option Z :=
  match mode_of h with
  | Machine => Some va
  | _ =>
      let satp := csrs h Satp in
      if satp / 2 ^ 60 =? 0 then Some va else
      if negb (satp / 2 ^ 60 =? 8) || negb (canonical va) then None else
      match sv39 (mem_of h) [2; 1; 0] (satp_root satp) va with
      | Some (pte, pa) => if permits h acc pte then Some pa else None
      | None => None
      end
  end.

(** Physical memory protection, entry 0 in the mode that bounds it from above. *)
Definition pmp_permits (h : machine) (acc : access) (pa : Z) : bool :=
  match mode_of h with
  | Machine => true
  | _ =>
      let cfg := csrs h Pmpcfg0 mod 256 in
      (Z.land (Z.shiftr cfg 3) 3 =? 1) && (0 <=? pa) && (pa + 8 <=? 4 * csrs h Pmpaddr0)
      && Z.testbit cfg (match acc with Read => 0 | Write => 1 | Fetch => 2 end)
  end.

(** The physical address of an access, when it is allowed. *)
Definition reach (h : machine) (acc : access) (va : Z) : option Z :=
  match translate h acc va with
  | Some pa => if pmp_permits h acc pa then Some pa else None
  | None => None
  end.

(** ** Traps *)

(** A trap taken in supervisor mode; [None] when it is not delegated to it. *)
Definition trap_to_s (interrupt : bool) (code tval : Z) (h : machine) : option machine :=
  let deleg := csrs h (if interrupt then Mideleg else Medeleg) in
  if negb (Z.testbit deleg code) || bool_decide (mode_of h = Machine) then None else
  let st := csrs h Mstatus in
  let st := put_bit st bit_spie (Z.testbit st bit_sie) in
  let st := put_bit st bit_sie false in
  let st := put_bit st bit_spp (bool_decide (mode_of h = Supervisor)) in
  Some (set_pc (csrs h Stvec / 4 * 4) (set_mode Supervisor
    (set_csr Mstatus st (set_csr Sepc (pc_of h) (set_csr Scause (code + if interrupt then 2 ^ 63 else 0) (set_csr Stval tval h)))))).

(** ** Instructions *)
Inductive instr :=
  | Sd (rs : reg) (off : Z) (base : reg)
  | Ld (rd : reg) (off : Z) (base : reg)
  | Addi (rd rs : reg) (imm : Z)
  | Add (rd r1 r2 : reg)
  | Mul (rd r1 r2 : reg)
  | Li (rd : reg) (v : Z)
  | La (rd : reg) (addr : Z)
  | Csrr (rd : reg) (c : csr)
  | Csrw (c : csr) (rs : reg)
  | Sfence_vma
  | Jalr (rs : reg)
  | Ret_
  | Call (addr : Z)
  | J (addr : Z)
  | Sret
  | Mret.

Definition sret (h : machine) : option machine :=
  if bool_decide (mode_of h = User) then None else
  let st := csrs h Mstatus in
  let m := if Z.testbit st bit_spp then Supervisor else User in
  let st := put_bit st bit_sie (Z.testbit st bit_spie) in
  let st := put_bit st bit_spie true in
  let st := put_bit st bit_spp false in
  Some (set_pc (csrs h Sepc) (set_mode m (set_csr Mstatus st h))).

Definition mret (h : machine) : option machine :=
  if negb (bool_decide (mode_of h = Machine)) then None else
  let st := csrs h Mstatus in
  let mpp := Z.land (Z.shiftr st 11) 3 in
  let m := if mpp =? 3 then Machine else if mpp =? 1 then Supervisor else User in
  let st := put_bit st bit_mie (Z.testbit st bit_mpie) in
  let st := put_bit st bit_mpie true in
  let st := merge MSTATUS_MPP_MASK st MSTATUS_MPP_U in
  Some (set_pc (csrs h Mepc) (set_mode m (set_csr Mstatus st h))).

(** The instruction of [n] bytes at the program counter; [None] when it traps. *)
Definition exec (i : instr) (n : Z) (h : machine) : option machine :=
  let next := pc_of h + n in
  match i with
  | Sd rs off base =>
      let va := wrap64 (x_of h base + off) in
      if negb (va mod 8 =? 0) then None else
      pa ← reach h Write va;
      Some (set_pc next (set_mem (store64 (mem_of h) pa (x_of h rs)) h))
  | Ld rd off base =>
      let va := wrap64 (x_of h base + off) in
      if negb (va mod 8 =? 0) then None else
      pa ← reach h Read va;
      Some (set_pc next (set_x rd (load64 (mem_of h) pa) h))
  | Addi rd rs imm => Some (set_pc next (set_x rd (x_of h rs + imm) h))
  | Add rd r1 r2 => Some (set_pc next (set_x rd (x_of h r1 + x_of h r2) h))
  | Mul rd r1 r2 => Some (set_pc next (set_x rd (x_of h r1 * x_of h r2) h))
  | Li rd v => Some (set_pc next (set_x rd v h))
  | La rd a => Some (set_pc next (set_x rd a h))
  | Csrr rd c => if csr_ok c h then Some (set_pc next (set_x rd (csr_read c h) h)) else None
  | Csrw c rs => if csr_ok c h then Some (set_pc next (csr_write c (x_of h rs) h)) else None
  | Sfence_vma => if bool_decide (mode_of h = User) then None else Some (set_pc next h)
  | Jalr rs => Some (set_pc (Z.clearbit (x_of h rs) 0) (set_x Reg.ra next h))
  | Ret_ => Some (set_pc (Z.clearbit (x_of h Reg.ra) 0) h)
  | Call a => Some (set_pc a (set_x Reg.ra next h))
  | J a => Some (set_pc a h)
  | Sret => sret h
  | Mret => mret h
  end.

(** ** Running code *)
Section Text.
(** The instruction at a physical address, and its size. *)
Context (text : Z -> option (instr * Z)).

Definition step (h : machine) : option machine :=
  pa ← reach h Fetch (pc_of h);
  c ← text pa;
  exec (fst c) (snd c) h.

Fixpoint steps (n : nat) (h : machine) : option machine :=
  match n with
  | O => Some h
  | S n' => step h ≫= steps n'
  end.

(** [code], instructions with their sizes, lies at the physical address [pa]. *)
Fixpoint placed (pa : Z) (code : list (instr * Z)) : Prop :=
  match code with
  | [] => True
  | c :: code' => text pa = Some c /\ placed (pa + snd c) code'
  end.
End Text.
End Hart.
