(* ===== verification/RiscvSpec.v ===== *)
(** * Running code on a hart: words, views of memory, straight-line code *)
From S2P Require Import Prelude State Riscv.

Open Scope Z_scope.

(** ** Words *)
Definition is_u64 (v : Z) : Prop := 0 <= v < 2 ^ 64.

(** The registers of the hart hold 64-bit words, and x0 is zero. *)
Record hart_ok (h : machine) : Prop := {
  ho_zero : x_of h Reg.zero = 0;
  ho_x : forall r, is_u64 (x_of h r);
  ho_pc : is_u64 (pc_of h);
  ho_csr : forall c, is_u64 (csrs h c) }.

Lemma wrap64_word v : is_u64 (wrap64 v).
Proof. apply wrap64_range. Qed.
Lemma wrap64_of_word v : is_u64 v -> wrap64 v = v.
Proof. intros H. by apply wrap64_small. Qed.

Lemma x_set_eq r v h : r <> Reg.zero -> x_of (set_x r v h) r = wrap64 v.
Proof. intros H. cbn. by rewrite decide_True, decide_False. Qed.
Lemma x_set_ne r q v h : q <> r -> x_of (set_x r v h) q = x_of h q.
Proof. intros H. cbn. by rewrite decide_False. Qed.

Lemma clearbit0 v : Z.clearbit v 0 = 2 * (v / 2).
Proof.
  apply Z.bits_inj'. intros n Hn. destruct (decide (n = 0)) as [->|H]; [by rewrite Z.clearbit_eq, Z.testbit_even_0|].
  rewrite Z.clearbit_neq by lia. replace n with (Z.succ (n - 1)) by lia. rewrite Z.testbit_even_succ by lia. symmetry. apply Z.div2_bits. lia.
Qed.
Lemma clearbit0_word v : is_u64 v -> is_u64 (Z.clearbit v 0).
Proof. unfold is_u64. rewrite clearbit0. intros H. dlia. Qed.
Lemma clearbit0_even v : v mod 2 = 0 -> Z.clearbit v 0 = v.
Proof. rewrite clearbit0. intros H. dlia. Qed.

Lemma wrap64_bit v i : 0 <= i < 64 -> Z.testbit (wrap64 v) i = Z.testbit v i.
Proof. intros H. unfold wrap64. apply Z.mod_pow2_bits_low. lia. Qed.
Lemma put_bit_bit v i b j : 0 <= i -> 0 <= j -> Z.testbit (put_bit v i b) j = if decide (i = j) then b else Z.testbit v j.
Proof.
  intros Hi Hj. unfold put_bit. destruct b, (decide (i = j)) as [->|H].
  - by apply Z.setbit_eq.
  - by apply Z.setbit_neq.
  - by rewrite Z.clearbit_eq.
  - by apply Z.clearbit_neq.
Qed.

Section Typed.
Context {hw : hardware}.

Lemma set_x_ok r v h : hart_ok h -> hart_ok (set_x r v h).
Proof.
  intros [H1 H2 H3 H4]. constructor; try done.
  - cbn. case_decide as E; [|done]. rewrite <- E. by rewrite decide_True.
  - intros q. cbn. repeat case_decide; [done|apply wrap64_word|done].
Qed.
Lemma set_pc_ok v h : hart_ok h -> hart_ok (set_pc v h).
Proof. intros [H1 H2 H3 H4]. constructor; try done. apply wrap64_word. Qed.
Lemma set_csr_ok c v h : hart_ok h -> hart_ok (set_csr c v h).
Proof. intros [H1 H2 H3 H4]. constructor; try done. intros d. cbn. case_decide; [apply wrap64_word|done]. Qed.
Lemma set_mode_ok v h : hart_ok h -> hart_ok (set_mode v h).
Proof. by intros []. Qed.
Lemma set_mem_ok m h : hart_ok h -> hart_ok (set_mem m h).
Proof. by intros []. Qed.
Hint Resolve set_x_ok set_pc_ok set_csr_ok set_mode_ok set_mem_ok : core.

Lemma csr_write_ok c v h : hart_ok h -> hart_ok (csr_write c v h).
Proof. intros H. destruct c; cbn [csr_write]; auto. Qed.
Hint Resolve csr_write_ok : core.

Lemma exec_ok i n h h' : hart_ok h -> exec i n h = Some h' -> hart_ok h'.
Proof.
  intros H. destruct i; cbn [exec]; unfold sret, mret; intros E; repeat case_match; try done; simplify_option_eq; auto 8.
Qed.

Lemma trap_ok interrupt code tval h h' : hart_ok h -> trap_to_s interrupt code tval h = Some h' -> hart_ok h'.
Proof. intros H. unfold trap_to_s. case_match; [done|]. intros [= <-]. auto 10. Qed.

Lemma steps_ok text n h h' : hart_ok h -> steps text n h = Some h' -> hart_ok h'.
Proof.
  revert h. induction n as [|n IH]; intros h H; cbn [steps]; [by intros [= <-]|]. unfold step. intros E. apply bind_Some in E as (h1 & E1 & E2).
  apply bind_Some in E1 as (pa & _ & E1). apply bind_Some in E1 as ([i m] & _ & E1). cbn in E1. eauto using exec_ok.
Qed.
End Typed.

(** ** Views of memory *)

(** The bytes outside [lo, hi) are the same. *)
Definition outside (lo hi : Z) (m m' : gmap Z Z) : Prop := forall b, ~ (lo <= b < hi) -> load8 m' b = load8 m b.

Lemma outside_refl lo hi m : outside lo hi m m.
Proof. by intros b. Qed.
Lemma outside_trans lo hi m1 m2 m3 : outside lo hi m1 m2 -> outside lo hi m2 m3 -> outside lo hi m1 m3.
Proof. intros H1 H2 b Hb. by rewrite H2, H1. Qed.
Lemma outside_store lo hi m a v : lo <= a -> a + 8 <= hi -> outside lo hi m (store64 m a v).
Proof. intros H1 H2 b Hb. apply load8_store64_ne. lia. Qed.
Lemma outside_mono lo hi lo' hi' m m' : lo' <= lo -> hi <= hi' -> outside lo hi m m' -> outside lo' hi' m m'.
Proof. intros H1 H2 O b Hb. apply O. lia. Qed.
Lemma outside_load64 lo hi m m' a : outside lo hi m m' -> a + 8 <= lo \/ hi <= a -> load64 m' a = load64 m a.
Proof. intros H Ha. apply load64_agree. intros b Hb. apply H. lia. Qed.

(** The virtual addresses from [va] on reach the physical ones from [pa] on, and
    go on to do so while the memory changes between [lo] and [hi] only. *)
Definition view (h : machine) (acc : access) (va pa len lo hi : Z) : Prop :=
  forall m', outside lo hi (mem_of h) m' -> forall k, 0 <= k < len -> reach (set_mem m' h) acc (va + k) = Some (pa + k).

Lemma reach_ext h h' acc va : mode_of h' = mode_of h -> csrs h' = csrs h -> mem_of h' = mem_of h -> reach h' acc va = reach h acc va.
Proof. destruct h, h'. cbn. intros -> -> ->. reflexivity. Qed.

(** The control registers and the mode the view depends on. *)
Definition same_map (h h' : machine) : Prop := mode_of h' = mode_of h /\ csrs h' = csrs h.

Lemma view_same h h' acc va pa len lo hi : same_map h h' -> outside lo hi (mem_of h) (mem_of h') -> view h acc va pa len lo hi -> view h' acc va pa len lo hi.
Proof.
  intros [E1 E2] O V m' O' k Hk. rewrite (reach_ext (set_mem m' h)); [|done..]. apply V; [by eapply outside_trans|done].
Qed.

Lemma view_reach h acc va pa len lo hi k : view h acc va pa len lo hi -> 0 <= k < len -> reach h acc (va + k) = Some (pa + k).
Proof. intros V Hk. rewrite <- (V (mem_of h)); [|apply outside_refl|done]. apply reach_ext; by destruct h. Qed.

(** ** Saving and restoring registers *)
Definition slots := list (reg * Z).
Definition slots_ok (len : Z) (l : slots) : Prop := Forall (fun p => 0 <= snd p /\ snd p + 8 <= len /\ snd p mod 8 = 0) l.

Definition save_all (m : gmap Z Z) (base : Z) (x : reg -> Z) (l : slots) : gmap Z Z :=
  foldl (fun m p => store64 m (base + snd p) (x (fst p))) m l.
Definition load_all (m : gmap Z Z) (base : Z) (x : reg -> Z) (l : slots) : reg -> Z :=
  foldl (fun x p q => if decide (q = fst p) then load64 m (base + snd p) else x q) x l.

Lemma save_all_within lo hi m base x l : Forall (fun p => lo <= base + snd p /\ base + snd p + 8 <= hi) l -> outside lo hi m (save_all m base x l).
Proof.
  intros H. revert m. induction H as [|[r o] l Ho _ IH]; intros m; [apply outside_refl|]. cbn [save_all foldl fst snd] in *.
  eapply outside_trans; [apply (outside_store _ _ _ (base + o) (x r)); lia|apply IH].
Qed.

Lemma save_all_outside m base x l len : slots_ok len l -> outside base (base + len) m (save_all m base x l).
Proof. intros H. apply save_all_within. eapply Forall_impl; [exact H|]. cbn. lia. Qed.

Lemma save_all_ne m base x l a : Forall (fun p => base + snd p + 8 <= a \/ a + 8 <= base + snd p) l -> load64 (save_all m base x l) a = load64 m a.
Proof.
  intros H. revert m. induction H as [|[r o] l Ho _ IH]; intros m; [done|]. cbn [save_all foldl fst snd] in *. fold (save_all (store64 m (base + o) (x r)) base x l). rewrite IH.
  apply load64_store64_ne. lia.
Qed.

Lemma save_all_eq m base x l len r o : slots_ok len l -> NoDup (map snd l) -> (r, o) ∈ l -> is_u64 (x r) -> load64 (save_all m base x l) (base + o) = x r.
Proof.
  intros H. revert m. induction H as [|[q u] l Hu Hl IH]; intros m Hn Hin Hw; [by apply not_elem_of_nil in Hin|]. cbn [map fst snd] in *. inversion Hn as [|? ? Hnu Hn']; subst.
  cbn [save_all foldl fst snd]. fold (save_all (store64 m (base + u) (x q)) base x l). apply elem_of_cons in Hin as [[= -> ->]|Hin]; [|by apply IH].
  rewrite save_all_ne; [by apply load64_store64_eq|]. apply Forall_forall. intros [p v] Hp. cbn. assert (v <> u) by (intros ->; apply Hnu; apply list_elem_of_fmap; by exists (p, u)).
  pose proof (proj1 (Forall_forall _ _) Hl (p, v) Hp) as Hv. cbn in Hv. destruct (proj1 (Z.mod_divide u 8 ltac:(lia)) ltac:(lia)) as [i ->], (proj1 (Z.mod_divide v 8 ltac:(lia)) ltac:(lia)) as [j ->]. lia.
Qed.

Lemma load_all_ext m base x y l q : (forall r, x r = y r) -> load_all m base x l q = load_all m base y l q.
Proof. revert x y. induction l as [|[r u] l IH]; intros x y H; [apply H|]. cbn [load_all foldl fst snd]. apply IH. intros p. by rewrite H. Qed.

Lemma load_all_ne m base x l r : r ∉ map fst l -> load_all m base x l r = x r.
Proof.
  revert x. induction l as [|[q u] l IH]; intros x H; [done|]. cbn [map fst] in H. apply not_elem_of_cons in H as [H1 H2]. cbn [load_all foldl fst snd]. unfold load_all in IH. rewrite IH by done. by rewrite decide_False.
Qed.

Lemma load_all_eq m base x l r o : NoDup (map fst l) -> (r, o) ∈ l -> load_all m base x l r = load64 m (base + o).
Proof.
  revert x. induction l as [|[q u] l IH]; intros x Hn Hin; [by apply not_elem_of_nil in Hin|]. cbn [map fst] in Hn. inversion Hn as [|? ? Hq Hn']; subst.
  cbn [load_all foldl fst snd]. apply elem_of_cons in Hin as [[= -> ->]|Hin]; [|by apply IH].
  change (foldl _ ?y l) with (load_all m base y l). rewrite load_all_ne by done. by rewrite decide_True.
Qed.

(** ** Straight-line code *)
Section Code.
Context {hw : hardware} (text : Z -> option (instr * Z)).

Lemma steps_add n k h h1 h2 : steps text n h = Some h1 -> steps text k h1 = Some h2 -> steps text (n + k) h = Some h2.
Proof.
  revert h. induction n as [|n IH]; intros h; cbn [steps Nat.add]; [by intros [= ->]|]. intros E E2. apply bind_Some in E as (h' & E & E1). rewrite E. cbn. by apply IH.
Qed.

Definition code_size (code : list (instr * Z)) : Z := foldr (fun c s => snd c + s) 0 code.
Definition sizes_ok (code : list (instr * Z)) : Prop := Forall (fun c => 0 < snd c) code.

Lemma code_size_app c d : code_size (c ++ d) = code_size c + code_size d.
Proof. induction c as [|x c IH]; [done|]. cbn [app code_size foldr]. fold (code_size (c ++ d)) (code_size c). lia. Qed.
Lemma code_size_nonneg c : sizes_ok c -> 0 <= code_size c.
Proof. induction 1 as [|x c Hx _ IH]; [done|]. cbn [code_size foldr]. fold (code_size c). lia. Qed.

Lemma placed_app pa c d : placed text pa (c ++ d) <-> placed text pa c /\ placed text (pa + code_size c) d.
Proof.
  revert pa. induction c as [|x c IH]; intros pa; cbn [app placed code_size foldr]; [rewrite Z.add_0_r; tauto|].
  rewrite IH. fold (code_size c). replace (pa + snd x + code_size c) with (pa + (snd x + code_size c)) by lia. tauto.
Qed.

(** The hart is at the start of [code], the end of the [len] bytes from [pa] on that are
    seen from [va] on, and whose view outlives changes between [lo] and [hi]. *)
Record at_code (va pa len lo hi : Z) (code : list (instr * Z)) (h : machine) : Prop := {
  ac_range : 0 <= va /\ va + len < 2 ^ 64;
  ac_view : view h Fetch va pa len lo hi;
  ac_sizes : sizes_ok code;
  ac_off : exists o, 0 <= o /\ o + code_size code = len /\ pc_of h = va + o /\ placed text (pa + o) code }.

Lemma at_pc va pa len lo hi code h : at_code va pa len lo hi code h -> pc_of h = va + len - code_size code.
Proof. intros [_ _ _ (o & _ & Ho & Hpc & _)]. lia. Qed.

Lemma code_step va pa len lo hi i n code h h1 : at_code va pa len lo hi ((i, n) :: code) h -> exec i n h = Some h1 -> steps text 1 h = Some h1.
Proof.
  intros [R V S (o & Ho & Hs & Hpc & Hp & _)] E. inversion_clear S as [|? ? Hn S']. cbn [snd] in Hn. pose proof (code_size_nonneg _ S') as Hc. cbn in Hs. fold (code_size code) in Hs.
  cbn [steps]. unfold step. rewrite Hpc. rewrite (view_reach _ _ _ _ _ _ _ o V) by lia. cbn. rewrite Hp. cbn. by rewrite E.
Qed.

(** The code after an instruction, in another state of the hart. *)
Lemma code_resume va pa len lo hi lo' hi' i n code h h1 : at_code va pa len lo hi ((i, n) :: code) h -> view h1 Fetch va pa len lo' hi' -> pc_of h1 = wrap64 (pc_of h + n) ->
  at_code va pa len lo' hi' code h1.
Proof.
  intros [R V S (o & Ho & Hs & Hpc & _ & Hp)] V1 Epc. inversion_clear S as [|? ? Hn S']. cbn [snd] in *. pose proof (code_size_nonneg _ S') as Hc. cbn in Hs. fold (code_size code) in Hs.
  constructor; [done|done|done|]. exists (o + n). split_and!; [lia..| |by rewrite Z.add_assoc]. rewrite Epc, Hpc. rewrite wrap64_small; lia.
Qed.

Lemma code_next va pa len lo hi i n code h h1 : at_code va pa len lo hi ((i, n) :: code) h -> same_map h h1 -> outside lo hi (mem_of h) (mem_of h1) -> pc_of h1 = wrap64 (pc_of h + n) ->
  at_code va pa len lo hi code h1.
Proof.
  intros A Hm O Epc. eapply code_resume; [done| |done]. destruct A as [_ V _ _]. by eapply view_same.
Qed.

Lemma plain_run va pa len lo hi i n code h h1 : at_code va pa len lo hi ((i, n) :: code) h -> exec i n h = Some h1 -> same_map h h1 -> mem_of h1 = mem_of h -> pc_of h1 = wrap64 (pc_of h + n) ->
  steps text 1 h = Some h1 /\ at_code va pa len lo hi code h1.
Proof. intros A E M Q P. split; [by eapply code_step|]. eapply code_next; [done..| |done]. rewrite Q. apply outside_refl. Qed.

Section Data.
Context (va pa len lo hi dva dpa dlen : Z) (Hdva : 0 <= dva /\ dva + dlen <= 2 ^ 64 /\ dva mod 8 = 0).
Notation at_ := (at_code va pa len lo hi).
Notation sees h acc := (view h acc dva dpa dlen lo hi).

Lemma slot_addr o : 0 <= o -> o + 8 <= dlen -> o mod 8 = 0 -> wrap64 (dva + o) = dva + o /\ (dva + o) mod 8 = 0.
Proof. intros H1 H2 H3. split; [apply wrap64_small; lia|]. rewrite Z.add_mod by lia. destruct Hdva as (_ & _ & ->). by rewrite H3. Qed.

Lemma sd_run r o b n code h : lo <= dpa -> dpa + dlen <= hi -> at_ ((Sd r o b, n) :: code) h -> sees h Write -> x_of h b = dva -> 0 <= o -> o + 8 <= dlen -> o mod 8 = 0 ->
  exists h', steps text 1 h = Some h' /\ at_ code h' /\ same_map h h' /\ x_of h' = x_of h /\ mem_of h' = store64 (mem_of h) (dpa + o) (x_of h r).
Proof.
  intros L1 L2 A V Hb H1 H2 H3. destruct (slot_addr o H1 H2 H3) as [Ew Em]. set (h' := set_pc (pc_of h + n) (set_mem (store64 (mem_of h) (dpa + o) (x_of h r)) h)).
  assert (exec (Sd r o b) n h = Some h') as E. { cbn [exec]. rewrite Hb, Ew, Em. cbn. by rewrite (view_reach _ _ _ _ _ _ _ o V) by lia. }
  exists h'. split; [by eapply code_step|]. split_and!; try done. eapply code_next; [done|done| |done]. apply outside_store; lia.
Qed.

Lemma ld_run r o b n code h : at_ ((Ld r o b, n) :: code) h -> sees h Read -> x_of h b = dva -> 0 <= o -> o + 8 <= dlen -> o mod 8 = 0 -> r <> Reg.zero ->
  exists h', steps text 1 h = Some h' /\ at_ code h' /\ same_map h h' /\ mem_of h' = mem_of h /\ (forall q, x_of h' q = if decide (q = r) then load64 (mem_of h) (dpa + o) else x_of h q).
Proof.
  intros A V Hb H1 H2 H3 Hr. destruct (slot_addr o H1 H2 H3) as [Ew Em]. set (h' := set_pc (pc_of h + n) (set_x r (load64 (mem_of h) (dpa + o)) h)).
  assert (exec (Ld r o b) n h = Some h') as E. { cbn [exec]. rewrite Hb, Ew, Em. cbn. by rewrite (view_reach _ _ _ _ _ _ _ o V) by lia. }
  exists h'. split; [by eapply code_step|]. split_and!; try done.
  - eapply code_next; [done|done|apply outside_refl|done].
  - intros q. cbn. case_decide; [|done]. rewrite decide_False by done. apply wrap64_small, load64_range.
Qed.

Lemma saves_run b l code rest h : lo <= dpa -> dpa + dlen <= hi -> at_ (code ++ rest) h -> map fst code = map (fun p => Sd (fst p) (snd p) b) l -> sees h Write -> x_of h b = dva -> slots_ok dlen l ->
  exists h', steps text (length l) h = Some h' /\ at_ rest h' /\ same_map h h' /\ x_of h' = x_of h /\ mem_of h' = save_all (mem_of h) dpa (x_of h) l.
Proof.
  intros L1 L2 A Hc V Hb Hl. revert code h A Hc V Hb. induction Hl as [|[r o] l (H1 & H2 & H3) Hl IH]; intros code h A Hc V Hb.
  - destruct code; [|done]. by exists h.
  - destruct code as [|[i n] code]; [done|]. cbn in Hc. injection Hc as -> Hc. destruct (sd_run r o b n (code ++ rest) h L1 L2 A V Hb H1 H2 H3) as (h1 & E1 & A1 & M1 & X1 & Q1).
    destruct (IH code h1 A1 Hc) as (h2 & E2 & A2 & M2 & X2 & Q2). { eapply view_same; [done| |done]. rewrite Q1. apply outside_store; cbn in *; lia. } { by rewrite X1. }
    exists h2. split; [by apply (steps_add 1 _ _ _ _ E1 E2)|]. split; [done|]. split; [destruct M1, M2; split; congruence|]. split; [congruence|]. rewrite Q2, Q1, X1. reflexivity.
Qed.

Lemma loads_run b l code rest h : at_ (code ++ rest) h -> map fst code = map (fun p => Ld (fst p) (snd p) b) l -> sees h Read -> x_of h b = dva -> slots_ok dlen l ->
  b ∉ map fst l -> Reg.zero ∉ map fst l ->
  exists h', steps text (length l) h = Some h' /\ at_ rest h' /\ same_map h h' /\ mem_of h' = mem_of h /\ (forall q, x_of h' q = load_all (mem_of h) dpa (x_of h) l q).
Proof.
  intros A Hc V Hb Hl. revert code h A Hc V Hb. induction Hl as [|[r o] l (H1 & H2 & H3) Hl IH]; intros code h A Hc V Hb Nb Nz.
  - destruct code; [|done]. by exists h.
  - destruct code as [|[i n] code]; [done|]. cbn in Hc. injection Hc as -> Hc. cbn [map fst] in Nb, Nz. apply not_elem_of_cons in Nb as [Nb Nb'], Nz as [Nz Nz'].
    destruct (ld_run r o b n (code ++ rest) h A V Hb H1 H2 H3 ltac:(congruence)) as (h1 & E1 & A1 & M1 & Q1 & X1).
    destruct (IH code h1 A1 Hc) as (h2 & E2 & A2 & M2 & Q2 & X2); [|by rewrite X1, decide_False|done|done|]. { eapply view_same; [done| |done]. rewrite Q1. apply outside_refl. }
    exists h2. split; [by apply (steps_add 1 _ _ _ _ E1 E2)|]. split; [done|]. split; [destruct M1, M2; split; congruence|]. split; [congruence|]. intros q. rewrite X2, Q1.
    change (load_all (mem_of h) dpa (x_of h) ((r, o) :: l) q) with (load_all (mem_of h) dpa (fun q => if decide (q = r) then load64 (mem_of h) (dpa + o) else x_of h q) l q). by apply load_all_ext.
Qed.
End Data.
End Code.

(** ** Without paging *)

(** The protection start.c sets up. *)
Definition pmp_open (h : machine) : Prop := csrs h Pmpcfg0 = 15 /\ csrs h Pmpaddr0 = 2 ^ 54 - 1.

Lemma pmp_open_permits h acc pa : pmp_open h -> 0 <= pa -> pa + 8 <= 2 ^ 56 - 4 -> pmp_permits h acc pa = true.
Proof.
  intros [E1 E2] H1 H2. unfold pmp_permits. rewrite E1, E2. destruct (mode_of h), acc; try done; cbn; rewrite (proj2 (Z.leb_le 0 pa)) by lia; rewrite (proj2 (Z.leb_le (pa + 8) _)) by lia; done.
Qed.

Lemma bare_view h acc va len lo hi : csrs h Satp = 0 -> pmp_open h -> 0 <= va -> va + len <= 2 ^ 56 - 12 -> view h acc va va len lo hi.
Proof.
  intros E P H1 H2 m' _ k Hk. assert (translate (set_mem m' h) acc (va + k) = Some (va + k)) as Et by (unfold translate; cbn [set_mem mode_of csrs]; rewrite E; by destruct (mode_of h)).
  unfold reach. rewrite Et. rewrite (pmp_open_permits (set_mem m' h)); [done|done|lia|lia].
Qed.

(** Code of four-byte instructions from [base] on. *)
Definition words_at (base : Z) (l : list instr) (pa : Z) : option (instr * Z) :=
  if (base <=? pa) && ((pa - base) mod 4 =? 0) then (fun i => (i, 4)) <$> l !! Z.to_nat ((pa - base) / 4) else None.
Definition words (l : list instr) : list (instr * Z) := map (fun i => (i, 4)) l.

Lemma words_placed base l k : placed (words_at base l) (base + 4 * Z.of_nat k) (words (drop k l)).
Proof.
  remember (drop k l) as d eqn:E. revert k E. induction d as [|i d IH]; intros k E; [done|]. cbn [words map placed snd]. split.
  - unfold words_at. replace (base + 4 * Z.of_nat k - base) with (Z.of_nat k * 4) by lia. rewrite Z.mod_mul, Z.div_mul, Nat2Z.id by lia. rewrite (proj2 (Z.leb_le _ _)) by lia. cbn.
    rewrite <- (Nat.add_0_r k), <- lookup_drop, <- E. done.
  - replace (base + 4 * Z.of_nat k + 4) with (base + 4 * Z.of_nat (S k)) by lia. apply IH. rewrite <- (Nat.add_1_r k), <- drop_drop, <- E. done.
Qed.

Lemma words_map l : map fst (words l) = l.
Proof. unfold words. rewrite map_map. apply map_id. Qed.

Lemma words_at_code base l lo hi h : 0 <= base -> base + 4 * Z.of_nat (length l) <= 2 ^ 56 - 12 -> pc_of h = base -> csrs h Satp = 0 -> pmp_open h ->
  at_code (words_at base l) base base (4 * Z.of_nat (length l)) lo hi (words l) h.
Proof.
  intros H1 H2 Hpc Hs P. constructor; [lia|by apply bare_view| |].
  - apply Forall_forall. intros c Hc. apply list_elem_of_fmap in Hc as (i & -> & _). done.
  - exists 0. split; [done|]. split; [|split; [lia|]].
    + enough (code_size (words l) = 4 * Z.of_nat (length l)) as -> by lia. clear. induction l as [|i l IH]; [done|]. cbn [words map code_size foldr snd length]. fold (code_size (map (fun i => (i, 4)) l)). unfold words in IH. rewrite IH. lia.
    + pose proof (words_placed base l 0) as H. rewrite drop_0, Z.add_0_r in H. by rewrite Z.add_0_r.
Qed.
