(* ===== verification/Mmu.v ===== *)
(** * The hardware's view of a page table

    The walk of the Sv39 hardware in a table of the kernel: where a virtual page is
    seen, that it stays so while other memory changes, and that walkaddr of vm.c
    finds the page the hardware does. *)
From S2P Require Import Prelude State CString Kalloc Vm PageTable VmSpec Riscv RiscvSpec.

Open Scope Z_scope.

(** ** The value of satp *)
Definition root_ok (root : Z) : Prop := 0 <= root < 2 ^ 56 /\ root mod PGSIZE = 0.

Lemma make_satp root : root_ok root -> MAKE_SATP root = 8 * 2 ^ 60 + root / PGSIZE.
Proof.
  intros [H _]. unfold MAKE_SATP. rewrite Z.shiftl_mul_pow2, Z.shiftr_div_pow2 by lia. change (2 ^ 12) with PGSIZE.
  apply lor_low; [lia|]. unfold PGSIZE. split; [apply Z.div_pos; lia|]. apply Z.div_lt_upper_bound; lia.
Qed.

Lemma make_satp_fields root : root_ok root -> MAKE_SATP root / 2 ^ 60 = 8 /\ satp_root (MAKE_SATP root) = root /\ is_u64 (MAKE_SATP root).
Proof.
  intros H. rewrite (make_satp _ H). destruct H as [H Ha]. unfold PGSIZE in *. assert (0 <= root / 4096 < 2 ^ 44) as Hr by (split; [apply Z.div_pos; lia|apply Z.div_lt_upper_bound; lia]).
  unfold satp_root, is_u64, PGSIZE. split_and!; [|rewrite Z.add_mod, (Z.mod_small (root / 4096)) by lia; dlia|lia..].
  rewrite Z.div_add_l by lia. rewrite Z.div_small by lia. done.
Qed.

(** ** Pages *)
Lemma PX_page level va k : 0 <= level -> va mod PGSIZE = 0 -> 0 <= k < PGSIZE -> PX level (va + k) = PX level va.
Proof.
  intros Hl Ha Hk. rewrite !PX_eq by done. unfold PGSIZE in *. f_equal. rewrite Z.pow_add_r by lia. change (2 ^ 12) with 4096.
  rewrite <- !Z.div_div by lia. f_equal. dlia.
Qed.

Lemma mod_page level va k : 0 <= level -> va mod PGSIZE = 0 -> 0 <= k < PGSIZE -> (va + k) mod 2 ^ PXSHIFT level = va mod 2 ^ PXSHIFT level + k.
Proof.
  intros Hl Ha Hk. unfold PXSHIFT, PGSHIFT, PGSIZE in *. rewrite Z.pow_add_r by lia. change (2 ^ 12) with 4096. assert (0 < 2 ^ (9 * level)) by lia.
  rewrite !Z.rem_mul_r by lia. replace ((va + k) / 4096) with (va / 4096) by dlia. rewrite Z.add_mod, Ha by lia. rewrite (Z.mod_small k) by lia. rewrite (Z.mod_small (0 + k)) by lia. lia.
Qed.

Lemma sv39_page m levels pt va k : Forall (fun l => 0 <= l) levels -> va mod PGSIZE = 0 -> 0 <= k < PGSIZE ->
  sv39 m levels pt (va + k) = (fun r => (fst r, snd r + k)) <$> sv39 m levels pt va.
Proof.
  intros Hl Ha Hk. revert pt. induction Hl as [|level levels Hl _ IH]; intros pt; [done|]. cbn [sv39]. rewrite PX_page, mod_page by done.
  repeat case_match; try done. cbn. by rewrite Z.add_assoc.
Qed.

Lemma levels_ok : Forall (fun l => 0 <= l) [2; 1; 0].
Proof. apply Forall_cons_2; [lia|]. apply Forall_cons_2; [lia|]. apply Forall_cons_2; [lia|]. apply Forall_nil_2. Qed.

(** The addresses of the entries the walk reads. *)
Fixpoint sv39_reads (m : gmap Z Z) (levels : list Z) (pt va : Z) : list Z :=
  match levels with
  | [] => []
  | level :: levels' =>
      let a := pt + 8 * PX level va in
      a :: (if has (load64 m a) PTE_V then sv39_reads m levels' (PTE2PA (load64 m a)) va else [])
  end.

Definition apart (lo hi a : Z) : Prop := a + 8 <= lo \/ hi <= a.
#[global] Instance apart_dec lo hi a : Decision (apart lo hi a).
Proof. unfold apart. apply _. Defined.

Lemma sv39_frame lo hi m m' levels pt va : outside lo hi m m' -> Forall (apart lo hi) (sv39_reads m levels pt va) ->
  sv39 m' levels pt va = sv39 m levels pt va /\ sv39_reads m' levels pt va = sv39_reads m levels pt va.
Proof.
  intros O. revert pt. induction levels as [|level levels IH]; intros pt H; [done|]. cbn [sv39_reads sv39] in *. apply Forall_cons in H as [Ha H].
  rewrite (outside_load64 _ _ _ _ _ O Ha). destruct (has _ PTE_V) eqn:Ev; cbn [negb orb]; [|done]. destruct (IH _ H) as [E1 E2]. by rewrite E1, E2.
Qed.

(** The page at [va] is seen at [pa] with the given rights by the supervisor, through
    entries that lie outside [lo, hi). *)
Record page_map (m : gmap Z Z) (root va pa : Z) (rights : list Z) (lo hi : Z) : Prop := {
  pm_leaf : exists pte, sv39 m [2; 1; 0] root va = Some (pte, pa) /\ has pte PTE_U = false /\ Forall (fun f => has pte f = true) rights;
  pm_away : Forall (apart lo hi) (sv39_reads m [2; 1; 0] root va) }.

Lemma page_map_outside m m' root va pa rights lo hi : outside lo hi m m' -> page_map m root va pa rights lo hi -> page_map m' root va pa rights lo hi.
Proof. intros O [H1 H2]. destruct (sv39_frame lo hi m m' [2; 1; 0] root va O H2) as [E1 E2]. constructor; by rewrite ?E1, ?E2. Qed.

Definition right_of (acc : access) : Z := match acc with Read => PTE_R | Write => PTE_W | Fetch => PTE_X end.

Lemma page_view h root va pa rights lo hi acc : mode_of h = Supervisor -> csrs h Satp = MAKE_SATP root -> root_ok root -> pmp_open h -> 0 <= va < MAXVA -> va mod PGSIZE = 0 -> 0 <= pa -> pa + PGSIZE <= PHYSTOP ->
  page_map (mem_of h) root va pa rights lo hi -> right_of acc ∈ rights -> view h acc va pa PGSIZE lo hi.
Proof.
  intros Hm Hs Hr Hp Hva Hal Hpa1 Hpa2 M Hin m' O k Hk. destruct (page_map_outside _ _ _ _ _ _ _ _ O M) as [(pte & E & Hu & Hf) _].
  destruct (make_satp_fields root Hr) as (F1 & F2 & _). pose proof (proj1 (Forall_forall _ _) Hf _ Hin) as Hacc.
  assert (va mod 4096 = 0 /\ va < 2 ^ 38) as [Hv1 Hv2] by (unfold PGSIZE, MAXVA in *; change (Z.shiftl 1 (9 + 9 + 9 + 12 - 1)) with (2 ^ 38) in Hva; lia).
  assert (translate (set_mem m' h) acc (va + k) = Some (pa + k)) as Et.
  { unfold translate. cbn [set_mem mode_of csrs mem_of]. rewrite Hm, Hs, F1, F2. cbn [Z.eqb Pos.eqb negb orb].
    assert (canonical (va + k) = true) as ->. { unfold canonical. apply orb_true_iff. left. unfold PGSIZE in *. apply andb_true_iff. split; [apply Z.leb_le; lia|apply Z.ltb_lt; dlia]. }
    rewrite (sv39_page m' [2; 1; 0] root va k levels_ok Hal Hk). rewrite E. cbn. unfold permits. cbn [set_mem mode_of csrs]. rewrite Hm, Hu.
    destruct acc; cbn in Hacc; rewrite Hacc; done. }
  unfold reach. rewrite Et. rewrite pmp_open_permits; [done|done|lia|]. unfold PHYSTOP, KERNBASE, PGSIZE in *. lia.
Qed.

(** ** Tables of the kernel *)
Section Table.
Context (sym : symbols) (m : gmap Z Z) (l : list Z) (root va : Z) (W : pt_wf sym m l root).
(** The reserved bits of the entries on the way are zero. *)
Context (Hres : Forall (fun a => load64 m a < 2 ^ 54) (sv39_reads m [2; 1; 0] root va)).
Let v := pt_lookup m root va.

(** An entry on the way down is followed by hardware and software alike. *)
Lemma inner_step level levels pt π : Forall (fun a => load64 m a < 2 ^ 54) (sv39_reads m (level :: levels) pt va) -> page m root π = Some pt -> dpath (π ++ [PX level va]) ->
  match page m root (π ++ [PX level va]) with
  | Some p => sv39 m (level :: levels) pt va = sv39 m levels p va /\ Forall (fun a => load64 m a < 2 ^ 54) (sv39_reads m levels p va)
  | None => sv39 m (level :: levels) pt va = None
  end.
Proof.
  intros H Hp Hd. rewrite page_snoc, Hp. cbn [mbind option_bind]. unfold sub. cbn [sv39_reads] in H. apply Forall_cons in H as [H1 H2]. cbn [sv39]. fold (ent m pt (PX level va)) in *.
  destruct (has (ent m pt (PX level va)) PTE_V) eqn:Ev; [|done]. pose proof (pw_inner _ _ _ _ W π pt (PX level va) Hd Hp Ev) as Hi. unfold has in Hi. rewrite !Z.land_lor_distr_r in Hi.
  assert (has (ent m pt (PX level va)) PTE_R = false /\ has (ent m pt (PX level va)) PTE_W = false /\ has (ent m pt (PX level va)) PTE_X = false) as (-> & -> & ->).
  { apply negb_false_iff, Z.eqb_eq in Hi. apply Z.lor_eq_0_iff in Hi as [Hi H3]. apply Z.lor_eq_0_iff in Hi as [H4 H5]. unfold has. by rewrite H3, H4, H5. }
  cbn [negb orb andb]. rewrite (proj2 (Z.leb_gt (2 ^ 54) _)) by done. done.
Qed.

(** Whether an entry is a leaf the hardware takes. *)
Definition is_leaf (pte : Z) : bool := has pte PTE_V && (has pte PTE_R || (has pte PTE_X && negb (has pte PTE_W))).

Lemma sv39_lookup : sv39 m [2; 1; 0] root va = if is_leaf v then Some (v, PTE2PA v + va mod PGSIZE) else None.
Proof.
  pose proof (inner_step 2 [1; 0] root [] Hres eq_refl) as S2. specialize (S2 ltac:(apply (dpath_snoc_intro []); [apply dpath_nil|cbn; lia|apply PX_range; lia])).
  unfold v, pt_lookup, leaf_page. change (page m root [PX 2 va; PX 1 va]) with (page m root ([PX 2 va] ++ [PX 1 va])). cbn [app] in S2 |- *.
  change [PX 2 va; PX 1 va] with ([PX 2 va] ++ [PX 1 va]). rewrite page_snoc. destruct (page m root [PX 2 va]) as [p|] eqn:Ep; [|by rewrite S2]. destruct S2 as [-> R1].
  pose proof (inner_step 1 [0] p [PX 2 va] R1 Ep (dpath_va va)) as S1. change ([PX 2 va] ++ [PX 1 va]) with [PX 2 va; PX 1 va] in S1. change [PX 2 va; PX 1 va] with ([PX 2 va] ++ [PX 1 va]) in S1.
  rewrite page_snoc, Ep in S1. cbn [mbind option_bind] in S1 |- *. destruct (sub m p (PX 1 va)) as [q|]; [|by rewrite S1]. destruct S1 as [-> R0]. cbn [sv39_reads] in R0. apply Forall_cons in R0 as [R0 _].
  cbn [sv39]. fold (ent m q (PX 0 va)) in *. rewrite (proj2 (Z.leb_gt (2 ^ 54) _)) by done. unfold is_leaf. change (2 ^ PXSHIFT 0) with PGSIZE.
  assert (PTE2PA (ent m q (PX 0 va)) mod PGSIZE =? 0 = true) as ->. { rewrite PTE2PA_eq by (split; [apply load64_range|done]). apply Z.eqb_eq. unfold PGSIZE. by rewrite Z.mod_mul. }
  destruct (has (ent m q (PX 0 va)) PTE_V), (has (ent m q (PX 0 va)) PTE_R), (has (ent m q (PX 0 va)) PTE_W), (has (ent m q (PX 0 va)) PTE_X); done.
Qed.
End Table.

(** C12: walkaddr and the hardware agree.  In a table of the kernel, whatever a user
    access to a page reaches, walkaddr finds at the same address; and a page that
    walkaddr finds and that is readable is what the user's loads reach. *)
Theorem walkaddr_agrees_with_mmu s l root va h : pt_state s l root -> 0 <= va < MAXVA -> va mod PGSIZE = 0 ->
  mode_of h = User -> csrs h Satp = MAKE_SATP root -> mem_of h = k_mem s -> pmp_open h -> Forall (fun a => load64 (k_mem s) a < 2 ^ 54) (sv39_reads (k_mem s) [2; 1; 0] root va) ->
  (forall acc k pa, 0 <= k < PGSIZE -> reach h acc (va + k) = Some pa -> walkaddr root va s = Ret (pa - k) s)
  /\ (forall pa, walkaddr root va s = Ret pa s -> pa <> 0 -> pa + PGSIZE <= PHYSTOP -> has (pt_lookup (k_mem s) root va) PTE_R = true -> forall k, 0 <= k < PGSIZE -> reach h Read (va + k) = Some (pa + k)).
Proof.
  intros Hs Hva Hal Hm Hsatp Hmem Hp Hres. pose proof (ps_wf _ _ _ Hs) as W. rewrite (walkaddr_spec s l root va Hs ltac:(lia)). set (v := pt_lookup (k_mem s) root va).
  assert (root_ok root) as Hr. { destruct (pw_valid _ _ _ _ W [] root dpath_nil eq_refl) as [(V1 & V2 & V3) _]. split; [unfold PHYSTOP, KERNBASE in V2; lia|done]. }
  destruct (make_satp_fields root Hr) as (F1 & F2 & _).
  assert (forall acc k, 0 <= k < PGSIZE -> translate h acc (va + k) = if is_leaf v && permits h acc v then Some (PTE2PA v + k) else None) as Et.
  { intros acc k Hk. unfold translate. rewrite Hm, Hsatp, F1, F2, Hmem. cbn [Z.eqb Pos.eqb negb orb].
    assert (canonical (va + k) = true) as ->. { unfold canonical, MAXVA, PGSIZE in *. change (Z.shiftl 1 (9 + 9 + 9 + 12 - 1)) with (2 ^ 38) in Hva. apply orb_true_iff. left. apply andb_true_iff. split; [apply Z.leb_le; lia|apply Z.ltb_lt; dlia]. }
    rewrite (sv39_page (k_mem s) [2; 1; 0] root va k levels_ok Hal Hk). rewrite (sv39_lookup _ _ _ _ _ W Hres). fold v. destruct (is_leaf v); [|done]. cbn. rewrite Hal, Z.add_0_r. done. }
  split.
  - intros acc k pa Hk. unfold reach. rewrite (Et acc k Hk). destruct (is_leaf v) eqn:El, (permits h acc v) eqn:Ep; try done. cbn [andb]. case_match; [|done]. intros [= <-].
    unfold is_leaf in El. apply andb_true_iff in El as [-> _]. unfold permits in Ep. rewrite Hm in Ep. apply andb_true_iff in Ep as [_ ->]. cbn [andb]. f_equal. lia.
  - intros pa E Hpa Hmax HR k Hk. injection E as E. destruct (has v PTE_V && has v PTE_U) eqn:Ev; [|done]. apply andb_true_iff in Ev as [EV EU].
    unfold reach. rewrite (Et Read k Hk). unfold is_leaf, permits. rewrite EV, HR, EU, Hm, E. cbn [andb orb]. rewrite pmp_open_permits; [done|done| |].
    + subst pa. pose proof (wrap64_range (Z.shiftl (Z.shiftr v 10) 12)). unfold PTE2PA. lia.
    + unfold PHYSTOP, KERNBASE, PGSIZE in *. lia.
Qed.

(** A table of three pages with one user page, at address 0. *)
Module OnePage.
Definition p2 : Z := PHYSTOP - 3 * PGSIZE.
Definition p1 : Z := PHYSTOP - 2 * PGSIZE.
Definition p0 : Z := PHYSTOP - PGSIZE.
Definition leaf : Z := Z.lor (Z.lor (PA2PTE KERNBASE) (Z.lor PTE_R PTE_U)) PTE_V.
Definition mem : gmap Z Z := store64 (store64 (store64 ∅ p2 (Z.lor (PA2PTE p1) PTE_V)) p1 (Z.lor (PA2PTE p0) PTE_V)) p0 leaf.
Definition state : kernel := set_k_mem mem (kernel0 (mkSymbols p2 0 0 0 0 0)).
Definition csr0 (c : csr) : Z := match c with Satp => MAKE_SATP p2 | Pmpcfg0 => 15 | Pmpaddr0 => 2 ^ 54 - 1 | _ => 0 end.
Definition hart : machine := mkMachine (fun _ => 0) 0 User csr0 mem.

Lemma ent_zero p i : 0 < i < 512 -> p = p2 \/ p = p1 \/ p = p0 -> ent mem p i = 0.
Proof.
  intros Hi Hp. unfold ent, mem. rewrite !load64_store64_ne; [by apply load64_zero| | |]; unfold p0, p1, p2, PHYSTOP, KERNBASE, PGSIZE in *; lia.
Qed.

Lemma ent_p2 : ent mem p2 0 = Z.lor (PA2PTE p1) PTE_V.
Proof. unfold ent, mem. rewrite !load64_store64_ne by (vm_compute; left; discriminate). by rewrite load64_store64_eq. Qed.
Lemma ent_p1 : ent mem p1 0 = Z.lor (PA2PTE p0) PTE_V.
Proof. unfold ent, mem. rewrite load64_store64_ne by (vm_compute; left; discriminate). by rewrite load64_store64_eq. Qed.
Lemma ent_p0 : ent mem p0 0 = leaf.
Proof. unfold ent, mem. by rewrite load64_store64_eq. Qed.

Lemma sub_at i : 0 <= i < 512 -> sub mem p2 i = (if decide (i = 0) then Some p1 else None) /\ sub mem p1 i = (if decide (i = 0) then Some p0 else None).
Proof.
  intros Hi. unfold sub. destruct (decide (i = 0)) as [->|H]; [by rewrite ent_p2, ent_p1|]. rewrite !ent_zero by (lia || tauto). done.
Qed.

Lemma paths π a : dpath π -> page mem p2 π = Some a -> (π = [] /\ a = p2) \/ (π = [0] /\ a = p1) \/ (π = [0; 0] /\ a = p0).
Proof.
  intros [Hl Hf] H. destruct π as [|i [|j [|k π]]]; cbn in Hl, H; [injection H as <-; by left| | |lia].
  - inversion_clear Hf. rewrite (proj1 (sub_at i ltac:(done))) in H. destruct (decide (i = 0)) as [->|]; [|done]. cbn in H. injection H as <-. right. by left.
  - inversion_clear Hf as [|? ? Hi Hf']. inversion_clear Hf'. rewrite (proj1 (sub_at i ltac:(done))) in H. destruct (decide (i = 0)) as [->|]; [|done]. cbn in H.
    rewrite (proj2 (sub_at j ltac:(done))) in H. destruct (decide (j = 0)) as [->|]; [|done]. injection H as <-. right. by right.
Qed.

Lemma pages_valid p : p = p2 \/ p = p1 \/ p = p0 -> valid_page (k_sym state) p.
Proof. unfold valid_page. intros [->|[->| ->]]; vm_compute; (split; [reflexivity|]; split; [split; [discriminate|reflexivity]|reflexivity]). Qed.

Lemma table : pt_state state [] p2.
Proof.
  constructor; [by constructor; [|apply NoDup_nil_2|]| |apply not_elem_of_nil]. constructor.
  - intros π π' a H1 H2 E1 E2. destruct (paths π a H1 E1) as [[-> ->]|[[-> ->]|[-> ->]]], (paths π' _ H2 E2) as [[-> E]|[[-> E]|[-> E]]]; done.
  - intros π a H E. split; [|apply not_elem_of_nil]. apply pages_valid. destruct (paths π a H E) as [[_ ->]|[[_ ->]|[_ ->]]]; tauto.
  - change (k_mem state) with mem. intros π p i H E V. pose proof (dpath_snoc _ _ H) as (H1 & H2 & H3). destruct (paths π p H1 E) as [[-> ->]|[[-> ->]|[-> ->]]]; [| |cbn in H3; lia].
    + destruct (decide (i = 0)) as [->|]; [by rewrite ent_p2|]. by rewrite ent_zero in V by (lia || tauto).
    + destruct (decide (i = 0)) as [->|]; [by rewrite ent_p1|]. by rewrite ent_zero in V by (lia || tauto).
Qed.
End OnePage.

Lemma walkaddr_agrees_with_mmu_witness : walkaddr OnePage.p2 0 OnePage.state = Ret KERNBASE OnePage.state /\ reach OnePage.hart Read 8 = Some (KERNBASE + 8).
Proof.
  assert (Forall (fun a => load64 OnePage.mem a < 2 ^ 54) (sv39_reads OnePage.mem [2; 1; 0] OnePage.p2 0)) as R by (apply (bool_decide_unpack (Forall _ _)); vm_compute; exact Logic.I).
  assert (walkaddr OnePage.p2 0 OnePage.state = Ret KERNBASE OnePage.state) as E.
  { rewrite (walkaddr_spec _ _ _ 0 OnePage.table eq_refl). f_equal. }
  change OnePage.mem with (k_mem OnePage.state) in R.
  assert (0 <= 0 < MAXVA) as V by (vm_compute; split; [discriminate|reflexivity]). assert (pmp_open OnePage.hart) as P by (split; reflexivity).
  destruct (walkaddr_agrees_with_mmu OnePage.state [] OnePage.p2 0 OnePage.hart OnePage.table V eq_refl eq_refl eq_refl eq_refl P R) as [_ H].
  split; [exact E|]. apply (H KERNBASE E ltac:(discriminate)) with (k := 8); [vm_compute; discriminate| |vm_compute; split; [discriminate|reflexivity]].
  change (has (pt_lookup OnePage.mem OnePage.p2 0) PTE_R = true). vm_compute. reflexivity.
Defined.
