(* ===== verification/Asm.v ===== *)
(** * The assembly files: swtch.S, kernelvec.S, trampoline.S, entry.S

    Each routine is the list of its instructions, run on the hart of [Riscv]; the
    addresses the linker gives to symbols are parameters, and so are the sizes the
    assembler gives to instructions.  The C functions the routines call are what
    the theorems say of the state they are entered in and return in. *)
From S2P Require Import Prelude State Proc Trap Riscv RiscvSpec.
Import Reg.

Open Scope Z_scope.

(** ** swtch.S *)
Definition swtch : list instr :=
  [Sd ra 0 a0; Sd sp 8 a0; Sd s0 16 a0; Sd s1 24 a0;
   Sd s2 32 a0; Sd s3 40 a0; Sd s4 48 a0; Sd s5 56 a0;
   Sd s6 64 a0; Sd s7 72 a0; Sd s8 80 a0; Sd s9 88 a0;
   Sd s10 96 a0; Sd s11 104 a0;
   Ld ra 0 a1; Ld sp 8 a1; Ld s0 16 a1; Ld s1 24 a1;
   Ld s2 32 a1; Ld s3 40 a1; Ld s4 48 a1; Ld s5 56 a1;
   Ld s6 64 a1; Ld s7 72 a1; Ld s8 80 a1; Ld s9 88 a1;
   Ld s10 96 a1; Ld s11 104 a1;
   Ret_].

(** ** kernelvec.S *)
Definition kernelvec (kerneltrap : Z) : list instr :=
  [Addi sp sp (-256);
   Sd ra 0 sp; Sd gp 16 sp; Sd tp 24 sp;
   Sd t0 32 sp; Sd t1 40 sp; Sd t2 48 sp; Sd a0 72 sp;
   Sd a1 80 sp; Sd a2 88 sp; Sd a3 96 sp; Sd a4 104 sp;
   Sd a5 112 sp; Sd a6 120 sp; Sd a7 128 sp; Sd t3 216 sp;
   Sd t4 224 sp; Sd t5 232 sp; Sd t6 240 sp;
   Call kerneltrap;
   Ld ra 0 sp; Ld gp 16 sp; Ld t0 32 sp; Ld t1 40 sp;
   Ld t2 48 sp; Ld a0 72 sp; Ld a1 80 sp; Ld a2 88 sp;
   Ld a3 96 sp; Ld a4 104 sp; Ld a5 112 sp; Ld a6 120 sp;
   Ld a7 128 sp; Ld t3 216 sp; Ld t4 224 sp; Ld t5 232 sp;
   Ld t6 240 sp;
   Addi sp sp 256;
   Sret].

(** ** trampoline.S *)
Definition uservec : list instr :=
  [Csrw Sscratch a0;
   Li a0 TRAPFRAME;
   Sd ra 40 a0; Sd sp 48 a0; Sd gp 56 a0; Sd tp 64 a0;
   Sd t0 72 a0; Sd t1 80 a0; Sd t2 88 a0; Sd s0 96 a0;
   Sd s1 104 a0; Sd a1 120 a0; Sd a2 128 a0; Sd a3 136 a0;
   Sd a4 144 a0; Sd a5 152 a0; Sd a6 160 a0; Sd a7 168 a0;
   Sd s2 176 a0; Sd s3 184 a0; Sd s4 192 a0; Sd s5 200 a0;
   Sd s6 208 a0; Sd s7 216 a0; Sd s8 224 a0; Sd s9 232 a0;
   Sd s10 240 a0; Sd s11 248 a0; Sd t3 256 a0; Sd t4 264 a0;
   Sd t5 272 a0; Sd t6 280 a0;
   Csrr t0 Sscratch;
   Sd t0 112 a0;
   Ld sp 8 a0;
   Ld tp 32 a0;
   Ld t0 16 a0;
   Ld t1 0 a0;
   Sfence_vma;
   Csrw Satp t1;
   Sfence_vma;
   Jalr t0].

Definition userret : list instr :=
  [Sfence_vma;
   Csrw Satp a0;
   Sfence_vma;
   Li a0 TRAPFRAME;
   Ld ra 40 a0; Ld sp 48 a0; Ld gp 56 a0; Ld tp 64 a0;
   Ld t0 72 a0; Ld t1 80 a0; Ld t2 88 a0; Ld s0 96 a0;
   Ld s1 104 a0; Ld a1 120 a0; Ld a2 128 a0; Ld a3 136 a0;
   Ld a4 144 a0; Ld a5 152 a0; Ld a6 160 a0; Ld a7 168 a0;
   Ld s2 176 a0; Ld s3 184 a0; Ld s4 192 a0; Ld s5 200 a0;
   Ld s6 208 a0; Ld s7 216 a0; Ld s8 224 a0; Ld s9 232 a0;
   Ld s10 240 a0; Ld s11 248 a0; Ld t3 256 a0; Ld t4 264 a0;
   Ld t5 272 a0; Ld t6 280 a0;
   Ld a0 112 a0;
   Sret].

Definition trampoline : list instr := uservec ++ userret.

(** ** entry.S *)
Definition entry (stack0 start spin : Z) : list instr :=
  [La sp stack0;
   Li a0 (1024 * 4);
   Csrr a1 Mhartid;
   Addi a1 a1 1;
   Mul a0 a0 a1;
   Add sp sp a0;
   Call start;
   J spin].

(** ** Context switches *)

(** Where [struct context] keeps the registers a function must preserve. *)
Definition ctx_slots : slots :=
  [(ra, 0); (sp, 8); (s0, 16); (s1, 24); (s2, 32); (s3, 40); (s4, 48); (s5, 56); (s6, 64); (s7, 72); (s8, 80); (s9, 88); (s10, 96); (s11, 104)].
Definition ctx_size : Z := 112.

Lemma ctx_slots_ok : slots_ok ctx_size ctx_slots.
Proof. repeat constructor; done. Qed.
Lemma ctx_offs : NoDup (map snd ctx_slots).
Proof. by apply (bool_decide_unpack (NoDup (map snd ctx_slots))). Qed.
Lemma ctx_regs : NoDup (map fst ctx_slots).
Proof. by apply (bool_decide_unpack (NoDup (map fst ctx_slots))). Qed.

(** The context at the physical address [p]. *)
Definition saved (m : gmap Z Z) (p : Z) (x : reg -> Z) : Prop := forall r o, (r, o) ∈ ctx_slots -> load64 m (p + o) = x r.

Lemma split_code (code : list (instr * Z)) l1 l2 : map fst code = l1 ++ l2 -> exists c1 c2, code = c1 ++ c2 /\ map fst c1 = l1 /\ map fst c2 = l2.
Proof. intros H. by apply map_eq_app in H. Qed.

Section Swtch.
Context {hw : hardware} (text : Z -> option (instr * Z)).

(** A call of swtch: the hart is at its code, a0 and a1 are the addresses of two
    structures that are at [pold] and [pnew]. *)
Record calls_swtch (h : machine) (pold pnew : Z) : Prop := {
  cs_ok : hart_ok h;
  cs_code : exists va pa len code, map fst code = swtch /\ at_code text va pa len pold (pold + ctx_size) code h;
  cs_old : x_of h a0 + ctx_size <= 2 ^ 64 /\ x_of h a0 mod 8 = 0 /\ view h Write (x_of h a0) pold ctx_size pold (pold + ctx_size);
  cs_new : x_of h a1 + ctx_size <= 2 ^ 64 /\ x_of h a1 mod 8 = 0 /\ view h Read (x_of h a1) pnew ctx_size pold (pold + ctx_size);
  cs_apart : pold + ctx_size <= pnew \/ pnew + ctx_size <= pold }.

Lemma ctx_after m m' pold pnew : outside pold (pold + ctx_size) m m' -> pold + ctx_size <= pnew \/ pnew + ctx_size <= pold ->
  forall r o, (r, o) ∈ ctx_slots -> load64 m' (pnew + o) = load64 m (pnew + o).
Proof.
  intros O Ha r o Hin. apply (outside_load64 _ _ _ _ _ O). pose proof (proj1 (Forall_forall _ _) ctx_slots_ok (r, o) Hin) as Ho. cbn in Ho. unfold ctx_size in *. lia.
Qed.

Lemma swtch_run h pold pnew : calls_swtch h pold pnew ->
  exists h', steps text 29 h = Some h' /\ saved (mem_of h') pold (x_of h) /\ saved (mem_of h) pnew (x_of h') /\ (forall r, r ∉ map fst ctx_slots -> x_of h' r = x_of h r)
  /\ pc_of h' = Z.clearbit (x_of h' ra) 0 /\ outside pold (pold + ctx_size) (mem_of h) (mem_of h') /\ same_map h h'.
Proof.
  intros [W (va & pa & len & code & Hc & A) (O1 & O2 & O3) (N1 & N2 & N3) Ha]. pose proof (ho_x _ W a0) as [Wa0 _]. pose proof (ho_x _ W a1) as [Wa1 _].
  change swtch with (map (fun p => Sd (fst p) (snd p) a0) ctx_slots ++ map (fun p => Ld (fst p) (snd p) a1) ctx_slots ++ [Ret_]) in Hc.
  apply split_code in Hc as (c1 & c2 & -> & Hc1 & Hc2). apply split_code in Hc2 as (c3 & c4 & -> & Hc3 & Hc4).
  destruct (saves_run text va pa len pold (pold + ctx_size) (x_of h a0) pold ctx_size ltac:(done) a0 ctx_slots c1 (c3 ++ c4) h ltac:(lia) ltac:(lia) A Hc1 O3 eq_refl ctx_slots_ok) as (h1 & E1 & A1 & M1 & X1 & Q1).
  pose proof (save_all_outside (mem_of h) pold (x_of h) ctx_slots ctx_size ctx_slots_ok) as O. rewrite <- Q1 in O.
  destruct (loads_run text va pa len pold (pold + ctx_size) (x_of h a1) pnew ctx_size ltac:(done) a1 ctx_slots c3 c4 h1 A1 Hc3) as (h2 & E2 & A2 & M2 & Q2 & X2); [by eapply view_same|by rewrite X1|apply ctx_slots_ok|by apply (bool_decide_unpack (a1 ∉ map fst ctx_slots))|by apply (bool_decide_unpack (zero ∉ map fst ctx_slots))|].
  destruct c4 as [|[i n] c4]; [done|]. injection Hc4 as -> Hc4. set (h3 := set_pc (Z.clearbit (x_of h2 ra) 0) h2). exists h3. split_and!.
  - apply (steps_add text 14 15 h h1 _ E1). apply (steps_add text 14 1 h1 h2 _ E2). by eapply code_step.
  - intros r o Hin. change (mem_of h3) with (mem_of h2). rewrite Q2, Q1. eapply save_all_eq; [apply ctx_slots_ok|apply ctx_offs|done|apply W].
  - intros r o Hin. change (x_of h3 r) with (x_of h2 r). rewrite X2, (load_all_eq _ _ _ _ _ _ ctx_regs Hin). symmetry. by eapply ctx_after.
  - intros r Hr. change (x_of h3 r) with (x_of h2 r). by rewrite X2, load_all_ne, X1.
  - change (x_of h3 ra) with (x_of h2 ra). cbn. apply wrap64_small, clearbit0_word. rewrite X2. rewrite (load_all_eq _ _ _ _ ra 0 ctx_regs); [apply load64_range|by left].
  - change (mem_of h3) with (mem_of h2). by rewrite Q2.
  - destruct M1, M2. split; cbn; congruence.
Qed.
End Swtch.

(** C10: A context switch resumes its thread.  swtch(old, new) saves the registers a
    function must preserve in *old, takes those of *new and returns where the thread of
    *new was; no other register and no other memory changes.  When later, on whatever
    hart, someone switches to *old and has left it as it was, the first thread goes on
    after its call with the registers it had. *)
Theorem swtch_resumes {hw : hardware} text h pold pnew : calls_swtch text h pold pnew ->
  exists h1, steps text 29 h = Some h1 /\ saved (mem_of h) pnew (x_of h1) /\ pc_of h1 = Z.clearbit (x_of h1 ra) 0 /\ outside pold (pold + ctx_size) (mem_of h) (mem_of h1)
  /\ (forall r, r ∉ map fst ctx_slots -> x_of h1 r = x_of h r)
  /\ forall h2 p, calls_swtch text h2 p pold -> (forall a, pold <= a < pold + ctx_size -> load8 (mem_of h2) a = load8 (mem_of h1) a) ->
     exists h3, steps text 29 h2 = Some h3 /\ pc_of h3 = Z.clearbit (x_of h ra) 0 /\ forall r, r ∈ map fst ctx_slots -> x_of h3 r = x_of h r.
Proof.
  intros H. destruct (swtch_run text h pold pnew H) as (h1 & E1 & S1 & N1 & K1 & P1 & O1 & _). exists h1. split_and!; [done..|]. intros h2 p H2 Hm.
  destruct (swtch_run text h2 p pold H2) as (h3 & E3 & _ & N3 & _ & P3 & _). exists h3. split; [done|].
  assert (forall r, r ∈ map fst ctx_slots -> x_of h3 r = x_of h r) as X.
  { intros r Hr. apply list_elem_of_fmap in Hr as ([r' o] & -> & Hin). cbn. rewrite <- (N3 r' o Hin), <- (S1 r' o Hin). apply load64_agree. intros a Ha. apply Hm.
    pose proof (proj1 (Forall_forall _ _) ctx_slots_ok (r', o) Hin) as Ho. cbn in Ho. lia. }
  split; [|done]. rewrite P3, X; [done|]. apply list_elem_of_fmap. exists (ra, 0). by split; [|left].
Qed.

(** A hart in supervisor mode without paging. *)
Definition bare_csrs (c : csr) : Z := match c with Pmpcfg0 => 15 | Pmpaddr0 => 2 ^ 54 - 1 | Mstatus => 2 | Mideleg => 0x222 | Medeleg => 0xb3ff | _ => 0 end.
Definition bare_hart (x : reg -> Z) (pc : Z) (m : gmap Z Z) : machine := mkMachine x pc Supervisor bare_csrs m.
Definition all_bits : hardware := {| writable := fun _ => 2 ^ 64 - 1 |}.

Lemma bare_hart_ok x pc m : x zero = 0 -> (forall r, is_u64 (x r)) -> is_u64 pc -> hart_ok (bare_hart x pc m).
Proof. intros H1 H2 H3. constructor; [done..|]. intros c. by destruct c. Qed.

Definition demo_swtch : Z -> option (instr * Z) := words_at 0x80000000 swtch.
(** The registers at a call: every preserved register holds [v]. *)
Definition demo_regs (old new v : Z) (r : reg) : Z :=
  match r with a0 => old | a1 => new | zero => 0 | t0 | t1 | t2 | t3 | t4 | t5 | t6 => 1 | _ => v end.

Lemma demo_calls old new v m : is_u64 v -> 0x80001000 <= old < 0x80010000 -> 0x80001000 <= new < 0x80010000 -> old mod 8 = 0 -> new mod 8 = 0 -> old + ctx_size <= new \/ new + ctx_size <= old ->
  calls_swtch demo_swtch (bare_hart (demo_regs old new v) 0x80000000 m) old new.
Proof.
  unfold ctx_size. intros Hv Ho Hn Ao An Ha. constructor; cbn [bare_hart x_of demo_regs].
  - apply bare_hart_ok; [done| |done]. intros r. unfold is_u64 in *. destruct r; cbn; lia.
  - exists 0x80000000, 0x80000000, (4 * Z.of_nat (length swtch)), (words swtch). split; [apply words_map|]. by apply words_at_code.
  - split; [unfold ctx_size; lia|]. split; [done|]. apply bare_view; unfold ctx_size; done || lia.
  - split; [unfold ctx_size; lia|]. split; [done|]. apply bare_view; unfold ctx_size; done || lia.
  - done.
Qed.

(** A thread switches away, and is switched to from a third one. *)
Lemma swtch_resumes_witness : exists h1 h3, steps (hw := all_bits) demo_swtch 29 (bare_hart (demo_regs 0x80001000 0x80002000 7) 0x80000000 ∅) = Some h1
  /\ steps (hw := all_bits) demo_swtch 29 (bare_hart (demo_regs 0x80003000 0x80001000 9) 0x80000000 (mem_of h1)) = Some h3 /\ x_of h3 s11 = 7.
Proof.
  assert (forall m, calls_swtch demo_swtch (bare_hart (demo_regs 0x80003000 0x80001000 9) 0x80000000 m) 0x80003000 0x80001000) as C by (intros m; apply demo_calls; [done..|right; done]).
  assert (s11 ∈ map fst ctx_slots) as Hs by (apply (bool_decide_unpack (s11 ∈ map fst ctx_slots)); reflexivity).
  destruct (swtch_resumes (hw := all_bits) demo_swtch (bare_hart (demo_regs 0x80001000 0x80002000 7) 0x80000000 ∅) 0x80001000 0x80002000) as (h1 & E1 & _ & _ & _ & _ & H); [apply demo_calls; [done..|left; done]|].
  destruct (H _ _ (C (mem_of h1)) (fun a _ => eq_refl)) as (h3 & E3 & _ & X). exists h1, h3. exact (conj E1 (conj E3 (X s11 Hs))).
Defined.

(** ** Interrupts in the kernel *)

(** A run that gives up the CPU goes on in whatever state it is resumed in. *)
Inductive returns {S A} : run S A -> A -> S -> Prop :=
  | returns_now a s : returns (Ret a s) a s
  | returns_later s k s1 a s2 : returns (k s1) a s2 -> returns (Yield s k) a s2.

Lemma returns_bind {S A B} (m : M S A) (f : A -> M S B) s b s2 : returns (bind m f s) b s2 -> exists a s1, returns (m s) a s1 /\ returns (f a s1) b s2.
Proof.
  unfold bind. generalize (m s). clear m s. intros r. induction r as [a s|msg|s k IH|]; cbn [run_bind]; intros H.
  - exists a, s. split; [constructor|done].
  - inversion H.
  - inversion H as [|? ? s1 ? ? H1 Hr E1 E2]; subst. destruct (IH _ H1) as (a & s3 & H2 & H3). exists a, s3. split; [by econstructor|done].
  - inversion H.
Qed.

(** The control registers of the hart as trap.c sees them. *)
Definition hart_of (h : machine) : hart :=
  mkHart (r_tp h) (r_sstatus h) (r_sepc h) (r_scause h) (r_stval h) (r_stvec h) (r_satp h) (r_time h) (r_stimecmp h).

(** kerneltrap returns with the sepc and the sstatus it was entered with. *)
Lemma kerneltrap_restores intr claim complete idle h h' s v s' : returns (kerneltrap intr claim complete idle h h' s) v s' -> Trap.r_sepc v = Trap.r_sepc h /\ Trap.r_sstatus v = Trap.r_sstatus h.
Proof.
  unfold kerneltrap. destruct (negb _); [intros H; inversion H|]. destruct (hart_intr_get h); [intros H; inversion H|]. intros H. apply returns_bind in H as ([d h1] & s1 & _ & H). cbn [fst] in H. destruct (d =? 0).
  - apply returns_bind in H as (? & s2 & _ & H). inversion H.
  - apply returns_bind in H as (? & s2 & _ & H). apply returns_bind in H as (? & s3 & _ & H). inversion H. done.
Qed.

Definition kv_saved : slots :=
  [(ra, 0); (gp, 16); (tp, 24); (t0, 32); (t1, 40); (t2, 48); (a0, 72); (a1, 80); (a2, 88); (a3, 96); (a4, 104); (a5, 112); (a6, 120); (a7, 128); (t3, 216); (t4, 224); (t5, 232); (t6, 240)].
Definition kv_restored : slots :=
  [(ra, 0); (gp, 16); (t0, 32); (t1, 40); (t2, 48); (a0, 72); (a1, 80); (a2, 88); (a3, 96); (a4, 104); (a5, 112); (a6, 120); (a7, 128); (t3, 216); (t4, 224); (t5, 232); (t6, 240)].
Definition frame_size : Z := 256.
(** The registers a C function preserves. *)
Definition callee_saved : list reg := [sp; s0; s1; s2; s3; s4; s5; s6; s7; s8; s9; s10; s11].

Ltac compute_in := match goal with |- ?P => apply (bool_decide_unpack P); vm_compute; exact Logic.I end.

Ltac not_listed H := repeat (apply elem_of_cons in H as [H|H]; [done|]); by apply not_elem_of_nil in H.

Lemma kv_saved_ok : slots_ok frame_size kv_saved.
Proof. repeat constructor; done. Qed.
Lemma kv_restored_ok : slots_ok frame_size kv_restored.
Proof. repeat constructor; done. Qed.
Lemma kv_saved_offs : NoDup (map snd kv_saved).
Proof. compute_in. Qed.
Lemma kv_restored_regs : NoDup (map fst kv_restored).
Proof. compute_in. Qed.
Lemma kv_restored_saved r o : (r, o) ∈ kv_restored -> (r, o) ∈ kv_saved.
Proof. assert (Forall (fun p => p ∈ kv_saved) kv_restored) as H by compute_in. apply (proj1 (Forall_forall _ _) H (r, o)). Qed.
Lemma kv_regs r : r <> zero -> r <> tp -> r ∈ callee_saved \/ exists o, (r, o) ∈ kv_restored.
Proof. intros H1 H2. destruct r; try done; (left; compute_in) || (right; eexists; unfold kv_restored; repeat (apply elem_of_cons; (left; reflexivity) || right)). Qed.

Section Kernelvec.
Context {hw : hardware} (text : Z -> option (instr * Z)) (kt va pa len pf : Z).
Notation at_ := (at_code text va pa len pf (pf + frame_size)).
Notation sees h acc v := (view h acc v pf frame_size pf (pf + frame_size)).

Lemma kernelvec_in code h : hart_ok h -> map fst code = kernelvec kt -> at_ code h -> frame_size <= x_of h sp -> x_of h sp mod 8 = 0 -> sees h Write (x_of h sp - frame_size) ->
  exists h1 rest, steps text 20 h = Some h1 /\ pc_of h1 = wrap64 kt /\ x_of h1 sp = x_of h sp - frame_size /\ (forall r, r <> sp -> r <> ra -> x_of h1 r = x_of h r) /\ same_map h h1
  /\ (forall r o, (r, o) ∈ kv_saved -> load64 (mem_of h1) (pf + o) = x_of h r) /\ outside pf (pf + frame_size) (mem_of h) (mem_of h1)
  /\ map fst rest = map (fun p => Ld (fst p) (snd p) sp) kv_restored ++ [Addi sp sp 256; Sret] /\ (forall h2, pc_of h2 = x_of h1 ra -> view h2 Fetch va pa len pf (pf + frame_size) -> at_ rest h2).
Proof.
  intros W Hc A Hsp Hal V. destruct (ho_x _ W sp) as [_ Wsp]. destruct code as [|[i n] code]; [done|]. cbn [map fst] in Hc. injection Hc as -> Hc.
  set (h0 := set_pc (pc_of h + n) (set_x sp (x_of h sp + -256) h)). destruct (plain_run text va pa len pf (pf + frame_size) _ n code h h0 A eq_refl) as [E0 A0]; [done..|].
  assert (x_of h0 sp = x_of h sp - frame_size) as Esp. { unfold h0. cbn. unfold frame_size in *. apply wrap64_small. lia. }
  assert (forall r, r <> sp -> x_of h0 r = x_of h r) as Ex. { intros r Hr. unfold h0. cbn. by rewrite decide_False. }
  change (map fst code = map (fun p => Sd (fst p) (snd p) sp) kv_saved ++ Call kt :: map (fun p => Ld (fst p) (snd p) sp) kv_restored ++ [Addi sp sp 256; Sret]) in Hc.
  apply split_code in Hc as (c1 & c2 & -> & Hc1 & Hc2). destruct c2 as [|[i n2] rest]; [done|]. cbn [map fst] in Hc2. injection Hc2 as -> Hc2.
  destruct (saves_run text va pa len pf (pf + frame_size) (x_of h sp - frame_size) pf frame_size) with (b := sp) (l := kv_saved) (code := c1) (rest := (Call kt, n2) :: rest) (h := h0) as (h1 & E1 & A1 & M1 & X1 & Q1);
    [unfold frame_size in *; split_and!; [lia..|]; rewrite Zminus_mod, Hal; done|lia|lia|done|done|by eapply view_same; [| |exact V]; [done|apply outside_refl]|done|apply kv_saved_ok|].
  set (h2 := set_pc kt (set_x ra (pc_of h1 + n2) h1)). exists h2, rest.
  assert (exec (Call kt) n2 h1 = Some h2) as E2 by done. split_and!.
  - apply (steps_add text 1 19 h h0 _ E0). apply (steps_add text 18 1 h0 h1 _ E1). by eapply code_step.
  - done.
  - transitivity (x_of h1 sp); [done|by rewrite X1].
  - intros r H1 H2. unfold h2. cbn. rewrite decide_False by done. by rewrite X1, Ex.
  - by destruct M1.
  - intros r o Hin. change (mem_of h2) with (mem_of h1). rewrite Q1. change (mem_of h0) with (mem_of h). rewrite (save_all_eq _ _ _ _ _ r o kv_saved_ok kv_saved_offs Hin).
    + apply Ex. intros ->. not_listed Hin.
    + unfold h0. apply set_pc_ok, set_x_ok. done.
  - change (mem_of h2) with (mem_of h1). rewrite Q1. apply (save_all_outside (mem_of h)), kv_saved_ok.
  - done.
  - intros g Hpc Vg. eapply code_resume; [exact A1|done|]. rewrite Hpc. done.
Qed.

Lemma kernelvec_out rest h m : map fst rest = map (fun p => Ld (fst p) (snd p) sp) kv_restored ++ [Addi sp sp 256; Sret] -> at_ rest h -> mode_of h = Supervisor ->
  0 <= x_of h sp -> x_of h sp + frame_size < 2 ^ 64 -> x_of h sp mod 8 = 0 -> sees h Read (x_of h sp) -> (forall r o, (r, o) ∈ kv_restored -> load64 (mem_of h) (pf + o) = m r) ->
  exists h1, steps text 19 h = Some h1 /\ (forall r o, (r, o) ∈ kv_restored -> x_of h1 r = m r) /\ x_of h1 sp = x_of h sp + frame_size
  /\ (forall r, r ∉ map fst kv_restored -> r <> sp -> x_of h1 r = x_of h r) /\ mem_of h1 = mem_of h /\ (exists g, sret h = Some g /\ pc_of h1 = pc_of g /\ mode_of h1 = mode_of g /\ csrs h1 = csrs g).
Proof.
  intros Hc A Hm S1 S2 Sal V Hl. apply split_code in Hc as (c1 & c2 & -> & Hc1 & Hc2). destruct c2 as [|[i2 n2] [|[i3 n3] c2]]; [done..|]. injection Hc2 as -> -> Hc2.
  destruct (loads_run text va pa len pf (pf + frame_size) (x_of h sp) pf frame_size) with (b := sp) (l := kv_restored) (code := c1) (rest := (Addi sp sp 256, n2) :: (Sret, n3) :: c2) (h := h) as (h1 & E1 & A1 & M1 & Q1 & X1);
    [split_and!; [lia..|done]|done|done|done|done|apply kv_restored_ok|compute_in|compute_in|].
  set (h2 := set_pc (pc_of h1 + n2) (set_x sp (x_of h1 sp + 256) h1)). destruct (plain_run text va pa len pf (pf + frame_size) _ n2 _ h1 h2 A1 eq_refl) as [E2 A2]; [done..|].
  destruct M1 as [M1 M1']. assert (mode_of h2 = Supervisor) as Hm2 by (cbn; by rewrite M1).
  assert (exists h3, sret h2 = Some h3 /\ x_of h3 = x_of h2 /\ mem_of h3 = mem_of h2) as (h3 & E3 & X3 & Q3). { unfold sret. rewrite Hm2. cbn. by eexists. }
  exists h3. split_and!.
  - apply (steps_add text 17 2 h h1 _ E1). apply (steps_add text 1 1 h1 h2 _ E2). by eapply code_step.
  - intros r o Hin. rewrite X3. unfold h2. cbn. rewrite decide_False by (intros ->; not_listed Hin).
    rewrite X1, (load_all_eq _ _ _ _ _ _ kv_restored_regs Hin). by apply Hl.
  - rewrite X3. unfold h2. cbn. rewrite X1, load_all_ne by compute_in. unfold frame_size in *. apply wrap64_small. lia.
  - intros r H1 H2. rewrite X3. unfold h2. cbn. rewrite decide_False by done. by rewrite X1, load_all_ne.
  - rewrite Q3. cbn. done.
  - revert E3. unfold sret. rewrite Hm2, Hm. cbn [bool_decide decide]. change (csrs h2) with (csrs h1). rewrite M1'. intros E3. eexists. split; [reflexivity|].
    injection E3 as <-. cbn. change (csrs h2) with (csrs h1). by rewrite M1'.
Qed.
End Kernelvec.

(** What a C function called in state [h1] leaves when it returns, in state [h2], by
    the calling convention; the kernel still maps the code and the stack frame. *)
Record c_returns (va pa len fva pf : Z) (h1 h2 : machine) : Prop := {
  cr_ok : hart_ok h2;
  cr_mode : mode_of h2 = Supervisor;
  cr_pc : pc_of h2 = x_of h1 ra;
  cr_saved : forall r, r ∈ callee_saved -> x_of h2 r = x_of h1 r;
  cr_frame : forall a, pf <= a < pf + frame_size -> load8 (mem_of h2) a = load8 (mem_of h1) a;
  cr_code : view h2 Fetch va pa len pf (pf + frame_size);
  cr_stack : view h2 Read fva pf frame_size pf (pf + frame_size) }.

Lemma status_bit h i : 0 <= i < 64 -> Z.testbit sstatus_bits i = true -> Z.testbit (r_sstatus h) i = Z.testbit (csrs h Mstatus) i.
Proof. intros Hi Hb. unfold r_sstatus, csr_read. by rewrite Z.land_spec, Hb, andb_true_r. Qed.

Lemma status_of pc m v h : csrs (set_pc pc (set_mode m (set_csr Mstatus v h))) Mstatus = wrap64 v.
Proof. reflexivity. Qed.

(** What a trap from the kernel puts into the registers, and what sret makes of it. *)
Lemma trap_in_kernel interrupt n tval h0 h : hart_ok h0 -> mode_of h0 = Supervisor -> trap_to_s interrupt n tval h0 = Some h ->
  x_of h = x_of h0 /\ mem_of h = mem_of h0 /\ mode_of h = Supervisor /\ r_sepc h = pc_of h0
  /\ Z.testbit (csrs h Mstatus) bit_spie = Z.testbit (csrs h0 Mstatus) bit_sie /\ Z.testbit (csrs h Mstatus) bit_spp = true.
Proof.
  intros W Hm. unfold trap_to_s. rewrite Hm. case_match; [done|]. intros E. apply (inj Some) in E as <-. split_and!; try done.
  - unfold r_sepc. cbn. apply wrap64_small, W.
  - rewrite status_of, wrap64_bit by (unfold bit_spie; lia). rewrite !put_bit_bit by done. done.
  - rewrite status_of, wrap64_bit by (unfold bit_spp; lia). rewrite !put_bit_bit by done. done.
Qed.

Lemma sret_to h g : sret h = Some g -> Z.testbit (csrs h Mstatus) bit_spp = true ->
  pc_of g = wrap64 (r_sepc h) /\ mode_of g = Supervisor /\ Z.testbit (csrs g Mstatus) bit_sie = Z.testbit (csrs h Mstatus) bit_spie.
Proof.
  unfold sret. intros E Hp. case_match; [done|]. apply (inj Some) in E as <-. rewrite Hp. split_and!; try done. rewrite status_of, wrap64_bit by (unfold bit_sie; lia). rewrite !put_bit_bit by done. done.
Qed.

(** C11: An interrupt in the kernel is transparent.  kernelvec saves what kerneltrap may
    change below the stack, calls it, and when it has returned, perhaps on another hart,
    resumes the interrupted code where it was, in supervisor mode, with the interrupts
    as they were and with every register as it was but tp, which names the hart. *)
Theorem kernel_interrupt_transparent {hw : hardware} text kt va pa len pf code n tval h0 h (fva := x_of h0 sp - frame_size) :
  hart_ok h0 -> mode_of h0 = Supervisor -> trap_to_s true n tval h0 = Some h -> map fst code = kernelvec kt -> at_code text va pa len pf (pf + frame_size) code h ->
  frame_size <= x_of h0 sp -> x_of h0 sp mod 8 = 0 -> view h Write fva pf frame_size pf (pf + frame_size) ->
  exists h1, steps text 20 h = Some h1 /\ pc_of h1 = wrap64 kt /\ x_of h1 sp = fva /\ outside pf (pf + frame_size) (mem_of h0) (mem_of h1) /\ same_map h h1
  /\ forall h2 intr claim complete idle hy s s', returns (kerneltrap intr claim complete idle (hart_of h1) hy s) (hart_of h2) s' -> c_returns va pa len fva pf h1 h2 ->
     exists h3, steps text 19 h2 = Some h3 /\ pc_of h3 = pc_of h0 /\ mode_of h3 = Supervisor /\ Z.testbit (csrs h3 Mstatus) bit_sie = Z.testbit (csrs h0 Mstatus) bit_sie
     /\ (forall r, r <> tp -> x_of h3 r = x_of h0 r) /\ x_of h3 tp = x_of h2 tp /\ mem_of h3 = mem_of h2.
Proof.
  intros W Hm Ht Hc A Hsp Hal V. destruct (trap_in_kernel _ _ _ _ _ W Hm Ht) as (X & Q & Hmh & Es & B1 & B2). pose proof (trap_ok _ _ _ _ _ W Ht) as Wh.
  destruct (kernelvec_in text kt va pa len pf code h Wh Hc A) as (h1 & rest & E1 & P1 & S1 & X1 & M1 & L1 & O1 & Hr & Hat); [by rewrite X..|]. rewrite X in S1, X1, L1. fold fva in S1. rewrite Q in O1.
  exists h1. split_and!; [done..|]. intros h2 intr claim complete idle hy s s' Hk [W2 Hm2 Hpc Hcs Hfr Vf Vr]. destruct (kerneltrap_restores _ _ _ _ _ _ _ _ _ Hk) as [Ke Ks]. change (r_sepc h2 = r_sepc h1) in Ke. change (r_sstatus h2 = r_sstatus h1) in Ks.
  assert (x_of h2 sp = fva) as S2 by (rewrite Hcs by compute_in; done). pose proof (ho_x _ W sp) as [_ Wsp]. unfold fva, frame_size in *.
  destruct (kernelvec_out text va pa len pf rest h2 (x_of h0) Hr (Hat h2 Hpc Vf) Hm2) as (h3 & E3 & X3 & S3 & K3 & Q3 & (g & Eg & Pg & Mg & Cg)).
  { lia. } { unfold frame_size. lia. } { rewrite S2, Zminus_mod, Hal. done. } { by rewrite S2. }
  { intros r o Hin. rewrite <- (L1 r o (kv_restored_saved r o Hin)). apply load64_agree. intros a Ha. apply Hfr. pose proof (proj1 (Forall_forall _ _) kv_restored_ok (r, o) Hin) as Ho. unfold frame_size in *. cbn in Ho. lia. }
  destruct M1 as [M1 M1']. assert (forall i, 0 <= i < 64 -> Z.testbit sstatus_bits i = true -> Z.testbit (csrs h2 Mstatus) i = Z.testbit (csrs h Mstatus) i) as Hb.
  { intros i H1 H2. rewrite <- (status_bit h2) by done. rewrite Ks, (status_bit h1) by done. by rewrite M1'. }
  destruct (sret_to h2 g Eg) as (G1 & G2 & G3); [by rewrite Hb|]. exists h3. split_and!; [done|..|done].
  - rewrite Pg, G1, Ke. unfold r_sepc, csr_read in *. rewrite M1', Es. apply wrap64_small, W.
  - by rewrite Mg, G2.
  - rewrite Cg, G3, Hb by done. done.
  - intros r Hrt. destruct (decide (r = zero)) as [->|Hz]. { rewrite (ho_zero _ W). apply (ho_zero h3). by apply (steps_ok text 19 h2). }
    destruct (decide (r = sp)) as [->|Hs]; [rewrite S3, S2; unfold frame_size; lia|]. destruct (kv_regs r Hz Hrt) as [Hr'|[o Ho]]; [|by eapply X3].
    rewrite K3; [|destruct r; compute_in || (exfalso; not_listed Hr')|done].
    rewrite Hcs by done. apply X1; [done|]. intros ->. not_listed Hr'.
  - apply K3; [compute_in|done].
Qed.

(** kerneltrap on an external interrupt that no device has raised. *)
Lemma kerneltrap_spurious intr complete idle h s : Trap.r_scause h = scause_external -> Trap.r_sstatus h = SSTATUS_SPP + SSTATUS_SPIE -> kerneltrap intr (ret 0) complete idle h h s = Ret h s.
Proof.
  intros E1 E2. unfold kerneltrap, hart_intr_get, devintr. rewrite E1, E2. rewrite Z.eqb_refl.
  change (negb (has (SSTATUS_SPP + SSTATUS_SPIE) SSTATUS_SPP)) with false. change (has (SSTATUS_SPP + SSTATUS_SPIE) SSTATUS_SIE) with false. cbn. destruct h. cbn in E2. by rewrite E2.
Qed.

(** A hart at [pc] with its stack at 0x80020000 takes an external interrupt that no
    device has raised. *)
Definition demo_kv : Z -> option (instr * Z) := words_at 0x80000000 (kernelvec 0x80005000).
Definition kv_csrs (c : csr) : Z := match c with Stvec => 0x80000000 | _ => bare_csrs c end.
Definition kv_hart : machine := mkMachine (fun r => match r with zero => 0 | sp => 0x80020000 | a5 => 77 | _ => 3 end) 0x80007000 Supervisor kv_csrs ∅.

Lemma kernel_interrupt_transparent_witness : exists h h1 h3, trap_to_s true 9 0 kv_hart = Some h /\ steps (hw := all_bits) demo_kv 20 h = Some h1
  /\ steps (hw := all_bits) demo_kv 19 (set_pc (x_of h1 ra) h1) = Some h3 /\ pc_of h3 = 0x80007000 /\ x_of h3 a5 = 77.
Proof.
  destruct (trap_to_s true 9 0 kv_hart) as [h|] eqn:Et; [|discriminate].
  assert (hart_ok kv_hart) as W by (constructor; [done|by intros []|done|by intros []]). apply (inj Some) in Et as Eh.
  assert (csrs h Satp = 0 /\ pmp_open h /\ r_sstatus h = 0x120 /\ r_scause h = scause_external) as (C1 & C2 & C3 & C4) by (rewrite <- Eh; vm_compute; done).
  assert (pc_of h = 0x80000000) as Epc by (by rewrite <- Eh).
  assert (at_code demo_kv 0x80000000 0x80000000 (4 * Z.of_nat (length (kernelvec 0x80005000))) 0x8001ff00 (0x8001ff00 + frame_size) (words (kernelvec 0x80005000)) h) as A by (by apply words_at_code).
  destruct (kernel_interrupt_transparent (hw := all_bits) demo_kv 0x80005000 0x80000000 0x80000000 (4 * Z.of_nat (length (kernelvec 0x80005000))) 0x8001ff00 _ 9 0 kv_hart h W eq_refl Et (words_map _) A) as (h1 & E1 & P1 & S1 & O1 & M1 & H);
    [by vm_compute|by vm_compute|by apply bare_view|].
  pose proof M1 as [Mm Mc]. pose proof (steps_ok (hw := all_bits) demo_kv 20 h h1 (trap_ok _ _ _ _ _ W Et) E1) as W1. set (h2 := set_pc (x_of h1 ra) h1).
  assert (csrs h1 Satp = 0 /\ pmp_open h1) as [D1 D2] by (unfold pmp_open; rewrite Mc; exact (conj C1 C2)).
  assert (Trap.r_scause (hart_of h1) = scause_external /\ Trap.r_sstatus (hart_of h1) = SSTATUS_SPP + SSTATUS_SPIE) as [K1 K2].
  { unfold hart_of, r_scause, r_sstatus, csr_read in *. cbn [Trap.r_scause Trap.r_sstatus]. rewrite Mc. exact (conj C4 C3). }
  pose proof (kerneltrap_spurious skip (fun _ => skip) true (hart_of h1) (kernel0 (mkSymbols 0 0 0 0 0 0)) K1 K2) as Ek.
  destruct (H h2 skip (ret 0) (fun _ => skip) true (hart_of h1) (kernel0 (mkSymbols 0 0 0 0 0 0)) (kernel0 (mkSymbols 0 0 0 0 0 0))) as (h3 & E3 & P3 & _ & _ & X3 & _).
  - rewrite Ek. apply returns_now.
  - clear E1 H. constructor; [by apply set_pc_ok|by rewrite <- Eh in Mm|apply wrap64_small, W1|done|done|by apply bare_view|by apply bare_view].
  - exists h, h1, h3. exact (conj eq_refl (conj E1 (conj E3 (conj P3 (X3 a5 ltac:(discriminate)))))).
Defined.
