(* ===== verification/Trampoline.v ===== *)
(** * Traps from user space: trampoline.S and the return of trap.c

    The code of trampoline.S runs in a page that the user's and the kernel's page
    table map at the same address, so it goes on when it changes satp; it saves the
    registers of the user in the trapframe and takes them back from there. *)
From S2P Require Import Prelude State CString Kalloc Vm PageTable Sched Proc Trap Riscv RiscvSpec Mmu Asm.
Import Reg.

Open Scope Z_scope.

(** Where [struct trapframe] keeps the registers of the user. *)
Definition tf_slots : slots :=
  [(ra, 40); (sp, 48); (gp, 56); (tp, 64); (t0, 72); (t1, 80); (t2, 88); (s0, 96); (s1, 104); (a0, 112); (a1, 120); (a2, 128); (a3, 136); (a4, 144); (a5, 152); (a6, 160); (a7, 168);
   (s2, 176); (s3, 184); (s4, 192); (s5, 200); (s6, 208); (s7, 216); (s8, 224); (s9, 232); (s10, 240); (s11, 248); (t3, 256); (t4, 264); (t5, 272); (t6, 280)].
(** All but a0, in the order of the file. *)
Definition uv_slots : slots := filter (fun p => fst p <> a0) tf_slots.
Definition uv_kernel : slots := [(sp, 8); (tp, 32); (t0, 16); (t1, 0)].

Lemma uv_slots_ok : slots_ok PGSIZE uv_slots.
Proof. compute_in. Qed.
Lemma uv_kernel_ok : slots_ok PGSIZE uv_kernel.
Proof. compute_in. Qed.
Lemma uv_slots_within base : Forall (fun p => base + 40 <= base + snd p /\ base + snd p + 8 <= base + 288) uv_slots.
Proof. assert (Forall (fun p : reg * Z => 40 <= snd p /\ snd p + 8 <= 288) uv_slots) as H by compute_in. eapply Forall_impl; [exact H|]. cbn. lia. Qed.
Lemma uv_offs : NoDup (map snd uv_slots).
Proof. compute_in. Qed.
Lemma uv_regs : NoDup (map fst uv_slots).
Proof. compute_in. Qed.
Lemma tf_in r o : (r, o) ∈ tf_slots -> r = a0 /\ o = 112 \/ (r, o) ∈ uv_slots.
Proof. intros H. destruct (decide (r = a0)) as [->|Hr]; [left|right; by apply list_elem_of_filter]. split; [done|]. repeat (apply elem_of_cons in H as [H|H]; [by injection H|]). by apply not_elem_of_nil in H. Qed.
Lemma uv_offset r o : (r, o) ∈ uv_slots -> 40 <= o /\ o + 8 <= 288 /\ (o + 8 <= 112 \/ 120 <= o).
Proof. intros H. assert (Forall (fun p : reg * Z => 40 <= snd p /\ snd p + 8 <= 288 /\ (snd p + 8 <= 112 \/ 120 <= snd p)) uv_slots) as F by compute_in. apply (proj1 (Forall_forall _ _) F (r, o) H). Qed.
Lemma tf_all r : r <> zero -> exists o, (r, o) ∈ tf_slots.
Proof. intros H. destruct r; try done; (eexists; unfold tf_slots; repeat (apply elem_of_cons; (left; reflexivity) || right)). Qed.

(** What the code needs of the hardware: the registers it writes keep what is written. *)
Record hw_ok {hw : hardware} : Prop := {
  hw_scratch : forall v, is_u64 v -> Z.land v (writable Sscratch) = v;
  hw_satp : forall root, root_ok root -> Z.land (MAKE_SATP root) (writable Satp) = MAKE_SATP root }.

Section Trampoline.
Context {hw : hardware} (HW : hw_ok) (text : Z -> option (instr * Z)).
(** The offset of uservec in its page, the physical pages of the trampoline and of the
    trapframe, the page tables of the user and of the kernel, the code. *)
Context (uoff tramp tf uroot kroot : Z) (ucode rcode : list (instr * Z)).

Record tramp_ok : Prop := {
  tk_ucode : map fst ucode = uservec;
  tk_rcode : map fst rcode = userret;
  tk_sizes : sizes_ok (ucode ++ rcode);
  tk_align : uoff mod 4 = 0;
  tk_room : 0 <= uoff /\ uoff + code_size (ucode ++ rcode) <= PGSIZE;
  tk_placed : placed text (tramp + uoff) (ucode ++ rcode);
  tk_uroot : root_ok uroot;
  tk_kroot : root_ok kroot;
  tk_tramp : 0 <= tramp /\ tramp + PGSIZE <= PHYSTOP;
  tk_tf : 0 <= tf /\ tf + PGSIZE <= PHYSTOP }.
Context (T : tramp_ok).

(** The page tables map the trampoline, and the user's maps the trapframe; their entries
    are not in the trapframe. *)
Record tramp_maps (m : gmap Z Z) : Prop := {
  tm_user : page_map m uroot TRAMPOLINE tramp [PTE_X] tf (tf + PGSIZE);
  tm_frame : page_map m uroot TRAPFRAME tf [PTE_R; PTE_W] tf (tf + PGSIZE);
  tm_kernel : page_map m kroot TRAMPOLINE tramp [PTE_X] tf (tf + PGSIZE) }.

Lemma tramp_maps_outside m m' : outside tf (tf + PGSIZE) m m' -> tramp_maps m -> tramp_maps m'.
Proof. intros O [H1 H2 H3]. constructor; by eapply page_map_outside. Qed.

Notation hi := (tf + PGSIZE).
Let len : Z := uoff + code_size (ucode ++ rcode).
Notation at_ := (at_code text TRAMPOLINE tramp len tf hi).
Notation sees h acc := (view h acc TRAPFRAME tf PGSIZE tf hi).

Lemma tramp_va : 0 <= TRAMPOLINE < MAXVA /\ TRAMPOLINE mod PGSIZE = 0 /\ 0 <= TRAPFRAME < MAXVA /\ TRAPFRAME mod PGSIZE = 0 /\ TRAMPOLINE + PGSIZE < 2 ^ 64 /\ TRAPFRAME + PGSIZE <= 2 ^ 64 /\ TRAPFRAME mod 8 = 0.
Proof. vm_compute. split_and!; done. Qed.

(** The hart in supervisor mode with one of the two tables. *)
Record in_super (root : Z) (h : machine) : Prop := {
  is_mode : mode_of h = Supervisor;
  is_satp : csrs h Satp = MAKE_SATP root;
  is_pmp : pmp_open h;
  is_maps : tramp_maps (mem_of h) }.

Lemma super_code root h : root = uroot \/ root = kroot -> in_super root h -> view h Fetch TRAMPOLINE tramp len tf hi.
Proof.
  intros Hr H. pose proof T as [_ _ _ _ [_ L] _ _ _ _ _]. enough (view h Fetch TRAMPOLINE tramp PGSIZE tf hi) as V by (intros m' O k Hk; apply V; [done|unfold len in *; lia]). revert Hr H. clear L.
  intros Hr [H1 H2 H3 [M1 M2 M3]]. destruct tramp_va as (V1 & V2 & _). destruct T as [_ _ _ _ _ _ R1 R2 [P1 P2] _].
  destruct Hr as [->| ->]; eapply page_view; try done; by apply list_elem_of_singleton.
Qed.

Lemma super_frame h acc : in_super uroot h -> acc <> Fetch -> sees h acc.
Proof.
  intros [H1 H2 H3 [M1 M2 M3]] Ha. destruct tramp_va as (_ & _ & V1 & V2 & _). destruct T as [_ _ _ _ _ _ R1 R2 _ [P1 P2]].
  eapply page_view; try done. destruct acc; [by left|by right; left|done].
Qed.

(** A step that keeps the tables. *)
Lemma super_same root h h' : same_map h h' -> outside tf hi (mem_of h) (mem_of h') -> in_super root h -> in_super root h'.
Proof. intros [E1 E2] O [H1 H2 H3 H4]. constructor; [by rewrite E1|by rewrite E2|unfold pmp_open; by rewrite E2|by eapply tramp_maps_outside]. Qed.

(** A write of another control register. *)
Lemma super_csr root c v pc h : c = Sscratch -> in_super root h -> in_super root (set_pc pc (csr_write c v h)).
Proof. intros -> [H1 H2 [H3 H4] H5]. by constructor. Qed.

Lemma super_satp root root' pc h : root_ok root' -> in_super root h -> in_super root' (set_pc pc (csr_write Satp (MAKE_SATP root') h)).
Proof.
  intros Hr [H1 H2 [H3 H4] H5]. constructor; try done. cbn. rewrite (hw_satp HW) by done. apply wrap64_small. by destruct (make_satp_fields root' Hr) as (_ & _ & ?).
Qed.

(** From the table after a write of satp or sscratch. *)
Lemma resume_super root i n code h h1 : at_ ((i, n) :: code) h -> root = uroot \/ root = kroot -> in_super root h1 -> pc_of h1 = wrap64 (pc_of h + n) -> at_ code h1.
Proof. intros A Hr H E. eapply code_resume; [exact A|by eapply super_code|done]. Qed.

Definition uv_rest : list instr := map (fun p => Ld (fst p) (snd p) a0) uv_kernel ++ [Sfence_vma; Csrw Satp t1; Sfence_vma; Jalr t0].

Lemma uservec_start h : in_super uroot h -> pc_of h = TRAMPOLINE + uoff -> at_ (ucode ++ rcode) h.
Proof.
  intros H Hpc. destruct tramp_va as (V1 & _ & _ & _ & V2 & _). destruct T as [_ _ S _ [R1 R2] P _ _ _ _]. constructor; [unfold len; lia|by eapply super_code; [left|]|done|]. exists uoff. by rewrite Hpc.
Qed.

(** The registers of the user go into the trapframe. *)
Lemma uservec_saves h : hart_ok h -> in_super uroot h -> pc_of h = TRAMPOLINE + uoff ->
  exists h1 rest, steps text 34 h = Some h1 /\ map fst rest = uv_rest /\ at_ (rest ++ rcode) h1 /\ in_super uroot h1 /\ x_of h1 a0 = TRAPFRAME
  /\ (forall r o, (r, o) ∈ tf_slots -> load64 (mem_of h1) (tf + o) = x_of h r) /\ outside (tf + 40) (tf + 288) (mem_of h) (mem_of h1) /\ (forall c, c <> Sscratch -> csrs h1 c = csrs h c).
Proof.
  intros W Hs Hpc. pose proof (uservec_start h Hs Hpc) as A. destruct tramp_va as (_ & _ & V3 & _ & _ & V4 & V5). pose proof (tk_ucode T) as Hc.
  destruct ucode as [|[i1 n1] [|[i2 n2] c]] eqn:Eu in A, Hc; [done..|]. cbn [map fst] in Hc. injection Hc as -> -> Hc.
  change (map fst c = map (fun p => Sd (fst p) (snd p) a0) uv_slots ++ Csrr t0 Sscratch :: Sd t0 112 a0 :: uv_rest) in Hc. apply split_code in Hc as (c1 & c2 & -> & Hc1 & Hc2).
  destruct c2 as [|[i3 n3] [|[i4 n4] rest]]; [done..|]. cbn [map fst] in Hc2. injection Hc2 as -> -> Hc2.
  cbn [app] in A. rewrite <- app_assoc in A. cbn [app] in A.
  set (h1 := set_pc (pc_of h + n1) (csr_write Sscratch (x_of h a0) h)). assert (exec (Csrw Sscratch a0) n1 h = Some h1) as E1 by (cbn [exec]; unfold csr_ok; by rewrite (is_mode _ _ Hs)).
  pose proof (super_csr uroot Sscratch (x_of h a0) (pc_of h + n1) h eq_refl Hs : in_super uroot h1) as S1. pose proof (resume_super _ _ _ _ _ _ A (or_introl eq_refl) S1 eq_refl) as A1.
  set (h2 := set_pc (pc_of h1 + n2) (set_x a0 TRAPFRAME h1)). destruct (plain_run text _ _ _ _ _ _ n2 _ h1 h2 A1 eq_refl) as [E2 A2]; [done..|].
  pose proof (super_same uroot h1 h2 (conj eq_refl eq_refl) (outside_refl _ _ _) S1) as S2.
  destruct (saves_run text TRAMPOLINE tramp len tf hi TRAPFRAME tf PGSIZE ltac:(lia) a0 uv_slots c1 _ h2 ltac:(lia) ltac:(lia) A2 Hc1) as (h3 & E3 & A3 & M3 & X3 & Q3); [by apply super_frame|done|apply uv_slots_ok|].
  pose proof (save_all_within (tf + 40) (tf + 288) (mem_of h) tf (x_of h2) uv_slots (uv_slots_within tf)) as O3. change (mem_of h2) with (mem_of h) in Q3. rewrite <- Q3 in O3.
  pose proof (super_same uroot h2 h3 M3 (outside_mono (tf + 40) (tf + 288) tf hi _ _ ltac:(lia) ltac:(unfold PGSIZE; lia) O3) S2) as S3.
  set (h4 := set_pc (pc_of h3 + n3) (set_x t0 (csr_read Sscratch h3) h3)). assert (exec (Csrr t0 Sscratch) n3 h3 = Some h4) as E4 by (cbn [exec]; unfold csr_ok; by rewrite (is_mode _ _ S3)).
  destruct (plain_run text _ _ _ _ _ _ n3 _ h3 h4 A3 E4) as [E4' A4]; [done..|]. pose proof (super_same uroot h3 h4 (conj eq_refl eq_refl) (outside_refl _ _ _) S3) as S4.
  assert (x_of h4 t0 = x_of h a0) as X4. { cbn. rewrite (proj2 M3). cbn. rewrite (hw_scratch HW) by apply W. rewrite !wrap64_small; [done|apply W|apply wrap64_range]. }
  destruct (sd_run text TRAMPOLINE tramp len tf hi TRAPFRAME tf PGSIZE ltac:(lia) t0 112 a0 n4 _ h4 ltac:(lia) ltac:(lia) A4) as (h5 & E5 & A5 & M5 & X5 & Q5); [by apply super_frame|by cbn; rewrite X3|done..|].
  rewrite X4 in Q5. change (mem_of h4) with (mem_of h3) in Q5. pose proof (outside_store (tf + 40) (tf + 288) (mem_of h3) (tf + 112) (x_of h a0) ltac:(lia) ltac:(lia)) as O5. rewrite <- Q5 in O5.
  exists h5, rest. split_and!.
  - apply (steps_add text 1 33 h h1); [by eapply code_step|]. apply (steps_add text 1 32 h1 h2 _ E2). apply (steps_add text 30 2 h2 h3 _ E3). apply (steps_add text 1 1 h3 h4 _ E4' E5).
  - done.
  - done.
  - eapply super_same; [exact M5| |exact S4]. eapply outside_mono; [| |exact O5]; unfold PGSIZE; lia.
  - rewrite X5. cbn. rewrite X3. done.
  - intros r o Hin. rewrite Q5. destruct (tf_in r o Hin) as [[-> ->]|Hu]; [by apply load64_store64_eq, W|]. destruct (uv_offset r o Hu) as (U1 & U2 & U3). rewrite load64_store64_ne by lia.
    rewrite Q3, (save_all_eq _ _ _ _ _ _ _ uv_slots_ok uv_offs Hu); [|apply set_pc_ok, set_x_ok, set_pc_ok, csr_write_ok, W].
    cbn. rewrite decide_False; [done|]. apply list_elem_of_filter in Hu as [Hu _]. done.
  - eapply outside_trans; [exact O3|exact O5].
  - intros c Hcs. rewrite (proj2 M5). change (csrs h4) with (csrs h3). rewrite (proj2 M3). cbn. by rewrite decide_False.
Qed.

Lemma sfence_run root n code h : root = uroot \/ root = kroot -> in_super root h -> at_ ((Sfence_vma, n) :: code) h ->
  let h1 := set_pc (pc_of h + n) h in steps text 1 h = Some h1 /\ at_ code h1 /\ in_super root h1.
Proof.
  intros Hr H A h1. assert (exec Sfence_vma n h = Some h1) as E by (cbn [exec]; by rewrite (is_mode _ _ H)). destruct (plain_run text _ _ _ _ _ _ n _ h h1 A E) as [E' A1]; [done..|].
  split_and!; [done..|]. apply (super_same root h h1); [done|apply outside_refl|done].
Qed.

(** Changing satp between the tables: the next instruction is at the same place. *)
Lemma satp_run root root' n r code h : root = uroot \/ root = kroot -> root' = uroot \/ root' = kroot -> in_super root h -> x_of h r = MAKE_SATP root' -> at_ ((Csrw Satp r, n) :: code) h ->
  let h1 := set_pc (pc_of h + n) (csr_write Satp (MAKE_SATP root') h) in steps text 1 h = Some h1 /\ at_ code h1 /\ in_super root' h1.
Proof.
  intros Hr Hr' H Hx A h1. assert (exec (Csrw Satp r) n h = Some h1) as E by (cbn [exec]; unfold csr_ok; by rewrite (is_mode _ _ H), Hx).
  assert (in_super root' h1) as H1 by (eapply super_satp; [destruct Hr' as [->| ->]; apply T|done]). split_and!; [by eapply code_step|by eapply resume_super|done].
Qed.

(** To usertrap, on the kernel's stack with the kernel's table. *)
Lemma uservec_run h : hart_ok h -> in_super uroot h -> pc_of h = TRAMPOLINE + uoff -> load64 (mem_of h) tf = MAKE_SATP kroot ->
  exists h1, steps text 42 h = Some h1 /\ in_super kroot h1 /\ pc_of h1 = Z.clearbit (load64 (mem_of h) (tf + TF_KERNEL_TRAP)) 0 /\ x_of h1 sp = load64 (mem_of h) (tf + TF_KERNEL_SP)
  /\ x_of h1 tp = load64 (mem_of h) (tf + TF_KERNEL_HARTID) /\ x_of h1 ra = TRAMPOLINE + uoff + code_size ucode
  /\ (forall r o, (r, o) ∈ tf_slots -> load64 (mem_of h1) (tf + o) = x_of h r) /\ outside (tf + 40) (tf + 288) (mem_of h) (mem_of h1)
  /\ (forall c, c <> Sscratch -> c <> Satp -> csrs h1 c = csrs h c).
Proof.
  intros W Hs Hpc Hk. destruct (uservec_saves h W Hs Hpc) as (h1 & rest & E1 & Hc & A1 & S1 & X1 & L1 & O1 & C1). destruct tramp_va as (V0 & _ & V3 & _ & V2 & V4 & V5).
  unfold uv_rest in Hc. apply split_code in Hc as (c1 & c2 & -> & Hc1 & Hc2). destruct c2 as [|[i1 n1] [|[i2 n2] [|[i3 n3] [|[i4 n4] [|]]]]]; [done..| |done]. injection Hc2 as -> -> -> ->.
  rewrite <- app_assoc in A1. cbn [app] in A1.
  destruct (loads_run text TRAMPOLINE tramp len tf hi TRAPFRAME tf PGSIZE ltac:(lia) a0 uv_kernel c1 _ h1 A1 Hc1) as (h2 & E2 & A2 & M2 & Q2 & X2); [by apply super_frame|done|apply uv_kernel_ok|compute_in|compute_in|].
  pose proof (super_same uroot h1 h2 M2 ltac:(rewrite Q2; apply outside_refl) S1) as S2.
  assert (forall o, 0 <= o -> o + 8 <= 40 -> load64 (mem_of h1) (tf + o) = load64 (mem_of h) (tf + o)) as K by (intros o H1 H2; apply (outside_load64 _ _ _ _ _ O1); lia).
  assert (forall r o, (r, o) ∈ uv_kernel -> x_of h2 r = load64 (mem_of h) (tf + o)) as Y.
  { intros r o Hin. rewrite X2, (load_all_eq _ _ _ _ r o) by (done || compute_in). assert (Forall (fun p : reg * Z => 0 <= snd p /\ snd p + 8 <= 40) uv_kernel) as F by compute_in. destruct (proj1 (Forall_forall _ _) F (r, o) Hin) as [F1 F2]. by apply K. }
  assert (x_of h2 t1 = MAKE_SATP kroot) as Yt1. { rewrite (Y t1 0) by compute_in. by rewrite Z.add_0_r. }
  destruct (sfence_run uroot n1 _ h2 (or_introl eq_refl) S2 A2) as (E3 & A3 & S3). set (h3 := set_pc (pc_of h2 + n1) h2) in *.
  destruct (satp_run uroot kroot n2 t1 _ _ (or_introl eq_refl) (or_intror eq_refl) S3 Yt1 A3) as (E4 & A4 & S4). set (h4 := set_pc (pc_of h3 + n2) (csr_write Satp (MAKE_SATP kroot) h3)) in *.
  destruct (sfence_run kroot n3 _ _ (or_intror eq_refl) S4 A4) as (E5 & A5 & S5). set (h5 := set_pc (pc_of h4 + n3) h4) in *.
  set (h6 := set_pc (Z.clearbit (x_of h5 t0) 0) (set_x ra (pc_of h5 + n4) h5)). assert (exec (Jalr t0) n4 h5 = Some h6) as E6 by done. exists h6.
  assert (x_of h5 = x_of h2 /\ mem_of h5 = mem_of h2) as [X5 Q5] by done. split_and!.
  - apply (steps_add text 34 8 h h1 _ E1). apply (steps_add text 4 4 h1 h2 _ E2). eapply (steps_add text 1 3); [exact E3|]. eapply (steps_add text 1 2); [exact E4|]. eapply (steps_add text 1 1); [exact E5|]. eapply code_step; [exact A5|exact E6].
  - apply (super_same kroot h5 h6); [done|apply outside_refl|done].
  - unfold h6. cbn [set_pc pc_of]. rewrite X5, (Y t0 16) by compute_in. apply wrap64_small, clearbit0_word, load64_range.
  - transitivity (x_of h2 sp); [done|]. apply Y. compute_in.
  - transitivity (x_of h2 tp); [done|]. apply Y. compute_in.
  - change (x_of h6 ra) with (wrap64 (pc_of h5 + n4)). pose proof (at_pc _ _ _ _ _ _ _ _ A5) as P5. pose proof (ac_sizes _ _ _ _ _ _ _ _ A5) as Z5. inversion_clear Z5 as [|? ? Hn Z5']. pose proof (code_size_nonneg _ Z5') as Z6. cbn [snd] in Hn.
    cbn [code_size foldr snd] in P5. fold (code_size rcode) in P5. pose proof (tk_room T) as [Hr1 Hr2]. pose proof (tk_sizes T) as Hz. apply Forall_app in Hz as [Hz _]. pose proof (code_size_nonneg _ Hz).
    unfold len in P5. rewrite code_size_app in *. replace (pc_of h5 + n4) with (TRAMPOLINE + uoff + code_size ucode) by lia. apply wrap64_small. lia.
  - intros r o Hin. change (mem_of h6) with (mem_of h2). rewrite Q2. by apply L1.
  - change (mem_of h6) with (mem_of h2). by rewrite Q2.
  - intros c Hc3 Hc4. change (csrs h6 c) with (csrs (csr_write Satp (MAKE_SATP kroot) h2) c). cbn. rewrite decide_False by done. rewrite (proj2 M2). by apply C1.
Qed.

Lemma userret_start h : in_super kroot h -> pc_of h = TRAMPOLINE + uoff + code_size ucode -> at_ rcode h.
Proof.
  intros H Hpc. destruct tramp_va as (V1 & _ & _ & _ & V2 & _). destruct T as [_ _ Z _ [R1 R2] P _ _ _ _]. apply Forall_app in Z as [Z1 Z2]. pose proof (code_size_nonneg _ Z1). rewrite code_size_app in *.
  constructor; [unfold len; rewrite code_size_app; lia|by eapply super_code; [right|]|done|]. exists (uoff + code_size ucode). rewrite placed_app in P. unfold len. rewrite code_size_app. split_and!; [lia..|]. rewrite Z.add_assoc. apply P.
Qed.

(** sret does with the registers what it does in another state with the same mstatus and sepc. *)
Lemma sret_like h h' g : sret h = Some g -> mode_of h' = mode_of h -> csrs h' Mstatus = csrs h Mstatus -> csrs h' Sepc = csrs h Sepc ->
  exists g', sret h' = Some g' /\ pc_of g' = pc_of g /\ mode_of g' = mode_of g /\ csrs g' Mstatus = csrs g Mstatus /\ x_of g' = x_of h' /\ mem_of g' = mem_of h' /\ (forall c, c <> Mstatus -> csrs g' c = csrs h' c).
Proof.
  unfold sret. intros E -> E1 E2. rewrite E1, E2. destruct (bool_decide _); [done|]. apply (inj Some) in E as <-. eexists. split; [reflexivity|]. split_and!; try done. intros c Hc. cbn. by rewrite decide_False.
Qed.

(** Back to the user, with the registers of the trapframe. *)
Lemma userret_run h : in_super kroot h -> pc_of h = TRAMPOLINE + uoff + code_size ucode -> x_of h a0 = MAKE_SATP uroot ->
  exists h1 g, steps text 36 h = Some h1 /\ sret h = Some g /\ pc_of h1 = pc_of g /\ mode_of h1 = mode_of g /\ csrs h1 Mstatus = csrs g Mstatus
  /\ (forall r o, (r, o) ∈ tf_slots -> x_of h1 r = load64 (mem_of h) (tf + o)) /\ x_of h1 zero = x_of h zero /\ mem_of h1 = mem_of h
  /\ csrs h1 Satp = MAKE_SATP uroot /\ (forall c, c <> Satp -> c <> Mstatus -> csrs h1 c = csrs h c).
Proof.
  intros Hs Hpc Ha0. pose proof (userret_start h Hs Hpc) as A. destruct tramp_va as (_ & _ & V3 & _ & _ & V4 & V5). pose proof (tk_rcode T) as Hc.
  destruct rcode as [|[i1 n1] [|[i2 n2] [|[i3 n3] [|[i4 n4] c]]]] eqn:Er in A, Hc; [done..|]. cbn [map fst] in Hc. injection Hc as -> -> -> -> Hc.
  change (map fst c = map (fun p => Ld (fst p) (snd p) a0) uv_slots ++ [Ld a0 112 a0; Sret]) in Hc. apply split_code in Hc as (c1 & c2 & -> & Hc1 & Hc2). destruct c2 as [|[i5 n5] [|[i6 n6] [|]]]; [done..| |done]. injection Hc2 as -> ->.
  destruct (sfence_run kroot n1 _ h (or_intror eq_refl) Hs A) as (E1 & A1 & S1). set (h1 := set_pc (pc_of h + n1) h) in *.
  destruct (satp_run kroot uroot n2 a0 _ _ (or_intror eq_refl) (or_introl eq_refl) S1 Ha0 A1) as (E2 & A2 & S2). set (h2 := set_pc (pc_of h1 + n2) (csr_write Satp (MAKE_SATP uroot) h1)) in *.
  destruct (sfence_run uroot n3 _ h2 (or_introl eq_refl) S2 A2) as (E3 & A3 & S3). set (h3 := set_pc (pc_of h2 + n3) h2) in *.
  set (h4 := set_pc (pc_of h3 + n4) (set_x a0 TRAPFRAME h3)). destruct (plain_run text _ _ _ _ _ _ n4 _ h3 h4 A3 eq_refl) as [E4 A4]; [done..|].
  pose proof (super_same uroot h3 h4 (conj eq_refl eq_refl) (outside_refl _ _ _) S3) as S4.
  destruct (loads_run text TRAMPOLINE tramp len tf hi TRAPFRAME tf PGSIZE ltac:(lia) a0 uv_slots c1 _ h4 A4 Hc1) as (h5 & E5 & A5 & M5 & Q5 & X5); [by apply super_frame|done|apply uv_slots_ok|compute_in|compute_in|].
  pose proof (super_same uroot h4 h5 M5 ltac:(rewrite Q5; apply outside_refl) S4) as S5. change (mem_of h4) with (mem_of h) in Q5, X5.
  destruct (ld_run text TRAMPOLINE tramp len tf hi TRAPFRAME tf PGSIZE ltac:(lia) a0 112 a0 n5 _ h5 A5) as (h6 & E6 & A6 & M6 & Q6 & X6); [by apply super_frame|by rewrite X5, load_all_ne by compute_in|done..|]. rewrite Q5 in Q6, X6.
  assert (exists g, sret h = Some g) as [g Eg]. { unfold sret. rewrite (is_mode _ _ Hs). cbn. eauto. }
  assert (forall c, csrs h6 c = csrs h2 c) as C6 by (intros q; rewrite (proj2 M6), (proj2 M5); done).
  destruct (sret_like h h6 g Eg) as (h7 & E7 & G1 & G2 & G3 & G4 & G5 & G6); [by rewrite (proj1 M6), (proj1 M5)|by rewrite C6..|].
  exists h7, g. split_and!; try done.
  - eapply (steps_add text 1 35); [exact E1|]. eapply (steps_add text 1 34); [exact E2|]. eapply (steps_add text 1 33); [exact E3|]. eapply (steps_add text 1 32); [exact E4|].
    eapply (steps_add text 30 2); [exact E5|]. eapply (steps_add text 1 1); [exact E6|]. eapply code_step; [exact A6|exact E7].
  - intros r o Hin. rewrite G4, X6. destruct (tf_in r o Hin) as [[-> ->]|Hu]; [by rewrite decide_True|]. pose proof (proj1 (proj1 (list_elem_of_filter _ _ _) Hu)) as Hr. cbn in Hr. rewrite decide_False by done.
    by rewrite X5, (load_all_eq _ _ _ _ _ _ uv_regs Hu).
  - rewrite G4, X6. rewrite decide_False by done. by rewrite X5, load_all_ne by compute_in.
  - by rewrite G5, Q6.
  - rewrite G6 by done. rewrite C6. apply (is_satp _ _ S2).
  - intros q H1 H2. rewrite G6 by done. rewrite C6. cbn. by rewrite decide_False.
Qed.
End Trampoline.

(** ** prepare_return *)
Definition kernel_words (m : gmap Z Z) (tf satp ksp ktrap hartid : Z) : gmap Z Z :=
  store64 (store64 (store64 (store64 m (tf + TF_KERNEL_SATP) (wrap64 satp)) (tf + TF_KERNEL_SP) (wrap64 ksp)) (tf + TF_KERNEL_TRAP) (wrap64 ktrap)) (tf + TF_KERNEL_HARTID) (wrap64 hartid).

Lemma kernel_words_outside m tf satp ksp ktrap hartid : outside tf (tf + 40) m (kernel_words m tf satp ksp ktrap hartid).
Proof. unfold kernel_words, TF_KERNEL_SATP, TF_KERNEL_SP, TF_KERNEL_TRAP, TF_KERNEL_HARTID. eapply outside_trans; [|apply outside_store; lia]. eapply outside_trans; [|apply outside_store; lia]. eapply outside_trans; [|apply outside_store; lia]. apply outside_store; lia. Qed.

Lemma kernel_words_read m tf satp ksp ktrap hartid : is_u64 satp -> load64 (kernel_words m tf satp ksp ktrap hartid) tf = satp /\ load64 (kernel_words m tf satp ksp ktrap hartid) (tf + TF_EPC) = load64 m (tf + TF_EPC).
Proof.
  intros H. unfold kernel_words, TF_KERNEL_SATP, TF_KERNEL_SP, TF_KERNEL_TRAP, TF_KERNEL_HARTID, TF_EPC. split; rewrite !load64_store64_ne by lia; [|done].
  rewrite Z.add_0_r, wrap64_small by done. by apply load64_store64_eq.
Qed.

Definition return_status (sstatus : Z) : Z := Z.lor (clear_bits (clear_bits sstatus SSTATUS_SIE) SSTATUS_SPP) SSTATUS_SPIE.

Lemma return_status_bits v : Z.testbit (return_status v) bit_spp = false /\ Z.testbit (return_status v) bit_spie = true.
Proof. unfold return_status, clear_bits. rewrite !Z.lor_spec, !Z.land_spec. split; [by rewrite andb_false_r|by rewrite orb_true_r]. Qed.

Lemma prepare_return_run hk s p (pr := getproc s p) : k_cur s = Some p ->
  exists s', k_mem s' = kernel_words (k_mem s) (p_trapframe pr) (Trap.r_satp hk) (p_kstack pr + PGSIZE) (sym_usertrap (k_sym s)) (Trap.r_tp hk)
  /\ prepare_return hk s = Ret (mkHart (Trap.r_tp hk) (return_status (Trap.r_sstatus hk)) (load64 (k_mem s') (p_trapframe pr + TF_EPC)) (Trap.r_scause hk) (Trap.r_stval hk)
       (wrap64 (TRAMPOLINE + (sym_uservec (k_sym s) - sym_trampoline (k_sym s)))) (Trap.r_satp hk) (Trap.r_time hk) (Trap.r_stimecmp hk)) s'.
Proof.
  intros Hc. unfold prepare_return, tf_store, tf_load, store64K, load64K. erewrite bind_ret_eq by (by apply this_proc_ret). eexists. split; [|reflexivity]. done.
Qed.

(** ** A trap and its return *)
Section Trap.
Context {hw : hardware} (HW : hw_ok) (text : Z -> option (instr * Z)) (uoff tramp tf uroot kroot : Z) (ucode rcode : list (instr * Z)).
Context (T : tramp_ok text uoff tramp tf uroot kroot ucode rcode).

(** The hart runs the user, and the trapframe is ready for its next trap. *)
Record in_user (h : machine) : Prop := {
  iu_ok : hart_ok h;
  iu_mode : mode_of h = User;
  iu_satp : csrs h Satp = MAKE_SATP uroot;
  iu_pmp : pmp_open h;
  iu_stvec : csrs h Stvec = TRAMPOLINE + uoff;
  iu_maps : tramp_maps tramp tf uroot kroot (mem_of h);
  iu_kernel : load64 (mem_of h) tf = MAKE_SATP kroot }.

(** What usertrap leaves when it returns to the trampoline on hart [h], in kernel state
    [s] after prepare_return. *)
Record usertrap_returns (s0 : kernel) (p : nat) (hk : hart) (link : Z) (s : kernel) (h : machine) : Prop := {
  ur_run : k_cur s0 = Some p /\ prepare_return hk s0 = Ret (hart_of h) s;
  ur_proc : p_trapframe (getproc s0 p) = tf /\ p_pagetable (getproc s0 p) = uroot;
  ur_sym : sym_uservec (k_sym s0) - sym_trampoline (k_sym s0) = uoff;
  ur_satp : Trap.r_satp hk = MAKE_SATP kroot;
  ur_maps : tramp_maps tramp tf uroot kroot (k_mem s0);
  ur_ok : hart_ok h;
  ur_mode : mode_of h = Supervisor;
  ur_pmp : pmp_open h;
  ur_mem : mem_of h = k_mem s;
  ur_a0 : x_of h a0 = MAKE_SATP (p_pagetable (getproc s0 p));
  ur_pc : pc_of h = link }.

Lemma trap_from_user interrupt n tval h h0 : in_user h -> trap_to_s interrupt n tval h = Some h0 ->
  hart_ok h0 /\ in_super tramp tf uroot kroot uroot h0 /\ pc_of h0 = TRAMPOLINE + uoff /\ x_of h0 = x_of h /\ mem_of h0 = mem_of h /\ r_sepc h0 = pc_of h.
Proof.
  intros [I1 I2 I3 I4 I5 I6 I7] E. split; [by eapply trap_ok|]. revert E. unfold trap_to_s. destruct (_ || _); [done|]. intros E. apply (inj Some) in E as <-. split; [by constructor|]. split_and!; try done.
  - cbn. rewrite I5. pose proof tramp_va as ((V1 & _) & _ & _ & _ & V2 & _). pose proof (tk_room _ _ _ _ _ _ _ _ T) as [R1 R2]. pose proof (code_size_nonneg _ (tk_sizes _ _ _ _ _ _ _ _ T)).
    pose proof (tk_align _ _ _ _ _ _ _ _ T).
    replace ((TRAMPOLINE + uoff) / 4 * 4) with (TRAMPOLINE + uoff); [apply wrap64_small; lia|]. change TRAMPOLINE with 274877902848. dlia.
  - unfold r_sepc. cbn. apply wrap64_small, I1.
Qed.

(** The return to the user. *)
Lemma return_to_user s0 p hk s h : usertrap_returns s0 p hk (TRAMPOLINE + uoff + code_size ucode) s h ->
  exists h1, steps text 36 h = Some h1 /\ in_user h1 /\ pc_of h1 = load64 (k_mem s0) (tf + TF_EPC) /\ Z.testbit (csrs h1 Mstatus) bit_sie = true /\ mem_of h1 = k_mem s
  /\ (forall r o, (r, o) ∈ tf_slots -> x_of h1 r = load64 (k_mem s0) (tf + o)).
Proof.
  intros [[U1 U2] [U3 U3'] U4 U5 U6 U7 U8 U9 U10 U11 U12]. destruct (prepare_return_run hk s0 p U1) as (s' & Em & E). rewrite U2 in E. injection E as _ Est Eepc _ _ Evec Esatp _ _ Es.
  rewrite <- Es, U3 in Em, Eepc. rewrite U4 in Evec. rewrite U5 in Esatp, Em. clear s' U2 Es.
  pose proof (tk_kroot _ _ _ _ _ _ _ _ T) as Kr. destruct (make_satp_fields kroot Kr) as (_ & _ & Kw). set (km := kernel_words _ _ _ _ _ _) in Em. pose proof (kernel_words_outside (k_mem s0) tf (MAKE_SATP kroot) (p_kstack (getproc s0 p) + PGSIZE) (sym_usertrap (k_sym s0)) (Trap.r_tp hk)) as O. fold km in O.
  destruct (kernel_words_read (k_mem s0) tf (MAKE_SATP kroot) (p_kstack (getproc s0 p) + PGSIZE) (sym_usertrap (k_sym s0)) (Trap.r_tp hk) Kw) as [Kr1 Kr2]. fold km in Kr1, Kr2.
  assert (tramp_maps tramp tf uroot kroot km) as Mk by (eapply tramp_maps_outside; [|exact U6]; eapply outside_mono; [| |exact O]; unfold PGSIZE; lia).
  assert (in_super tramp tf uroot kroot kroot h) as Hs by (constructor; [done|exact Esatp|done|by rewrite U10, Em]). rewrite U3' in U11.
  destruct (userret_run HW text uoff tramp tf uroot kroot ucode rcode T h Hs U12 U11) as (h1 & g & E1 & Eg & P1 & M1 & St1 & X1 & Z1 & Q1 & Sa1 & C1).
  destruct (return_status_bits (Trap.r_sstatus hk)) as [B1 B2]. rewrite <- Est in B1, B2. rewrite status_bit in B1, B2 by done.
  assert (pc_of g = r_sepc h /\ mode_of g = User /\ Z.testbit (csrs g Mstatus) bit_sie = true) as (G1 & G2 & G3).
  { revert Eg. unfold sret. rewrite U8, B1, B2. intros Eg. apply (inj Some) in Eg as <-. split_and!; [apply wrap64_small, U7|done|]. rewrite status_of, wrap64_bit by (unfold bit_sie; lia). rewrite !put_bit_bit by done. done. }
  pose proof (tk_room _ _ _ _ _ _ _ _ T) as [R1 R2]. pose proof (code_size_nonneg _ (tk_sizes _ _ _ _ _ _ _ _ T)). pose proof tramp_va as ((V1 & _) & _ & _ & _ & V2 & _).
  exists h1. split_and!; [done| | | |by rewrite Q1|].
  - constructor; [by eapply steps_ok|by rewrite M1|done| | |by rewrite Q1, U10, Em|by rewrite Q1, U10, Em].
    + unfold pmp_open in *. rewrite !C1 by done. done.
    + rewrite C1 by done. change (csrs h Stvec) with (r_stvec h). rewrite Evec. apply wrap64_small. lia.
  - rewrite P1, G1. rewrite Eepc, Em. done.
  - by rewrite St1.
  - intros r o Hin. rewrite (X1 r o Hin), U10, Em. apply (outside_load64 _ _ _ _ _ O). destruct (tf_in r o Hin) as [[_ ->]|Hu]; [lia|]. pose proof (uv_offset r o Hu). lia.
Qed.
End Trap.

(** C9: A system call changes what it should.  A trap from the user enters usertrap in
    supervisor mode with the kernel's page table, on the kernel stack of the process, with
    sepc at the trapped instruction, userret to return to, and in the trapframe, at its
    place in struct trapframe, every register of the user as it was at the trap, a0
    included; nothing outside those places of the trapframe was written.  If the kernel
    then keeps the slots of the registers other than a0 and runs prepare_return, whatever
    else it does, the trampoline takes the user back, with interrupts on, to the epc in the
    trapframe, with every register as it was but a0, which has the value in the trapframe;
    and the next trap finds the hart as this one did. *)
Theorem user_trap_returns {hw : hardware} text uoff tramp tf uroot kroot ucode rcode interrupt n tval h h0 :
  hw_ok -> tramp_ok text uoff tramp tf uroot kroot ucode rcode -> in_user uoff tramp tf uroot kroot h -> trap_to_s interrupt n tval h = Some h0 ->
  exists h1, steps text 42 h0 = Some h1 /\ mode_of h1 = Supervisor /\ csrs h1 Satp = MAKE_SATP kroot /\ pc_of h1 = Z.clearbit (load64 (mem_of h) (tf + TF_KERNEL_TRAP)) 0
  /\ x_of h1 sp = load64 (mem_of h) (tf + TF_KERNEL_SP) /\ x_of h1 tp = load64 (mem_of h) (tf + TF_KERNEL_HARTID) /\ r_sepc h1 = pc_of h /\ outside (tf + 40) (tf + 288) (mem_of h) (mem_of h1)
  /\ (forall r o, (r, o) ∈ tf_slots -> load64 (mem_of h1) (tf + o) = x_of h r)
  /\ forall s0 p hk s h2, usertrap_returns uoff tramp tf uroot kroot s0 p hk (x_of h1 ra) s h2 ->
     (forall r o, (r, o) ∈ tf_slots -> r <> a0 -> load64 (k_mem s0) (tf + o) = load64 (mem_of h1) (tf + o)) ->
     exists h3, steps text 36 h2 = Some h3 /\ in_user uoff tramp tf uroot kroot h3 /\ Z.testbit (csrs h3 Mstatus) bit_sie = true /\ pc_of h3 = load64 (k_mem s0) (tf + TF_EPC)
     /\ x_of h3 a0 = load64 (k_mem s0) (tf + TF_A0) /\ (forall r, r <> a0 -> x_of h3 r = x_of h r) /\ mem_of h3 = k_mem s.
Proof.
  intros HW T I E. destruct (trap_from_user text uoff tramp tf uroot kroot ucode rcode T _ _ _ _ _ I E) as (W & Hs & Hpc & X & Q & Ep).
  destruct (uservec_run HW text uoff tramp tf uroot kroot ucode rcode T h0 W Hs Hpc) as (h1 & E1 & S1 & P1 & X1 & X2 & X3 & L1 & O1 & C1). { rewrite Q. apply I. }
  rewrite Q in P1, X1, X2, O1. rewrite X in L1. exists h1. split_and!; try done.
  - apply S1.
  - apply S1.
  - rewrite <- Ep. unfold r_sepc, csr_read. by rewrite C1.
  - intros s0 p hk s h2 U Hk. rewrite X3 in U. destruct (return_to_user HW text uoff tramp tf uroot kroot ucode rcode T s0 p hk s h2 U) as (h3 & E3 & I3 & P3 & B3 & Q3 & R3).
    exists h3. split_and!; try done.
    + apply R3. compute_in.
    + intros r Hr. destruct (decide (r = zero)) as [->|Hz]; [by rewrite (ho_zero _ (iu_ok _ _ _ _ _ _ I3)), (ho_zero _ (iu_ok _ _ _ _ _ _ I))|].
      destruct (tf_all r Hz) as [o Ho]. rewrite (R3 r o Ho), (Hk r o Ho Hr). by apply L1.
Qed.

(** A user and a kernel table of three pages each, the trampoline at 0x80001000 and the
    trapframe at 0x80002000. *)
Module Demo.
Definition ptr (a : Z) : Z := Z.lor (PA2PTE a) PTE_V.
Definition leaf (a perm : Z) : Z := Z.lor (Z.lor (PA2PTE a) perm) PTE_V.
Definition mem : gmap Z Z := foldr (fun e m => store64 m (fst e) (snd e)) ∅
  [(0x80010000 + 8 * 255, ptr 0x80011000); (0x80011000 + 8 * 511, ptr 0x80012000); (0x80012000 + 8 * 511, leaf 0x80001000 (Z.lor PTE_R PTE_X)); (0x80012000 + 8 * 510, leaf 0x80002000 (Z.lor PTE_R PTE_W));
   (0x80014000 + 8 * 255, ptr 0x80015000); (0x80015000 + 8 * 511, ptr 0x80016000); (0x80016000 + 8 * 511, leaf 0x80001000 (Z.lor PTE_R PTE_X));
   (0x80002000, MAKE_SATP 0x80014000); (0x80002008, 0x80021000); (0x80002010, 0x80003000)].
Definition csr0 (c : csr) : Z :=
  match c with Satp => MAKE_SATP 0x80010000 | Stvec => TRAMPOLINE | Pmpcfg0 => 15 | Pmpaddr0 => 2 ^ 54 - 1 | Medeleg => 0xb3ff | _ => 0 end.
Definition regs (r : reg) : Z := match r with zero => 0 | a7 => 5 | _ => 9 end.
Definition user : machine := mkMachine regs 0x1000 User csr0 mem.
Definition text : Z -> option (instr * Z) := words_at 0x80001000 trampoline.
(** The kernel when the handler is done, and the hart when usertrap returns. *)
Definition frame_proc : proc := set_p_trapframe 0x80002000 (set_p_pagetable 0x80010000 proc0).
Definition kernel (m : gmap Z Z) : kernel := set_k_mem m (set_k_cur (Some 0%nat) (set_k_procs [frame_proc] (kernel0 (mkSymbols 0 0 0 0 0 0)))).
Definition khart : hart := mkHart 0 0 0 0 0 0 (MAKE_SATP 0x80014000) 0 0.
Definition csr1 (epc : Z) (c : csr) : Z :=
  match c with Satp => MAKE_SATP 0x80014000 | Stvec => TRAMPOLINE | Sepc => epc | Mstatus => SSTATUS_SPIE | Pmpcfg0 => 15 | Pmpaddr0 => 2 ^ 54 - 1 | _ => 0 end.
Definition back (link : Z) (m : gmap Z Z) : machine :=
  mkMachine (fun r => match r with a0 => MAKE_SATP 0x80010000 | _ => 0 end) link Supervisor (csr1 (load64 m (0x80002000 + TF_EPC))) m.

Lemma maps : tramp_maps 0x80001000 0x80002000 0x80010000 0x80014000 mem.
Proof. constructor; (constructor; [eexists; split; [vm_compute; reflexivity|]; split; [reflexivity|compute_in]|compute_in]). Qed.

Lemma code_ok : tramp_ok text 0 0x80001000 0x80002000 0x80010000 0x80014000 (words uservec) (words userret).
Proof.
  constructor; [apply words_map|apply words_map| |reflexivity| | |by vm_compute|by vm_compute|by vm_compute|by vm_compute].
  - unfold words. rewrite <- map_app. apply Forall_forall. intros c Hc. apply list_elem_of_fmap in Hc as (i & -> & _). done.
  - by vm_compute.
  - pose proof (words_placed 0x80001000 trampoline 0) as H. rewrite drop_0 in H. unfold words, trampoline in H. rewrite map_app in H. exact H.
Qed.

Lemma user_ok : in_user 0 0x80001000 0x80002000 0x80010000 0x80014000 user.
Proof.
  constructor; [|reflexivity|reflexivity|done|reflexivity|exact maps|vm_compute; reflexivity]. constructor; [reflexivity|by intros []|done|by intros []].
Qed.

Lemma hardware_ok : hw_ok (hw := all_bits).
Proof.
  assert (forall v, is_u64 v -> Z.land v (2 ^ 64 - 1) = v) as H by (intros v Hv; change (2 ^ 64 - 1) with (Z.ones 64); rewrite Z.land_ones by lia; by apply Z.mod_small). constructor; [exact H|].
  intros root Hr. apply H. by destruct (make_satp_fields root Hr) as (_ & _ & ?).
Qed.

(** usertrap returns from any memory that has the tables. *)
Lemma returns_ok m link : tramp_maps 0x80001000 0x80002000 0x80010000 0x80014000 m -> is_u64 link ->
  exists s, usertrap_returns 0 0x80001000 0x80002000 0x80010000 0x80014000 (kernel m) 0 khart link s (back link (k_mem s)).
Proof.
  intros M L. destruct (prepare_return_run khart (kernel m) 0 eq_refl) as (s & Em & E). exists s. constructor; try done.
  - clear E Em M. constructor; [reflexivity|by intros []|done|]. intros []; try done. apply load64_range.
Qed.
End Demo.

(** A system call from 0x1000: a7 is what it was. *)
Lemma user_trap_returns_witness : exists h0 h1 h2 h3, trap_to_s false 8 0 Demo.user = Some h0 /\ steps (hw := all_bits) Demo.text 42 h0 = Some h1 /\ r_sepc h1 = 0x1000 /\ load64 (mem_of h1) (0x80002000 + TF_A0) = 9
  /\ steps (hw := all_bits) Demo.text 36 h2 = Some h3 /\ x_of h3 a7 = 5.
Proof.
  destruct (trap_to_s false 8 0 Demo.user) as [h0|] eqn:Et; [|discriminate].
  destruct (user_trap_returns (hw := all_bits) Demo.text 0 0x80001000 0x80002000 0x80010000 0x80014000 (words uservec) (words userret) false 8 0 Demo.user h0 Demo.hardware_ok Demo.code_ok Demo.user_ok Et)
    as (h1 & E1 & _ & _ & _ & _ & _ & P1 & O1 & L1 & H).
  assert (tramp_maps 0x80001000 0x80002000 0x80010000 0x80014000 (mem_of h1)) as M1 by (eapply tramp_maps_outside; [|exact Demo.maps]; eapply outside_mono; [| |exact O1]; vm_compute; discriminate).
  pose proof (steps_ok (hw := all_bits) _ _ _ _ (trap_ok _ _ _ _ _ (iu_ok _ _ _ _ _ _ Demo.user_ok) Et) E1) as W1. destruct (Demo.returns_ok (mem_of h1) (x_of h1 ra) M1 (ho_x _ W1 ra)) as (s & U).
  destruct (H _ _ _ _ _ U (fun r o _ _ => eq_refl)) as (h3 & E3 & _ & _ & _ & _ & X3 & _).
  exists h0, h1, (Demo.back (x_of h1 ra) (k_mem s)), h3. exact (conj eq_refl (conj E1 (conj P1 (conj (L1 a0 112 ltac:(compute_in)) (conj E3 (X3 a7 ltac:(discriminate))))))).
Defined.
