(* ===== verification/Start.v ===== *)
(** * From reset to main: entry.S and start.c

    A hart starts in machine mode at _entry, gets a stack, and start.c sets up the
    control registers with the accessors of riscv.h and enters main in supervisor
    mode. *)
From S2P Require Import Prelude State Trap Riscv RiscvSpec Asm.
Import Reg.

Open Scope Z_scope.

Section Start.
Context {hw : hardware}.

Definition timerinit (h : machine) : machine :=
  let h := w_mie (Z.lor (r_mie h) MIE_STIE) h in
  let h := w_menvcfg (Z.lor (r_menvcfg h) (Z.shiftl 1 63)) h in
  let h := w_mcounteren (Z.lor (r_mcounteren h) 2) h in
  w_stimecmp (wrap64 (r_time h + 1000000)) h.

(** The registers start writes before it asks for clock interrupts. *)
Definition start_setup (main : Z) (h : machine) : machine :=
  let x := r_mstatus h in
  let x := Z.land x (wrap64 (Z.lnot MSTATUS_MPP_MASK)) in
  let x := Z.lor x MSTATUS_MPP_S in
  let h := w_mstatus x h in
  let h := w_mepc main h in
  let h := w_satp 0 h in
  let h := w_medeleg 0xffff h in
  let h := w_mideleg 0xffff h in
  let h := w_sie (Z.lor (Z.lor (r_sie h) SIE_SEIE) SIE_STIE) h in
  let h := w_pmpaddr0 0x3fffffffffffff h in
  w_pmpcfg0 0xf h.

(** [None] when the mret traps. *)
Definition start (main : Z) (h : machine) : option machine :=
  let h := start_setup main h in
  let h := timerinit h in
  let id := int32 (r_mhartid h) in
  let h := w_tp (wrap64 id) h in
  mret h.
End Start.

(** ** What start.c relies on *)

(** The bits of the registers that the hardware must have: the previous privilege and
    the interrupt bits of mstatus, the delegation of system calls, page faults, timer and
    external interrupts, and whole registers where addresses and times go. *)
Record boot_hw {hw : hardware} : Prop := {
  bh_mstatus : Z.testbit (writable Mstatus) 11 = true;
  bh_mepc : forall v, is_u64 v -> v mod 4 = 0 -> Z.land v (writable Mepc) = v;
  bh_medeleg : forall i, i ∈ [8; 12; 13; 15] -> Z.testbit (writable Medeleg) i = true;
  bh_mideleg : forall i, i ∈ [5; 9] -> Z.testbit (writable Mideleg) i = true;
  bh_mie : forall i, i ∈ [5; 9] -> Z.testbit (writable Mie) i = true;
  bh_menvcfg : Z.testbit (writable Menvcfg) 63 = true;
  bh_mcounteren : Z.testbit (writable Mcounteren) 1 = true;
  bh_pmpaddr0 : Z.land (2 ^ 54 - 1) (writable Pmpaddr0) = 2 ^ 54 - 1;
  bh_pmpcfg0 : Z.land 15 (writable Pmpcfg0) = 15;
  bh_stimecmp : forall v, is_u64 v -> Z.land v (writable Stimecmp) = v }.

Section Theory.
Context {hw : hardware} (HW : boot_hw).

Lemma csr_same c v h : csrs (set_csr c v h) c = wrap64 v.
Proof. cbn. by rewrite decide_True. Qed.
Lemma csr_other c d v h : d <> c -> csrs (set_csr c v h) d = csrs h d.
Proof. intros H. cbn. by rewrite decide_False. Qed.

Lemma lor_bit v f i : 0 <= i < 64 -> Z.testbit f i = true -> Z.testbit (Z.lor v f) i = true.
Proof. intros Hi Hf. by rewrite Z.lor_spec, Hf, orb_true_r. Qed.

(** The state when start executes mret. *)
Record before_mret (main : Z) (h0 h : machine) : Prop := {
  bm_mode : mode_of h = Machine;
  bm_mpp : Z.land (Z.shiftr (csrs h Mstatus) 11) 3 = 1;
  bm_mepc : csrs h Mepc = main;
  bm_satp : csrs h Satp = 0;
  bm_medeleg : forall i, i ∈ [8; 12; 13; 15] -> Z.testbit (csrs h Medeleg) i = true;
  bm_mideleg : forall i, i ∈ [5; 9] -> Z.testbit (csrs h Mideleg) i = true;
  bm_mie : forall i, i ∈ [5; 9] -> Z.testbit (csrs h Mie) i = true;
  bm_menvcfg : Z.testbit (csrs h Menvcfg) 63 = true;
  bm_mcounteren : Z.testbit (csrs h Mcounteren) 1 = true;
  bm_pmp : pmp_open h;
  bm_stimecmp : csrs h Stimecmp = wrap64 (csrs h0 Time + 1000000);
  bm_x : forall r, r <> tp -> x_of h r = x_of h0 r;
  bm_tp : x_of h tp = wrap64 (int32 (csrs h0 Mhartid));
  bm_mem : mem_of h = mem_of h0 }.

Lemma csr_of_x r v h : csrs (set_x r v h) = csrs h.
Proof. reflexivity. Qed.

(** Reads of the registers after writes of others. *)
Ltac csr_simp :=
  cbn [csr_write csr_read]; rewrite ?csr_of_x; repeat first [rewrite csr_same | rewrite csr_other by discriminate].

Lemma mpp_bits v : Z.testbit v 11 = true -> Z.testbit v 12 = false -> Z.land (Z.shiftr v 11) 3 = 1.
Proof.
  intros H1 H2. apply Z.bits_inj'. intros i Hi. rewrite Z.land_spec, Z.shiftr_spec by done. destruct (decide (i = 0)) as [->|H0]; [by rewrite Z.add_0_l, H1|]. destruct (decide (i = 1)) as [->|H3]; [change (1 + 11) with 12; by rewrite H2|].
  change 3 with (Z.ones 2). rewrite Z.ones_spec_high by lia. rewrite andb_false_r. change 1 with (Z.ones 1). by rewrite Z.ones_spec_high by lia.
Qed.

Lemma sie_bits mie mideleg i : i ∈ [5; 9] -> Z.testbit mideleg i = true ->
  Z.testbit (merge mideleg mie (Z.lor (Z.lor (Z.land mie mideleg) SIE_SEIE) SIE_STIE)) i = true.
Proof.
  intros Hi Hm. unfold merge. rewrite Z.lor_spec, Z.land_spec, (Z.land_spec _ mideleg), Hm, andb_true_r. apply orb_true_intro. right. rewrite !Z.lor_spec.
  apply elem_of_cons in Hi as [->|Hi]; [by rewrite orb_true_r|]. apply list_elem_of_singleton in Hi as ->. by rewrite (orb_true_r (Z.testbit _ 9)).
Qed.

Lemma start_before main h0 : mode_of h0 = Machine -> is_u64 main -> main mod 4 = 0 -> exists h, start main h0 = mret h /\ before_mret main h0 h.
Proof.
  intros Hm Hw Ha. unfold start, start_setup, timerinit, w_mie, w_menvcfg, w_mcounteren, w_stimecmp, w_mstatus, w_mepc, w_satp, w_medeleg, w_mideleg, w_sie, w_pmpaddr0, w_pmpcfg0, w_tp.
  unfold r_mstatus, r_sie, r_mie, r_menvcfg, r_mcounteren, r_time, r_mhartid. cbv zeta. eexists. split; [reflexivity|].
  assert (forall i, i ∈ [5; 9] -> 0 <= i < 64) as Hr by (intros i Hi; apply elem_of_cons in Hi as [->|Hi]; [lia|]; apply list_elem_of_singleton in Hi as ->; lia).
  assert (forall i, i ∈ [5; 9] -> Z.testbit (wrap64 (Z.land 65535 (writable Mideleg))) i = true) as Hid.
  { intros i Hi. rewrite wrap64_bit by auto. rewrite Z.land_spec, (bh_mideleg HW i Hi). apply elem_of_cons in Hi as [->|Hi]; [done|]. by apply list_elem_of_singleton in Hi as ->. }
  constructor; try done.
  - csr_simp. apply mpp_bits; rewrite wrap64_bit by lia; rewrite Z.land_spec, Z.lor_spec, Z.land_spec.
    + rewrite (bh_mstatus HW). change (Z.testbit MSTATUS_MPP_S 11) with true. by rewrite orb_true_r.
    + change (Z.testbit (wrap64 (Z.lnot MSTATUS_MPP_MASK)) 12) with false. by rewrite andb_false_r.
  - csr_simp. rewrite (bh_mepc HW) by done. by apply wrap64_small.
  - intros i Hi. csr_simp. assert (0 <= i < 64 /\ Z.testbit 65535 i = true) as [Hi1 Hi2] by (repeat (apply elem_of_cons in Hi as [->|Hi]; [by split; [lia|]|]); by apply not_elem_of_nil in Hi).
    rewrite wrap64_bit, Z.land_spec by done. by rewrite (bh_medeleg HW), Hi2.
  - intros i Hi. csr_simp. rewrite wrap64_bit, Z.land_spec by auto. rewrite (bh_mie HW i Hi), andb_true_r, Z.lor_spec.
    rewrite wrap64_bit, Z.land_spec by auto. rewrite (bh_mie HW i Hi), andb_true_r. by rewrite sie_bits by auto.
  - csr_simp. rewrite wrap64_bit, Z.land_spec by lia. by rewrite (bh_menvcfg HW), lor_bit.
  - csr_simp. rewrite wrap64_bit, Z.land_spec by lia. by rewrite (bh_mcounteren HW), lor_bit.
  - split; csr_simp; [change 15 with 15 at 1; by rewrite (bh_pmpcfg0 HW)|]. change 18014398509481983 with (2 ^ 54 - 1). by rewrite (bh_pmpaddr0 HW).
  - csr_simp. rewrite (bh_stimecmp HW) by apply wrap64_word. apply wrap64_small, wrap64_range.
  - intros r Hr'. cbn. by rewrite decide_False.
  - csr_simp. cbn [x_of set_x]. rewrite decide_True by done. rewrite decide_False by done. csr_simp. apply wrap64_small, wrap64_range.
Qed.
End Theory.

(** ** From reset to main *)
Section Reset.
Context {hw : hardware} (text : Z -> option (instr * Z)) (stack0 start_ spin : Z).

(** entry.S gives the hart its own 4096 bytes of stack0 and calls start. *)
Lemma reset_run va pa len lo hi code h c : hart_ok h -> mode_of h = Machine -> csrs h Mhartid = c -> 0 <= c < NCPU -> 0 <= stack0 -> stack0 + 4096 * NCPU < 2 ^ 64 -> is_u64 start_ ->
  map fst code = entry stack0 start_ spin -> at_code text va pa len lo hi code h ->
  exists h1, steps text 7 h = Some h1 /\ pc_of h1 = start_ /\ x_of h1 sp = stack0 + 4096 * (c + 1) /\ same_map h h1 /\ mem_of h1 = mem_of h /\ hart_ok h1.
Proof.
  intros W Hm Hid Hc S1 S2 Hst Hcode A. unfold NCPU in *. do 8 (destruct code as [|[? ?] code]; [done|]). destruct code; [|done]. injection Hcode as -> -> -> -> -> -> -> ->.
  rename z into n1, z0 into n2, z1 into n3, z2 into n4, z3 into n5, z4 into n6, z5 into n7, z6 into n8.
  set (h1 := set_pc (pc_of h + n1) (set_x sp stack0 h)). destruct (plain_run text _ _ _ _ _ _ _ _ h h1 A eq_refl) as [E1 A1]; [done..|].
  set (h2 := set_pc (pc_of h1 + n2) (set_x a0 (1024 * 4) h1)). destruct (plain_run text _ _ _ _ _ _ _ _ h1 h2 A1 eq_refl) as [E2 A2]; [done..|].
  set (h3 := set_pc (pc_of h2 + n3) (set_x a1 (csr_read Mhartid h2) h2)). assert (exec (Csrr a1 Mhartid) n3 h2 = Some h3) as X3 by (cbn [exec]; unfold csr_ok; by rewrite (Hm : mode_of h2 = Machine)).
  destruct (plain_run text _ _ _ _ _ _ _ _ h2 h3 A2 X3) as [E3 A3]; [done..|].
  set (h4 := set_pc (pc_of h3 + n4) (set_x a1 (x_of h3 a1 + 1) h3)). destruct (plain_run text _ _ _ _ _ _ _ _ h3 h4 A3 eq_refl) as [E4 A4]; [done..|].
  set (h5 := set_pc (pc_of h4 + n5) (set_x a0 (x_of h4 a0 * x_of h4 a1) h4)). destruct (plain_run text _ _ _ _ _ _ _ _ h4 h5 A4 eq_refl) as [E5 A5]; [done..|].
  set (h6 := set_pc (pc_of h5 + n6) (set_x sp (x_of h5 sp + x_of h5 a0) h5)). destruct (plain_run text _ _ _ _ _ _ _ _ h5 h6 A5 eq_refl) as [E6 A6]; [done..|].
  set (h7 := set_pc start_ (set_x ra (pc_of h6 + n7) h6)). assert (exec (Call start_) n7 h6 = Some h7) as X7 by done.
  assert (steps text 7 h = Some h7) as E.
  { eapply (steps_add text 1 6); [exact E1|]. eapply (steps_add text 1 5); [exact E2|]. eapply (steps_add text 1 4); [exact E3|]. eapply (steps_add text 1 3); [exact E4|]. eapply (steps_add text 1 2); [exact E5|].
    eapply (steps_add text 1 1); [exact E6|]. eapply code_step; [exact A6|exact X7]. }
  exists h7. split_and!; [done|by apply wrap64_small| |done|done|by eapply steps_ok].
  change (x_of h7 sp) with (wrap64 (wrap64 stack0 + wrap64 (wrap64 (1024 * 4) * wrap64 (wrap64 (csrs h Mhartid) + 1)))). rewrite Hid.
  rewrite (wrap64_small stack0), (wrap64_small (1024 * 4)), (wrap64_small c) by lia. rewrite (wrap64_small (c + 1)) by lia. rewrite (wrap64_small (1024 * 4 * (c + 1))) by lia. rewrite wrap64_small; lia.
Qed.
End Reset.

(** C20: Every hart reaches main as the kernel expects it.  From reset in machine mode at
    _entry, hart c gets the c-th part of stack0 as its stack, and start ends in supervisor
    mode at main, with c in tp, paging off, all of memory open, system calls, page faults,
    timer and external interrupts delegated and enabled, the time and its comparison
    register usable, and the first timer interrupt set. *)
Theorem harts_enter_main {hw : hardware} text stack0 start_ spin main va pa len lo hi code h c :
  boot_hw -> hart_ok h -> mode_of h = Machine -> csrs h Mhartid = c -> 0 <= c < NCPU -> 0 <= stack0 -> stack0 + 4096 * NCPU < 2 ^ 64 -> is_u64 start_ -> is_u64 main -> main mod 4 = 0 ->
  map fst code = entry stack0 start_ spin -> at_code text va pa len lo hi code h ->
  exists h1 h2, steps text 7 h = Some h1 /\ pc_of h1 = start_ /\ x_of h1 sp = stack0 + 4096 * (c + 1)
  /\ start main h1 = Some h2 /\ mode_of h2 = Supervisor /\ pc_of h2 = main /\ r_tp h2 = c /\ r_satp h2 = 0 /\ pmp_open h2 /\ mem_of h2 = mem_of h
  /\ (forall i, i ∈ [8; 12; 13; 15] -> Z.testbit (r_medeleg h2) i = true) /\ (forall i, i ∈ [5; 9] -> Z.testbit (r_mideleg h2) i = true /\ Z.testbit (r_sie h2) i = true)
  /\ csr_ok Time h2 = true /\ csr_ok Stimecmp h2 = true /\ r_stimecmp h2 = wrap64 (csrs h Time + 1000000).
Proof.
  intros HW W Hm Hid Hc S1 S2 Hst Hw Ha Hcode A. destruct (reset_run text stack0 start_ spin va pa len lo hi code h c W Hm Hid Hc S1 S2 Hst Hcode A) as (h1 & E1 & P1 & X1 & [M1 M1'] & Q1 & W1).
  destruct (start_before HW main h1) as (g & Eg & B); [by rewrite M1|done|done|]. destruct B as [B1 B2 B3 B4 B5 B6 B7 B8 B9 [B10 B10'] B11 B12 B13 B14].
  assert (exists h2, mret g = Some h2 /\ mode_of h2 = Supervisor /\ pc_of h2 = main /\ x_of h2 = x_of g /\ mem_of h2 = mem_of g /\ forall d, d <> Mstatus -> csrs h2 d = csrs g d) as (h2 & E2 & G1 & G2 & G3 & G4 & G5).
  { unfold mret. rewrite B1, B2, B3. cbn [bool_decide decide negb Z.eqb Pos.eqb]. eexists. split; [reflexivity|]. split_and!; try done; [by apply wrap64_small|]. intros d Hd. cbn. by rewrite decide_False. }
  exists h1, h2. split_and!; try done.
  - by rewrite Eg.
  - unfold r_tp. rewrite G3, B13, M1', Hid. unfold NCPU in Hc. rewrite int32_small by lia. apply wrap64_small. lia.
  - unfold r_satp, csr_read. by rewrite G5.
  - unfold pmp_open. by rewrite !G5 by done.
  - by rewrite G4, B14, Q1.
  - intros i Hi. unfold r_medeleg, csr_read. rewrite G5 by done. by apply B5.
  - intros i Hi. unfold r_mideleg, r_sie, csr_read. rewrite !G5 by done. rewrite Z.land_spec, B6, B7 by done. done.
  - unfold csr_ok. rewrite G1, G5 by done. done.
  - unfold csr_ok. rewrite G1, !G5 by done. by rewrite B9, B8.
  - unfold r_stimecmp, csr_read. rewrite G5 by done. by rewrite B11, M1'.
Qed.

Definition demo_entry : Z -> option (instr * Z) := words_at 0x80000000 (entry 0x80010000 0x80000100 0x8000001c).
Definition reset_hart : machine := mkMachine (fun _ => 0) 0x80000000 Machine (fun c => match c with Mhartid => 3 | Time => 500 | _ => 0 end) ∅.

Lemma all_bits_boot : boot_hw (hw := all_bits).
Proof.
  assert (forall v, is_u64 v -> Z.land v (2 ^ 64 - 1) = v) as H by (intros v Hv; change (2 ^ 64 - 1) with (Z.ones 64); rewrite Z.land_ones by lia; by apply Z.mod_small).
  constructor; try done; intros i; cbn; [intros Hi _; by apply H|..]; intros Hi; repeat (apply elem_of_cons in Hi as [->|Hi]; [done|]); by apply not_elem_of_nil in Hi.
Qed.

Lemma harts_enter_main_witness : exists h1 h2, steps (hw := all_bits) demo_entry 7 reset_hart = Some h1 /\ x_of h1 sp = 0x80014000
  /\ start (hw := all_bits) 0x80001000 h1 = Some h2 /\ r_tp h2 = 3 /\ r_stimecmp h2 = 1000500.
Proof.
  assert (hart_ok reset_hart) as W by (constructor; [reflexivity|done|done|by intros []]).
  assert (at_code demo_entry 0x80000000 0x80000000 32 0 0 (words (entry 0x80010000 0x80000100 0x8000001c)) reset_hart) as A.
  { pose proof (words_placed 0x80000000 (entry 0x80010000 0x80000100 0x8000001c) 0) as P. constructor; [done| |compute_in|by exists 0]. intros m' _ k Hk. reflexivity. }
  assert (0 <= 3 < NCPU /\ 0 <= 0x80010000 /\ 0x80010000 + 4096 * NCPU < 2 ^ 64 /\ is_u64 0x80000100 /\ is_u64 0x80001000) as (H1 & H2 & H3 & H4 & H5) by (vm_compute; split_and!; done).
  destruct (harts_enter_main (hw := all_bits) demo_entry 0x80010000 0x80000100 0x8000001c 0x80001000 0x80000000 0x80000000 32 0 0 _ reset_hart 3 all_bits_boot W eq_refl eq_refl H1 H2 H3 H4 H5 eq_refl (words_map _) A)
    as (h1 & h2 & E1 & _ & X1 & E2 & _ & _ & T2 & _ & _ & _ & _ & _ & _ & _ & C2).
  exists h1, h2. exact (conj E1 (conj X1 (conj E2 (conj T2 C2)))).
Defined.
