(* ===== verification/Boot.v ===== *)
(** * Devices at boot and main.c

    plic.c over the registers of the interrupt controller, uartinit over those of
    the uart, and main with all harts running it. *)
From S2P Require Import Prelude State CString Kalloc Vm Sched Printf Console Bytes Bio Log Fs File Proc SysArg Exec Syscall Trap Riscv RiscvSpec.

Open Scope Z_scope.

(** ** The interrupt controller *)

(** The PLIC: a priority for each source, for each context the sources it takes and its
    threshold; the sources that wait and those that are being served.  A context is a mode
    of a hart: supervisor mode of hart [n] is context [2 * n + 1]. *)
Record plic := mkPlic {
  pl_priority : Z -> Z;
  pl_enable : Z -> Z -> Z; (* of a context, its words of 32 sources *)
  pl_threshold : Z -> Z;
  pl_pending : list Z;
  pl_serving : list Z;
}.

Definition fun_set (f : Z -> Z) (k v : Z) : Z -> Z := fun j => if decide (j = k) then v else f j.

Definition PLIC_PRIORITY : Z := PLIC + 0x0.
Definition PLIC_PENDING : Z := PLIC + 0x1000.
Definition PLIC_SENABLE (hart : Z) : Z := PLIC + 0x2080 + hart * 0x100.
Definition PLIC_SPRIORITY (hart : Z) : Z := PLIC + 0x201000 + hart * 0x2000.
Definition PLIC_SCLAIM (hart : Z) : Z := PLIC + 0x201004 + hart * 0x2000.

(** Whether a context takes a source. *)
Definition takes (p : plic) (ctx irq : Z) : bool :=
  Z.testbit (pl_enable p ctx (irq / 32)) (irq mod 32) && (pl_threshold p ctx <? pl_priority p irq).

(** The source of the highest priority, the smallest of them on a tie; 0 when there is none. *)
Definition better (p : plic) (i j : Z) : bool :=
  (pl_priority p j <? pl_priority p i) || ((pl_priority p i =? pl_priority p j) && (i <? j)).
Fixpoint best (p : plic) (l : list Z) : Z :=
  match l with
  | [] => 0
  | i :: l' => let j := best p l' in if (j =? 0) || better p i j then i else j
  end.

(** A load of a claim register, the only one xv6 reads. *)
Definition plic_load (a : Z) (p : plic) : Z * plic :=
  let off := a - PLIC - 0x200000 in
  let ctx := off / 0x1000 in
  if off mod 0x1000 =? 4 then
    let i := best p (filter (fun i => Is_true (takes p ctx i)) (pl_pending p)) in
    if i =? 0 then (0, p)
    else (i, mkPlic (pl_priority p) (pl_enable p) (pl_threshold p) (filter (fun j => j <> i) (pl_pending p)) (i :: pl_serving p))
  else (0, p).

Definition plic_store (a v : Z) (p : plic) : plic :=
  let off := a - PLIC in
  if off <? 0x1000 then mkPlic (fun_set (pl_priority p) (off / 4) v) (pl_enable p) (pl_threshold p) (pl_pending p) (pl_serving p)
  else if off <? 0x200000 then
    let ctx := (off - 0x2000) / 0x80 in
    let word := (off - 0x2000) mod 0x80 / 4 in
    mkPlic (pl_priority p) (fun c => if decide (c = ctx) then fun_set (pl_enable p c) word v else pl_enable p c) (pl_threshold p) (pl_pending p) (pl_serving p)
  else
    let ctx := (off - 0x200000) / 0x1000 in
    if (off - 0x200000) mod 0x1000 =? 0 then mkPlic (pl_priority p) (pl_enable p) (fun_set (pl_threshold p) ctx v) (pl_pending p) (pl_serving p)
    else mkPlic (pl_priority p) (pl_enable p) (pl_threshold p) (pl_pending p) (filter (fun j => j <> v) (pl_serving p)).

(** A device raises its interrupt: it waits unless it is being served. *)
Definition plic_raise (irq : Z) (p : plic) : plic :=
  if bool_decide (irq ∈ pl_pending p) || bool_decide (irq ∈ pl_serving p) then p
  else mkPlic (pl_priority p) (pl_enable p) (pl_threshold p) (irq :: pl_pending p) (pl_serving p).

(** *** plic.c *)
Definition plicinit (p : plic) : plic :=
  let p := plic_store (PLIC + UART0_IRQ * 4) 1 p in
  plic_store (PLIC + VIRTIO0_IRQ * 4) 1 p.

Definition plicinithart (hart : Z) (p : plic) : plic :=
  let p := plic_store (PLIC_SENABLE hart) (Z.lor (Z.shiftl 1 UART0_IRQ) (Z.shiftl 1 VIRTIO0_IRQ)) p in
  plic_store (PLIC_SPRIORITY hart) 0 p.

Definition plic_claim (hart : Z) (p : plic) : Z * plic :=
  let '(irq, p) := plic_load (PLIC_SCLAIM hart) p in
  (int32 irq, p).

Definition plic_complete (hart irq : Z) (p : plic) : plic := plic_store (PLIC_SCLAIM hart) (uint32 irq) p.

(** ** The uart *)

(** The registers of a 16550: with the divisor latch bit of LCR set, the first two
    registers are the divisor. *)
Record uart := mkUart {
  u_ier : Z;
  u_fcr : Z;
  u_lcr : Z;
  u_dll : Z;
  u_dlm : Z;
  u_sent : list Z;
}.

Definition THR : Z := 0.
Definition IER : Z := 1.
Definition IER_RX_ENABLE : Z := Z.shiftl 1 0.
Definition IER_TX_ENABLE : Z := Z.shiftl 1 1.
Definition FCR : Z := 2.
Definition FCR_FIFO_ENABLE : Z := Z.shiftl 1 0.
Definition FCR_FIFO_CLEAR : Z := Z.shiftl 3 1.
Definition LCR : Z := 3.
Definition LCR_EIGHT_BITS : Z := Z.shiftl 3 0.
Definition LCR_BAUD_LATCH : Z := Z.shiftl 1 7.

Definition WriteReg (reg v : Z) (u : uart) : uart :=
  let latch := Z.testbit (u_lcr u) 7 in
  if reg =? 0 then
    if latch then mkUart (u_ier u) (u_fcr u) (u_lcr u) v (u_dlm u) (u_sent u) else mkUart (u_ier u) (u_fcr u) (u_lcr u) (u_dll u) (u_dlm u) (u_sent u ++ [v])
  else if reg =? IER then
    if latch then mkUart (u_ier u) (u_fcr u) (u_lcr u) (u_dll u) v (u_sent u) else mkUart v (u_fcr u) (u_lcr u) (u_dll u) (u_dlm u) (u_sent u)
  else if reg =? FCR then mkUart (u_ier u) v (u_lcr u) (u_dll u) (u_dlm u) (u_sent u)
  else if reg =? LCR then mkUart (u_ier u) (u_fcr u) v (u_dll u) (u_dlm u) (u_sent u)
  else u.

Definition uartinit (u : uart) : uart :=
  let u := WriteReg IER 0 u in
  let u := WriteReg LCR LCR_BAUD_LATCH u in
  let u := WriteReg 0 3 u in
  let u := WriteReg 1 0 u in
  let u := WriteReg LCR LCR_EIGHT_BITS u in
  let u := WriteReg FCR (Z.lor FCR_FIFO_ENABLE FCR_FIFO_CLEAR) u in
  WriteReg IER (Z.lor IER_TX_ENABLE IER_RX_ENABLE) u.

(** ** The theory of the controller *)

(** [hart] is interrupted by the uart and the disk and by nothing else. *)
Definition serves (p : plic) (hart : Z) : Prop := forall irq, 0 < irq < 1024 -> takes p (2 * hart + 1) irq = bool_decide (irq = UART0_IRQ \/ irq = VIRTIO0_IRQ).

(** What the kernel set up does not change while interrupts come and go. *)
Definition same_setup (p p' : plic) : Prop := pl_priority p' = pl_priority p /\ pl_enable p' = pl_enable p /\ pl_threshold p' = pl_threshold p.

Lemma serves_same p p' hart : same_setup p p' -> serves p hart -> serves p' hart.
Proof. intros (E1 & E2 & E3) H irq Hi. unfold takes. rewrite E1, E2, E3. by apply H. Qed.

(** The registers plic.c writes. *)
Lemma store_enable hart v p : 0 <= hart < NCPU -> plic_store (PLIC_SENABLE hart) v p =
  mkPlic (pl_priority p) (fun c => if decide (c = 2 * hart + 1) then fun_set (pl_enable p c) 0 v else pl_enable p c) (pl_threshold p) (pl_pending p) (pl_serving p).
Proof.
  unfold NCPU. intros H. unfold plic_store, PLIC_SENABLE. replace (PLIC + 0x2080 + hart * 0x100 - PLIC) with (0x2080 + hart * 0x100) by lia.
  rewrite (proj2 (Z.ltb_ge _ 0x1000)) by lia. rewrite (proj2 (Z.ltb_lt _ 0x200000)) by lia. replace (0x2080 + hart * 0x100 - 0x2000) with ((2 * hart + 1) * 0x80) by lia. by rewrite Z.div_mul, Z.mod_mul by lia.
Qed.

Lemma store_threshold hart v p : 0 <= hart < NCPU -> plic_store (PLIC_SPRIORITY hart) v p = mkPlic (pl_priority p) (pl_enable p) (fun_set (pl_threshold p) (2 * hart + 1) v) (pl_pending p) (pl_serving p).
Proof.
  unfold NCPU. intros H. unfold plic_store, PLIC_SPRIORITY. replace (PLIC + 0x201000 + hart * 0x2000 - PLIC) with (0x200000 + (2 * hart + 1) * 0x1000) by lia.
  rewrite (proj2 (Z.ltb_ge _ 0x1000)) by lia. rewrite (proj2 (Z.ltb_ge _ 0x200000)) by lia. replace (0x200000 + (2 * hart + 1) * 0x1000 - 0x200000) with ((2 * hart + 1) * 0x1000) by lia. by rewrite Z.div_mul, Z.mod_mul by lia.
Qed.

Lemma store_complete hart v p : 0 <= hart < NCPU -> plic_store (PLIC_SCLAIM hart) v p = mkPlic (pl_priority p) (pl_enable p) (pl_threshold p) (pl_pending p) (filter (fun j => j <> v) (pl_serving p)).
Proof.
  unfold NCPU. intros H. unfold plic_store, PLIC_SCLAIM. replace (PLIC + 0x201004 + hart * 0x2000 - PLIC) with (0x200004 + (2 * hart + 1) * 0x1000) by lia.
  rewrite (proj2 (Z.ltb_ge _ 0x1000)) by lia. rewrite (proj2 (Z.ltb_ge _ 0x200000)) by lia. replace (0x200004 + (2 * hart + 1) * 0x1000 - 0x200000) with (4 + (2 * hart + 1) * 0x1000) by lia. by rewrite Z.mod_add by lia.
Qed.

Lemma load_claim hart p : 0 <= hart < NCPU -> plic_load (PLIC_SCLAIM hart) p =
  let i := best p (filter (fun i => Is_true (takes p (2 * hart + 1) i)) (pl_pending p)) in
  if i =? 0 then (0, p) else (i, mkPlic (pl_priority p) (pl_enable p) (pl_threshold p) (filter (fun j => j <> i) (pl_pending p)) (i :: pl_serving p)).
Proof.
  unfold NCPU. intros H. unfold plic_load, PLIC_SCLAIM. replace (PLIC + 0x201004 + hart * 0x2000 - PLIC - 0x200000) with (4 + (2 * hart + 1) * 0x1000) by lia.
  rewrite Z.mod_add, Z.div_add by lia. done.
Qed.

(** The controller at reset: no context takes anything. *)
Definition plic_reset : plic := mkPlic (fun _ => 0) (fun _ _ => 0) (fun _ => 0) [] [].

(** After plicinit and plicinithart on the harts [hs]. *)
Definition plic_boot (hs : list Z) : plic := foldr plicinithart (plicinit plic_reset) hs.

Definition enable_bits : Z := Z.lor (Z.shiftl 1 UART0_IRQ) (Z.shiftl 1 VIRTIO0_IRQ).

Lemma plic_boot_setup hs p : p = plic_boot hs -> Forall (fun h => 0 <= h < NCPU) hs ->
  pl_pending p = [] /\ pl_serving p = [] /\ pl_priority p = pl_priority (plicinit plic_reset) /\ (forall c, pl_threshold p c = 0) /\ (forall c w, w <> 0 -> pl_enable p c w = 0)
  /\ (forall h, h ∈ hs -> pl_enable p (2 * h + 1) 0 = enable_bits).
Proof.
  intros -> H. induction H as [|h hs Hh _ (I1 & I2 & I3 & I4 & I5 & I6)]; [split_and!; try done; intros h Hh; by apply not_elem_of_nil in Hh|].
  cbn [plic_boot foldr]. fold (plic_boot hs). unfold plicinithart. rewrite store_threshold, store_enable by done. cbn. split_and!; try done.
  - intros c. unfold fun_set. case_decide; [done|apply I4].
  - intros c w Hw. destruct (decide (c = 2 * h + 1)); [|by apply I5]. unfold fun_set. rewrite decide_False by done. by apply I5.
  - intros h' Hin. destruct (decide (2 * h' + 1 = 2 * h + 1)) as [E|Hne]; [done|]. apply I6. apply elem_of_cons in Hin as [->|Hin]; [lia|done].
Qed.

Lemma plicinit_priority irq : pl_priority (plicinit plic_reset) irq = if decide (irq = UART0_IRQ \/ irq = VIRTIO0_IRQ) then 1 else 0.
Proof.
  change (pl_priority (plicinit plic_reset)) with (fun_set (fun_set (fun _ => 0) 10 1) 1 1). unfold fun_set, UART0_IRQ, VIRTIO0_IRQ. repeat case_decide; lia.
Qed.

Lemma plic_boot_serves hs h : Forall (fun h => 0 <= h < NCPU) hs -> h ∈ hs -> serves (plic_boot hs) h.
Proof.
  intros Hs Hin irq Hi. destruct (plic_boot_setup hs _ eq_refl Hs) as (_ & _ & P & T & E & B). unfold takes. rewrite P, T, plicinit_priority. unfold UART0_IRQ, VIRTIO0_IRQ.
  case_decide as Hd; [|by rewrite bool_decide_false, andb_false_r]. rewrite bool_decide_true by done. destruct Hd as [->| ->]; [change (10 / 32) with 0|change (1 / 32) with 0]; by rewrite (B h Hin).
Qed.

(** *** Claims *)
Lemma Forall_filter (P Q : Z -> Prop) `{!forall i, Decision (Q i)} l : Forall P l -> Forall P (filter Q l).
Proof. rewrite !Forall_forall. intros HP i Hi. apply list_elem_of_filter in Hi as [_ Hi]. by apply HP. Qed.

Record plic_ok (p : plic) : Prop := {
  po_range : Forall (fun i => 0 < i < 1024) (pl_pending p ++ pl_serving p);
  po_apart : forall i, i ∈ pl_pending p -> i ∉ pl_serving p;
  po_pending : NoDup (pl_pending p);
  po_serving : NoDup (pl_serving p) }.

Lemma best_in p l : Forall (fun i => 0 < i) l -> (l = [] /\ best p l = 0) \/ (best p l ∈ l /\ best p l <> 0).
Proof.
  induction 1 as [|i l Hi _ IH]; [by left|right]. cbn [best]. destruct IH as [[-> ->]|[H1 H2]]; [cbn; split; [by left|lia]|].
  destruct ((best p l =? 0) || better p i (best p l)); [split; [by left|lia]|split; [by right|done]].
Qed.

(** The claim of a hart that serves the two devices. *)
Lemma claim_spec p hart : 0 <= hart < NCPU -> serves p hart -> plic_ok p -> let '(irq, p') := plic_claim hart p in
  same_setup p p' /\ plic_ok p' /\ ((irq = 0 /\ p' = p /\ UART0_IRQ ∉ pl_pending p /\ VIRTIO0_IRQ ∉ pl_pending p)
    \/ ((irq = UART0_IRQ \/ irq = VIRTIO0_IRQ) /\ irq ∈ pl_pending p /\ irq ∉ pl_serving p /\ pl_pending p' = filter (fun j => j <> irq) (pl_pending p) /\ pl_serving p' = irq :: pl_serving p)).
Proof.
  intros Hh Hs [R A N1 N2]. unfold plic_claim. rewrite load_claim by done. cbv zeta. set (l := filter _ _). apply Forall_app in R as [R1 R2].
  assert (forall i, i ∈ l <-> i ∈ pl_pending p /\ (i = UART0_IRQ \/ i = VIRTIO0_IRQ)) as Hl.
  { intros i. unfold l. rewrite list_elem_of_filter. split; intros [H1 H2].
    - rewrite Hs in H1 by (by apply (proj1 (Forall_forall _ _) R1)). apply Is_true_eq_true, bool_decide_eq_true in H1. done.
    - split; [|done]. rewrite Hs by (by apply (proj1 (Forall_forall _ _) R1)). by rewrite bool_decide_true. }
  assert (Forall (fun i => 0 < i) l) as Hp. { apply Forall_forall. intros i Hi. apply Hl in Hi as [Hi _]. pose proof (proj1 (Forall_forall _ _) R1 i Hi). cbn in *. lia. }
  destruct (best_in p l Hp) as [[E ->]|[Hin Hne]].
  - rewrite Z.eqb_refl. split; [done|]. split; [constructor; [by apply Forall_app|done..]|]. left. split; [done|]. split; [done|]. split; intros H.
    + assert (UART0_IRQ ∈ l) as H' by (apply Hl; auto). rewrite E in H'. by apply not_elem_of_nil in H'.
    + assert (VIRTIO0_IRQ ∈ l) as H' by (apply Hl; auto). rewrite E in H'. by apply not_elem_of_nil in H'.
  - rewrite (proj2 (Z.eqb_neq _ 0)) by done. apply Hl in Hin as [Hin Hdev]. set (i := best p l) in *. assert (int32 i = i) as -> by (destruct Hdev as [->| ->]; done). split; [done|]. pose proof (A i Hin) as Hns. split.
    + constructor; cbn.
      * apply Forall_app. split; [by apply Forall_filter|]. constructor; [by apply (proj1 (Forall_forall _ _) R1)|done].
      * intros j Hj. apply list_elem_of_filter in Hj as [Hj1 Hj2]. apply not_elem_of_cons. split; [done|by apply A].
      * by apply NoDup_filter.
      * by constructor.
    + right. by split_and!.
Qed.

(** What happens at the controller: a device raises an interrupt, a hart claims one, a hart
    completes the one it has served. *)
Inductive plic_op := Raise (irq : Z) | Claim (hart : Z) | Complete (hart irq : Z).
Definition op_ok (o : plic_op) : Prop :=
  match o with Raise irq => 0 < irq < 1024 | Claim hart => 0 <= hart < NCPU | Complete hart irq => 0 <= hart < NCPU /\ 0 <= irq < 1024 end.
Definition plic_step (p : plic) (o : plic_op) : plic :=
  match o with Raise irq => plic_raise irq p | Claim hart => snd (plic_claim hart p) | Complete hart irq => plic_complete hart irq p end.

Lemma plic_step_ok p o : op_ok o -> (forall h, 0 <= h < NCPU -> serves p h) -> plic_ok p -> same_setup p (plic_step p o) /\ plic_ok (plic_step p o).
Proof.
  intros Ho Hs K. destruct o as [irq|hart|hart irq]; cbn [plic_step].
  - unfold plic_raise. destruct (bool_decide (irq ∈ pl_pending p)) eqn:E1; [done|]. destruct (bool_decide (irq ∈ pl_serving p)) eqn:E2; [done|]. apply bool_decide_eq_false in E1, E2. split; [done|]. destruct K as [R A N1 N2].
    constructor; cbn; [by constructor| |by constructor|done]. intros i Hi. apply elem_of_cons in Hi as [->|Hi]; [done|by apply A].
  - pose proof (claim_spec p hart Ho (Hs _ Ho) K) as H. destruct (plic_claim hart p) as [irq p']. cbn. tauto.
  - unfold plic_complete. rewrite store_complete by apply Ho. split; [done|]. destruct K as [R A N1 N2]. constructor; cbn; [|intros i Hi Hi'; apply list_elem_of_filter in Hi' as [_ Hi']; by apply (A i)|done|by apply NoDup_filter].
    apply Forall_app in R as [R1 R2]. apply Forall_app. split; [done|by apply Forall_filter].
Qed.

Lemma plic_run_ok ops p : Forall op_ok ops -> (forall h, 0 <= h < NCPU -> serves p h) -> plic_ok p -> let p' := foldl plic_step p ops in (forall h, 0 <= h < NCPU -> serves p' h) /\ plic_ok p'.
Proof.
  intros H. revert p. induction H as [|o ops Ho _ IH]; intros p Hs K; [done|]. cbn [foldl]. destruct (plic_step_ok p o Ho Hs K) as [S1 K1]. apply IH; [|done]. intros h Hh. eapply serves_same; [done|by apply Hs].
Qed.

(** An interrupt that is served stays so until it is completed. *)
Lemma serving_step p o irq : op_ok o -> (forall h, 0 <= h < NCPU -> serves p h) -> plic_ok p -> (forall h, o <> Complete h irq) -> irq ∈ pl_serving p -> irq ∈ pl_serving (plic_step p o).
Proof.
  intros Ho Hs K Hne Hin. destruct o as [i|hart|hart i]; cbn [plic_step].
  - unfold plic_raise. by destruct (_ || _).
  - pose proof (claim_spec p hart Ho (Hs _ Ho) K) as H. destruct (plic_claim hart p) as [i p']. cbn. destruct H as (_ & _ & [(_ & -> & _)|(_ & _ & _ & _ & ->)]); [done|by right].
  - unfold plic_complete. rewrite store_complete by apply Ho. cbn. apply list_elem_of_filter. split; [|done]. destruct Ho as [_ Ho]. unfold uint32. rewrite Z.mod_small by lia. intros ->. by apply (Hne hart).
Qed.

Lemma serving_run later p irq : Forall (fun o => op_ok o /\ forall h, o <> Complete h irq) later -> (forall h, 0 <= h < NCPU -> serves p h) -> plic_ok p -> irq ∈ pl_serving p ->
  let p' := foldl plic_step p later in (forall h, 0 <= h < NCPU -> serves p' h) /\ plic_ok p' /\ irq ∈ pl_serving p'.
Proof.
  intros H. revert p. induction H as [|o later [Ho Hn] _ IH]; intros p Hs K Hin; [done|]. cbn [foldl]. destruct (plic_step_ok p o Ho Hs K) as [S1 K1].
  apply IH; [intros h Hh; eapply serves_same; [done|by apply Hs]|done|by apply serving_step].
Qed.

Definition all_harts : list Z := seqZ 0 NCPU.

(** C21: Interrupts are claimed one at a time.  When plicinit and plicinithart have run on
    the harts, then in every sequence of interrupts, claims and completions: a claim is
    answered with 0 exactly when neither the uart nor the disk waits; otherwise with one of
    them, which waits and is served by nobody; and then nobody else is given it
    until it is completed.  So devintr, with a claim answered like that, never meets an
    unexpected interrupt: it serves the device and completes the interrupt. *)
Theorem claims_are_exclusive ops hart : Forall op_ok ops -> 0 <= hart < NCPU -> let p := foldl plic_step (plic_boot all_harts) ops in let '(irq, p') := plic_claim hart p in
  (irq = 0 <-> UART0_IRQ ∉ pl_pending p /\ VIRTIO0_IRQ ∉ pl_pending p)
  /\ (irq <> 0 -> (irq = UART0_IRQ \/ irq = VIRTIO0_IRQ) /\ irq ∈ pl_pending p /\ irq ∉ pl_serving p /\ irq ∈ pl_serving p')
  /\ (irq <> 0 -> forall later hart', Forall (fun o => op_ok o /\ forall h, o <> Complete h irq) later -> 0 <= hart' < NCPU -> fst (plic_claim hart' (foldl plic_step p' later)) <> irq)
  /\ (forall intr claim complete idle h s s1, Trap.r_scause h = scause_external -> claim s = Ret irq s1 ->
       devintr intr claim complete idle h s = ((if irq =? UART0_IRQ then uartintr idle else if irq =? VIRTIO0_IRQ then intr else skip) ;;; (if irq =? 0 then skip else complete irq) ;;; ret (1, h)) s1).
Proof.
  intros Hops Hh p. assert (Forall (fun h => 0 <= h < NCPU) all_harts) as Ha by (apply Forall_forall; intros h Hin; by apply elem_of_seqZ in Hin).
  assert ((forall h, 0 <= h < NCPU -> serves p h) /\ plic_ok p) as [Hs K].
  { apply plic_run_ok; [done|intros h H; apply plic_boot_serves; [done|by apply elem_of_seqZ]|]. destruct (plic_boot_setup all_harts _ eq_refl Ha) as (E1 & E2 & _). constructor; rewrite ?E1, ?E2; try constructor. intros i Hi. by apply not_elem_of_nil in Hi. }
  clearbody p. pose proof (claim_spec p hart Hh (Hs _ Hh) K) as H. destruct (plic_claim hart p) as [irq p']. destruct H as (S' & K' & H). assert (forall h, 0 <= h < NCPU -> serves p' h) as Hs' by (intros h H1; eapply serves_same; [done|by apply Hs]).
  split_and!.
  - destruct H as [(-> & _ & H1 & H2)|(Hd & Hp & _)]; [tauto|]. split; [intros ->; by destruct Hd|]. intros [H1 H2]. by destruct Hd as [->| ->].
  - intros Hne. destruct H as [(-> & _)|(Hd & Hp & Hn & _ & ->)]; [done|]. split_and!; [done..|by left].
  - intros Hne later hart' Hl Hh'. destruct H as [(-> & _)|(Hd & Hp & Hn & _ & Es)]; [done|]. assert (irq ∈ pl_serving p') as Hin by (rewrite Es; by left).
    destruct (serving_run later p' irq Hl Hs' K' Hin) as (Hs2 & K2 & Hin2). pose proof (claim_spec _ hart' Hh' (Hs2 _ Hh') K2) as H. destruct (plic_claim hart' _) as [i q]. cbn. destruct H as (_ & _ & [(-> & _)|(_ & _ & H & _)]); [done|]. by intros ->.
  - intros intr claim complete idle h s s1 E Ec. unfold devintr. rewrite E, Z.eqb_refl. erewrite bind_ret_eq by exact Ec. destruct H as [(-> & _)|([->| ->] & _)]; done.
Qed.

(** The disk and then the uart raise their interrupts; hart 2 is given the disk's, and hart 5 the
    uart's. *)
Lemma claims_are_exclusive_witness : let p := foldl plic_step (plic_boot all_harts) [Raise 10; Raise 1] in
  fst (plic_claim 2 p) = 1 /\ fst (plic_claim 5 (foldl plic_step (snd (plic_claim 2 p)) [])) <> 1 /\ fst (plic_claim 5 (snd (plic_claim 2 p))) = 10.
Proof.
  assert (Forall op_ok [Raise 10; Raise 1]) as O by (constructor; [done|constructor; [done|constructor]]). assert (0 <= 2 < NCPU) as H2 by done. assert (0 <= 5 < NCPU) as H5 by done.
  pose proof (claims_are_exclusive [Raise 10; Raise 1] 2 O H2) as H. cbv zeta in H. split; [vm_compute; reflexivity|]. split; [|vm_compute; reflexivity].
  destruct (plic_claim 2 (foldl plic_step (plic_boot all_harts) [Raise 10; Raise 1])) as [irq p'] eqn:E. destruct H as (_ & _ & H & _). assert (irq = 1) as -> by (change irq with (fst (irq, p')); rewrite <- E; vm_compute; reflexivity).
  apply (H ltac:(discriminate) [] 5); [constructor|exact H5].
Defined.

(** ** main.c *)

(** The machine while it boots; [w_done] are the harts that have reached the scheduler. *)
Record world := mkWorld {
  w_kernel : kernel;
  w_hart : Z -> machine;
  w_plic : plic;
  w_uart : uart;
  w_started : bool;
  w_done : list Z;
}.
Definition set_w_kernel (v : kernel) (w : world) : world := mkWorld v (w_hart w) (w_plic w) (w_uart w) (w_started w) (w_done w).
Definition set_w_hart (c : Z) (h : machine) (w : world) : world := mkWorld (w_kernel w) (fun d => if decide (d = c) then h else w_hart w d) (w_plic w) (w_uart w) (w_started w) (w_done w).
Definition set_w_plic (v : plic) (w : world) : world := mkWorld (w_kernel w) (w_hart w) v (w_uart w) (w_started w) (w_done w).
Definition set_w_uart (v : uart) (w : world) : world := mkWorld (w_kernel w) (w_hart w) (w_plic w) v (w_started w) (w_done w).
Definition set_w_started (v : bool) (w : world) : world := mkWorld (w_kernel w) (w_hart w) (w_plic w) (w_uart w) v (w_done w).
Definition set_w_done (v : list Z) (w : world) : world := mkWorld (w_kernel w) (w_hart w) (w_plic w) (w_uart w) (w_started w) v.

(** Kernel code in the world. *)
Fixpoint lift_run {A} (w : world) (r : run kernel A) : run world A :=
  match r with
  | Ret a s => Ret a (set_w_kernel s w)
  | Panic msg => Panic msg
  | Yield s k => Yield (set_w_kernel s w) (fun w' => lift_run w' (k (w_kernel w')))
  | Fuel => Fuel
  end.
Definition lift {A} (m : K A) : M world A := fun w => lift_run w (m (w_kernel w)).

Section Main.
Context {hw : hardware} (kvec : Z) (virtio_disk_init : K unit) (fuel : nat).

(** The kernel's table for this hart; the fences order the accesses of the hardware. *)
Definition kvminithart (c : Z) : M world unit :=
  modify (fun w => set_w_hart c (w_satp (MAKE_SATP (k_kpagetable (w_kernel w))) (w_hart w c)) w).
Definition trapinithart (c : Z) : M world unit :=
  modify (fun w => set_w_hart c (w_stvec kvec (w_hart w c)) w).
(** The switch of the console's read and write is part of [File]. *)
Definition consoleinit : M world unit := modify (fun w => set_w_uart (uartinit (w_uart w)) w).
Definition cpuid (c : Z) : M world Z := gets (fun w => int32 (r_tp (w_hart w c))).
Definition plic_init : M world unit := modify (fun w => set_w_plic (plicinit (w_plic w)) w).
Definition plic_init_hart (c : Z) : M world unit :=
  let* id := cpuid c in modify (fun w => set_w_plic (plicinithart id (w_plic w)) w).

(** The first hart; initlock has no effect on the model of locks, so printfinit, trapinit
    and fileinit are left out. *)
Definition main_first (c : Z) : M world unit :=
  consoleinit ;;;
  let* _ := lift (printf nl []) in
  let* _ := lift (printf ("xv6 kernel is booting" +:+ nl) []) in
  let* _ := lift (printf nl []) in
  lift kinit ;;;
  lift kvminit ;;;
  kvminithart c ;;;
  lift procinit ;;;
  trapinithart c ;;;
  plic_init ;;;
  plic_init_hart c ;;;
  lift binit ;;;
  lift iinit ;;;
  lift virtio_disk_init ;;;
  lift (userinit fuel) ;;;
  modify (set_w_started true).

(** The other harts, when [started] is set. *)
Definition main_rest (c : Z) : M world unit :=
  let* id := cpuid c in
  let* _ := lift (printf ("hart %d starting" +:+ nl) [AInt id]) in
  kvminithart c ;;;
  trapinithart c ;;;
  plic_init_hart c.

(** A turn of hart [c] in main: nothing when it is in the scheduler or finds that [started]
    is still 0. *)
Definition main (c : Z) : M world unit :=
  let* d := gets w_done in
  if bool_decide (c ∈ d) then skip else
  let* id := cpuid c in
  if id =? 0 then
    main_first c ;;;
    modify (fun w => set_w_done (c :: w_done w) w)
  else
    let* st := gets w_started in
    if negb st then skip else
    main_rest c ;;;
    modify (fun w => set_w_done (c :: w_done w) w).
End Main.

(** ** What booting does *)

Lemma lift_inv {A} (m : K A) w a w' : lift m w = Ret a w' -> exists s, m (w_kernel w) = Ret a s /\ w' = set_w_kernel s w.
Proof. unfold lift. destruct (m (w_kernel w)) as [b s| | |]; cbn; try done. intros [= <- <-]. by exists s. Qed.

(** One call of main, whose world is then known. *)
Ltac boot_step H :=
  let E := fresh "E" in let s := fresh "s" in
  apply bind_inv in H as (? & ? & E & H); cbv beta in H;
  first [apply lift_inv in E as (s & E & ->) | injection E as <- <-].

Section Boots.
Context {hw : hardware} (kvec : Z) (virtio_disk_init : K unit) (fuel : nat).

(** The hart after kvminithart and trapinithart. *)
Definition paged (root : Z) (h : machine) : machine := w_stvec kvec (w_satp (MAKE_SATP root) h).

Lemma main_first_spec c w w' : int32 (r_tp (w_hart w c)) = 0 -> main_first kvec virtio_disk_init fuel c w = Ret tt w' ->
  exists s1 s2, kvminit s1 = Ret tt s2 /\ w_hart w' c = paged (k_kpagetable s2) (w_hart w c) /\ (forall d, d <> c -> w_hart w' d = w_hart w d)
  /\ w_plic w' = plicinithart 0 (plicinit (w_plic w)) /\ w_uart w' = uartinit (w_uart w) /\ w_started w' = true /\ w_done w' = w_done w.
Proof.
  intros Hid H. unfold main_first in H. boot_step H. boot_step H. boot_step H. boot_step H. boot_step H. boot_step H. boot_step H. boot_step H. boot_step H. boot_step H. unfold plic_init_hart in H.
  apply bind_inv in H as (? & ? & Eh & H). apply bind_inv in Eh as (id & ? & Eid & Eh). injection Eid as <- <-. injection Eh as <- <-. boot_step H. boot_step H. boot_step H. boot_step H. injection H as <-.
  match goal with K : kvminit _ = Ret ?u _ |- _ => destruct u; eexists _, _; split; [exact K|] end. clear -Hid. cbn -[plicinithart plicinit uartinit csr_write].
  rewrite !decide_True by done. split_and!; try done.
  - intros d Hd. by rewrite !decide_False.
  - unfold r_tp in *. cbn. by rewrite Hid.
Qed.

Lemma printf_kpagetable fmt args s a s' : printf fmt args s = Ret a s' -> k_kpagetable s' = k_kpagetable s.
Proof.
  intros H. destruct (decide (LPr ∈ k_held s)) as [Hin|Hin].
  - unfold printf in H. apply bind_inv in H as (? & ? & E & _). by rewrite acquire_held in E.
  - destruct (printf_spec fmt args s Hin) as (out & E). rewrite E in H. injection H as _ <-. done.
Qed.

Lemma main_rest_spec c w w' : main_rest kvec c w = Ret tt w' ->
  w_hart w' c = paged (k_kpagetable (w_kernel w)) (w_hart w c) /\ (forall d, d <> c -> w_hart w' d = w_hart w d) /\ k_kpagetable (w_kernel w') = k_kpagetable (w_kernel w)
  /\ w_plic w' = plicinithart (int32 (r_tp (w_hart w c))) (w_plic w) /\ w_uart w' = w_uart w /\ w_started w' = w_started w /\ w_done w' = w_done w.
Proof.
  intros H. unfold main_rest in H. apply bind_inv in H as (id & ? & Ec & H). injection Ec as <- <-. boot_step H. boot_step H. boot_step H. unfold plic_init_hart in H.
  apply bind_inv in H as (? & ? & Eid & H). injection Eid as <- <-. injection H as <-. apply printf_kpagetable in E. cbn -[plicinithart csr_write]. rewrite !decide_True by done. rewrite E. split_and!; try done.
  intros d Hd. by rewrite !decide_False.
Qed.

Definition uart_ready (u : uart) : Prop := u_ier u = Z.lor IER_TX_ENABLE IER_RX_ENABLE /\ u_lcr u = LCR_EIGHT_BITS /\ u_dll u = 3 /\ u_dlm u = 0 /\ Z.testbit (u_fcr u) 0 = true.

Lemma uartinit_ready u : Z.testbit (u_lcr u) 7 = false -> uart_ready (uartinit u) /\ u_sent (uartinit u) = u_sent u.
Proof.
  intros H. destruct u as [ier fcr lcr dll dlm sent]. assert (WriteReg IER 0 (mkUart ier fcr lcr dll dlm sent) = mkUart 0 fcr lcr dll dlm sent) as E by (unfold WriteReg; rewrite H; reflexivity).
  unfold uartinit. rewrite E. split; [split_and!|]; reflexivity.
Qed.

(** The world in the middle of booting: [root] is the kernel's page table. *)
Record booting (w : world) : Prop := {
  bo_tp : forall c, 0 <= c < NCPU -> r_tp (w_hart w c) = c;
  bo_done : NoDup (w_done w) /\ Forall (fun c => 0 <= c < NCPU) (w_done w);
  bo_state : (w_started w = false /\ w_done w = [] /\ w_plic w = plic_reset)
    \/ (w_started w = true /\ 0 ∈ w_done w /\ w_plic w = plic_boot (w_done w) /\ uart_ready (w_uart w)
        /\ (exists s1 s2 h, kvminit s1 = Ret tt s2 /\ w_hart w 0 = paged (k_kpagetable s2) h) /\ (forall c, c ∈ w_done w -> c <> 0 -> exists h, w_hart w c = paged (k_kpagetable (w_kernel w)) h)) }.

Lemma main_booting c w w' : 0 <= c < NCPU -> (w_started w = false -> Z.testbit (u_lcr (w_uart w)) 7 = false) -> booting w -> main kvec virtio_disk_init fuel c w = Ret tt w' ->
  booting w' /\ (w_started w' = false -> Z.testbit (u_lcr (w_uart w')) 7 = false).
Proof.
  intros Hc Hu B H. pose proof B as B0. unfold main in H. apply bind_inv in H as (d & ? & E & H). injection E as <- <-. case_bool_decide as Hin; [injection H as <-; done|].
  apply bind_inv in H as (id & ? & E & H). injection E as <- <-. destruct B as [B1 [B2 B2'] B3]. rewrite B1 in H by done. unfold NCPU in *. rewrite int32_small in H by lia. destruct (Z.eqb_spec c 0) as [->|Hne].
  - apply bind_inv in H as (u & w1 & E & H). destruct u. apply main_first_spec in E as (s1 & s2 & K & F1 & F2 & F3 & F4 & F5 & F6); [|by rewrite B1]. injection H as <-.
    destruct B3 as [(S1 & S2 & S3)|(S1 & S2 & _)]; [|done]. split; [|cbn; congruence]. constructor; cbn.
    + intros c Hc'. destruct (decide (c = 0)) as [->|Hn]; [rewrite F1; by apply B1|rewrite F2 by done; by apply B1].
    + rewrite F6, S2. split; [apply NoDup_singleton|by constructor].
    + right. rewrite F3, F4, F5, F6, S2, S3. split_and!; [done|by left|done|by apply uartinit_ready, Hu|by exists s1, s2, (w_hart w 0)|]. intros c H' Hn. apply list_elem_of_singleton in H'. done.
  - apply bind_inv in H as (st & ? & E & H). injection E as <- <-. destruct (w_started w) eqn:Es; cbn [negb] in H; [|injection H as <-; split; [done|by rewrite Es]].
    apply bind_inv in H as (u & w1 & E & H). destruct u. apply main_rest_spec in E as (F1 & F2 & FK & F3 & F4 & F5 & F6). injection H as <-. rewrite B1, int32_small in F3 by lia.
    destruct B3 as [(S1 & _)|(_ & S2 & S3 & S4 & (s1 & s2 & h0 & K & S5) & S6)]; [done|]. split; [|cbn; congruence]. constructor; cbn.
    + intros e He. destruct (decide (e = c)) as [->|Hn]; [rewrite F1; by apply B1|rewrite F2 by done; by apply B1].
    + rewrite F6. split; [by constructor|by constructor].
    + right. rewrite F3, F4, F5, F6, S3, FK. split_and!; [done|by right|done|done|exists s1, s2, h0; by rewrite F2|]. intros e He Hn. destruct (decide (e = c)) as [->|Hec]; [by eexists|].
      rewrite F2 by done. apply S6; [|done]. apply elem_of_cons in He as [->|He]; done.
Qed.

(** The harts boot in order.  However the harts take turns in main, a hart reaches the
    scheduler with the kernel's page table, with traps going to kernelvec and with the
    uart and the disk interrupting it; none does so before hart 0 has set up the kernel,
    made that table and configured the uart, and no hart does so twice. *)
Theorem harts_boot_in_order turns w w' : Forall (fun c => 0 <= c < NCPU) turns -> w_started w = false -> w_done w = [] -> w_plic w = plic_reset -> Z.testbit (u_lcr (w_uart w)) 7 = false ->
  (forall c, 0 <= c < NCPU -> r_tp (w_hart w c) = c) -> for_all turns (main kvec virtio_disk_init fuel) w = Ret tt w' ->
  NoDup (w_done w') /\ forall c, c ∈ w_done w' -> 0 ∈ w_done w' /\ serves (w_plic w') c /\ uart_ready (w_uart w')
    /\ exists root h, w_hart w' c = paged root h /\ if decide (c = 0) then exists s1 s2, kvminit s1 = Ret tt s2 /\ root = k_kpagetable s2 else root = k_kpagetable (w_kernel w').
Proof.
  intros Ht H1 H2 H3 Hu H4 H. assert (booting w) as B by (constructor; [done|rewrite H2; split; [constructor|constructor]|by left]).
  assert (booting w') as [C1 [C2 C2'] C3].
  { clear H1 H2 H3 H4. assert (w_started w = false -> Z.testbit (u_lcr (w_uart w)) 7 = false) as Hu' by done. clear Hu. revert w B Hu' H. induction Ht as [|c turns Hc _ IH]; intros w B Hu H; [by injection H as <-|].
    apply bind_inv in H as ([] & w1 & E & H). destruct (main_booting c w w1 Hc Hu B E) as [B1 U1]. by apply (IH w1). }
  split; [done|]. intros c Hin. destruct C3 as [(_ & E & _)|(_ & S2 & S3 & S4 & (s1 & s2 & h0 & K & S5) & S6)]; [rewrite E in Hin; by apply not_elem_of_nil in Hin|].
  split_and!; [done|rewrite S3; by apply plic_boot_serves|done|]. destruct (decide (c = 0)) as [->|Hn]; [by exists (k_kpagetable s2), h0; split; [|exists s1, s2]|]. destruct (S6 c Hin Hn) as [h E]. by exists (k_kpagetable (w_kernel w')), h.
Qed.
End Boots.
