(* ===== verification/Umalloc.v ===== *)
(** * The user-level memory allocator: umalloc.c

    The free list of Kernighan and Ritchie in the memory of a user process, the
    list of blocks it stands for, and that every sequence of [malloc] calls, for at most
    2^31 - 32 bytes each, and [free] calls hands out disjoint blocks, keeps their contents
    and loses no memory; and what [malloc] does with a request of almost 2^32 bytes. *)
From stdpp Require Import sorting.
From S2P Require Import Prelude.

Open Scope Z_scope.

(** ** The code *)

(** A user process: its memory, [freep] and the end of its heap. *)
Record uheap := mkUheap { u_mem : gmap Z Z; u_freep : Z; u_brk : Z }.

Definition U : Type -> Type := M uheap.

(** [union header]: a pointer and an [uint], 16 bytes. *)
Definition sizeof_header : Z := 16.
Definition s_ptr (p : Z) : U Z := gets (fun s => load64 (u_mem s) p).
Definition s_size (p : Z) : U Z := gets (fun s => load32 (u_mem s) (p + 8)).
Definition set_s_ptr (p v : Z) : U unit :=
  modify (fun s => mkUheap (store64 (u_mem s) p v) (u_freep s) (u_brk s)).
Definition set_s_size (p v : Z) : U unit :=
  modify (fun s => mkUheap (store32 (u_mem s) (p + 8) v) (u_freep s) (u_brk s)).
Definition get_freep : U Z := gets u_freep.
Definition set_freep (p : Z) : U unit := modify (fun s => mkUheap (u_mem s) p (u_brk s)).

(** Pointer arithmetic on [Header*]. *)
Definition hp_add (p n : Z) : Z := wrap64 (p + sizeof_header * n).

Definition SBRK_ERROR : Z := 2 ^ 64 - 1.

Section Umalloc.
(** [&base], and what the kernel answers when the heap that ends at [brk] is to
    be grown by [n] bytes: the new end, or an error. *)
Context (base : Z) (grow : Z -> Z -> option Z).

(** The argument of [sbrk] is an [int]. *)
Definition sbrk (n : Z) : U Z := fun s =>
  match grow (u_brk s) (int32 n) with
  | Some brk' => Ret (u_brk s) (mkUheap (u_mem s) (u_freep s) brk')
  | None => Ret SBRK_ERROR s
  end.

(** The [for] of [free]: where in the list the block goes. *)
Definition free_turn (bp p : Z) : U (Z + Z) :=
  let* nxt := s_ptr p in
  if (p <? bp) && (bp <? nxt) then ret (inr p) else
  if (nxt <=? p) && ((p <? bp) || (bp <? nxt)) then ret (inr p) else
  ret (inl nxt).

(** [if(bp + bp->s.size == p->s.ptr) ...] *)
Definition free_join_next (bp p : Z) : U unit :=
  let* bsize := s_size bp in
  let* nxt := s_ptr p in
  if hp_add bp bsize =? nxt then
    let* nsize := s_size nxt in
    set_s_size bp (uint32 (bsize + nsize)) ;;;
    let* nnxt := s_ptr nxt in
    set_s_ptr bp nnxt
  else set_s_ptr bp nxt.

(** [if(p + p->s.size == bp) ...] *)
Definition free_join_prev (bp p : Z) : U unit :=
  let* psize := s_size p in
  if hp_add p psize =? bp then
    let* bsize := s_size bp in
    set_s_size p (uint32 (psize + bsize)) ;;;
    let* bnxt := s_ptr bp in
    set_s_ptr p bnxt
  else set_s_ptr p bp.

Definition free (fuel : nat) (ap : Z) : U unit :=
  let bp := hp_add ap (-1) in
  let* p := get_freep in
  let* p := while_loop fuel p (free_turn bp) in
  free_join_next bp p ;;;
  free_join_prev bp p ;;;
  set_freep p.

Definition morecore (fuel : nat) (nu : Z) : U Z :=
  let nu := if nu <? 4096 then 4096 else nu in
  let* p := sbrk (nu * sizeof_header) in
  if p =? SBRK_ERROR then ret 0 else
  set_s_size p nu ;;;
  free fuel (hp_add p 1) ;;;
  get_freep.

(** One turn of the [for] of [malloc]; the loop carries [prevp] and [p]. *)
Definition malloc_turn (fuel : nat) (nunits : Z) (st : Z * Z) : U (Z * Z + Z) :=
  let prevp := st.1 in
  let p := st.2 in
  let* size := s_size p in
  if nunits <=? size then
    let* p :=
      (if size =? nunits then
         let* nxt := s_ptr p in
         set_s_ptr prevp nxt ;;; ret p
       else
         set_s_size p (uint32 (size - nunits)) ;;;
         let* size' := s_size p in
         let p := hp_add p size' in
         set_s_size p nunits ;;; ret p) in
    set_freep prevp ;;;
    ret (inr (hp_add p 1))
  else
  let* freep := get_freep in
  let* p := (if p =? freep then
               let* p' := morecore fuel nunits in
               ret (if p' =? 0 then None else Some p')
             else ret (Some p)) in
  match p with
  | None => ret (inr 0)
  | Some p => let* nxt := s_ptr p in ret (inl (p, nxt))
  end.

Definition malloc (fuel : nat) (nbytes : Z) : U Z :=
  let nunits := uint32 ((nbytes + sizeof_header - 1) / sizeof_header + 1) in
  let* freep := get_freep in
  let* prevp :=
    (if freep =? 0 then
       set_freep base ;;; set_s_ptr base base ;;; set_s_size base 0 ;;; ret base
     else ret freep) in
  let* p := s_ptr prevp in
  while_loop fuel (prevp, p) (malloc_turn fuel nunits).

(** ** Lists of blocks in memory *)

(** A block is its address and its size in units of 16 bytes. *)
Definition bend (b : Z * Z) : Z := b.1 + sizeof_header * b.2.
Definition disj (b c : Z * Z) : Prop := bend b <= c.1 \/ bend c <= b.1.

Definition head_addr (l : list (Z * Z)) (e : Z) : Z := match l with [] => e | b :: _ => b.1 end.

(** The headers of the blocks of [l] hold their sizes and are linked, the last
    one to [e]. *)
Fixpoint nodes (m : gmap Z Z) (l : list (Z * Z)) (e : Z) : Prop :=
  match l with
  | [] => True
  | b :: l' => load32 m (b.1 + 8) = b.2 /\ load64 m b.1 = head_addr l' e /\ nodes m l' e
  end.

Definition same_header (m m' : gmap Z Z) (a : Z) : Prop :=
  load64 m' a = load64 m a /\ load32 m' (a + 8) = load32 m (a + 8).

Lemma nodes_app m l r e : nodes m (l ++ r) e <-> nodes m l (head_addr r e) /\ nodes m r e.
Proof.
  induction l as [|b l IH]; simpl; [tauto|]. rewrite IH.
  assert (head_addr (l ++ r) e = head_addr l (head_addr r e)) as -> by (by destruct l). tauto.
Qed.

Lemma nodes_frame m m' l e : Forall (fun b => same_header m m' b.1) l -> nodes m l e -> nodes m' l e.
Proof.
  induction 1 as [|b l [E1 E2] _ IH]; simpl; [done|]. rewrite E1, E2. intuition.
Qed.

Lemma nodes_lookup m l e b : nodes m l e -> b ∈ l -> load32 m (b.1 + 8) = b.2.
Proof.
  induction l as [|c l IH]; simpl; [by intros _ H%elem_of_nil|].
  intros (H1 & _ & H3) [->|Hb]%elem_of_cons; [done|by apply IH].
Qed.

(** Following the links from [prev] meets the blocks of [l]. *)
Fixpoint path (m : gmap Z Z) (prev : Z) (l : list (Z * Z)) : Prop :=
  match l with
  | [] => True
  | b :: l' => load64 m prev = b.1 /\ load32 m (b.1 + 8) = b.2 /\ path m b.1 l'
  end.

Fixpoint tail_addr (a : Z) (l : list (Z * Z)) : Z :=
  match l with
  | [] => a
  | b :: l' => tail_addr b.1 l'
  end.

Lemma tail_addr_snoc a l b : tail_addr a (l ++ [b]) = b.1.
Proof. revert a. induction l as [|c l IH]; intros a; simpl; [done|apply IH]. Qed.

Lemma path_app m a l r : path m a (l ++ r) <-> path m a l /\ path m (tail_addr a l) r.
Proof. revert a. induction l as [|b l IH]; intros a; simpl; [tauto|]. rewrite IH. tauto. Qed.

Lemma nodes_path m l e a : nodes m l e -> (l <> [] -> load64 m a = head_addr l e) -> path m a l.
Proof.
  revert a. induction l as [|b l IH]; intros a; simpl; [done|]. intros (H1 & H2 & H3) H.
  split_and!; [by apply H|done|]. by apply IH.
Qed.

Lemma nodes_tail m l e a : nodes m l e -> l <> [] -> load64 m (tail_addr a l) = e.
Proof.
  revert a. induction l as [|b l IH]; intros a; [done|]. intros (H1 & H2 & H3) _. destruct l as [|c l]; [done|].
  simpl tail_addr. apply (IH b.1 H3). done.
Qed.

(** The list in the order in which the links visit it from block [f] on. *)
Lemma ring_path m A f B e :
  nodes m (A ++ f :: B) e -> head_addr (A ++ f :: B) e = e -> path m f.1 (B ++ A ++ [f]).
Proof.
  intros Hn He. apply nodes_app in Hn as [HA Hn]. pose proof Hn as (Hs & Hp & HB). simpl in HA.
  rewrite !path_app. split_and!.
  - by eapply nodes_path.
  - eapply nodes_path; [done|]. intros HAn.
    assert (head_addr A f.1 = e) as -> by (by destruct A).
    destruct B as [|b B]; [done|]. by eapply nodes_tail.
  - simpl. split_and!; [|done|done]. destruct A as [|a A].
    + simpl in He. cbn [tail_addr]. destruct B as [|b B]; [simpl in *; congruence|]. rewrite He. by apply (nodes_tail m (b :: B) e).
    + by apply (nodes_tail m (a :: A) f.1).
Qed.

Definition lower (b c : Z * Z) : Prop := bend b < c.1.

Lemma lower_head a b l :
  StronglySorted lower (a :: b :: l) -> Forall (fun b => 0 <= b.2) (a :: b :: l) -> a.1 < b.1.
Proof.
  intros [Hl _]%StronglySorted_cons [Hz _]%Forall_cons. apply Forall_cons in Hl as [Hl _].
  unfold lower, bend, sizeof_header in Hl. lia.
Qed.

(** ** Where a freed block goes *)
Section Find.
Context (s : uheap) (bp : Z).

Lemma free_turn_eq p nxt :
  load64 (u_mem s) p = nxt ->
  free_turn bp p s =
  Ret (if (p <? bp) && (bp <? nxt) then inr p
       else if (nxt <=? p) && ((p <? bp) || (bp <? nxt)) then inr p else inl nxt) s.
Proof. intros <-. unfold free_turn, s_ptr. erewrite bind_ret_eq by reflexivity. simpl. by repeat case_match. Qed.

Lemma find_before fuel a r l :
  nodes (u_mem s) (a :: l ++ r) base -> StronglySorted lower (a :: l) -> Forall (fun b => 0 <= b.2) (a :: l) ->
  Forall (fun b => b.1 < bp) (a :: l) -> base <= a.1 -> (forall c r', r = c :: r' -> bp < c.1) ->
  (length l < fuel)%nat ->
  while_loop fuel a.1 (free_turn bp) s = Ret (tail_addr a.1 l) s.
Proof.
  revert fuel a. induction l as [|b l IH]; intros fuel a Hn Hs Hz Hb Ha Hr Hf; (destruct fuel as [|fuel]; [simpl in Hf; lia|]);
    apply Forall_cons in Hb as [Hab Hb]; destruct Hn as (_ & Hp & Hn).
  - apply while_done. simpl app in Hp. rewrite (free_turn_eq _ _ Hp).
    destruct r as [|c r]; simpl head_addr; simpl tail_addr.
    + rewrite (proj2 (Z.ltb_lt a.1 bp)), (proj2 (Z.ltb_ge bp base)), (proj2 (Z.leb_le base a.1)) by lia. done.
    + specialize (Hr c r eq_refl). rewrite (proj2 (Z.ltb_lt a.1 bp)), (proj2 (Z.ltb_lt bp c.1)) by lia. done.
  - simpl app in Hp. simpl head_addr in Hp. pose proof Hb as [Hbb _]%Forall_cons.
    pose proof (lower_head a b l Hs Hz) as Hlt. apply Forall_cons in Hz as [Hz0 Hz].
    erewrite while_next.
    2: { rewrite (free_turn_eq _ _ Hp), (proj2 (Z.ltb_ge bp b.1)), (proj2 (Z.leb_gt b.1 a.1)) by lia. by rewrite andb_false_r. }
    apply IH; try done; [by inversion Hs|lia|simpl in Hf; lia].
Qed.

Lemma find_after fuel a l :
  nodes (u_mem s) (a :: l) base -> StronglySorted lower (a :: l) -> Forall (fun b => 0 <= b.2) (a :: l) ->
  bp < a.1 -> base < bp ->
  while_loop (S (length l) + fuel) a.1 (free_turn bp) s = while_loop fuel base (free_turn bp) s.
Proof.
  revert a. induction l as [|b l IH]; intros a Hn Hs Hz Ha Hb; destruct Hn as (_ & Hp & Hn); cbn [Nat.add length].
  - apply while_next. rewrite (free_turn_eq _ _ Hp). simpl head_addr.
    rewrite (proj2 (Z.ltb_ge a.1 bp)), (proj2 (Z.ltb_ge bp base)), (proj2 (Z.leb_le base a.1)) by lia. done.
  - simpl head_addr in Hp. pose proof (lower_head a b l Hs Hz) as Hlt. apply Forall_cons in Hz as [Hz0 Hz].
    erewrite while_next.
    2: { rewrite (free_turn_eq _ _ Hp), (proj2 (Z.ltb_ge a.1 bp)), (proj2 (Z.leb_gt b.1 a.1)) by lia. reflexivity. }
    apply IH; try done; [by inversion Hs|lia].
Qed.

(** From any block of the list the search ends at the last block below [bp]. *)
Lemma find_spec fuel p l q r :
  nodes (u_mem s) (l ++ q :: r) base -> StronglySorted lower (l ++ q :: r) -> Forall (fun b => 0 <= b.2) (l ++ q :: r) ->
  head_addr (l ++ q :: r) base = base -> base < bp ->
  Forall (fun b => b.1 < bp) (l ++ [q]) -> Forall (fun b => bp < b.1) r ->
  p ∈ map fst (l ++ q :: r) -> (length (l ++ q :: r) < fuel)%nat ->
  while_loop fuel p (free_turn bp) s = Ret q.1 s.
Proof.
  intros Hn Hs Hz Hh Hb Hl Hr Hp Hf.
  assert (forall fuel a l1 l2, l ++ [q] = l1 ++ a :: l2 -> base <= a.1 -> (length l2 < fuel)%nat ->
    while_loop fuel a.1 (free_turn bp) s = Ret q.1 s) as Hbefore.
  { intros fuel' a l1 l2 E Ha Hf'.
    assert (l ++ q :: r = l1 ++ (a :: l2) ++ r) as E2.
    { change (q :: r) with ([q] ++ r). by rewrite app_assoc, E, <- app_assoc. }
    rewrite E2 in Hn, Hs, Hz. rewrite E in Hl.
    rewrite (find_before fuel' a r l2); [|by apply nodes_app in Hn as [_ Hn]|..].
    - f_equal. destruct l2 as [|b l2'] using rev_ind.
      + apply app_inj_tail in E as [_ ->]. done.
      + rewrite tail_addr_snoc. rewrite app_comm_cons, app_assoc in E. by apply app_inj_tail in E as [_ <-].
    - apply StronglySorted_app_1_r, StronglySorted_app_1_l in Hs. done.
    - apply Forall_app in Hz as [_ Hz]. by apply Forall_app in Hz as [Hz _].
    - by apply Forall_app in Hl as [_ Hl].
    - done.
    - intros c r' ->. by apply Forall_cons in Hr as [Hr _].
    - done. }
  assert (forall b, b ∈ l ++ q :: r -> base <= b.1) as Hge.
  { intros b Hin. destruct (l ++ q :: r) as [|b0 N]; [by apply elem_of_nil in Hin|]. simpl in Hh.
    apply elem_of_cons in Hin as [->|Hin]; [lia|]. inversion Hs as [|? ? _ Hlow]; subst.
    rewrite Forall_forall in Hlow. specialize (Hlow b Hin). apply Forall_cons in Hz as [Hz _].
    unfold lower, bend, sizeof_header in Hlow. lia. }
  apply list_elem_of_fmap in Hp as (a & -> & Ha).
  destruct (decide (a ∈ l ++ [q])) as [Hin|Hin].
  - apply list_elem_of_split in Hin as (l1 & l2 & E).
    apply (Hbefore _ a l1 l2 E); [by apply Hge|]. apply (f_equal length) in E. len_lia.
  - assert (a ∈ r) as Har by set_solver. apply list_elem_of_split in Har as (r1 & r2 & ->).
    assert (l ++ q :: r1 ++ a :: r2 = (l ++ q :: r1) ++ a :: r2) as E by (by rewrite <- app_assoc).
    replace fuel with (S (length r2) + (fuel - S (length r2)))%nat by len_lia.
    rewrite find_after; try done.
    + destruct l as [|b0 l0].
      * simpl in Hh. rewrite <- Hh. apply (Hbefore _ q [] []); [done|lia|len_lia].
      * simpl in Hh. rewrite <- Hh. apply (Hbefore _ b0 [] (l0 ++ [q])); [done|lia|len_lia].
    + rewrite E in Hn. by apply nodes_app in Hn as [_ Hn].
    + rewrite E in Hs. by apply StronglySorted_app_1_r in Hs.
    + rewrite E in Hz. by apply Forall_app in Hz as [_ Hz].
    + apply Forall_app in Hr as [_ Hr]. by apply Forall_cons in Hr as [Hr _].
Qed.
End Find.

(** ** The invariant of the heap *)
Context (brk0 : Z).

Definition units (l : list (Z * Z)) : Z := foldr (fun b acc => b.2 + acc) 0 l.
Definition live_units (live : gmap Z Z) : Z := map_fold (fun _ n acc => n + acc) 0 live.

(** A block of the heap proper. *)
Definition in_heap (brk : Z) (b : Z * Z) : Prop := base + sizeof_header <= b.1 /\ 0 < b.2 /\ bend b <= brk.

(** [N] is the free list from [base] on and [live] the blocks handed out, by
    address, with their sizes. *)
Record heap_inv (s : uheap) (N : list (Z * Z)) (live : gmap Z Z) : Prop := {
  hi_nodes : nodes (u_mem s) N base;
  hi_head : exists fs, N = (base, 0) :: fs;
  hi_sorted : StronglySorted lower N;
  hi_good : Forall (fun b => b = (base, 0) \/ in_heap (u_brk s) b) N;
  hi_freep : u_freep s ∈ map fst N;
  hi_live : forall a n, live !! a = Some n -> in_heap (u_brk s) (a, n) /\ load32 (u_mem s) (a + 8) = n;
  hi_disj : forall a n b k, live !! a = Some n -> live !! b = Some k -> a <> b -> disj (a, n) (b, k);
  hi_cross : forall f a n, f ∈ N -> live !! a = Some n -> disj f (a, n);
  hi_brk : 0 < base /\ base + sizeof_header <= brk0 <= u_brk s /\ u_brk s < 2 ^ 36;
  hi_total : sizeof_header * (units N + live_units live) = u_brk s - brk0
}.

Lemma units_app l r : units (l ++ r) = units l + units r.
Proof. induction l as [|b l IH]; simpl; [done|]. lia. Qed.

Lemma live_insert live a n : live !! a = None -> live_units (<[a := n]> live) = n + live_units live.
Proof. intros H. unfold live_units. rewrite map_fold_insert_L; [done| |done]. intros. lia. Qed.

Lemma live_delete live a n : live !! a = Some n -> live_units live = n + live_units (delete a live).
Proof. intros H. unfold live_units. rewrite (map_fold_delete_L _ _ a n); [done| |done]. intros. lia. Qed.

(** Memory that differs only in the header at [a]. *)
Definition only_header (a : Z) (m m' : gmap Z Z) : Prop :=
  forall x, ~ (a <= x < a + sizeof_header) -> load8 m' x = load8 m x.

Lemma only_header_same a m m' b :
  only_header a m m' -> b + sizeof_header <= a \/ a + sizeof_header <= b -> same_header m m' b.
Proof.
  unfold sizeof_header. intros H Hb. split; [apply load64_agree|apply load32_agree]; intros x Hx; apply H; unfold sizeof_header; lia.
Qed.

(** ** free *)
Section Free.
Context (s : uheap).

Definition with_umem (m : gmap Z Z) (s : uheap) : uheap := mkUheap m (u_freep s) (u_brk s).

(** The block joins the one that follows it. *)
Definition merge_right (b : Z * Z) (R : list (Z * Z)) : (Z * Z) * list (Z * Z) :=
  match R with
  | c :: R' => if bend b =? c.1 then ((b.1, b.2 + c.2), R') else (b, R)
  | [] => (b, [])
  end.

Lemma uload32_range m a : 0 <= load32 m a < 2 ^ 32.
Proof. apply load32_range. Qed.

Lemma hp_add_small p n : 0 <= p -> 0 <= p + 16 * n < 2 ^ 64 -> hp_add p n = p + 16 * n.
Proof. intros H1 H2. unfold hp_add, sizeof_header. by apply wrap64_small. Qed.

Lemma join_next m b n p R :
  nodes m R base -> load32 m (b + 8) = n -> load64 m p = head_addr R base ->
  0 <= base < b -> 0 < n -> b + 16 * n < 2 ^ 36 ->
  (forall c R', R = c :: R' -> 0 < c.2 /\ bend c < 2 ^ 36 /\ b + 16 * n <= c.1) ->
  exists m1, free_join_next b p (with_umem m s) = Ret tt (with_umem m1 s)
  /\ only_header b m m1
  /\ load32 m1 (b + 8) = (merge_right (b, n) R).1.2
  /\ load64 m1 b = head_addr (merge_right (b, n) R).2 base.
Proof.
  intros Hn Hb Hp Hbase Hn0 Hmax HR. unfold free_join_next, s_size, s_ptr.
  erewrite bind_ret_eq by reflexivity. erewrite bind_ret_eq by reflexivity. cbn [u_mem with_umem]. rewrite Hb, Hp.
  rewrite hp_add_small by lia. pose proof (load32_range m (b + 8)) as Hr32.
  destruct R as [|c R]; cbn [head_addr].
  - rewrite (proj2 (Z.eqb_neq (b + 16 * n) base)) by lia. eexists. split; [reflexivity|]. split_and!.
    + intros x Hx. apply load8_store64_ne. unfold sizeof_header in Hx. lia.
    + simpl. by rewrite load32_store64_ne by lia.
    + simpl. apply load64_store64_eq. lia.
  - destruct (HR c R eq_refl) as (Hc & Hce & Hbc). destruct Hn as (Hs & Hl & _).
    unfold merge_right, bend, sizeof_header in *. simpl fst. simpl snd.
    destruct (Z.eqb_spec (b + 16 * n) c.1) as [E|E].
    + erewrite bind_ret_eq by reflexivity. cbn [u_mem with_umem]. rewrite Hs. erewrite bind_ret_eq by reflexivity.
      erewrite bind_ret_eq by reflexivity. eexists. split; [reflexivity|]. simpl. split_and!.
      * intros x Hx. unfold sizeof_header in Hx. rewrite load8_store64_ne, load8_store32_ne by lia. done.
      * rewrite load32_store64_ne, load32_store32_eq by lia. rewrite (uint32_small (n + c.2)), uint32_small by lia. done.
      * rewrite load64_store64_eq, load64_store32_ne by (lia || apply load64_range). by rewrite Hl.
    + eexists. split; [reflexivity|]. simpl. split_and!.
      * intros x Hx. unfold sizeof_header in Hx. apply load8_store64_ne. lia.
      * by rewrite load32_store64_ne by lia.
      * apply load64_store64_eq. lia.
Qed.

(** The block joins the one before it. *)
Definition merge_left (q b : Z * Z) : list (Z * Z) := if bend q =? b.1 then [(q.1, q.2 + b.2)] else [q; b].

Lemma join_prev m b q e :
  load32 m (q.1 + 8) = q.2 -> load32 m (b.1 + 8) = b.2 -> load64 m b.1 = e ->
  0 <= q.1 -> q.1 + 16 <= b.1 -> 0 <= q.2 -> bend q <= b.1 -> 0 < b.2 -> bend b < 2 ^ 36 ->
  exists m1, free_join_prev b.1 q.1 (with_umem m s) = Ret tt (with_umem m1 s)
  /\ only_header q.1 m m1 /\ nodes m1 (merge_left q b) e.
Proof.
  intros Hq Hb He Hq0 Hqb Hq2 Hqe Hb2 Hmax. unfold free_join_prev, s_size, s_ptr.
  unfold merge_left, bend, sizeof_header in *. erewrite bind_ret_eq by reflexivity. cbn [u_mem with_umem]. rewrite Hq.
  rewrite hp_add_small by lia. pose proof (load64_range m b.1) as Hr64.
  destruct (Z.eqb_spec (q.1 + 16 * q.2) b.1) as [E|E].
  - erewrite bind_ret_eq by reflexivity. cbn [u_mem with_umem]. rewrite Hb. erewrite bind_ret_eq by reflexivity.
    erewrite bind_ret_eq by reflexivity. eexists. split; [reflexivity|]. simpl. split_and!; [| | |done].
    + intros x Hx. unfold sizeof_header in Hx. rewrite load8_store64_ne, load8_store32_ne by lia. done.
    + rewrite load32_store64_ne, load32_store32_eq by lia. rewrite (uint32_small (q.2 + b.2)), uint32_small by lia. done.
    + rewrite load64_store64_eq, load64_store32_ne by (lia || apply load64_range). done.
  - eexists. split; [reflexivity|]. simpl. split_and!; [| | | | |done].
    + intros x Hx. apply load8_store64_ne. unfold sizeof_header in Hx. lia.
    + by rewrite load32_store64_ne by lia.
    + apply load64_store64_eq. lia.
    + by rewrite load32_store64_ne by lia.
    + by rewrite load64_store64_ne by lia.
Qed.
End Free.

Lemma split_at a l b :
  a.1 < b -> StronglySorted lower (a :: l) -> Forall (fun x => 0 <= x.2) (a :: l) -> (forall f, f ∈ l -> f.1 <> b) ->
  exists L q R, a :: l = L ++ q :: R /\ Forall (fun x => x.1 < b) (L ++ [q]) /\ Forall (fun x => b < x.1) R.
Proof.
  revert a. induction l as [|c l IH]; intros a Ha Hs Hz Hb.
  { exists [], a, []. split_and!; [done|by repeat constructor|constructor]. }
  pose proof (lower_head a c l Hs Hz) as Hac. pose proof Hs as [_ Hs']%StronglySorted_cons. pose proof Hz as [Hza Hz']%Forall_cons.
  destruct (decide (c.1 < b)) as [Hc|Hc].
  - destruct (IH c Hc Hs' Hz') as (L & q & R & -> & H1 & H2); [set_solver|].
    exists (a :: L), q, R. split_and!; [done|by constructor|done].
  - exists [], a, (c :: l). split_and!; [done|by repeat constructor|]. apply Forall_forall. intros x Hx.
    assert (c.1 <> b) by (apply Hb; set_solver). apply elem_of_cons in Hx as [->|Hx]; [lia|].
    apply StronglySorted_cons in Hs' as [Hs' _]. rewrite Forall_forall in Hs'. specialize (Hs' x Hx).
    apply Forall_cons in Hz' as [Hzc _]. unfold lower, bend, sizeof_header in Hs'. lia.
Qed.

(** What joining keeps. *)
Lemma merge_right_facts brk b n R :
  0 < n -> bend (b, n) <= brk -> StronglySorted lower R -> Forall (in_heap brk) R ->
  Forall (fun c => bend (b, n) <= c.1) R ->
  let b1 := (merge_right (b, n) R).1 in
  let R1 := (merge_right (b, n) R).2 in
  b1.1 = b /\ n <= b1.2 /\ bend b1 <= brk /\ StronglySorted lower (b1 :: R1) /\ (forall x, x ∈ R1 -> x ∈ R)
  /\ (exists pre, R = pre ++ R1)
  /\ b1.2 + units R1 = n + units R
  /\ (forall x, 0 < x.2 -> disj (b, n) x -> (forall c, c ∈ R -> disj c x) -> disj b1 x).
Proof.
  intros Hn Hb Hs Hh HR. destruct R as [|c R]; simpl.
  { split_and!; try done; [by repeat constructor|by exists []]. }
  apply Forall_cons in HR as [Hc HR]. apply Forall_cons in Hh as [(C1 & C2 & C3) Hh].
  pose proof Hs as [Hlow Hs']%StronglySorted_cons. unfold bend, sizeof_header in *. simpl in *.
  destruct (Z.eqb_spec (b + 16 * n) c.1) as [E|E]; simpl.
  - split_and!; [done|lia|lia| | |by exists [c]|lia|].
    + apply StronglySorted_cons. split; [|done]. eapply Forall_impl; [exact Hlow|]. intros x. unfold lower, bend, sizeof_header. simpl. lia.
    + set_solver.
    + intros x Hx D1 D2. specialize (D2 c ltac:(set_solver)). unfold disj, bend, sizeof_header in *. simpl in *. lia.
  - split_and!; [done|lia|lia| |done|by exists []|lia|done].
    apply StronglySorted_cons. split; [|done]. constructor; [unfold lower, bend, sizeof_header; simpl; lia|].
    eapply Forall_impl; [exact Hlow|]. intros x. unfold lower, bend, sizeof_header. simpl. lia.
Qed.

Lemma merge_left_facts brk L q b R :
  StronglySorted lower (L ++ [q]) -> StronglySorted lower (b :: R) -> bend q <= b.1 -> 0 <= q.2 -> 0 < b.2 ->
  bend b <= brk -> q = (base, 0) \/ in_heap brk q -> base + sizeof_header <= b.1 ->
  Forall (fun x => bend x <= q.1) L ->
  let N := L ++ merge_left q b ++ R in
  StronglySorted lower N
  /\ Forall (fun x => x = (base, 0) \/ in_heap brk x) (merge_left q b)
  /\ (exists x, x ∈ N /\ b.2 <= x.2)
  /\ (exists k, head (merge_left q b) = Some (q.1, k) /\ (q = (base, 0) -> k = 0))
  /\ units (merge_left q b) = q.2 + b.2
  /\ (forall x y, x ∈ merge_left q b -> 0 < y.2 -> disj q y -> disj b y -> disj x y).
Proof.
  intros HL HR Hqb Hq Hb Hbrk Hgood Hbase HLq. pose proof HR as [HbR HsR]%StronglySorted_cons.
  apply StronglySorted_app in HL as (HLq' & HsL & _). unfold merge_left.
  assert (q = (base, 0) -> bend q =? b.1 = false) as Hnb.
  { intros ->. unfold bend, sizeof_header in *. simpl. lia. }
  rewrite Forall_forall in HLq.
  destruct (Z.eqb_spec (bend q) b.1) as [E|E]; simpl.
  - assert (in_heap brk q) as (Q1 & Q2 & Q3) by (destruct Hgood as [Hg|]; [by specialize (Hnb Hg)|done]).
    unfold bend, sizeof_header in *. simpl in *. split_and!.
    + apply StronglySorted_app. split_and!; [|done|].
      * intros x y Hx [->|Hy]%elem_of_cons.
        -- unfold lower. simpl. apply (HLq' x q Hx). set_solver.
        -- unfold lower. rewrite Forall_forall in HbR. specialize (HbR y Hy). specialize (HLq x Hx).
           unfold lower, bend, sizeof_header in *. lia.
      * apply StronglySorted_cons. split; [|done]. eapply Forall_impl; [exact HbR|]. intros x.
        unfold lower, bend, sizeof_header. simpl. lia.
    + constructor; [|constructor]. right. unfold in_heap, bend, sizeof_header. simpl. lia.
    + eexists. split; [apply elem_of_app; right; by left|]. simpl. lia.
    + eexists. split; [reflexivity|]. intros Hg. rewrite Hg in Q2. simpl in Q2. lia.
    + lia.
    + intros x y ->%list_elem_of_singleton Hy. unfold disj, bend, sizeof_header. simpl. lia.
  - unfold bend, sizeof_header in *. split_and!.
    + apply StronglySorted_app. split_and!; [|done|].
      * intros x y Hx [->|Hy]%elem_of_cons; [apply (HLq' x q Hx); set_solver|].
        specialize (HLq x Hx). unfold lower, bend, sizeof_header in *. apply elem_of_cons in Hy as [->|Hy]; [lia|].
        rewrite Forall_forall in HbR. specialize (HbR y Hy). unfold bend, sizeof_header in *. lia.
      * apply StronglySorted_cons. split; [|done]. constructor; [unfold lower, bend, sizeof_header; lia|].
        eapply Forall_impl; [exact HbR|]. intros x. unfold lower, bend, sizeof_header. lia.
    + constructor; [done|]. constructor; [|constructor]. right. unfold in_heap, bend, sizeof_header. lia.
    + exists b. split; [apply elem_of_app; right; right; by left|lia].
    + exists q.2. split; [by destruct q|]. by intros ->.
    + lia.
    + intros x y [->|[->|Hx%elem_of_nil]%elem_of_cons]%elem_of_cons; done.
Qed.

(** Memory that differs only in the headers at [a] and [b]. *)
Lemma headers_frame a b m m1 m2 l e :
  only_header a m m1 -> only_header b m1 m2 ->
  Forall (fun x => (x.1 + 16 <= a \/ a + 16 <= x.1) /\ (x.1 + 16 <= b \/ b + 16 <= x.1)) l ->
  nodes m l e -> nodes m2 l e.
Proof.
  intros H1 H2 Hl. apply nodes_frame. eapply Forall_impl; [exact Hl|]. intros x [Ha Hb].
  destruct (only_header_same _ _ _ x.1 H1) as [E1 E2]; [unfold sizeof_header; lia|].
  destruct (only_header_same _ _ _ x.1 H2) as [E3 E4]; [unfold sizeof_header; lia|].
  split; congruence.
Qed.

Section FreeSpec.
Context (s : uheap) (N : list (Z * Z)) (live : gmap Z Z) (b n : Z).
Context (Inv : heap_inv s N live) (Hb : live !! b = Some n).

Lemma inv_nonneg : Forall (fun x => 0 <= x.2) N.
Proof.
  eapply Forall_impl; [apply Inv|]. intros x [->|(_ & ? & _)]; simpl; lia.
Qed.

(** The list around the block, with its neighbours. *)
Lemma inv_split : exists L q R, N = L ++ q :: R
  /\ Forall (fun x => bend x <= b /\ x.1 + 16 <= b) (L ++ [q]) /\ Forall (fun c => bend (b, n) <= c.1 /\ in_heap (u_brk s) c) R.
Proof.
  destruct (hi_live _ _ _ Inv b n Hb) as [(B1 & B2 & B3) _]. destruct (hi_head _ _ _ Inv) as [fs EN].
  destruct (hi_brk _ _ _ Inv) as (Z1 & Z2 & Z3). pose proof (hi_good _ _ _ Inv) as HG. pose proof (hi_sorted _ _ _ Inv) as HS.
  pose proof inv_nonneg as Hz. pose proof (hi_cross _ _ _ Inv) as HX. unfold bend, sizeof_header in *. simpl in *.
  destruct (split_at (base, 0) fs b) as (L & q & R & E & H1 & H2); [simpl; lia|by rewrite <- EN|by rewrite <- EN| |].
  { intros f Hf Efb. specialize (HX f b n). rewrite EN in HX, HG, HS. apply Forall_cons in HG as [_ HG].
    rewrite Forall_forall in HG. specialize (HX ltac:(set_solver) Hb). unfold disj, bend, sizeof_header in HX. simpl in HX.
    destruct (HG f Hf) as [->|(_ & ? & _)]; simpl in *; lia. }
  rewrite <- EN in E. exists L, q, R. split; [done|]. rewrite E in HG, HX. split; apply Forall_forall; intros x Hx.
  - rewrite Forall_forall in H1. specialize (H1 x Hx). simpl in H1.
    assert (x ∈ L ++ q :: R) as Hin by set_solver. specialize (HX x b n Hin Hb). rewrite Forall_forall in HG.
    unfold disj, bend, sizeof_header in HX. simpl in HX.
    destruct (HG x Hin) as [->|(? & ? & _)]; simpl in *; lia.
  - rewrite Forall_forall in H2. specialize (H2 x Hx). simpl in H2.
    assert (x ∈ L ++ q :: R) as Hin by set_solver. specialize (HX x b n Hin Hb). rewrite Forall_forall in HG.
    unfold disj, bend, sizeof_header in HX. simpl in HX.
    destruct (HG x Hin) as [->|G]; [simpl in *; lia|]. split; [unfold bend, sizeof_header; simpl; destruct G as (? & ? & ?); lia|done].
Qed.

(** Bytes outside the two headers that [free] may write. *)
Lemma free_run fuel L q R :
  N = L ++ q :: R -> Forall (fun x => bend x <= b /\ x.1 + 16 <= b) (L ++ [q]) ->
  Forall (fun c => bend (b, n) <= c.1 /\ in_heap (u_brk s) c) R -> (length N < fuel)%nat ->
  let b1 := (merge_right (b, n) R).1 in
  let R1 := (merge_right (b, n) R).2 in
  exists m1 m2, free fuel (b + 16) s = Ret tt (mkUheap m2 q.1 (u_brk s))
  /\ only_header b (u_mem s) m1 /\ only_header q.1 m1 m2
  /\ load32 m1 (b + 8) = b1.2 /\ load64 m1 b = head_addr R1 base
  /\ nodes m2 (merge_left q (b, b1.2)) (head_addr R1 base).
Proof.
  intros EN HL HR Hf b1 R1. destruct (hi_live _ _ _ Inv b n Hb) as [(B1 & B2 & B3) Hsz].
  destruct (hi_brk _ _ _ Inv) as (Z1 & Z2 & Z3). pose proof (hi_nodes _ _ _ Inv) as Hn. pose proof inv_nonneg as Hz.
  pose proof (hi_sorted _ _ _ Inv) as HS. destruct (hi_head _ _ _ Inv) as [fs Efs].
  assert (head_addr N base = base) as Hh by by rewrite Efs. pose proof (hi_freep _ _ _ Inv) as Hfp.
  assert (base <= q.1) as Hbq.
  { pose proof (hi_good _ _ _ Inv) as HG. rewrite EN, Forall_app, Forall_cons in HG.
    destruct HG as (_ & [->|(? & _ & _)] & _); unfold sizeof_header in *; simpl; lia. }
  rewrite EN in Hn, Hz, HS, Hh, Hfp, Hf. apply nodes_app in Hn as HnR. destruct HnR as [_ HnR]. destruct HnR as (Hqs & Hqp & HnR).
  pose proof HL as [_ HLq]%Forall_app. apply Forall_cons in HLq as [[Hq1 Hq2] _].
  unfold bend, sizeof_header in B3. simpl in B2, B3.
  unfold free. erewrite bind_ret_eq by reflexivity.
  assert (hp_add (b + 16) (-1) = b) as ->.
  { unfold hp_add, sizeof_header in *. rewrite wrap64_small; simpl in *; lia. }
  erewrite bind_ret_eq.
  2: { apply (find_spec s b fuel (u_freep s) L q R); try done.
       - unfold sizeof_header in *. simpl in *. lia.
       - eapply Forall_impl; [exact HL|]. intros x [_ ?]. simpl in *. lia.
       - eapply Forall_impl; [exact HR|]. intros x [? _]. unfold bend, sizeof_header in *. simpl in *. lia. }
  destruct (join_next s (u_mem s) b n q.1 R) as (m1 & E1 & O1 & S1 & P1); try done;
    try (unfold sizeof_header in *; simpl in *; lia).
  { intros c R' ->. apply Forall_cons in HR as [[Hc (C1 & C2 & C3)] _]. unfold bend, sizeof_header in *. simpl in *. lia. }
  replace (with_umem (u_mem s) s) with s in E1 by by destruct s. erewrite bind_ret_eq by exact E1.
  assert (bend b1 <= u_brk s /\ n <= b1.2) as [Hb1 Hb1n].
  { destruct (merge_right_facts (u_brk s) b n R) as (_ & F1 & F2 & _); try done.
    - by apply StronglySorted_app_1_r, StronglySorted_cons in HS as [_ HS].
    - eapply Forall_impl; [exact HR|]. by intros x [_ ?].
    - eapply Forall_impl; [exact HR|]. by intros x [? _]. }
  assert (b1.1 = b) as Eb1 by (unfold b1, merge_right; destruct R; [done|]; by case_match).
  destruct (join_prev s m1 (b, b1.2) q (head_addr R1 base)) as (m2 & E2 & O2 & N2); try done;
    try (unfold bend, sizeof_header in *; simpl in *; lia).
  { destruct (only_header_same b (u_mem s) m1 q.1 O1) as [_ E]; [unfold sizeof_header; lia|]. by rewrite E. }
  { rewrite Forall_app, Forall_cons in Hz. tauto. }
  exists m1, m2. split_and!; try done. simpl fst in E2. by erewrite bind_ret_eq by exact E2.
Qed.

Lemma inv_lower_apart x y : x ∈ N -> y ∈ N -> lower x y -> x.1 + 16 <= y.1.
Proof.
  intros Hx Hy Hl. pose proof (hi_good _ _ _ Inv) as HG. rewrite Forall_forall in HG.
  destruct (HG x Hx) as [->|(? & ? & ?)]; destruct (HG y Hy) as [->|(? & ? & ?)];
    unfold lower, bend, sizeof_header in *; simpl in *; lia.
Qed.

Section Freed.
Context (L : list (Z * Z)) (q : Z * Z) (R : list (Z * Z)) (EN : N = L ++ q :: R).
Context (HL : Forall (fun x => bend x <= b /\ x.1 + 16 <= b) (L ++ [q])).
Context (HR : Forall (fun c => bend (b, n) <= c.1 /\ in_heap (u_brk s) c) R).
Let b1 := (merge_right (b, n) R).1.
Let R1 := (merge_right (b, n) R).2.
Let N' := L ++ merge_left q b1 ++ R1.

Lemma freed_block : base + sizeof_header <= b /\ 0 < n /\ bend (b, n) <= u_brk s.
Proof. by destruct (hi_live _ _ _ Inv b n Hb) as [H _]. Qed.

Lemma freed_right :
  b1 = (b, b1.2) /\ n <= b1.2 /\ bend b1 <= u_brk s /\ StronglySorted lower (b1 :: R1) /\ (forall x, x ∈ R1 -> x ∈ R)
  /\ (exists pre, R = pre ++ R1) /\ b1.2 + units R1 = n + units R
  /\ (forall x, 0 < x.2 -> disj (b, n) x -> (forall c, c ∈ R -> disj c x) -> disj b1 x).
Proof.
  destruct freed_block as (B1 & B2 & B3). pose proof (hi_sorted _ _ _ Inv) as HS. rewrite EN in HS.
  destruct (merge_right_facts (u_brk s) b n R) as (M1 & M2); try done.
  - by apply StronglySorted_app_1_r, StronglySorted_cons in HS as [_ HS].
  - eapply Forall_impl; [exact HR|]. by intros x [_ ?].
  - eapply Forall_impl; [exact HR|]. by intros x [? _].
  - fold b1 R1 in M1, M2. split; [|done]. rewrite <- M1. by destruct b1.
Qed.

Lemma freed_q : bend q <= b /\ q.1 + 16 <= b /\ 0 <= q.2 /\ (q = (base, 0) \/ in_heap (u_brk s) q).
Proof.
  pose proof HL as [_ [[H1 H2] _]%Forall_cons]%Forall_app. pose proof (hi_good _ _ _ Inv) as HG. pose proof inv_nonneg as Hz.
  rewrite EN, Forall_app, Forall_cons in HG, Hz. tauto.
Qed.

Lemma freed_lower : Forall (fun x => lower x q) L.
Proof.
  pose proof (hi_sorted _ _ _ Inv) as HS. rewrite EN in HS.
  apply Forall_forall. intros x Hx. apply (StronglySorted_app_1_elem_of lower L (q :: R)); [done|done|by left].
Qed.

Lemma freed_left :
  StronglySorted lower N'
  /\ Forall (fun x => x = (base, 0) \/ in_heap (u_brk s) x) (merge_left q b1)
  /\ (exists x, x ∈ N' /\ b1.2 <= x.2)
  /\ (exists k, head (merge_left q b1) = Some (q.1, k) /\ (q = (base, 0) -> k = 0))
  /\ units (merge_left q b1) = q.2 + b1.2
  /\ (forall x y, x ∈ merge_left q b1 -> 0 < y.2 -> disj q y -> disj b1 y -> disj x y).
Proof.
  destruct freed_block as (B1 & B2 & B3). destruct freed_right as (M1 & M2 & M3 & M4 & _).
  destruct freed_q as (Q1 & Q2 & Q3 & Q4). pose proof freed_lower as HLlow. pose proof (hi_sorted _ _ _ Inv) as HS. rewrite EN in HS.
  apply merge_left_facts; try done; [|by rewrite M1|lia|by rewrite M1|].
  - apply StronglySorted_app_2; [|by apply StronglySorted_app_1_l in HS|by repeat constructor].
    rewrite Forall_forall in HLlow. intros x y Hx ->%list_elem_of_singleton. by apply HLlow.
  - eapply Forall_impl; [exact HLlow|]. intros x. unfold lower. lia.
Qed.

Lemma freed_in x : x ∈ N' -> x ∈ N \/ x ∈ merge_left q b1.
Proof.
  destruct freed_right as (_ & _ & _ & _ & M5 & _). unfold N'. rewrite EN, !elem_of_app, elem_of_cons.
  intros [Hx|[Hx|Hx]]; [tauto|tauto|]. left. right. right. by apply M5.
Qed.

Lemma freed_cross f a k : f ∈ N' -> delete b live !! a = Some k -> disj f (a, k).
Proof.
  intros Hx [Hne Hy]%lookup_delete_Some.
  assert (forall f, f ∈ N -> disj f (a, k)) as HXf by (intros f' Hf'; by apply (hi_cross _ _ _ Inv)).
  destruct (hi_live _ _ _ Inv _ _ Hy) as [(_ & Hy2 & _) _].
  destruct (freed_in f Hx) as [Hx'|Hx']; [by apply HXf|]. destruct freed_left as (_ & _ & _ & _ & _ & F7).
  destruct freed_right as (_ & _ & _ & _ & _ & _ & _ & M8).
  apply (F7 f (a, k) Hx' Hy2); [apply HXf; rewrite EN; set_solver|]. apply M8; [done| |].
  - by apply (hi_disj _ _ _ Inv b n a k Hb Hy).
  - intros c Hc. apply HXf. rewrite EN. set_solver.
Qed.

Context (m1 m2 : gmap Z Z) (O1 : only_header b (u_mem s) m1) (O2 : only_header q.1 m1 m2).

Lemma freed_keep a k x :
  delete b live !! a = Some k -> a <= x < a + 16 * k -> load8 m2 x = load8 (u_mem s) x.
Proof.
  intros [Hne Hak]%lookup_delete_Some Hx. destruct (hi_live _ _ _ Inv _ _ Hak) as [(A1 & A2 & A3) _].
  destruct freed_block as (B1 & B2 & B3). destruct freed_q as (Q1 & Q2 & Q3 & Q4).
  pose proof (hi_disj _ _ _ Inv b n a k Hb Hak Hne) as Hd.
  assert (q ∈ N) as HqN by (rewrite EN; set_solver). pose proof (hi_cross _ _ _ Inv q a k HqN Hak) as Hdq.
  unfold disj, in_heap, bend, sizeof_header in *. simpl in *.
  rewrite O2, O1; [done|unfold sizeof_header; lia|unfold sizeof_header].
  destruct Q4 as [->|(G1 & G2 & G3)]; simpl in *; lia.
Qed.

Lemma freed_nodes : nodes m2 (merge_left q b1) (head_addr R1 base) -> nodes m2 N' base.
Proof.
  intros Hmid. pose proof (hi_nodes _ _ _ Inv) as Hn. rewrite EN in Hn. apply nodes_app in Hn as [HnL (_ & _ & HnR)].
  destruct freed_right as (_ & _ & _ & _ & M5 & (pre & M6) & _). destruct freed_q as (Q1 & Q2 & Q3 & Q4).
  destruct freed_block as (B1 & B2 & B3). destruct freed_left as (_ & _ & _ & (k & F4 & _) & _).
  unfold N'. rewrite !nodes_app. split_and!; [|done|].
  - assert (head_addr (merge_left q b1 ++ R1) base = q.1) as -> by (destruct (merge_left q b1); by simplify_eq/=).
    eapply (headers_frame b q.1 (u_mem s) m1 m2); [done|done| |exact HnL].
    pose proof HL as [HL' _]%Forall_app. pose proof freed_lower as Hlow. rewrite !Forall_forall in *. intros x Hx.
    destruct (HL' x Hx) as [_ Hx16]. split; [left; done|left]. apply inv_lower_apart; [rewrite EN; set_solver..|by apply Hlow].
  - rewrite M6 in HnR. apply nodes_app in HnR as [_ HnR]. eapply (headers_frame b q.1 (u_mem s) m1 m2); [done|done| |exact HnR].
    apply Forall_forall. intros x Hx. rewrite Forall_forall in HR. destruct (HR x (M5 x Hx)) as [Hx16 _].
    unfold bend, sizeof_header in *. simpl in *. lia.
Qed.

Lemma freed_inv :
  nodes m2 (merge_left q b1) (head_addr R1 base) -> heap_inv (mkUheap m2 q.1 (u_brk s)) N' (delete b live).
Proof.
  intros Hmid. destruct freed_left as (F1 & F2 & _ & (k & F4 & F5) & F6 & _).
  destruct freed_right as (_ & _ & _ & _ & M5 & _ & M7 & _).
  assert (exists fs, N' = (base, 0) :: fs) as Hhead.
  { destruct (hi_head _ _ _ Inv) as [fs Efs]. unfold N'. rewrite EN in Efs. destruct L as [|x L0]; simpl in *; simplify_eq/=; [|by eexists].
    destruct (merge_left (base, 0) b1) as [|y M]; simplify_eq/=. rewrite F5 by done. by eexists. }
  constructor; simpl; try done; [by apply freed_nodes| | | | |by apply freed_cross|apply Inv|].
  - unfold N'. rewrite !Forall_app. pose proof (hi_good _ _ _ Inv) as HG. rewrite EN, Forall_app, Forall_cons in HG.
    split_and!; [tauto|done|]. rewrite !Forall_forall in *. intros x Hx. right. by apply (HR x (M5 x Hx)).
  - unfold N'. rewrite !map_app, !elem_of_app. right. left. destruct (merge_left q b1) as [|y M]; simplify_eq/=. by left.
  - intros a k' Hak. pose proof Hak as [Hne Hak']%lookup_delete_Some. destruct (hi_live _ _ _ Inv _ _ Hak') as [Hh <-].
    split; [done|]. apply load32_agree. intros x Hx. destruct Hh as (_ & A2 & _). simpl in A2.
    apply (freed_keep a _ x Hak). lia.
  - intros a k1 c k2 [_ H1]%lookup_delete_Some [_ H2]%lookup_delete_Some. by apply (hi_disj _ _ _ Inv).
  - pose proof (hi_total _ _ _ Inv) as HT. rewrite EN, units_app in HT. simpl units in HT. rewrite (live_delete live b n Hb) in HT.
    unfold N'. rewrite !units_app, F6. unfold sizeof_header in *. lia.
Qed.
End Freed.

Lemma free_spec fuel :
  (length N < fuel)%nat ->
  exists s' N', free fuel (b + 16) s = Ret tt s' /\ heap_inv s' N' (delete b live)
  /\ u_brk s' = u_brk s /\ (length N' <= S (length N))%nat /\ (exists f, f ∈ N' /\ n <= f.2)
  /\ (forall a k x, delete b live !! a = Some k -> a <= x < a + 16 * k -> load8 (u_mem s') x = load8 (u_mem s) x).
Proof.
  intros Hf. destruct inv_split as (L & q & R & EN & HL & HR).
  destruct (free_run fuel L q R EN HL HR Hf) as (m1 & m2 & E & O1 & O2 & _ & _ & N2).
  destruct (freed_right L q R EN HR) as (M1 & M2 & _ & _ & _ & (pre & M6) & _).
  destruct (freed_left L q R EN HL HR) as (_ & _ & (f & F3 & F3') & _).
  rewrite <- M1 in N2. eexists _, _. split; [exact E|].
  split_and!; [by eapply freed_inv|done| |exists f; split; [done|lia]|by eapply freed_keep].
  apply (f_equal length) in M6, EN. unfold merge_left. case_match; len_lia.
Qed.
End FreeSpec.

(** ** malloc: the search *)
Lemma malloc_skip fuel nunits prev x f s :
  load32 (u_mem s) (x.1 + 8) = x.2 -> x.2 < nunits -> u_freep s = f -> x.1 <> f ->
  malloc_turn fuel nunits (prev, x.1) s = Ret (inl (x.1, load64 (u_mem s) x.1)) s.
Proof.
  intros Hs Hn Hf Hx. unfold malloc_turn, s_size, s_ptr, get_freep. simpl fst. simpl snd.
  erewrite bind_ret_eq by reflexivity. rewrite Hs, (proj2 (Z.leb_gt _ _)) by lia.
  erewrite bind_ret_eq by reflexivity. rewrite Hf, (proj2 (Z.eqb_neq _ _)) by done. by erewrite bind_ret_eq by reflexivity.
Qed.

(** Going round the list from its last block [f] on: the search stops at the
    first block that is large enough, or comes to [f]. *)
Lemma scan fuel0 nunits s f V prev :
  path (u_mem s) prev (V ++ [f]) -> u_freep s = f.1 -> Forall (fun x => x.1 <> f.1) V ->
  (exists V1 x V2, V ++ [f] = V1 ++ x :: V2 /\ nunits <= x.2 /\ forall fuel,
     while_loop (length V1 + fuel) (prev, load64 (u_mem s) prev) (malloc_turn fuel0 nunits) s
     = while_loop fuel (tail_addr prev V1, x.1) (malloc_turn fuel0 nunits) s)
  \/ (Forall (fun x => x.2 < nunits) (V ++ [f]) /\ forall fuel,
     while_loop (length V + fuel) (prev, load64 (u_mem s) prev) (malloc_turn fuel0 nunits) s
     = while_loop fuel (tail_addr prev V, f.1) (malloc_turn fuel0 nunits) s).
Proof.
  revert prev. induction V as [|x V IH]; intros prev Hp Hf HV; simpl in Hp.
  - destruct Hp as (Hp & Hs & _). rewrite Hp. destruct (decide (nunits <= f.2)).
    + left. by exists [], f, [].
    + right. split; [|done]. constructor; [lia|constructor].
  - destruct Hp as (Hp & Hs & Hp'). apply Forall_cons in HV as [Hx HV]. rewrite Hp. destruct (decide (nunits <= x.2)).
    + left. by exists [], x, (V ++ [f]).
    + assert (forall k, while_loop (S k) (prev, x.1) (malloc_turn fuel0 nunits) s
        = while_loop k (x.1, load64 (u_mem s) x.1) (malloc_turn fuel0 nunits) s) as Hstep.
      { intros k. apply while_next. apply (malloc_skip _ _ _ _ f.1); (done || lia). }
      destruct (IH x.1 Hp' Hf HV) as [(V1 & y & V2 & E & Hy & Hw)|[Hall Hw]].
      * left. exists (x :: V1), y, V2. split_and!; [by simpl; rewrite E|done|]. intros fuel. cbn [length Nat.add tail_addr]. by rewrite Hstep.
      * right. split; [constructor; [lia|done]|]. intros fuel. cbn [length Nat.add tail_addr]. by rewrite Hstep.
Qed.

Lemma adjacent_app {T} (l1 l2 P Q : list T) w x :
  l1 ++ l2 = P ++ w :: x :: Q ->
  (exists Q', l1 = P ++ w :: x :: Q') \/ (l1 = P ++ [w] /\ l2 = x :: Q) \/ (exists P', l2 = P' ++ w :: x :: Q).
Proof.
  revert P. induction l1 as [|y l1 IH]; intros P E; simpl in E; [right; right; by exists P|].
  destruct P as [|z P]; simplify_eq/=.
  - destruct l1 as [|y l1]; simplify_eq/=; [by right; left|]. left. by exists l1.
  - destruct (IH P) as [[Q' ->]|[[-> ->]|[P' ->]]]; [done|left; by exists Q'|right; left; done|right; right; by exists P'].
Qed.

(** The block found follows the one the search remembers. *)
Lemma found_pred (A B V1 V2 : list (Z * Z)) (f x : Z * Z) fs :
  A ++ f :: B = (base, 0) :: fs -> B ++ A ++ [f] = V1 ++ x :: V2 -> 0 < x.2 ->
  exists L k R, A ++ f :: B = L ++ (tail_addr f.1 V1, k) :: x :: R.
Proof.
  intros EN EV Hx. assert (forall Q, A ++ [f] = x :: Q -> False) as Hno.
  { intros Q E. destruct A as [|a A]; simplify_eq/=; lia. }
  destruct V1 as [|w V1 _] using rev_ind.
  - destruct B as [|b B]; simpl in EV; [by destruct (Hno V2)|]. injection EV as -> _. exists A, f.2, B. by destruct f.
  - rewrite tail_addr_snoc. rewrite <- app_assoc in EV. simpl in EV.
    destruct (adjacent_app _ _ _ _ _ _ EV) as [[Q' ->]|[[_ E]|[P' E]]]; [|by destruct (Hno V2)|].
    + exists (A ++ f :: V1), w.2, Q'. rewrite <- app_assoc. by destruct w.
    + exists P', w.2, (V2 ++ B). change (f :: B) with ([f] ++ B). rewrite app_assoc, E, <- app_assoc. by destruct w.
Qed.

(** ** malloc: taking a block *)
Section Take.
Context (s : uheap) (N : list (Z * Z)) (live : gmap Z Z) (Inv : heap_inv s N live).
Context (L : list (Z * Z)) (q x : Z * Z) (R : list (Z * Z)) (EN : N = L ++ q :: x :: R).
Context (nunits : Z) (Hn : 0 < nunits <= x.2).
Let d := x.2 - nunits.
Let a := x.1 + 16 * d.
Let N' := L ++ q :: (if d =? 0 then [] else [(x.1, d)]) ++ R.

Lemma take_x : in_heap (u_brk s) x /\ q.1 + 16 <= x.1 /\ base <= q.1 /\ bend x < 2 ^ 36.
Proof.
  pose proof (hi_good _ _ _ Inv) as HG. pose proof (hi_sorted _ _ _ Inv) as HS. destruct (hi_brk _ _ _ Inv) as (Z1 & Z2 & Z3).
  assert (in_heap (u_brk s) x) as Hx.
  { rewrite EN, Forall_app, !Forall_cons in HG. destruct HG as (_ & _ & [Hx|Hx] & _); [|done]. rewrite Hx in Hn. simpl in Hn. lia. }
  assert (base <= q.1) as Hbq.
  { rewrite EN, Forall_app, !Forall_cons in HG. destruct HG as (_ & [Hq|(Hq & _)] & _); [by rewrite Hq|unfold sizeof_header in *; lia]. }
  split_and!; [done| |done|destruct Hx as (_ & _ & ?); lia].
  apply (inv_lower_apart s N live Inv); [rewrite EN; set_solver..|].
  rewrite EN in HS. apply (StronglySorted_app_1_elem_of lower (L ++ [q]) (x :: R)); [by rewrite <- app_assoc|set_solver..].
Qed.

(** Memory that changes only in the header of the block before and in the block. *)
Definition take_mem (m' : gmap Z Z) : Prop :=
  forall y, ~ (q.1 <= y < q.1 + 16) -> ~ (x.1 <= y < bend x) -> load8 m' y = load8 (u_mem s) y.

Lemma take_keep m' c k y :
  take_mem m' -> live !! c = Some k -> c <= y < c + 16 * k -> load8 m' y = load8 (u_mem s) y.
Proof.
  intros Hm Hc Hy. destruct take_x as ((X1 & X2 & X3) & Hqx & Hbq & _).
  destruct (hi_live _ _ _ Inv c k Hc) as [(C1 & C2 & C3) _].
  pose proof (hi_cross _ _ _ Inv x c k ltac:(rewrite EN; set_solver) Hc) as Dx.
  pose proof (hi_cross _ _ _ Inv q c k ltac:(rewrite EN; set_solver) Hc) as Dq.
  pose proof (hi_good _ _ _ Inv) as HG. rewrite EN, Forall_app, Forall_cons in HG. destruct HG as (_ & Gq & _).
  unfold disj, in_heap, bend, sizeof_header in *. simpl in *. apply Hm; unfold bend, sizeof_header; [|lia].
  destruct Gq as [Gq|(G1 & G2 & G3)]; [rewrite Gq in *; simpl in *; lia|lia].
Qed.

Lemma take_apart y : y ∈ L \/ y ∈ R -> (y.1 + 16 <= q.1 \/ q.1 + 16 <= y.1) /\ (y.1 + 16 <= x.1 \/ bend x <= y.1).
Proof.
  pose proof (hi_sorted _ _ _ Inv) as HS. rewrite EN in HS. intros Hy.
  assert (forall u v, u ∈ L ++ [q] -> v ∈ x :: R -> lower u v) as H1.
  { intros u v Hu Hv. apply (StronglySorted_app_1_elem_of lower (L ++ [q]) (x :: R)); [by rewrite <- app_assoc|done..]. }
  assert (forall u v, u ∈ L -> v ∈ q :: x :: R -> lower u v) as H2 by (intros u v; by apply StronglySorted_app_1_elem_of).
  assert (forall v, v ∈ R -> lower x v) as H3.
  { intros v Hv. apply (StronglySorted_app_1_elem_of lower (L ++ [q; x]) R); [by rewrite <- app_assoc|set_solver..]. }
  assert (forall u v, u ∈ N -> v ∈ N -> lower u v -> u.1 + 16 <= v.1) as Hap by apply (inv_lower_apart s N live Inv).
  rewrite EN in Hap. destruct Hy as [Hy|Hy]; split.
  - left. apply Hap; [set_solver..|]. apply H2; set_solver.
  - left. apply Hap; [set_solver..|]. apply H2; set_solver.
  - right. apply Hap; [set_solver..|]. apply H1; set_solver.
  - right. specialize (H3 y Hy). unfold lower in H3. lia.
Qed.

Lemma take_frame m' l e : take_mem m' -> (forall y, y ∈ l -> y ∈ L \/ y ∈ R) -> nodes (u_mem s) l e -> nodes m' l e.
Proof.
  intros Hm Hl. apply nodes_frame. apply Forall_forall. intros y Hy. destruct (take_apart y (Hl y Hy)) as [A1 A2].
  destruct take_x as ((X1 & X2 & X3) & Hqx & Hbq & _). unfold bend, sizeof_header in *.
  split; [apply load64_agree|apply load32_agree]; intros z Hz; apply Hm; unfold bend, sizeof_header; lia.
Qed.

Lemma take_fresh c k : live !! c = Some k -> c <> a /\ disj (a, nunits) (c, k).
Proof.
  intros Hc. destruct take_x as ((X1 & X2 & X3) & Hqx & Hbq & _). destruct (hi_live _ _ _ Inv c k Hc) as [(C1 & C2 & C3) _].
  pose proof (hi_cross _ _ _ Inv x c k ltac:(rewrite EN; set_solver) Hc) as Dx.
  unfold disj, in_heap, bend, sizeof_header, a, d in *. simpl in *. lia.
Qed.

Lemma take_sub y : y ∈ N' -> (exists z, z ∈ N /\ y.1 = z.1 /\ 0 <= y.2 <= z.2 /\ bend y <= bend z) /\ disj y (a, nunits).
Proof.
  intros Hy. destruct take_x as ((X1 & X2 & X3) & Hqx & Hbq & _).
  pose proof (inv_nonneg s N live Inv) as Hz. rewrite Forall_forall in Hz.
  assert (y ∈ L \/ y = q \/ (y = (x.1, d) /\ d <> 0) \/ y ∈ R) as Hc.
  { unfold N' in Hy. rewrite elem_of_app, elem_of_cons, elem_of_app in Hy. destruct (Z.eqb_spec d 0) as [E|E]; set_solver. }
  assert (y ∈ L \/ y ∈ R -> y ∈ N) as Hin by (rewrite EN; set_solver).
  destruct Hc as [Hc|[->|[[-> Hd]|Hc]]].
  - destruct (take_apart y (or_introl Hc)) as [_ A2]. specialize (Hin (or_introl Hc)). specialize (Hz y Hin). split; [exists y; split_and!; done || lia|].
    pose proof (hi_sorted _ _ _ Inv) as HS. rewrite EN in HS.
    pose proof (StronglySorted_app_1_elem_of lower L (q :: x :: R) y x HS Hc ltac:(set_solver)) as Hl.
    unfold lower, disj, bend, sizeof_header, a, d in *. simpl in *. lia.
  - specialize (Hz q ltac:(rewrite EN; set_solver)). split; [exists q; split_and!; [rewrite EN; set_solver|done|lia..]|].
    pose proof (hi_sorted _ _ _ Inv) as HS. rewrite EN in HS.
    pose proof (StronglySorted_app_1_elem_of lower (L ++ [q]) (x :: R) q x ltac:(by rewrite <- app_assoc) ltac:(set_solver) ltac:(set_solver)) as Hl.
    unfold lower, disj, bend, sizeof_header, a, d in *. simpl in *. lia.
  - split; [exists x; split_and!; [rewrite EN; set_solver|done|unfold d in *; simpl; lia..|unfold d, bend, sizeof_header in *; simpl in *; lia]|].
    unfold disj, bend, sizeof_header, a, d. simpl. lia.
  - specialize (Hin (or_intror Hc)). specialize (Hz y Hin). split; [exists y; split_and!; done || lia|].
    pose proof (hi_sorted _ _ _ Inv) as HS. rewrite EN in HS.
    pose proof (StronglySorted_app_1_elem_of lower (L ++ [q; x]) R x y ltac:(by rewrite <- app_assoc) ltac:(set_solver) Hc) as Hl.
    unfold lower, disj, bend, sizeof_header, a, d in *. simpl in *. lia.
Qed.

Lemma take_sorted : StronglySorted lower N'.
Proof.
  pose proof (hi_sorted _ _ _ Inv) as HS. rewrite EN in HS.
  assert (N' = (L ++ [q]) ++ (if d =? 0 then [] else [(x.1, d)]) ++ R) as -> by (unfold N'; by rewrite <- app_assoc).
  change (q :: x :: R) with ([q] ++ x :: R) in HS. rewrite app_assoc in HS.
  apply StronglySorted_app in HS as (H1 & H2 & [H3 H4]%StronglySorted_cons). rewrite Forall_forall in H3.
  apply StronglySorted_app. split_and!; [|done|].
  - intros u v Hu [Hv|Hv]%elem_of_app; [|apply H1; set_solver]. destruct (d =? 0); [by apply elem_of_nil in Hv|].
    apply list_elem_of_singleton in Hv as ->. specialize (H1 u x Hu ltac:(set_solver)). done.
  - destruct (Z.eqb_spec d 0); [done|]. simpl. apply StronglySorted_cons. split; [|done].
    apply Forall_forall. intros v Hv. specialize (H3 v Hv). unfold lower, bend, sizeof_header, d in *. simpl. lia.
Qed.

Lemma take_inv m' :
  take_mem m' -> nodes m' N' base -> load32 m' (a + 8) = nunits ->
  heap_inv (mkUheap m' q.1 (u_brk s)) N' (<[a := nunits]> live).
Proof.
  intros Hm Hnodes Hsz. destruct take_x as ((X1 & X2 & X3) & Hqx & Hbq & _).
  assert (forall c k, <[a := nunits]> live !! c = Some k -> (c = a /\ k = nunits) \/ (c <> a /\ live !! c = Some k)) as Hl.
  { intros c k [[<- <-]|[Hne Hc]]%lookup_insert_Some; [by left|right; auto]. }
  constructor; simpl; [done| |apply take_sorted| | | | | |apply Inv|].
  - destruct (hi_head _ _ _ Inv) as [fs Efs]. unfold N'. rewrite EN in Efs. destruct L; simplify_eq/=; eexists; by f_equal.
  - pose proof (hi_good _ _ _ Inv) as HG. rewrite EN, Forall_app, !Forall_cons in HG. destruct HG as (G1 & G2 & _ & G3).
    unfold N'. rewrite Forall_app, Forall_cons, Forall_app. split_and!; [done|done| |done].
    destruct (Z.eqb_spec d 0); [constructor|]. constructor; [|constructor]. right.
    unfold in_heap, bend, sizeof_header, d in *. simpl. lia.
  - unfold N'. rewrite map_app. simpl. set_solver.
  - intros c k [[-> ->]|[Hne Hc]]%Hl.
    + split; [|done]. unfold in_heap, bend, sizeof_header, a, d in *. simpl. lia.
    + destruct (hi_live _ _ _ Inv c k Hc) as [Hh <-]. split; [done|]. apply load32_agree. intros y Hy.
      destruct Hh as (_ & C2 & _). simpl in C2. apply (take_keep m' c _ y Hm Hc). lia.
  - intros c k c' k' [[-> ->]|[Hne Hc]]%Hl [[-> ->]|[Hne' Hc']]%Hl Hcc; [done|by apply take_fresh| |by apply (hi_disj _ _ _ Inv)].
    destruct (take_fresh c k Hc) as [_ [D|D]]; [by right|by left].
  - intros f c k Hf [[-> ->]|[Hne Hc]]%Hl; destruct (take_sub f Hf) as [(z & Hz & E1 & E2 & E3) D]; [done|].
    pose proof (hi_cross _ _ _ Inv z c k Hz Hc) as [D'|D']; [left; lia|right; lia].
  - rewrite live_insert; [|destruct (live !! a) as [k|] eqn:E; [by destruct (take_fresh a k E)|done]].
    pose proof (hi_total _ _ _ Inv) as HT. rewrite EN, units_app in HT. simpl in HT.
    unfold N'. rewrite units_app. simpl. rewrite units_app. unfold sizeof_header in *.
    destruct (Z.eqb_spec d 0); simpl; unfold d in *; lia.
Qed.

(** The turn of the loop that takes the block. *)
Lemma take_turn fuel :
  exists m', malloc_turn fuel nunits (q.1, x.1) s = Ret (inr (a + 16)) (mkUheap m' q.1 (u_brk s))
  /\ take_mem m' /\ heap_inv (mkUheap m' q.1 (u_brk s)) N' (<[a := nunits]> live).
Proof.
  destruct take_x as ((X1 & X2 & X3) & Hqx & Hbq & Hmax). destruct (hi_brk _ _ _ Inv) as (Z1 & Z2 & Z3).
  pose proof (hi_nodes _ _ _ Inv) as HN. rewrite EN in HN. apply nodes_app in HN as [HNL (Hqs & Hqp & Hxs & Hxp & HNR)].
  simpl in HNL, Hqp. unfold bend, sizeof_header in *. pose proof (load32_range (u_mem s) (x.1 + 8)) as Hr. rewrite Hxs in Hr.
  unfold malloc_turn, s_size, s_ptr. simpl fst. simpl snd. erewrite bind_ret_eq by reflexivity. rewrite Hxs.
  rewrite (proj2 (Z.leb_le _ _)) by lia. unfold d. destruct (Z.eqb_spec x.2 nunits) as [E|E].
  - exists (store64 (u_mem s) q.1 (load64 (u_mem s) x.1)).
    assert (take_mem (store64 (u_mem s) q.1 (load64 (u_mem s) x.1))) as Hm.
    { intros y Hy _. apply load8_store64_ne. lia. }
    split_and!; [|done|apply take_inv; [done| |]].
    + erewrite bind_ret_eq by (erewrite bind_ret_eq by reflexivity; erewrite bind_ret_eq by reflexivity; reflexivity).
      erewrite bind_ret_eq by reflexivity. unfold ret. do 3 f_equal. rewrite hp_add_small by lia. unfold a, d. lia.
    + unfold N', d. rewrite E, Z.sub_diag. simpl. apply nodes_app. split; [by eapply take_frame; eauto|].
      simpl. split_and!; [by rewrite load32_store64_ne by lia| |by eapply take_frame; eauto].
      rewrite load64_store64_eq by apply load64_range. done.
    + unfold a, d. rewrite load32_store64_ne by lia. rewrite E, Z.sub_diag, Z.mul_0_r, Z.add_0_r. lia.
  - set (m1 := store32 (u_mem s) (x.1 + 8) (x.2 - nunits)).
    assert (load32 m1 (x.1 + 8) = x.2 - nunits) as Hm1 by (unfold m1; rewrite load32_store32_eq; apply uint32_small; lia).
    assert (take_mem (store32 m1 (a + 8) nunits)) as Hm.
    { intros y _ Hy. unfold m1, a, d, bend, sizeof_header in *. rewrite !load8_store32_ne by lia. done. }
    exists (store32 m1 (a + 8) nunits). split_and!; [|done|apply take_inv; [done| |]].
    + erewrite bind_ret_eq.
      2: { erewrite bind_ret_eq by reflexivity. erewrite bind_ret_eq by reflexivity. cbn [u_mem].
           rewrite (uint32_small (x.2 - nunits)) by lia. fold m1. rewrite Hm1, hp_add_small by lia.
           erewrite bind_ret_eq by reflexivity. reflexivity. }
      erewrite bind_ret_eq by reflexivity. unfold ret. do 3 f_equal. fold a. rewrite hp_add_small by (unfold a, d; lia). unfold a, d. lia.
    + unfold N', d. rewrite (proj2 (Z.eqb_neq _ _)) by lia. apply nodes_app. split; [by eapply take_frame; eauto|].
      simpl. unfold m1, a, d. split_and!.
      * by rewrite !load32_store32_ne by lia.
      * by rewrite !load64_store32_ne by lia.
      * rewrite load32_store32_ne by lia. exact Hm1.
      * by rewrite !load64_store32_ne by lia.
      * eapply take_frame; eauto.
    + rewrite load32_store32_eq. apply uint32_small. lia.
Qed.
End Take.

(** ** malloc: asking the kernel for memory *)

(** The bytes of the blocks handed out, headers included, are the same. *)
Definition keeps (live : gmap Z Z) (m m' : gmap Z Z) : Prop :=
  forall c k y, live !! c = Some k -> c <= y < c + 16 * k -> load8 m' y = load8 m y.

(** A positive request is granted at the end of the heap, within what the
    physical memory can hold. *)
Hypothesis grow_ok : forall brk n brk', 0 < n -> grow brk n = Some brk' -> brk' = brk + n /\ brk' < 2 ^ 36.

Section More.
Context (s : uheap) (N : list (Z * Z)) (live : gmap Z Z) (Inv : heap_inv s N live).

Lemma grown_inv nu :
  0 < nu -> u_brk s + 16 * nu < 2 ^ 36 ->
  heap_inv (mkUheap (store32 (u_mem s) (u_brk s + 8) nu) (u_freep s) (u_brk s + 16 * nu)) N (<[u_brk s := nu]> live)
  /\ live !! u_brk s = None.
Proof.
  intros Hnu Hmax. destruct (hi_brk _ _ _ Inv) as (Z1 & Z2 & Z3).
  assert (forall c k, live !! c = Some k -> base + 16 <= c /\ 0 < k /\ c + 16 * k <= u_brk s) as Hl.
  { intros c k Hc. destruct (hi_live _ _ _ Inv c k Hc) as [H _]. done. }
  assert (live !! u_brk s = None) as Hno by (destruct (live !! u_brk s) as [k|] eqn:E; [destruct (Hl _ _ E) as (_ & ? & ?); lia|done]).
  assert (forall c k, <[u_brk s := nu]> live !! c = Some k -> (c = u_brk s /\ k = nu) \/ live !! c = Some k) as Hi.
  { intros c k [[<- <-]|[_ Hc]]%lookup_insert_Some; auto. }
  assert (forall f, f ∈ N -> bend f <= u_brk s /\ f.1 + 16 <= u_brk s) as HN.
  { intros f Hf. pose proof (hi_good _ _ _ Inv) as HG. rewrite Forall_forall in HG. unfold sizeof_header in *.
    destruct (HG f Hf) as [->|(F1 & F2 & F3)]; unfold bend, sizeof_header in *; simpl in *; lia. }
  split; [|done]. constructor; simpl; [|apply Inv|apply Inv| |apply Inv| | | | |].
  - eapply nodes_frame; [|apply Inv]. apply Forall_forall. intros f Hf. destruct (HN f Hf) as [_ H16].
    split; [by rewrite load64_store32_ne by lia|by rewrite load32_store32_ne by lia].
  - eapply Forall_impl; [apply Inv|]. intros f [->|(F1 & F2 & F3)]; [by left|right]. unfold in_heap. lia.
  - intros c k [[-> ->]|Hc]%Hi.
    + split; [unfold in_heap, bend, sizeof_header in *; simpl; lia|]. rewrite load32_store32_eq. apply uint32_small. unfold sizeof_header in *. lia.
    + destruct (Hl c k Hc) as (C1 & C2 & C3). destruct (hi_live _ _ _ Inv c k Hc) as [_ <-].
      split; [unfold in_heap, bend, sizeof_header; simpl; lia|]. rewrite load32_store32_ne by lia. done.
  - intros c k c' k' [[-> ->]|Hc]%Hi [[-> ->]|Hc']%Hi Hne; [done| | |by apply (hi_disj _ _ _ Inv)];
      unfold disj, bend, sizeof_header; simpl.
    + destruct (Hl _ _ Hc') as (_ & _ & ?). lia.
    + destruct (Hl _ _ Hc) as (_ & _ & ?). lia.
  - intros f c k Hf [[-> ->]|Hc]%Hi; [|by apply (hi_cross _ _ _ Inv)]. left. by apply HN.
  - lia.
  - rewrite live_insert by done. pose proof (hi_total _ _ _ Inv) as HT. unfold sizeof_header in *. lia.
Qed.

Lemma morecore_spec fuel nunits :
  0 < nunits -> 16 * nunits < 2 ^ 31 -> (length N < fuel)%nat ->
  (morecore fuel nunits s = Ret 0 s /\ grow (u_brk s) (16 * Z.max 4096 nunits) = None)
  \/ exists s' N', morecore fuel nunits s = Ret (u_freep s') s' /\ u_freep s' <> 0 /\ heap_inv s' N' live
     /\ (length N' <= S (length N))%nat /\ (exists f, f ∈ N' /\ nunits <= f.2) /\ keeps live (u_mem s) (u_mem s').
Proof.
  intros Hn Hmax Hf. destruct (hi_brk _ _ _ Inv) as (Z1 & Z2 & Z3).
  unfold morecore. set (nu := if nunits <? 4096 then 4096 else nunits).
  assert (nu = Z.max 4096 nunits) as Enu by (unfold nu; destruct (Z.ltb_spec nunits 4096); lia).
  assert (sbrk (nu * sizeof_header) s = match grow (u_brk s) (16 * nu) with
    Some brk' => Ret (u_brk s) (mkUheap (u_mem s) (u_freep s) brk') | None => Ret SBRK_ERROR s end) as Es.
  { unfold sbrk. replace (nu * sizeof_header) with (16 * nu) by (unfold sizeof_header; lia). by rewrite int32_small by lia. }
  rewrite <- Enu. destruct (grow (u_brk s) (16 * nu)) as [brk'|] eqn:Eg; [right|left; by erewrite bind_ret_eq by exact Es].
  destruct (grow_ok (u_brk s) (16 * nu) brk' ltac:(lia) Eg) as [-> Hb]. erewrite bind_ret_eq by exact Es.
  unfold SBRK_ERROR. unfold sizeof_header in Z2. rewrite (proj2 (Z.eqb_neq _ _)) by lia.
  destruct (grown_inv nu ltac:(lia) Hb) as [Inv1 Hno]. erewrite bind_ret_eq by reflexivity. simpl.
  set (s1 := mkUheap (store32 _ _ _) _ _) in *.
  destruct (free_spec s1 N (<[u_brk s := nu]> live) (u_brk s) nu Inv1 ltac:(apply lookup_insert_eq) fuel Hf)
    as (s' & N' & E & Inv' & _ & Hlen & (f & Hfin & Hfn) & Hk).
  rewrite delete_insert_id in Inv', Hk by done. exists s', N'.
  rewrite hp_add_small by lia. replace (u_brk s + 16 * 1) with (u_brk s + 16) by lia. split_and!.
  - by erewrite bind_ret_eq by exact E.
  - pose proof (hi_freep _ _ _ Inv') as Hfp. apply list_elem_of_fmap in Hfp as (b & -> & Hb').
    pose proof (hi_good _ _ _ Inv') as HG. rewrite Forall_forall in HG.
    destruct (HG b Hb') as [->|(G1 & _)]; unfold sizeof_header in *; simpl in *; lia.
  - done.
  - done.
  - exists f. split; [done|lia].
  - intros c k y Hc Hy. rewrite (Hk c k y Hc Hy). simpl. destruct (hi_live _ _ _ Inv c k Hc) as [(C1 & C2 & C3) _].
    unfold bend, sizeof_header in *. simpl in *. apply load8_store32_ne. lia.
Qed.
End More.

(** ** malloc *)
Section Search.
Context (s : uheap) (N : list (Z * Z)) (live : gmap Z Z) (Inv : heap_inv s N live) (fuel0 : nat).
Context (nunits : Z) (Hn : 0 < nunits).

(** What a call that returns the block at [a] leaves. *)
Definition taken (r : Z) (s' : uheap) : Prop :=
  exists a N', r = a + 16 /\ live !! a = None /\ heap_inv s' N' (<[a := nunits]> live)
  /\ keeps live (u_mem s) (u_mem s') /\ (length N' <= length N)%nat.

Lemma addr_inj A f B : N = A ++ f :: B -> Forall (fun x => x.1 <> f.1) (B ++ A).
Proof.
  intros EN. pose proof (hi_sorted _ _ _ Inv) as HS. pose proof (inv_nonneg s N live Inv) as Hz. rewrite EN in HS, Hz.
  rewrite Forall_forall in Hz. apply Forall_forall. intros x [Hx|Hx]%elem_of_app.
  - apply StronglySorted_app_1_r, StronglySorted_cons in HS as [HS _]. rewrite Forall_forall in HS. specialize (HS x Hx).
    specialize (Hz f ltac:(set_solver)). simpl in Hz. unfold lower, bend, sizeof_header in HS. lia.
  - pose proof (StronglySorted_app_1_elem_of lower A (f :: B) x f HS Hx ltac:(set_solver)) as H.
    specialize (Hz x ltac:(set_solver)). simpl in Hz. unfold lower, bend, sizeof_header in H. lia.
Qed.

Lemma take_found A f B V1 x V2 k :
  N = A ++ f :: B -> (B ++ A) ++ [f] = V1 ++ x :: V2 -> nunits <= x.2 ->
  exists r s', while_loop (S k) (tail_addr f.1 V1, x.1) (malloc_turn fuel0 nunits) s = Ret r s' /\ taken r s'.
Proof.
  intros EN EV Hx. destruct (hi_head _ _ _ Inv) as [fs Efs]. rewrite <- app_assoc in EV.
  destruct (found_pred A B V1 V2 f x fs) as (L & kq & R & E); [by rewrite <- EN|done|lia|]. rewrite <- EN in E.
  destruct (take_turn s N live Inv L (tail_addr f.1 V1, kq) x R E nunits ltac:(lia) fuel0) as (m' & Et & Hm & Inv').
  do 2 eexists. split; [apply while_done; exact Et|]. do 2 eexists. split_and!; [reflexivity| |exact Inv'| |].
  - destruct (live !! _) as [k'|] eqn:Ea; [|done].
    destruct (take_fresh s N live Inv L (tail_addr f.1 V1, kq) x R E nunits ltac:(lia) _ k' Ea) as [[] _]. done.
  - intros c k' y Hc Hy. by apply (take_keep s N live Inv L (tail_addr f.1 V1, kq) x R E nunits ltac:(lia) m' c k' y).
  - apply (f_equal length) in E. case_match; len_lia.
Qed.

Lemma search k :
  (length N <= k)%nat ->
  (exists r s', while_loop k (u_freep s, load64 (u_mem s) (u_freep s)) (malloc_turn fuel0 nunits) s = Ret r s' /\ taken r s')
  \/ (Forall (fun x => x.2 < nunits) N /\ exists prev,
      while_loop k (u_freep s, load64 (u_mem s) (u_freep s)) (malloc_turn fuel0 nunits) s
      = while_loop (S (k - length N)) (prev, u_freep s) (malloc_turn fuel0 nunits) s).
Proof.
  intros Hk. pose proof (hi_freep _ _ _ Inv) as Hfp. apply list_elem_of_fmap in Hfp as (f & Ef & Hf).
  apply list_elem_of_split in Hf as (A & B & EN). destruct (hi_head _ _ _ Inv) as [fs Efs].
  assert (path (u_mem s) f.1 ((B ++ A) ++ [f])) as Hp.
  { rewrite <- app_assoc. eapply ring_path with (e := base); rewrite <- EN; [apply Inv|by rewrite Efs]. }
  assert (length N = length (B ++ A) + 1)%nat as Hlen by (apply (f_equal length) in EN; len_lia).
  destruct (scan fuel0 nunits s f (B ++ A) f.1 Hp Ef (addr_inj A f B EN)) as [(V1 & x & V2 & EV & Hx & Hw)|[Hall Hw]]; rewrite Ef.
  - left. pose proof (f_equal length EV) as HV.
    destruct (take_found A f B V1 x V2 (k - length V1 - 1) EN EV Hx) as (r & s' & E & T). exists r, s'. split; [|done].
    replace k with (length V1 + S (k - length V1 - 1))%nat by len_lia. by rewrite Hw.
  - right. split.
    + rewrite EN. rewrite !Forall_app in Hall. rewrite Forall_app, Forall_cons. destruct Hall as [[? ?] Hf]. apply Forall_cons in Hf. tauto.
    + exists (tail_addr f.1 (B ++ A)). rewrite <- Hw. f_equal. lia.
Qed.
End Search.

Definition nunits (nbytes : Z) : Z := (nbytes + 15) / 16 + 1.

(** The [for] of [malloc], with enough turns to go round the list twice. *)
Lemma malloc_run s N live n fuel :
  heap_inv s N live -> 0 < n -> 16 * n < 2 ^ 31 -> (2 * length N + 2 <= fuel)%nat ->
  (while_loop fuel (u_freep s, load64 (u_mem s) (u_freep s)) (malloc_turn fuel n) s = Ret 0 s
   /\ grow (u_brk s) (16 * Z.max 4096 n) = None /\ Forall (fun x => x.2 < n) N)
  \/ exists a s' N', while_loop fuel (u_freep s, load64 (u_mem s) (u_freep s)) (malloc_turn fuel n) s = Ret (a + 16) s'
     /\ live !! a = None /\ heap_inv s' N' (<[a := n]> live) /\ keeps live (u_mem s) (u_mem s')
     /\ (length N' <= S (length N))%nat.
Proof.
  intros Inv Hn Hmax Hf.
  destruct (search s N live Inv fuel n Hn fuel ltac:(lia)) as [(r & s' & E & a & N' & -> & Ha & Inv' & Hk & Hl)|[Hall [prev E]]].
  { right. exists a, s', N'. split_and!; try done. lia. }
  rewrite E. clear E. pose proof (hi_freep _ _ _ Inv) as Hfp. apply list_elem_of_fmap in Hfp as (f & Ef & Hfin).
  assert (load32 (u_mem s) (u_freep s + 8) < n) as Hsz.
  { rewrite Ef, (nodes_lookup _ _ _ f (hi_nodes _ _ _ Inv) Hfin). rewrite Forall_forall in Hall. by apply Hall. }
  assert (forall r, (let* p := (let* p' := morecore fuel n in ret (if p' =? 0 then None else Some p')) in
      match p with None => ret (inr 0) | Some p => let* nxt := s_ptr p in ret (inl (p, nxt)) end) s = r ->
    malloc_turn fuel n (prev, u_freep s) s = r) as Hturn.
  { intros r <-. unfold malloc_turn, s_size, get_freep. simpl fst. simpl snd. erewrite bind_ret_eq by reflexivity.
    rewrite (proj2 (Z.leb_gt _ _)) by lia. erewrite bind_ret_eq by reflexivity. by rewrite Z.eqb_refl. }
  destruct (morecore_spec s N live Inv fuel n Hn Hmax ltac:(lia)) as [[E Eg]|(s1 & N1 & E & Hp & Inv1 & Hl1 & (g & Hg & Hgn) & Hk1)].
  - left. split; [|done]. apply while_done. apply Hturn. by erewrite bind_ret_eq by (erewrite bind_ret_eq by exact E; reflexivity).
  - right. erewrite while_next.
    2: { apply Hturn. erewrite bind_ret_eq by (erewrite bind_ret_eq by exact E; reflexivity).
         rewrite (proj2 (Z.eqb_neq _ _)) by done. erewrite bind_ret_eq by reflexivity. reflexivity. }
    destruct (search s1 N1 live Inv1 fuel n Hn (fuel - length N) ltac:(lia)) as [(r & s' & E' & a & N' & -> & Ha & Inv' & Hk & Hl)|[Hall' _]].
    + exists a, s', N'. split_and!; try done; [|lia]. intros c k y Hc Hy. rewrite (Hk c k y Hc Hy). by apply (Hk1 c k y).
    + rewrite Forall_forall in Hall'. specialize (Hall' g Hg). simpl in Hall'. lia.
Qed.

Lemma malloc_units nb : 0 <= nb <= 2 ^ 31 - 32 ->
  uint32 ((nb + sizeof_header - 1) / sizeof_header + 1) = nunits nb /\ 0 < nunits nb /\ 16 * nunits nb < 2 ^ 31
  /\ nb + 16 <= 16 * nunits nb.
Proof.
  intros H. unfold nunits, sizeof_header. replace (nb + 16 - 1) with (nb + 15) by lia.
  split_and!; [apply uint32_small|..]; dlia.
Qed.

(** The state of a process that has not called [malloc] yet. *)
Definition heap_start (s : uheap) : Prop :=
  u_freep s = 0 /\ u_brk s = brk0 /\ 0 < base /\ base + sizeof_header <= brk0 < 2 ^ 36.

Definition started (s : uheap) : uheap :=
  mkUheap (store32 (store64 (u_mem s) base base) (base + 8) 0) base (u_brk s).

Lemma started_inv s : heap_start s -> heap_inv (started s) [(base, 0)] ∅.
Proof.
  intros (Hf & Hb & Hp & Hr). unfold sizeof_header in *. constructor; simpl.
  - split_and!; [by rewrite load32_store32_eq| |done]. rewrite load64_store32_ne, load64_store64_eq by lia. done.
  - by exists [].
  - by repeat constructor.
  - constructor; [by left|constructor].
  - by left.
  - by intros a n Ha%lookup_empty_Some.
  - by intros a n b k Ha%lookup_empty_Some.
  - by intros f a n _ Ha%lookup_empty_Some.
  - unfold sizeof_header. lia.
  - unfold live_units. rewrite map_fold_empty. lia.
Qed.

(** Either state. *)
Definition heap_any (s : uheap) (N : list (Z * Z)) (live : gmap Z Z) : Prop :=
  heap_inv s N live \/ (heap_start s /\ N = [(base, 0)] /\ live = ∅).

Lemma malloc_spec s N live nb fuel :
  heap_any s N live -> 0 <= nb <= 2 ^ 31 - 32 -> (2 * length N + 2 <= fuel)%nat ->
  exists r s' N', malloc fuel nb s = Ret r s' /\ keeps live (u_mem s) (u_mem s') /\ (length N' <= S (length N))%nat /\
  ((r = 0 /\ heap_any s' N' live /\ grow (u_brk s) (16 * Z.max 4096 (nunits nb)) = None
    /\ Forall (fun x => x.2 < nunits nb) N /\ u_brk s' = u_brk s)
   \/ (r <> 0 /\ live !! (r - 16) = None /\ heap_inv s' N' (<[r - 16 := nunits nb]> live))).
Proof.
  intros Hany Hnb Hf. destruct (malloc_units nb Hnb) as (Eu & U1 & U2 & _). unfold malloc. rewrite Eu.
  erewrite bind_ret_eq by reflexivity.
  assert (exists s1, heap_inv s1 N live /\ keeps live (u_mem s) (u_mem s1) /\ u_brk s1 = u_brk s /\
    (if u_freep s =? 0 then set_freep base ;;; set_s_ptr base base ;;; set_s_size base 0 ;;; ret base else ret (u_freep s)) s
    = Ret (u_freep s1) s1) as (s1 & Inv & Hk0 & Hb & E).
  { destruct Hany as [Inv|(Hs & -> & ->)].
    - exists s. split_and!; try done. pose proof (hi_freep _ _ _ Inv) as Hfp. apply list_elem_of_fmap in Hfp as (f & Ef & Hfin).
      pose proof (hi_good _ _ _ Inv) as HG. rewrite Forall_forall in HG. destruct (hi_brk _ _ _ Inv) as (Z1 & Z2 & Z3).
      rewrite (proj2 (Z.eqb_neq _ _)); [done|]. rewrite Ef. destruct (HG f Hfin) as [->|(F1 & _)]; unfold sizeof_header in *; simpl in *; lia.
    - exists (started s). split_and!; [by apply started_inv| |done|].
      + by intros c k y Hc%lookup_empty_Some.
      + destruct Hs as (-> & _). done. }
  erewrite bind_ret_eq by exact E. unfold s_ptr. erewrite bind_ret_eq by reflexivity.
  destruct (malloc_run s1 N live (nunits nb) fuel Inv U1 U2 Hf) as [(Er & Eg & Hall)|(a & s' & N' & Er & Ha & Inv' & Hk & Hl)].
  - exists 0, s1, N. rewrite <- Hb. split_and!; [done|done|lia|]. left. split_and!; [done|by left|done..].
  - exists (a + 16), s', N'. split_and!; [done| |done|].
    + intros c k y Hc Hy. rewrite (Hk c k y Hc Hy). by apply (Hk0 c k y).
    + right. replace (a + 16 - 16) with a by lia. split_and!; [|done|done].
      destruct (hi_live _ _ _ Inv' a (nunits nb) ltac:(apply lookup_insert_eq)) as [(A1 & _) _].
      destruct (hi_brk _ _ _ Inv') as (Z1 & _). unfold sizeof_header in *. simpl in *. lia.
Qed.

(** ** A process that uses the allocator *)

(** [live] maps the pointers the process holds to the sizes it asked for. The
    process calls [malloc] and [free], and writes to the blocks it holds. *)
Inductive uses (fuel : nat) : nat -> uheap -> gmap Z Z -> Prop :=
| uses_start s : heap_start s -> uses fuel 0 s ∅
| uses_malloc i s live nb r s' : uses fuel i s live -> 0 <= nb <= 2 ^ 31 - 32 -> malloc fuel nb s = Ret r s' ->
    uses fuel (S i) s' (if r =? 0 then live else <[r := nb]> live)
| uses_free i s live p nb s' : uses fuel i s live -> live !! p = Some nb -> free fuel p s = Ret tt s' ->
    uses fuel (S i) s' (delete p live)
| uses_write i s live p nb j v : uses fuel i s live -> live !! p = Some nb -> 0 <= j < nb ->
    uses fuel i (with_umem (store8 (u_mem s) (p + j) v) s) live.

(** The blocks behind the pointers. *)
Definition blocks (live : gmap Z Z) : gmap Z Z := kmap (fun p => p - 16) (nunits <$> live).

#[local] Instance sub16_inj : Inj (=) (=) (fun p : Z => p - 16).
Proof. intros x y. lia. Qed.

Lemma blocks_lookup live a k : blocks live !! a = Some k <-> exists nb, live !! (a + 16) = Some nb /\ k = nunits nb.
Proof.
  unfold blocks. rewrite lookup_kmap_Some by apply _. split.
  - intros (p & -> & Hp). replace (p - 16 + 16) with p by lia. rewrite lookup_fmap, fmap_Some in Hp. destruct Hp as (nb & H1 & ->). eauto.
  - intros (nb & H & ->). exists (a + 16). split; [lia|]. rewrite lookup_fmap, H. done.
Qed.

Lemma blocks_insert live p nb : blocks (<[p := nb]> live) = <[p - 16 := nunits nb]> (blocks live).
Proof. unfold blocks. rewrite fmap_insert, kmap_insert by apply _. done. Qed.

Lemma blocks_delete live p : blocks (delete p live) = delete (p - 16) (blocks live).
Proof. unfold blocks. rewrite fmap_delete, kmap_delete by apply _. done. Qed.

Lemma write_inv s N live a k y v :
  heap_any s N live -> live !! a = Some k -> a + 16 <= y < a + 16 * k ->
  heap_any (with_umem (store8 (u_mem s) y v) s) N live.
Proof.
  intros [Inv|(_ & _ & ->)] Ha Hy; [left|by apply lookup_empty_Some in Ha].
  destruct (hi_live _ _ _ Inv a k Ha) as [(A1 & A2 & A3) _].
  assert (forall b, (b + 16 <= y \/ y < b) -> same_header (u_mem s) (store8 (u_mem s) y v) b) as Hsame.
  { intros b Hb. split; [apply load64_agree|apply load32_agree]; intros z Hz; rewrite load8_store8; by rewrite decide_False by lia. }
  destruct Inv as [I1 I2 I3 I4 I5 I6 I7 I8 I9 I10]. constructor; simpl; try done.
  - eapply nodes_frame; [|exact I1]. apply Forall_forall. intros f Hf. apply Hsame. specialize (I8 f a k Hf Ha).
    rewrite Forall_forall in I4. unfold disj, in_heap, bend, sizeof_header in *. simpl in *.
    destruct (I4 f Hf) as [->|(F1 & F2 & F3)]; simpl in *; lia.
  - intros c n Hc. destruct (I6 c n Hc) as [Hh Hs]. split; [done|].
    destruct (Hsame c) as [_ ->]; [|done]. destruct (decide (c = a)) as [->|Hne].
    + lia.
    + specialize (I7 a k c n Ha Hc ltac:(done)). destruct Hh as (C1 & C2 & C3).
      unfold disj, in_heap, bend, sizeof_header in *. simpl in *. lia.
Qed.

Lemma uses_inv fuel i s live :
  uses fuel i s live -> (2 * i + 4 <= fuel)%nat ->
  exists N, heap_any s N (blocks live) /\ (length N <= S i)%nat.
Proof.
  intros H. induction H as [s Hs|i s live nb r s' H IH Hnb E|i s live p nb s' H IH Hp E|i s live p nb j v H IH Hp Hj]; intros Hf.
  - exists [(base, 0)]. split; [|simpl; lia]. right. split_and!; [done|done|]. unfold blocks. by rewrite fmap_empty, kmap_empty.
  - destruct IH as (N & Hany & Hl); [lia|].
    destruct (malloc_spec s N (blocks live) nb fuel Hany Hnb ltac:(lia)) as (r1 & s1 & N' & E1 & _ & Hl' & Hr).
    rewrite E in E1. injection E1 as <- <-. exists N'. split; [|lia]. destruct Hr as [(-> & Hany' & _)|(Hr & _ & Inv')]; [done|].
    rewrite (proj2 (Z.eqb_neq _ _)) by done. left. by rewrite blocks_insert.
  - destruct IH as (N & Hany & Hl); [lia|].
    assert (blocks live !! (p - 16) = Some (nunits nb)) as Hb.
    { apply blocks_lookup. exists nb. split; [by replace (p - 16 + 16) with p by lia|done]. }
    destruct Hany as [Inv|(_ & _ & El)]; [|by rewrite El in Hb].
    destruct (free_spec s N (blocks live) (p - 16) (nunits nb) Inv Hb fuel ltac:(lia)) as (s1 & N' & E1 & Inv' & _ & Hl' & _).
    replace (p - 16 + 16) with p in E1 by lia. rewrite E in E1. injection E1 as <-.
    exists N'. split; [|lia]. left. by rewrite blocks_delete.
  - destruct IH as (N & Hany & Hl); [lia|]. exists N. split; [|done].
    apply (write_inv s N (blocks live) (p - 16) (nunits nb)); [done| |].
    + apply blocks_lookup. exists nb. split; [by replace (p - 16 + 16) with p by lia|done].
    + unfold nunits. dlia.
Qed.

(** C31: Let a process have called malloc, each time for at most 2^31 - 32 bytes, and
    free for blocks it held, in any order, and have written what it likes to the blocks it
    holds, and let sbrk grow the heap by what it is asked for or refuse.  Then these blocks
    lie in its heap and do not overlap, and the next call of malloc for at most 2^31 - 32
    bytes, or of free for a block it holds, returns without changing a byte of the other
    blocks. *)
Theorem umalloc_safe fuel i s live :
  uses fuel i s live -> (2 * i + 4 <= fuel)%nat ->
  (forall p nb, live !! p = Some nb -> base + sizeof_header < p /\ p + nb <= u_brk s)
  /\ (forall p nb p' nb', live !! p = Some nb -> live !! p' = Some nb' -> p <> p' -> p + nb <= p' \/ p' + nb' <= p)
  /\ (forall nb, 0 <= nb <= 2 ^ 31 - 32 -> exists r s', malloc fuel nb s = Ret r s' /\ live !! r = None
        /\ forall p n x, live !! p = Some n -> p <= x < p + n -> load8 (u_mem s') x = load8 (u_mem s) x)
  /\ (forall p nb, live !! p = Some nb -> exists s', free fuel p s = Ret tt s'
        /\ forall p' n x, delete p live !! p' = Some n -> p' <= x < p' + n -> load8 (u_mem s') x = load8 (u_mem s) x).
Proof.
  intros H Hf. destruct (uses_inv fuel i s live H Hf) as (N & Hany & Hl).
  assert (forall p nb, live !! p = Some nb -> blocks live !! (p - 16) = Some (nunits nb)) as Hb.
  { intros p nb Hp. apply blocks_lookup. exists nb. split; [by replace (p - 16 + 16) with p by lia|done]. }
  assert (forall p nb, live !! p = Some nb -> heap_inv s N (blocks live)) as Hinv.
  { intros p nb Hp%Hb. destruct Hany as [Inv|(_ & _ & El)]; [done|]. by rewrite El in Hp. }
  assert (forall p nb, live !! p = Some nb -> base + sizeof_header < p /\ p + nb <= u_brk s) as H1.
  { intros p nb Hp. destruct (hi_live _ _ _ (Hinv p nb Hp) _ _ (Hb p nb Hp)) as [(A1 & A2 & A3) _].
    unfold bend, sizeof_header, nunits in *. simpl in *. dlia. }
  assert (forall m', keeps (blocks live) (u_mem s) m' ->
    forall p n x, live !! p = Some n -> p <= x < p + n -> load8 m' x = load8 (u_mem s) x) as Hkeep.
  { intros m' Hk p n x Hp Hx. apply (Hk _ _ x (Hb p n Hp)). unfold nunits. dlia. }
  split; [done|]. split.
  { intros p nb p' nb' Hp Hp' Hne.
    pose proof (hi_disj _ _ _ (Hinv p nb Hp) _ _ _ _ (Hb p nb Hp) (Hb p' nb' Hp') ltac:(lia)) as D.
    unfold disj, bend, sizeof_header, nunits in D. simpl in D. dlia. }
  split.
  - intros nb Hnb. destruct (malloc_spec s N (blocks live) nb fuel Hany Hnb ltac:(lia)) as (r & s' & N' & E & Hk & _ & Hr).
    exists r, s'. split_and!; [done| |by apply Hkeep]. destruct (live !! r) as [n|] eqn:Er; [|done].
    destruct Hr as [[-> _]|(_ & Hno & _)].
    + destruct (H1 0 n Er) as [H0 _]. destruct (hi_brk _ _ _ (Hinv 0 n Er)) as (Z1 & _). unfold sizeof_header in H0. lia.
    + apply Hb in Er. congruence.
  - intros p nb Hp. destruct (free_spec s N (blocks live) (p - 16) (nunits nb) (Hinv p nb Hp) (Hb p nb Hp) fuel ltac:(lia))
      as (s' & N' & E & _ & _ & _ & _ & Hk).
    replace (p - 16 + 16) with p in E by lia. exists s'. split; [done|]. intros p' n x [Hne Hp']%lookup_delete_Some Hx.
    apply (Hk (p' - 16) (nunits n) x).
    + apply lookup_delete_Some. split; [lia|by apply Hb].
    + unfold nunits. dlia.
Qed.

(** C32: After any calls of malloc for at most 2^31 - 32 bytes each and of free for blocks
    the process held, at least one malloc among them, the free list and the blocks the
    process holds account for every byte the kernel gave to the heap: their units add up to
    it, so memory is never lost, and when the process holds nothing all of it is free. *)
Theorem umalloc_no_leak fuel i s live :
  uses fuel i s live -> (2 * i + 4 <= fuel)%nat -> u_freep s <> 0 ->
  exists N, nodes (u_mem s) ((base, 0) :: N) base /\ StronglySorted lower ((base, 0) :: N)
  /\ sizeof_header * (units N + live_units (blocks live)) = u_brk s - brk0.
Proof.
  intros H Hf Hfp. destruct (uses_inv fuel i s live H Hf) as (N & [Inv|(Hs & _)] & Hl); [|by destruct Hs].
  destruct (hi_head _ _ _ Inv) as [fs ->]. exists fs. pose proof (hi_total _ _ _ Inv) as HT. simpl units in HT.
  split_and!; [apply Inv|apply Inv|]. unfold sizeof_header in *. lia.
Qed.

(** malloc returns 0 only when the kernel refuses to grow the heap and no
    block of the free list is large enough. *)
Theorem malloc_fails_only_without_memory fuel i s live nb s' :
  uses fuel i s live -> (2 * i + 4 <= fuel)%nat -> 0 <= nb <= 2 ^ 31 - 32 -> malloc fuel nb s = Ret 0 s' ->
  u_brk s' = u_brk s /\ grow (u_brk s) (16 * Z.max 4096 (nunits nb)) = None
  /\ (u_freep s <> 0 -> exists N, nodes (u_mem s) ((base, 0) :: N) base /\ Forall (fun b => b.2 < nunits nb) N).
Proof.
  intros H Hf Hnb E. destruct (uses_inv fuel i s live H Hf) as (N & Hany & Hl).
  destruct (malloc_spec s N (blocks live) nb fuel Hany Hnb ltac:(lia)) as (r & s1 & N' & E1 & _ & _ & Hr).
  rewrite E in E1. injection E1 as <- <-. destruct Hr as [(_ & _ & Hg & Hall & Hb)|[Hr _]]; [|done].
  split_and!; [done|done|]. intros Hfp. destruct Hany as [Inv|(Hs & _)]; [|by destruct Hs].
  destruct (hi_head _ _ _ Inv) as [fs ->]. exists fs. split; [apply Inv|]. by apply Forall_cons in Hall as [_ Hall].
Qed.
End Umalloc.

(** ** A process with room for 4096 units *)
Definition demo_grow (brk n : Z) : option Z := if (0 <? n) && (brk + n <=? 8192 + 65536) then Some (brk + n) else None.
Definition demo_heap : uheap := mkUheap ∅ 0 8192.

Lemma demo_grow_ok brk n brk' : 0 < n -> demo_grow brk n = Some brk' -> brk' = brk + n /\ brk' < 2 ^ 36.
Proof.
  intros Hn. unfold demo_grow. destruct (Z.leb_spec (brk + n) (8192 + 65536)); [|by rewrite andb_false_r].
  destruct (Z.ltb_spec 0 n); [|lia]. intros [= <-]. lia.
Qed.

Lemma demo_start : heap_start 4096 8192 demo_heap.
Proof. unfold heap_start. vm_compute. repeat split; discriminate || reflexivity. Qed.

(** The process after [malloc(100)]. *)
Definition demo_after : run uheap Z := malloc 4096 demo_grow 20 100 demo_heap.

Lemma demo_uses : exists s, demo_after = Ret 73616 s /\ uses 4096 demo_grow 8192 20 1 s {[ 73616 := 100 ]} /\ u_freep s <> 0.
Proof.
  destruct demo_after as [r s| | |] eqn:E; try (vm_compute in E; discriminate).
  assert (r = 73616) as -> by (vm_compute in E; congruence). exists s. split; [done|]. split.
  - apply (uses_malloc 4096 demo_grow 8192 20 0 demo_heap ∅ 100 73616 s); [constructor; apply demo_start|lia|exact E].
  - vm_compute in E. injection E as <-. discriminate.
Qed.

Lemma umalloc_safe_witness : exists s s', free 20 73616 s = Ret tt s'.
Proof.
  destruct demo_uses as (s & _ & H & _).
  destruct (umalloc_safe 4096 demo_grow 8192 demo_grow_ok 20 1 s {[ 73616 := 100 ]}) as (_ & _ & _ & Hf).
  - exact H.
  - lia.
  - destruct (Hf 73616 100) as (s' & E & _); [apply lookup_singleton_eq|]. exists s, s'. exact E.
Defined.

Lemma umalloc_no_leak_witness : exists s N, nodes (u_mem s) ((4096, 0) :: N) 4096
  /\ sizeof_header * (units N + live_units (blocks {[ 73616 := 100 ]})) = u_brk s - 8192.
Proof.
  destruct demo_uses as (s & _ & H & Hfp).
  destruct (umalloc_no_leak 4096 demo_grow 8192 demo_grow_ok 20 1 s {[ 73616 := 100 ]}) as (N & H1 & _ & H2).
  - exact H.
  - lia.
  - exact Hfp.
  - exists s, N. split; [exact H1|exact H2].
Defined.

(** 70000 bytes are more than the kernel gives. *)
Lemma malloc_fails_only_without_memory_witness :
  demo_grow 8192 (16 * Z.max 4096 (nunits 70000)) = None.
Proof.
  destruct (malloc 4096 demo_grow 20 70000 demo_heap) as [r s| | |] eqn:E; try (vm_compute in E; discriminate).
  assert (r = 0) as -> by (vm_compute in E; congruence).
  destruct (malloc_fails_only_without_memory 4096 demo_grow 8192 demo_grow_ok 20 0 demo_heap ∅ 70000 s) as (_ & Hg & _).
  - constructor. apply demo_start.
  - lia.
  - lia.
  - exact E.
  - exact Hg.
Defined.

(** The first block to be freed, above an empty list. *)
Lemma first_free base brk0 n m brk fuel : 0 < base -> base + 16 <= brk0 < 2 ^ 36 -> 0 < n < 2 ^ 32 -> load64 m base = base -> load32 m (base + 8) = 0 -> load32 m (brk0 + 8) = n ->
  free (S fuel) (brk0 + 16) (mkUheap m base brk) = Ret tt (mkUheap (store64 (store64 m brk0 base) base brk0) base brk).
Proof.
  intros Hp Hr Hn L1 L2 L3. unfold free. rewrite hp_add_small by lia. replace (brk0 + 16 + 16 * -1) with brk0 by lia. erewrite bind_ret_eq by reflexivity. cbn [u_freep].
  assert (while_loop (S fuel) base (free_turn brk0) (mkUheap m base brk) = Ret base (mkUheap m base brk)) as E1.
  { apply while_done. unfold free_turn, s_ptr. erewrite bind_ret_eq by reflexivity. cbn [u_mem]. rewrite L1.
    rewrite (proj2 (Z.ltb_lt base brk0)), (proj2 (Z.ltb_ge brk0 base)), Z.leb_refl by lia. reflexivity. }
  erewrite bind_ret_eq by exact E1.
  assert (free_join_next brk0 base (mkUheap m base brk) = Ret tt (mkUheap (store64 m brk0 base) base brk)) as E2.
  { unfold free_join_next, s_size, s_ptr. erewrite bind_ret_eq by reflexivity. erewrite bind_ret_eq by reflexivity. cbn [u_mem]. rewrite L1, L3, hp_add_small by lia. by rewrite (proj2 (Z.eqb_neq (brk0 + 16 * n) base)) by lia. }
  erewrite bind_ret_eq by exact E2.
  assert (free_join_prev brk0 base (mkUheap (store64 m brk0 base) base brk) = Ret tt (mkUheap (store64 (store64 m brk0 base) base brk0) base brk)) as E3.
  { unfold free_join_prev, s_size. erewrite bind_ret_eq by reflexivity. cbn [u_mem]. rewrite load32_store64_ne, L2, hp_add_small by lia. by rewrite (proj2 (Z.eqb_neq (base + 16 * 0) brk0)) by lia. }
  by erewrite bind_ret_eq by exact E3.
Qed.

Lemma first_morecore base grow brk0 fuel s n brk' : heap_start base brk0 s -> 4096 <= n < 2 ^ 32 -> grow brk0 (int32 (n * sizeof_header)) = Some brk' ->
  exists m, morecore grow (S fuel) n (started base s) = Ret base (mkUheap m base brk') /\ nodes m [(base, 0); (brk0, n)] base.
Proof.
  intros (Hf & Hb & Hp & Hr) Hn Hg. unfold sizeof_header in *. unfold morecore. rewrite (proj2 (Z.ltb_ge _ _)) by lia.
  erewrite bind_ret_eq by (unfold sbrk, sizeof_header; cbn [u_brk started]; rewrite Hb, Hg; reflexivity).
  rewrite (proj2 (Z.eqb_neq brk0 SBRK_ERROR)) by (unfold SBRK_ERROR; lia). erewrite bind_ret_eq by reflexivity.
  rewrite (hp_add_small brk0 1), Z.mul_1_r by lia. cbn [u_mem u_freep u_brk started]. set (m1 := store32 (store32 _ _ 0) (brk0 + 8) n).
  assert (load64 m1 base = base) as L1 by (unfold m1; rewrite !load64_store32_ne by lia; apply load64_store64_eq; lia).
  assert (load32 m1 (base + 8) = 0) as L2 by (unfold m1; rewrite load32_store32_ne by lia; by rewrite load32_store32_eq).
  assert (load32 m1 (brk0 + 8) = n) as L3 by (unfold m1; rewrite load32_store32_eq; apply uint32_small; lia). clearbody m1.
  erewrite bind_ret_eq by (apply (first_free base brk0 n); (done || lia)).
  eexists. split; [reflexivity|]. cbn [nodes head_addr fst snd].
  rewrite !load32_store64_ne, load64_store64_eq, (load64_store64_ne _ _ brk0), load64_store64_eq by lia. done.
Qed.

(** C33: A request of more than 2^32 - 16 bytes is handed to [sbrk] as an [int] of 16: when
    it is the first one of a process, whatever its memory and wherever its heap ends, and
    the kernel grows the heap by 16 bytes, malloc returns the new end of the heap, where
    not one byte of the block is the process's. *)
Theorem malloc_size_overflow base grow brk0 fuel nb s : heap_start base brk0 s -> 2 ^ 32 - 16 < nb < 2 ^ 32 -> (2 <= fuel)%nat -> grow brk0 16 = Some (brk0 + 16) ->
  exists s', malloc base grow fuel nb s = Ret (u_brk s') s' /\ u_brk s' = brk0 + 16.
Proof.
  intros H Hnb Hfu Hg. pose proof H as (Hf & Hb & Hp & Hr). unfold sizeof_header in Hr. destruct fuel as [|[|fuel]]; [lia..|].
  destruct (first_morecore base grow brk0 (S fuel) s (2 ^ 28 + 1) (brk0 + 16) H ltac:(lia) Hg) as (m & E & L1 & L2 & L3 & L4 & _). cbn [fst snd head_addr] in *.
  assert (uint32 ((nb + sizeof_header - 1) / sizeof_header + 1) = 2 ^ 28 + 1) as Hu by (unfold sizeof_header; rewrite uint32_small; dlia).
  unfold malloc. rewrite Hu. set (n := 2 ^ 28 + 1) in *. erewrite bind_ret_eq by reflexivity. rewrite Hf. cbn [Z.eqb].
  erewrite (bind_ret_eq _ _ s base (started base s)) by reflexivity. unfold s_ptr at 1. erewrite bind_ret_eq by reflexivity.
  assert (load64 (u_mem (started base s)) base = base) as S1 by (cbn; rewrite load64_store32_ne by lia; apply load64_store64_eq; lia).
  assert (load32 (u_mem (started base s)) (base + 8) = 0) as S2 by (cbn; by rewrite load32_store32_eq).
  rewrite S1. erewrite while_next.
  2: { unfold malloc_turn, s_size. cbn [fst snd]. erewrite bind_ret_eq by reflexivity. rewrite S2. change (n <=? 0) with false. cbv iota. erewrite bind_ret_eq by reflexivity. cbn [u_freep started]. rewrite Z.eqb_refl.
       erewrite bind_ret_eq by (erewrite bind_ret_eq by exact E; rewrite (proj2 (Z.eqb_neq base 0)) by lia; reflexivity). unfold s_ptr. erewrite bind_ret_eq by reflexivity. cbn [u_mem]. rewrite L2. reflexivity. }
  exists (mkUheap (store64 m base (load64 m brk0)) base (brk0 + 16)). split; [|reflexivity]. apply while_done.
  unfold malloc_turn, s_size, s_ptr. cbn [fst snd]. erewrite bind_ret_eq by reflexivity. cbn [u_mem]. rewrite L3, Z.leb_refl, Z.eqb_refl.
  erewrite bind_ret_eq by reflexivity. erewrite bind_ret_eq by reflexivity. rewrite hp_add_small by lia. reflexivity.
Qed.

Lemma malloc_size_overflow_witness : exists s', malloc 4096 demo_grow 20 (2 ^ 32 - 1) demo_heap = Ret (u_brk s') s' /\ u_brk s' = 8192 + 16.
Proof. apply (malloc_size_overflow 4096 demo_grow 8192 20 (2 ^ 32 - 1) demo_heap demo_start); [lia|lia|reflexivity]. Defined.
