(* ===== verification/Uprog.v ===== *)
(** * User programs: system calls, ulib.c and printf.c

    A user program is a tree: it asks the kernel for a system call and goes on
    with the answer, exits, or ends its function with a value.  The tree fixes
    what the program does for every answer, so it can be run against any kernel:
    [run_prog] runs it against a handler of system calls.  The functions of
    ulib.c and printf.c follow, and a handler for programs that read and write
    files, which may split what it returns to [read] in any way. *)
From S2P Require Import Prelude State CString Printf Sysfile.

Open Scope Z_scope.

(** ** System calls *)

(** [struct stat], stat.h. *)
Record stat := mkStat { st_dev : Z; st_ino : Z; st_type : Z; st_nlink : Z; st_size : Z }.

(** The calls of user.h that the programs below make, with the memory they are
    given by value. *)
Inductive sysc :=
| Fork
| Wait                                  (* wait(0) *)
| CallPipe
| Read (fd n : Z)
| Write (fd : Z) (bytes : list Z)
| Close (fd : Z)
| Kill (pid : Z)
| CallExec (path : list Z) (argv : list (list Z))
| Open (path : list Z) (omode : Z)
| Mknod (path : list Z) (major minor : Z)
| Unlink (path : list Z)
| Fstat (fd : Z)
| Link (old new : list Z)
| Mkdir (path : list Z)
| Chdir (path : list Z)
| Dup (fd : Z)
| Pause (ticks : Z)
| CallGetpid
| CallSbrk (n t : Z)                    (* sys_sbrk *)
| CallWait                              (* wait(&st) *)
| CallWaitpid (pid : Z)                 (* waitpid(pid, &st) *)
| CallSetp (pid priority : Z)
| CallIsmyear
| CallMutexInit (id : Z)
| CallMutexAcquire (id : Z)
| CallMutexRelease (id : Z).

(** What a call returns: the C result, for [read] the bytes it stored (None for
    -1), for [pipe] the two descriptors, for [fstat] the structure and for [wait]
    and [waitpid] with a place for it the status of the child, after its pid
    (None for -1, with nothing stored). *)
Definition ans (c : sysc) : Type :=
  match c with
  | Read _ _ => option (list Z)
  | CallPipe => option (Z * Z)
  | Fstat _ => option stat
  | CallWait | CallWaitpid _ => option (Z * Z)
  | _ => Z
  end.

Inductive prog (A : Type) : Type :=
| Done (a : A)
| Call (c : sysc) (k : ans c -> prog A)
| Exit (status : Z)
| NoFuel.
Arguments Done {A} a.
Arguments Call {A} c k.
Arguments Exit {A} status.
Arguments NoFuel {A}.

#[export] Instance prog_ret : MRet prog := fun A a => Done a.
#[export] Instance prog_bind : MBind prog := fun A B f =>
  fix go p :=
    match p with
    | Done a => f a
    | Call c k => Call c (fun r => go (k r))
    | Exit st => Exit st
    | NoFuel => NoFuel
    end.

Definition call (c : sysc) : prog (ans c) := Call c Done.

(** ** ulib.c *)

(** [strcpy]: the loop stops after the nul, or the copy never ends. *)
Fixpoint strcpy (fuel : nat) (m : gmap Z Z) (s t : Z) : option (gmap Z Z) :=
  match fuel with
  | O => None
  | S fuel' =>
      let c := load8 m t in
      let m' := store8 m s c in
      if c =? 0 then Some m' else strcpy fuel' m' (s + 1) (t + 1)
  end.

(** Strings that are only read are lists of bytes without their nul. *)
Fixpoint strcmp (p q : list Z) : Z :=
  match p, q with
  | c :: p', d :: q' => if c =? d then strcmp p' q' else uint8 c - uint8 d
  | c :: _, [] => uint8 c
  | [], d :: _ => - uint8 d
  | [], [] => 0
  end.

Definition ustrlen (s : list Z) : Z := uint32 (Z.of_nat (length s)).

Definition umemset (m : gmap Z Z) (dst c n : Z) : gmap Z Z :=
  fold_left (fun m i => store8 m (dst + i) c) (seqZ 0 n) m.

(** [strchr]: the offset of the first [c], which is not nul. *)
Fixpoint strchr (s : list Z) (c : Z) : option nat :=
  match s with
  | [] => None
  | d :: s' => if d =? 0 then None else if d =? c then Some O else S <$> strchr s' c
  end.

Fixpoint ugets_loop (fuel : nat) (i max : Z) : prog (list Z) :=
  match fuel with
  | O => NoFuel
  | S fuel' =>
      if i + 1 <? max then
        cc ← call (Read 0 1);
        match cc with
        | Some (c :: _) =>
            if (c =? 10) || (c =? 13) then mret [c]
            else rest ← ugets_loop fuel' (i + 1) max; mret (c :: rest)
        | _ => mret []
        end
      else mret []
  end.

(** [gets]: the bytes stored in [buf] before the nul. *)
Definition ugets (max : Z) : prog (list Z) := ugets_loop (S (Z.to_nat max)) 0 max.

Definition ustat (n : list Z) : prog (option stat) :=
  fd ← call (Open n O_RDONLY);
  if fd <? 0 then mret None else
  r ← call (Fstat fd);
  _ ← call (Close fd);
  mret r.

Fixpoint atoi_loop (n : Z) (s : list Z) : Z :=
  match s with
  | c :: s' => if (48 <=? c) && (c <=? 57) then atoi_loop (int32 (n * 10 + c - 48)) s' else n
  | [] => n
  end.
Definition atoi (s : list Z) : Z := atoi_loop 0 s.

Definition umemmove (m : gmap Z Z) (vdst vsrc n : Z) : gmap Z Z :=
  if vdst <? vsrc then copy_up m vdst vsrc (Z.to_nat n)
  else copy_down m (vdst + n) (vsrc + n) (Z.to_nat n).

(** A [char] is unsigned on RISC-V. *)
Fixpoint umemcmp_loop (m : gmap Z Z) (p1 p2 : Z) (n : nat) : Z :=
  match n with
  | O => 0
  | S n' =>
      if negb (load8 m p1 =? load8 m p2) then load8 m p1 - load8 m p2
      else umemcmp_loop m (p1 + 1) (p2 + 1) n'
  end.
Definition umemcmp (m : gmap Z Z) (s1 s2 n : Z) : Z := umemcmp_loop m s1 s2 (Z.to_nat n).

Definition umemcpy (m : gmap Z Z) (dst src n : Z) : gmap Z Z := umemmove m dst src n.

(** ** printf.c *)
Definition udigits : list Z := str "0123456789ABCDEF".
Definition udigit (d : Z) : Z := default 0 (udigits !! Z.to_nat d).

Definition putc (fd c : Z) : prog unit := _ ← call (Write fd [uint8 c]); mret tt.

Fixpoint puts (fd : Z) (l : list Z) : prog unit :=
  match l with
  | [] => mret tt
  | c :: l' => _ ← putc fd c; puts fd l'
  end.

Fixpoint uint_digits (fuel : nat) (x base : Z) : list Z :=
  match fuel with
  | O => []
  | S fuel' => udigit (x mod base) :: (if x / base =? 0 then [] else uint_digits fuel' (x / base) base)
  end.

(** The contents of [buf] when the output loop starts. *)
Definition uprintint_buf (xx base : Z) (sgn : bool) : list Z :=
  let neg := sgn && (xx <? 0) in
  let x := if neg then wrap64 (- xx) else wrap64 xx in
  uint_digits 64 x base ++ (if neg then [45] else []).

Definition uprintint (fd xx base : Z) (sgn : bool) : prog unit := puts fd (rev (uprintint_buf xx base sgn)).

Definition uprintptr (fd x : Z) : prog unit :=
  _ ← putc fd 48; _ ← putc fd 120;
  puts fd (map (fun i => udigit (Z.shiftr (wrap64 (Z.shiftl x (4 * i))) 60)) (seqZ 0 16)).

(** The conversion after a percent sign: what it prints, the arguments left and
    the characters of the format it takes. *)
Definition uconversion (fd c0 c1 c2 : Z) (ap : list arg) : prog unit * list arg * nat :=
  let v := arg_int ap in
  let l := 108 in
  if c0 =? 100 then (uprintint fd (int32 v) 10 true, tail ap, 1%nat)
  else if (c0 =? l) && (c1 =? 100) then (uprintint fd (int64 v) 10 true, tail ap, 2%nat)
  else if (c0 =? l) && (c1 =? l) && (c2 =? 100) then (uprintint fd (int64 v) 10 true, tail ap, 3%nat)
  else if c0 =? 117 then (uprintint fd (uint32 v) 10 false, tail ap, 1%nat)
  else if (c0 =? l) && (c1 =? 117) then (uprintint fd (int64 v) 10 false, tail ap, 2%nat)
  else if (c0 =? l) && (c1 =? l) && (c2 =? 117) then (uprintint fd (int64 v) 10 false, tail ap, 3%nat)
  else if c0 =? 120 then (uprintint fd (uint32 v) 16 false, tail ap, 1%nat)
  else if (c0 =? l) && (c1 =? 120) then (uprintint fd (int64 v) 16 false, tail ap, 2%nat)
  else if (c0 =? l) && (c1 =? l) && (c2 =? 120) then (uprintint fd (int64 v) 16 false, tail ap, 3%nat)
  else if c0 =? 112 then (uprintptr fd (wrap64 v), tail ap, 1%nat)
  else if c0 =? 99 then (putc fd (uint32 v), tail ap, 1%nat)
  else if c0 =? 115 then (puts fd (default (str "(null)") (arg_str ap)), tail ap, 1%nat)
  else if c0 =? 37 then (putc fd 37, ap, 1%nat)
  else (_ ← putc fd 37; putc fd c0, ap, 1%nat).

Fixpoint vprintf_loop (fuel : nat) (fd : Z) (fmt : list Z) (ap : list arg) : prog unit :=
  match fuel, fmt with
  | O, _ => NoFuel
  | S _, [] => mret tt
  | S fuel', c0 :: rest =>
      if c0 =? 37 then
        match rest with
        | [] => mret tt
        | c0 :: _ =>
            let '(c, ap', n) := uconversion fd c0 (nth 1 rest 0) (nth 2 rest 0) ap in
            _ ← c; vprintf_loop fuel' fd (drop n rest) ap'
        end
      else _ ← putc fd c0; vprintf_loop fuel' fd rest ap
  end.

Definition vprintf (fd : Z) (fmt : list Z) (ap : list arg) : prog unit :=
  vprintf_loop (S (length fmt)) fd fmt ap.

Definition fprintf (fd : Z) (fmt : string) (ap : list arg) : prog unit := vprintf fd (str fmt) ap.
Definition uprintf (fmt : string) (ap : list arg) : prog unit := vprintf 1 (str fmt) ap.
Definition SArg (s : list Z) : arg := AStr (Some s).

(** ** Running a program *)

(** A handler answers each call, or does not return from it ([exec]). *)
Definition call_handler (W : Type) : Type := forall c : sysc, W -> option (ans c * W).

Inductive outcome (A W : Type) : Type :=
| Returned (a : A) (w : W)
| Exited (status : Z) (w : W)
| Gone (c : sysc) (w : W)
| OutOfFuel.
Arguments Returned {A W} a w.
Arguments Exited {A W} status w.
Arguments Gone {A W} c w.
Arguments OutOfFuel {A W}.

Fixpoint run_prog {A W} (h : call_handler W) (p : prog A) (w : W) : outcome A W :=
  match p with
  | Done a => Returned a w
  | Call c k =>
      match h c w with
      | Some (r, w') => run_prog h (k r) w'
      | None => Gone c w
      end
  | Exit st => Exited st w
  | NoFuel => OutOfFuel
  end.

Lemma run_prog_bind {A B W} (h : call_handler W) (p : prog A) (f : A -> prog B) w :
  run_prog h (p ≫= f) w =
  match run_prog h p w with
  | Returned a w' => run_prog h (f a) w'
  | Exited st w' => Exited st w'
  | Gone c w' => Gone c w'
  | OutOfFuel => OutOfFuel
  end.
Proof.
  revert w. induction p as [a|c k IH|st|]; intros w; try done.
  simpl. destruct (h c w) as [[r w']|]; [apply IH|done].
Qed.

Lemma run_bind_eq {A B W} (h : call_handler W) (p : prog A) (f : A -> prog B) w a w' :
  run_prog h p w = Returned a w' -> run_prog h (p ≫= f) w = run_prog h (f a) w'.
Proof. intros E. by rewrite run_prog_bind, E. Qed.

Lemma run_call_eq {B W} (h : call_handler W) (c : sysc) (f : ans c -> prog B) w r w' :
  h c w = Some (r, w') -> run_prog h (call c ≫= f) w = run_prog h (f r) w'.
Proof. intros E. simpl. by rewrite E. Qed.

(** A program that makes only the calls of [P] and whose loops never run out of
    fuel, whatever the kernel answers. *)
Fixpoint only {A} (P : sysc -> Prop) (p : prog A) : Prop :=
  match p with
  | Done _ | Exit _ => True
  | Call c k => P c /\ forall r, only P (k r)
  | NoFuel => False
  end.

Definition total {A} (p : prog A) : Prop := only (fun _ => True) p.

Lemma only_bind {A B} P (p : prog A) (f : A -> prog B) : only P p -> (forall a, only P (f a)) -> only P (p ≫= f).
Proof. intros Hp Hf. induction p as [a|c k IH|st|]; simpl in *; [auto| |done|done]. destruct Hp. auto. Qed.

Lemma only_mono {A} (P Q : sysc -> Prop) (p : prog A) : (forall c, P c -> Q c) -> only P p -> only Q p.
Proof. intros H. induction p as [a|c k IH|st|]; simpl; [done| |done|done]. intros [Hc Hk]. auto. Qed.

(** Everything printf does is write to its descriptor. *)
Definition write_to (fd : Z) (c : sysc) : Prop := exists bs, c = Write fd bs.

Lemma only_putc fd c : only (write_to fd) (putc fd c).
Proof. split; [by eexists|done]. Qed.

Lemma only_puts fd l : only (write_to fd) (puts fd l).
Proof. induction l as [|c l IH]; [done|]. apply only_bind; [apply only_putc|done]. Qed.

Lemma only_uconversion fd c0 c1 c2 ap :
  only (write_to fd) (uconversion fd c0 c1 c2 ap).1.1 /\ (0 < (uconversion fd c0 c1 c2 ap).2)%nat.
Proof.
  assert (forall x, only (write_to fd) (uprintptr fd x)) as Hptr.
  { intros x. apply only_bind; [apply only_putc|intros _]. apply only_bind; [apply only_putc|intros _]. apply only_puts. }
  unfold uconversion.
  repeat (match goal with |- context [if ?b then _ else _] => destruct b end;
    [cbn [fst snd]; split; [first [apply only_puts|apply only_putc|apply Hptr]|lia]|]).
  cbn [fst snd]. split; [|lia]. apply only_bind; [apply only_putc|intros _; apply only_putc].
Qed.

Lemma only_vprintf fd fmt ap : only (write_to fd) (vprintf fd fmt ap).
Proof.
  unfold vprintf.
  enough (forall fuel fmt ap, (length fmt < fuel)%nat -> only (write_to fd) (vprintf_loop fuel fd fmt ap)) as H by (apply H; lia).
  clear. induction fuel as [|fuel IH]; intros fmt ap Hf; [lia|]. destruct fmt as [|c fmt]; [done|]. simpl in Hf. cbn [vprintf_loop].
  destruct (c =? 37); [|apply only_bind; [apply only_putc|intros _; apply IH; lia]]. destruct fmt as [|c0 fmt]; [done|].
  destruct (only_uconversion fd c0 (nth 1 (c0 :: fmt) 0) (nth 2 (c0 :: fmt) 0) ap) as [Ht Hn].
  destruct (uconversion fd c0 _ _ ap) as [[cv ap'] n]. apply only_bind; [done|]. intros _. apply IH.
  rewrite length_drop. simpl in *. lia.
Qed.

Lemma total_vprintf fd fmt ap : total (vprintf fd fmt ap).
Proof. eapply only_mono; [|apply only_vprintf]. done. Qed.

(** ** A handler for programs that read and write files

    Files have contents, an open descriptor has what is left to read of its
    file, and what is written to a descriptor is kept.  [pick] bounds how much
    each call of [read] returns: at least one byte unless the file is at its
    end or the buffer has no room. *)
Record fworld := mkF {
  f_files : gmap (list Z) (list Z);
  f_fds : gmap Z (list Z);
  f_out : gmap Z (list Z);
  f_reads : nat }.

Definition written (w : fworld) (fd : Z) : list Z := default [] (f_out w !! fd).
Definition put_out (fd : Z) (bs : list Z) (w : fworld) : fworld :=
  mkF (f_files w) (f_fds w) (<[fd := written w fd ++ bs]> (f_out w)) (f_reads w).
Definition after_read (fd : Z) (rest : list Z) (w : fworld) : fworld :=
  mkF (f_files w) (<[fd := rest]> (f_fds w)) (f_out w) (S (f_reads w)).
Definition set_fds (fds : gmap Z (list Z)) (w : fworld) : fworld :=
  mkF (f_files w) fds (f_out w) (f_reads w).

(** The lowest free descriptor above the standard ones. *)
Definition free_fd (w : fworld) : option Z :=
  snd <$> list_find (fun fd => f_fds w !! fd = None) (seqZ 3 13).

Section Handler.
Context (pick : nat -> nat).

Definition amount (w : fworld) (n : Z) (rest : list Z) : nat :=
  Nat.min (length rest) (Nat.min (Z.to_nat n) (Nat.max 1 (pick (f_reads w)))).

Definition file_handler : call_handler fworld := fun c w =>
  match c as c return option (ans c * fworld) with
  | Read fd n =>
      match f_fds w !! fd with
      | None => Some (None, w)
      | Some rest => let k := amount w n rest in Some (Some (take k rest), after_read fd (drop k rest) w)
      end
  | Write fd bs => Some (Z.of_nat (length bs), put_out fd bs w)
  | Open path _ =>
      match f_files w !! path, free_fd w with
      | Some content, Some fd => Some (fd, set_fds (<[fd := content]> (f_fds w)) w)
      | _, _ => Some (-1, w)
      end
  | Close fd => Some (0, set_fds (delete fd (f_fds w)) w)
  | Fstat _ => Some (None, w)
  | CallPipe => Some (None, w)
  | Fork => Some (-1, w)
  | Wait => Some (-1, w)
  | Kill _ => Some (-1, w)
  | CallExec _ _ => Some (-1, w)
  | Mknod _ _ _ => Some (-1, w)
  | Unlink _ => Some (-1, w)
  | Link _ _ => Some (-1, w)
  | Mkdir _ => Some (-1, w)
  | Chdir _ => Some (-1, w)
  | Dup _ => Some (-1, w)
  | Pause _ => Some (-1, w)
  | CallGetpid => Some (-1, w)
  | CallSbrk _ _ => Some (-1, w)
  | CallWait => Some (None, w)
  | CallWaitpid _ => Some (None, w)
  | CallSetp _ _ => Some (-1, w)
  | CallIsmyear => Some (-1, w)
  | CallMutexInit _ => Some (-1, w)
  | CallMutexAcquire _ => Some (-1, w)
  | CallMutexRelease _ => Some (-1, w)
  end.

Lemma put_out_app fd a b w : put_out fd b (put_out fd a w) = put_out fd (a ++ b) w.
Proof.
  unfold put_out, written. simpl. rewrite lookup_insert_eq, insert_insert_eq. simpl. by rewrite <- app_assoc.
Qed.

Lemma written_put_out fd bs w : written (put_out fd bs w) fd = written w fd ++ bs.
Proof. unfold put_out, written. simpl. by rewrite lookup_insert_eq. Qed.

(** [w'] is [w] with [bs] written to [fd]. *)
Definition printed (fd : Z) (w w' : fworld) (bs : list Z) : Prop :=
  f_fds w' = f_fds w /\ f_files w' = f_files w /\ written w' fd = written w fd ++ bs
  /\ forall fd', fd' <> fd -> written w' fd' = written w fd'.

Lemma printed_refl fd w : printed fd w w [].
Proof. split_and!; [done|done|by rewrite app_nil_r|done]. Qed.

Lemma printed_trans fd w w1 w2 a b : printed fd w w1 a -> printed fd w1 w2 b -> printed fd w w2 (a ++ b).
Proof.
  intros (A1 & A2 & A3 & A4) (B1 & B2 & B3 & B4). split_and!; [congruence|congruence| |].
  - by rewrite B3, A3, app_assoc.
  - intros fd' H. by rewrite B4, A4.
Qed.

Lemma printed_put_out fd bs w : printed fd w (put_out fd bs w) bs.
Proof.
  split_and!; [done|done|apply written_put_out|]. intros fd' H. unfold written. simpl. by rewrite lookup_insert_ne.
Qed.

(** The program [p] writes [bs] to [fd] and does nothing else. *)
Definition prints_to (fd : Z) (p : prog unit) (bs : list Z) : Prop :=
  forall w, exists w', run_prog file_handler p w = Returned tt w' /\ printed fd w w' bs.

Lemma prints_to_ret fd : prints_to fd (mret tt) [].
Proof. intros w. exists w. split; [done|apply printed_refl]. Qed.

Lemma prints_to_bind fd p q a b : prints_to fd p a -> prints_to fd q b -> prints_to fd (_ ← p; q) (a ++ b).
Proof.
  intros Hp Hq w. destruct (Hp w) as (w1 & E1 & P1). destruct (Hq w1) as (w2 & E2 & P2). exists w2.
  split; [by erewrite run_bind_eq by exact E1|]. by eapply printed_trans.
Qed.

Lemma prints_to_putc fd c : is_byte c -> prints_to fd (putc fd c) [c].
Proof. intros H w. exists (put_out fd [c] w). split; [simpl; by rewrite uint8_byte|apply printed_put_out]. Qed.

Lemma prints_to_puts fd l : Forall is_byte l -> prints_to fd (puts fd l) l.
Proof.
  induction 1 as [|c l Hc Hl IH]; [apply prints_to_ret|]. change (c :: l) with ([c] ++ l).
  apply (prints_to_bind fd (putc fd c) (puts fd l)); [by apply prints_to_putc|done].
Qed.

(** Each read takes a non-empty piece off the contents while there is room. *)
Lemma run_read fd n w rest :
  f_fds w !! fd = Some rest -> 0 < n -> rest <> [] ->
  exists piece rest', rest = piece ++ rest' /\ piece <> [] /\ Z.of_nat (length piece) <= n
  /\ file_handler (Read fd n) w = Some (Some piece, after_read fd rest' w).
Proof.
  intros E Hn Hr. simpl. rewrite E. set (k := amount w n rest).
  exists (take k rest), (drop k rest). split; [by rewrite take_drop|]. split; [|split; [|done]].
  - assert (0 < k)%nat as Hk; [|destruct rest as [|c rest], k; (lia || done)].
    unfold k, amount. destruct rest as [|c rest]; [done|]. cbn [length]. lia.
  - rewrite length_take. unfold k, amount. lia.
Qed.

Lemma run_read_end fd n w rest :
  f_fds w !! fd = Some rest -> n <= 0 \/ rest = [] -> file_handler (Read fd n) w = Some (Some [], after_read fd rest w).
Proof.
  intros E H. simpl. rewrite E. assert (amount w n rest = 0%nat) as ->; [|done].
  unfold amount. destruct H as [H| ->]; [replace (Z.to_nat n) with 0%nat by lia|simpl]; lia.
Qed.
End Handler.

(** ** Strings *)
Definition no_byte (b : Z) (s : list Z) : Prop := Forall (fun c => c <> b) s.

Lemma strchr_elem s b : 0 ∉ s -> (exists i, strchr s b = Some i) <-> b ∈ s.
Proof.
  induction s as [|c s IH]; intros H0; [split; [by intros [? ?]|by intros ?%elem_of_nil]|].
  apply not_elem_of_cons in H0 as [Hc H0]. specialize (IH H0). cbn [strchr]. rewrite elem_of_cons, <- IH.
  rewrite (proj2 (Z.eqb_neq c 0)) by done. destruct (Z.eqb_spec c b) as [->|Hcb]; [split; eauto|].
  destruct (strchr s b) as [i|]; split.
  - intros _. right. eauto.
  - eauto.
  - by intros [? ?].
  - intros [->|[? ?]]; done.
Qed.

(** ** Printed numbers are read back by atoi *)
Lemma udigit_dec d : 0 <= d < 10 -> udigit d = 48 + d.
Proof.
  intros Hd. assert (Hn : (Z.to_nat d < 10)%nat) by lia. rewrite <- (Z2Nat.id d) at 2 by lia.
  unfold udigit. revert Hn. generalize (Z.to_nat d). intros n Hn.
  do 10 (destruct n as [|n]; [reflexivity|]). lia.
Qed.

Definition is_digit (c : Z) : Prop := 48 <= c <= 57.

Lemma atoi_loop_app n a b : Forall is_digit a -> atoi_loop n (a ++ b) = atoi_loop (atoi_loop n a) b.
Proof.
  intros H. revert n. induction H as [|c a Hc _ IH]; intros n; [done|]. simpl. unfold is_digit in Hc.
  rewrite (proj2 (Z.leb_le 48 c)), (proj2 (Z.leb_le c 57)) by lia. apply IH.
Qed.

Lemma atoi_digits fuel x :
  0 <= x < 2 ^ 31 -> x < 10 ^ Z.of_nat fuel ->
  Forall is_digit (uint_digits fuel x 10) /\ atoi (rev (uint_digits fuel x 10)) = x.
Proof.
  revert x. induction fuel as [|fuel IH]; intros x Hx Hf.
  { simpl in *. assert (x = 0) as -> by lia. done. }
  rewrite Nat2Z.inj_succ, Z.pow_succ_r in Hf by lia. cbn [uint_digits].
  pose proof (Z.mod_pos_bound x 10 ltac:(lia)) as Hm. rewrite udigit_dec by lia.
  assert (forall n, 0 <= n -> n * 10 + x mod 10 < 2 ^ 31 -> atoi_loop n [48 + x mod 10] = n * 10 + x mod 10) as Hl.
  { intros n H0 Hn. simpl. rewrite (proj2 (Z.leb_le 48 _)), (proj2 (Z.leb_le _ 57)) by lia. simpl.
    rewrite int32_small; lia. }
  destruct (Z.eqb_spec (x / 10) 0) as [E|E].
  - split; [repeat constructor; unfold is_digit; lia|]. simpl rev. unfold atoi. rewrite Hl; dlia.
  - destruct (IH (x / 10)) as [I1 I2]; [dlia|apply Z.div_lt_upper_bound; lia|].
    split; [constructor; [unfold is_digit; lia|done]|].
    simpl rev. unfold atoi in *. rewrite atoi_loop_app by (by apply Forall_rev).
    rewrite I2, Hl; dlia.
Qed.

Lemma uint_digits_length fuel x base n :
  1 < base -> 0 <= x < base ^ Z.of_nat (S n) -> (length (uint_digits fuel x base) <= S n)%nat.
Proof.
  intros Hb. revert x n. induction fuel as [|fuel IH]; intros x n Hx; simpl uint_digits; [simpl; lia|].
  destruct (Z.eqb_spec (x / base) 0) as [E|E]; [simpl; lia|]. simpl.
  destruct n as [|n].
  { exfalso. apply E. apply Z.div_small. rewrite Z.pow_1_r in Hx. lia. }
  apply le_n_S, IH. rewrite (Nat2Z.inj_succ (S n)), Z.pow_succ_r in Hx by lia.
  split; [apply Z.div_pos; lia|apply Z.div_lt_upper_bound; lia].
Qed.

(** What [printint] stores fits its buffer of 20 bytes, for every argument of
    the conversions of [vprintf]. *)
Lemma uprintint_buf_fits xx base sgn :
  base = 10 \/ base = 16 -> - 2 ^ 63 <= xx < 2 ^ 64 -> (length (uprintint_buf xx base sgn) <= 20)%nat.
Proof.
  intros Hb Hx. unfold uprintint_buf. rewrite length_app.
  pose proof (wrap64_range xx). destruct (sgn && (xx <? 0)) eqn:Es.
  - apply andb_true_iff in Es as [_ Es%Z.ltb_lt]. rewrite wrap64_small by lia.
    enough (length (uint_digits 64 (- xx) base) <= 19)%nat by (cbn [length]; lia).
    apply uint_digits_length; [lia|]. split; [lia|]. apply Z.le_lt_trans with (2 ^ 63); [lia|].
    destruct Hb as [-> | ->]; vm_compute; reflexivity.
  - enough (length (uint_digits 64 (wrap64 xx) base) <= 20)%nat by (cbn [length]; lia).
    apply uint_digits_length; [lia|]. split; [lia|]. apply Z.lt_le_trans with (2 ^ 64); [lia|].
    destruct Hb as [-> | ->]; vm_compute; discriminate.
Qed.

(** The text printf writes for a number that is not negative is read back
    by atoi as that number, whatever follows it, and fits the buffer of
    printint. *)
Theorem atoi_printint fd x rest :
  0 <= x < 2 ^ 31 -> (forall c, head rest = Some c -> ~ is_digit c) ->
  exists text, uprintint fd x 10 true = puts fd text /\ atoi (text ++ rest) = x /\ (length text <= 20)%nat.
Proof.
  intros Hx Hr. exists (rev (uprintint_buf x 10 true)). split; [done|].
  pose proof (uprintint_buf_fits x 10 true ltac:(by left) ltac:(lia)) as Hl.
  rewrite length_rev. split; [|done]. unfold uprintint_buf.
  rewrite (proj2 (Z.ltb_ge x 0)) by lia. rewrite andb_false_r, app_nil_r, wrap64_small by lia.
  destruct (atoi_digits 64 x Hx) as [Hd Ha]; [lia|]. unfold atoi in *.
  rewrite atoi_loop_app by (by apply Forall_rev). rewrite Ha.
  destruct rest as [|c rest]; [done|]. specialize (Hr c eq_refl). unfold is_digit in Hr. simpl.
  destruct (Z.leb_spec 48 c), (Z.leb_spec c 57); simpl; lia.
Qed.

Lemma atoi_printint_witness : exists text,
  uprintint 1 2026 10 true = puts 1 text /\ atoi (text ++ [32]) = 2026 /\ (length text <= 20)%nat.
Proof. apply (atoi_printint 1 2026 [32]); [lia|]. intros c [= <-]. unfold is_digit. lia. Defined.

(** The copy of memmove in ulib.c does what the kernel's does. *)
Lemma load8_umemmove m dst src n a :
  0 <= n ->   load8 (umemmove m dst src n) a = load8 (memmove m dst src n) a.
Proof.
  intros Hn. rewrite load8_memmove by done. unfold umemmove. destruct (Z.ltb_spec dst src).
  - rewrite copy_up_load by lia. repeat case_decide; done || lia.
  - rewrite copy_down_load by lia. repeat case_decide; try lia; try done; f_equal; lia.
Qed.
