(* ===== verification/Grep.v ===== *)
(** * grep.c

    The regular expression matcher of grep and the loop that cuts what [read]
    returns into lines.  The matcher is proved to decide the language its
    pattern denotes; the loop is proved to print the matching lines of the file
    however [read] splits it, as long as the lines fit the buffer. *)
From S2P Require Import Prelude State CString Printf Sysfile Uprog.

Open Scope Z_scope.

(** ** The matcher *)

(** The loop of [matchstar], over what follows the star. *)
Definition star_loop (mh : list Z -> bool) (c : Z) : list Z -> bool :=
  fix loop (text : list Z) : bool :=
    if mh text then true
    else match text with
         | [] => false
         | x :: text' => if (x =? c) || (c =? 46) then loop text' else false
         end.

Fixpoint matchhere (re text : list Z) {struct re} : bool :=
  match re with
  | [] => true
  | c :: re1 =>
      let step :=
        match text with
        | [] => false
        | x :: text' => if (c =? 46) || (c =? x) then matchhere re1 text' else false
        end in
      match re1 with
      | d :: re2 => if d =? 42 then star_loop (matchhere re2) c text else step
      | [] => if c =? 36 then match text with [] => true | _ => false end else step
      end
  end.

Definition matchstar (c : Z) (re text : list Z) : bool := star_loop (matchhere re) c text.

(** The [do]/[while] of [match]. *)
Fixpoint match_loop (re text : list Z) : bool :=
  if matchhere re text then true
  else match text with [] => false | _ :: text' => match_loop re text' end.

Definition match_ (re text : list Z) : bool :=
  match re with
  | c :: re' => if c =? 94 then matchhere re' text else match_loop re text
  | [] => match_loop re text
  end.

(** ** The loop over the lines *)

(** The inner [while]: [p] is what is left of the buffer. *)
Fixpoint grep_lines (fuel : nat) (pattern p : list Z) : prog (list Z) :=
  match fuel with
  | O => NoFuel
  | S fuel' =>
      match strchr p 10 with
      | None => mret p
      | Some i =>
          let line := take i p in
          _ ← (if match_ pattern line then _ ← call (Write 1 (line ++ [10])); mret tt else mret tt);
          grep_lines fuel' pattern (drop (S i) p)
      end
  end.

Definition sizeof_buf : Z := 1024.

(** The outer [while]: [buf] holds the [m] bytes kept from the last turn. *)
Fixpoint grep (fuel : nat) (pattern : list Z) (fd : Z) (buf : list Z) : prog unit :=
  match fuel with
  | O => NoFuel
  | S fuel' =>
      let m := Z.of_nat (length buf) in
      n ← call (Read fd (sizeof_buf - m - 1));
      match n with
      | None | Some [] => mret tt
      | Some bs =>
          let buf := buf ++ bs in
          p ← grep_lines (S (length buf)) pattern buf;
          grep fuel' pattern fd p
      end
  end.

Fixpoint grep_files (fuel : nat) (pattern : list Z) (files : list (list Z)) : prog unit :=
  match files with
  | [] => mret tt
  | f :: files' =>
      fd ← call (Open f O_RDONLY);
      if fd <? 0 then
        _ ← uprintf ("grep: cannot open %s" ++ nl) [SArg f];
        Exit 1
      else
        _ ← grep fuel pattern fd [];
        _ ← call (Close fd);
        grep_files fuel pattern files'
  end.

Definition grep_main (fuel : nat) (argv : list (list Z)) : prog unit :=
  match argv with
  | _ :: pattern :: files =>
      match files with
      | [] => _ ← grep fuel pattern 0 []; Exit 0
      | _ => _ ← grep_files fuel pattern files; Exit 0
      end
  | _ => _ ← fprintf 2 ("usage: grep pattern [file ...]" ++ nl) []; Exit 1
  end.

(** ** What a pattern denotes *)
Inductive atom := Lit (c : Z) | Any.
Inductive item := One (a : atom) | Many (a : atom).

Definition atom_of (c : Z) : atom := if c =? 46 then Any else Lit c.
Definition atom_ok (a : atom) (x : Z) : Prop := match a with Lit c => x = c | Any => True end.

(** The items of a pattern, and whether it ends in a dollar sign. *)
Fixpoint parse_re (re : list Z) : list item * bool :=
  match re with
  | [] => ([], false)
  | c :: re1 =>
      match re1 with
      | d :: re2 =>
          if d =? 42 then let '(l, e) := parse_re re2 in (Many (atom_of c) :: l, e)
          else let '(l, e) := parse_re re1 in (One (atom_of c) :: l, e)
      | [] => if c =? 36 then ([], true) else ([One (atom_of c)], false)
      end
  end.

Definition item_lang (i : item) (s : list Z) : Prop :=
  match i with
  | One a => exists x, s = [x] /\ atom_ok a x
  | Many a => Forall (atom_ok a) s
  end.

Fixpoint lang (l : list item) (s : list Z) : Prop :=
  match l with
  | [] => s = []
  | i :: l' => exists s1 s2, s = s1 ++ s2 /\ item_lang i s1 /\ lang l' s2
  end.

(** The text starts with a word of the pattern, and ends there if the pattern
    has a dollar sign at its end. *)
Definition matches_at_start (re text : list Z) : Prop :=
  exists u v, text = u ++ v /\ lang (parse_re re).1 u /\ ((parse_re re).2 = true -> v = []).

Definition matches (re text : list Z) : Prop :=
  match re with
  | 94 :: re' => matches_at_start re' text
  | _ => exists before rest, text = before ++ rest /\ matches_at_start re rest
  end.

Lemma atom_ok_iff c x : atom_ok (atom_of c) x <-> (c =? 46) || (c =? x) = true.
Proof.
  unfold atom_of. rewrite orb_true_iff, Z.eqb_eq, Z.eqb_eq.
  destruct (Z.eqb_spec c 46) as [->|H]; simpl; [intuition|]. split; [intros ->; by right|intros [?|?]; [done|by symmetry]].
Qed.

Lemma star_loop_iff mh c text :
  star_loop mh c text = true
  <-> exists s1 s2, text = s1 ++ s2 /\ Forall (atom_ok (atom_of c)) s1 /\ mh s2 = true.
Proof.
  induction text as [|x text IH]; cbn [star_loop].
  - split.
    + destruct (mh []) eqn:E; [|done]. intros _. by exists [], [].
    + intros (s1 & s2 & E & _ & H). symmetry in E. apply app_nil in E as [-> ->]. by rewrite H.
  - fold (star_loop mh c). destruct (mh (x :: text)) eqn:E.
    { split; [intros _; by exists [], (x :: text)|done]. }
    rewrite (orb_comm (x =? c)), (Z.eqb_sym x c). split.
    + destruct ((c =? 46) || (c =? x)) eqn:Ec; [|done]. rewrite IH. intros (s1 & s2 & -> & H1 & H2).
      exists (x :: s1), s2. split_and!; [done| |done]. constructor; [by apply atom_ok_iff|done].
    + intros (s1 & s2 & Es & H1 & H2). destruct s1 as [|y s1]; simpl in Es; [congruence|].
      injection Es as <- ->. apply Forall_cons in H1 as [Hx H1]. apply atom_ok_iff in Hx. rewrite Hx. apply IH. eauto.
Qed.

Lemma matches_at_start_nil text : matches_at_start [] text.
Proof. by exists [], text. Qed.

Lemma matches_at_start_star c re text :
  matches_at_start (c :: 42 :: re) text
  <-> exists s1 s2, text = s1 ++ s2 /\ Forall (atom_ok (atom_of c)) s1 /\ matches_at_start re s2.
Proof.
  unfold matches_at_start. simpl. destruct (parse_re re) as [l e]. simpl. split.
  - intros (u & v & -> & (s1 & s2 & -> & H1 & H2) & He). exists s1, (s2 ++ v). rewrite app_assoc. split_and!; [done..|]. by exists s2, v.
  - intros (s1 & s2 & -> & H1 & u & v & -> & H2 & He). exists (s1 ++ u), v. rewrite app_assoc. split_and!; [done| |done].
    by exists s1, u.
Qed.

Lemma matches_at_start_one c re text :
  head re <> Some 42 -> (c = 36 -> re <> []) ->
  matches_at_start (c :: re) text
  <-> exists x text', text = x :: text' /\ atom_ok (atom_of c) x /\ matches_at_start re text'.
Proof.
  intros Hs Hd.
  assert (parse_re (c :: re) = (One (atom_of c) :: (parse_re re).1, (parse_re re).2)) as E.
  { destruct re as [|d re]; simpl in *.
    - destruct (Z.eqb_spec c 36) as [->|_]; [by destruct Hd|done].
    - destruct (Z.eqb_spec d 42) as [->|_]; [by destruct Hs|]. by destruct (match re with [] => _ | _ => _ end). }
  unfold matches_at_start. rewrite E. simpl. split.
  - intros (u & v & -> & (s1 & s2 & -> & (x & -> & Hx) & H2) & He). exists x, (s2 ++ v). split_and!; [done..|]. by exists s2, v.
  - intros (x & text' & -> & Hx & u & v & -> & H2 & He). exists (x :: u), v. split_and!; [done| |done].
    exists [x], u. split_and!; [done| |done]. by exists x.
Qed.

Lemma matchhere_iff re text : matchhere re text = true <-> matches_at_start re text.
Proof.
  revert re text. enough (forall n re text, (length re <= n)%nat -> matchhere re text = true <-> matches_at_start re text) as H
    by (intros re text; by apply (H (length re))).
  induction n as [|n IH]; intros re text Hn.
  { destruct re; [|simpl in Hn; lia]. split; [intros _; apply matches_at_start_nil|done]. }
  destruct re as [|c re1]; [split; [intros _; apply matches_at_start_nil|done]|]. simpl in Hn.
  assert (head re1 <> Some 42 -> (c = 36 -> re1 <> []) ->
    match text with [] => false | x :: text' => if (c =? 46) || (c =? x) then matchhere re1 text' else false end = true
    <-> matches_at_start (c :: re1) text) as Hstep.
  { intros H1 H2. rewrite matches_at_start_one by done. destruct text as [|x text'].
    - split; [done|]. by intros (x & t & ? & _).
    - split.
      + destruct ((c =? 46) || (c =? x)) eqn:Ec; [|done]. intros H. exists x, text'. split_and!; [done|by apply atom_ok_iff|]. apply IH; [lia|done].
      + intros (y & t & [= <- <-] & Hx%atom_ok_iff & H). rewrite Hx. apply IH; [lia|done]. }
  cbn [matchhere]. destruct re1 as [|d re2].
  - destruct (Z.eqb_spec c 36) as [->|Hc]; [|by apply Hstep].
    unfold matches_at_start. simpl. destruct text as [|x text].
    + split; [intros _; by exists [], []|done].
    + split; [done|]. intros (u & v & E & -> & Hv). rewrite Hv in E; done.
  - destruct (Z.eqb_spec d 42) as [->|Hd].
    + rewrite star_loop_iff, matches_at_start_star. simpl in Hn.
      split; intros (s1 & s2 & ? & ? & ?); exists s1, s2; (split_and!; [done..|]); (apply IH; [lia|done]).
    + apply Hstep; [simpl; congruence|done].
Qed.

Lemma match_loop_iff re text :
  match_loop re text = true <-> exists before rest, text = before ++ rest /\ matches_at_start re rest.
Proof.
  induction text as [|x text IH]; cbn [match_loop]; destruct (matchhere re _) eqn:E.
  - split; [intros _|done]. exists [], []. split; [done|]. by apply matchhere_iff.
  - split; [done|]. intros (b & r & Eq & H). symmetry in Eq. apply app_nil in Eq as [-> ->].
    apply matchhere_iff in H. congruence.
  - split; [intros _|done]. exists [], (x :: text). split; [done|]. by apply matchhere_iff.
  - rewrite IH. split.
    + intros (b & r & -> & H). by exists (x :: b), r.
    + intros (b & r & Eq & H). destruct b as [|y b]; simpl in Eq.
      * subst r. apply matchhere_iff in H. congruence.
      * injection Eq as <- ->. eauto.
Qed.

(** C37: The matcher of grep decides the language of its pattern: a text
    matches exactly when it contains, at its start if the pattern begins with a
    caret, up to its end if the pattern ends with a dollar sign, a word of the
    concatenation of the items of the pattern, characters, dots and stars. *)
Theorem match_decides re text : match_ re text = true <-> matches re text.
Proof.
  assert (forall c re', c <> 94 -> matches (c :: re') text
    <-> exists before rest, text = before ++ rest /\ matches_at_start (c :: re') rest) as Hm.
  { intros c re' Hc. unfold matches. destruct c as [|c|c]; try done. repeat (destruct c as [c|c|]; try done). }
  destruct re as [|c re']; [apply match_loop_iff|]. unfold match_. destruct (Z.eqb_spec c 94) as [->|Hc].
  - apply matchhere_iff.
  - rewrite Hm by done. apply match_loop_iff.
Qed.

(** ** Lines *)

(** The complete lines of a text, without their newlines, and what follows the
    last newline. *)
Fixpoint split_lines (s : list Z) : list (list Z) * list Z :=
  match s with
  | [] => ([], [])
  | c :: s' =>
      let '(ls, r) := split_lines s' in
      if c =? 10 then ([] :: ls, r)
      else match ls with [] => ([], c :: r) | l :: ls' => ((c :: l) :: ls', r) end
  end.

Lemma split_lines_partial r : no_byte 10 r -> split_lines r = ([], r).
Proof.
  induction 1 as [|c r Hc _ IH]; [done|]. simpl. rewrite IH. by rewrite (proj2 (Z.eqb_neq _ _)).
Qed.

Lemma split_lines_line l s : no_byte 10 l ->
  split_lines (l ++ 10 :: s) = (l :: (split_lines s).1, (split_lines s).2).
Proof.
  induction 1 as [|c l Hc _ IH]; simpl; [by destruct (split_lines s)|]. rewrite IH. by rewrite (proj2 (Z.eqb_neq _ _)).
Qed.

Lemma strchr_some s c i : no_byte 0 s -> strchr s c = Some i ->
  s = take i s ++ c :: drop (S i) s /\ no_byte c (take i s).
Proof.
  intros H. revert i. induction H as [|d s Hd _ IH]; intros i; simpl; [done|].
  rewrite (proj2 (Z.eqb_neq d 0)) by done. destruct (Z.eqb_spec d c) as [->|Hdc].
  - intros [= <-]. split; [done|constructor].
  - destruct (strchr s c) as [j|]; [|done]. intros [= <-]. destruct (IH j eq_refl) as [E Hn].
    split; [by rewrite E at 1|]. simpl. by constructor.
Qed.

Lemma strchr_none s c : no_byte 0 s -> strchr s c = None -> no_byte c s.
Proof.
  induction 1 as [|d s Hd _ IH]; simpl; [constructor|]. rewrite (proj2 (Z.eqb_neq d 0)) by done.
  destruct (Z.eqb_spec d c); [done|]. destruct (strchr s c); [done|]. intros _. constructor; [done|by apply IH].
Qed.

(** What grep is to print. *)
Definition selected (pattern : list Z) (ls : list (list Z)) : list Z :=
  concat (map (fun l => if match_ pattern l then l ++ [10] else []) ls).

Lemma selected_eq pattern ls : selected pattern ls = concat (map (fun l => l ++ [10]) (List.filter (match_ pattern) ls)).
Proof. induction ls as [|l ls IH]; [done|]. cbn [List.filter]. unfold selected in *. cbn [map concat]. rewrite IH. by destruct (match_ pattern l). Qed.

Lemma selected_app pattern a b : selected pattern (a ++ b) = selected pattern a ++ selected pattern b.
Proof. unfold selected. by rewrite map_app, concat_app. Qed.

Section Grep.
Context (pick : nat -> nat).

Lemma grep_lines_run fuel pattern p w :
  no_byte 0 p -> (length p < fuel)%nat ->
  exists w', run_prog (file_handler pick) (grep_lines fuel pattern p) w = Returned (split_lines p).2 w'
  /\ printed 1 w w' (selected pattern (split_lines p).1) /\ no_byte 10 (split_lines p).2.
Proof.
  revert p w. induction fuel as [|fuel IH]; intros p w H0 Hf; [lia|]. cbn [grep_lines].
  destruct (strchr p 10) as [i|] eqn:E.
  - destruct (strchr_some p 10 i H0 E) as [Ep Hn].
    set (l := take i p) in *. set (p' := drop (S i) p) in *. rewrite Ep, split_lines_line by done.
    assert (no_byte 0 p') as H0' by (by apply Forall_drop).
    assert (length p' < fuel)%nat as Hl by (rewrite Ep in Hf; len_lia).
    set (w1 := if match_ pattern l then put_out 1 (l ++ [10]) w else w).
    destruct (IH p' w1 H0' Hl) as (w' & E' & P & Hr). exists w'. split_and!.
    + erewrite run_bind_eq; [exact E'|]. unfold w1. by destruct (match_ pattern l).
    + unfold w1, selected in *. simpl. destruct (match_ pattern l); [|done].
      eapply printed_trans; [apply printed_put_out|done].
    + done.
  - pose proof (strchr_none p 10 H0 E) as Hn. rewrite split_lines_partial by done. exists w.
    split_and!; [done|apply printed_refl|done].
Qed.

Lemma split_lines_app a b :
  split_lines (a ++ b)
  = ((split_lines a).1 ++ (split_lines ((split_lines a).2 ++ b)).1, (split_lines ((split_lines a).2 ++ b)).2).
Proof.
  induction a as [|c a IH]; [simpl; by destruct (split_lines b)|]. cbn [split_lines app]. rewrite IH.
  destruct (split_lines a) as [ls r]. simpl. destruct (Z.eqb_spec c 10) as [->|Hc]; [done|].
  destruct ls as [|l ls]; [|done]. simpl. rewrite (proj2 (Z.eqb_neq c 10)) by done.
  by destruct (split_lines (r ++ b)) as [[|? ?] ?].
Qed.

(** A partial line of a text whose lines are short is short, or the last. *)
Lemma partial_short (b : list Z) rest k :
  no_byte 10 b -> Forall (fun l : list Z => (length l <= k)%nat) (split_lines (b ++ rest)).1 ->
  (length b <= k)%nat \/ (split_lines (b ++ rest)).1 = [].
Proof.
  intros Hb Hs. destruct (split_lines (b ++ rest)).1 as [|l ls] eqn:E; [by right|left].
  apply Forall_cons in Hs as [Hl _]. enough (length b <= length l)%nat by lia. clear Hl.
  revert l ls E. induction Hb as [|c b Hc _ IH]; intros l ls; simpl; [lia|].
  destruct (split_lines (b ++ rest)) as [[|l' ls'] r'] eqn:E'; rewrite (proj2 (Z.eqb_neq c 10)) by done; [done|].
  simpl. intros [= <- <-]. simpl. apply le_n_S. by apply (IH l' ls').
Qed.

(** The loop, with [buf] the partial line kept from the last turn. *)
Lemma grep_run fuel pattern fd buf rest w :
  f_fds w !! fd = Some rest -> no_byte 0 (buf ++ rest) -> no_byte 10 buf ->
  Forall (fun l : list Z => (length l <= 1022)%nat) (split_lines (buf ++ rest)).1 -> (length rest < fuel)%nat ->
  exists w', run_prog (file_handler pick) (grep fuel pattern fd buf) w = Returned tt w'
  /\ written w' 1 = written w 1 ++ selected pattern (split_lines (buf ++ rest)).1.
Proof.
  revert buf rest w. induction fuel as [|fuel IH]; intros buf rest w Efd H0 Hb Hs Hf; [lia|].
  set (n := sizeof_buf - Z.of_nat (length buf) - 1).
  destruct (decide (0 < n /\ rest <> [])) as [[Hn Hr]|Hend].
  - destruct (run_read pick fd n w rest Efd Hn Hr) as (piece & rest' & -> & Hp & Hpn & Er).
    rewrite app_assoc in H0. pose proof H0 as [H0b H0r]%Forall_app.
    destruct (grep_lines_run (S (length (buf ++ piece))) pattern (buf ++ piece) (after_read fd rest' w))
      as (w1 & E1 & (P1 & P2 & P3 & P4) & Hr1); [done|lia|].
    rewrite app_assoc, split_lines_app in Hs |- *. cbn [fst snd] in Hs |- *. apply Forall_app in Hs as [_ Hs].
    destruct (IH (split_lines (buf ++ piece)).2 rest' w1) as (w' & E' & Hw').
    + rewrite P1. simpl. apply lookup_insert_eq.
    + apply Forall_app. split; [|done]. clear - H0b. revert H0b. generalize (buf ++ piece). intros l H0b.
      induction H0b as [|c l Hc _ IH]; [constructor|]. simpl. destruct (split_lines l) as [[|? ?] r]; destruct (c =? 10); simpl in *; try done.
      by constructor.
    + done.
    + done.
    + destruct piece; [done|]. len_lia.
    + exists w'. split.
      * cbn [grep]. fold n. rewrite (run_call_eq _ (Read fd n) _ _ _ _ Er).
        destruct piece as [|c piece]; [done|]. erewrite run_bind_eq by exact E1. exact E'.
      * rewrite Hw', P3, selected_app. by rewrite app_assoc.
  - assert (n <= 0 \/ rest = []) as Hend'.
    { destruct (decide (rest = [])); [by right|left]. apply Z.nlt_ge. intros ?. by apply Hend. }
    exists (after_read fd rest w). split.
    + cbn [grep]. fold n. by rewrite (run_call_eq _ (Read fd n) _ _ _ _ (run_read_end pick fd n w rest Efd Hend')).
    + assert ((split_lines (buf ++ rest)).1 = []) as ->; [|by rewrite app_nil_r].
      destruct (partial_short buf rest 1022 Hb Hs) as [Hl|]; [|done].
      destruct Hend' as [Hn| ->]; [unfold n, sizeof_buf in Hn; lia|]. by rewrite app_nil_r, split_lines_partial.
Qed.

(** Lines, each ended by a newline, and what follows the last newline. *)
Definition text_of (lines : list (list Z)) (last : list Z) : list Z := concat (map (fun l => l ++ [10]) lines) ++ last.

Lemma split_text lines last : Forall (no_byte 10) lines -> no_byte 10 last -> split_lines (text_of lines last) = (lines, last).
Proof.
  intros H Hl. unfold text_of. induction H as [|l lines Hn _ IH]; [by apply split_lines_partial|].
  cbn [map concat]. rewrite <- !app_assoc. cbn [app]. by rewrite split_lines_line, IH.
Qed.

(** C38: Let a file have no nul byte, and be lines of at most 1022 bytes that each end in
    a newline, followed by any bytes without a newline.  Then, however the calls of read
    split the file, grep prints exactly those of the lines that match the pattern, in
    order, each with its newline; what follows the last newline it does not print, match or
    not.  It stops after at most one call of read per byte of the file and one more. *)
Theorem grep_correct fuel pattern fd lines last w :
  f_fds w !! fd = Some (text_of lines last) -> no_byte 0 (text_of lines last) ->
  Forall (no_byte 10) lines -> no_byte 10 last ->
  Forall (fun l : list Z => (length l <= 1022)%nat) lines -> (length (text_of lines last) < fuel)%nat ->
  exists w', run_prog (file_handler pick) (grep fuel pattern fd []) w = Returned tt w'
  /\ written w' 1 = written w 1 ++ concat (map (fun l => l ++ [10]) (List.filter (match_ pattern) lines)).
Proof.
  intros Efd H0 Hn Hl Hs Hf. pose proof (split_text lines last Hn Hl) as E.
  destruct (grep_run fuel pattern fd [] (text_of lines last) w) as (w' & Er & Ew); try done; [constructor|by cbn [app]; rewrite E|].
  exists w'. split; [done|]. cbn [app] in Ew. rewrite E, selected_eq in Ew. exact Ew.
Qed.

(** C39: A line of 1023 bytes or more fills the buffer of grep: the next call
    of read has no room, returns 0 as at the end of the file, and grep stops
    without an error and without looking at the rest of the file. *)
Theorem grep_stops_at_long_line fuel pattern fd long rest w :
  f_fds w !! fd = Some (long ++ rest) -> length long = 1023%nat -> no_byte 0 long -> no_byte 10 long ->
  (1023 < fuel)%nat ->
  exists w', run_prog (file_handler pick) (grep fuel pattern fd []) w = Returned tt w'
  /\ written w' 1 = written w 1.
Proof.
  assert (forall fuel buf long w, f_fds w !! fd = Some (long ++ rest) -> length (buf ++ long) = 1023%nat ->
    no_byte 0 (buf ++ long) -> no_byte 10 (buf ++ long) -> (length long < fuel)%nat ->
    exists w', run_prog (file_handler pick) (grep fuel pattern fd buf) w = Returned tt w' /\ written w' 1 = written w 1) as H.
  2: { intros Efd Hl H0 H1 Hf. apply (H fuel [] long w Efd Hl H0 H1). lia. }
  clear. induction fuel as [|fuel IH]; intros buf long w Efd Hl H0 H1 Hf; [lia|].
  set (n := sizeof_buf - Z.of_nat (length buf) - 1). rewrite length_app in Hl.
  assert (Z.of_nat (length long) = n) as Hln by (unfold n, sizeof_buf; lia).
  destruct long as [|c long].
  - exists (after_read fd rest w). split; [|done]. cbn [grep]. fold n. 
    simpl in Hln. by rewrite (run_call_eq _ (Read fd n) _ _ _ _ (run_read_end pick fd n w rest Efd ltac:(lia))).
  - destruct (run_read pick fd n w _ Efd) as (piece & rest' & Ep & Hp & Hpn & Er); [simpl in Hln; lia|done|].
    assert (exists l', c :: long = piece ++ l' /\ rest' = l' ++ rest) as (l' & El & ->).
    { exists (drop (length piece) (c :: long)). assert (length piece <= length (c :: long))%nat as Hle by lia.
      assert (take (length piece) (c :: long) = piece) as Et.
      { apply (f_equal (take (length piece))) in Ep. by rewrite take_app_le, take_app_length in Ep. }
      split; [by rewrite <- Et at 1; rewrite take_drop|].
      apply (f_equal (drop (length piece))) in Ep. by rewrite drop_app_le, drop_app_length in Ep. }
    rewrite El in *. assert (length piece <> 0%nat) as Hp0 by (by destruct piece).
    rewrite app_assoc in H0, H1. pose proof H0 as [H0b _]%Forall_app. pose proof H1 as [H1b _]%Forall_app.
    destruct (grep_lines_run (S (length (buf ++ piece))) pattern (buf ++ piece) (after_read fd (l' ++ rest) w))
      as (w1 & E1 & (P1 & P2 & P3 & P4) & _); [done|lia|].
    rewrite split_lines_partial in E1, P3 by done. simpl in E1, P3.
    destruct (IH (buf ++ piece) l' w1) as (w' & E' & Hw'); [|len_lia|done|done|len_lia|].
    { rewrite P1. apply lookup_insert_eq. }
    exists w'. split; [|by rewrite Hw', P3, app_nil_r].
    cbn [grep]. fold n. rewrite (run_call_eq _ (Read fd n) _ _ _ _ Er).
    destruct piece; [done|]. erewrite run_bind_eq by exact E1. exact E'.
Qed.
End Grep.

Definition demo_world (content : list Z) : fworld := mkF ∅ {[0 := content]} ∅ 0.
Definition demo_lines : list (list Z) := map str ["one"; "two"; "three"]%string.
Definition demo_last : list Z := str "tie".

Lemma demo_no_byte b s : forallb (fun c => negb (c =? b)) s = true -> no_byte b s.
Proof.
  intros H. apply Forall_forall. intros c Hc. rewrite forallb_forall in H.
  specialize (H c ltac:(by apply list_elem_of_In)). by apply negb_true_iff, Z.eqb_neq in H.
Qed.

Lemma grep_correct_witness : exists w',
  run_prog (file_handler (fun i => i)) (grep 30 (str "^t.*e$") 0 []) (demo_world (text_of demo_lines demo_last)) = Returned tt w'
  /\ written w' 1 = str ("three" ++ nl).
Proof.
  apply (grep_correct (fun i => i) 30 (str "^t.*e$") 0 demo_lines demo_last (demo_world _)).
  - reflexivity.
  - by apply demo_no_byte.
  - repeat constructor; discriminate.
  - by apply demo_no_byte.
  - vm_compute. repeat constructor.
  - vm_compute. repeat constructor.
Defined.

Lemma grep_stops_at_long_line_witness : exists w',
  run_prog (file_handler (fun _ => 512%nat)) (grep 2000 (str "x") 0 []) (demo_world (replicate 1023 65 ++ str (nl ++ "x" ++ nl))) = Returned tt w'
  /\ written w' 1 = [].
Proof.
  apply (grep_stops_at_long_line (fun _ => 512%nat) 2000 (str "x") 0 (replicate 1023 65) (str (nl ++ "x" ++ nl)) (demo_world _)).
  - reflexivity.
  - apply length_replicate.
  - by apply demo_no_byte.
  - by apply demo_no_byte.
  - lia.
Defined.
