(* ===== verification/Utils.v ===== *)
(** * The utilities: cat, echo, wc, kill, ln, ls, mkdir, rm, zombie and init

    Each [main] is a program over the system calls; [argv] is the whole
    argument vector, the name of the program first.  The theorems are about cat,
    which copies its files to the standard output, and wc, whose counts are
    those of a reference definition, however [read] splits the files. *)
From S2P Require Import Prelude State CString Printf Console Fs Sysfile Uprog.

Open Scope Z_scope.

(** ** cat.c *)
Fixpoint cat (fuel : nat) (fd : Z) : prog unit :=
  match fuel with
  | O => NoFuel
  | S fuel' =>
      n ← call (Read fd 512);
      match n with
      | None => _ ← fprintf 2 ("cat: read error" ++ nl) []; Exit 1
      | Some [] => mret tt
      | Some bs =>
          r ← call (Write 1 bs);
          if negb (r =? Z.of_nat (length bs)) then _ ← fprintf 2 ("cat: write error" ++ nl) []; Exit 1
          else cat fuel' fd
      end
  end.

Fixpoint cat_files (fuel : nat) (files : list (list Z)) : prog unit :=
  match files with
  | [] => mret tt
  | f :: files' =>
      fd ← call (Open f O_RDONLY);
      if fd <? 0 then _ ← fprintf 2 ("cat: cannot open %s" ++ nl) [SArg f]; Exit 1
      else
        _ ← cat fuel fd;
        _ ← call (Close fd);
        cat_files fuel files'
  end.

Definition cat_main (fuel : nat) (argv : list (list Z)) : prog unit :=
  match argv with
  | _ :: ((_ :: _) as files) => _ ← cat_files fuel files; Exit 0
  | _ => _ ← cat fuel 0; Exit 0
  end.

(** ** echo.c *)
Fixpoint echo_args (args : list (list Z)) : prog unit :=
  match args with
  | [] => mret tt
  | a :: args' =>
      _ ← call (Write 1 a);
      _ ← call (Write 1 (match args' with _ :: _ => str " " | [] => str nl end));
      echo_args args'
  end.
Definition echo_main (argv : list (list Z)) : prog unit := _ ← echo_args (tail argv); Exit 0.

(** ** wc.c *)
Record counts := mkCounts { wc_l : Z; wc_w : Z; wc_c : Z; wc_inword : bool }.

(** The characters blank, carriage return, tab, newline and vertical tab. *)
Definition wc_space : list Z := [32; 13; 9; 10; 11].

Definition wc_char (s : counts) (b : Z) : counts :=
  let c := wc_c s + 1 in
  let l := if b =? 10 then wc_l s + 1 else wc_l s in
  match strchr wc_space b with
  | Some _ => mkCounts l (wc_w s) c false
  | None => if wc_inword s then mkCounts l (wc_w s) c true else mkCounts l (wc_w s + 1) c true
  end.

Fixpoint wc_loop (fuel : nat) (fd : Z) (s : counts) : prog counts :=
  match fuel with
  | O => NoFuel
  | S fuel' =>
      n ← call (Read fd 512);
      match n with
      | None => _ ← uprintf ("wc: read error" ++ nl) []; Exit 1
      | Some [] => mret s
      | Some bs => wc_loop fuel' fd (fold_left wc_char bs s)
      end
  end.

Definition wc (fuel : nat) (fd : Z) (name : list Z) : prog unit :=
  s ← wc_loop fuel fd (mkCounts 0 0 0 false);
  uprintf ("%d %d %d %s" ++ nl) [AInt (wc_l s); AInt (wc_w s); AInt (wc_c s); SArg name].

Fixpoint wc_files (fuel : nat) (files : list (list Z)) : prog unit :=
  match files with
  | [] => mret tt
  | f :: files' =>
      fd ← call (Open f O_RDONLY);
      if fd <? 0 then _ ← uprintf ("wc: cannot open %s" ++ nl) [SArg f]; Exit 1
      else
        _ ← wc fuel fd f;
        _ ← call (Close fd);
        wc_files fuel files'
  end.

Definition wc_main (fuel : nat) (argv : list (list Z)) : prog unit :=
  match argv with
  | _ :: ((_ :: _) as files) => _ ← wc_files fuel files; Exit 0
  | _ => _ ← wc fuel 0 []; Exit 0
  end.

(** ** kill.c, ln.c, mkdir.c, rm.c, zombie.c *)
Fixpoint kill_args (args : list (list Z)) : prog unit :=
  match args with
  | [] => mret tt
  | a :: args' => _ ← call (Kill (atoi a)); kill_args args'
  end.
Definition kill_main (argv : list (list Z)) : prog unit :=
  match argv with
  | _ :: ((_ :: _) as args) => _ ← kill_args args; Exit 0
  | _ => _ ← fprintf 2 ("usage: kill pid..." ++ nl) []; Exit 1
  end.

Definition ln_main (argv : list (list Z)) : prog unit :=
  match argv with
  | [_; old; new] =>
      r ← call (Link old new);
      _ ← (if r <? 0 then fprintf 2 ("link %s %s: failed" ++ nl) [SArg old; SArg new] else mret tt);
      Exit 0
  | _ => _ ← fprintf 2 ("Usage: ln old new" ++ nl) []; Exit 1
  end.

(** The loops of mkdir and rm stop at the first failure. *)
Fixpoint mkdir_args (args : list (list Z)) : prog unit :=
  match args with
  | [] => mret tt
  | a :: args' =>
      r ← call (Mkdir a);
      if r <? 0 then fprintf 2 ("mkdir: %s failed to create" ++ nl) [SArg a] else mkdir_args args'
  end.
Definition mkdir_main (argv : list (list Z)) : prog unit :=
  match argv with
  | _ :: ((_ :: _) as args) => _ ← mkdir_args args; Exit 0
  | _ => _ ← fprintf 2 ("Usage: mkdir files..." ++ nl) []; Exit 1
  end.

Fixpoint rm_args (args : list (list Z)) : prog unit :=
  match args with
  | [] => mret tt
  | a :: args' =>
      r ← call (Unlink a);
      if r <? 0 then fprintf 2 ("rm: %s failed to delete" ++ nl) [SArg a] else rm_args args'
  end.
Definition rm_main (argv : list (list Z)) : prog unit :=
  match argv with
  | _ :: ((_ :: _) as args) => _ ← rm_args args; Exit 0
  | _ => _ ← fprintf 2 ("Usage: rm files..." ++ nl) []; Exit 1
  end.

Definition zombie_main : prog unit :=
  pid ← call Fork;
  _ ← (if 0 <? pid then _ ← call (Pause 5); mret tt else mret tt);
  Exit 0.

(** ** ls.c *)

(** The backward loop of [fmtname], over the reversed path: what follows the
    last slash. *)
Fixpoint after_slash (r acc : list Z) : list Z :=
  match r with
  | [] => acc
  | c :: r' => if c =? 47 then acc else after_slash r' (c :: acc)
  end.

Definition fmtname (path : list Z) : list Z :=
  let p := after_slash (rev path) [] in
  if DIRSIZ <=? ustrlen p then p
  else p ++ replicate (Z.to_nat (DIRSIZ - ustrlen p)) 32.

Definition ls_line (name : list Z) (st : stat) : prog unit :=
  uprintf ("%s %d %d %d" ++ nl) [SArg (fmtname name); AInt (st_type st); AInt (st_ino st); AInt (st_size st)].

(** The [while] over the entries of a directory; [p] is the path and a slash.
    An entry is a 16-bit inode number and a name of DIRSIZ bytes. *)
Fixpoint ls_entries (fuel : nat) (fd : Z) (p : list Z) : prog unit :=
  match fuel with
  | O => NoFuel
  | S fuel' =>
      r ← call (Read fd 16);
      match r with
      | None => mret tt
      | Some de =>
          if negb (Z.of_nat (length de) =? 16) then mret tt
          else if de_inum de =? 0 then ls_entries fuel' fd p
          else
            let buf := p ++ cstr (de_name de) in
            st ← ustat buf;
            _ ← match st with
                | None => uprintf ("ls: cannot stat %s" ++ nl) [SArg buf]
                | Some st => ls_line buf st
                end;
            ls_entries fuel' fd p
      end
  end.

Definition ls (fuel : nat) (path : list Z) : prog unit :=
  fd ← call (Open path O_RDONLY);
  if fd <? 0 then fprintf 2 ("ls: cannot open %s" ++ nl) [SArg path]
  else
    r ← call (Fstat fd);
    match r with
    | None =>
        _ ← fprintf 2 ("ls: cannot stat %s" ++ nl) [SArg path];
        _ ← call (Close fd); mret tt
    | Some st =>
        _ ← (if (st_type st =? T_DEVICE) || (st_type st =? T_FILE) then ls_line path st
             else if st_type st =? T_DIR then
               if 512 <? ustrlen path + 1 + DIRSIZ + 1 then uprintf ("ls: path too long" ++ nl) []
               else ls_entries fuel fd (path ++ [47])
             else mret tt);
        _ ← call (Close fd); mret tt
    end.

Fixpoint ls_args (fuel : nat) (args : list (list Z)) : prog unit :=
  match args with
  | [] => mret tt
  | a :: args' => _ ← ls fuel a; ls_args fuel args'
  end.
Definition ls_main (fuel : nat) (argv : list (list Z)) : prog unit :=
  match argv with
  | _ :: ((_ :: _) as args) => _ ← ls_args fuel args; Exit 0
  | _ => _ ← ls fuel (str "."); Exit 0
  end.

(** ** init.c *)

(** The inner loop: reap until the shell is reaped. *)
Fixpoint init_wait (fuel : nat) (pid : Z) : prog unit :=
  match fuel with
  | O => NoFuel
  | S fuel' =>
      wpid ← call Wait;
      if wpid =? pid then mret tt
      else if wpid <? 0 then _ ← uprintf ("init: wait returned an error" ++ nl) []; Exit 1
      else init_wait fuel' pid
  end.

Fixpoint init_loop (fuel : nat) : prog unit :=
  match fuel with
  | O => NoFuel
  | S fuel' =>
      _ ← uprintf ("init: starting sh" ++ nl) [];
      pid ← call Fork;
      if pid <? 0 then _ ← uprintf ("init: fork failed" ++ nl) []; Exit 1
      else if pid =? 0 then
        _ ← call (CallExec (str "sh") [str "sh"]);
        _ ← uprintf ("init: exec sh failed" ++ nl) [];
        Exit 1
      else
        _ ← init_wait fuel pid;
        init_loop fuel'
  end.

Definition init_main (fuel : nat) : prog unit :=
  fd ← call (Open (str "console") O_RDWR);
  _ ← (if fd <? 0 then
         _ ← call (Mknod (str "console") CONSOLE 0);
         _ ← call (Open (str "console") O_RDWR); mret tt
       else mret tt);
  _ ← call (Dup 0);
  _ ← call (Dup 0);
  init_loop fuel.

(** ** cat and wc on files *)
Section Files.
Context (pick : nat -> nat).

Lemma cat_run fuel fd rest w :
  f_fds w !! fd = Some rest -> (length rest < fuel)%nat ->
  exists w', run_prog (file_handler pick) (cat fuel fd) w = Returned tt w'
  /\ written w' 1 = written w 1 ++ rest /\ f_fds w' = <[fd := []]> (f_fds w) /\ f_files w' = f_files w.
Proof.
  revert rest w. induction fuel as [|fuel IH]; intros rest w E Hf; [lia|]. cbn [cat].
  destruct (decide (rest = [])) as [->|Hr].
  - exists (after_read fd [] w). rewrite (run_call_eq _ (Read fd 512) _ _ _ _ (run_read_end pick fd 512 w [] E ltac:(by right))).
    split_and!; [done|by rewrite app_nil_r|done|done].
  - destruct (run_read pick fd 512 w rest E ltac:(lia) Hr) as (piece & rest' & -> & Hp & _ & Er).
    rewrite (run_call_eq _ (Read fd 512) _ _ _ _ Er). destruct piece as [|c piece]; [done|].
    set (w1 := put_out 1 (c :: piece) (after_read fd rest' w)).
    rewrite (run_call_eq _ (Write 1 (c :: piece)) _ _ (Z.of_nat (length (c :: piece))) w1 eq_refl).
    rewrite Z.eqb_refl. cbn [negb].
    destruct (IH rest' w1) as (w' & E' & W1 & W2 & W3); [apply lookup_insert_eq|len_lia|].
    exists w'. split_and!; [done| | |done].
    + unfold w1 in W1. rewrite written_put_out in W1. rewrite W1. simpl. by rewrite <- app_assoc.
    + rewrite W2. simpl. by rewrite insert_insert_eq.
Qed.

Lemma free_fd_some w fd : free_fd w = Some fd -> f_fds w !! fd = None /\ 3 <= fd.
Proof.
  unfold free_fd. destruct (list_find _ _) as [[i y]|] eqn:E; [|done]. intros [= <-].
  apply list_find_Some in E as (E & H & _). split; [done|]. apply lookup_seqZ in E as [-> ?]. simpl. lia.
Qed.

(** Opening a file, running a program that only reads the descriptor, closing
    it: the descriptors are as before. *)
Lemma open_close w f content fd :
  f_files w !! f = Some content -> free_fd w = Some fd ->
  file_handler pick (Open f O_RDONLY) w = Some (fd, set_fds (<[fd := content]> (f_fds w)) w)
  /\ (fd <? 0) = false
  /\ forall r, delete fd (<[fd := r]> (<[fd := content]> (f_fds w))) = f_fds w.
Proof.
  intros Ec Ef. apply free_fd_some in Ef as Hfd. destruct Hfd as [Hn Hfd]. split_and!.
  - unfold file_handler. by rewrite Ec, Ef.
  - apply Z.ltb_ge. lia.
  - intros r. by rewrite insert_insert_eq, delete_insert_id.
Qed.

Lemma cat_files_run fuel fs files contents fd :
  Forall2 (fun f c => fs !! f = Some c) files contents -> Forall (fun c : list Z => (length c < fuel)%nat) contents ->
  forall w, f_files w = fs -> free_fd w = Some fd ->
  exists w', run_prog (file_handler pick) (cat_files fuel files) w = Returned tt w'
  /\ written w' 1 = written w 1 ++ concat contents /\ f_fds w' = f_fds w.
Proof.
  induction 1 as [|f c files contents Hc _ IH]; intros Hf w Hw Hfd.
  { exists w. split_and!; [done|by rewrite app_nil_r|done]. }
  apply Forall_cons in Hf as [Hf0 Hf]. destruct (open_close w f c fd ltac:(by rewrite Hw) Hfd) as (Eo & E0 & Ed).
  cbn [cat_files]. rewrite (run_call_eq _ (Open f O_RDONLY) _ _ _ _ Eo), E0.
  set (w0 := set_fds _ w). destruct (cat_run fuel fd c w0) as (w1 & E1 & W1 & W2 & W3); [apply lookup_insert_eq|done|].
  erewrite run_bind_eq by exact E1.
  set (w2 := set_fds (delete fd (f_fds w1)) w1). rewrite (run_call_eq _ (Close fd) _ _ 0 w2 eq_refl).
  assert (f_fds w2 = f_fds w) as F2 by (unfold w2; simpl; by rewrite W2, Ed).
  destruct (IH Hf w2) as (w' & E' & W' & F'); [by rewrite <- Hw; simpl; rewrite W3|unfold free_fd; by rewrite F2|].
  exists w'. split_and!; [done| |congruence]. rewrite W'. unfold w2, written in *. simpl. rewrite W1. simpl. by rewrite <- app_assoc.
Qed.

(** cat with file names copies the contents of the files, in order, to
    its standard output and exits with 0, however read splits them. *)
Theorem cat_copies fuel name files contents fd w :
  Forall2 (fun f c => f_files w !! f = Some c) files contents -> files <> [] -> free_fd w = Some fd ->
  Forall (fun c : list Z => (length c < fuel)%nat) contents ->
  exists w', run_prog (file_handler pick) (cat_main fuel (name :: files)) w = Exited 0 w'
  /\ written w' 1 = written w 1 ++ concat contents /\ f_fds w' = f_fds w.
Proof.
  intros Hc Hne Hfd Hf. destruct (cat_files_run fuel _ files contents fd Hc Hf w eq_refl Hfd) as (w' & E & Hw).
  exists w'. split; [|done]. destruct files as [|f files]; [done|]. unfold cat_main. by erewrite run_bind_eq by exact E.
Qed.

(** *** wc *)

(** The words of a text: its maximal runs of characters that are not spaces. *)
Definition is_space (b : Z) : bool := bool_decide (b ∈ wc_space).

(** [words] with the word that is being read, when there is one. *)
Fixpoint words_from (cur : option (list Z)) (s : list Z) : list (list Z) :=
  match s with
  | [] => match cur with Some w => [w] | None => [] end
  | b :: s' =>
      if is_space b then (match cur with Some w => [w] | None => [] end) ++ words_from None s'
      else words_from (Some (default [] cur ++ [b])) s'
  end.
Definition words (s : list Z) : list (list Z) := words_from None s.
Definition newlines (s : list Z) : Z := Z.of_nat (length (filter (fun b => b = 10) s)).

Lemma wc_space_iff b : (exists i, strchr wc_space b = Some i) <-> is_space b = true.
Proof.
  unfold is_space. rewrite bool_decide_eq_true. apply strchr_elem. unfold wc_space. set_solver.
Qed.

Lemma wc_fold s st :
  fold_left wc_char s st
  = mkCounts (wc_l st + newlines s)
      (wc_w st + Z.of_nat (length (words_from (if wc_inword st then Some [] else None) s)) - (if wc_inword st then 1 else 0))
      (wc_c st + Z.of_nat (length s))
      (wc_inword (fold_left wc_char s st)).
Proof.
  assert (forall cur s, length (words_from (Some cur) s) = length (words_from (Some []) s)) as Hcur.
  { intros cur s0. revert cur. induction s0 as [|b s0 IH]; intros cur; [done|]. simpl. destruct (is_space b); [done|].
    rewrite IH. symmetry. apply IH. }
  revert st. induction s as [|b s IH]; intros st.
  { simpl. destruct st as [l w c []]; simpl; f_equal; unfold newlines; simpl; lia. }
  cbn [fold_left]. rewrite IH at 1. clear IH. pose proof (wc_space_iff b) as Hb. unfold newlines. rewrite filter_cons. unfold wc_char.
  destruct (strchr wc_space b) as [i|] eqn:E.
  - assert (is_space b = true) as Es by (apply Hb; eauto). simpl words_from. rewrite Es.
    destruct (Z.eqb_spec b 10), (decide (b = 10)), (wc_inword st); try done; cbn [wc_l wc_w wc_c wc_inword length]; f_equal; rewrite ?length_app; cbn [length]; lia.
  - assert (is_space b = false) as Es by (destruct (is_space b); [destruct Hb as [_ Hb]; by destruct (Hb eq_refl)|done]).
    simpl words_from. rewrite Es.
    destruct (Z.eqb_spec b 10), (decide (b = 10)), (wc_inword st); try done; cbn [wc_l wc_w wc_c wc_inword length]; rewrite ?(Hcur (default [] _ ++ [b]) s); f_equal; lia.
Qed.

Lemma wc_loop_run fuel fd rest w st :
  f_fds w !! fd = Some rest -> (length rest < fuel)%nat ->
  exists w', run_prog (file_handler pick) (wc_loop fuel fd st) w = Returned (fold_left wc_char rest st) w'
  /\ f_fds w' = <[fd := []]> (f_fds w) /\ f_files w' = f_files w /\ f_out w' = f_out w.
Proof.
  revert rest w st. induction fuel as [|fuel IH]; intros rest w st E Hf; [lia|]. cbn [wc_loop].
  destruct (decide (rest = [])) as [->|Hr].
  - exists (after_read fd [] w). rewrite (run_call_eq _ (Read fd 512) _ _ _ _ (run_read_end pick fd 512 w [] E ltac:(by right))). done.
  - destruct (run_read pick fd 512 w rest E ltac:(lia) Hr) as (piece & rest' & -> & Hp & _ & Er).
    rewrite (run_call_eq _ (Read fd 512) _ _ _ _ Er). destruct piece as [|c piece]; [done|].
    destruct (IH rest' (after_read fd rest' w) (fold_left wc_char (c :: piece) st)) as (w' & E' & W1 & W2 & W3);
      [apply lookup_insert_eq|len_lia|].
    exists w'. rewrite fold_left_app. split_and!; [done| |done|done]. rewrite W1. simpl. by rewrite insert_insert_eq.
Qed.

(** A number in decimal. *)
Definition decimal (x : Z) : list Z := rev (uprintint_buf (int32 x) 10 true).

Lemma decimal_bytes x : Forall is_byte (decimal x).
Proof.
  apply Forall_rev. unfold uprintint_buf. apply Forall_app. split.
  - generalize 64%nat, (if true && (int32 x <? 0) then wrap64 (- int32 x) else wrap64 (int32 x)).
    intros n. induction n as [|n IH]; intros y; simpl; [constructor|]. constructor.
    + rewrite udigit_dec by (apply Z.mod_pos_bound; lia). pose proof (Z.mod_pos_bound y 10). unfold is_byte. lia.
    + destruct (y / 10 =? 0); [constructor|apply IH].
  - destruct (true && _); repeat constructor; unfold is_byte; lia.
Qed.

Lemma wc_prints l w c name : Forall is_byte name ->
  prints_to pick 1 (uprintf ("%d %d %d %s" ++ nl) [AInt l; AInt w; AInt c; SArg name])
    (decimal l ++ [32] ++ decimal w ++ [32] ++ decimal c ++ [32] ++ name ++ [10]).
Proof.
  intros Hn.
  change (uprintf _ _) with (_ ← puts 1 (decimal l); _ ← putc 1 32; _ ← puts 1 (decimal w); _ ← putc 1 32;
    _ ← puts 1 (decimal c); _ ← putc 1 32; _ ← puts 1 name; _ ← putc 1 10; mret tt).
  rewrite <- (app_nil_r [10]) at 1.
  repeat first [apply prints_to_ret|apply (prints_to_bind pick 1 (puts 1 _))|apply (prints_to_bind pick 1 (putc 1 _))];
    first [apply prints_to_puts, decimal_bytes|by apply prints_to_puts|apply prints_to_putc; unfold is_byte; lia].
Qed.

(** wc prints the number of newlines, of words, the maximal runs of
    characters that are not spaces, and of characters of a file, and its name,
    however read splits the file. *)
Theorem wc_correct fuel fd content name w :
  f_fds w !! fd = Some content -> (length content < fuel)%nat -> Forall is_byte name ->
  exists w', run_prog (file_handler pick) (wc fuel fd name) w = Returned tt w'
  /\ written w' 1 = written w 1 ++ decimal (newlines content) ++ [32] ++ decimal (Z.of_nat (length (words content)))
       ++ [32] ++ decimal (Z.of_nat (length content)) ++ [32] ++ name ++ [10].
Proof.
  intros Efd Hf Hn. destruct (wc_loop_run fuel fd content w (mkCounts 0 0 0 false) Efd Hf) as (w1 & E1 & _ & _ & W1).
  rewrite wc_fold in E1. cbn [wc_l wc_w wc_c wc_inword] in E1.
  destruct (wc_prints (0 + newlines content) (0 + Z.of_nat (length (words_from None content)) - 0) (0 + Z.of_nat (length content)) name Hn w1)
    as (w' & E' & (_ & _ & P & _)).
  exists w'. split; [unfold wc; erewrite run_bind_eq by exact E1; exact E'|].
  rewrite P, !Z.add_0_l, Z.sub_0_r. unfold written. by rewrite W1.
Qed.
End Files.

Definition demo_files : fworld :=
  mkF {[str "a" := str ("one  two" ++ nl); str "b" := str ("three" ++ nl)]} {[0 := str ("x y" ++ nl)]} ∅ 0.

Lemma cat_copies_witness : exists w',
  run_prog (file_handler (fun i => i)) (cat_main 20 [str "cat"; str "b"; str "a"]) demo_files = Exited 0 w'
  /\ written w' 1 = [] ++ concat [str ("three" ++ nl); str ("one  two" ++ nl)] /\ f_fds w' = f_fds demo_files.
Proof.
  apply (cat_copies (fun i => i) 20 (str "cat") [str "b"; str "a"] [str ("three" ++ nl); str ("one  two" ++ nl)] 3 demo_files).
  - repeat constructor.
  - done.
  - reflexivity.
  - repeat constructor.
Defined.

Lemma wc_correct_witness : exists w',
  run_prog (file_handler (fun i => i)) (wc 20 0 (str "in")) demo_files = Returned tt w'
  /\ written w' 1 = [] ++ decimal (newlines (str ("x y" ++ nl))) ++ [32] ++ decimal (Z.of_nat (length (words (str ("x y" ++ nl)))))
     ++ [32] ++ decimal (Z.of_nat (length (str ("x y" ++ nl)))) ++ [32] ++ str "in" ++ [10].
Proof.
  apply (wc_correct (fun i => i) 20 0 (str ("x y" ++ nl)) (str "in") demo_files).
  - reflexivity.
  - vm_compute. repeat constructor.
  - repeat constructor; discriminate.
Defined.
