(* ===== verification/Sh.v ===== *)
(** * sh.c: the parser of the shell

    The command line is a list of bytes without its nul; pointers into it are
    offsets, and the parser passes the offset [*ps] along.  [panic], which ends
    the process, is an error result.  Words are pairs of offsets [(q, eq)] until
    [nulterminate] writes a nul at each end.

    The theorem of this file is that the parser ends on every input; ShGrammar
    has what it computes. *)
From S2P Require Import Prelude State CString Printf Sysfile Uprog.

Open Scope Z_scope.

Definition MAXARGS : Z := 10.

(** A word: the offsets of its first character and of the one after its last. *)
Definition span : Type := nat * nat.

Inductive cmd (W : Type) :=
| EXEC (argv : list W)
| REDIR (c : cmd W) (file : W) (mode fd : Z)
| PIPE (left right : cmd W)
| LIST (left right : cmd W)
| BACK (c : cmd W).
Arguments EXEC {W} argv.
Arguments REDIR {W} c file mode fd.
Arguments PIPE {W} left right.
Arguments LIST {W} left right.
Arguments BACK {W} c.

(** ** Tokens *)

(** Blank, tab, carriage return, newline, vertical tab. *)
Definition whitespace : list Z := [32; 9; 13; 10; 11].
Definition sh_symbols : list Z := str "<|>&;()".

Definition has_char (set : list Z) (c : Z) : bool := match strchr set c with Some _ => true | None => false end.
Definition is_ws (c : Z) : bool := has_char whitespace c.
Definition is_word (c : Z) : bool := negb (is_ws c) && negb (has_char sh_symbols c).

(** How far a loop of the form [while(s < es && ...) s++] goes. *)
Fixpoint skip_while (f : Z -> bool) (l : list Z) : nat :=
  match l with
  | [] => O
  | c :: l' => if f c then S (skip_while f l') else O
  end.

Definition skip_ws (s : list Z) (p : nat) : nat := (p + skip_while is_ws (drop p s))%nat.

(** The character at an offset; the nul at the end. *)
Definition at_ (s : list Z) (p : nat) : Z := nth p s 0.

(** [gettoken]: the token, [*q], [*eq] and the new [*ps]. *)
Definition gettoken (s : list Z) (ps : nat) : Z * span * nat :=
  let p := skip_ws s ps in
  let c := at_ s p in
  let '(tok, e) :=
    if c =? 0 then (0, p)
    else if has_char (str "|();&<") c then (c, S p)
    else if c =? 62 then
      if at_ s (S p) =? 62 then (43, S (S p)) else (62, S p)
    else (97, (p + skip_while is_word (drop p s))%nat) in
  (tok, (p, e), skip_ws s e).

(** [peek]: whether the next character is one of [toks], and the new [*ps]. *)
Definition peek (s : list Z) (ps : nat) (toks : list Z) : bool * nat :=
  let p := skip_ws s ps in
  (negb (at_ s p =? 0) && has_char toks (at_ s p), p).

(** ** The parser *)
Inductive pres (A : Type) :=
| POk (a : A) (ps : nat)
| PErr (msg : string)
| PFuel.
Arguments POk {A} a ps.
Arguments PErr {A} msg.
Arguments PFuel {A}.

Definition pbind {A B} (r : pres A) (f : A -> nat -> pres B) : pres B :=
  match r with
  | POk a ps => f a ps
  | PErr msg => PErr msg
  | PFuel => PFuel
  end.

(** A redirection found by [parseredirs]. *)
Record redir := mkRedir { r_file : span; r_mode : Z; r_fd : Z }.

Definition redircmd (c : cmd span) (r : redir) : cmd span := REDIR c (r_file r) (r_mode r) (r_fd r).

(** What [parseredirs] builds around its argument, innermost first. *)
Definition wrap (c : cmd span) (rs : list redir) : cmd span := fold_left redircmd rs c.

Definition redir_of (tok : Z) (file : span) : redir :=
  if tok =? 60 then mkRedir file O_RDONLY 0
  else if tok =? 62 then mkRedir file (Z.lor (Z.lor O_WRONLY O_CREATE) O_TRUNC) 1
  else mkRedir file (Z.lor O_WRONLY O_CREATE) 1.

(** The loop of [parseredirs]: the redirections, in order. *)
Fixpoint redirs (fuel : nat) (s : list Z) (ps : nat) : pres (list redir) :=
  match fuel with
  | O => PFuel
  | S fuel' =>
      let '(b, ps) := peek s ps (str "<>") in
      if b then
        let '(tok, _, ps) := gettoken s ps in
        let '(tok2, file, ps) := gettoken s ps in
        if negb (tok2 =? 97) then PErr "missing file for redirection"
        else pbind (redirs fuel' s ps) (fun rs ps => POk (redir_of tok file :: rs) ps)
      else POk [] ps
  end.

Definition parseredirs (s : list Z) (c : cmd span) (ps : nat) : pres (cmd span) :=
  pbind (redirs (S (length s)) s ps) (fun rs ps => POk (wrap c rs) ps).

(** The loop of [parseexec]: the words and the redirections met among them.
    The EXEC node is filled in place, inside the redirections already built
    around it, so the two lists are all there is to know. *)
Fixpoint argv_loop (fuel : nat) (s : list Z) (argv : list span) (rs : list redir) (ps : nat) : pres (cmd span) :=
  match fuel with
  | O => PFuel
  | S fuel' =>
      let '(b, ps) := peek s ps (str "|)&;") in
      if b then POk (wrap (EXEC argv) rs) ps
      else
        let '(tok, w, ps) := gettoken s ps in
        if tok =? 0 then POk (wrap (EXEC argv) rs) ps
        else if negb (tok =? 97) then PErr "syntax"
        else
          let argv := argv ++ [w] in
          if MAXARGS <=? Z.of_nat (length argv) then PErr "too many args"
          else pbind (redirs (S (length s)) s ps) (fun rs' ps => argv_loop fuel' s argv (rs ++ rs') ps)
  end.

(** The loop of [parseline] over ampersands. *)
Fixpoint back_loop (fuel : nat) (s : list Z) (c : cmd span) (ps : nat) : pres (cmd span) :=
  match fuel with
  | O => PFuel
  | S fuel' =>
      let '(b, ps) := peek s ps (str "&") in
      if b then
        let '(_, _, ps) := gettoken s ps in
        back_loop fuel' s (BACK c) ps
      else POk c ps
  end.

Fixpoint parseline (fuel : nat) (s : list Z) (ps : nat) : pres (cmd span) :=
  match fuel with
  | O => PFuel
  | S fuel' =>
      pbind (parsepipe fuel' s ps) (fun c ps =>
      pbind (back_loop (S (length s)) s c ps) (fun c ps =>
      let '(b, ps) := peek s ps (str ";") in
      if b then
        let '(_, _, ps) := gettoken s ps in
        pbind (parseline fuel' s ps) (fun r ps => POk (LIST c r) ps)
      else POk c ps))
  end
with parsepipe (fuel : nat) (s : list Z) (ps : nat) : pres (cmd span) :=
  match fuel with
  | O => PFuel
  | S fuel' =>
      pbind (parseexec fuel' s ps) (fun c ps =>
      let '(b, ps) := peek s ps (str "|") in
      if b then
        let '(_, _, ps) := gettoken s ps in
        pbind (parsepipe fuel' s ps) (fun r ps => POk (PIPE c r) ps)
      else POk c ps)
  end
with parseexec (fuel : nat) (s : list Z) (ps : nat) : pres (cmd span) :=
  match fuel with
  | O => PFuel
  | S fuel' =>
      let '(b, ps) := peek s ps (str "(") in
      if b then parseblock fuel' s ps
      else pbind (redirs (S (length s)) s ps) (fun rs ps => argv_loop (S (length s)) s [] rs ps)
  end
with parseblock (fuel : nat) (s : list Z) (ps : nat) : pres (cmd span) :=
  match fuel with
  | O => PFuel
  | S fuel' =>
      let '(b, ps) := peek s ps (str "(") in
      if negb b then PErr "parseblock"
      else
        let '(_, _, ps) := gettoken s ps in
        pbind (parseline fuel' s ps) (fun c ps =>
        let '(b, ps) := peek s ps (str ")") in
        if negb b then PErr "syntax - missing )"
        else
          let '(_, _, ps) := gettoken s ps in
          parseredirs s c ps)
  end.

(** [nulterminate], on the buffer with its nul. *)
Fixpoint nulterminate (c : cmd span) (buf : list Z) : list Z :=
  match c with
  | EXEC argv => fold_left (fun buf w => <[snd w := 0]> buf) argv buf
  | REDIR c file _ _ => <[snd file := 0]> (nulterminate c buf)
  | PIPE l r | LIST l r => nulterminate r (nulterminate l buf)
  | BACK c => nulterminate c buf
  end.

Definition sh_panic {A} (msg : string) : prog A := _ ← fprintf 2 ("%s" ++ nl) [SArg (str msg)]; Exit 1.

(** [parsecmd]: the command and the buffer it points into. *)
Definition parse_fuel (s : list Z) : nat := (4 * length s + 4)%nat.
Definition parsecmd (s : list Z) : prog (cmd span * list Z) :=
  match parseline (parse_fuel s) s 0 with
  | PFuel => NoFuel
  | PErr msg => sh_panic msg
  | POk c ps =>
      let '(_, ps) := peek s ps [] in
      if negb (ps =? length s)%nat then
        _ ← fprintf 2 ("leftovers: %s" ++ nl) [SArg (drop ps s)];
        sh_panic "syntax"
      else mret (c, nulterminate c (s ++ [0]))
  end.

(** The command with its words read from the buffer. *)
Fixpoint cmd_map {A B} (f : A -> B) (c : cmd A) : cmd B :=
  match c with
  | EXEC argv => EXEC (map f argv)
  | REDIR c file mode fd => REDIR (cmd_map f c) (f file) mode fd
  | PIPE l r => PIPE (cmd_map f l) (cmd_map f r)
  | LIST l r => LIST (cmd_map f l) (cmd_map f r)
  | BACK c => BACK (cmd_map f c)
  end.

(** The string a word points to. *)
Definition word_at (buf : list Z) (w : span) : list Z := cstr (drop (fst w) buf).

(** ** Offsets *)
Lemma skip_while_length f l : (skip_while f l <= length l)%nat.
Proof. induction l as [|c l IH]; simpl; [lia|]. destruct (f c); lia. Qed.

Lemma skip_while_all f l i : (i < skip_while f l)%nat -> f (nth i l 0) = true.
Proof.
  revert i. induction l as [|c l IH]; intros i; simpl; [lia|]. destruct (f c) eqn:E; [|lia].
  destruct i as [|i]; [done|]. intros H. apply IH. lia.
Qed.

Lemma skip_while_stop f l : (skip_while f l < length l)%nat -> f (nth (skip_while f l) l 0) = false.
Proof.
  induction l as [|c l IH]; simpl; [lia|]. destruct (f c) eqn:E; [|done]. intros H. apply IH. lia.
Qed.

Lemma at_drop s p i : nth i (drop p s) 0 = at_ s (p + i).
Proof. unfold at_. apply nth_skipn. Qed.

Lemma at_end s p : (length s <= p)%nat -> at_ s p = 0.
Proof. intros H. unfold at_. by apply nth_overflow. Qed.

Lemma skip_ws_ge s p : (p <= skip_ws s p)%nat.
Proof. unfold skip_ws. lia. Qed.

Lemma skip_ws_le s p : (p <= length s)%nat -> (skip_ws s p <= length s)%nat.
Proof. intros H. unfold skip_ws. pose proof (skip_while_length is_ws (drop p s)) as Hl. rewrite length_drop in Hl. lia. Qed.

Lemma skip_ws_at s p : is_ws (at_ s (skip_ws s p)) = false.
Proof.
  unfold skip_ws. rewrite <- at_drop.
  destruct (decide (skip_while is_ws (drop p s) < length (drop p s))%nat) as [H|H]; [by apply skip_while_stop|].
  rewrite nth_overflow by lia. reflexivity.
Qed.

Lemma skip_ws_stay s p : is_ws (at_ s p) = false -> skip_ws s p = p.
Proof.
  intros H. unfold skip_ws. replace p with (p + 0)%nat in H by lia. rewrite <- at_drop in H.
  destruct (drop p s) as [|c l]; simpl in *; [lia|]. rewrite H. lia.
Qed.

Lemma skip_ws_idem s p : skip_ws s (skip_ws s p) = skip_ws s p.
Proof. apply skip_ws_stay, skip_ws_at. Qed.

Lemma gettoken_skip s p : gettoken s (skip_ws s p) = gettoken s p.
Proof. unfold gettoken. by rewrite skip_ws_idem. Qed.

Lemma peek_skip s p toks : peek s (skip_ws s p) toks = peek s p toks.
Proof. unfold peek. by rewrite skip_ws_idem. Qed.

(** ** Tokens *)

(** The parts of a token, by its first character. *)
Inductive token_spec (s : list Z) (p : nat) : Z -> nat -> Prop :=
| token_end : at_ s p = 0 -> token_spec s p 0 p
| token_sym : has_char (str "|();&<") (at_ s p) = true -> at_ s p <> 0 -> token_spec s p (at_ s p) (S p)
| token_gt : at_ s p = 62 -> at_ s (S p) <> 62 -> token_spec s p 62 (S p)
| token_gtgt : at_ s p = 62 -> at_ s (S p) = 62 -> token_spec s p 43 (S (S p))
| token_word : is_word (at_ s p) = true -> at_ s p <> 0 ->
    token_spec s p 97 (p + skip_while is_word (drop p s)).

Ltac decide_now := apply (bool_decide_unpack _); vm_compute; exact I.

Lemma has_char_iff set c : 0 ∉ set -> has_char set c = true <-> c ∈ set.
Proof.
  intros H0. unfold has_char. rewrite <- (strchr_elem set c H0).
  destruct (strchr set c) as [i|]; split; [eauto|done|done|by intros [i ?]].
Qed.

Lemma symbols_split c : has_char sh_symbols c = true <-> has_char (str "|();&<") c = true \/ c = 62.
Proof.
  rewrite !has_char_iff by decide_now.
  change sh_symbols with [60; 124; 62; 38; 59; 40; 41]. change (str _) with [124; 40; 41; 59; 38; 60].
  rewrite !elem_of_cons, !elem_of_nil. tauto.
Qed.

Lemma gettoken_spec s ps tok q e ps' :
  gettoken s ps = (tok, (q, e), ps') ->
  q = skip_ws s ps /\ ps' = skip_ws s e /\ token_spec s q tok e.
Proof.
  unfold gettoken. set (p := skip_ws s ps). pose proof (skip_ws_at s ps) as Hws. fold p in Hws.
  destruct (Z.eqb_spec (at_ s p) 0) as [E0|E0].
  { intros [= <- <- <- <-]. split_and!; [done|done|by constructor]. }
  destruct (has_char (str "|();&<") (at_ s p)) eqn:E1.
  { intros [= <- <- <- <-]. split_and!; [done|done|by constructor]. }
  destruct (Z.eqb_spec (at_ s p) 62) as [E2|E2].
  { destruct (Z.eqb_spec (at_ s (S p)) 62) as [E3|E3]; intros [= <- <- <- <-]; (split_and!; [done|done|by constructor]). }
  intros [= <- <- <- <-]. split_and!; [done|done|]. constructor; [|done]. unfold is_word. rewrite Hws.
  destruct (has_char sh_symbols (at_ s p)) eqn:Es; [|done]. apply symbols_split in Es as [?|?]; congruence.
Qed.

Lemma token_progress s p tok e :
  token_spec s p tok e -> (p <= length s)%nat -> (e <= length s)%nat /\ (p <= e)%nat /\ (tok <> 0 -> (p < e)%nat).
Proof.
  assert (at_ s p <> 0 -> (p < length s)%nat) as Hlt.
  { intros H. destruct (decide (p < length s)%nat); [done|]. by rewrite at_end in H by lia. }
  intros H Hp. destruct H as [E|E H0|E H0|E E'|E H0].
  - split_and!; [lia|lia|done].
  - specialize (Hlt H0). lia.
  - specialize (Hlt ltac:(lia)). lia.
  - assert (S p < length s)%nat; [|lia]. destruct (decide (S p < length s)%nat); [done|]. rewrite (at_end s (S p)) in E' by lia. lia.
  - pose proof (skip_while_length is_word (drop p s)) as Hl. rewrite length_drop in Hl.
    enough (0 < skip_while is_word (drop p s))%nat by lia. specialize (Hlt H0).
    destruct (drop p s) as [|c l] eqn:Ed; [apply (f_equal length) in Ed; rewrite length_drop in Ed; simpl in Ed; lia|].
    pose proof (at_drop s p 0) as Hat. rewrite Ed, Nat.add_0_r in Hat. simpl in Hat. simpl. rewrite Hat, E. lia.
Qed.

Lemma gettoken_progress s ps tok w ps' :
  gettoken s ps = (tok, w, ps') -> (ps <= length s)%nat ->
  (ps <= ps' <= length s)%nat /\ (tok <> 0 -> (ps < ps')%nat).
Proof.
  destruct w as [q e]. intros (Eq & Ep & Ht)%gettoken_spec Hp.
  pose proof (skip_ws_ge s ps). pose proof (skip_ws_le s ps Hp).
  destruct (token_progress s q tok e Ht) as (H1 & H2 & H3); [by subst|].
  pose proof (skip_ws_ge s e). pose proof (skip_ws_le s e H1). subst q ps'. split; [lia|]. intros Hn. specialize (H3 Hn). lia.
Qed.

Lemma peek_true s ps toks p :
  peek s ps toks = (true, p) -> p = skip_ws s ps /\ at_ s p <> 0 /\ has_char toks (at_ s p) = true.
Proof.
  unfold peek. intros [= H <-]. apply andb_true_iff in H as [H1 H2]. split_and!; [done| |done].
  by apply negb_true_iff, Z.eqb_neq in H1.
Qed.

Lemma gettoken_peek s ps toks p tok w ps' :
  peek s ps toks = (true, p) -> gettoken s p = (tok, w, ps') -> tok <> 0.
Proof.
  intros (Ep & H0 & _)%peek_true. destruct w as [q e]. intros (Eq & _ & Ht)%gettoken_spec.
  assert (q = p) as -> by (subst; apply skip_ws_idem). destruct Ht; try done; lia.
Qed.

(** ** The parser ends *)
Lemma peek_pos s ps toks b p :
  peek s ps toks = (b, p) -> (ps <= length s)%nat -> p = skip_ws s ps /\ (ps <= p <= length s)%nat.
Proof.
  unfold peek. intros [= _ <-] Hp. pose proof (skip_ws_ge s ps). pose proof (skip_ws_le s ps Hp). split; [done|lia].
Qed.

(** The result is an error, or the parser is further on and inside the line. *)
Definition ends {A} (s : list Z) (ps : nat) (r : pres A) : Prop :=
  match r with
  | POk _ ps' => (ps <= ps' <= length s)%nat
  | PErr _ => True
  | PFuel => False
  end.

Lemma ends_bind {A B} s ps (r : pres A) (f : A -> nat -> pres B) :
  ends s ps r -> (forall a ps', (ps <= ps' <= length s)%nat -> ends s ps' (f a ps')) -> ends s ps (pbind r f).
Proof.
  destruct r as [a ps'|msg|]; simpl; [|done|done]. intros H Hf. specialize (Hf a ps' H).
  destruct (f a ps') as [b ps''|msg|]; simpl in *; [lia|done|done].
Qed.

Lemma ends_le {A} s ps ps' (r : pres A) : ends s ps r -> (ps' <= ps)%nat -> ends s ps' r.
Proof. destruct r; simpl; [lia|done|done]. Qed.

(** Reading the token that [peek] announced. *)
Lemma ends_peek {A} s ps toks (yes : Z -> span -> nat -> pres A) (no : nat -> pres A) :
  (ps <= length s)%nat ->
  (forall tok w ps', (ps < ps' <= length s)%nat -> ends s ps' (yes tok w ps')) ->
  (forall ps', (ps <= ps' <= length s)%nat -> ends s ps' (no ps')) ->
  ends s ps (let '(b, p) := peek s ps toks in if b then let '(tok, w, ps') := gettoken s p in yes tok w ps' else no p).
Proof.
  intros Hp Hy Hn. destruct (peek s ps toks) as [b p] eqn:E.
  destruct (peek_pos _ _ _ _ _ E Hp) as [Ep Hpp]. destruct b.
  - destruct (gettoken s p) as [[tok w] ps'] eqn:Et. pose proof (gettoken_peek _ _ _ _ _ _ _ E Et) as H0.
    destruct (gettoken_progress _ _ _ _ _ Et) as [H1 H2]; [lia|]. specialize (H2 H0).
    eapply ends_le; [apply Hy; lia|lia].
  - eapply ends_le; [apply Hn; lia|lia].
Qed.

Lemma redirs_ends fuel s ps : (ps <= length s)%nat -> (length s - ps < fuel)%nat -> ends s ps (redirs fuel s ps).
Proof.
  revert ps. induction fuel as [|fuel IH]; intros ps Hp Hf; [lia|]. cbn [redirs].
  apply (ends_peek s ps (str "<>") (fun tok _ ps => let '(tok2, file, ps) := gettoken s ps in
     if negb (tok2 =? 97) then PErr "missing file for redirection"
     else pbind (redirs fuel s ps) (fun rs ps => POk (redir_of tok file :: rs) ps)) (fun ps => POk [] ps)); [done| |simpl; lia].
  intros tok w ps1 H1. destruct (gettoken s ps1) as [[tok2 file] ps2] eqn:Et.
  destruct (gettoken_progress _ _ _ _ _ Et) as [H2 _]; [lia|]. destruct (negb (tok2 =? 97)); [done|].
  eapply ends_le; [apply ends_bind; [apply IH; lia|simpl; lia]|lia].
Qed.

Lemma argv_loop_ends fuel s argv rs ps :
  (ps <= length s)%nat -> (length s - ps < fuel)%nat -> ends s ps (argv_loop fuel s argv rs ps).
Proof.
  revert argv rs ps. induction fuel as [|fuel IH]; intros argv rs ps Hp Hf; [lia|]. cbn [argv_loop].
  destruct (peek s ps (str "|)&;")) as [b p] eqn:E. destruct (peek_pos _ _ _ _ _ E Hp) as [Ep Hpp]. destruct b; [simpl; lia|].
  destruct (gettoken s p) as [[tok w] ps1] eqn:Et. destruct (gettoken_progress _ _ _ _ _ Et) as [H1 H2]; [lia|].
  destruct (Z.eqb_spec tok 0) as [->|H0]; [simpl; lia|]. specialize (H2 H0).
  destruct (negb (tok =? 97)); [done|]. destruct (MAXARGS <=? _); [done|].
  eapply ends_le; [apply ends_bind; [apply redirs_ends; lia|]|lia]. intros rs' ps2 H3. apply IH; lia.
Qed.

Lemma back_loop_ends fuel s c ps :
  (ps <= length s)%nat -> (length s - ps < fuel)%nat -> ends s ps (back_loop fuel s c ps).
Proof.
  revert c ps. induction fuel as [|fuel IH]; intros c ps Hp Hf; [lia|]. cbn [back_loop].
  apply (ends_peek s ps (str "&") (fun _ _ ps => back_loop fuel s (BACK c) ps) (fun ps => POk c ps)); [done| |simpl; lia].
  intros tok w ps1 H1. apply IH; lia.
Qed.

Lemma parse_ends fuel s ps : (ps <= length s)%nat ->
  ((4 * (length s - ps) + 4 <= fuel)%nat -> ends s ps (parseline fuel s ps))
  /\ ((4 * (length s - ps) + 3 <= fuel)%nat -> ends s ps (parsepipe fuel s ps))
  /\ ((4 * (length s - ps) + 2 <= fuel)%nat -> ends s ps (parseexec fuel s ps))
  /\ ((4 * (length s - ps) + 1 <= fuel)%nat -> ends s ps (parseblock fuel s ps)).
Proof.
  revert ps. induction fuel as [|fuel IH]; intros ps Hp; [split_and!; lia|].
  cbn [parseline parsepipe parseexec parseblock]. split_and!; intros Hf.
  - apply ends_bind; [apply IH; lia|]. intros c ps1 H1. apply ends_bind; [apply back_loop_ends; lia|]. intros c1 ps2 H2.
    apply (ends_peek s ps2 (str ";") (fun _ _ ps => pbind (parseline fuel s ps) (fun r ps => POk (LIST c1 r) ps)) (fun ps => POk c1 ps)); [lia| |simpl; lia].
    intros tok w ps3 H3. apply ends_bind; [apply IH; lia|simpl; lia].
  - apply ends_bind; [apply IH; lia|]. intros c ps1 H1.
    apply (ends_peek s ps1 (str "|") (fun _ _ ps => pbind (parsepipe fuel s ps) (fun r ps => POk (PIPE c r) ps)) (fun ps => POk c ps)); [lia| |simpl; lia].
    intros tok w ps3 H3. apply ends_bind; [apply IH; lia|simpl; lia].
  - destruct (peek s ps (str "(")) as [b p] eqn:E. destruct (peek_pos _ _ _ _ _ E Hp) as [Ep Hpp].
    destruct b; [eapply ends_le; [apply IH; lia|lia]|].
    eapply ends_le; [apply ends_bind; [apply redirs_ends; lia|]|lia]. intros rs ps1 H1. apply argv_loop_ends; lia.
  - destruct (peek s ps (str "(")) as [b p] eqn:E. destruct b; [|done]. cbn [negb].
    destruct (peek_pos _ _ _ _ _ E Hp) as [Ep Hpp].
    destruct (gettoken s p) as [[tok w] ps1] eqn:Et. pose proof (gettoken_peek _ _ _ _ _ _ _ E Et) as H0.
    destruct (gettoken_progress _ _ _ _ _ Et) as [H1 H2]; [lia|]. specialize (H2 H0).
    eapply ends_le; [apply ends_bind; [apply IH; lia|]|lia]. intros c ps2 H3.
    destruct (peek s ps2 (str ")")) as [b p'] eqn:E'. destruct (peek_pos _ _ _ _ _ E' ltac:(lia)) as [Ep' Hpp']. destruct b; [|done]. cbn [negb].
    destruct (gettoken s p') as [[tok' w'] ps3] eqn:Et'. destruct (gettoken_progress _ _ _ _ _ Et') as [H1' _]; [lia|].
    eapply ends_le; [apply ends_bind; [apply redirs_ends; lia|simpl; lia]|lia].
Qed.

Lemma total_panic {A} msg : total (A := A) (sh_panic msg).
Proof. apply only_bind; [apply total_vprintf|done]. Qed.

(** C36: The parser of the shell ends on every line: parsecmd returns a command
    or prints a message and exits, for every string and every fuel that
    parse_fuel gives. *)
Theorem parsecmd_total s : total (parsecmd s).
Proof.
  unfold parsecmd, parse_fuel. destruct (parse_ends (4 * length s + 4) s 0) as [H _]; [lia|]. specialize (H ltac:(lia)).
  destruct (parseline _ s 0) as [c ps|msg|]; [|apply total_panic|done].
  destruct (peek s ps []) as [b ps']. destruct (negb _); [|done]. apply only_bind; [apply total_vprintf|]. intros _. apply total_panic.
Qed.
