(* ===== verification/ShGrammar.v ===== *)
(** * The grammar of the shell

    The tokens of a line, a grammar of command lines as an inductive relation
    between commands and tokens, and the theorems that the parser of sh.c and
    the grammar agree, that the strings of a parsed command are its words, and
    that the text of a command parses to the command. *)
From S2P Require Import Prelude State CString Printf Sysfile Uprog Sh.

Open Scope Z_scope.

(** ** The grammar *)
Inductive tk := TW (w : list Z) | TS (c : Z).

Definition text (s : list Z) (w : span) : list Z := take (snd w - fst w) (drop (fst w) s).

(** The tokens of [s] from an offset on. *)
Inductive lexes (s : list Z) : nat -> list tk -> Prop :=
| lexes_end p : at_ s (skip_ws s p) = 0 -> lexes s p []
| lexes_word p w p' ts : gettoken s p = (97, w, p') -> lexes s p' ts -> lexes s p (TW (text s w) :: ts)
| lexes_sym p c w p' ts : gettoken s p = (c, w, p') -> c <> 0 -> c <> 97 -> lexes s p' ts -> lexes s p (TS c :: ts).

(** A redirection and its tokens; an item of a simple command. *)
Inductive gitem := GWord (w : list Z) | GRedir (op : Z) (file : list Z).
Definition item_tokens (i : gitem) : list tk :=
  match i with GWord w => [TW w] | GRedir op file => [TS op; TW file] end.
Definition is_redir_op (c : Z) : Prop := c = 60 \/ c = 62 \/ c = 43.
Definition item_ok (i : gitem) : Prop := match i with GWord _ => True | GRedir op _ => is_redir_op op end.
Definition is_redir (i : gitem) : Prop := match i with GWord _ => False | GRedir op _ => is_redir_op op end.

Definition words_of (l : list gitem) : list (list Z) := omap (fun i => match i with GWord w => Some w | _ => None end) l.

(** The modes of the three redirections. *)
Definition redirect (c : cmd (list Z)) (i : gitem) : cmd (list Z) :=
  match i with
  | GWord _ => c
  | GRedir 60 file => REDIR c file O_RDONLY 0
  | GRedir 62 file => REDIR c file (Z.lor (Z.lor O_WRONLY O_CREATE) O_TRUNC) 1
  | GRedir _ file => REDIR c file (Z.lor O_WRONLY O_CREATE) 1
  end.

(** line ::= pipe & ... & | pipe & ... & ; line
    pipe ::= exec | exec BAR pipe
    exec ::= ( line ) redirections | words and redirections, at most nine words *)
Inductive g_line : cmd (list Z) -> list tk -> Prop :=
| g_line_last c k ts : g_pipe c ts -> g_line (Nat.iter k BACK c) (ts ++ replicate k (TS 38))
| g_line_list c k ts r ts' : g_pipe c ts -> g_line r ts' ->
    g_line (LIST (Nat.iter k BACK c) r) (ts ++ replicate k (TS 38) ++ TS 59 :: ts')
with g_pipe : cmd (list Z) -> list tk -> Prop :=
| g_pipe_last c ts : g_exec c ts -> g_pipe c ts
| g_pipe_pipe c ts r ts' : g_exec c ts -> g_pipe r ts' -> g_pipe (PIPE c r) (ts ++ TS 124 :: ts')
with g_exec : cmd (list Z) -> list tk -> Prop :=
| g_exec_block c ts l : g_line c ts -> Forall is_redir l ->
    g_exec (fold_left redirect l c) (TS 40 :: ts ++ TS 41 :: concat (map item_tokens l))
| g_exec_simple l : Forall item_ok l -> (length (words_of l) < 10)%nat ->
    g_exec (fold_left redirect l (EXEC (words_of l))) (concat (map item_tokens l)).

Scheme g_line_mut := Induction for g_line Sort Prop
  with g_pipe_mut := Induction for g_pipe Sort Prop
  with g_exec_mut := Induction for g_exec Sort Prop.
Combined Scheme grammar_ind from g_line_mut, g_pipe_mut, g_exec_mut.

(** *** Tokens and the two functions that look at them *)
Lemma lexes_skip s p ts : lexes s (skip_ws s p) ts <-> lexes s p ts.
Proof.
  split; inversion 1; subst; [rewrite skip_ws_idem in *|rewrite gettoken_skip in *|rewrite gettoken_skip in *|..]; econstructor;
    rewrite ?skip_ws_idem, ?gettoken_skip; eauto.
Qed.

(** Whether the next token begins with one of the characters. *)
Definition starts (toks : list Z) (ts : list tk) : bool :=
  match ts with
  | TS c :: _ => has_char toks (if c =? 43 then 62 else c)
  | _ => false
  end.

Definition token_chars (toks : list Z) : Prop := forallb (has_char sh_symbols) toks = true.

Lemma token_chars_sym toks c : token_chars toks -> has_char toks c = true -> has_char sh_symbols c = true.
Proof.
  unfold token_chars. rewrite forallb_forall. intros H Hc.
  assert (forall d, d ∈ toks -> has_char sh_symbols d = true) as H' by (intros d Hd; by apply H, list_elem_of_In).
  apply H'. apply has_char_iff; [|done]. intros H0. by apply H' in H0.
Qed.

Lemma token_spec_sym s p c e : token_spec s p c e -> c <> 0 -> c <> 97 ->
  at_ s p = (if c =? 43 then 62 else c) /\ at_ s p <> 0.
Proof.
  intros [E|E E0|E E'|E E'|E E0] H0 H97; try done.
  - split; [|done]. destruct (Z.eqb_spec (at_ s p) 43) as [E43|]; [|done]. by rewrite E43 in E.
  - split; [done|lia].
  - split; [done|lia].
Qed.

Lemma token_spec_word s p e : token_spec s p 97 e ->
  is_word (at_ s p) = true /\ at_ s p <> 0 /\ e = (p + skip_while is_word (drop p s))%nat.
Proof. inversion 1 as [|E E0 E97| | |]; subst; [|done]. rewrite E97 in E. done. Qed.

Lemma peek_lexes s p ts toks : token_chars toks -> lexes s p ts -> peek s p toks = (starts toks ts, skip_ws s p).
Proof.
  intros Ht H. unfold peek. f_equal.
  destruct H as [p E|p [q e] p' ts E _|p c [q e] p' ts E N0 N97 _].
  - by rewrite E.
  - apply gettoken_spec in E as (-> & _ & (Hw & _ & _)%token_spec_word). simpl.
    destruct (has_char toks _) eqn:Eh; [|apply andb_false_r]. apply token_chars_sym in Eh; [|done].
    unfold is_word in Hw. by rewrite Eh, andb_false_r in Hw.
  - apply gettoken_spec in E as (-> & _ & Hs). apply token_spec_sym in Hs as [-> Hn]; [|done|done]. simpl.
    by rewrite (proj2 (Z.eqb_neq _ _)) by done.
Qed.

(** A word of the line: its characters and what follows them. *)
Definition word_span (s : list Z) (w : span) : Prop :=
  (fst w < snd w <= length s)%nat
  /\ (forall i, (fst w <= i < snd w)%nat -> is_word (at_ s i) = true)
  /\ ((snd w < length s)%nat -> is_word (at_ s (snd w)) = false).

Lemma gettoken_word s p w p' : gettoken s p = (97, w, p') -> (p <= length s)%nat -> word_span s w.
Proof.
  destruct w as [q e]. intros (Eq & _ & Ht)%gettoken_spec Hp. pose proof (skip_ws_le s p Hp) as Hq. rewrite <- Eq in Hq.
  destruct (token_progress _ _ _ _ Ht Hq) as (H1 & _ & H2). specialize (H2 ltac:(done)).
  apply token_spec_word in Ht as (_ & _ & Ee). unfold word_span. simpl. split_and!; [lia|lia| |].
  - intros i Hi. replace i with (q + (i - q))%nat by lia. rewrite <- at_drop. apply skip_while_all. lia.
  - intros Hl. rewrite Ee, <- at_drop. apply skip_while_stop. rewrite length_drop. lia.
Qed.

Fixpoint cmd_all {W} (P : W -> Prop) (c : cmd W) : Prop :=
  match c with
  | EXEC argv => Forall P argv
  | REDIR c file _ _ => cmd_all P c /\ P file
  | PIPE l r | LIST l r => cmd_all P l /\ cmd_all P r
  | BACK c => cmd_all P c
  end.

(** [rs] are the redirections of the items [l]. *)
Definition redirs_are (s : list Z) (rs : list redir) (l : list gitem) : Prop :=
  Forall (fun r => word_span s (r_file r)) rs
  /\ forall c, cmd_map (text s) (wrap c rs) = fold_left redirect l (cmd_map (text s) c).

Lemma redirs_are_nil s : redirs_are s [] [].
Proof. done. Qed.

Lemma redirs_are_app s rs l rs' l' : redirs_are s rs l -> redirs_are s rs' l' -> redirs_are s (rs ++ rs') (l ++ l').
Proof.
  intros [A1 A2] [B1 B2]. split; [by apply Forall_app|]. intros c. unfold wrap in *. rewrite !fold_left_app, B2. by rewrite A2.
Qed.

Lemma redirs_are_word s w : redirs_are s [] [GWord w].
Proof. done. Qed.

Lemma redirs_are_one s tok file : is_redir_op tok -> word_span s file ->
  redirs_are s [redir_of tok file] [GRedir tok (text s file)].
Proof. intros H Hw. split; [constructor; [|done]; by destruct H as [->|[->| ->]]|]. by destruct H as [->|[->| ->]]. Qed.

Lemma wrap_all s c rs l : cmd_all (word_span s) c -> redirs_are s rs l -> cmd_all (word_span s) (wrap c rs).
Proof. intros Hc [H _]. revert c Hc. induction H as [|r rs Hr _ IH]; intros c Hc; [done|]. by apply IH. Qed.

Definition tokens (l : list gitem) : list tk := concat (map item_tokens l).

Lemma tokens_app a b : tokens (a ++ b) = tokens a ++ tokens b.
Proof. unfold tokens. by rewrite map_app, concat_app. Qed.

Lemma lexes_get s p ts tok w p1 : lexes s p ts -> gettoken s p = (tok, w, p1) ->
  (tok = 0 /\ ts = [])
  \/ (tok = 97 /\ exists ts', ts = TW (text s w) :: ts' /\ lexes s p1 ts')
  \/ (tok <> 0 /\ tok <> 97 /\ exists ts', ts = TS tok :: ts' /\ lexes s p1 ts').
Proof.
  intros H E. destruct H as [p E0|p w' p' ts E' H|p c w' p' ts E' N0 N97 H].
  - left. split; [|done]. destruct w as [q e]. apply gettoken_spec in E as (-> & _ & Ht).
    destruct Ht as [|E1 N|E1|E1|E1 N]; rewrite ?E0 in *; done.
  - rewrite E in E'. injection E' as -> -> ->. right. left. split; [done|]. by exists ts.
  - rewrite E in E'. injection E' as -> -> ->. right. right. split_and!; [done|done|]. by exists ts.
Qed.

(** The token that [peek] announced. *)
Lemma starts_token s p ts toks :
  lexes s p ts -> starts toks ts = true -> (p <= length s)%nat ->
  exists c w p1 ts', ts = TS c :: ts' /\ gettoken s (skip_ws s p) = (c, w, p1) /\ lexes s p1 ts'
  /\ has_char toks (if c =? 43 then 62 else c) = true /\ (p1 <= length s)%nat.
Proof.
  intros H Hs Hp. destruct ts as [|[w|c] ts]; [done|done|]. inversion H as [| |p0 c0 w p1 ts0 E N0 N97 H']; subst.
  exists c, w, p1, ts. rewrite gettoken_skip. split_and!; try done. by apply (gettoken_progress _ _ _ _ _ E).
Qed.

Lemma has_one x y : has_char [x] y = true -> y = x.
Proof. unfold has_char. simpl. destruct (x =? 0); [done|]. destruct (Z.eqb_spec x y); done. Qed.

Lemma starts_one s p ts x : x <> 62 ->
  lexes s p ts -> starts [x] ts = true -> (p <= length s)%nat ->
  exists w p1 ts', ts = TS x :: ts' /\ gettoken s (skip_ws s p) = (x, w, p1) /\ lexes s p1 ts' /\ (p1 <= length s)%nat.
Proof.
  intros Hx H Hs Hp. destruct (starts_token s p ts [x] H Hs Hp) as (c & w & p1 & ts' & -> & E & H' & Hc & Hp1).
  apply has_one in Hc. destruct (Z.eqb_spec c 43) as [->|_]; [lia|]. subst c. by exists w, p1, ts'.
Qed.

(** *** What the parser accepts is a command of the grammar *)
Lemma redirs_sound fuel s p rs p' ts :
  redirs fuel s p = POk rs p' -> lexes s p ts -> (p <= length s)%nat ->
  exists l rest, ts = tokens l ++ rest /\ Forall is_redir l /\ redirs_are s rs l /\ lexes s p' rest /\ (p' <= length s)%nat.
Proof.
  revert p rs p' ts. induction fuel as [|fuel IH]; intros p rs p' ts E H Hp; [done|]. cbn [redirs] in E.
  rewrite (peek_lexes s p ts (str "<>") eq_refl H) in E. pose proof (skip_ws_le s p Hp) as Hp'. destruct (starts (str "<>") ts) eqn:Es.
  - destruct (starts_token s p ts _ H Es Hp) as (c & w & p1 & ts1 & -> & E1 & H1 & Hc & Hp1). rewrite E1 in E.
    destruct (gettoken s p1) as [[tok2 file] p2] eqn:E2. destruct (Z.eqb_spec tok2 97) as [->|]; [|done]. cbn [negb] in E.
    destruct (lexes_get _ _ _ _ _ _ H1 E2) as [[? _]|[(_ & ts2 & -> & H2)|(_ & ? & _)]]; [done| |done].
    pose proof (gettoken_word _ _ _ _ E2 Hp1) as Hw. destruct (gettoken_progress _ _ _ _ _ E2 Hp1) as [Hp2 _].
    destruct (redirs fuel s p2) as [rs2 p3| |] eqn:E3; [|done|done]. injection E as <- <-.
    destruct (IH _ _ _ _ E3 H2) as (l & rest & -> & Hl & Hr & H3 & Hp3); [lia|].
    assert (is_redir_op c) as Hop.
    { unfold is_redir_op. destruct (Z.eqb_spec c 43) as [->|]; [by right; right|].
      apply has_char_iff in Hc; [|decide_now]. change (str "<>") with [60; 62] in Hc. set_solver. }
    exists (GRedir c (text s file) :: l), rest. split_and!; [done|by constructor| |done|done].
    by apply (redirs_are_app s [_] [_] rs2 l); [apply redirs_are_one|].
  - injection E as <- <-. exists [], ts. split_and!; [done|done|apply redirs_are_nil|by apply lexes_skip|done].
Qed.

Lemma words_of_app a b : words_of (a ++ b) = words_of a ++ words_of b.
Proof. apply omap_app. Qed.

Lemma words_of_redirs l : Forall is_redir l -> words_of l = [].
Proof. induction 1 as [|[w|op f] l Hi _ IH]; simpl in *; done. Qed.

Lemma is_redir_ok l : Forall is_redir l -> Forall item_ok l.
Proof. intros H. eapply Forall_impl; [exact H|]. by intros [w|op f]. Qed.

Lemma argv_loop_sound fuel s argv rs l0 p c p' ts :
  argv_loop fuel s argv rs p = POk c p' -> lexes s p ts -> (p <= length s)%nat ->
  redirs_are s rs l0 -> map (text s) argv = words_of l0 -> Forall (word_span s) argv -> (length argv < 10)%nat ->
  exists l rest, ts = tokens l ++ rest /\ Forall item_ok l /\ (length (words_of (l0 ++ l)) < 10)%nat
  /\ cmd_map (text s) c = fold_left redirect (l0 ++ l) (EXEC (words_of (l0 ++ l)))
  /\ cmd_all (word_span s) c /\ lexes s p' rest /\ (p' <= length s)%nat.
Proof.
  revert argv rs l0 p ts. induction fuel as [|fuel IH]; intros argv rs l0 p ts E H Hp Hr Hw Ha Hn; [done|].
  assert (forall p2, POk (wrap (EXEC argv) rs) p2 = POk c p' -> lexes s p2 ts -> (p2 <= length s)%nat ->
    exists l rest, ts = tokens l ++ rest /\ Forall item_ok l /\ (length (words_of (l0 ++ l)) < 10)%nat
    /\ cmd_map (text s) c = fold_left redirect (l0 ++ l) (EXEC (words_of (l0 ++ l)))
    /\ cmd_all (word_span s) c /\ lexes s p' rest /\ (p' <= length s)%nat) as Hstop.
  { intros p2 [= <- <-] H2 Hp2. exists [], ts. rewrite app_nil_r. split_and!; try done.
    - by rewrite <- Hw, length_map.
    - rewrite (proj2 Hr). simpl. by rewrite Hw.
    - by eapply wrap_all. }
  cbn [argv_loop] in E. rewrite (peek_lexes s p ts (str "|)&;") eq_refl H) in E.
  pose proof (skip_ws_le s p Hp) as Hp'. destruct (starts (str "|)&;") ts) eqn:Es.
  { apply (Hstop _ E); [by apply lexes_skip|done]. }
  destruct (gettoken s (skip_ws s p)) as [[tok w] p1] eqn:E1. destruct (gettoken_progress _ _ _ _ _ E1 Hp') as [Hp1 _].
  destruct (lexes_get s _ ts tok w p1 ltac:(by apply lexes_skip) E1) as [[-> Ets]|[(-> & ts1 & Ets & H1)|(N0 & N97 & _)]].
  - apply (Hstop _ E); [|lia]. subst ts. constructor. destruct w as [q e]. apply gettoken_spec in E1 as (Eq & -> & Ht).
    assert (e = q /\ at_ s q = 0) as [-> E0].
    { clear - Ht. inversion Ht as [|E N Ez| | |]; subst; [done|]. by rewrite Ez in N. }
    rewrite Eq, !skip_ws_idem in *. done.
  - cbn [Z.eqb Pos.eqb negb] in E. pose proof (gettoken_word _ _ _ _ E1 Hp') as Hsp. destruct (MAXARGS <=? _) eqn:Em; [done|].
    apply Z.leb_gt in Em. unfold MAXARGS in Em.
    destruct (redirs _ s p1) as [rs1 p2| |] eqn:E2; [|done|done]. simpl in E.
    destruct (redirs_sound _ _ _ _ _ _ E2 H1) as (l1 & rest1 & -> & Hl1 & Hr1 & H2 & Hp2); [lia|].
    set (li := GWord (text s w) :: l1).
    destruct (IH (argv ++ [w]) (rs ++ rs1) (l0 ++ li) p2 rest1 E H2 Hp2) as (l & rest & -> & Hl & Hn' & Ec & Hall & H3 & Hp3).
    + apply redirs_are_app; [done|]. by apply (redirs_are_app s [] [_] rs1 l1).
    + rewrite map_app, words_of_app, Hw. simpl. change (words_of li) with (text s w :: words_of l1). by rewrite (words_of_redirs l1 Hl1).
    + apply Forall_app. split; [done|by apply Forall_singleton].
    + lia.
    + exists (li ++ l), rest. rewrite app_assoc. split_and!; try done.
      * subst ts. unfold li. rewrite tokens_app. by rewrite <- app_assoc.
      * apply Forall_app. split; [constructor; [done|by apply is_redir_ok]|done].
  - rewrite (proj2 (Z.eqb_neq tok 0)), (proj2 (Z.eqb_neq tok 97)) in E by done. done.
Qed.

Lemma back_loop_sound fuel s c p c' p' ts :
  back_loop fuel s c p = POk c' p' -> lexes s p ts -> (p <= length s)%nat ->
  exists k rest, ts = replicate k (TS 38) ++ rest /\ c' = Nat.iter k BACK c /\ lexes s p' rest /\ (p' <= length s)%nat.
Proof.
  revert c p ts. induction fuel as [|fuel IH]; intros c p ts E H Hp; [done|]. cbn [back_loop] in E.
  rewrite (peek_lexes s p ts (str "&") eq_refl H) in E. destruct (starts (str "&") ts) eqn:Es.
  - destruct (starts_one s p ts 38 ltac:(done) H Es Hp) as (w & p1 & ts1 & -> & E1 & H1 & Hp1). rewrite E1 in E.
    destruct (IH _ _ _ E H1 Hp1) as (k & rest & -> & -> & H2 & Hp2).
    exists (S k), rest. split_and!; [done|symmetry; apply Nat.iter_succ_r|done|done].
  - injection E as <- <-. exists 0%nat, ts. split_and!; [done|done|by apply lexes_skip|by apply skip_ws_le].
Qed.

Lemma cmd_map_back {A B} (f : A -> B) k c : cmd_map f (Nat.iter k BACK c) = Nat.iter k BACK (cmd_map f c).
Proof. induction k as [|k IH]; simpl; [done|by rewrite IH]. Qed.

Lemma cmd_all_back {A} (P : A -> Prop) k c : cmd_all P c -> cmd_all P (Nat.iter k BACK c).
Proof. by induction k. Qed.

(** What each function promises of the tokens it takes. *)
Definition sound (g : cmd (list Z) -> list tk -> Prop) (s : list Z) (p : nat) (r : pres (cmd span)) : Prop :=
  forall c p' ts, r = POk c p' -> lexes s p ts -> (p <= length s)%nat ->
  exists ts1 rest, ts = ts1 ++ rest /\ g (cmd_map (text s) c) ts1 /\ cmd_all (word_span s) c
  /\ lexes s p' rest /\ (p' <= length s)%nat.

Lemma pbind_ok {A B} (r : pres A) (f : A -> nat -> pres B) b p : pbind r f = POk b p ->
  exists a p1, r = POk a p1 /\ f a p1 = POk b p.
Proof. destruct r as [a p1| |]; simpl; [|done|done]. eauto. Qed.

Lemma parseline_sound fuel s :
  (forall p, sound g_pipe s p (parsepipe fuel s p)) -> (forall p, sound g_line s p (parseline fuel s p)) ->
  forall p, sound g_line s p (parseline (S fuel) s p).
Proof.
  intros IHp IHl p c p' ts E H Hp. cbn [parseline] in E.
  apply pbind_ok in E as (c1 & p1 & E1 & E). 
  destruct (IHp _ _ _ _ E1 H Hp) as (ts1 & rest1 & -> & G1 & A1 & H1 & Hp1).
  apply pbind_ok in E as (c2 & p2 & E2 & E). destruct (back_loop_sound _ _ _ _ _ _ _ E2 H1 Hp1) as (k & rest2 & -> & -> & H2 & Hp2).
  rewrite (peek_lexes s p2 rest2 (str ";") eq_refl H2) in E. destruct (starts (str ";") rest2) eqn:Es.
  + destruct (starts_one s p2 rest2 59 ltac:(done) H2 Es Hp2) as (w & p3 & ts3 & -> & E3 & H3 & Hp3). rewrite E3 in E.
    apply pbind_ok in E as (c4 & p4 & E4 & E). injection E as <- <-. 
    destruct (IHl _ _ _ _ E4 H3 Hp3) as (ts4 & rest4 & -> & G4 & A4 & H4 & Hp4).
    exists (ts1 ++ replicate k (TS 38) ++ TS 59 :: ts4), rest4. simpl. rewrite cmd_map_back.
    split_and!; [by rewrite <- !app_assoc|by constructor|by apply cmd_all_back|done|done|done].
  + injection E as <- <-. exists (ts1 ++ replicate k (TS 38)), rest2. rewrite cmd_map_back.
    split_and!; [by rewrite <- app_assoc|by constructor|by apply cmd_all_back|by apply lexes_skip|by apply skip_ws_le].
Qed.

Lemma parsepipe_sound fuel s :
  (forall p, sound g_exec s p (parseexec fuel s p)) -> (forall p, sound g_pipe s p (parsepipe fuel s p)) ->
  forall p, sound g_pipe s p (parsepipe (S fuel) s p).
Proof.
  intros IHe IHp p c p' ts E H Hp. cbn [parsepipe] in E.
  apply pbind_ok in E as (c1 & p1 & E1 & E). 
  destruct (IHe _ _ _ _ E1 H Hp) as (ts1 & rest1 & -> & G1 & A1 & H1 & Hp1).
  rewrite (peek_lexes s p1 rest1 (str "|") eq_refl H1) in E. destruct (starts (str "|") rest1) eqn:Es.
  + destruct (starts_one s p1 rest1 124 ltac:(done) H1 Es Hp1) as (w & p3 & ts3 & -> & E3 & H3 & Hp3). rewrite E3 in E.
    apply pbind_ok in E as (c4 & p4 & E4 & E). injection E as <- <-. 
    destruct (IHp _ _ _ _ E4 H3 Hp3) as (ts4 & rest4 & -> & G4 & A4 & H4 & Hp4).
    exists (ts1 ++ TS 124 :: ts4), rest4. simpl. split_and!; [by rewrite <- app_assoc|by constructor|done..].
  + injection E as <- <-. exists ts1, rest1. split_and!; [done|by constructor|done|by apply lexes_skip|by apply skip_ws_le].
Qed.

Lemma parseexec_sound fuel s :
  (forall p, sound g_exec s p (parseblock fuel s p)) -> forall p, sound g_exec s p (parseexec (S fuel) s p).
Proof.
  intros IHb p c p' ts E H Hp. cbn [parseexec] in E.
  rewrite (peek_lexes s p ts (str "(") eq_refl H) in E. pose proof (skip_ws_le s p Hp) as Hp'. apply lexes_skip in H.
  destruct (starts (str "(") ts) eqn:Es.
  + by apply (IHb _ _ _ _ E).
  + apply pbind_ok in E as (rs & p1 & E1 & E).
    destruct (redirs_sound _ _ _ _ _ _ E1 H Hp') as (l & rest & -> & Hl & Hr & H1 & Hp1).
    destruct (argv_loop_sound _ _ [] rs l _ _ _ _ E H1 Hp1 Hr) as (l1 & rest1 & -> & Hl1 & Hn & Ec & A & H2 & Hp2);
      [by rewrite words_of_redirs|constructor|simpl; lia|].
    exists (tokens (l ++ l1)), rest1. rewrite Ec. split_and!; [by rewrite tokens_app, <- app_assoc| |done|done|done].
    constructor; [apply Forall_app; split; [by apply is_redir_ok|done]|done].
Qed.

Lemma parseblock_sound fuel s :
  (forall p, sound g_line s p (parseline fuel s p)) -> forall p, sound g_exec s p (parseblock (S fuel) s p).
Proof.
  intros IHl p c p' ts E H Hp. cbn [parseblock] in E.
  rewrite (peek_lexes s p ts (str "(") eq_refl H) in E. destruct (starts (str "(") ts) eqn:Es; [|done]. cbn [negb] in E.
  destruct (starts_one s p ts 40 ltac:(done) H Es Hp) as (w & p1 & ts1 & -> & E1 & H1 & Hp1). rewrite E1 in E.
  apply pbind_ok in E as (c2 & p2 & E2 & E). 
  destruct (IHl _ _ _ _ E2 H1 Hp1) as (ts2 & rest2 & -> & G2 & A2 & H2 & Hp2).
  rewrite (peek_lexes s p2 rest2 (str ")") eq_refl H2) in E. destruct (starts (str ")") rest2) eqn:Es2; [|done]. cbn [negb] in E.
  destruct (starts_one s p2 rest2 41 ltac:(done) H2 Es2 Hp2) as (w3 & p3 & ts3 & -> & E3 & H3 & Hp3). rewrite E3 in E.
  apply pbind_ok in E as (rs & p4 & E4 & E). injection E as <- <-.
  destruct (redirs_sound _ _ _ _ _ _ E4 H3 Hp3) as (l & rest & -> & Hl & Hr & H4 & Hp4).
  exists (TS 40 :: ts2 ++ TS 41 :: tokens l), rest. rewrite (proj2 Hr).
  split_and!; [simpl; by rewrite <- app_assoc|by constructor|by eapply wrap_all|done|done].
Qed.

Lemma parse_sound fuel s :
  (forall p, sound g_line s p (parseline fuel s p)) /\ (forall p, sound g_pipe s p (parsepipe fuel s p))
  /\ (forall p, sound g_exec s p (parseexec fuel s p)) /\ (forall p, sound g_exec s p (parseblock fuel s p)).
Proof.
  induction fuel as [|fuel (IHl & IHp & IHe & IHb)]; [split_and!; by intros ? ? ? ?|].
  auto using parseline_sound, parsepipe_sound, parseexec_sound, parseblock_sound.
Qed.

(** *** A command of the grammar is accepted *)

(** The next token, if any, is one of these symbols. *)
Definition follows (set : list Z) (rest : list tk) : Prop :=
  match rest with
  | [] => True
  | TS c :: _ => c ∈ set
  | TW _ :: _ => False
  end.

Lemma follows_weaken set set' rest : set ⊆ set' -> follows set rest -> follows set' rest.
Proof. intros H. destruct rest as [|[w|c] rest]; simpl; auto. Qed.

Lemma follows_starts set toks rest :
  follows set rest -> Forall (fun c => has_char toks (if c =? 43 then 62 else c) = false) set -> starts toks rest = false.
Proof. destruct rest as [|[w|c] rest]; simpl; try done. rewrite Forall_forall. eauto. Qed.

Definition exec_follow : list Z := [41; 38; 59; 124].

Lemma redirs_complete fuel s p l rest :
  lexes s p (tokens l ++ rest) -> Forall is_redir l -> starts (str "<>") rest = false -> (p <= length s)%nat ->
  redirs fuel s p <> PFuel ->
  exists rs p', redirs fuel s p = POk rs p' /\ redirs_are s rs l /\ lexes s p' rest /\ (p' <= length s)%nat.
Proof.
  revert p l. induction fuel as [|fuel IH]; intros p l H Hl Hs Hp Hf; [done|]. cbn [redirs] in Hf |- *.
  rewrite (peek_lexes s p _ (str "<>") eq_refl H) in Hf |- *. destruct l as [|[w|op file] l]; [|by apply Forall_cons in Hl as [? _]|].
  - simpl app in *. rewrite Hs in *. exists [], (skip_ws s p).
    split_and!; [done|apply redirs_are_nil|by apply lexes_skip|by apply skip_ws_le].
  - apply Forall_cons in Hl as [Hop Hl]. change (tokens (GRedir op file :: l) ++ rest) with (TS op :: TW file :: tokens l ++ rest) in *.
    assert (starts (str "<>") (TS op :: TW file :: tokens l ++ rest) = true) as Est by (by destruct Hop as [->|[->| ->]]).
    rewrite Est in *. destruct (starts_token s p _ _ H Est Hp) as (c & w & p1 & ts1 & [= <- <-] & E1 & H1 & _ & Hp1). rewrite E1 in *.
    destruct (gettoken s p1) as [[tok2 w2] p2] eqn:E2.
    destruct (lexes_get _ _ _ _ _ _ H1 E2) as [[_ ?]|[(-> & ts2 & [= -> <-] & H2)|(_ & _ & ts2 & ? & _)]]; [done| |done].
    cbn [Z.eqb Pos.eqb negb] in *. destruct (gettoken_progress _ _ _ _ _ E2 Hp1) as [Hp2 _].
    destruct (IH p2 l H2 Hl Hs) as (rs & p' & E & Hr & H' & Hp'); [lia| |].
    { intros E. by rewrite E in Hf. }
    rewrite E. exists (redir_of op w2 :: rs), p'. split_and!; [done| |done|done].
    apply (redirs_are_app s [_] [_] rs l); [|done]. apply redirs_are_one; [done|by eapply gettoken_word].
Qed.

Lemma redirs_ok s p l rest :
  lexes s p (tokens l ++ rest) -> Forall is_redir l -> starts (str "<>") rest = false -> (p <= length s)%nat ->
  exists rs p', redirs (S (length s)) s p = POk rs p' /\ redirs_are s rs l /\ lexes s p' rest /\ (p' <= length s)%nat.
Proof.
  intros H Hl Hs Hp. apply redirs_complete; try done. pose proof (redirs_ends (S (length s)) s p Hp ltac:(lia)) as He.
  intros E. by rewrite E in He.
Qed.

(** The redirections at the head of a list of items. *)
Lemma split_redirs l : Forall item_ok l ->
  exists l1 l2, l = l1 ++ l2 /\ Forall is_redir l1 /\ Forall item_ok l2 /\ match l2 with GRedir _ _ :: _ => False | _ => True end.
Proof.
  induction 1 as [|[w|op f] l Hi Hl IH].
  - by exists [], [].
  - exists [], (GWord w :: l). split_and!; [done|done|by constructor|done].
  - destruct IH as (l1 & l2 & -> & H1 & H2 & H3). exists (GRedir op f :: l1), l2. split_and!; [done|by constructor|done|done].
Qed.

Lemma items_starts l rest toks :
  match l with GRedir _ _ :: _ => False | _ => True end -> starts toks rest = false -> starts toks (tokens l ++ rest) = false.
Proof. by destruct l as [|[w|op f] l]. Qed.

Lemma argv_loop_complete fuel s argv rs l0 p l rest :
  lexes s p (tokens l ++ rest) -> Forall item_ok l -> match l with GRedir _ _ :: _ => False | _ => True end ->
  follows exec_follow rest -> (p <= length s)%nat ->
  redirs_are s rs l0 -> map (text s) argv = words_of l0 -> (length (words_of (l0 ++ l)) < 10)%nat ->
  argv_loop fuel s argv rs p <> PFuel ->
  exists c p', argv_loop fuel s argv rs p = POk c p'
  /\ cmd_map (text s) c = fold_left redirect (l0 ++ l) (EXEC (words_of (l0 ++ l))) /\ lexes s p' rest /\ (p' <= length s)%nat.
Proof.
  revert argv rs l0 p l. induction fuel as [|fuel IH]; intros argv rs l0 p l H Hl Hh Hfo Hp Hr Hw Hn Hf; [done|].
  cbn [argv_loop] in Hf |- *. rewrite (peek_lexes s p _ (str "|)&;") eq_refl H) in Hf |- *. pose proof (skip_ws_le s p Hp) as Hp'.
  destruct l as [|[w|op f] l]; [| |done].
  - simpl app in *. rewrite app_nil_r in *.
    assert (cmd_map (text s) (wrap (EXEC argv) rs) = fold_left redirect l0 (EXEC (words_of l0))) as Ec.
    { rewrite (proj2 Hr). simpl. by rewrite Hw. }
    destruct rest as [|[w|c] rest]; [|done|].
    + cbn [starts] in *. destruct (gettoken s (skip_ws s p)) as [[tok w] p1] eqn:E1. rewrite gettoken_skip in E1.
      destruct (lexes_get _ _ _ _ _ _ H E1) as [[-> _]|[(_ & ? & ? & _)|(_ & _ & ? & ? & _)]]; [|done|done].
      exists (wrap (EXEC argv) rs), p1. destruct (gettoken_progress _ _ _ _ _ E1 Hp) as [Hp1 _]. split_and!; [done|done| |lia].
      destruct w as [q e]. apply gettoken_spec in E1 as (Eq & -> & Ht). constructor.
      inversion Ht as [E0|E0 N Ez| | |]; subst; [by rewrite !skip_ws_idem|]. by rewrite Ez in N.
    + assert (starts (str "|)&;") (TS c :: rest) = true) as Est.
      { simpl in Hfo. unfold exec_follow in Hfo. rewrite !elem_of_cons, elem_of_nil in Hfo. by destruct Hfo as [->|[->|[->|[->|[]]]]]. }
      rewrite Est. exists (wrap (EXEC argv) rs), (skip_ws s p). split_and!; [done|done|by apply lexes_skip|done].
  - apply Forall_cons in Hl as [_ Hl]. change (tokens (GWord w :: l) ++ rest) with (TW w :: tokens l ++ rest) in *. cbn [starts] in *.
    destruct (gettoken s (skip_ws s p)) as [[tok w1] p1] eqn:E1. rewrite gettoken_skip in E1.
    destruct (lexes_get _ _ _ _ _ _ H E1) as [[_ ?]|[(-> & ts1 & [= -> <-] & H1)|(_ & _ & ? & ? & _)]]; [done| |done].
    cbn [Z.eqb Pos.eqb negb] in *. destruct (gettoken_progress _ _ _ _ _ E1 Hp) as [Hp1 _].
    destruct (split_redirs l Hl) as (l1 & l2 & -> & Hl1 & Hl2 & Hh2).
    rewrite words_of_app, length_app in Hn. change (words_of (GWord (text s w1) :: l1 ++ l2)) with (text s w1 :: words_of (l1 ++ l2)) in Hn.
    rewrite words_of_app, (words_of_redirs l1 Hl1) in Hn. simpl in Hn.
    assert (length argv = length (words_of l0)) as Hla by (by rewrite <- Hw, length_map).
    rewrite (proj2 (Z.leb_gt MAXARGS _)) in * by (rewrite length_app; unfold MAXARGS; simpl; lia).
    rewrite tokens_app, <- app_assoc in H1.
    destruct (redirs_ok s p1 l1 (tokens l2 ++ rest) H1 Hl1) as (rs1 & p2 & E2 & Hr1 & H2 & Hp2); [|lia|].
    { apply items_starts; [done|]. by apply (follows_starts exec_follow); [|repeat constructor]. }
    rewrite E2 in *. cbn [pbind] in *. replace (l0 ++ GWord (text s w1) :: l1 ++ l2) with ((l0 ++ GWord (text s w1) :: l1) ++ l2) by (by rewrite <- app_assoc).
    apply (IH (argv ++ [w1]) (rs ++ rs1) (l0 ++ GWord (text s w1) :: l1) p2 l2); try done.
    + apply redirs_are_app; [done|]. by apply (redirs_are_app s [] [_] rs1 l1).
    + rewrite map_app, words_of_app, Hw. simpl. change (words_of (GWord (text s w1) :: l1)) with (text s w1 :: words_of l1).
      by rewrite (words_of_redirs l1 Hl1).
    + rewrite words_of_app, words_of_app, !length_app. change (words_of (GWord (text s w1) :: l1)) with (text s w1 :: words_of l1).
      rewrite (words_of_redirs l1 Hl1). simpl. lia.
Qed.

Lemma back_loop_complete fuel s c p k rest :
  lexes s p (replicate k (TS 38) ++ rest) -> starts (str "&") rest = false -> (p <= length s)%nat ->
  back_loop fuel s c p <> PFuel ->
  exists p', back_loop fuel s c p = POk (Nat.iter k BACK c) p' /\ lexes s p' rest /\ (p' <= length s)%nat.
Proof.
  revert c p k. induction fuel as [|fuel IH]; intros c p k H Hs Hp Hf; [done|]. cbn [back_loop] in Hf |- *.
  rewrite (peek_lexes s p _ (str "&") eq_refl H) in Hf |- *. destruct k as [|k].
  - simpl app in *. rewrite Hs. exists (skip_ws s p). split_and!; [done|by apply lexes_skip|by apply skip_ws_le].
  - change (replicate (S k) (TS 38) ++ rest) with (TS 38 :: replicate k (TS 38) ++ rest) in *.
    assert (starts (str "&") (TS 38 :: replicate k (TS 38) ++ rest) = true) as Est by done. rewrite Est in *.
    destruct (starts_one s p _ 38 ltac:(done) H Est Hp) as (w & p1 & ts1 & [= <-] & E1 & H1 & Hp1). rewrite E1 in *.
    rewrite Nat.iter_succ_r. by apply IH.
Qed.

(** What each function does with the tokens of a command and what follows. *)
Definition complete (set : list Z) (parse : nat -> list Z -> nat -> pres (cmd span)) (c : cmd (list Z)) (ts : list tk) : Prop :=
  forall fuel s p rest, lexes s p (ts ++ rest) -> follows set rest -> (p <= length s)%nat -> parse fuel s p <> PFuel ->
  exists c' p', parse fuel s p = POk c' p' /\ cmd_map (text s) c' = c /\ lexes s p' rest /\ (p' <= length s)%nat.

Lemma pbind_fuel {A B} (r : pres A) (f : A -> nat -> pres B) : pbind r f <> PFuel -> r <> PFuel.
Proof. by intros H ->. Qed.

Lemma line_complete c k ts (tail : list tk) fuel s p rest :
  complete [41; 38; 59] parsepipe c ts -> starts (str "&") (tail ++ rest) = false -> follows [41; 38; 59] (replicate k (TS 38) ++ tail ++ rest) ->
  lexes s p (ts ++ replicate k (TS 38) ++ tail ++ rest) -> (p <= length s)%nat -> parsepipe fuel s p <> PFuel ->
  exists c' p1 p2, parsepipe fuel s p = POk c' p1 /\ back_loop (S (length s)) s c' p1 = POk (Nat.iter k BACK c') p2
  /\ cmd_map (text s) c' = c /\ lexes s p2 (tail ++ rest) /\ (p2 <= length s)%nat.
Proof.
  intros Hc Hs Hfo H Hp Hf. destruct (Hc fuel s p _ H Hfo Hp Hf) as (c' & p1 & E1 & Ec & H1 & Hp1).
  destruct (back_loop_complete (S (length s)) s c' p1 k _ H1 Hs Hp1) as (p2 & E2 & H2 & Hp2).
  { pose proof (back_loop_ends (S (length s)) s c' p1 Hp1 ltac:(lia)) as He. intros E. by rewrite E in He. }
  by exists c', p1, p2.
Qed.

Lemma follows_replicate k set rest : 38 ∈ set -> follows set rest -> follows set (replicate k (TS 38) ++ rest).
Proof. by destruct k. Qed.

Lemma complete_last c k ts : complete [41; 38; 59] parsepipe c ts -> complete [41] parseline (Nat.iter k BACK c) (ts ++ replicate k (TS 38)).
Proof.
  intros Hc fuel s p rest H Hfo Hp Hf. destruct fuel as [|fuel]; [done|]. cbn [parseline] in Hf |- *. rewrite <- app_assoc in H.
  assert (follows [41; 38; 59] rest) as Hfo' by (eapply follows_weaken; [|exact Hfo]; set_solver).
  destruct (line_complete c k ts [] fuel s p rest Hc) as (c' & p1 & p2 & E1 & E2 & Ec & H2 & Hp2); try done.
  { by apply (follows_starts [41]); [|repeat constructor]. }
  { apply follows_replicate; [set_solver|done]. }
  { by eapply pbind_fuel. }
  rewrite E1. cbn [pbind]. rewrite E2. cbn [pbind]. rewrite (peek_lexes s p2 rest (str ";") eq_refl H2).
  rewrite (follows_starts [41] (str ";") rest Hfo) by (repeat constructor).
  exists (Nat.iter k BACK c'), (skip_ws s p2). rewrite cmd_map_back, Ec. split_and!; [done|done|by apply lexes_skip|by apply skip_ws_le].
Qed.

Lemma complete_list c k ts r ts' :
  complete [41; 38; 59] parsepipe c ts -> complete [41] parseline r ts' ->
  complete [41] parseline (LIST (Nat.iter k BACK c) r) (ts ++ replicate k (TS 38) ++ TS 59 :: ts').
Proof.
  intros Hc Hr fuel s p rest H Hfo Hp Hf. destruct fuel as [|fuel]; [done|]. cbn [parseline] in Hf |- *. rewrite <- !app_assoc in H.
  destruct (line_complete c k ts (TS 59 :: ts') fuel s p rest Hc) as (c' & p1 & p2 & E1 & E2 & Ec & H2 & Hp2); try done.
  { apply follows_replicate; [set_solver|]. simpl. set_solver. }
  { by eapply pbind_fuel. }
  rewrite E1 in *. cbn [pbind] in *. rewrite E2 in *. cbn [pbind] in *.
  rewrite (peek_lexes s p2 _ (str ";") eq_refl H2) in *.
  assert (starts (str ";") ((TS 59 :: ts') ++ rest) = true) as Est by done. rewrite Est in *.
  destruct (starts_one s p2 _ 59 ltac:(done) H2 Est Hp2) as (w & p3 & ts3 & [= <-] & E3 & H3 & Hp3). rewrite E3 in *.
  destruct (Hr fuel s p3 rest H3 Hfo Hp3) as (r' & p4 & E4 & Er & H4 & Hp4); [by eapply pbind_fuel|].
  rewrite E4. exists (LIST (Nat.iter k BACK c') r'), p4. simpl. by rewrite cmd_map_back, Ec, Er.
Qed.

Lemma complete_pipe_last c ts : complete exec_follow parseexec c ts -> complete [41; 38; 59] parsepipe c ts.
Proof.
  intros Hc fuel s p rest H Hfo Hp Hf. destruct fuel as [|fuel]; [done|]. cbn [parsepipe] in Hf |- *.
  destruct (Hc fuel s p rest H) as (c' & p1 & E1 & Ec & H1 & Hp1); [|done|by eapply pbind_fuel|].
  { eapply follows_weaken; [|exact Hfo]. unfold exec_follow. set_solver. }
  rewrite E1. cbn [pbind]. rewrite (peek_lexes s p1 rest (str "|") eq_refl H1).
  rewrite (follows_starts [41; 38; 59] (str "|") rest Hfo) by (repeat constructor).
  exists c', (skip_ws s p1). split_and!; [done|done|by apply lexes_skip|by apply skip_ws_le].
Qed.

Lemma complete_pipe_pipe c ts r ts' :
  complete exec_follow parseexec c ts -> complete [41; 38; 59] parsepipe r ts' ->
  complete [41; 38; 59] parsepipe (PIPE c r) (ts ++ TS 124 :: ts').
Proof.
  intros Hc Hr fuel s p rest H Hfo Hp Hf. destruct fuel as [|fuel]; [done|]. cbn [parsepipe] in Hf |- *. rewrite <- app_assoc in H.
  destruct (Hc fuel s p _ H) as (c' & p1 & E1 & Ec & H1 & Hp1); [|done|by eapply pbind_fuel|].
  { simpl. unfold exec_follow. set_solver. }
  rewrite E1 in *. cbn [pbind] in *. rewrite (peek_lexes s p1 _ (str "|") eq_refl H1) in *.
  assert (starts (str "|") ((TS 124 :: ts') ++ rest) = true) as Est by done. rewrite Est in *.
  destruct (starts_one s p1 _ 124 ltac:(done) H1 Est Hp1) as (w & p3 & ts3 & [= <-] & E3 & H3 & Hp3). rewrite E3 in *.
  destruct (Hr fuel s p3 rest H3 Hfo Hp3) as (r' & p4 & E4 & Er & H4 & Hp4); [by eapply pbind_fuel|].
  rewrite E4. exists (PIPE c' r'), p4. simpl. by rewrite Ec, Er.
Qed.

Lemma complete_block c ts l :
  complete [41] parseline c ts -> Forall is_redir l ->
  complete exec_follow parseexec (fold_left redirect l c) (TS 40 :: ts ++ TS 41 :: tokens l).
Proof.
  intros Hc Hl fuel s p rest H Hfo Hp Hf. destruct fuel as [|fuel]; [done|]. cbn [parseexec] in Hf |- *.
  rewrite (peek_lexes s p _ (str "(") eq_refl H) in *. change (starts (str "(") _) with true in *.
  destruct fuel as [|fuel]; [done|]. cbn [parseblock] in Hf |- *.
  simpl app in H. rewrite <- app_assoc in H. set (rest1 := ts ++ _) in H.
  rewrite peek_skip, (peek_lexes s p _ (str "(") eq_refl H) in *. change (starts (str "(") _) with true in *. cbn [negb] in *.
  destruct (starts_one s p _ 40 ltac:(done) H eq_refl Hp) as (w & p1 & ts1 & [= <-] & E1 & H1 & Hp1). rewrite E1 in *.
  destruct (Hc fuel s p1 _ H1) as (c' & p2 & E2 & Ec & H2 & Hp2); [simpl; set_solver|done|by eapply pbind_fuel|].
  rewrite E2. cbn [pbind]. rewrite (peek_lexes s p2 _ (str ")") eq_refl H2). change (starts (str ")") _) with true. cbn [negb].
  destruct (starts_one s p2 _ 41 ltac:(done) H2 eq_refl Hp2) as (w3 & p3 & ts3 & [= <-] & E3 & H3 & Hp3). rewrite E3.
  unfold parseredirs. destruct (redirs_ok s p3 l rest H3 Hl) as (rs & p4 & E4 & Hr & H4 & Hp4); [|done|].
  { by apply (follows_starts exec_follow); [|repeat constructor]. }
  rewrite E4. exists (wrap c' rs), p4. rewrite (proj2 Hr), Ec. done.
Qed.

Lemma complete_simple l :
  Forall item_ok l -> (length (words_of l) < 10)%nat ->
  complete exec_follow parseexec (fold_left redirect l (EXEC (words_of l))) (tokens l).
Proof.
  intros Hl Hn fuel s p rest H Hfo Hp Hf. destruct fuel as [|fuel]; [done|]. cbn [parseexec] in Hf |- *.
  rewrite (peek_lexes s p _ (str "(") eq_refl H) in *.
  assert (starts (str "(") (tokens l ++ rest) = false) as Est.
  { destruct l as [|[w|op f] l]; [by apply (follows_starts exec_follow); [|repeat constructor]|done|].
    apply Forall_cons in Hl as [Hop _]. by destruct Hop as [->|[->| ->]]. }
  rewrite Est in *. destruct (split_redirs l Hl) as (l1 & l2 & -> & Hl1 & Hl2 & Hh).
  apply lexes_skip in H. rewrite tokens_app, <- app_assoc in H. pose proof (skip_ws_le s p Hp) as Hp'.
  destruct (redirs_ok s _ l1 (tokens l2 ++ rest) H Hl1) as (rs & p1 & E1 & Hr & H1 & Hp1); [|done|].
  { apply items_starts; [done|]. by apply (follows_starts exec_follow); [|repeat constructor]. }
  rewrite E1 in *. cbn [pbind] in *. apply (argv_loop_complete _ s [] rs l1 p1 l2); try done. by rewrite (words_of_redirs l1 Hl1).
Qed.

Lemma parse_complete :
  (forall c ts, g_line c ts -> complete [41] parseline c ts)
  /\ (forall c ts, g_pipe c ts -> complete [41; 38; 59] parsepipe c ts)
  /\ (forall c ts, g_exec c ts -> complete exec_follow parseexec c ts).
Proof.
  apply grammar_ind; intros.
  - by apply complete_last.
  - by apply complete_list.
  - by apply complete_pipe_last.
  - by apply complete_pipe_pipe.
  - by apply complete_block.
  - by apply complete_simple.
Qed.

(** *** The strings of the command *)

(** The offsets where [nulterminate] writes. *)
Fixpoint word_ends (c : cmd span) : list nat :=
  match c with
  | EXEC argv => map snd argv
  | REDIR c file _ _ => snd file :: word_ends c
  | PIPE l r | LIST l r => word_ends l ++ word_ends r
  | BACK c => word_ends c
  end.

Lemma nulterminate_lookup c buf i :
  nulterminate c buf !! i = if decide (i ∈ word_ends c /\ (i < length buf)%nat) then Some 0 else buf !! i.
Proof.
  assert (forall c buf, length (nulterminate c buf) = length buf) as Hlen.
  { clear. induction c as [argv|c IH file mode fd|l IHl r IHr|l IHl r IHr|c IH]; intros buf; simpl; auto.
    - revert buf. induction argv as [|w argv IH]; intros buf; [done|]. simpl. by rewrite IH, length_insert.
    - by rewrite length_insert.
    - by rewrite IHr.
    - by rewrite IHr. }
  revert buf. induction c as [argv|c IH file mode fd|l IHl r IHr|l IHl r IHr|c IH]; intros buf; cbn [nulterminate word_ends].
  - revert buf. induction argv as [|w argv IH]; intros buf; cbn [fold_left map]; [case_decide; [set_solver|done]|].
    rewrite IH, length_insert. destruct (decide (i = snd w)) as [->|Hne].
    + destruct (decide (snd w < length buf)%nat).
      * rewrite list_lookup_insert_eq by done. repeat case_decide; try done; set_solver.
      * rewrite !decide_False by (intros [_ ?]; done). by rewrite list_insert_ge by lia.
    + rewrite list_lookup_insert_ne by done. repeat case_decide; try done; set_solver.
  - destruct (decide (i = snd file)) as [->|Hne].
    + destruct (decide (snd file < length buf)%nat).
      * rewrite list_lookup_insert_eq by (by rewrite Hlen). rewrite decide_True by (split; [set_solver|done]). done.
      * rewrite list_insert_ge by (rewrite Hlen; lia). rewrite IH, !decide_False by (intros [_ ?]; done). done.
    + rewrite list_lookup_insert_ne by done. rewrite IH. repeat case_decide; try done; set_solver.
  - rewrite IHr, IHl, Hlen. repeat case_decide; try done; set_solver.
  - rewrite IHr, IHl, Hlen. repeat case_decide; try done; set_solver.
  - apply IH.
Qed.

Lemma cmd_all_mono {W} (P Q : W -> Prop) c : (forall w, P w -> Q w) -> cmd_all P c -> cmd_all Q c.
Proof.
  intros H. induction c as [argv|c IH file mode fd|l IHl r IHr|l IHl r IHr|c IH]; simpl; try (intuition; fail).
  intros Ha. eapply Forall_impl; [exact Ha|done].
Qed.

Lemma cmd_all_and {W} (P Q : W -> Prop) c : cmd_all P c -> cmd_all Q c -> cmd_all (fun w => P w /\ Q w) c.
Proof. induction c; simpl; try (intuition; fail). intros. by apply Forall_and. Qed.

Lemma cmd_map_ext {A B} (f g : A -> B) c : cmd_all (fun w => f w = g w) c -> cmd_map f c = cmd_map g c.
Proof.
  induction c as [argv|c IH file mode fd|l IHl r IHr|l IHl r IHr|c IH]; simpl.
  - intros H. f_equal. induction H as [|w argv Hw _ IH]; simpl; [done|]. by rewrite Hw, IH.
  - intros [H1 H2]. by rewrite IH, H2.
  - intros [H1 H2]. by rewrite IHl, IHr.
  - intros [H1 H2]. by rewrite IHl, IHr.
  - intros H. by rewrite IH.
Qed.

Lemma cmd_all_ends c E : word_ends c ⊆ E -> cmd_all (fun w => snd w ∈ E) c.
Proof.
  induction c as [argv|c IH file mode fd|l IHl r IHr|l IHl r IHr|c IH]; simpl; intros H.
  - apply Forall_forall. intros w Hw. apply H, list_elem_of_fmap. eauto.
  - split; [apply IH|]; set_solver.
  - split; [apply IHl|apply IHr]; set_solver.
  - split; [apply IHl|apply IHr]; set_solver.
  - auto.
Qed.

Lemma ends_all (P : nat -> Prop) c : cmd_all (fun w => P (snd w)) c -> forall e, e ∈ word_ends c -> P e.
Proof.
  induction c as [argv|c IH file mode fd|l IHl r IHr|l IHl r IHr|c IH]; simpl; intros H e.
  - rewrite Forall_forall in H. intros (w & -> & Hw)%list_elem_of_fmap. auto.
  - destruct H as [H1 H2]. rewrite elem_of_cons. intros [->|He]; auto.
  - destruct H as [H1 H2]. rewrite elem_of_app. intros [He|He]; auto.
  - destruct H as [H1 H2]. rewrite elem_of_app. intros [He|He]; auto.
  - auto.
Qed.

Lemma cstr_prefix (l r : list Z) : Forall (fun c => c <> 0) l -> cstr (l ++ 0 :: r) = l.
Proof. induction 1 as [|c l Hc _ IH]; simpl; [done|]. by rewrite (proj2 (Z.eqb_neq c 0)), IH. Qed.

Lemma at_lookup s i : (i < length s)%nat -> s !! i = Some (at_ s i).
Proof.
  intros [c Hc]%lookup_lt_is_Some_2. unfold at_. by rewrite (nth_lookup_Some s i 0 c Hc).
Qed.

(** A word reads as its characters: no other word ends inside it. *)
Lemma word_text s c w :
  no_byte 0 s -> cmd_all (word_span s) c -> word_span s w -> snd w ∈ word_ends c ->
  word_at (nulterminate c (s ++ [0])) w = text s w.
Proof.
  intros H0 Hc ((Hq & He) & Hin & _) Hw. unfold word_at, text. set (buf := nulterminate c (s ++ [0])).
  assert (forall i, (fst w <= i < snd w)%nat -> buf !! i = s !! i) as Hsame.
  { intros i Hi. unfold buf. rewrite nulterminate_lookup, decide_False; [by rewrite lookup_app_l by lia|].
    intros [Hi' _]. specialize (Hin i Hi).
    pose proof (ends_all (fun e => (e < length s)%nat -> is_word (at_ s e) = false) c) as Hends.
    rewrite Hends in Hin; [done| |done|lia]. eapply cmd_all_mono; [|exact Hc]. by intros w' (_ & _ & H'). }
  assert (buf !! snd w = Some 0) as Hend.
  { unfold buf. rewrite nulterminate_lookup, decide_True; [done|]. rewrite length_app. simpl. split; [done|lia]. }
  assert (drop (fst w) buf = take (snd w - fst w) (drop (fst w) s) ++ 0 :: drop (S (snd w)) buf) as ->.
  { rewrite <- (take_drop (snd w - fst w) (drop (fst w) buf)), drop_drop. f_equal.
    - apply list_eq. intros i. destruct (decide (i < snd w - fst w)%nat).
      + rewrite !lookup_take_lt, !lookup_drop by done. apply Hsame. lia.
      + by rewrite !lookup_take_ge by lia.
    - replace (fst w + (snd w - fst w))%nat with (snd w) by lia. by apply drop_S. }
  apply cstr_prefix. by apply Forall_take, Forall_drop.
Qed.

Lemma nulterminate_text s c :
  no_byte 0 s -> cmd_all (word_span s) c -> cmd_map (word_at (nulterminate c (s ++ [0]))) c = cmd_map (text s) c.
Proof.
  intros H0 Hc. apply cmd_map_ext.
  eapply cmd_all_mono; [|apply (cmd_all_and _ _ c Hc (cmd_all_ends c (word_ends c) ltac:(done)))].
  intros w [H1 H2]. by apply word_text.
Qed.

(** *** The parser and the grammar *)
Lemma lexes_exists s p : (p <= length s)%nat -> exists ts, lexes s p ts.
Proof.
  remember (length s - p)%nat as n eqn:En. revert p En. induction n as [n IH] using lt_wf_ind. intros p En Hp.
  destruct (gettoken s p) as [[tok w] p1] eqn:E. destruct (gettoken_progress _ _ _ _ _ E Hp) as [H1 H2].
  destruct (decide (tok = 0)) as [->|H0].
  - exists []. constructor. destruct w as [q e]. apply gettoken_spec in E as (-> & _ & Ht).
    inversion Ht as [|E0 N Ez| | |]; subst; [done|congruence].
  - specialize (H2 H0). destruct (IH (length s - p1)%nat ltac:(lia) p1 eq_refl ltac:(lia)) as [ts Hts].
    destruct (decide (tok = 97)) as [->|H97]; eexists; [by eapply lexes_word|by eapply lexes_sym].
Qed.

Lemma lexes_at_end s p ts : no_byte 0 s -> lexes s p ts -> (p <= length s)%nat -> ts = [] <-> skip_ws s p = length s.
Proof.
  intros H0 H Hp. pose proof (skip_ws_le s p Hp) as Hq. split.
  - intros ->. inversion H as [p0 E| |]; subst. destruct (decide (skip_ws s p < length s)%nat) as [Hlt|]; [|lia].
    apply at_lookup, list_elem_of_lookup_2 in Hlt. rewrite E in Hlt. unfold no_byte in H0. rewrite Forall_forall in H0.
    by destruct (H0 0 Hlt).
  - intros E. destruct (gettoken s p) as [[tok [q e]] p1] eqn:Et. destruct (lexes_get _ _ _ _ _ _ H Et) as [[_ ?]|Hn]; [done|exfalso].
    apply gettoken_spec in Et as (-> & _ & Ht). assert (at_ s (skip_ws s p) = 0) as Ez by (rewrite E; by apply at_end).
    assert (tok <> 0) as Hne by (destruct Hn as [[-> _]|[? _]]; done). by destruct Ht; rewrite ?Ez in *.
Qed.

Lemma parseline_total s : parseline (parse_fuel s) s 0 <> PFuel.
Proof.
  destruct (parse_ends (parse_fuel s) s 0) as [H _]; [lia|]. specialize (H ltac:(unfold parse_fuel; lia)).
  intros E. by rewrite E in H.
Qed.

Lemma bind_not_ret {A B} (p : prog A) (f : A -> prog B) (x : B) : (forall a, f a <> mret x) -> p ≫= f <> mret x.
Proof. intros H. destruct p; simpl; done || apply H. Qed.

Lemma panic_not_ret {A} msg (x : A) : sh_panic msg <> mret x.
Proof. by apply bind_not_ret. Qed.

Lemma parse_iff s ts c :
  no_byte 0 s -> lexes s 0 ts ->
  g_line c ts <-> exists c' buf, parsecmd s = mret (c', buf) /\ cmd_map (word_at buf) c' = c.
Proof.
  intros H0 H. split.
  - intros G. destruct parse_complete as [PC _].
    destruct (PC c ts G (parse_fuel s) s 0%nat []) as (c' & p' & E & Ec & H' & Hp');
      [by rewrite app_nil_r|done|lia|apply parseline_total|].
    destruct (parse_sound (parse_fuel s) s) as [PS _]. destruct (PS _ _ _ _ E H ltac:(lia)) as (_ & _ & _ & _ & A & _ & _).
    exists c', (nulterminate c' (s ++ [0])). split; [|by rewrite nulterminate_text].
    unfold parsecmd. rewrite E. unfold peek. rewrite (proj1 (lexes_at_end s p' [] H0 H' Hp') eq_refl).
    by rewrite Nat.eqb_refl.
  - intros (c' & buf & E & Ec). unfold parsecmd in E.
    destruct (parseline _ s 0) as [c1 p1| |] eqn:E1; [|by apply panic_not_ret in E|done].
    unfold peek in E. destruct (Nat.eqb_spec (skip_ws s p1) (length s)) as [El|].
    2: { apply bind_not_ret in E; [done|]. intros _. apply panic_not_ret. }
    injection E as <- <-. destruct (parse_sound (parse_fuel s) s) as [PS _].
    destruct (PS _ _ _ _ E1 H ltac:(lia)) as (ts1 & rest & -> & G & A & H' & Hp').
    apply (lexes_at_end s p1 rest H0 H' Hp') in El as ->. rewrite app_nil_r. by rewrite <- Ec, nulterminate_text.
Qed.

(** C35: The parser of the shell accepts exactly the command lines of its
    grammar, with the command the grammar gives: parsecmd returns a command
    whose strings, after nulterminate, are those of c exactly when the tokens of
    the line derive c. *)
Theorem parsecmd_grammar s :
  no_byte 0 s ->
  exists ts, lexes s 0 ts
  /\ forall c, g_line c ts <-> exists c' buf, parsecmd s = mret (c', buf) /\ cmd_map (word_at buf) c' = c.
Proof.
  intros H0. destruct (lexes_exists s 0 ltac:(lia)) as [ts H]. exists ts. split; [done|]. intros c. by apply parse_iff.
Qed.

(** ** Printing commands *)
Definition token_text (t : tk) : list Z :=
  match t with
  | TW w => w
  | TS c => if c =? 43 then [62; 62] else [c]
  end.

(** A blank after each token. *)
Definition show (ts : list tk) : list Z := concat (map (fun t => token_text t ++ [32]) ts).

Definition token_ok (t : tk) : Prop :=
  match t with
  | TW w => w <> [] /\ Forall (fun c => is_word c = true /\ c <> 0) w
  | TS c => c = 43 \/ c = 62 \/ has_char (str "|();&<") c = true
  end.

Lemma at_app pre l i : at_ (pre ++ l) (length pre + i) = nth i l 0.
Proof. unfold at_. rewrite app_nth2 by lia. f_equal. lia. Qed.

Lemma skip_word w r : Forall (fun c => is_word c = true /\ c <> 0) w -> skip_while is_word (w ++ 32 :: r) = length w.
Proof. induction 1 as [|c w [Hc _] _ IH]; simpl; [done|]. by rewrite Hc, IH. Qed.

Lemma skip_blank pre l : (forall c l', l = c :: l' -> is_ws c = false) ->
  skip_ws (pre ++ 32 :: l) (length pre) = (length pre + 1)%nat.
Proof.
  intros H. unfold skip_ws. rewrite drop_app_length. change (skip_while is_ws (32 :: l)) with (S (skip_while is_ws l)).
  destruct l as [|c l]; [done|]. cbn [skip_while]. by rewrite (H c l eq_refl).
Qed.

Lemma sym_char c : has_char (str "|();&<") c = true -> is_ws c = false /\ c <> 0 /\ c <> 62 /\ c <> 97 /\ c <> 43.
Proof.
  rewrite has_char_iff by decide_now. change (str _) with [124; 40; 41; 59; 38; 60]. rewrite !elem_of_cons, elem_of_nil.
  by intros [->|[->|[->|[->|[->|[->|[]]]]]]].
Qed.

Lemma word_char c : is_word c = true -> is_ws c = false /\ has_char (str "|();&<") c = false /\ c <> 62.
Proof.
  unfold is_word. intros [Hw Hs]%andb_true_iff. apply negb_true_iff in Hw, Hs. split; [done|].
  split; [destruct (has_char (str _) c) eqn:E; [|done]|intros ->; done].
  assert (has_char sh_symbols c = true) by (apply symbols_split; by left). congruence.
Qed.

(** The head of a token is not a space. *)
Lemma token_head t r : token_ok t -> exists c l, token_text t ++ r = c :: l /\ is_ws c = false.
Proof.
  destruct t as [[|c w]|c]; simpl.
  - by intros [? _].
  - intros [_ [[Hc _] _]%Forall_cons]. exists c, (w ++ r). split; [done|]. by apply word_char.
  - intros [->|[->|H]]; [by eexists _, _..|]. destruct (sym_char c H) as (H1 & _ & _ & _ & H2).
    rewrite (proj2 (Z.eqb_neq c 43)) by done. by eexists _, _.
Qed.

Lemma show_head ts c l : Forall token_ok ts -> show ts = c :: l -> is_ws c = false.
Proof.
  intros H E. destruct H as [|t ts Ht _]; [done|]. unfold show in E. simpl in E. rewrite <- app_assoc in E.
  destruct (token_head t ([32] ++ concat (map (fun t => token_text t ++ [32]) ts)) Ht) as (c' & l' & E' & Hc).
  rewrite E' in E. by injection E as <- _.
Qed.

(** The token at the head of what is left. *)
Lemma gettoken_show pre t ts : Forall token_ok (t :: ts) ->
  exists tok, gettoken (pre ++ show (t :: ts)) (length pre)
    = (tok, (length pre, (length pre + length (token_text t))%nat), (length pre + length (token_text t) + 1)%nat)
  /\ match t with TW _ => tok = 97 | TS c => tok = c /\ tok <> 0 /\ tok <> 97 end.
Proof.
  intros [Ht Hts]%Forall_cons.
  set (s := pre ++ show (t :: ts)).
  assert (s = (pre ++ token_text t) ++ 32 :: show ts) as Es by (unfold s, show; simpl; by rewrite <- !app_assoc).
  assert (forall i, at_ s (length pre + i) = nth i (token_text t ++ 32 :: show ts) 0) as Hat.
  { intros i. rewrite Es, <- app_assoc. apply at_app. }
  assert (skip_ws s (length pre + length (token_text t)) = (length pre + length (token_text t) + 1)%nat) as Hend.
  { rewrite Es, <- length_app. rewrite skip_blank; [done|]. intros c l. by apply show_head. }
  assert (drop (length pre) s = token_text t ++ 32 :: show ts) as Hdrop by (rewrite Es, <- app_assoc; apply drop_app_length).
  destruct (token_head t (32 :: show ts) Ht) as (c0 & l0 & E0 & Hws).
  pose proof (Hat 0%nat) as H0. rewrite E0, Nat.add_0_r in H0. simpl in H0.
  assert (skip_ws s (length pre) = length pre) as Hskip by (apply skip_ws_stay; by rewrite H0).
  unfold gettoken. rewrite Hskip, H0. destruct t as [w|c]; simpl in Ht.
  - destruct Ht as [Hne Hw]. destruct w as [|c w]; [done|]. simpl in E0. injection E0 as -> <-.
    pose proof Hw as [[Hc Hc0] _]%Forall_cons. destruct (word_char c0 Hc) as (_ & -> & H62).
    rewrite (proj2 (Z.eqb_neq c0 0)), (proj2 (Z.eqb_neq c0 62)) by done.
    exists 97. split; [|done]. rewrite Hdrop. cbn [token_text] in *.
    rewrite (skip_word (c0 :: w)) by done. by rewrite Hend.
  - destruct Ht as [->|[->|Hc]]; simpl in E0.
    + injection E0 as <- _. exists 43. split; [|done]. specialize (Hat 1%nat). simpl in Hat.
      replace (S (S (length pre))) with (length pre + 2)%nat by lia. replace (S (length pre)) with (length pre + 1)%nat by lia.
      rewrite Hat. simpl in Hend |- *. by rewrite Hend.
    + injection E0 as <- <-. exists 62. split; [|done]. specialize (Hat 1%nat). simpl in Hat.
      replace (S (length pre)) with (length pre + 1)%nat by lia. rewrite Hat. simpl in Hend |- *. by rewrite Hend.
    + destruct (sym_char c Hc) as (_ & Hc0 & Hc62 & Hc97 & Hc43). rewrite (proj2 (Z.eqb_neq c 43)) in E0 by done.
      injection E0 as -> _. rewrite (proj2 (Z.eqb_neq c0 0)) by done. rewrite Hc. exists c0. split; [|done].
      simpl in Hend |- *. rewrite (proj2 (Z.eqb_neq c0 43)) in * by done. simpl in *.
      replace (S (length pre)) with (length pre + 1)%nat by lia. by rewrite Hend.
Qed.

Lemma lexes_show pre ts : Forall token_ok ts -> lexes (pre ++ show ts) (length pre) ts.
Proof.
  intros H. revert pre. induction ts as [|t ts IH]; intros pre.
  { constructor. rewrite app_nil_r. apply at_end. pose proof (skip_ws_ge pre (length pre)). lia. }
  destruct (gettoken_show pre t ts H) as (tok & E & Ht). apply Forall_cons in H as [Htok H].
  specialize (IH H (pre ++ token_text t ++ [32])).
  assert ((pre ++ token_text t ++ [32]) ++ show ts = pre ++ show (t :: ts)) as Es by (unfold show; simpl; by rewrite <- !app_assoc).
  rewrite Es in IH. rewrite !length_app in IH. simpl in IH. rewrite Nat.add_assoc in IH.
  destruct t as [w|c].
  - subst tok. replace w with (text (pre ++ show (TW w :: ts)) (length pre, (length pre + length w)%nat)) at 2.
    2: { unfold text. cbn [fst snd]. rewrite drop_app_length. replace (length pre + length w - length pre)%nat with (length w) by lia.
         unfold show. simpl. rewrite <- app_assoc. apply take_app_length. }
    by eapply lexes_word.
  - destruct Ht as (-> & N0 & N97). by eapply lexes_sym.
Qed.

(** The text of a command, its tokens with a blank after each, is parsed
    to that command. *)
Theorem parse_show c ts :
  g_line c ts -> Forall token_ok ts ->
  exists c' buf, parsecmd (show ts) = mret (c', buf) /\ cmd_map (word_at buf) c' = c.
Proof.
  intros G H. apply (parse_iff (show ts) ts c); [|exact (lexes_show [] ts H)|done].
  clear G. unfold show, no_byte. induction H as [|t ts Ht _ IH]; [constructor|]. simpl. rewrite <- app_assoc.
  apply Forall_app. split; [|constructor; [done|exact IH]]. destruct t as [w|c0]; simpl in *.
  - destruct Ht as [_ Hw]. eapply Forall_impl; [exact Hw|]. by intros x [_ ?].
  - destruct Ht as [->|[->|(_ & ? & _)%sym_char]]; [repeat constructor; lia..|]. destruct (c0 =? 43); repeat constructor; lia || done.
Qed.

Definition demo_line : list Z := str "(ls | grep x) > out ; cat < out &".

Lemma parsecmd_grammar_witness : exists ts, lexes demo_line 0 ts
  /\ forall c, g_line c ts <-> exists c' buf, parsecmd demo_line = mret (c', buf) /\ cmd_map (word_at buf) c' = c.
Proof.
  apply (parsecmd_grammar demo_line). repeat (constructor; [discriminate|]). constructor.
Defined.

Lemma parse_show_witness : exists c' buf,
  parsecmd (show [TW (str "a"); TS 62; TW (str "b"); TS 38]) = mret (c', buf)
  /\ cmd_map (word_at buf) c' = BACK (REDIR (EXEC [str "a"]) (str "b") 1537 1).
Proof.
  apply (parse_show (BACK (REDIR (EXEC [str "a"]) (str "b") 1537 1)) [TW (str "a"); TS 62; TW (str "b"); TS 38]).
  - apply (g_line_last (REDIR (EXEC [str "a"]) (str "b") 1537 1) 1 [TW (str "a"); TS 62; TW (str "b")]).
    apply g_pipe_last. apply (g_exec_simple [GWord (str "a"); GRedir 62 (str "b")]).
    + repeat (apply Forall_cons; split); [done|by right; left|constructor].
    + vm_compute. repeat constructor.
  - repeat first [apply Forall_cons; split|apply Forall_nil]; simpl; try done; try (by right; right); try (by right; left); repeat constructor; discriminate.
Defined.
