(* ===== verification/ShRun.v ===== *)
(** * sh.c: running commands

    [runcmd] and the main loop of the shell as programs over the system calls,
    and the theorem on the descriptors of the processes a command line starts:
    every command is executed with exactly the descriptors its place in the line
    calls for, and the shell keeps no end of a pipe open while it waits. *)
From S2P Require Import Prelude State CString Printf Sysfile Uprog Sh ShGrammar.

Open Scope Z_scope.

(** ** The program *)
Definition fork1 : prog Z :=
  pid ← call Fork;
  if pid =? -1 then sh_panic "fork" else mret pid.

(** [runcmd] never returns: after the [switch] it exits with 0. *)
Fixpoint runcmd (c : cmd (list Z)) : prog unit :=
  match c with
  | EXEC [] => Exit 1
  | EXEC (a :: _ as argv) =>
      _ ← call (CallExec a argv);
      _ ← fprintf 2 ("exec %s failed" ++ nl) [SArg a];
      Exit 0
  | REDIR c file mode fd =>
      _ ← call (Close fd);
      r ← call (Open file mode);
      if r <? 0 then
        _ ← fprintf 2 ("open %s failed" ++ nl) [SArg file];
        Exit 1
      else runcmd c
  | LIST lcmd rcmd =>
      pid ← fork1;
      if pid =? 0 then runcmd lcmd
      else
        _ ← call Wait;
        runcmd rcmd
  | PIPE lcmd rcmd =>
      p ← call CallPipe;
      match p with
      | None => sh_panic "pipe"
      | Some (p0, p1) =>
          pid ← fork1;
          if pid =? 0 then
            _ ← call (Close 1); _ ← call (Dup p1); _ ← call (Close p0); _ ← call (Close p1);
            runcmd lcmd
          else
            pid ← fork1;
            if pid =? 0 then
              _ ← call (Close 0); _ ← call (Dup p0); _ ← call (Close p0); _ ← call (Close p1);
              runcmd rcmd
            else
              _ ← call (Close p0); _ ← call (Close p1);
              _ ← call Wait; _ ← call Wait;
              Exit 0
      end
  | BACK c =>
      pid ← fork1;
      if pid =? 0 then runcmd c else Exit 0
  end.

(** [getcmd]: the line, None at the end of the input. *)
Definition getcmd (nbuf : Z) : prog (option (list Z)) :=
  _ ← call (Write 2 (str "$ "));
  buf ← ugets nbuf;
  mret (match cstr buf with [] => None | s => Some s end).

(** The first loop of [main]: descriptors 0, 1 and 2 are open. *)
Fixpoint open_console (fuel : nat) : prog unit :=
  match fuel with
  | O => NoFuel
  | S fuel' =>
      fd ← call (Open (str "console") O_RDWR);
      if 0 <=? fd then
        if 3 <=? fd then _ ← call (Close fd); mret tt
        else open_console fuel'
      else mret tt
  end.

Fixpoint skip_blanks (s : list Z) : list Z :=
  match s with
  | c :: s' => if (c =? 32) || (c =? 9) then skip_blanks s' else s
  | [] => []
  end.

(** The commands of one line; the child runs the parsed command. *)
Definition sh_line (line : list Z) : prog unit :=
  let cmd := skip_blanks line in
  if at_ cmd 0 =? 10 then mret tt
  else if (at_ cmd 0 =? 99) && (at_ cmd 1 =? 100) && (at_ cmd 2 =? 32) then
    let cmd := removelast cmd in
    r ← call (Chdir (drop 3 cmd));
    if r <? 0 then fprintf 2 ("cannot cd %s" ++ nl) [SArg (drop 3 cmd)] else mret tt
  else
    pid ← fork1;
    if pid =? 0 then
      '(c, buf) ← parsecmd cmd;
      runcmd (cmd_map (word_at buf) c)
    else
      _ ← call Wait; mret tt.

Fixpoint sh_loop (fuel : nat) : prog unit :=
  match fuel with
  | O => NoFuel
  | S fuel' =>
      line ← getcmd 100;
      match line with
      | None => Exit 0
      | Some line => _ ← sh_line line; sh_loop fuel'
      end
  end.

Definition sh_main (fuel : nat) : prog unit := _ ← open_console fuel; sh_loop fuel.

(** ** Descriptors *)

(** What a descriptor refers to: something the shell was given, the ends of a
    pipe, an opened file.  A pipe is named by the process that made it and how
    many it had made. *)
Inductive obj :=
| Outer (x : Z)
| PipeR (who : list nat) (n : nat)
| PipeW (who : list nat) (n : nat)
| Opened (path : list Z) (mode : Z).

(** A process: its name, how many children and pipes it has made, its table. *)
Record pst := mkPst { who : list nat; forks : nat; pipes : nat; table : gmap Z obj }.

(** The lowest free descriptor, as fdalloc finds it. *)
Fixpoint lowest_from (fuel : nat) (fd : Z) (t : gmap Z obj) : option Z :=
  match fuel with
  | O => None
  | S fuel' => match t !! fd with None => Some fd | Some _ => lowest_from fuel' (fd + 1) t end
  end.
Definition lowest (t : gmap Z obj) : option Z := lowest_from (Z.to_nat NOFILE) 0 t.

Definition with_table (t : gmap Z obj) (s : pst) : pst := mkPst (who s) (forks s) (pipes s) t.

(** One call: a process goes on as itself, or as its child after a fork. *)
Definition answers (c : sysc) (s : pst) : ans c -> pst -> Prop :=
  match c as c return ans c -> pst -> Prop with
  | Fork => fun r s' =>
      (r = 0 /\ s' = mkPst (forks s :: who s) 0 0 (table s))
      \/ (0 < r /\ s' = mkPst (who s) (S (forks s)) (pipes s) (table s))
      \/ (r = -1 /\ s' = s)
  | CallPipe => fun r s' =>
      match r with
      | None => s' = s
      | Some (f0, f1) =>
          let t0 := <[f0 := PipeR (who s) (pipes s)]> (table s) in
          lowest (table s) = Some f0 /\ lowest t0 = Some f1
          /\ s' = mkPst (who s) (forks s) (S (pipes s)) (<[f1 := PipeW (who s) (pipes s)]> t0)
      end
  | Close fd => fun r s' =>
      r = (match table s !! fd with Some _ => 0 | None => -1 end) /\ s' = with_table (delete fd (table s)) s
  | Dup fd => fun r s' =>
      match table s !! fd, lowest (table s) with
      | Some o, Some f => r = f /\ s' = with_table (<[f := o]> (table s)) s
      | _, _ => r = -1 /\ s' = s
      end
  | Open path mode => fun r s' =>
      (r = -1 /\ s' = s)
      \/ exists f, lowest (table s) = Some f /\ r = f /\ s' = with_table (<[f := Opened path mode]> (table s)) s
  | CallExec _ _ => fun r s' => r = -1 /\ s' = s
  | _ => fun _ s' => s' = s
  end.

(** A process running [p], or one of its descendants, makes the call [x] with
    the table [t]. *)
Fixpoint reaches (p : prog unit) (s : pst) (x : sysc) (t : gmap Z obj) : Prop :=
  match p with
  | Call c k => (x = c /\ t = table s) \/ exists r s', answers c s r s' /\ reaches (k r) s' x t
  | _ => False
  end.

(** ** What a command line promises *)
Definition std (i o e : obj) : gmap Z obj := {[0 := i; 1 := o; 2 := e]}.

(** The calls [exec] and [wait] of the processes of a command run by process
    [who] with standard input [i] and output [o]. *)
Fixpoint wired (c : cmd (list Z)) (w : list nat) (m n : nat) (i o e : obj) (x : sysc) (t : gmap Z obj) : Prop :=
  match c with
  | EXEC [] => False
  | EXEC (a :: _ as argv) => x = CallExec a argv /\ t = std i o e
  | REDIR c file mode fd =>
      if fd =? 0 then wired c w m n (Opened file mode) o e x t
      else wired c w m n i (Opened file mode) e x t
  | LIST lcmd rcmd =>
      (x = Wait /\ t = std i o e) \/ wired lcmd (m :: w) 0 0 i o e x t \/ wired rcmd w (S m) n i o e x t
  | PIPE lcmd rcmd =>
      (x = Wait /\ t = std i o e)
      \/ wired lcmd (m :: w) 0 0 i (PipeW w n) e x t
      \/ wired rcmd (S m :: w) 0 0 (PipeR w n) o e x t
  | BACK c => wired c (m :: w) 0 0 i o e x t
  end.

(** The redirections of the parser are of descriptors 0 and 1. *)
Fixpoint redirs_std (c : cmd (list Z)) : Prop :=
  match c with
  | EXEC _ => True
  | REDIR c _ _ fd => (fd = 0 \/ fd = 1) /\ redirs_std c
  | PIPE l r | LIST l r => redirs_std l /\ redirs_std r
  | BACK c => redirs_std c
  end.

Definition observed (x : sysc) : Prop := match x with CallExec _ _ | Wait => True | _ => False end.

(** ** The processes of a command line *)
Section Reaches.
Context (x : sysc) (t : gmap Z obj) (Hx : observed x).

Lemma reaches_call c (f : ans c -> prog unit) s :
  ~ observed c -> reaches (call c ≫= f) s x t <-> exists r s', answers c s r s' /\ reaches (f r) s' x t.
Proof. intros Hc. simpl. split; [|auto]. intros [[-> _]|H]; done. Qed.

Lemma reaches_writes {A} fd (p : prog A) (f : A -> prog unit) s :
  only (write_to fd) p -> (forall a s, ~ reaches (f a) s x t) -> ~ reaches (p ≫= f) s x t.
Proof.
  intros Hp Hf. revert s. induction p as [a|c k IH|st|]; intros s; simpl in *; [apply Hf| |auto..].
  destruct Hp as [[bs ->] Hk]. intros [[-> _]|(r & s' & _ & H)]; [done|]. by apply (IH r (Hk r) s').
Qed.

Lemma reaches_message fd fmt ap st s : ~ reaches (_ ← fprintf fd fmt ap; Exit st) s x t.
Proof. apply (reaches_writes fd); [apply only_vprintf|auto]. Qed.

Lemma reaches_panic {A} msg (f : A -> prog unit) s : ~ reaches (sh_panic msg ≫= f) s x t.
Proof.
  unfold sh_panic. pose proof (only_vprintf 2 (str ("%s" ++ nl)) [SArg (str msg)]) as Hp.
  change (vprintf _ _ _) with (fprintf 2 ("%s" ++ nl) [SArg (str msg)]) in Hp. revert Hp s. generalize (fprintf 2 ("%s" ++ nl) [SArg (str msg)]).
  intros p. induction p as [a|c k IH|st|]; intros Hp s; simpl in *; [auto| |auto..].
  destruct Hp as [[bs ->] Hk]. intros [[-> _]|(r & s' & _ & H)]; [done|]. by apply (IH r (Hk r) s').
Qed.

Lemma reaches_fork1 (f : Z -> prog unit) s :
  reaches (fork1 ≫= f) s x t
  <-> reaches (f 0) (mkPst (forks s :: who s) 0 0 (table s)) x t
      \/ exists pid, 0 < pid /\ reaches (f pid) (mkPst (who s) (S (forks s)) (pipes s) (table s)) x t.
Proof.
  unfold fork1. change ((call Fork ≫= ?g) ≫= f) with (call Fork ≫= (fun pid => g pid ≫= f)). rewrite (reaches_call Fork _ s) by auto. split.
  - intros (pid & s' & [[-> ->]|[[Hp ->]|[-> ->]]] & H).
    + by left.
    + right. exists pid. rewrite (proj2 (Z.eqb_neq pid (-1))) in H by lia. done.
    + exfalso. revert H. apply reaches_panic.
  - intros [H|(pid & Hp & H)].
    + exists 0, (mkPst (forks s :: who s) 0 0 (table s)). split; [by left|done].
    + exists pid, (mkPst (who s) (S (forks s)) (pipes s) (table s)). split; [by right; left|].
      by rewrite (proj2 (Z.eqb_neq pid (-1))) by lia.
Qed.

Lemma reaches_close fd (p : prog unit) s :
  reaches (_ ← call (Close fd); p) s x t <-> reaches p (with_table (delete fd (table s)) s) x t.
Proof.
  rewrite (reaches_call (Close fd) _ s) by auto. split.
  - by intros (r & s' & [_ ->] & H).
  - intros H. eexists _, _. by split.
Qed.

Lemma reaches_dup fd (p : prog unit) s o f :
  table s !! fd = Some o -> lowest (table s) = Some f ->
  reaches (_ ← call (Dup fd); p) s x t <-> reaches p (with_table (<[f := o]> (table s)) s) x t.
Proof.
  intros Eo Ef. rewrite (reaches_call (Dup fd) _ s) by auto. unfold answers. rewrite Eo, Ef. split.
  - by intros (r & s' & [_ ->] & H).
  - intros H. by eexists _, _.
Qed.

Lemma reaches_wait (p : prog unit) s :
  reaches (_ ← call Wait; p) s x t <-> (x = Wait /\ t = table s) \/ reaches p s x t.
Proof.
  simpl. split.
  - intros [H|(r & s' & -> & H)]; auto.
  - intros [H|H]; [auto|]. right. by exists 0, s.
Qed.

Lemma reaches_pipe (f : option (Z * Z) -> prog unit) s f0 f1 :
  (forall s, ~ reaches (f None) s x t) ->
  lowest (table s) = Some f0 -> lowest (<[f0 := PipeR (who s) (pipes s)]> (table s)) = Some f1 ->
  reaches (call CallPipe ≫= f) s x t
  <-> reaches (f (Some (f0, f1))) (mkPst (who s) (forks s) (S (pipes s))
        (<[f1 := PipeW (who s) (pipes s)]> (<[f0 := PipeR (who s) (pipes s)]> (table s)))) x t.
Proof.
  intros Hf E0 E1. rewrite (reaches_call CallPipe f s) by auto. split.
  - intros ([[g0 g1]|] & s' & H & Hr); [|by apply Hf in Hr]. destruct H as (G0 & G1 & ->).
    rewrite E0 in G0. injection G0 as <-. rewrite E1 in G1. by injection G1 as <-.
  - intros H. exists (Some (f0, f1)). eexists. split; [by split_and!|done].
Qed.

Lemma reaches_open path mode (f : Z -> prog unit) s g :
  lowest (table s) = Some g -> (forall s, ~ reaches (f (-1)) s x t) ->
  reaches (call (Open path mode) ≫= f) s x t <-> reaches (f g) (with_table (<[g := Opened path mode]> (table s)) s) x t.
Proof.
  intros Eg Hf. rewrite (reaches_call (Open path mode) f s) by auto. split.
  - intros (r & s' & [[-> ->]|(g' & E & -> & ->)] & H); [by apply Hf in H|]. rewrite Eg in E. by injection E as <-.
  - intros H. eexists _, _. split; [right; by exists g|done].
Qed.
End Reaches.

Lemma or_parts (A B C D W : Prop) : (A <-> C) -> (B <-> W \/ D) -> A \/ B <-> W \/ C \/ D.
Proof. tauto. Qed.

Lemma or_iff (A B C D : Prop) : (A <-> C) -> (B <-> D) -> A \/ B <-> C \/ D.
Proof. tauto. Qed.

(** A parent goes on in the same way for every pid of its child. *)
Lemma parent_iff (R : Z -> Prop) (Q : Prop) : (forall pid, 0 < pid -> R pid <-> Q) -> (exists pid, 0 < pid /\ R pid) <-> Q.
Proof. intros H. split; [intros (pid & Hp & Hr); by apply (H pid)|intros HQ; exists 1; split; [lia|by apply H]]. Qed.

Lemma runcmd_wiring c w m n i o e x t :
  redirs_std c -> observed x ->
  reaches (runcmd c) (mkPst w m n (std i o e)) x t <-> wired c w m n i o e x t.
Proof.
  intros Hc Hx. revert w m n i o e Hc.
  induction c as [argv|c IH file mode fd|l IHl r IHr|l IHl r IHr|c IH]; intros w m n i o e Hc; cbn [runcmd wired].
  - destruct argv as [|a argv]; [done|]. split.
    + intros [H|(r & s' & [-> ->] & H)]; [done|]. exfalso. revert H. by apply reaches_message.
    + intros [-> ->]. by left.
  - destruct Hc as [Hfd Hc]. rewrite reaches_close by done. destruct Hfd as [-> | ->].
    + rewrite (reaches_open x t Hx file mode _ _ 0) by (reflexivity || (intros s; by apply reaches_message)). apply (IH w m n (Opened file mode) o e Hc).
    + rewrite (reaches_open x t Hx file mode _ _ 1) by (reflexivity || (intros s; by apply reaches_message)). apply (IH w m n i (Opened file mode) e Hc).
  - destruct Hc as [Hl Hr]. rewrite (reaches_pipe x t Hx _ _ 3 4) by (reflexivity || (intros s; by apply reaches_message)).
    rewrite reaches_fork1 by done. cbn [who forks pipes table].
    apply or_parts.
    + change (0 =? 0) with true. cbn [mbind].
      rewrite reaches_close, (reaches_dup x t Hx 4 _ _ (PipeW w n) 1), !reaches_close by (done || reflexivity).
      apply (IHl (m :: w) 0%nat 0%nat i (PipeW w n) e Hl).
    + apply parent_iff. intros pid Hpid. rewrite (proj2 (Z.eqb_neq pid 0)) by lia. rewrite reaches_fork1 by done.
      cbn [who forks pipes table]. rewrite Logic.or_comm. apply or_iff.
      * apply parent_iff. intros pid' Hpid'. rewrite (proj2 (Z.eqb_neq pid' 0)) by lia.
        rewrite !reaches_close by done. change (with_table _ _) with (mkPst w (S (S m)) (S n) (std i o e)).
        rewrite !reaches_wait by done. cbn [table reaches]. tauto.
      * change (0 =? 0) with true. rewrite reaches_close, (reaches_dup x t Hx 3 _ _ (PipeR w n) 0), !reaches_close by (done || reflexivity).
        apply (IHr (S m :: w) 0%nat 0%nat (PipeR w n) o e Hr).
  - destruct Hc as [Hl Hr]. rewrite reaches_fork1 by done. cbn [who forks pipes table].
    apply or_parts.
    + apply (IHl (m :: w) 0%nat 0%nat i o e Hl).
    + apply parent_iff. intros pid Hpid. rewrite (proj2 (Z.eqb_neq pid 0)) by lia. rewrite reaches_wait by done.
      by rewrite (IHr w (S m) n i o e Hr).
  - rewrite reaches_fork1 by done. cbn [who forks pipes table]. change (0 =? 0) with true. cbn iota.
    rewrite (IH (m :: w) 0%nat 0%nat i o e Hc). split; [|by left]. intros [H|(pid & Hpid & H)]; [done|].
    by rewrite (proj2 (Z.eqb_neq pid 0)) in H by lia.
Qed.

(** The redirections of the grammar are of descriptors 0 and 1. *)
Lemma redirect_std l c : redirs_std c -> redirs_std (fold_left redirect l c).
Proof.
  revert c. induction l as [|[w|op file] l IH]; intros c Hc; [done|by apply IH|]. apply IH. simpl redirect.
  destruct op as [|op|op]; try (split; [by right|done]).
  repeat (destruct op as [op|op|]; try (split; [by right|done]); try (split; [by left|done])).
Qed.

Lemma back_std k c : redirs_std c -> redirs_std (Nat.iter k BACK c).
Proof. by induction k. Qed.

Lemma grammar_std :
  (forall c ts, g_line c ts -> redirs_std c) /\ (forall c ts, g_pipe c ts -> redirs_std c)
  /\ (forall c ts, g_exec c ts -> redirs_std c).
Proof. apply grammar_ind; intros; simpl; auto using back_std, redirect_std. by apply redirect_std. Qed.

(** C34: The processes of a command line have exactly the descriptors it asks
    for: whatever the answers of the kernel, when a process started for a parsed line
    calls exec or wait its table holds the standard input, output and error of
    its place in the line and nothing else.  The ends of a pipe are the output of
    its left command and the input of its right command, a redirection replaces
    one of the two, and a waiting shell holds neither end.  Conversely every
    such call is made for some answers. *)
Theorem line_wiring s c buf w m n i o e x t :
  no_byte 0 s -> parsecmd s = mret (c, buf) -> observed x ->
  reaches (runcmd (cmd_map (word_at buf) c)) (mkPst w m n (std i o e)) x t
  <-> wired (cmd_map (word_at buf) c) w m n i o e x t.
Proof.
  intros H0 E Hx. apply runcmd_wiring; [|done]. destruct (lexes_exists s 0 ltac:(lia)) as [ts H].
  apply (proj1 grammar_std _ ts). apply (parse_iff s ts _ H0 H). by exists c, buf.
Qed.

Definition demo_pipeline : list Z := str "ls | grep x > out".

Definition demo_cmd : cmd span := 
  PIPE (EXEC [(0, 2)%nat]) (REDIR (EXEC [(5, 9)%nat; (10, 11)%nat]) (14, 17)%nat 1537 1).
Definition demo_buf : list Z := nulterminate demo_cmd (demo_pipeline ++ [0]).

Lemma line_wiring_witness : parsecmd demo_pipeline = mret (demo_cmd, demo_buf)
  /\ let t := std (PipeR [] 0) (Opened (str "out") 1537) (Outer 2) in
     let x := CallExec (str "grep") [str "grep"; str "x"] in
     reaches (runcmd (cmd_map (word_at demo_buf) demo_cmd)) (mkPst [] 0 0 (std (Outer 0) (Outer 1) (Outer 2))) x t
     <-> wired (cmd_map (word_at demo_buf) demo_cmd) [] 0 0 (Outer 0) (Outer 1) (Outer 2) x t.
Proof.
  split; [vm_compute; reflexivity|]. intros t x.
  apply (line_wiring demo_pipeline demo_cmd demo_buf).
  - repeat (constructor; [discriminate|]). constructor.
  - vm_compute. reflexivity.
  - exact I.
Defined.
