(* ===== verification/Grind.v ===== *)
(** * user/grind.c: random system calls

    [do_rand] is the generator of Park and Miller, computed without a product
    that leaves 32 bits; [go] makes system calls picked by it, [iter] runs two
    processes of them and [grind_main] starts that again and again.

    The theorems are about the generator: the code computes the step it names,
    in the range it names, and a run of it comes back to a value exactly when it
    has been through all of them. *)
From S2P Require Import Prelude State CString Printf Sysproc Sysfile Uprog.
From Stdlib Require Import Znumtheory Zpow_facts.

Open Scope Z_scope.

(** The new value of [*ctx], an [unsigned long]; the result is its [int].  The
    division and the remainder of C round towards zero. *)
Definition do_rand (ctx : Z) : Z :=
  let x := int64 (wrap64 (ctx mod 2147483646 + 1)) in
  let hi := Z.quot x 127773 in
  let lo := Z.rem x 127773 in
  let x := int64 (16807 * lo - 2836 * hi) in
  let x := if x <? 0 then int64 (x + 2147483647) else x in
  wrap64 (int64 (x - 1)).

(** [rand]: the result and the new [rand_next]. *)
Definition rand (rand_next : Z) : Z * Z := let x := do_rand rand_next in (int32 x, x).

Definition O_RW : Z := Z.lor O_CREATE O_RDWR.

(** ulib.c *)
Definition usbrk (n : Z) : prog Z := call (CallSbrk n SBRK_EAGER).

Definition open_close (path : string) : prog unit :=
  fd ← call (Open (str path) O_RW); _ ← call (Close fd); mret tt.
Definition grind_fail (msg : string) : prog unit := _ ← uprintf ("grind: " ++ msg ++ " failed" ++ nl) []; Exit 1.
Definition grind_fail2 (msg : string) (st : Z) : prog unit := _ ← fprintf 2 ("grind: " ++ msg ++ nl) []; Exit st.

(** The variables of [go] that live through a turn of its loop. *)
Record grinder := mkGrinder { g_fd : Z; g_buf : list Z; g_iters : Z; g_rand : Z }.
Definition set_fd (fd : Z) (g : grinder) : grinder := mkGrinder fd (g_buf g) (g_iters g) (g_rand g).
Definition set_buf (buf : list Z) (g : grinder) : grinder := mkGrinder (g_fd g) buf (g_iters g) (g_rand g).

(** What a [read] into the start of [buf] leaves there. *)
Definition filled (buf : list Z) (r : option (list Z)) : list Z :=
  match r with Some bs => bs ++ drop (length bs) buf | None => buf end.

(** [fork], the child ending with [child], and [parent pid] in the parent. *)
Definition forked (child : prog unit) (parent : Z -> prog unit) : prog unit :=
  pid ← call Fork;
  if pid =? 0 then child
  else if pid <? 0 then grind_fail "fork"
  else parent pid.
Definition reap_one : prog unit := _ ← call Wait; mret tt.

(** Turn 19: every process of the child's writes a byte to the pipe and reads one. *)
Definition grind_pipe : prog unit :=
  fds ← call CallPipe;
  match fds with
  | None => grind_fail "pipe"
  | Some (fds0, fds1) =>
      forked
        (_ ← call Fork; _ ← call Fork;
         n ← call (Write fds1 (str "x"));
         _ ← (if negb (n =? 1) then uprintf ("grind: pipe write failed" ++ nl) [] else mret tt);
         r ← call (Read fds0 1);
         _ ← (match r with Some [_] => mret tt | _ => uprintf ("grind: pipe read failed" ++ nl) [] end);
         Exit 0)
        (fun _ => _ ← call (Close fds0); _ ← call (Close fds1); reap_one)
  end.

(** Turn 21. *)
Definition grind_create : prog unit :=
  _ ← call (Unlink (str "c"));
  fd1 ← call (Open (str "c") O_RW);
  if fd1 <? 0 then grind_fail "create c" else
  n ← call (Write fd1 (str "x"));
  if negb (n =? 1) then grind_fail "write c" else
  st ← call (Fstat fd1);
  match st with
  | None => grind_fail "fstat"
  | Some st =>
      if negb (st_size st =? 1) then
        _ ← uprintf ("grind: fstat reports wrong size %d" ++ nl) [AInt (int32 (st_size st))]; Exit 1
      else if 200 <? st_ino st then
        _ ← uprintf ("grind: fstat reports crazy i-number %d" ++ nl) [AInt (st_ino st)]; Exit 1
      else _ ← call (Close fd1); _ ← call (Unlink (str "c")); mret tt
  end.

(** The children of turn 22, and what their parent does once they are started:
    [junk1] and [junk2] are the values of [st1] and [st2] before the calls of
    [wait], which a call that fails leaves there. *)
Definition grind_echo (aa0 aa1 bb0 bb1 : Z) : prog unit :=
  _ ← call (Close bb0); _ ← call (Close bb1); _ ← call (Close aa0); _ ← call (Close 1);
  d ← call (Dup aa1);
  if negb (d =? 1) then grind_fail2 "dup failed" 1 else
  _ ← call (Close aa1);
  _ ← call (CallExec (str "grindir/../echo") [str "echo"; str "hi"]);
  grind_fail2 "echo: not found" 2.

Definition grind_cat (aa0 aa1 bb0 bb1 : Z) : prog unit :=
  _ ← call (Close aa1); _ ← call (Close bb0); _ ← call (Close 0);
  d ← call (Dup aa0);
  if negb (d =? 0) then grind_fail2 "dup failed" 4 else
  _ ← call (Close aa0); _ ← call (Close 1);
  d ← call (Dup bb1);
  if negb (d =? 1) then grind_fail2 "dup failed" 5 else
  _ ← call (Close bb1);
  _ ← call (CallExec (str "/cat") [str "cat"]);
  grind_fail2 "cat: not found" 6.

Definition read1 (fd : Z) : prog Z :=
  r ← call (Read fd 1); mret (match r with Some (c :: _) => c | _ => 0 end).
Definition wait_st (st : Z) : prog Z :=
  r ← call CallWait; mret (match r with Some (_, st) => st | None => st end).

(** The string in a buffer: what is before its first nul. *)
Fixpoint until_nul (buf : list Z) : list Z :=
  match buf with [] => [] | c :: rest => if c =? 0 then [] else c :: until_nul rest end.

Definition grind_collect (junk1 junk2 aa0 aa1 bb0 bb1 : Z) : prog unit :=
  _ ← call (Close aa0); _ ← call (Close aa1); _ ← call (Close bb1);
  c0 ← read1 bb0; c1 ← read1 bb0; c2 ← read1 bb0;
  let buf := until_nul [c0; c1; c2; 0] in
  _ ← call (Close bb0);
  st1 ← wait_st junk1;
  st2 ← wait_st junk2;
  if negb (st1 =? 0) || negb (st2 =? 0) || negb (strcmp buf (str ("hi" ++ nl)) =? 0) then
    _ ← vprintf 1 (str "grind: exec pipeline failed %d %d " ++ [34] ++ str "%s" ++ [34; 10])
          [AInt st1; AInt st2; SArg buf];
    Exit 1
  else mret tt.

Definition grind_pipeline (junk1 junk2 : Z) : prog unit :=
  aa ← call CallPipe;
  match aa with
  | None => grind_fail2 "pipe failed" 1
  | Some (aa0, aa1) =>
      bb ← call CallPipe;
      match bb with
      | None => grind_fail2 "pipe failed" 1
      | Some (bb0, bb1) =>
          pid1 ← call Fork;
          if pid1 =? 0 then grind_echo aa0 aa1 bb0 bb1
          else if pid1 <? 0 then grind_fail2 "fork failed" 3
          else
          pid2 ← call Fork;
          if pid2 =? 0 then grind_cat aa0 aa1 bb0 bb1
          else if pid2 <? 0 then grind_fail2 "fork failed" 7
          else grind_collect junk1 junk2 aa0 aa1 bb0 bb1
      end
  end.

(** One turn of [go], after [what] is picked: the turns that keep the variables
    first. *)
Definition grind_call (what break0 junk1 junk2 : Z) : prog unit :=
  if what =? 1 then open_close "grindir/../a"
  else if what =? 2 then open_close "grindir/../grindir/../b"
  else if what =? 3 then _ ← call (Unlink (str "grindir/../a")); mret tt
  else if what =? 4 then
    r ← call (Chdir (str "grindir"));
    if negb (r =? 0) then grind_fail "chdir grindir" else
    _ ← call (Unlink (str "../b")); _ ← call (Chdir (str "/")); mret tt
  else if what =? 9 then
    _ ← call (Mkdir (str "grindir/../a")); _ ← open_close "a/../a/./a";
    _ ← call (Unlink (str "a/a")); mret tt
  else if what =? 10 then
    _ ← call (Mkdir (str "/../b")); _ ← open_close "grindir/../b/b";
    _ ← call (Unlink (str "b/b")); mret tt
  else if what =? 11 then
    _ ← call (Unlink (str "b")); _ ← call (Link (str "../grindir/./../a") (str "../b")); mret tt
  else if what =? 12 then
    _ ← call (Unlink (str "../grindir/../a")); _ ← call (Link (str ".././b") (str "/grindir/../a")); mret tt
  else if what =? 13 then forked (Exit 0) (fun _ => reap_one)
  else if what =? 14 then forked (_ ← call Fork; _ ← call Fork; Exit 0) (fun _ => reap_one)
  else if what =? 15 then _ ← usbrk 6011; mret tt
  else if what =? 16 then
    b ← usbrk 0;
    if break0 <? b then b' ← usbrk 0; _ ← usbrk (int32 (- (b' - break0))); mret tt else mret tt
  else if what =? 17 then
    forked (_ ← open_close "a"; Exit 0)
      (fun pid =>
         r ← call (Chdir (str "../grindir/.."));
         if negb (r =? 0) then grind_fail "chdir" else
         _ ← call (Kill pid); reap_one)
  else if what =? 18 then
    forked (pid ← call CallGetpid; _ ← call (Kill pid); Exit 0) (fun _ => reap_one)
  else if what =? 19 then grind_pipe
  else if what =? 20 then
    forked (_ ← call (Unlink (str "a")); _ ← call (Mkdir (str "a")); _ ← call (Chdir (str "a"));
            _ ← call (Unlink (str "../a")); _ ← call (Open (str "x") O_RW);
            _ ← call (Unlink (str "x")); Exit 0)
      (fun _ => reap_one)
  else if what =? 21 then grind_create
  else if what =? 22 then grind_pipeline junk1 junk2
  else mret tt.

Definition grind_turn (what break0 junk1 junk2 : Z) (g : grinder) : prog grinder :=
  if what =? 5 then
    _ ← call (Close (g_fd g)); fd ← call (Open (str "/grindir/../a") O_RW); mret (set_fd fd g)
  else if what =? 6 then
    _ ← call (Close (g_fd g)); fd ← call (Open (str "/./grindir/./../b") O_RW); mret (set_fd fd g)
  else if what =? 7 then _ ← call (Write (g_fd g) (g_buf g)); mret g
  else if what =? 8 then r ← call (Read (g_fd g) 999); mret (set_buf (filled (g_buf g) r) g)
  else _ ← grind_call what break0 junk1 junk2; mret g.

(** The loop of [go]; [junk] gives the values of [st1] and [st2] in each turn. *)
Fixpoint go_loop (fuel : nat) (which_child break0 : Z) (junk : Z -> Z * Z) (g : grinder) : prog unit :=
  match fuel with
  | O => NoFuel
  | S fuel' =>
      let iters := wrap64 (g_iters g + 1) in
      _ ← (if iters mod 500 =? 0 then
             _ ← call (Write 1 (if negb (which_child =? 0) then str "B" else str "A")); mret tt
           else mret tt);
      let '(r, rand_next) := rand (g_rand g) in
      let what := Z.rem r 23 in
      g' ← grind_turn what break0 (junk iters).1 (junk iters).2 (mkGrinder (g_fd g) (g_buf g) iters rand_next);
      go_loop fuel' which_child break0 junk g'
  end.

Definition go (fuel : nat) (which_child rand_next : Z) (junk : Z -> Z * Z) : prog unit :=
  break0 ← usbrk 0;
  _ ← call (Mkdir (str "grindir"));
  r ← call (Chdir (str "grindir"));
  if negb (r =? 0) then grind_fail "chdir grindir" else
  _ ← call (Chdir (str "/"));
  go_loop fuel which_child break0 junk (mkGrinder (-1) (replicate 999 0) 0 rand_next).

Definition iter (fuel : nat) (rand_next : Z) (junk : Z -> Z * Z) : prog unit :=
  _ ← call (Unlink (str "a"));
  _ ← call (Unlink (str "b"));
  pid1 ← call Fork;
  if pid1 <? 0 then grind_fail "fork"
  else if pid1 =? 0 then _ ← go fuel 0 (Z.lxor rand_next 31) junk; Exit 0
  else
  pid2 ← call Fork;
  if pid2 <? 0 then grind_fail "fork"
  else if pid2 =? 0 then _ ← go fuel 1 (Z.lxor rand_next 7177) junk; Exit 0
  else
  st1 ← wait_st (-1);
  _ ← (if negb (st1 =? 0) then _ ← call (Kill pid1); _ ← call (Kill pid2); mret tt else mret tt);
  _ ← wait_st (-1);
  Exit 0.

Fixpoint grind_loop (fuel : nat) (rand_next : Z) (junk : Z -> Z * Z) : prog unit :=
  match fuel with
  | O => NoFuel
  | S fuel' =>
      pid ← call Fork;
      if pid =? 0 then _ ← iter fuel rand_next junk; Exit 0 else
      _ ← (if 0 <? pid then reap_one else mret tt);
      _ ← call (Pause 20);
      grind_loop fuel' (wrap64 (rand_next + 1)) junk
  end.

Definition grind_main (fuel : nat) (junk : Z -> Z * Z) : prog unit := grind_loop fuel 1 junk.

(** ** The generator *)

(** 2^31 - 1, and the values the generator takes: [0, 2^31 - 2). *)
Definition rand_mod : Z := 2147483647.
Definition rand_count : Z := 2147483646.

Lemma rand_mult_zero x : (16807 * x) mod rand_mod = 0 -> x mod rand_mod = 0.
Proof.
  intros H. replace x with (1407677000 * (16807 * x) - rand_mod * (x * 11017)) by (unfold rand_mod; lia).
  rewrite Zminus_mod, Zmult_mod, H. rewrite (Z.mul_comm rand_mod), Z_mod_mult. by rewrite Z.mul_0_r.
Qed.

(** The product modulo 2^31 - 1 as the code computes it, and no intermediate
    value leaves 32 bits. *)
Lemma schrage x :
  0 < x < rand_mod ->
  let y := 16807 * (Z.rem x 127773) - 2836 * (Z.quot x 127773) in
  - 2 ^ 31 < y < 2 ^ 31 /\ 0 < (16807 * x) mod rand_mod
  /\ (16807 * x) mod rand_mod = if y <? 0 then y + rand_mod else y.
Proof.
  intros Hx y. assert (Hy : y = 16807 * x - rand_mod * (x / 127773)).
  { unfold y. rewrite Z.rem_mod_nonneg, Z.quot_div_nonneg by lia.
    pose proof (Z.div_mod x 127773). unfold rand_mod in *. lia. }
  assert (Hb : - rand_mod < y < rand_mod).
  { unfold y. rewrite Z.rem_mod_nonneg, Z.quot_div_nonneg by lia.
    pose proof (Z.mod_pos_bound x 127773 ltac:(lia)). unfold rand_mod in *.
    assert (0 <= x / 127773 <= 16807) by (split; [apply Z.div_pos; lia|apply Z.lt_succ_r, Z.div_lt_upper_bound; lia]). lia. }
  assert (Hp : 0 < (16807 * x) mod rand_mod).
  { pose proof (Z.mod_pos_bound (16807 * x) rand_mod ltac:(done)).
    destruct (decide ((16807 * x) mod rand_mod = 0)) as [E|]; [|lia].
    apply rand_mult_zero in E. rewrite Z.mod_small in E; lia. }
  split; [unfold rand_mod in Hb; lia|split; [done|]].
  destruct (Z.ltb_spec y 0).
  - symmetry. apply (Z.mod_unique_pos _ _ (x / 127773 - 1)); lia.
  - symmetry. apply (Z.mod_unique_pos _ _ (x / 127773)); lia.
Qed.

(** For every value of the context, [do_rand] computes 7^5 * x mod (2^31 - 1) on
    the context moved into [1, 2^31 - 2], and moves the result back into
    [0, 2^31 - 3]. *)
Lemma do_rand_step ctx :
  do_rand ctx = (16807 * (ctx mod rand_count + 1)) mod rand_mod - 1
  /\ 0 <= do_rand ctx < rand_count.
Proof.
  pose proof (Z.mod_pos_bound ctx rand_count ltac:(done)) as Hc. unfold do_rand. fold rand_count.
  set (x := ctx mod rand_count + 1). assert (Hx : 0 < x < rand_mod) by (unfold x, rand_mod, rand_count in *; lia).
  destruct (schrage x Hx) as (Hb & Hp & E). pose proof (Z.mod_pos_bound (16807 * x) rand_mod ltac:(done)) as Hm.
  assert (S : forall z, - 2 ^ 32 < z < 2 ^ 32 -> int64 z = z).
  { intros z Hz. apply int64_small. lia. }
  assert (W : forall z, 0 <= z < 2 ^ 32 -> wrap64 z = z) by (intros z Hz; apply wrap64_small; lia).
  unfold rand_mod, rand_count in *.
  rewrite (W x), (S x), (S (16807 * _ - _)) by lia. revert E Hb. cbv zeta.
  set (y := 16807 * Z.rem x 127773 - 2836 * Z.quot x 127773). intros E Hb.
  destruct (Z.ltb_spec y 0); rewrite ?(S (y + _)), S, W by lia; lia.
Qed.

Lemma rand_iter n s :
  0 <= s < rand_count -> Nat.iter n do_rand s = (16807 ^ Z.of_nat n * (s + 1)) mod rand_mod - 1.
Proof.
  intros Hs. induction n as [|n IH].
  - rewrite Z.mod_small by (unfold rand_mod, rand_count in *; lia). cbn. lia.
  - cbn [Nat.iter nat_rect]. change (nat_rect _ _ _ n) with (Nat.iter n do_rand s).
    assert (Hr : 0 <= Nat.iter n do_rand s < rand_count) by (destruct n; [done|apply do_rand_step]).
    rewrite (proj1 (do_rand_step _)), (Z.mod_small (Nat.iter n do_rand s)) by done.
    rewrite IH, Z.sub_add, Z.mul_mod_idemp_r by done.
    rewrite Nat2Z.inj_succ, Z.pow_succ_r by lia. by rewrite Z.mul_assoc.
Qed.

(** *** The order of 7^5 modulo 2^31 - 1 *)
Definition is_order (k : Z) : Prop := 16807 ^ k mod rand_mod = 1.

Lemma is_order_add i j : 0 <= i -> 0 <= j -> is_order j -> is_order (i + j) <-> is_order i.
Proof.
  intros Hi Hj Ej. unfold is_order in *. by rewrite Z.pow_add_r, Zmult_mod, Ej, Z.mul_1_r, Z.mod_mod by done.
Qed.

Lemma is_order_mul u k : 0 <= u -> 0 <= k -> is_order k -> is_order (u * k).
Proof.
  intros Hu Hk Ek. revert u Hu. apply natlike_ind; [done|]. intros u Hu IH.
  rewrite Z.mul_succ_l. apply is_order_add; [lia|done|done|done].
Qed.

Lemma is_order_gcd k m : 0 <= k -> 0 < m -> is_order k -> is_order m -> is_order (Z.gcd k m).
Proof.
  intros Hk Hm Ek Em. destruct (Z.gcd_bezout k m _ eq_refl) as (u & v & E).
  pose proof (Z.mod_pos_bound u m Hm). pose proof (Z.gcd_nonneg k m). set (w := - v - (u / m) * k).
  assert (Ew : u mod m * k = Z.gcd k m + w * m) by (pose proof (Z.div_mod u m ltac:(lia)); unfold w; nia).
  pose proof (is_order_mul (u mod m) k ltac:(lia) Hk Ek) as Eu.
  destruct (decide (0 <= w)) as [Hw|Hw].
  - rewrite Ew in Eu. apply is_order_add in Eu; [done|done|nia|by apply is_order_mul; [|lia|]].
  - replace (Z.gcd k m) with (u mod m * k + (- w) * m) by lia.
    apply is_order_add; [nia|nia|by apply is_order_mul; [lia|lia|]|done].
Qed.

Lemma prime_check p : 1 < p -> forallb (fun n => Z.gcd n p =? 1) (seqZ 1 (p - 1)) = true -> prime p.
Proof.
  intros Hp H. constructor; [done|]. intros n Hn. apply Zgcd_1_rel_prime, Z.eqb_eq.
  rewrite forallb_forall in H. apply H, list_elem_of_In, elem_of_seqZ. lia.
Qed.

Definition rand_factors : list Z := [2; 3; 7; 11; 31; 151; 331].

Lemma rand_factors_prime q : q ∈ rand_factors -> prime q.
Proof. revert q. apply Forall_forall. repeat apply Forall_cons_2; try apply Forall_nil_2; by apply prime_check. Qed.

#[local] Instance divide_decision : RelDecision Z.divide := Zdivide_dec.

Lemma rand_factor_divides c : 1 < c -> (c | rand_count) -> Exists (fun q => (q | c)) rand_factors.
Proof.
  intros Hc Hd. destruct (decide (Exists (fun q => (q | c)) rand_factors)) as [|Hn]; [done|exfalso].
  assert (Hr : Forall (fun q => rel_prime c q) rand_factors).
  { apply not_Exists_Forall in Hn; [|apply _]. rewrite Forall_forall in *. intros q Hq.
    apply rel_prime_sym, prime_rel_prime; [|by apply Hn]. by apply rand_factors_prime. }
  unfold rand_factors in Hr. repeat (apply Forall_cons in Hr as [? Hr]).
  assert (rel_prime c rand_count) as [_ _ Hu].
  { change rand_count with (2 * (3 * (3 * (7 * (11 * (31 * (151 * 331))))))). by repeat apply rel_prime_mult. }
  specialize (Hu c (Z.divide_refl c) Hd). apply Z.divide_1_r_nonneg in Hu; lia.
Qed.

Lemma is_order_check k : Zpow_mod 16807 k rand_mod = 16807 ^ k mod rand_mod.
Proof. by apply Zpow_mod_correct. Qed.

(** The powers of 7^5 are 1 modulo 2^31 - 1 exactly for the multiples of 2^31 - 2. *)
Lemma is_order_iff k : 0 <= k -> is_order k <-> (rand_count | k).
Proof.
  intros Hk. assert (EN : is_order rand_count) by (unfold is_order; rewrite <- is_order_check; by vm_compute).
  split.
  - intros Ek. pose proof (is_order_gcd k rand_count Hk ltac:(done) Ek EN) as Eg.
    destruct (Z.gcd_divide_r k rand_count) as [c Hc]. pose proof (Z.gcd_nonneg k rand_count).
    pose proof (Z.gcd_divide_l k rand_count) as Hgk. revert Eg Hc H Hgk. generalize (Z.gcd k rand_count) as g.
    intros g Eg Hc Hg Hgk. assert (0 < rand_count) by done. assert (g <> 0) by (intros ->; lia). assert (Hc0 : 0 < c) by (clear -Hc H Hg; nia).
    destruct (decide (c = 1)) as [->|Hc1]; [by rewrite Hc, Z.mul_1_l|exfalso].
    assert (He : Exists (fun q => (q | c)) rand_factors) by (apply rand_factor_divides; [lia|exists g; lia]).
    apply Exists_exists in He as (q & Hq & d & ->).
    pose proof (prime_ge_2 q (rand_factors_prime q Hq)) as Hq2.
    assert (Eq : rand_count / q = d * g) by (symmetry; apply Z.div_unique_exact; lia).
    assert (Ed : is_order (rand_count / q)) by (rewrite Eq; apply is_order_mul; [clear -Hc0 Hq2; nia|lia|done]).
    revert Ed. unfold is_order. rewrite <- is_order_check. clear -Hq.
    repeat (apply elem_of_cons in Hq as [->|Hq]; [by vm_compute|]). by apply elem_of_nil in Hq.
  - intros [u ->]. apply is_order_mul; [unfold rand_count in *; lia|done|done].
Qed.

(** An injection of [0, m) into itself takes every value. *)
Lemma bounded_surjective (m : Z) (f : Z -> Z) v :
  (forall i, 0 <= i < m -> 0 <= f i < m) ->
  (forall i j, 0 <= i < m -> 0 <= j < m -> f i = f j -> i = j) ->
  0 <= v < m -> exists i, 0 <= i < m /\ f i = v.
Proof.
  intros Hf Hi Hv.
  assert (Hin : In v (map f (seqZ 0 m))).
  { apply (NoDup_length_incl (l := map f (seqZ 0 m)) (l' := seqZ 0 m)).
    - apply NoDup_ListNoDup. apply NoDup_fmap_2_strong; [|apply NoDup_seqZ].
      intros i j. rewrite !elem_of_seqZ. intros. apply Hi; lia.
    - by rewrite length_map.
    - intros x. rewrite <- !list_elem_of_In, list_elem_of_fmap, elem_of_seqZ.
      intros (i & -> & H%elem_of_seqZ). specialize (Hf i). lia.
    - apply list_elem_of_In, elem_of_seqZ. lia. }
  apply list_elem_of_In, list_elem_of_fmap in Hin as (i & -> & H%elem_of_seqZ). exists i. split; [lia|done].
Qed.

(** *** The cycle *)
Lemma power_mult_zero k x : 0 <= k -> (16807 ^ k * x) mod rand_mod = 0 -> x mod rand_mod = 0.
Proof.
  revert k. refine (natlike_ind _ _ _); [by rewrite Z.mul_1_l|]. intros k Hk IH.
  rewrite Z.pow_succ_r, <- Z.mul_assoc by done. intros H. by apply IH, rand_mult_zero.
Qed.

(** Multiplying by [p] fixes a power of 7^5 only when [p] is 1. *)
Lemma power_cancel k p : 0 <= k -> (p * 16807 ^ k) mod rand_mod = 16807 ^ k mod rand_mod -> p mod rand_mod = 1.
Proof.
  intros Hk E. assert (Em : (16807 ^ k * (p - 1)) mod rand_mod = 0).
  { replace (16807 ^ k * (p - 1)) with (p * 16807 ^ k - 16807 ^ k) by lia. by rewrite Zminus_mod, E, Z.sub_diag. }
  apply power_mult_zero, Z.mod_divide in Em as [q Eq]; [|done|done].
  replace p with (1 + q * rand_mod) by lia. by rewrite Z_mod_plus_full.
Qed.

Lemma power_range k : 0 <= k -> 0 < 16807 ^ k mod rand_mod < rand_mod.
Proof.
  intros Hk. pose proof (Z.mod_pos_bound (16807 ^ k) rand_mod ltac:(done)).
  destruct (decide (16807 ^ k mod rand_mod = 0)) as [E|]; [|lia].
  rewrite <- (Z.mul_1_r (16807 ^ k)) in E. by apply power_mult_zero in E.
Qed.

Lemma powers_distinct_le i j :
  0 <= i <= j -> j < rand_count -> 16807 ^ i mod rand_mod = 16807 ^ j mod rand_mod -> i = j.
Proof.
  intros Hij Hj E. replace j with ((j - i) + i) in E by lia. rewrite Z.pow_add_r in E by lia. symmetry in E.
  apply power_cancel in E; [|lia]. fold (is_order (j - i)) in E. apply is_order_iff in E as [q Eq]; [|lia].
  unfold rand_count in *. nia.
Qed.

(** 7^5 generates every value. *)
Lemma rand_power s : 0 <= s < rand_count -> exists k, 0 <= k < rand_count /\ 16807 ^ k mod rand_mod = s + 1.
Proof.
  intros Hs. destruct (bounded_surjective rand_count (fun k => 16807 ^ k mod rand_mod - 1) s) as (k & Hk & E); [| |done|].
  - intros i Hi. pose proof (power_range i ltac:(lia)). unfold rand_mod, rand_count in *. lia.
  - intros i j Hi Hj E. destruct (Z.le_ge_cases i j); [|symmetry]; apply powers_distinct_le; lia.
  - exists k. split; [done|lia].
Qed.

Lemma rand_in_range i s : 0 <= s < rand_count -> 0 <= Nat.iter i do_rand s < rand_count.
Proof. destruct i; [done|]. intros _. apply do_rand_step. Qed.

(** From a value of its range the generator comes back to it exactly at the
    multiples of 2^31 - 2. *)
Lemma rand_returns s n :
  0 <= s < rand_count -> Nat.iter n do_rand s = s <-> (rand_count | Z.of_nat n).
Proof.
  intros Hs. rewrite <- is_order_iff, rand_iter by (done || lia). unfold is_order.
  destruct (rand_power s Hs) as (k & Hk & Ek). split.
  - intros E. apply (power_cancel k); [lia|]. rewrite <- Z.mul_mod_idemp_r, Ek by done. lia.
  - intros E. rewrite Z.mul_mod, E, Z.mul_1_l, Z.mod_mod, Z.mod_small by (done || (unfold rand_mod, rand_count in *; lia)). lia.
Qed.

Lemma rand_same_le s i j :
  0 <= s < rand_count -> (i <= j)%nat ->
  Nat.iter j do_rand s = Nat.iter i do_rand s <-> (rand_count | Z.of_nat j - Z.of_nat i).
Proof.
  intros Hs Hij. destruct (Nat.le_exists_sub i j Hij) as (n & -> & _).
  rewrite Nat.iter_add, rand_returns by by apply rand_in_range.
  by replace (Z.of_nat (n + i) - Z.of_nat i) with (Z.of_nat n) by lia.
Qed.

Lemma rand_same s i j :
  0 <= s < rand_count ->
  Nat.iter j do_rand s = Nat.iter i do_rand s <-> (rand_count | Z.of_nat j - Z.of_nat i).
Proof.
  intros Hs. destruct (Nat.le_ge_cases i j); [by apply rand_same_le|].
  rewrite <- Z.divide_opp_r, Z.opp_sub_distr, Z.add_comm, Z.add_opp_r, <- rand_same_le by done. done.
Qed.

(** [rand] has the longest period it can have: after any first call, on any
    context, each of the values 0, ..., 2^31 - 3 is returned by exactly one of
    the next 2^31 - 2 calls. *)
Theorem rand_full_period ctx v :
  0 <= v < rand_count ->
  exists n, Z.of_nat n < rand_count
  /\ forall m, Nat.iter m do_rand (do_rand ctx) = v <-> (rand_count | Z.of_nat m - Z.of_nat n).
Proof.
  intros Hv. pose proof (proj2 (do_rand_step ctx)) as Hs. set (s := do_rand ctx) in *.
  destruct (bounded_surjective rand_count (fun i => Nat.iter (Z.to_nat i) do_rand s) v) as (k & Hk & E); [| |done|].
  - intros i _. by apply rand_in_range.
  - intros i j Hi Hj E. apply rand_same in E as [q Eq]; [|done]. unfold rand_count in *. nia.
  - exists (Z.to_nat k). split; [lia|]. intros m. rewrite <- E. by apply rand_same.
Qed.
