(* ===== verification/Tests.v ===== *)
(** * Small test programs of src/user

    forktest, stressfs, logstress, dorphan, forphan, waitpidtest, test_ismyear,
    test_priority and synctest, as trees of system calls.  Their loops are
    counted, but for those that wait to be killed, which take fuel.

    forktest is proved to tell a kernel that runs out of processes, and reports
    each of them once to [wait], from one that does not; logstress is proved to
    write past its buffer. *)
From S2P Require Import Prelude State CString Printf Sysfile Uprog.

Open Scope Z_scope.

(** [for(i = 0; i < n; i++) body(i)], [i] counting from [i0]. *)
Fixpoint repeat_from (n : nat) (i0 : Z) (body : Z -> prog unit) : prog unit :=
  match n with
  | O => mret tt
  | S n' => _ ← body i0; repeat_from n' (i0 + 1) body
  end.

(** What a status variable holds after [wait] or [waitpid] on it. *)
Definition status_of (st : Z) (r : option (Z * Z)) : Z := match r with Some (_, st') => st' | None => st end.
Definition pid_of (r : option (Z * Z)) : Z := match r with Some (pid, _) => pid | None => -1 end.

(** ** forktest.c *)
Definition print (s : string) : prog unit := _ ← call (Write 1 (str s)); mret tt.

Definition FORKTEST_N : nat := 1000.

(** The loop over [fork]: the value of [n] after it; [left] is N - n. *)
Fixpoint forktest_forks (left : nat) (n : Z) : prog Z :=
  match left with
  | O => mret n
  | S left' =>
      pid ← call Fork;
      if pid <? 0 then mret n
      else if pid =? 0 then Exit 0
      else forktest_forks left' (n + 1)
  end.

Fixpoint forktest_waits (n : nat) : prog unit :=
  match n with
  | O => mret tt
  | S n' =>
      r ← call Wait;
      if r <? 0 then _ ← print ("wait stopped early" ++ nl); Exit 1
      else forktest_waits n'
  end.

Definition forktest : prog unit :=
  _ ← print ("fork test" ++ nl);
  n ← forktest_forks FORKTEST_N 0;
  if n =? Z.of_nat FORKTEST_N then _ ← print ("fork claimed to work N times!" ++ nl); Exit 1
  else
  _ ← forktest_waits (Z.to_nat n);
  r ← call Wait;
  if negb (r =? -1) then _ ← print ("wait got too many" ++ nl); Exit 1
  else print ("fork test OK" ++ nl).

Definition forktest_main : prog unit := _ ← forktest; Exit 0.

(** ** stressfs.c *)

(** The loop over [fork]: the value of [i] the process leaves it with. *)
Fixpoint stressfs_forks (left : nat) (i : Z) : prog Z :=
  match left with
  | O => mret i
  | S left' => pid ← call Fork; if 0 <? pid then mret i else stressfs_forks left' (i + 1)
  end.

Definition stressfs_main : prog unit :=
  _ ← uprintf ("stressfs starting" ++ nl) [];
  let data := replicate 512 97 in
  i ← stressfs_forks 4 0;
  _ ← uprintf ("write %d" ++ nl) [AInt i];
  let path := str "stressfs" ++ [uint8 (48 + i)] in
  fd ← call (Open path (Z.lor O_CREATE O_RDWR));
  _ ← repeat_from 20 0 (fun _ => _ ← call (Write fd data); mret tt);
  _ ← call (Close fd);
  _ ← uprintf ("read" ++ nl) [];
  fd ← call (Open path O_RDONLY);
  _ ← repeat_from 20 0 (fun _ => _ ← call (Read fd 512); mret tt);
  _ ← call (Close fd);
  _ ← call Wait;
  Exit 0.

(** ** logstress.c *)
Definition BUFSZ : Z := 500.
Definition LOGSTRESS_N : nat := 250.
Definition SZ : Z := 2000.

(** The memory of a child after its [memset] of [buf]. *)
Definition logstress_fill (m : gmap Z Z) (buf i : Z) : gmap Z Z := umemset m buf (48 + i) SZ.

(** The child for argument [i]: [m] is its memory, [buf] the address of [buf]. *)
Definition logstress_child (m : gmap Z Z) (buf : Z) (argv : list (list Z)) (i : nat) : prog unit :=
  let arg j := nth j argv [] in
  fd ← call (Open (arg i) (Z.lor O_CREATE O_RDWR));
  if fd <? 0 then _ ← uprintf ("%s: create %s failed" ++ nl) [SArg (arg 0%nat); SArg (arg i)]; Exit 1 else
  let m := logstress_fill m buf (Z.of_nat i) in
  _ ← repeat_from LOGSTRESS_N 0 (fun _ =>
        n ← call (Write fd (map (load8 m) (seqZ buf SZ)));
        if negb (n =? SZ) then _ ← uprintf ("write failed %d" ++ nl) [AInt n]; Exit 1 else mret tt);
  Exit 0.

Fixpoint logstress_forks (left i : nat) (m : gmap Z Z) (buf : Z) (argv : list (list Z)) : prog unit :=
  match left with
  | O => mret tt
  | S left' =>
      pid1 ← call Fork;
      if pid1 <? 0 then _ ← uprintf ("%s: fork failed" ++ nl) [SArg (nth 0 argv [])]; Exit 1
      else if pid1 =? 0 then logstress_child m buf argv i
      else logstress_forks left' (S i) m buf argv
  end.

(** [xstatus] keeps its value, at first whatever the stack holds, when [wait]
    fails. *)
Fixpoint logstress_waits (left : nat) (xstatus : Z) : prog unit :=
  match left with
  | O => mret tt
  | S left' =>
      r ← call CallWait;
      let xstatus := status_of xstatus r in
      if negb (xstatus =? 0) then Exit xstatus else logstress_waits left' xstatus
  end.

(** [main] returns 0, and [start] of ulib.c exits with it. *)
Definition logstress_main (m : gmap Z Z) (buf xstatus : Z) (argv : list (list Z)) : prog unit :=
  let n := pred (length argv) in
  _ ← logstress_forks n 1 m buf argv;
  _ ← logstress_waits n xstatus;
  Exit 0.

(** ** dorphan.c and forphan.c *)
Fixpoint pause_forever (fuel : nat) : prog unit :=
  match fuel with
  | O => NoFuel
  | S fuel' => _ ← call (Pause 1000); pause_forever fuel'
  end.

Definition dorphan_main (fuel : nat) (argv : list (list Z)) : prog unit :=
  let s := nth 0 argv [] in
  r ← call (Mkdir (str "dd"));
  if negb (r =? 0) then _ ← uprintf ("%s: mkdir dd failed" ++ nl) [SArg s]; Exit 1 else
  r ← call (Chdir (str "dd"));
  if negb (r =? 0) then _ ← uprintf ("%s: chdir dd failed" ++ nl) [SArg s]; Exit 1 else
  r ← call (Unlink (str "../dd"));
  if r <? 0 then _ ← uprintf ("%s: unlink failed" ++ nl) [SArg s]; Exit 1 else
  _ ← uprintf ("wait for kill and reclaim" ++ nl) [];
  pause_forever fuel.

Definition forphan_main (fuel : nat) (argv : list (list Z)) : prog unit :=
  let s := nth 0 argv [] in
  let ff := str "file0" in
  fd ← call (Open ff (Z.lor O_CREATE O_WRONLY));
  if fd <? 0 then _ ← uprintf ("%s: open failed" ++ nl) [SArg s]; Exit 1 else
  st ← call (Fstat fd);
  match st with
  | None => _ ← fprintf 2 ("%s: cannot stat %s" ++ nl) [SArg s; SArg (str "ff")]; Exit 1
  | Some st =>
      r ← call (Unlink ff);
      if r <? 0 then _ ← uprintf ("%s: unlink failed" ++ nl) [SArg s]; Exit 1 else
      r ← call (Open ff O_RDONLY);
      if negb (r =? -1) then _ ← uprintf ("%s: open successed" ++ nl) [SArg s]; Exit 1 else
      _ ← uprintf ("wait for kill and reclaim %d" ++ nl) [AInt (st_ino st)];
      pause_forever fuel
  end.

(** ** waitpidtest.c *)

(** The loop over [wait]: it ends when there is no child left, which takes at
    most as many turns as there are children. *)
Fixpoint waitpidtest_loop (fuel : nat) : prog unit :=
  match fuel with
  | O => NoFuel
  | S fuel' =>
      r ← call CallWait;
      if 0 <? pid_of r then
        _ ← uprintf ("wait collected one child, status = %d" ++ nl) [AInt (status_of 0 r)];
        waitpidtest_loop fuel'
      else mret tt
  end.

(** [st] is the value of the variable before the first call. *)
Definition waitpidtest_main (fuel : nat) (st : Z) : prog unit :=
  p1 ← call Fork;
  if p1 =? 0 then _ ← call (Pause 20); Exit 11 else
  p2 ← call Fork;
  if p2 =? 0 then _ ← call (Pause 5); Exit 22 else
  p3 ← call Fork;
  if p3 =? 0 then _ ← call (Pause 10); Exit 33 else
  _ ← uprintf ("Parent waiting specifically for child pid = %d" ++ nl) [AInt p3];
  r ← call (CallWaitpid p3);
  _ ← uprintf ("waitpid returned pid = %d, status = %d" ++ nl) [AInt (pid_of r); AInt (status_of st r)];
  _ ← uprintf ("Now collecting remaining children using wait()" ++ nl) [];
  _ ← waitpidtest_loop fuel;
  Exit 0.

(** ** test_ismyear.c, test_priority.c and synctest.c *)
Definition test_ismyear_main : prog unit :=
  y ← call CallIsmyear;
  _ ← uprintf ("ismyear returned: %d" ++ nl) [AInt y];
  Exit 0.

(** A child of test_priority: the counting loop has no effect but time. *)
Definition test_priority_child (priority : Z) (ticks : option Z) (msg : string) : prog unit :=
  pid ← call CallGetpid;
  _ ← call (CallSetp pid priority);
  _ ← match ticks with Some n => _ ← call (Pause n); mret tt | None => mret tt end;
  _ ← uprintf (msg ++ nl) [];
  Exit 0.

Definition test_priority_main : prog unit :=
  pid ← call Fork;
  if pid =? 0 then test_priority_child 10 (Some 20) "Child with priority 10 finished" else
  pid ← call Fork;
  if pid =? 0 then test_priority_child 50 (Some 10) "Child with priority 50 finished" else
  pid ← call Fork;
  if pid =? 0 then test_priority_child 100 None "Child with priority 100 finished" else
  _ ← call CallWait; _ ← call CallWait; _ ← call CallWait;
  Exit 0.

Definition synctest_child (mutex : Z) : prog unit :=
  _ ← repeat_from 10 0 (fun j =>
        _ ← call (CallMutexAcquire mutex);
        pid ← call CallGetpid;
        _ ← uprintf ("child %d increment %d" ++ nl) [AInt pid; AInt j];
        _ ← call (CallMutexRelease mutex); mret tt);
  Exit 0.

Definition synctest_main : prog unit :=
  let mutex := 0 in
  r ← call (CallMutexInit mutex);
  if r <? 0 then _ ← uprintf ("mutex_init failed" ++ nl) []; Exit 1 else
  _ ← repeat_from 5 0 (fun _ => pid ← call Fork; if pid =? 0 then synctest_child mutex else mret tt);
  _ ← repeat_from 5 0 (fun _ => _ ← call Wait; mret tt);
  _ ← uprintf ("Test completed" ++ nl) [];
  Exit 0.

(** ** forktest on a kernel with a bounded number of processes *)

(** [t_room] processes can still be created, [t_kids] children run or wait to be
    collected, [t_out] is what was written. *)
Record procs := mkProcs { t_room : nat; t_kids : nat; t_out : list (list Z) }.

Section ForkTest.
(** The pids the kernel gives out. *)
Context (pids : procs -> Z) (pids_pos : forall w, 0 < pids w).

(** The parent's view: every child exits, and [wait] collects one of them, or
    fails when there is none. *)
Definition procs_handler : call_handler procs := fun c w =>
  match c as c return option (ans c * procs) with
  | Fork =>
      match t_room w with
      | O => Some (-1, w)
      | S room => Some (pids w, mkProcs room (S (t_kids w)) (t_out w))
      end
  | Wait =>
      match t_kids w with
      | O => Some (-1, w)
      | S kids => Some (pids w, mkProcs (S (t_room w)) kids (t_out w))
      end
  | Write _ bs => Some (Z.of_nat (length bs), mkProcs (t_room w) (t_kids w) (t_out w ++ [bs]))
  | _ => None
  end.

Lemma run_print s w :
  run_prog procs_handler (print s) w = Returned tt (mkProcs (t_room w) (t_kids w) (t_out w ++ [str s])).
Proof. done. Qed.

Lemma run_forks left n room kids out :
  run_prog procs_handler (forktest_forks left n) (mkProcs room kids out)
  = Returned (n + Z.of_nat (Nat.min left room))
      (mkProcs (room - Nat.min left room) (kids + Nat.min left room) out).
Proof.
  revert n room kids. induction left as [|left IH]; intros n room kids.
  - cbn. by rewrite Z.add_0_r, Nat.sub_0_r, Nat.add_0_r.
  - cbn [forktest_forks]. destruct room as [|room].
    + cbn. by rewrite Z.add_0_r, Nat.add_0_r.
    + rewrite (run_call_eq procs_handler Fork _ (mkProcs (S room) kids out) _ _ eq_refl).
      pose proof (pids_pos (mkProcs (S room) kids out)).
      rewrite (proj2 (Z.ltb_ge _ _)), (proj2 (Z.eqb_neq _ _)), IH by lia.
      cbn [Nat.min]. by rewrite Nat2Z.inj_succ, <- Z.add_1_l, Z.add_assoc, Nat.add_succ_r.
Qed.

Lemma run_waits n room kids out :
  run_prog procs_handler (forktest_waits n) (mkProcs room (n + kids) out) = Returned tt (mkProcs (n + room) kids out).
Proof.
  revert room. induction n as [|n IH]; intros room; [done|]. cbn [forktest_waits].
  set (w := mkProcs room (S n + kids) out).
  rewrite (run_call_eq procs_handler Wait _ w _ _ eq_refl).
  pose proof (pids_pos w). rewrite (proj2 (Z.ltb_ge _ _)), IH by lia.
  by rewrite Nat.add_succ_r.
Qed.

(** forktest exits with 0, after collecting every child it created, exactly when
    the kernel has room for fewer than 1000 processes, and with 1 otherwise. *)
Theorem forktest_detects room :
  run_prog procs_handler forktest_main (mkProcs room 0 []) =
  if decide (room < FORKTEST_N)%nat
  then Exited 0 (mkProcs room 0 [str ("fork test" ++ nl); str ("fork test OK" ++ nl)])
  else Exited 1 (mkProcs (room - FORKTEST_N) FORKTEST_N
                   [str ("fork test" ++ nl); str ("fork claimed to work N times!" ++ nl)]).
Proof.
  unfold forktest_main, forktest. generalize FORKTEST_N as N. intros N.
  rewrite run_prog_bind, (run_bind_eq _ _ _ _ _ _ (run_print _ _)), (run_bind_eq _ _ _ _ _ _ (run_forks _ _ _ _ _)).
  cbn [t_room t_kids t_out app]. rewrite Z.add_0_l. destruct (decide _) as [Hlt|Hge].
  - rewrite Nat.min_r, (proj2 (Z.eqb_neq _ _)), Nat2Z.id, Nat.sub_diag by lia.
    pose proof (run_waits room 0 0 [str ("fork test" ++ nl)]) as Hw. rewrite Nat.add_0_r in Hw.
    by rewrite (run_bind_eq _ _ _ _ _ _ Hw).
  - by rewrite Nat.min_l, Z.eqb_refl, (run_bind_eq _ _ _ _ _ _ (run_print _ _)) by lia.
Qed.
End ForkTest.

(** ** The buffer of logstress *)
Lemma load8_fill m dst c n a :
  0 <= n -> load8 (umemset m dst c n) a = if decide (dst <= a < dst + n) then uint8 c else load8 m a.
Proof.
  revert n. apply natlike_ind; [cbn; by rewrite decide_False by lia|]. intros n Hn IH.
  unfold umemset in *. rewrite <- Z.add_1_r, (seqZ_app 0 n 1), fold_left_app, (seqZ_cons (0 + n) 1), (seqZ_nil _ (Z.pred 1)), Z.add_0_l by lia. cbn [fold_left].
  rewrite load8_store8, IH. repeat case_decide; lia || done.
Qed.

(** Each child of logstress overwrites the 1500 bytes after its buffer. *)
Theorem logstress_overruns m buf i a :
  buf + BUFSZ <= a < buf + SZ -> load8 (logstress_fill m buf i) a = uint8 (48 + i).
Proof. intros Ha. unfold logstress_fill, BUFSZ, SZ in *. rewrite load8_fill, decide_True by lia. done. Qed.
